(* ===== verification/_CoqProject ===== *)
-Q . S2P
Prelude.v
GoStrings.v
Utf8.v
Vars.v
Digraph.v
NodeData.v
CmdUtil.v
Eval.v
Matcher.v
Paths.v
Template.v
Contexts.v
Node.v
Graph.v
GraphCycle.v
GraphSetup.v
GraphRetry.v
GraphProps.v
Sched.v
SchedInv.v
SchedOrder.v
SchedLimit.v
SchedResult.v
SchedReady.v
SchedProps.v
SchedCancel.v
SchedEnds.v
Model.v
JobSched.v
JobProps.v
History.v
HistoryProps.v
HistoryLife.v
Regex.v
Params.v
ParamsProps.v
StepBuild.v
Builder.v
BuilderProps.v
LoadProps.v
FileCache.v
Stores.v
Client.v
JsonStore.v
ClientProps.v
Grep.v
DagStore.v
DagStoreProps.v
FlagStore.v
Poller.v
Reporter.v
Agent.v
AgentRun.v
AgentProps.v
AgentStop.v
AgentEnds.v
SockServer.v
ApiSpec.v
ApiModels.v
ApiValidate.v
Handlers.v
HandlersProps.v
ApiValidateProps.v
Base64.v
Middleware.v
Routes.v
ApiUrls.v
ApiOperations.v
Configuration.v
Logger.v
Daemon.v
WebServer.v
WebServerProps.v
Commands.v
CommandsProps.v
Mailer.v
StructEval.v
Executors.v
RemoteExecutors.v
Docker.v
