(* ===== verification/Prelude.v ===== *)
(** * Verification of the dagu workflow engine: root file

    dagu runs workflows: directed acyclic graphs of steps declared in YAML
    files.  This library models the Go code under src/cmd and src/internal: what
    is run, when, what is recorded, who may ask for it and what is answered; and
    proves what makes it correct.

    ** Parts of the program and how they interact

    A workflow file is decoded and built into a [DAG] record
    (internal/digraph: loader.go, builder.go).  The agent (internal/agent) turns
    its steps into an execution graph and hands it to the scheduler
    (internal/digraph/scheduler), which runs one goroutine per step: each
    evaluates its strings in a context, checks its conditions, runs an executor
    (internal/digraph/executor) and writes its status; handlers follow.  The
    agent appends every change of status to a history file
    (internal/persistence/jsondb), answers questions on a socket (internal/sock)
    and sends reports.  From the history the status of a run is found again, with a
    cache of files in front (internal/persistence/filecache), and a retry graph is
    made.  The client (internal/client) joins the stores of workflows, histories
    and flags (internal/persistence/local) with the sockets and processes of runs;
    the daemon (internal/scheduler), the handlers of the web interface
    (internal/frontend) and the commands (cmd) act through it.  The interface is
    described by an embedded document from which its records, checks, addresses
    and answers were generated (internal/frontend/gen).

    ** Files of the library

    Foundations:
    - [Prelude]: errors as chains of wrapped causes, [result], loops with
      errors, generic lemmas, the hint database dagu.
    - [GoStrings], [Utf8], [Regex], [Base64], [Paths]: the parts of Go's strings,
      unicode/utf8, regexp, encoding/base64 and path/filepath packages the
      code calls, and internal/fileutil (name.go, fileutil.go).
    - [Vars]: stringutil/kv.go and digraph/syncmap.go.  [Matcher]:
      stringutil/matcher.go.
    - [CmdUtil], [Eval], [StructEval]: internal/cmdutil (cmd.go, sub.go, eval.go),
      splitting, joining, pipelines, substitution, variable and path references, and
      the evaluation of whole records.  [Template]: digraph/template.go.

    Workflows and runs:
    - [Digraph]: the records of digraph/step.go, dag.go and condition.go, one
      module per struct with the fields of the source.  [Contexts]:
      digraph/context.go, context_step.go and condition.go.
    - [NodeData], [Node]: scheduler/data.go and node.go.
    - [Graph], [GraphCycle], [GraphSetup], [GraphRetry], [GraphProps]:
      scheduler/graph.go, the definitions and the theory of each of its algorithms.
    - [Sched]: scheduler/scheduler.go.  [Schedule] is a transition system: the
      main loop, one program counter per goroutine, and the goroutine that
      signals or cancels, each step being one access to shared state under its
      lock.  The step functions [mstep], [gostep] and [sigstep] take the state
      and a [world], the answers of the outside at that moment, and the relation
      of all interleavings is built on them, so a run can be executed and all
      runs can be reasoned about.  [SchedInv], [SchedOrder], [SchedLimit],
      [SchedResult], [SchedReady] hold the invariants, [SchedProps], [SchedCancel]
      (cancellation, dry runs) and [SchedEnds] (termination) the properties.
    - [Executors], [RemoteExecutors], [Docker], [Mailer]: the executors of
      digraph/executor and internal/mailer, on the operations of the outside.
    - [Params], [StepBuild], [Builder] with [ParamsProps], [BuilderProps],
      [LoadProps]: digraph/params.go, spec.go, the builders of a step and of a
      workflow, schedule.go, variables.go, loader.go and fileutil/resolver.go.
    - [Reporter], [Agent], [AgentRun], [AgentProps], [AgentStop], [AgentEnds]:
      internal/agent, a run as a step relation with the scheduler inside it, and
      the dry run.
      [SockServer]: internal/sock/server.go as steps.

    Stores and their clients:
    - [Model]: internal/persistence/model.  [History], [HistoryProps],
      [HistoryLife]: internal/persistence/jsondb on a map from paths to contents,
      with the outcome of every system call an argument.  [FileCache]:
      filecache.go.  [JsonStore]: the history with the cache in front.
    - [DagStore], [DagStoreProps], [Grep], [FlagStore]: internal/persistence/local
      and grep.
    - [Stores]: the interfaces of the stores as classes; [Client], [ClientProps]:
      internal/client proved against them, the stores side by side its module [App].
    - [JobSched], [JobProps], [Daemon]: internal/scheduler, what a tick starts and
      the life of the daemon as a step relation.  [Poller]: filenotify/poller.go.

    Interface and commands:
    - [ApiSpec]: the embedded document, what it means to conform to a schema.
      [ApiModels], [ApiValidate], [ApiValidateProps]: the records, one module each,
      their checks and encoding.  [ApiUrls]: the addresses.  [ApiOperations]: the
      answers, the operations, their registry (configure_dagu.go, dagu_api.go).
    - [Handlers], [HandlersProps]: internal/frontend/handlers.  [Routes]: from a
      request to its answer.  [Middleware]: internal/frontend/middleware.
    - [Configuration]: internal/config.  [WebServer], [WebServerProps]: frontend.go,
      server/server.go, gen/restapi/server.go.  [Logger]: internal/logger.
      [Commands], [CommandsProps]: cmd.

    State of the code is a record passed through functions; errors are values of
    [result]; a Go panic is the error [panic]; the process environment is a map
    passed along; [time.Duration] and [int] wrap at 64 bits where they are
    computed.  A Go map whose order of range can be observed is a list, or
    comes with an argument that gives the order.  Goroutines are step relations
    whose steps are the accesses to what is shared.  In the scheduler a handler, to
    which nothing else writes, runs in one step of the main loop, and the panic of a
    goroutine comes from the run of its executor.

    ** What the theorems show

    - Execution graph ([GraphProps]): cycle detection is exact, the constructor
      returns the declared dependencies or the right error, a retry clears
      exactly what depends on a failure.
    - Scheduler ([SchedProps], [SchedCancel], [SchedEnds]): in every interleaving
      steps wait for their dependencies, no step runs twice at once, the limit of
      parallel steps holds (all three unless a step both repeats and continues on
      failure: repeating_failures_overlap), the result and the handlers agree with
      what happened, and cancellation starts nothing more.  Without repeating steps, or once
      cancelled, the goroutines make a bounded number of moves (a potential falls
      with each of them), and from every reachable state the run can return.
    - Agent ([AgentProps], [AgentStop], [AgentEnds]): a run is recorded whatever
      the interleaving, a workflow is not run twice at once, the loop that stops a
      run ends with every node seen at rest or visited with SIGKILL (what that is
      worth for a process that ignores the first signal, or a step that repeats, is
      in ignored_signal_outlives and repeating_step_is_spared), a dry run leaves
      nothing behind, and a run that repeats nothing or is cancelled can return from
      every state, unless its reader of notifications died of a panic.
    - Daemon ([JobProps], [Daemon], [Poller]): each activation fires at exactly one
      tick and starts at most one run; the daemon runs the minutes in order, each on
      the registry and the suspensions of its moment, and once told is a few steps
      from its end, unless it is told too early; changes of files are reported.
    - History and stores ([HistoryProps], [HistoryLife], [FileCache], [JsonStore],
      [DagStoreProps], [ClientProps]): compaction loses nothing whatever fails,
      finished runs are found again, the caches are not stale while the times of
      files advance, pages partition the list of what matches, a running status is
      the word of the agent.
    - Builder and loader ([BuilderProps], [LoadProps], [ParamsProps]): steps are
      those declared, the metadata build agrees with the whole build.
    - Interface ([ApiValidateProps], [ApiUrls], [ApiOperations], [Middleware],
      [HandlersProps], [WebServerProps]): the generated checks decide conformance to
      the document but for null elements of arrays, addresses lead back to their parameters, exactly the documented
      operations are served, nobody passes without the credentials, forwarded
      requests are admitted, marking a step changes that step, and the status of a run
      left running.
    - Commands ([CommandsProps]), executors ([Executors]), logs ([Logger]), texts
      ([Paths], [CmdUtil], [Base64]): a restart waits, a rerun keeps its
      parameters, a command's outcome is recorded, lines of a log stay whole.

    ** Fuel

    Loops that are not structural take a bound that is proved, or evident from
    the code, to suffice: cycle detection one unit per node (hasCycle_iff_cyclic
    shows that it always answers); the retry walk one level per node (its theorem
    shows it ends on an acyclic graph); the upstream search of the context one
    unit and one per edge (upstream_loop_total shows it is enough); the scanners of strings, documents, regular
    expressions and UTF-8 the length of what is left, since every round
    consumes at least one byte; the loop that stops a run the turns that
    signal_ends bounds; the loop of a restart as many questions as are answered
    that the run goes on.  The scheduler, the agent, the daemon, the socket and the
    loggers take no fuel: they are step relations.

    ** Arguments and hypotheses

    Code that is not the program's is an argument of the definitions that use
    it: the shell and processes, the process environment, the file system's
    answers, JSON, YAML and mapstructure decoding, the cron, jq, HTTP, SSH and
    Docker libraries, viper and cobra, the go-openapi runtime, slog's texts, the
    template engine, godotenv, mergo, MD5, clocks and time formats, Unicode
    tables.  The theorems assume of them only what is named in their statements (for
    instance that encoding a status gives one line and that decoding inverts it).

    ** Not modelled

    The web interface is TypeScript.  The wrapper around fsnotify (fsnotify.go) only
    forwards to that library, and the channels of the poller only hand its events on.
    The parsing of command lines is cobra's.  The helpers of tests (internal/test)
    and the second copy of the document (FlatSwaggerJSON, the same text) are left
    out. *)

From stdpp Require Export base tactics option list gmap strings sorting relations.
From Stdlib Require Export ZArith Lia.

(** ** Error values

    Go errors are a chain: [errors.New] is a leaf, [fmt.Errorf] with a [%w]
    verb wraps a cause between two pieces of text. *)

Inductive error :=
| ENew (msg : string)
| EWrap (pre : string) (cause : error) (post : string).

#[export] Instance error_eq_dec : EqDecision error.
Proof. solve_decision. Defined.

(** [errors.Is]: the error or one of its causes is the target. *)
Fixpoint errors_is (e target : error) : bool :=
  bool_decide (e = target) ||
  match e with
  | ENew _ => false
  | EWrap _ c _ => errors_is c target
  end.

(** [err.Error()]. *)
Fixpoint error_text (e : error) : string :=
  match e with
  | ENew m => m
  | EWrap pre c post => String.append pre (String.append (error_text c) post)
  end.

(** A run-time panic (an index out of range, a nil dereference), kept apart
    from every error the code returns. *)
Definition panic (msg : string) : error := ENew (String.append "panic: " msg).

Lemma errors_is_refl e : errors_is e e = true.
Proof. destruct e; simpl; rewrite bool_decide_true by done; done. Qed.

Lemma errors_is_wrap pre c post t :
  errors_is c t = true -> errors_is (EWrap pre c post) t = true.
Proof. simpl. intros ->. by rewrite orb_true_r. Qed.

(** ** Fallible computations: a value or a Go error *)

Inductive result (A : Type) :=
| Ok (a : A)
| Err (e : error).
Arguments Ok {A} a.
Arguments Err {A} e.

#[export] Instance result_ret : MRet result := fun A a => Ok a.
#[export] Instance result_bind : MBind result := fun A B f m =>
  match m with Ok a => f a | Err e => Err e end.
#[export] Instance result_fmap : FMap result := fun A B f m =>
  match m with Ok a => Ok (f a) | Err e => Err e end.

#[export] Instance result_eq_dec {A} `{EqDecision A} : EqDecision (result A).
Proof. solve_decision. Defined.

Definition is_ok {A} (r : result A) : bool :=
  match r with Ok _ => true | Err _ => false end.

(** A loop that returns at the first error. *)
Fixpoint mapE {A B} (f : A -> result B) (l : list A) : result (list B) :=
  match l with
  | [] => Ok []
  | x :: l' =>
      match f x with
      | Err e => Err e
      | Ok y => match mapE f l' with Err e => Err e | Ok ys => Ok (y :: ys) end
      end
  end.

(** A loop over a list that threads a state and stops at the first error. *)
Fixpoint foldE {A S} (f : S -> A -> result S) (s : S) (l : list A) : result S :=
  match l with
  | [] => Ok s
  | x :: l' => match f s x with Err e => Err e | Ok s' => foldE f s' l' end
  end.

Create HintDb dagu.

Lemma Ok_inj {A} (a b : A) : Ok a = Ok b -> a = b.
Proof. by inversion 1. Qed.

Lemma mapE_ok_Forall2 {A B} (f : A -> result B) l ys :
  mapE f l = Ok ys <-> Forall2 (fun x y => f x = Ok y) l ys.
Proof.
  revert ys. induction l as [|x l IH]; intros ys; simpl.
  - split; [intros [= <-]; constructor | by inversion 1].
  - split.
    + destruct (f x) eqn:Hx; [|done].
      destruct (mapE f l) eqn:Hl; [|done].
      intros [= <-]. constructor; [done|]. by apply IH.
    + inversion 1 as [|? y ? ys' Hx Hl]; subst. rewrite Hx.
      apply IH in Hl. by rewrite Hl.
Qed.

Lemma mapE_err {A B} (f : A -> result B) l e :
  mapE f l = Err e ->
  exists l1 x l2, l = l1 ++ x :: l2 /\ f x = Err e /\ Forall (fun y => is_ok (f y) = true) l1.
Proof.
  induction l as [|x l IH]; simpl; [done|].
  destruct (f x) eqn:Hx.
  - destruct (mapE f l) eqn:Hl; [done|]. intros [= ->].
    destruct IH as (l1 & y & l2 & -> & ? & ?); [done|].
    exists (x :: l1), y, l2. split_and!; try done.
    constructor; [by rewrite Hx | done].
  - intros [= ->]. by exists [], x, l.
Qed.

Lemma mapE_all_ok {A B} (f : A -> result B) (g : A -> B) l :
  (forall x, x ∈ l -> f x = Ok (g x)) -> mapE f l = Ok (g <$> l).
Proof.
  intros H. apply mapE_ok_Forall2. apply Forall2_fmap_r, Forall_Forall2_diag.
  apply Forall_forall. eauto.
Qed.

Lemma foldE_app {A S} (f : S -> A -> result S) s l1 l2 :
  foldE f s (l1 ++ l2) = (s' ← foldE f s l1; foldE f s' l2).
Proof.
  revert s. induction l1 as [|x l1 IH]; intros s; simpl; [done|].
  destruct (f s x); [apply IH | done].
Qed.

(** ** Tactics of the development *)

(** Split conjunctive hypotheses, substitute, case the option/bool/result
    scrutinees of the goal. *)
Ltac case_res :=
  match goal with
  | |- context [match ?r with Ok _ => _ | Err _ => _ end] => destruct r eqn:?
  | H : context [match ?r with Ok _ => _ | Err _ => _ end] |- _ => destruct r eqn:?
  end.

Ltac crush :=
  repeat (case_match || case_res); simplify_eq/=; try done; eauto with dagu.

(** ** Lists *)

Section list_lemmas.
Context {A : Type}.

Lemma NoDup_length_le `{EqDecision A} (l k : list A) :
  NoDup l -> (forall x, x ∈ l -> x ∈ k) -> length l <= length k.
Proof. intros Hl Hk. apply submseteq_length, NoDup_submseteq; auto. Qed.

Lemma not_NoDup_lookup `{EqDecision A} (l : list A) :
  ~ NoDup l -> exists i j x, i < j /\ l !! i = Some x /\ l !! j = Some x.
Proof.
  induction l as [|x l IH]; intros Hn; [by destruct Hn; constructor|].
  destruct (decide (x ∈ l)) as [Hx|Hx].
  - apply list_elem_of_lookup in Hx as [j Hj]. exists 0, (S j), x. split; [lia|done].
  - destruct IH as (i & j & y & ? & ? & ?).
    + intros ?. apply Hn. by constructor.
    + exists (S i), (S j), y. split; [lia|done].
Qed.

Lemma exists_elem_of_cons (P : A -> Prop) x (l : list A) :
  (exists y, y ∈ x :: l /\ P y) <-> P x \/ exists y, y ∈ l /\ P y.
Proof.
  split.
  - intros (y & [->|Hy]%elem_of_cons & HP); eauto.
  - intros [HP|(y & Hy & HP)]; eexists; (split; [|done]); [by left|by right].
Qed.

End list_lemmas.

(** ** Walks in a finite relation

    [walk R l] says that consecutive elements of [l] are related.  A walk
    longer than the set it stays in repeats a vertex, hence the relation has
    a cycle: the argument behind both graph algorithms of the scheduler. *)

Section walks.
Context {A : Type} (R : A -> A -> Prop).

Fixpoint walk (l : list A) : Prop :=
  match l with
  | x :: ((y :: _) as l') => R x y /\ walk l'
  | _ => True
  end.

Lemma walk_lookup l i x y :
  walk l -> l !! i = Some x -> l !! S i = Some y -> R x y.
Proof.
  revert i. induction l as [|a l IH]; intros i Hw Hx Hy; [done|].
  destruct l as [|b l]; [by destruct i|]. destruct Hw as [Hab Hw].
  destruct i as [|i]; simpl in *; simplify_eq; [done|]. by eapply IH.
Qed.

Lemma walk_tc l i j x y :
  walk l -> i < j -> l !! i = Some x -> l !! j = Some y -> tc R x y.
Proof.
  intros Hw Hij. revert y. induction Hij as [|j Hij IH]; intros y Hx Hy.
  - apply tc_once. by eapply walk_lookup.
  - assert (is_Some (l !! j)) as [z Hz].
    { apply lookup_lt_is_Some. apply lookup_lt_Some in Hy. lia. }
    eapply tc_r; [by apply IH|]. by eapply walk_lookup.
Qed.

Lemma walk_cycle `{EqDecision A} (l s : list A) :
  walk l -> (forall x, x ∈ l -> x ∈ s) -> length s < length l ->
  exists x, tc R x x.
Proof.
  intros Hw Hs Hlen.
  destruct (decide (NoDup l)) as [Hnd|Hnd].
  - pose proof (NoDup_length_le l s Hnd Hs). lia.
  - apply not_NoDup_lookup in Hnd as (i & j & x & Hij & Hi & Hj).
    exists x. by eapply walk_tc.
Qed.

(** A nonempty finite set in which everybody has a predecessor has a cycle. *)
Lemma pred_closed_cycle `{EqDecision A} (s : list A) (P : A -> Prop) (v : A) :
  P v -> (forall x, P x -> x ∈ s) ->
  (forall x, P x -> exists y, P y /\ R y x) ->
  exists x, tc R x x.
Proof.
  intros Hv Hs Hpred.
  assert (forall n, exists l x, length l = n /\ walk (x :: l) /\ P x /\ Forall P l)
    as Hwalk.
  { induction n as [|n (l & x & Hlen & Hw & Hx & Hl)].
    - exists [], v. by repeat split.
    - destruct (Hpred x Hx) as (y & Hy & Hyx).
      exists (x :: l), y. split_and!; simpl; auto. }
  destruct (Hwalk (length s)) as (l & x & Hlen & Hw & Hx & Hl).
  apply (walk_cycle (x :: l) s); [done| |simpl; lia].
  intros y [->|Hy]%elem_of_cons; [auto|].
  apply Hs. rewrite Forall_forall in Hl. auto.
Qed.

End walks.
