(* ===== verification/GoStrings.v ===== *)
(** * The part of Go's [strings] package the program uses

    A Go string is a byte sequence: [string] here, with the algorithms on
    [list ascii].  Searching, splitting and trimming by ASCII characters work on
    the bytes, as in Go; what depends on runes is in Utf8.  Lemmas: [cut] finds the first
    occurrence, [Split] inverts [Join] for a separator with no border. *)

From S2P Require Import Prelude.
From Stdlib Require Import Ascii String.
Import stdpp.list stdpp.base.
Open Scope list_scope.

Abbreviation bytes := (list ascii).

Definition s2l (s : string) : bytes := String.list_ascii_of_string s.
Definition l2s (l : bytes) : string := String.string_of_list_ascii l.

Lemma l2s_s2l s : l2s (s2l s) = s.
Proof. apply String.string_of_list_ascii_of_string. Qed.
Lemma s2l_l2s l : s2l (l2s l) = l.
Proof. apply String.list_ascii_of_string_of_list_ascii. Qed.

Lemma s2l_inj s t : s2l s = s2l t -> s = t.
Proof. intros H. by rewrite <- (l2s_s2l s), <- (l2s_s2l t), H. Qed.

Lemma s2l_app s t : s2l (String.append s t) = s2l s ++ s2l t.
Proof. induction s as [|c s IH]; simpl; [done|]. by rewrite IH. Qed.

Lemma l2s_app l k : l2s (l ++ k) = String.append (l2s l) (l2s k).
Proof. apply s2l_inj. by rewrite s2l_app, !s2l_l2s. Qed.

(** ** Prefixes and occurrences *)

Definition has_prefixl (p l : bytes) : bool := bool_decide (take (length p) l = p).
Definition has_prefix (s p : string) : bool := has_prefixl (s2l p) (s2l s).

Definition has_suffixl (p l : bytes) : bool :=
  bool_decide (length p <= length l) &&
  bool_decide (drop (length l - length p) l = p).
Definition has_suffix (s p : string) : bool := has_suffixl (s2l p) (s2l s).

Definition trim_prefix (s p : string) : string :=
  if has_prefix s p then l2s (drop (String.length p) (s2l s)) else s.
Definition trim_suffix (s p : string) : string :=
  if has_suffix s p then l2s (take (String.length s - String.length p) (s2l s)) else s.

(** [strings.Cut]: text before and after the first occurrence of [sep]. *)
Fixpoint cutl (sep l : bytes) : option (bytes * bytes) :=
  if has_prefixl sep l then Some ([], drop (length sep) l)
  else match l with
       | [] => None
       | c :: l' => match cutl sep l' with
                    | Some (a, b) => Some (c :: a, b)
                    | None => None
                    end
       end.

Definition contains (s sub : string) : bool :=
  bool_decide (is_Some (cutl (s2l sub) (s2l s))).

(** [strings.Split] for a nonempty separator; the fuel is the length of the
    text plus one, since every cut consumes at least one byte. *)
Fixpoint splitl (fuel : nat) (sep l : bytes) : list bytes :=
  match fuel with
  | 0 => [l]
  | S n => match cutl sep l with
           | None => [l]
           | Some (a, b) => a :: splitl n sep b
           end
  end.

Definition split (s sep : string) : list string :=
  l2s <$> splitl (S (String.length s)) (s2l sep) (s2l s).

(** [strings.SplitN s sep 2]. *)
Definition split2 (s sep : string) : list string :=
  match cutl (s2l sep) (s2l s) with
  | None => [s]
  | Some (a, b) => [l2s a; l2s b]
  end.

Fixpoint joinl (sep : bytes) (ls : list bytes) : bytes :=
  match ls with
  | [] => []
  | [x] => x
  | x :: ls' => x ++ sep ++ joinl sep ls'
  end.

Definition join (l : list string) (sep : string) : string :=
  l2s (joinl (s2l sep) (s2l <$> l)).

(** [strings.ReplaceAll] for a nonempty [old]. *)
Definition replace_all (s old new : string) : string := join (split s old) new.

(** ** Character classes and trimming *)

Fixpoint trim_left (f : ascii -> bool) (l : bytes) : bytes :=
  match l with
  | [] => []
  | c :: l' => if f c then trim_left f l' else l
  end.
Definition trim_right (f : ascii -> bool) (l : bytes) : bytes :=
  reverse (trim_left f (reverse l)).
Definition trim_func (f : ascii -> bool) (s : string) : string :=
  l2s (trim_right f (trim_left f (s2l s))).

(** [strings.Trim s cutset]. *)
Definition trim (s cutset : string) : string :=
  trim_func (fun c => bool_decide (c ∈ s2l cutset)) s.

(** ** Lemmas *)

Lemma has_prefixl_spec p l : has_prefixl p l = true <-> exists k, l = p ++ k.
Proof.
  unfold has_prefixl. rewrite bool_decide_eq_true. split.
  - intros H. exists (drop (length p) l). by rewrite <- H at 1; rewrite take_drop.
  - intros [k ->]. by rewrite take_app_length.
Qed.

Lemma cutl_sound sep l a b : cutl sep l = Some (a, b) -> l = a ++ sep ++ b.
Proof.
  revert a b. induction l as [|c l IH]; intros a b; simpl.
  - destruct (has_prefixl sep []) eqn:H; [|done].
    apply has_prefixl_spec in H as [k Hk]. destruct sep; [|done].
    intros [= <- <-]. done.
  - destruct (has_prefixl sep (c :: l)) eqn:H.
    + apply has_prefixl_spec in H as [k Hk]. rewrite Hk, drop_app_length.
      by intros [= <- <-].
    + destruct (cutl sep l) as [[a' b']|]; [|done].
      intros [= <- <-]. simpl. f_equal. by apply IH.
Qed.

Lemma cutl_complete sep l a b :
  l = a ++ sep ++ b -> exists a' b', cutl sep l = Some (a', b') /\ length a' <= length a.
Proof.
  revert l. induction a as [|c a IH]; intros l ->.
  - exists [], b. split; [|done].
    assert (has_prefixl sep (sep ++ b) = true) as H.
    { apply has_prefixl_spec. eauto. }
    simpl. destruct (sep ++ b) eqn:E; simpl; rewrite H; by rewrite <- E, drop_app_length.
  - simpl. destruct (has_prefixl sep (c :: a ++ sep ++ b)).
    { eexists _, _. split; [done|simpl; lia]. }
    destruct (IH _ eq_refl) as (a' & b' & -> & Hle).
    exists (c :: a'), b'. split; [done|simpl; lia].
Qed.

(** A separator is borderless when no proper nonempty prefix is a suffix. *)
Definition borderless (sep : bytes) : bool :=
  bool_decide (Forall (fun k => take k sep <> drop (length sep - k) sep)
                      (seq 1 (length sep - 1))).

Lemma borderless_spec sep k :
  borderless sep = true -> 0 < k < length sep ->
  take k sep <> drop (length sep - k) sep.
Proof.
  unfold borderless. rewrite bool_decide_eq_true, Forall_forall.
  intros H Hk. apply H. apply list_elem_of_In, elem_of_seq. lia.
Qed.

(** The cut of [a ++ sep ++ b] is [(a, b)] when [a] does not hold [sep]. *)
Lemma cutl_app sep a b :
  borderless sep = true -> sep <> [] -> cutl sep a = None ->
  cutl sep (a ++ sep ++ b) = Some (a, b).
Proof.
  intros Hb Hne Ha.
  destruct (cutl_complete sep (a ++ sep ++ b) a b eq_refl) as (a' & b' & Hc & Hle).
  rewrite Hc. apply cutl_sound in Hc.
  destruct (decide (length a' = length a)) as [He|Hlt].
  { apply app_inj_1 in Hc as [-> Hc]; [|done]. by apply app_inv_head in Hc as ->. }
  exfalso.
  assert (a = a' ++ drop (length a') a) as Ea.
  { rewrite <- (take_drop (length a') a) at 1. f_equal.
    assert (take (length a') (a ++ sep ++ b) = take (length a') (a' ++ sep ++ b')) as E
      by congruence.
    rewrite take_app_le in E by lia. by rewrite take_app_length in E. }
  set (t := drop (length a') a) in *.
  assert (0 < length t) as Ht by (rewrite Ea, length_app in Hle, Hlt; lia).
  rewrite Ea in Hc. rewrite <- app_assoc in Hc. apply app_inv_head in Hc.
  destruct (decide (length sep <= length t)) as [Hst|Hst].
  - (* the occurrence lies inside [a] *)
    assert (exists u, t = sep ++ u) as [u Hu].
    { exists (drop (length sep) t). rewrite <- (take_drop (length sep) t) at 1. f_equal.
      assert (take (length sep) (t ++ sep ++ b) = take (length sep) (sep ++ b')) as E
        by congruence.
      rewrite take_app_le in E by lia. by rewrite take_app_length in E. }
    rewrite Hu in Ea.
    destruct (cutl_complete sep a a' u Ea) as (? & ? & E & _). congruence.
  - (* the two occurrences overlap: a border *)
    assert (take (length t) sep = t) as Et.
    { assert (take (length t) (t ++ sep ++ b) = take (length t) (sep ++ b')) as E
        by congruence.
      rewrite take_app_length in E. rewrite take_app_le in E by lia. done. }
    apply (borderless_spec sep (length sep - length t) Hb); [lia|].
    replace (length sep - (length sep - length t)) with (length t) by lia.
    assert (drop (length t) (t ++ sep ++ b) = drop (length t) (sep ++ b')) as E
      by congruence.
    rewrite drop_app_length in E. rewrite drop_app_le in E by lia.
    assert (take (length sep - length t) (sep ++ b)
            = take (length sep - length t) (drop (length t) sep ++ b')) as E2 by congruence.
    rewrite take_app_le in E2 by lia.
    rewrite take_app_le in E2 by (rewrite length_drop; lia).
    rewrite E2, take_ge; [done|rewrite length_drop; lia].
Qed.

Lemma length_joinl_ge sep x ls : length x <= length (joinl sep (x :: ls)).
Proof. destruct ls; simpl; rewrite ?length_app; lia. Qed.

(** [Split] inverts [Join] on a nonempty list of separator-free texts. *)
Lemma splitl_joinl sep ls fuel :
  borderless sep = true -> sep <> [] -> ls <> [] ->
  Forall (fun x => cutl sep x = None) ls -> length ls <= fuel ->
  splitl fuel sep (joinl sep ls) = ls.
Proof.
  intros Hb Hne. revert fuel.
  induction ls as [|x ls IH]; intros fuel Hl HF Hf; [done|].
  apply Forall_cons_iff in HF as [Hx HF].
  destruct fuel as [|fuel]; [simpl in Hf; lia|].
  destruct ls as [|y ls]; [simpl; by rewrite Hx|].
  change (joinl sep (x :: y :: ls)) with (x ++ sep ++ joinl sep (y :: ls)).
  simpl splitl. rewrite cutl_app by done. f_equal. apply IH; [done..|simpl in *; lia].
Qed.

Lemma length_joinl_count sep ls :
  sep <> [] -> length ls <= S (length (joinl sep ls)).
Proof.
  intros Hne. induction ls as [|x ls IH]; [simpl; lia|].
  destruct ls as [|y ls]; [simpl; lia|].
  change (joinl sep (x :: y :: ls)) with (x ++ sep ++ joinl sep (y :: ls)).
  destruct sep; [done|]. rewrite !length_app. simpl in *. lia.
Qed.

Lemma length_s2l s : length (s2l s) = String.length s.
Proof. induction s as [|c s IH]; simpl; congruence. Qed.

Lemma contains_false_cutl x sep : contains x sep = false <-> cutl (s2l sep) (s2l x) = None.
Proof. unfold contains. rewrite bool_decide_eq_false. by rewrite eq_None_not_Some. Qed.

Lemma split_join (l : list string) (sep : string) :
  borderless (s2l sep) = true -> sep <> String.EmptyString -> l <> [] ->
  Forall (fun x => contains x sep = false) l ->
  split (join l sep) sep = l.
Proof.
  intros Hb Hne Hl HF. unfold split, join.
  assert (s2l sep <> []) as Hne' by (by destruct sep).
  rewrite s2l_l2s. rewrite splitl_joinl; [|done..| | |].
  - rewrite <- list_fmap_compose. rewrite <- (list_fmap_id l) at 2.
    apply list_fmap_ext. intros i x _. apply l2s_s2l.
  - by destruct l.
  - apply Forall_fmap. eapply Forall_impl; [|exact HF]. intros y Hy. simpl in *.
    by apply contains_false_cutl.
  - rewrite <- length_s2l, s2l_l2s. apply length_joinl_count. done.
Qed.

Lemma split2_app a b sep :
  borderless (s2l sep) = true -> sep <> String.EmptyString -> contains a sep = false ->
  split2 (String.append a (String.append sep b)) sep = [a; b].
Proof.
  intros Hb Hne Ha. unfold split2. rewrite !s2l_app.
  rewrite cutl_app; [by rewrite !l2s_s2l|done|by destruct sep|by apply contains_false_cutl].
Qed.

Lemma split2_none s sep : contains s sep = false -> split2 s sep = [s].
Proof. intros H. unfold split2. by apply contains_false_cutl in H as ->. Qed.

Lemma split2_length s sep : length (split2 s sep) <= 2.
Proof. unfold split2. destruct (cutl _ _) as [[??]|]; simpl; lia. Qed.

Lemma append_assoc s t u :
  String.append s (String.append t u) = String.append (String.append s t) u.
Proof. apply s2l_inj. by rewrite !s2l_app, app_assoc. Qed.

Lemma append_nil_r s : String.append s String.EmptyString = s.
Proof. apply s2l_inj. by rewrite s2l_app, app_nil_r. Qed.

Lemma append_inj_l s t u : String.append s t = String.append s u -> t = u.
Proof.
  intros H. apply s2l_inj. apply (f_equal s2l) in H. rewrite !s2l_app in H.
  by apply app_inv_head in H.
Qed.

(** Containing a one-character string. *)
Lemma cutl_char c l : cutl [c] l = None <-> c ∉ l.
Proof.
  split.
  - intros H (l1 & l2 & ->)%list_elem_of_split.
    destruct (cutl_complete [c] (l1 ++ c :: l2) l1 l2 eq_refl) as (? & ? & ? & _). congruence.
  - intros Hn. destruct (cutl [c] l) as [[a b]|] eqn:E; [|done].
    apply cutl_sound in E as ->. exfalso. apply Hn. simpl. set_solver.
Qed.

Lemma contains_char_app s t c :
  contains (String.append s t) (String.String c String.EmptyString) =
  contains s (String.String c String.EmptyString) || contains t (String.String c String.EmptyString).
Proof.
  apply eq_true_iff_eq. rewrite orb_true_iff. rewrite <- !not_false_iff_true, !contains_false_cutl.
  simpl. rewrite !cutl_char, s2l_app, elem_of_app.
  destruct (decide (c ∈ s2l s)), (decide (c ∈ s2l t)); tauto.
Qed.

Lemma has_prefix_app s t : has_prefix (String.append s t) s = true.
Proof. unfold has_prefix. apply has_prefixl_spec. exists (s2l t). by rewrite s2l_app. Qed.

Lemma trim_prefix_app s t : trim_prefix (String.append s t) s = t.
Proof.
  unfold trim_prefix. rewrite has_prefix_app, s2l_app, <- length_s2l, drop_app_length. apply l2s_s2l.
Qed.
