(* ===== verification/Utf8.v ===== *)
(** * UTF-8

    Decoding and encoding of strings, as [range], [[]rune(s)] and [string(rs)]
    do them, [unicode.IsSpace] and [strings.TrimSpace]. *)

From S2P Require Import Prelude GoStrings.
From Stdlib Require Import Ascii.


Definition byte_z (c : ascii) : Z := Z.of_nat (nat_of_ascii c).
Definition z_byte (z : Z) : ascii := ascii_of_nat (Z.to_nat z).
Definition RuneError : Z := 65533.

Definition cont (c : ascii) : bool := (128 <=? byte_z c)%Z && (byte_z c <=? 191)%Z.

Local Infix "==>b" := implb (at level 55).

(** One rune and the number of bytes it takes; an invalid sequence is one byte
    long and yields [RuneError]. *)
Definition decode_rune (l : bytes) : Z * nat :=
  (match l with
  | [] => (RuneError, 0%nat)
  | b0 :: r =>
      let x := byte_z b0 in
      if x <? 128 then (x, 1%nat)
      else if (194 <=? x) && (x <=? 223) then
        match r with
        | b1 :: _ => if cont b1 then ((x - 192) * 64 + (byte_z b1 - 128), 2%nat)
                     else (RuneError, 1%nat)
        | _ => (RuneError, 1%nat)
        end
      else if (224 <=? x) && (x <=? 239) then
        match r with
        | b1 :: b2 :: _ =>
            if cont b1 && cont b2 && ((x =? 224) ==>b (160 <=? byte_z b1)) &&
               ((x =? 237) ==>b (byte_z b1 <=? 159))
            then ((x - 224) * 4096 + (byte_z b1 - 128) * 64 + (byte_z b2 - 128), 3%nat)
            else (RuneError, 1%nat)
        | _ => (RuneError, 1%nat)
        end
      else if (240 <=? x) && (x <=? 244) then
        match r with
        | b1 :: b2 :: b3 :: _ =>
            if cont b1 && cont b2 && cont b3 && ((x =? 240) ==>b (144 <=? byte_z b1)) &&
               ((x =? 244) ==>b (byte_z b1 <=? 143))
            then ((x - 240) * 262144 + (byte_z b1 - 128) * 4096 +
                  (byte_z b2 - 128) * 64 + (byte_z b3 - 128), 4%nat)
            else (RuneError, 1%nat)
        | _ => (RuneError, 1%nat)
        end
      else (RuneError, 1%nat)
  end)%Z.

(** The runes of a text, each with the bytes it was decoded from. *)
Fixpoint decode_loop (fuel : nat) (l : bytes) : list (Z * bytes) :=
  match fuel with
  | 0 => []
  | S n => match l with
           | [] => []
           | _ => let '(r, w) := decode_rune l in (r, take w l) :: decode_loop n (drop w l)
           end
  end.

(** A rune takes at least one byte, so the length bounds the loop. *)
Definition decode (l : bytes) : list (Z * bytes) := decode_loop (length l) l.

(** The conversion to [[]rune], and [range] over a string. *)
Definition decode_runes (s : string) : list Z := fst <$> decode (s2l s).

Definition encode_rune (r : Z) : bytes :=
  (let r := if (r <? 0) || (1114111 <? r) || ((55296 <=? r) && (r <=? 57343)) then RuneError else r in
  if r <? 128 then [z_byte r]
  else if r <? 2048 then [z_byte (192 + r / 64); z_byte (128 + r mod 64)]
  else if r <? 65536 then
    [z_byte (224 + r / 4096); z_byte (128 + (r / 64) mod 64); z_byte (128 + r mod 64)]
  else [z_byte (240 + r / 262144); z_byte (128 + (r / 4096) mod 64);
        z_byte (128 + (r / 64) mod 64); z_byte (128 + r mod 64)])%Z.

Definition encode_runes (l : list Z) : string := l2s (concat (encode_rune <$> l)).

(** ** White space *)

(** [unicode.IsSpace]: the Latin-1 spaces and the property White_Space. *)
Definition IsSpace (r : Z) : bool :=
  ((9 <=? r) && (r <=? 13) || (r =? 32) || (r =? 133) || (r =? 160) || (r =? 5760) ||
   ((8192 <=? r) && (r <=? 8202)) || (r =? 8232) || (r =? 8233) || (r =? 8239) || (r =? 8287) ||
   (r =? 12288))%Z.

Fixpoint drop_spaces (l : list (Z * bytes)) : list (Z * bytes) :=
  match l with
  | [] => []
  | c :: l' => if IsSpace (fst c) then drop_spaces l' else l
  end.

(** [strings.TrimSpace]. *)
Definition TrimSpace (s : string) : string :=
  l2s (concat (snd <$> reverse (drop_spaces (reverse (drop_spaces (decode (s2l s))))))).

(** ** Lemmas *)

Lemma decode_rune_width l : l <> [] -> 1 <= snd (decode_rune l) <= length l.
Proof.
  destruct l as [|b0 r]; [done|]. intros _. unfold decode_rune.
  repeat case_match; simpl; lia.
Qed.

(** Decoding loses no byte. *)
Lemma decode_bytes l : concat (snd <$> decode l) = l.
Proof.
  unfold decode. assert (forall n l, length l <= n -> concat (snd <$> decode_loop n l) = l) as H.
  { induction n as [|n IH]; intros k Hk; destruct k as [|b k]; [done|simpl in Hk; lia|done|].
    pose proof (decode_rune_width (b :: k) ltac:(done)) as Hw. cbn [decode_loop].
    destruct (decode_rune (b :: k)) as [r w]. cbn [fmap list_fmap snd] in *. rewrite concat_cons, IH.
    - apply take_drop.
    - rewrite length_drop. lia. }
  by apply H.
Qed.

Lemma z_byte_z c : z_byte (byte_z c) = c.
Proof. unfold z_byte, byte_z. by rewrite Nat2Z.id, ascii_nat_embedding. Qed.

Lemma encode_rune_ascii c : (byte_z c < 128)%Z -> encode_rune (byte_z c) = [c].
Proof.
  intros Hc. assert (0 <= byte_z c)%Z as H0 by (unfold byte_z; lia). unfold encode_rune.
  replace (byte_z c <? 0)%Z with false by (symmetry; apply Z.ltb_ge; lia).
  replace (1114111 <? byte_z c)%Z with false by (symmetry; apply Z.ltb_ge; lia).
  replace (55296 <=? byte_z c)%Z with false by (symmetry; apply Z.leb_gt; lia).
  simpl. rewrite (proj2 (Z.ltb_lt _ _) Hc). by rewrite z_byte_z.
Qed.

Definition is_ascii (c : ascii) : bool := (byte_z c <? 128)%Z.

(** On ASCII texts the runes are the bytes. *)
Lemma decode_ascii l : Forall (fun c => is_ascii c = true) l -> decode l = (fun c => (byte_z c, [c])) <$> l.
Proof.
  unfold decode. induction 1 as [|c l Hc Hl IH]; [done|]. simpl. unfold is_ascii in Hc. rewrite Hc.
  cbn [take drop]. rewrite take_0, drop_0. by rewrite IH.
Qed.

Lemma encode_ascii l :
  Forall (fun c => is_ascii c = true) l -> concat (encode_rune <$> (byte_z <$> l)) = l.
Proof.
  induction 1 as [|c l Hc Hl IH]; [done|]. cbn [fmap list_fmap concat].
  unfold is_ascii in Hc. apply Z.ltb_lt in Hc. rewrite encode_rune_ascii by done. simpl. by f_equal.
Qed.

(** [strings.ToLower] for comparison with an ASCII text: the runes whose lower
    case is an ASCII letter are mapped, the others, which a comparison cannot
    tell from their lower case, are kept. *)
Definition lower_rune (r : Z) : Z :=
  if (65 <=? r)%Z && (r <=? 90)%Z then (r + 32)%Z
  else if bool_decide (r = 304%Z) then 105%Z
  else if bool_decide (r = 8490%Z) then 107%Z
  else r.

Definition lower_key (s : string) : string := encode_runes (lower_rune <$> decode_runes s).
