(* ===== verification/Vars.v ===== *)
(** * Key/value pairs and output variables

    [KeyValue] is internal/stringutil/kv.go; [SyncMap] is
    internal/digraph/syncmap.go, the map in which a step keeps its output
    variables, each stored under its key as the text "key=value".  A
    [sync.Map] ranges over its entries in an unspecified order: the functions
    that range take that order as an argument. *)

From S2P Require Import Prelude GoStrings.
From Stdlib Require Import Ascii.

Module KeyValue.

(** A KeyValue is a string "key=value". *)
Definition NewKeyValue (key value : string) : string := key +:+ "=" +:+ value.

Definition Key (kv : string) : string :=
  match split2 kv "=" with
  | [] => ""
  | k :: _ => k
  end.

Definition Value (kv : string) : string :=
  match split2 kv "=" with
  | _ :: v :: _ => v
  | _ => ""
  end.

(** [strconv.ParseBool] and [strconv.FormatBool]. *)
Definition ParseBool (s : string) : option bool :=
  if bool_decide (s ∈ ["1"; "t"; "T"; "TRUE"; "true"; "True"]) then Some true
  else if bool_decide (s ∈ ["0"; "f"; "F"; "FALSE"; "false"; "False"]) then Some false
  else None.
Definition FormatBool (b : bool) : string := if b then "true" else "false".

Definition Bool (kv : string) : bool := default false (ParseBool (Value kv)).

Lemma split2_NewKeyValue key value :
  contains key "=" = false -> split2 (NewKeyValue key value) "=" = [key; value].
Proof. intros H. by apply split2_app. Qed.

Lemma Key_NewKeyValue key value :
  contains key "=" = false -> Key (NewKeyValue key value) = key.
Proof. intros H. unfold Key. by rewrite split2_NewKeyValue. Qed.

Lemma Value_NewKeyValue key value :
  contains key "=" = false -> Value (NewKeyValue key value) = value.
Proof. intros H. unfold Value. by rewrite split2_NewKeyValue. Qed.

Lemma ParseBool_FormatBool b : ParseBool (FormatBool b) = Some b.
Proof. by destruct b. Qed.

Lemma Bool_NewKeyValue key b :
  contains key "=" = false -> Bool (NewKeyValue key (FormatBool b)) = b.
Proof. intros H. unfold Bool. by rewrite Value_NewKeyValue, ParseBool_FormatBool. Qed.

End KeyValue.

Module SyncMap.
Import KeyValue.

Record t := mk {
  entries : gmap string string;
  variables : option (gmap string string);
  dirty : bool
}.

Definition empty : t := mk ∅ None false.

(** [SyncMap.Store] marks the cached view dirty. *)
Definition Store (m : t) (key value : string) : t :=
  mk (<[key := value]> (entries m)) (variables m) true.

(** [Load] and [Delete] are promoted from the embedded [sync.Map]. *)
Definition Load (m : t) (key : string) : option string := entries m !! key.
Definition Delete (m : t) (key : string) : t :=
  mk (delete key (entries m)) (variables m) (dirty m).

(** One iteration of the loop of [Variables] over an entry's text. *)
Definition add_variable (vars : gmap string string) (value : string) : gmap string string :=
  match split2 value "=" with
  | [k; v] => <[k := v]> vars
  | _ => vars
  end.

(** [Variables]: the cached view unless dirty or never built.  [order] is the
    order in which the range visits the entries. *)
Definition Variables (order : list (string * string)) (m : t) : gmap string string * t :=
  match dirty m, variables m with
  | false, Some vars => (vars, m)
  | _, _ =>
      let vars := foldl (fun acc e => add_variable acc (snd e)) ∅ order in
      (vars, mk (entries m) (Some vars) false)
  end.

(** [order] is a possible order of a range over [m]. *)
Definition range_order (m : t) (order : list (string * string)) : Prop :=
  Permutation order (map_to_list (entries m)).

(** Every entry holds "key=value" for its own key. *)
Definition well_keyed (m : t) : Prop :=
  forall k s, entries m !! k = Some s ->
    contains k "=" = false /\ exists v, s = NewKeyValue k v.

Lemma empty_well_keyed : well_keyed empty.
Proof. intros k s. simpl. by rewrite lookup_empty. Qed.

Lemma Store_well_keyed m k v :
  contains k "=" = false -> well_keyed m -> well_keyed (Store m k (NewKeyValue k v)).
Proof.
  intros Hk Hm k' s. simpl. rewrite lookup_insert. case_decide; simplify_eq; eauto.
  intros [= <-]. eauto.
Qed.

Lemma Delete_well_keyed m k : well_keyed m -> well_keyed (Delete m k).
Proof. intros Hm k' s. simpl. rewrite lookup_delete. case_decide; [done|]. apply Hm. Qed.

Lemma fold_add_variable l (acc : gmap string string) :
  NoDup (l.*1) ->
  (forall k s, (k, s) ∈ l -> contains k "=" = false /\ (exists v, s = NewKeyValue k v)) ->
  forall k v,
    (foldl (fun acc e => add_variable acc (snd e)) acc l !! k = Some v) <->
    ((k, NewKeyValue k v) ∈ l) \/ ((k ∉ l.*1) /\ acc !! k = Some v).
Proof.
  revert acc. induction l as [|[k0 s0] l IH]; intros acc Hnd Hl k v.
  { simpl. split; [intros H; right; split; [apply not_elem_of_nil|done]|].
    intros [H|[_ H]]; [by apply elem_of_nil in H|done]. }
  destruct (Hl k0 s0) as [Hk0 [v0 ->]]; [by left|].
  apply NoDup_cons in Hnd as [Hk Hnd]. simpl.
  rewrite IH; [|done|intros; apply Hl; by right].
  unfold add_variable. rewrite split2_NewKeyValue, lookup_insert by done.
  rewrite !elem_of_cons. simpl in *. case_decide as Hd; subst.
  - split; [intros [?|[? [= ->]]]; [by left; right|by left; left]|].
    intros [[[= E]|?]|[? ?]]; [|by left|exfalso; tauto].
    right. split; [done|]. f_equal.
    unfold NewKeyValue in E. by do 2 apply append_inj_l in E.
  - split.
    + intros [?|[? ?]]; [by left; right|]. right. split; [|done]. intros [?|?]; [by subst|done].
    + intros [[[= -> E]|?]|[? ?]]; [done|by left|]. right. split; [|done]. tauto.
Qed.

(** The view read through [Variables] is exactly the stored bindings. *)
Lemma Variables_spec order m k v :
  well_keyed m -> range_order m order -> (dirty m = true \/ variables m = None) ->
  fst (Variables order m) !! k = Some v <-> Load m k = Some (NewKeyValue k v).
Proof.
  intros Hm Ho Hd. unfold Variables.
  assert (forall k s, (k, s) ∈ order <-> entries m !! k = Some s) as Hin.
  { intros. by rewrite Ho, elem_of_map_to_list. }
  assert (NoDup order.*1) as Hnd.
  { rewrite Ho. apply NoDup_fst_map_to_list. }
  assert (fst (foldl (fun acc e => add_variable acc (snd e)) ∅ order,
               mk (entries m) (Some (foldl (fun acc e => add_variable acc (snd e)) ∅ order)) false)
          !! k = Some v <-> Load m k = Some (NewKeyValue k v)) as Hgoal.
  { simpl. rewrite fold_add_variable; [|done|].
    - rewrite lookup_empty, Hin. unfold Load. naive_solver.
    - intros k' s. rewrite Hin. apply Hm. }
  destruct (dirty m), (variables m); destruct Hd; done.
Qed.

Lemma Variables_entries order m : entries (snd (Variables order m)) = entries m.
Proof. unfold Variables. by destruct (dirty m), (variables m). Qed.

End SyncMap.
