(* ===== verification/Digraph.v ===== *)
(** * The workflow data model: internal/digraph step.go, dag.go, condition.go

    Records for [Step], [DAG] and their parts with the fields of the Go
    structs, the small methods on them, and the machine arithmetic of
    [time.Duration]. *)

From stdpp Require Import pretty.
From S2P Require Import Prelude GoStrings Utf8 Vars.

(** ** Machine integers *)

(** [int] and [time.Duration] are 64-bit two's complement. *)
Definition int64 (z : Z) : Z := ((z + 2 ^ 63) mod 2 ^ 64 - 2 ^ 63)%Z.

Definition in_int64 (z : Z) : Prop := (- 2 ^ 63 <= z < 2 ^ 63)%Z.

Lemma int64_id z : in_int64 z -> int64 z = z.
Proof. unfold int64, in_int64. intros H. rewrite Z.mod_small; lia. Qed.

Lemma int64_range z : in_int64 (int64 z).
Proof.
  unfold int64, in_int64.
  pose proof (Z.mod_pos_bound (z + 2 ^ 63) (2 ^ 64) ltac:(lia)). lia.
Qed.

Definition Nanosecond : Z := 1.
Definition Second : Z := 1000000000.
Definition Minute : Z := (60 * Second)%Z.

(** [time.Second * time.Duration(n)], the multiplication wrapping around. *)
Definition seconds (n : Z) : Z := int64 (Second * n).

Lemma seconds_exact n :
  (Z.abs n <= 9223372036)%Z -> seconds n = (Second * n)%Z.
Proof. intros H. apply int64_id. unfold in_int64, Second. lia. Qed.

(** ** Dynamic values

    What yaml.v2 decodes into an [any]: nil, booleans, integers, floats (kept
    as the text [%v] prints), strings, lists and [map[any]any]; a map is the
    list of its entries in the order a range visits them. [VStrMap] is a
    [map[string]any] and [VStrList] a [[]string]. *)
Inductive any :=
| VNil
| VBool (b : bool)
| VInt (n : Z)
| VFloat (text : string)
| VStr (s : string)
| VList (l : list any)
| VMap (m : list (any * any))
| VStrMap (m : list (string * any))
| VStrList (l : list string).

(** ** Conditions (condition.go) *)

Module Condition.

Record t := mk {
  Command : string;
  Condition : string;
  Expected : string
}.

#[export] Instance t_eq_dec : EqDecision t.
Proof. solve_decision. Defined.

Definition empty : t := mk "" "" "".

(** [Condition.Validate]. *)
Definition Validate (c : t) : option error :=
  if bool_decide (Condition c <> "") then
    if bool_decide (Expected c = "") then
      Some (ENew ("expected value is required for condition: Condition=" +:+ Condition c))
    else None
  else if bool_decide (Command c <> "") then None
  else Some (ENew ("invalid condition: Condition=" +:+ Condition c)).

Definition String (c : t) : string :=
  "Condition=" +:+ Condition c +:+ " Expected=" +:+ Expected c.

End Condition.

(** ** Steps (step.go) *)

Module ContinueOn.
Record t := mk {
  Failure : bool;
  Skipped : bool;
  ExitCode : list Z;
  Output : list string;
  MarkSuccess : bool
}.
Definition empty : t := mk false false [] [] false.
End ContinueOn.

Module RetryPolicy.
Record t := mk {
  Limit : Z;
  Interval : Z;
  LimitStr : string;
  IntervalSecStr : string
}.
Definition empty : t := mk 0 0 "" "".
End RetryPolicy.

Module RepeatPolicy.
Record t := mk {
  Repeat : bool;
  Interval : Z
}.
Definition empty : t := mk false 0.
End RepeatPolicy.

Module SubWorkflow.
Record t := mk { Name : string; Params : string }.
End SubWorkflow.

Module ExecutorConfig.
Record t := mk {
  Type_ : string;
  Config : gmap string any
}.
Definition empty : t := mk "" ∅.

(** [ExecutorConfig.IsCommand]. *)
Definition IsCommand (e : t) : bool :=
  bool_decide (Type_ e = "") || bool_decide (Type_ e = "command").
End ExecutorConfig.

Module Step.

Record t := mk {
  Name : string;
  Description : string;
  Shell : string;
  OutputVariables : option SyncMap.t;
  Dir : string;
  ExecutorConfig : ExecutorConfig.t;
  CmdWithArgs : string;
  CmdArgsSys : string;
  Command : string;
  ShellCmdArgs : string;
  Script : string;
  Args : list string;
  Stdout : string;
  Stderr : string;
  Output : string;
  Depends : list string;
  ContinueOn : ContinueOn.t;
  RetryPolicy : RetryPolicy.t;
  RepeatPolicy : RepeatPolicy.t;
  MailOnError : bool;
  Preconditions : list Condition.t;
  SignalOnStop : string;
  SubWorkflow : option SubWorkflow.t
}.

(** The zero value of the struct. *)
Definition empty : t := mk "" "" "" None "" ExecutorConfig.empty "" "" "" "" "" [] "" "" "" [] ContinueOn.empty RetryPolicy.empty RepeatPolicy.empty false [] "" None.

Definition set_Name (s : t) (v : string) : t :=
    mk v (Description s) (Shell s) (OutputVariables s) (Dir s) (ExecutorConfig s)
    (CmdWithArgs s) (CmdArgsSys s) (Command s) (ShellCmdArgs s) (Script s) (Args s) (Stdout
    s) (Stderr s) (Output s) (Depends s) (ContinueOn s) (RetryPolicy s) (RepeatPolicy s)
    (MailOnError s) (Preconditions s) (SignalOnStop s) (SubWorkflow s).
Definition set_Description (s : t) (v : string) : t :=
    mk (Name s) v (Shell s) (OutputVariables s) (Dir s) (ExecutorConfig s) (CmdWithArgs s)
    (CmdArgsSys s) (Command s) (ShellCmdArgs s) (Script s) (Args s) (Stdout s) (Stderr s)
    (Output s) (Depends s) (ContinueOn s) (RetryPolicy s) (RepeatPolicy s) (MailOnError s)
    (Preconditions s) (SignalOnStop s) (SubWorkflow s).
Definition set_Shell (s : t) (v : string) : t :=
    mk (Name s) (Description s) v (OutputVariables s) (Dir s) (ExecutorConfig s)
    (CmdWithArgs s) (CmdArgsSys s) (Command s) (ShellCmdArgs s) (Script s) (Args s) (Stdout
    s) (Stderr s) (Output s) (Depends s) (ContinueOn s) (RetryPolicy s) (RepeatPolicy s)
    (MailOnError s) (Preconditions s) (SignalOnStop s) (SubWorkflow s).
Definition set_OutputVariables (s : t) (v : option SyncMap.t) : t :=
    mk (Name s) (Description s) (Shell s) v (Dir s) (ExecutorConfig s) (CmdWithArgs s)
    (CmdArgsSys s) (Command s) (ShellCmdArgs s) (Script s) (Args s) (Stdout s) (Stderr s)
    (Output s) (Depends s) (ContinueOn s) (RetryPolicy s) (RepeatPolicy s) (MailOnError s)
    (Preconditions s) (SignalOnStop s) (SubWorkflow s).
Definition set_Dir (s : t) (v : string) : t :=
    mk (Name s) (Description s) (Shell s) (OutputVariables s) v (ExecutorConfig s)
    (CmdWithArgs s) (CmdArgsSys s) (Command s) (ShellCmdArgs s) (Script s) (Args s) (Stdout
    s) (Stderr s) (Output s) (Depends s) (ContinueOn s) (RetryPolicy s) (RepeatPolicy s)
    (MailOnError s) (Preconditions s) (SignalOnStop s) (SubWorkflow s).
Definition set_ExecutorConfig (s : t) (v : ExecutorConfig.t) : t :=
    mk (Name s) (Description s) (Shell s) (OutputVariables s) (Dir s) v (CmdWithArgs s)
    (CmdArgsSys s) (Command s) (ShellCmdArgs s) (Script s) (Args s) (Stdout s) (Stderr s)
    (Output s) (Depends s) (ContinueOn s) (RetryPolicy s) (RepeatPolicy s) (MailOnError s)
    (Preconditions s) (SignalOnStop s) (SubWorkflow s).
Definition set_CmdWithArgs (s : t) (v : string) : t :=
    mk (Name s) (Description s) (Shell s) (OutputVariables s) (Dir s) (ExecutorConfig s) v
    (CmdArgsSys s) (Command s) (ShellCmdArgs s) (Script s) (Args s) (Stdout s) (Stderr s)
    (Output s) (Depends s) (ContinueOn s) (RetryPolicy s) (RepeatPolicy s) (MailOnError s)
    (Preconditions s) (SignalOnStop s) (SubWorkflow s).
Definition set_CmdArgsSys (s : t) (v : string) : t :=
    mk (Name s) (Description s) (Shell s) (OutputVariables s) (Dir s) (ExecutorConfig s)
    (CmdWithArgs s) v (Command s) (ShellCmdArgs s) (Script s) (Args s) (Stdout s) (Stderr s)
    (Output s) (Depends s) (ContinueOn s) (RetryPolicy s) (RepeatPolicy s) (MailOnError s)
    (Preconditions s) (SignalOnStop s) (SubWorkflow s).
Definition set_Command (s : t) (v : string) : t :=
    mk (Name s) (Description s) (Shell s) (OutputVariables s) (Dir s) (ExecutorConfig s)
    (CmdWithArgs s) (CmdArgsSys s) v (ShellCmdArgs s) (Script s) (Args s) (Stdout s) (Stderr
    s) (Output s) (Depends s) (ContinueOn s) (RetryPolicy s) (RepeatPolicy s) (MailOnError
    s) (Preconditions s) (SignalOnStop s) (SubWorkflow s).
Definition set_ShellCmdArgs (s : t) (v : string) : t :=
    mk (Name s) (Description s) (Shell s) (OutputVariables s) (Dir s) (ExecutorConfig s)
    (CmdWithArgs s) (CmdArgsSys s) (Command s) v (Script s) (Args s) (Stdout s) (Stderr s)
    (Output s) (Depends s) (ContinueOn s) (RetryPolicy s) (RepeatPolicy s) (MailOnError s)
    (Preconditions s) (SignalOnStop s) (SubWorkflow s).
Definition set_Script (s : t) (v : string) : t :=
    mk (Name s) (Description s) (Shell s) (OutputVariables s) (Dir s) (ExecutorConfig s)
    (CmdWithArgs s) (CmdArgsSys s) (Command s) (ShellCmdArgs s) v (Args s) (Stdout s)
    (Stderr s) (Output s) (Depends s) (ContinueOn s) (RetryPolicy s) (RepeatPolicy s)
    (MailOnError s) (Preconditions s) (SignalOnStop s) (SubWorkflow s).
Definition set_Args (s : t) (v : list string) : t :=
    mk (Name s) (Description s) (Shell s) (OutputVariables s) (Dir s) (ExecutorConfig s)
    (CmdWithArgs s) (CmdArgsSys s) (Command s) (ShellCmdArgs s) (Script s) v (Stdout s)
    (Stderr s) (Output s) (Depends s) (ContinueOn s) (RetryPolicy s) (RepeatPolicy s)
    (MailOnError s) (Preconditions s) (SignalOnStop s) (SubWorkflow s).
Definition set_Stdout (s : t) (v : string) : t :=
    mk (Name s) (Description s) (Shell s) (OutputVariables s) (Dir s) (ExecutorConfig s)
    (CmdWithArgs s) (CmdArgsSys s) (Command s) (ShellCmdArgs s) (Script s) (Args s) v
    (Stderr s) (Output s) (Depends s) (ContinueOn s) (RetryPolicy s) (RepeatPolicy s)
    (MailOnError s) (Preconditions s) (SignalOnStop s) (SubWorkflow s).
Definition set_Stderr (s : t) (v : string) : t :=
    mk (Name s) (Description s) (Shell s) (OutputVariables s) (Dir s) (ExecutorConfig s)
    (CmdWithArgs s) (CmdArgsSys s) (Command s) (ShellCmdArgs s) (Script s) (Args s) (Stdout
    s) v (Output s) (Depends s) (ContinueOn s) (RetryPolicy s) (RepeatPolicy s) (MailOnError
    s) (Preconditions s) (SignalOnStop s) (SubWorkflow s).
Definition set_Output (s : t) (v : string) : t :=
    mk (Name s) (Description s) (Shell s) (OutputVariables s) (Dir s) (ExecutorConfig s)
    (CmdWithArgs s) (CmdArgsSys s) (Command s) (ShellCmdArgs s) (Script s) (Args s) (Stdout
    s) (Stderr s) v (Depends s) (ContinueOn s) (RetryPolicy s) (RepeatPolicy s) (MailOnError
    s) (Preconditions s) (SignalOnStop s) (SubWorkflow s).
Definition set_Depends (s : t) (v : list string) : t :=
    mk (Name s) (Description s) (Shell s) (OutputVariables s) (Dir s) (ExecutorConfig s)
    (CmdWithArgs s) (CmdArgsSys s) (Command s) (ShellCmdArgs s) (Script s) (Args s) (Stdout
    s) (Stderr s) (Output s) v (ContinueOn s) (RetryPolicy s) (RepeatPolicy s) (MailOnError
    s) (Preconditions s) (SignalOnStop s) (SubWorkflow s).
Definition set_ContinueOn (s : t) (v : ContinueOn.t) : t :=
    mk (Name s) (Description s) (Shell s) (OutputVariables s) (Dir s) (ExecutorConfig s)
    (CmdWithArgs s) (CmdArgsSys s) (Command s) (ShellCmdArgs s) (Script s) (Args s) (Stdout
    s) (Stderr s) (Output s) (Depends s) v (RetryPolicy s) (RepeatPolicy s) (MailOnError s)
    (Preconditions s) (SignalOnStop s) (SubWorkflow s).
Definition set_RetryPolicy (s : t) (v : RetryPolicy.t) : t :=
    mk (Name s) (Description s) (Shell s) (OutputVariables s) (Dir s) (ExecutorConfig s)
    (CmdWithArgs s) (CmdArgsSys s) (Command s) (ShellCmdArgs s) (Script s) (Args s) (Stdout
    s) (Stderr s) (Output s) (Depends s) (ContinueOn s) v (RepeatPolicy s) (MailOnError s)
    (Preconditions s) (SignalOnStop s) (SubWorkflow s).
Definition set_RepeatPolicy (s : t) (v : RepeatPolicy.t) : t :=
    mk (Name s) (Description s) (Shell s) (OutputVariables s) (Dir s) (ExecutorConfig s)
    (CmdWithArgs s) (CmdArgsSys s) (Command s) (ShellCmdArgs s) (Script s) (Args s) (Stdout
    s) (Stderr s) (Output s) (Depends s) (ContinueOn s) (RetryPolicy s) v (MailOnError s)
    (Preconditions s) (SignalOnStop s) (SubWorkflow s).
Definition set_MailOnError (s : t) (v : bool) : t :=
    mk (Name s) (Description s) (Shell s) (OutputVariables s) (Dir s) (ExecutorConfig s)
    (CmdWithArgs s) (CmdArgsSys s) (Command s) (ShellCmdArgs s) (Script s) (Args s) (Stdout
    s) (Stderr s) (Output s) (Depends s) (ContinueOn s) (RetryPolicy s) (RepeatPolicy s) v
    (Preconditions s) (SignalOnStop s) (SubWorkflow s).
Definition set_Preconditions (s : t) (v : list Condition.t) : t :=
    mk (Name s) (Description s) (Shell s) (OutputVariables s) (Dir s) (ExecutorConfig s)
    (CmdWithArgs s) (CmdArgsSys s) (Command s) (ShellCmdArgs s) (Script s) (Args s) (Stdout
    s) (Stderr s) (Output s) (Depends s) (ContinueOn s) (RetryPolicy s) (RepeatPolicy s)
    (MailOnError s) v (SignalOnStop s) (SubWorkflow s).
Definition set_SignalOnStop (s : t) (v : string) : t :=
    mk (Name s) (Description s) (Shell s) (OutputVariables s) (Dir s) (ExecutorConfig s)
    (CmdWithArgs s) (CmdArgsSys s) (Command s) (ShellCmdArgs s) (Script s) (Args s) (Stdout
    s) (Stderr s) (Output s) (Depends s) (ContinueOn s) (RetryPolicy s) (RepeatPolicy s)
    (MailOnError s) (Preconditions s) v (SubWorkflow s).
Definition set_SubWorkflow (s : t) (v : option SubWorkflow.t) : t :=
    mk (Name s) (Description s) (Shell s) (OutputVariables s) (Dir s) (ExecutorConfig s)
    (CmdWithArgs s) (CmdArgsSys s) (Command s) (ShellCmdArgs s) (Script s) (Args s) (Stdout
    s) (Stderr s) (Output s) (Depends s) (ContinueOn s) (RetryPolicy s) (RepeatPolicy s)
    (MailOnError s) (Preconditions s) (SignalOnStop s) v.

(** [Step.setup]: the default working directory. *)
Definition setup (s : t) (workDir : string) : t :=
  if bool_decide (Dir s = "") then set_Dir s workDir else s.

(** [Step.String]; [%v] prints a string slice between brackets. *)
Definition String (s : t) : string :=
  let fields := [
    ("Name", Name s);
    ("Dir", Dir s);
    ("Command", Command s);
    ("Args", "[" +:+ join (Args s) " " +:+ "]");
    ("Depends", "[" +:+ join (Depends s) ", " +:+ "]") ] in
  let parts := (fun f => fst f +:+ ": " +:+ snd f) <$> fields in
  join parts (l2s [Ascii.ascii_of_nat 9]).

End Step.

(** ** DAGs (dag.go) *)

Module Schedule.
(** [cron.Schedule] is an interface with one method, [Next]. *)
Record t := mk {
  Expression : string;
  Parsed : Z -> Z
}.
End Schedule.

Module HandlerOn.
Record t := mk {
  Failure : option Step.t;
  Success : option Step.t;
  Cancel : option Step.t;
  Exit : option Step.t
}.
Definition empty : t := mk None None None None.
End HandlerOn.

Module MailOn.
Record t := mk { Failure : bool; Success : bool }.
End MailOn.

Module SMTPConfig.
Record t := mk { Host : string; Port : string; Username : string; Password : string }.
End SMTPConfig.

Module MailConfig.
Record t := mk { From_ : string; To_ : string; Prefix : string; AttachLogs : bool }.
End MailConfig.

(** [HandlerType]. *)
Inductive HandlerType := HandlerOnSuccess | HandlerOnFailure | HandlerOnCancel | HandlerOnExit.

#[export] Instance HandlerType_eq_dec : EqDecision HandlerType.
Proof. solve_decision. Defined.

Definition HandlerType_String (h : HandlerType) : string :=
  match h with
  | HandlerOnSuccess => "onSuccess"
  | HandlerOnFailure => "onFailure"
  | HandlerOnCancel => "onCancel"
  | HandlerOnExit => "onExit"
  end.

Definition handlerMapping : list (string * HandlerType) :=
  [("onSuccess", HandlerOnSuccess); ("onFailure", HandlerOnFailure);
   ("onCancel", HandlerOnCancel); ("onExit", HandlerOnExit)].

(** [ParseHandlerType]: the zero value (the empty type, [None] here) for an
    unknown name. *)
Definition ParseHandlerType (s : string) : option HandlerType :=
  snd <$> find (fun e => bool_decide (fst e = s)) handlerMapping.

Lemma ParseHandlerType_String h : ParseHandlerType (HandlerType_String h) = Some h.
Proof. by destruct h. Qed.

Lemma ParseHandlerType_sound s h : ParseHandlerType s = Some h -> s = HandlerType_String h.
Proof.
  unfold ParseHandlerType, handlerMapping. simpl.
  repeat case_bool_decide; simpl; intros [= <-]; by subst.
Qed.

Module DAG.

Record t := mk {
  Location : string;
  Group : string;
  Name : string;
  Dotenv : list string;
  Tags : list string;
  Description : string;
  Schedule : list Schedule.t;
  StopSchedule : list Schedule.t;
  RestartSchedule : list Schedule.t;
  SkipIfSuccessful : bool;
  Env : list string;
  LogDir : string;
  DefaultParams : string;
  Params : list string;
  Steps : list Step.t;
  HandlerOn : HandlerOn.t;
  Preconditions : list Condition.t;
  SMTP : option SMTPConfig.t;
  ErrorMail : option MailConfig.t;
  InfoMail : option MailConfig.t;
  MailOn : option MailOn.t;
  Timeout : Z;
  Delay : Z;
  RestartWait : Z;
  MaxActiveRuns : Z;
  MaxCleanUpTime : Z;
  HistRetentionDays : Z
}.

Definition empty : t := mk "" "" "" [] [] "" [] [] [] false [] "" "" [] [] HandlerOn.empty [] None None None None 0%Z 0%Z 0%Z 0%Z 0%Z 0%Z.

Definition set_Location (d : t) (v : string) : t :=
    mk v (Group d) (Name d) (Dotenv d) (Tags d) (Description d) (Schedule d) (StopSchedule
    d) (RestartSchedule d) (SkipIfSuccessful d) (Env d) (LogDir d) (DefaultParams d) (Params
    d) (Steps d) (HandlerOn d) (Preconditions d) (SMTP d) (ErrorMail d) (InfoMail d) (MailOn
    d) (Timeout d) (Delay d) (RestartWait d) (MaxActiveRuns d) (MaxCleanUpTime d)
    (HistRetentionDays d).
Definition set_Group (d : t) (v : string) : t :=
    mk (Location d) v (Name d) (Dotenv d) (Tags d) (Description d) (Schedule d)
    (StopSchedule d) (RestartSchedule d) (SkipIfSuccessful d) (Env d) (LogDir d)
    (DefaultParams d) (Params d) (Steps d) (HandlerOn d) (Preconditions d) (SMTP d)
    (ErrorMail d) (InfoMail d) (MailOn d) (Timeout d) (Delay d) (RestartWait d)
    (MaxActiveRuns d) (MaxCleanUpTime d) (HistRetentionDays d).
Definition set_Name (d : t) (v : string) : t :=
    mk (Location d) (Group d) v (Dotenv d) (Tags d) (Description d) (Schedule d)
    (StopSchedule d) (RestartSchedule d) (SkipIfSuccessful d) (Env d) (LogDir d)
    (DefaultParams d) (Params d) (Steps d) (HandlerOn d) (Preconditions d) (SMTP d)
    (ErrorMail d) (InfoMail d) (MailOn d) (Timeout d) (Delay d) (RestartWait d)
    (MaxActiveRuns d) (MaxCleanUpTime d) (HistRetentionDays d).
Definition set_Dotenv (d : t) (v : list string) : t :=
    mk (Location d) (Group d) (Name d) v (Tags d) (Description d) (Schedule d) (StopSchedule
    d) (RestartSchedule d) (SkipIfSuccessful d) (Env d) (LogDir d) (DefaultParams d) (Params
    d) (Steps d) (HandlerOn d) (Preconditions d) (SMTP d) (ErrorMail d) (InfoMail d) (MailOn
    d) (Timeout d) (Delay d) (RestartWait d) (MaxActiveRuns d) (MaxCleanUpTime d)
    (HistRetentionDays d).
Definition set_Tags (d : t) (v : list string) : t :=
    mk (Location d) (Group d) (Name d) (Dotenv d) v (Description d) (Schedule d)
    (StopSchedule d) (RestartSchedule d) (SkipIfSuccessful d) (Env d) (LogDir d)
    (DefaultParams d) (Params d) (Steps d) (HandlerOn d) (Preconditions d) (SMTP d)
    (ErrorMail d) (InfoMail d) (MailOn d) (Timeout d) (Delay d) (RestartWait d)
    (MaxActiveRuns d) (MaxCleanUpTime d) (HistRetentionDays d).
Definition set_Description (d : t) (v : string) : t :=
    mk (Location d) (Group d) (Name d) (Dotenv d) (Tags d) v (Schedule d) (StopSchedule d)
    (RestartSchedule d) (SkipIfSuccessful d) (Env d) (LogDir d) (DefaultParams d) (Params d)
    (Steps d) (HandlerOn d) (Preconditions d) (SMTP d) (ErrorMail d) (InfoMail d) (MailOn d)
    (Timeout d) (Delay d) (RestartWait d) (MaxActiveRuns d) (MaxCleanUpTime d)
    (HistRetentionDays d).
Definition set_Schedule (d : t) (v : list Schedule.t) : t :=
    mk (Location d) (Group d) (Name d) (Dotenv d) (Tags d) (Description d) v (StopSchedule
    d) (RestartSchedule d) (SkipIfSuccessful d) (Env d) (LogDir d) (DefaultParams d) (Params
    d) (Steps d) (HandlerOn d) (Preconditions d) (SMTP d) (ErrorMail d) (InfoMail d) (MailOn
    d) (Timeout d) (Delay d) (RestartWait d) (MaxActiveRuns d) (MaxCleanUpTime d)
    (HistRetentionDays d).
Definition set_StopSchedule (d : t) (v : list Schedule.t) : t :=
    mk (Location d) (Group d) (Name d) (Dotenv d) (Tags d) (Description d) (Schedule d) v
    (RestartSchedule d) (SkipIfSuccessful d) (Env d) (LogDir d) (DefaultParams d) (Params d)
    (Steps d) (HandlerOn d) (Preconditions d) (SMTP d) (ErrorMail d) (InfoMail d) (MailOn d)
    (Timeout d) (Delay d) (RestartWait d) (MaxActiveRuns d) (MaxCleanUpTime d)
    (HistRetentionDays d).
Definition set_RestartSchedule (d : t) (v : list Schedule.t) : t :=
    mk (Location d) (Group d) (Name d) (Dotenv d) (Tags d) (Description d) (Schedule d)
    (StopSchedule d) v (SkipIfSuccessful d) (Env d) (LogDir d) (DefaultParams d) (Params d)
    (Steps d) (HandlerOn d) (Preconditions d) (SMTP d) (ErrorMail d) (InfoMail d) (MailOn d)
    (Timeout d) (Delay d) (RestartWait d) (MaxActiveRuns d) (MaxCleanUpTime d)
    (HistRetentionDays d).
Definition set_SkipIfSuccessful (d : t) (v : bool) : t :=
    mk (Location d) (Group d) (Name d) (Dotenv d) (Tags d) (Description d) (Schedule d)
    (StopSchedule d) (RestartSchedule d) v (Env d) (LogDir d) (DefaultParams d) (Params d)
    (Steps d) (HandlerOn d) (Preconditions d) (SMTP d) (ErrorMail d) (InfoMail d) (MailOn d)
    (Timeout d) (Delay d) (RestartWait d) (MaxActiveRuns d) (MaxCleanUpTime d)
    (HistRetentionDays d).
Definition set_Env (d : t) (v : list string) : t :=
    mk (Location d) (Group d) (Name d) (Dotenv d) (Tags d) (Description d) (Schedule d)
    (StopSchedule d) (RestartSchedule d) (SkipIfSuccessful d) v (LogDir d) (DefaultParams d)
    (Params d) (Steps d) (HandlerOn d) (Preconditions d) (SMTP d) (ErrorMail d) (InfoMail d)
    (MailOn d) (Timeout d) (Delay d) (RestartWait d) (MaxActiveRuns d) (MaxCleanUpTime d)
    (HistRetentionDays d).
Definition set_LogDir (d : t) (v : string) : t :=
    mk (Location d) (Group d) (Name d) (Dotenv d) (Tags d) (Description d) (Schedule d)
    (StopSchedule d) (RestartSchedule d) (SkipIfSuccessful d) (Env d) v (DefaultParams d)
    (Params d) (Steps d) (HandlerOn d) (Preconditions d) (SMTP d) (ErrorMail d) (InfoMail d)
    (MailOn d) (Timeout d) (Delay d) (RestartWait d) (MaxActiveRuns d) (MaxCleanUpTime d)
    (HistRetentionDays d).
Definition set_DefaultParams (d : t) (v : string) : t :=
    mk (Location d) (Group d) (Name d) (Dotenv d) (Tags d) (Description d) (Schedule d)
    (StopSchedule d) (RestartSchedule d) (SkipIfSuccessful d) (Env d) (LogDir d) v (Params
    d) (Steps d) (HandlerOn d) (Preconditions d) (SMTP d) (ErrorMail d) (InfoMail d) (MailOn
    d) (Timeout d) (Delay d) (RestartWait d) (MaxActiveRuns d) (MaxCleanUpTime d)
    (HistRetentionDays d).
Definition set_Params (d : t) (v : list string) : t :=
    mk (Location d) (Group d) (Name d) (Dotenv d) (Tags d) (Description d) (Schedule d)
    (StopSchedule d) (RestartSchedule d) (SkipIfSuccessful d) (Env d) (LogDir d)
    (DefaultParams d) v (Steps d) (HandlerOn d) (Preconditions d) (SMTP d) (ErrorMail d)
    (InfoMail d) (MailOn d) (Timeout d) (Delay d) (RestartWait d) (MaxActiveRuns d)
    (MaxCleanUpTime d) (HistRetentionDays d).
Definition set_Steps (d : t) (v : list Step.t) : t :=
    mk (Location d) (Group d) (Name d) (Dotenv d) (Tags d) (Description d) (Schedule d)
    (StopSchedule d) (RestartSchedule d) (SkipIfSuccessful d) (Env d) (LogDir d)
    (DefaultParams d) (Params d) v (HandlerOn d) (Preconditions d) (SMTP d) (ErrorMail d)
    (InfoMail d) (MailOn d) (Timeout d) (Delay d) (RestartWait d) (MaxActiveRuns d)
    (MaxCleanUpTime d) (HistRetentionDays d).
Definition set_HandlerOn (d : t) (v : HandlerOn.t) : t :=
    mk (Location d) (Group d) (Name d) (Dotenv d) (Tags d) (Description d) (Schedule d)
    (StopSchedule d) (RestartSchedule d) (SkipIfSuccessful d) (Env d) (LogDir d)
    (DefaultParams d) (Params d) (Steps d) v (Preconditions d) (SMTP d) (ErrorMail d)
    (InfoMail d) (MailOn d) (Timeout d) (Delay d) (RestartWait d) (MaxActiveRuns d)
    (MaxCleanUpTime d) (HistRetentionDays d).
Definition set_Preconditions (d : t) (v : list Condition.t) : t :=
    mk (Location d) (Group d) (Name d) (Dotenv d) (Tags d) (Description d) (Schedule d)
    (StopSchedule d) (RestartSchedule d) (SkipIfSuccessful d) (Env d) (LogDir d)
    (DefaultParams d) (Params d) (Steps d) (HandlerOn d) v (SMTP d) (ErrorMail d) (InfoMail
    d) (MailOn d) (Timeout d) (Delay d) (RestartWait d) (MaxActiveRuns d) (MaxCleanUpTime d)
    (HistRetentionDays d).
Definition set_SMTP (d : t) (v : option SMTPConfig.t) : t :=
    mk (Location d) (Group d) (Name d) (Dotenv d) (Tags d) (Description d) (Schedule d)
    (StopSchedule d) (RestartSchedule d) (SkipIfSuccessful d) (Env d) (LogDir d)
    (DefaultParams d) (Params d) (Steps d) (HandlerOn d) (Preconditions d) v (ErrorMail d)
    (InfoMail d) (MailOn d) (Timeout d) (Delay d) (RestartWait d) (MaxActiveRuns d)
    (MaxCleanUpTime d) (HistRetentionDays d).
Definition set_ErrorMail (d : t) (v : option MailConfig.t) : t :=
    mk (Location d) (Group d) (Name d) (Dotenv d) (Tags d) (Description d) (Schedule d)
    (StopSchedule d) (RestartSchedule d) (SkipIfSuccessful d) (Env d) (LogDir d)
    (DefaultParams d) (Params d) (Steps d) (HandlerOn d) (Preconditions d) (SMTP d) v
    (InfoMail d) (MailOn d) (Timeout d) (Delay d) (RestartWait d) (MaxActiveRuns d)
    (MaxCleanUpTime d) (HistRetentionDays d).
Definition set_InfoMail (d : t) (v : option MailConfig.t) : t :=
    mk (Location d) (Group d) (Name d) (Dotenv d) (Tags d) (Description d) (Schedule d)
    (StopSchedule d) (RestartSchedule d) (SkipIfSuccessful d) (Env d) (LogDir d)
    (DefaultParams d) (Params d) (Steps d) (HandlerOn d) (Preconditions d) (SMTP d)
    (ErrorMail d) v (MailOn d) (Timeout d) (Delay d) (RestartWait d) (MaxActiveRuns d)
    (MaxCleanUpTime d) (HistRetentionDays d).
Definition set_MailOn (d : t) (v : option MailOn.t) : t :=
    mk (Location d) (Group d) (Name d) (Dotenv d) (Tags d) (Description d) (Schedule d)
    (StopSchedule d) (RestartSchedule d) (SkipIfSuccessful d) (Env d) (LogDir d)
    (DefaultParams d) (Params d) (Steps d) (HandlerOn d) (Preconditions d) (SMTP d)
    (ErrorMail d) (InfoMail d) v (Timeout d) (Delay d) (RestartWait d) (MaxActiveRuns d)
    (MaxCleanUpTime d) (HistRetentionDays d).
Definition set_Timeout (d : t) (v : Z) : t :=
    mk (Location d) (Group d) (Name d) (Dotenv d) (Tags d) (Description d) (Schedule d)
    (StopSchedule d) (RestartSchedule d) (SkipIfSuccessful d) (Env d) (LogDir d)
    (DefaultParams d) (Params d) (Steps d) (HandlerOn d) (Preconditions d) (SMTP d)
    (ErrorMail d) (InfoMail d) (MailOn d) v (Delay d) (RestartWait d) (MaxActiveRuns d)
    (MaxCleanUpTime d) (HistRetentionDays d).
Definition set_Delay (d : t) (v : Z) : t :=
    mk (Location d) (Group d) (Name d) (Dotenv d) (Tags d) (Description d) (Schedule d)
    (StopSchedule d) (RestartSchedule d) (SkipIfSuccessful d) (Env d) (LogDir d)
    (DefaultParams d) (Params d) (Steps d) (HandlerOn d) (Preconditions d) (SMTP d)
    (ErrorMail d) (InfoMail d) (MailOn d) (Timeout d) v (RestartWait d) (MaxActiveRuns d)
    (MaxCleanUpTime d) (HistRetentionDays d).
Definition set_RestartWait (d : t) (v : Z) : t :=
    mk (Location d) (Group d) (Name d) (Dotenv d) (Tags d) (Description d) (Schedule d)
    (StopSchedule d) (RestartSchedule d) (SkipIfSuccessful d) (Env d) (LogDir d)
    (DefaultParams d) (Params d) (Steps d) (HandlerOn d) (Preconditions d) (SMTP d)
    (ErrorMail d) (InfoMail d) (MailOn d) (Timeout d) (Delay d) v (MaxActiveRuns d)
    (MaxCleanUpTime d) (HistRetentionDays d).
Definition set_MaxActiveRuns (d : t) (v : Z) : t :=
    mk (Location d) (Group d) (Name d) (Dotenv d) (Tags d) (Description d) (Schedule d)
    (StopSchedule d) (RestartSchedule d) (SkipIfSuccessful d) (Env d) (LogDir d)
    (DefaultParams d) (Params d) (Steps d) (HandlerOn d) (Preconditions d) (SMTP d)
    (ErrorMail d) (InfoMail d) (MailOn d) (Timeout d) (Delay d) (RestartWait d) v
    (MaxCleanUpTime d) (HistRetentionDays d).
Definition set_MaxCleanUpTime (d : t) (v : Z) : t :=
    mk (Location d) (Group d) (Name d) (Dotenv d) (Tags d) (Description d) (Schedule d)
    (StopSchedule d) (RestartSchedule d) (SkipIfSuccessful d) (Env d) (LogDir d)
    (DefaultParams d) (Params d) (Steps d) (HandlerOn d) (Preconditions d) (SMTP d)
    (ErrorMail d) (InfoMail d) (MailOn d) (Timeout d) (Delay d) (RestartWait d)
    (MaxActiveRuns d) v (HistRetentionDays d).
Definition set_HistRetentionDays (d : t) (v : Z) : t :=
    mk (Location d) (Group d) (Name d) (Dotenv d) (Tags d) (Description d) (Schedule d)
    (StopSchedule d) (RestartSchedule d) (SkipIfSuccessful d) (Env d) (LogDir d)
    (DefaultParams d) (Params d) (Steps d) (HandlerOn d) (Preconditions d) (SMTP d)
    (ErrorMail d) (InfoMail d) (MailOn d) (Timeout d) (Delay d) (RestartWait d)
    (MaxActiveRuns d) (MaxCleanUpTime d) v.

Definition defaultHistoryRetentionDays : Z := 30.
Definition defaultMaxCleanUpTime : Z := (60 * Second)%Z.

(** [DAG.HasTag]. *)
Definition HasTag (d : t) (tag : string) : bool :=
  existsb (fun x => bool_decide (x = tag)) (Tags d).

(** [setupSteps] and [setupHandlers]. *)
Definition setupSteps (d : t) (workDir : string) : t :=
  set_Steps d ((fun s => Step.setup s workDir) <$> Steps d).

Definition setupHandlers (d : t) (workDir : string) : t :=
  let h := HandlerOn d in
  let on := fun o => (fun s => Step.setup s workDir) <$> o in
  set_HandlerOn d (HandlerOn.mk (on (HandlerOn.Failure h)) (on (HandlerOn.Success h))
                                (on (HandlerOn.Cancel h)) (on (HandlerOn.Exit h))).

(** [DAG.setup]: the defaults; [workDir] is [filepath.Dir d.Location]. *)
Definition setup (workDir : string) (d : t) : t :=
  let d := if bool_decide (HistRetentionDays d = 0%Z)
           then set_HistRetentionDays d defaultHistoryRetentionDays else d in
  let d := if bool_decide (MaxCleanUpTime d = 0%Z)
           then set_MaxCleanUpTime d defaultMaxCleanUpTime else d in
  setupHandlers (setupSteps d workDir) workDir.

(** [DAG.String]. *)
Definition String (d : t) : string :=
  let tab := l2s [Ascii.ascii_of_nat 9] in
  let lf := l2s [Ascii.ascii_of_nat 10] in
  let entry name value := tab +:+ name +:+ ": " +:+ value +:+ lf in
  "{" +:+ lf +:+ entry "Name" (Name d) +:+ entry "Description" (TrimSpace (Description d)) +:+
  entry "Params" (join (Params d) ", ") +:+ entry "LogDir" (LogDir d) +:+
  join (imap (fun i s => entry ("Step" +:+ pretty i) (Step.String s)) (Steps d)) "" +:+ "}" +:+ lf.

End DAG.

(** ** Lemmas *)

Lemma Step_setup_Dir s w : w <> "" -> Step.Dir (Step.setup s w) <> "".
Proof. intros Hw. unfold Step.setup. case_bool_decide; done. Qed.

Lemma Step_setup_idemp s w : Step.setup (Step.setup s w) w = Step.setup s w.
Proof.
  unfold Step.setup at 2 3. case_bool_decide as H; unfold Step.setup.
  - case_bool_decide; [|done]. destruct s; simpl in *. by subst.
  - by rewrite bool_decide_false.
Qed.

Lemma HasTag_spec d tag : DAG.HasTag d tag = true <-> tag ∈ DAG.Tags d.
Proof.
  unfold DAG.HasTag. rewrite existsb_exists. setoid_rewrite bool_decide_eq_true.
  rewrite list_elem_of_In. naive_solver.
Qed.
