(* ===== verification/NodeData.v ===== *)
(** * Node state: internal/digraph/scheduler/data.go

    [NodeStatus], [NodeState], [NodeData] and the methods of [SafeData].  Each
    method takes the data's lock for its whole body, so each is one atomic
    function of the record.  Times are nanoseconds; 0 is the zero [time.Time]. *)

From S2P Require Import Prelude GoStrings Vars Digraph.

(** ** Node status *)

Inductive NodeStatus :=
| NodeStatusNone
| NodeStatusRunning
| NodeStatusError
| NodeStatusCancel
| NodeStatusSuccess
| NodeStatusSkipped.

#[export] Instance NodeStatus_eq_dec : EqDecision NodeStatus.
Proof. solve_decision. Defined.

(** The [iota] value, as written to the history files. *)
Definition NodeStatus_int (s : NodeStatus) : Z :=
  match s with
  | NodeStatusNone => 0
  | NodeStatusRunning => 1
  | NodeStatusError => 2
  | NodeStatusCancel => 3
  | NodeStatusSuccess => 4
  | NodeStatusSkipped => 5
  end.

Definition NodeStatus_of_int (n : Z) : option NodeStatus :=
  match n with
  | 0 => Some NodeStatusNone
  | 1 => Some NodeStatusRunning
  | 2 => Some NodeStatusError
  | 3 => Some NodeStatusCancel
  | 4 => Some NodeStatusSuccess
  | 5 => Some NodeStatusSkipped
  | _ => None
  end%Z.

Definition NodeStatus_String (s : NodeStatus) : string :=
  match s with
  | NodeStatusRunning => "running"
  | NodeStatusError => "failed"
  | NodeStatusCancel => "canceled"
  | NodeStatusSuccess => "finished"
  | NodeStatusSkipped => "skipped"
  | NodeStatusNone => "not started"
  end.

Lemma NodeStatus_of_to_int s : NodeStatus_of_int (NodeStatus_int s) = Some s.
Proof. by destruct s. Qed.

#[export] Instance NodeStatus_String_inj : Inj eq eq NodeStatus_String.
Proof. intros [] []; done. Qed.

(** ** State of a node *)

Module NodeState.

Record t := mk {
  Status : NodeStatus;
  Log : string;
  StartedAt : Z;
  FinishedAt : Z;
  RetryCount : Z;
  RetriedAt : Z;
  DoneCount : Z;
  Error : option error;
  ExitCode : Z
}.

(** [NodeState{}]. *)
Definition zero : t := mk NodeStatusNone "" 0 0 0 0 0 None 0.

Definition set_Status (s : t) (v : NodeStatus) : t :=
    mk v (Log s) (StartedAt s) (FinishedAt s) (RetryCount s) (RetriedAt s) (DoneCount s)
    (Error s) (ExitCode s).
Definition set_Log (s : t) (v : string) : t :=
    mk (Status s) v (StartedAt s) (FinishedAt s) (RetryCount s) (RetriedAt s) (DoneCount s)
    (Error s) (ExitCode s).
Definition set_StartedAt (s : t) (v : Z) : t :=
    mk (Status s) (Log s) v (FinishedAt s) (RetryCount s) (RetriedAt s) (DoneCount s) (Error
    s) (ExitCode s).
Definition set_FinishedAt (s : t) (v : Z) : t :=
    mk (Status s) (Log s) (StartedAt s) v (RetryCount s) (RetriedAt s) (DoneCount s) (Error
    s) (ExitCode s).
Definition set_RetryCount (s : t) (v : Z) : t :=
    mk (Status s) (Log s) (StartedAt s) (FinishedAt s) v (RetriedAt s) (DoneCount s) (Error
    s) (ExitCode s).
Definition set_RetriedAt (s : t) (v : Z) : t :=
    mk (Status s) (Log s) (StartedAt s) (FinishedAt s) (RetryCount s) v (DoneCount s) (Error
    s) (ExitCode s).
Definition set_DoneCount (s : t) (v : Z) : t :=
    mk (Status s) (Log s) (StartedAt s) (FinishedAt s) (RetryCount s) (RetriedAt s) v (Error
    s) (ExitCode s).
Definition set_Error (s : t) (v : option error) : t :=
    mk (Status s) (Log s) (StartedAt s) (FinishedAt s) (RetryCount s) (RetriedAt s)
    (DoneCount s) v (ExitCode s).
Definition set_ExitCode (s : t) (v : Z) : t :=
    mk (Status s) (Log s) (StartedAt s) (FinishedAt s) (RetryCount s) (RetriedAt s)
    (DoneCount s) (Error s) v.

End NodeState.

Record NodeData := mkNodeData { nd_Step : Step.t; nd_State : NodeState.t }.

(** ** SafeData *)

Module SafeData.

Definition on_state (f : NodeState.t -> NodeState.t) (d : NodeData) : NodeData :=
  mkNodeData (nd_Step d) (f (nd_State d)).
Definition on_step (f : Step.t -> Step.t) (d : NodeData) : NodeData :=
  mkNodeData (f (nd_Step d)) (nd_State d).

Definition ResetError (d : NodeData) : NodeData :=
  on_state (fun s => NodeState.set_ExitCode (NodeState.set_Error s None) 0) d.

Definition Args (d : NodeData) : list string := Step.Args (nd_Step d).
Definition SetArgs (d : NodeData) (args : list string) : NodeData :=
  on_step (fun s => Step.set_Args s args) d.

Definition GetStep (d : NodeData) : Step.t := nd_Step d.
Definition SetStep (d : NodeData) (step : Step.t) : NodeData := on_step (fun _ => step) d.
Definition Data (d : NodeData) : NodeData := d.

(** [SafeData.Setup]: [eval] is [stepContext.EvalString]. The log file and the
    start time are written first; a field is written as soon as it is
    evaluated, so an error leaves the earlier ones updated. *)
Definition Setup (eval : string -> result string) (logFile : string) (startedAt : Z)
    (d : NodeData) : NodeData * option error :=
  let d := on_state (fun s => NodeState.set_StartedAt (NodeState.set_Log s logFile) startedAt) d in
  match eval (Step.Stdout (nd_Step d)) with
  | Err e => (d, Some (EWrap "failed to evaluate stdout field: " e ""))
  | Ok stdout =>
      let d := on_step (fun s => Step.set_Stdout s stdout) d in
      match eval (Step.Stderr (nd_Step d)) with
      | Err e => (d, Some (EWrap "failed to evaluate stderr field: " e ""))
      | Ok stderr =>
          let d := on_step (fun s => Step.set_Stderr s stderr) d in
          match eval (Step.Dir (nd_Step d)) with
          | Err e => (d, Some (EWrap "failed to evaluate dir field: " e ""))
          | Ok dir => (on_step (fun s => Step.set_Dir s dir) d, None)
          end
      end
  end.

Definition State (d : NodeData) : NodeState.t := nd_State d.
Definition Status (d : NodeData) : NodeStatus := NodeState.Status (nd_State d).
Definition SetStatus (d : NodeData) (status : NodeStatus) : NodeData :=
  on_state (fun s => NodeState.set_Status s status) d.
Definition ContinueOn (d : NodeData) : ContinueOn.t := Step.ContinueOn (nd_Step d).
Definition Log (d : NodeData) : string := NodeState.Log (nd_State d).
Definition SignalOnStop (d : NodeData) : string := Step.SignalOnStop (nd_Step d).
Definition Name (d : NodeData) : string := Step.Name (nd_Step d).
Definition Error (d : NodeData) : option error := NodeState.Error (nd_State d).
Definition SetError (d : NodeData) (err : option error) : NodeData :=
  on_state (fun s => NodeState.set_Error s err) d.

(** [ClearVariable]: nothing when no variables were allocated. *)
Definition ClearVariable (d : NodeData) (key : string) : NodeData :=
  match Step.OutputVariables (nd_Step d) with
  | None => d
  | Some m => on_step (fun s => Step.set_OutputVariables s (Some (SyncMap.Delete m key))) d
  end.

Definition MatchExitCode (d : NodeData) (exitCodes : list Z) : bool :=
  existsb (fun code => Z.eqb code (NodeState.ExitCode (nd_State d))) exitCodes.

Definition getVariable (d : NodeData) (key : string) : option string :=
  match Step.OutputVariables (nd_Step d) with
  | None => None
  | Some m => SyncMap.Load m key
  end.

Definition getBoolVariable (d : NodeData) (key : string) : option bool :=
  KeyValue.Bool <$> getVariable d key.

Definition setVariable (d : NodeData) (key value : string) : NodeData :=
  let m := default SyncMap.empty (Step.OutputVariables (nd_Step d)) in
  on_step (fun s => Step.set_OutputVariables s
             (Some (SyncMap.Store m key (KeyValue.NewKeyValue key value)))) d.

Definition setBoolVariable (d : NodeData) (key : string) (value : bool) : NodeData :=
  let m := default SyncMap.empty (Step.OutputVariables (nd_Step d)) in
  on_step (fun s => Step.set_OutputVariables s
             (Some (SyncMap.Store m key
                      (KeyValue.NewKeyValue key (KeyValue.FormatBool value))))) d.

Definition Finish (now : Z) (d : NodeData) : NodeData :=
  on_state (fun s => NodeState.set_FinishedAt s now) d.
Definition IncRetryCount (d : NodeData) : NodeData :=
  on_state (fun s => NodeState.set_RetryCount s (int64 (NodeState.RetryCount s + 1))) d.
Definition GetRetryCount (d : NodeData) : Z := NodeState.RetryCount (nd_State d).
Definition SetRetriedAt (d : NodeData) (retriedAt : Z) : NodeData :=
  on_state (fun s => NodeState.set_RetriedAt s retriedAt) d.
Definition IncDoneCount (d : NodeData) : NodeData :=
  on_state (fun s => NodeState.set_DoneCount s (int64 (NodeState.DoneCount s + 1))) d.
Definition GetDoneCount (d : NodeData) : Z := NodeState.DoneCount (nd_State d).
Definition GetExitCode (d : NodeData) : Z := NodeState.ExitCode (nd_State d).
Definition SetExitCode (d : NodeData) (exitCode : Z) : NodeData :=
  on_state (fun s => NodeState.set_ExitCode s exitCode) d.
Definition ClearState (d : NodeData) : NodeData := on_state (fun _ => NodeState.zero) d.
Definition MarkError (d : NodeData) (err : option error) : NodeData :=
  on_state (fun s => NodeState.set_Status (NodeState.set_Error s err) NodeStatusError) d.

End SafeData.

(** ** Lemmas *)

Lemma MatchExitCode_spec d codes :
  SafeData.MatchExitCode d codes = true <-> NodeState.ExitCode (nd_State d) ∈ codes.
Proof.
  unfold SafeData.MatchExitCode. rewrite existsb_exists.
  setoid_rewrite Z.eqb_eq. rewrite list_elem_of_In. naive_solver.
Qed.

Lemma getVariable_setVariable d k v :
  SafeData.getVariable (SafeData.setVariable d k v) k = Some (KeyValue.NewKeyValue k v).
Proof. unfold SafeData.getVariable, SafeData.setVariable. simpl. apply lookup_insert_eq. Qed.

Lemma getVariable_setVariable_ne d k k' v :
  k <> k' ->
  SafeData.getVariable (SafeData.setVariable d k v) k' = SafeData.getVariable d k'.
Proof.
  intros Hk. unfold SafeData.getVariable, SafeData.setVariable. simpl.
  unfold SyncMap.Load. simpl. rewrite lookup_insert_ne by done.
  destruct (Step.OutputVariables (nd_Step d)); simpl; [done|]. apply lookup_empty.
Qed.

Lemma getBoolVariable_setBoolVariable d k b :
  contains k "=" = false ->
  SafeData.getBoolVariable (SafeData.setBoolVariable d k b) k = Some b.
Proof.
  intros Hk. unfold SafeData.getBoolVariable, SafeData.getVariable, SafeData.setBoolVariable.
  simpl. unfold SyncMap.Load. simpl. rewrite lookup_insert_eq. simpl.
  by rewrite KeyValue.Bool_NewKeyValue.
Qed.

Lemma getVariable_ClearVariable d k : SafeData.getVariable (SafeData.ClearVariable d k) k = None.
Proof.
  unfold SafeData.getVariable, SafeData.ClearVariable.
  destruct (Step.OutputVariables (nd_Step d)) eqn:E; simpl; [|by rewrite E].
  apply lookup_delete_eq.
Qed.

Lemma State_setBoolVariable d k b : nd_State (SafeData.setBoolVariable d k b) = nd_State d.
Proof. done. Qed.

Lemma Status_SetStatus d s : SafeData.Status (SafeData.SetStatus d s) = s.
Proof. done. Qed.

#[export] Hint Rewrite getVariable_setVariable getVariable_ClearVariable
  State_setBoolVariable Status_SetStatus : dagu.
