(* ===== verification/CmdUtil.v ===== *)
(** * Command strings: internal/cmdutil cmd.go, sub.go, eval.go

    Splitting and joining of command lines, backtick substitution and variable
    expansion.  Running a command, looking up
    the process environment and evaluating a jq path are arguments. *)

From S2P Require Import Prelude GoStrings Utf8.
From Stdlib Require Import Ascii.

(** ** Joining and splitting an argument list *)

Definition ArgsDelimiter : string := "∯ᓰ♨".

(** [fmt.Sprintf("%s %s", cmd, strings.Join(args, ArgsDelimiter))]. *)
Definition JoinCommandArgs (cmd : string) (args : list string) : string :=
  cmd +:+ " " +:+ join args ArgsDelimiter.

Definition SplitCommandArgs (cmdWithArgs : string) : string * list string :=
  match split2 cmdWithArgs " " with
  | [c; args] => (c, split args ArgsDelimiter)
  | c :: _ => (c, [])
  | [] => ("", [])
  end.

(** [GetShellCommand]: [shellEnv] is [os.ExpandEnv("${SHELL}")], [lookPath] the
    result of [exec.LookPath("sh")]. *)
Definition GetShellCommand (shellEnv : string) (lookPath : option string)
    (configuredShell : string) : string :=
  if bool_decide (configuredShell <> "") then configuredShell
  else if bool_decide (shellEnv <> "") then shellEnv
  else default "" lookPath.

(** [runCommand] (sub.go): [quote] is the quoting of [%q], [exec] runs a program with
    arguments in the environment of the process and gives what it wrote to its two
    outputs and how it ended. *)
Definition runCommand (quote : string -> string) (shell : string)
    (exec : string -> list string -> string * string * option error) (cmdStr : string) : result string :=
  let '(stdout, stderr, err) := exec shell ["-c"; cmdStr] in
  match err with
  | Some e => Err (EWrap ("failed to execute command " +:+ quote cmdStr +:+ ": ") e (l2s ["010"%char] +:+ "stderr=" +:+ stderr))
  | None => Ok (TrimSpace stdout)
  end.

(** ** Pipelines *)

Definition ErrCommandIsEmpty : error := ENew "command is empty".

Module Pipe.

Definition backslash : ascii := "092"%char.
Definition dquote : ascii := "034"%char.
Definition backtick : ascii := "096"%char.
Definition bar : ascii := "124"%char.

(** The loop variables of [ParsePipedCommand], on runes; [current] is kept
    reversed. *)
Record scan := mkScan {
  inQuote : bool;
  inBacktick : bool;
  inEscape : bool;
  current : list Z;
  tokens : list (list Z)
}.

Definition init : scan := mkScan false false false [] [].

(** Close the current token, if it is not empty. *)
Definition flush (s : scan) : scan :=
  match current s with
  | [] => s
  | _ => mkScan (inQuote s) (inBacktick s) (inEscape s) [] (tokens s ++ [reverse (current s)])
  end.

(** One iteration of the rune loop: the cases of the [switch], in order. *)
Definition step (s : scan) (r : Z) : scan :=
  let push s := mkScan (inQuote s) (inBacktick s) (inEscape s) (r :: current s) (tokens s) in
  if inEscape s then
    mkScan (inQuote s) (inBacktick s) false (r :: current s) (tokens s)
  else if bool_decide (r = byte_z backslash) then
    mkScan (inQuote s) (inBacktick s) true (r :: current s) (tokens s)
  else if bool_decide (r = byte_z dquote) && negb (inBacktick s) then
    mkScan (negb (inQuote s)) (inBacktick s) (inEscape s) (r :: current s) (tokens s)
  else if bool_decide (r = byte_z backtick) then
    mkScan (inQuote s) (negb (inBacktick s)) (inEscape s) (r :: current s) (tokens s)
  else if bool_decide (r = byte_z bar) && negb (inQuote s) && negb (inBacktick s) then
    let s' := flush s in
    mkScan (inQuote s') (inBacktick s') (inEscape s') (current s') (tokens s' ++ [[byte_z bar]])
  else if IsSpace r && negb (inQuote s) && negb (inBacktick s) then flush s
  else push s.

(** The second loop: "|" tokens close a command, empty commands are dropped. *)
Definition group_step (acc : list (list string) * list string) (token : string)
    : list (list string) * list string :=
  let '(pipeline, cur) := acc in
  if bool_decide (token = "|") then
    match cur with
    | [] => (pipeline, [])
    | _ => (pipeline ++ [cur], [])
    end
  else (pipeline, cur ++ [token]).

Definition group (toks : list string) : list (list string) :=
  let '(pipeline, cur) := foldl group_step ([], []) toks in
  match cur with
  | [] => pipeline
  | _ => pipeline ++ [cur]
  end.

Definition tokenize (rs : list Z) : list string :=
  encode_runes <$> tokens (flush (foldl step init rs)).

End Pipe.

(** [ParsePipedCommand]: its error result is always nil. *)
Definition ParsePipedCommand (cmdString : string) : result (list (list string)) :=
  Ok (Pipe.group (Pipe.tokenize (decode_runes cmdString))).

(** The tail shared by [SplitCommand] and [SplitCommandWithSub]. An index out
    of range panics. *)
Definition flatten_pipeline (pipeline : list (list string)) : result (string * list string) :=
  match pipeline with
  | first :: ((_ :: _) as rest) =>
      match first with
      | [] => Err (panic "index out of range")
      | cmd :: args => Ok ((cmd, args ++ concat ((fun c => "|" :: c) <$> rest)))
      end
  | [] => Err ErrCommandIsEmpty
  | [command] =>
      match command with
      | [] => Err ErrCommandIsEmpty
      | cmd :: args => Ok (cmd, args)
      end
  end.

Definition SplitCommand (cmd : string) : result (string * list string) :=
  match ParsePipedCommand cmd with
  | Err e => Err e
  | Ok pipeline => flatten_pipeline pipeline
  end.

(** ** Backtick substitution (sub.go) *)

Section substitute.
Context (runCommand : string -> result string).

(** The loop of [substituteCommands]: [res] and [cmd] are the two builders. It
    looks for ASCII characters and writes every other rune as it is, so it walks
    the bytes of the runes. *)
Fixpoint substitute_loop (l : bytes) (res cmd : bytes) (inCommand : bool) : result bytes :=
  match l with
  | [] =>
      Ok (match cmd with [] => res | _ => res ++ Pipe.backtick :: cmd end)
  | r :: l' =>
      match bool_decide (r = Pipe.backslash), l' with
      | true, r2 :: l'' =>
          if bool_decide (r2 = Pipe.backtick) then
            substitute_loop l'' (res ++ [Pipe.backslash; Pipe.backtick]) cmd inCommand
          else if inCommand then substitute_loop l' res (cmd ++ [r]) inCommand
          else substitute_loop l' (res ++ [r]) cmd inCommand
      | _, _ =>
          if bool_decide (r = Pipe.backtick) then
            if inCommand then
              match cmd with
              | [] => substitute_loop l' (res ++ [Pipe.backtick; Pipe.backtick]) [] false
              | _ =>
                  match runCommand (l2s cmd) with
                  | Err e => Err e
                  | Ok output => substitute_loop l' (res ++ s2l output) [] false
                  end
              end
            else substitute_loop l' res cmd true
          else if inCommand then substitute_loop l' res (cmd ++ [r]) inCommand
          else substitute_loop l' (res ++ [r]) cmd inCommand
      end
  end.

Definition substituteCommands (input : string) : result string :=
  l2s <$> substitute_loop (s2l (encode_runes (decode_runes input))) [] [] false.

(** [escapeReplacer]: \t, \r, \n get their backslash multiplied by four. *)
Fixpoint escapeReplace (l : bytes) : bytes :=
  match l with
  | [] => []
  | r :: l' =>
      match bool_decide (r = Pipe.backslash), l' with
      | true, c :: l'' =>
          if bool_decide (c ∈ ["t"%char; "r"%char; "n"%char]) then
            replicate 4 Pipe.backslash ++ c :: escapeReplace l''
          else r :: escapeReplace l'
      | _, _ => r :: escapeReplace l'
      end
  end.

(** [SplitCommandWithSub]: every argument of a command of two words or more is
    escaped and substituted, the command word included. *)
Definition sub_command (command : list string) : result (list string) :=
  if (length command <? 2)%nat then Ok command
  else
    mapE (fun arg =>
            match substituteCommands (l2s (escapeReplace (s2l arg))) with
            | Ok v => Ok v
            | Err e => Err (EWrap "failed to substitute command: " e "")
            end) command.

Definition SplitCommandWithSub (cmd : string) : result (string * list string) :=
  match ParsePipedCommand cmd with
  | Err e => Err e
  | Ok pipeline =>
      match mapE sub_command pipeline with
      | Err e => Err e
      | Ok pipeline => flatten_pipeline pipeline
      end
  end.

End substitute.

(** ** Shell-ready argument strings *)

(** The class [\s] of RE2. *)
Definition re_space (c : ascii) : bool :=
  let n := nat_of_ascii c in
  (n =? 32)%nat || (n =? 9)%nat || (n =? 10)%nat || (n =? 12)%nat || (n =? 13)%nat.

(** [reEscapedKeyValue]: a key without spaces or equal signs, an equal sign,
    then one nonempty text between double quotes. *)
Definition reEscapedKeyValue (arg : string) : bool :=
  match cutl ["="%char] (s2l arg) with
  | Some (k, q1 :: v) =>
      bool_decide (k <> []) && forallb (fun c => negb (re_space c)) k &&
      bool_decide (q1 = Pipe.dquote) &&
      match reverse v with
      | q2 :: body => bool_decide (q2 = Pipe.dquote) && bool_decide (body <> []) &&
                      forallb (fun c => negb (bool_decide (c = Pipe.dquote))) body
      | [] => false
      end
  | _ => false
  end.

Definition quote_arg (arg : string) : string :=
  let dq := l2s [Pipe.dquote] in
  if has_prefix arg dq && has_suffix arg dq then arg
  else if has_prefix arg "'" && has_suffix arg "'" then arg
  else if contains arg " " then
    if reEscapedKeyValue arg then arg
    else dq +:+ replace_all arg dq (l2s [Pipe.backslash; Pipe.dquote]) +:+ dq
  else arg.

Definition BuildCommandEscapedString (command : string) (args : list string) : string :=
  match args with
  | [] => command
  | _ => command +:+ " " +:+ join (quote_arg <$> args) " "
  end.

(** ** Properties of command lines

    The round trips of argument lists and of pipelines, and what
    [ParsePipedCommand] and [SplitCommand] return on any text. *)

(** ** Decoding around an ASCII character *)

Lemma cont_ascii c : is_ascii c = true -> cont c = false.
Proof. unfold is_ascii, cont. intros H%Z.ltb_lt. apply andb_false_iff. left. apply Z.leb_gt. lia. Qed.

Lemma decode_rune_app a c b :
  a <> [] -> is_ascii c = true -> decode_rune (a ++ c :: b) = decode_rune a.
Proof.
  intros Ha Hc%cont_ascii. unfold decode_rune.
  destruct a as [|b0 [|b1 [|b2 [|b3 a]]]]; [done|..|done]; cbn [app]; rewrite ?Hc; simpl;
    destruct b as [|x [|y b]]; rewrite ?Hc, ?andb_false_r, ?andb_false_l; simpl; repeat case_match; done.
Qed.

Lemma decode_loop_app n m a c b :
  is_ascii c = true -> length a <= n -> length a + length (c :: b) <= m ->
  exists k, length (c :: b) <= k /\ decode_loop m (a ++ c :: b) = decode_loop n a ++ decode_loop k (c :: b).
Proof.
  intros Hc. revert m a. induction n as [|n IH]; intros m a Hn Hm.
  { destruct a; [|simpl in *; lia]. by exists m. }
  destruct a as [|b0 a]; [by exists m|]. destruct m as [|m]; [simpl in *; lia|].
  pose proof (decode_rune_width (b0 :: a) ltac:(done)) as Hw.
  cbn [decode_loop app]. change (b0 :: a ++ c :: b) with ((b0 :: a) ++ c :: b).
  rewrite decode_rune_app by done. destruct (decode_rune (b0 :: a)) as [r w]. simpl in Hw.
  destruct (IH m (drop w (b0 :: a))) as (k & Hk & E).
  { rewrite length_drop. simpl in *. lia. }
  { rewrite length_drop. simpl in *. lia. }
  exists k. split; [done|]. rewrite (take_app_le (b0 :: a)) by (simpl; lia).
  rewrite (drop_app_le (b0 :: a)) by (simpl; lia). rewrite E. done.
Qed.

Lemma decode_loop_fuel n m l : length l <= n -> length l <= m -> decode_loop n l = decode_loop m l.
Proof.
  revert m l. induction n as [|n IH]; intros m l Hn Hm; destruct l as [|c l]; simpl in Hn, Hm;
    [by destruct m|lia|by destruct m|]. destruct m as [|m]; [lia|].
  pose proof (decode_rune_width (c :: l) ltac:(done)) as Hw. cbn [decode_loop].
  destruct (decode_rune (c :: l)) as [r w]. simpl in Hw. f_equal.
  apply IH; rewrite length_drop; simpl; lia.
Qed.

(** An ASCII character starts a new rune. *)
Lemma decode_app a c b : is_ascii c = true -> decode (a ++ c :: b) = decode a ++ decode (c :: b).
Proof.
  intros Hc. unfold decode.
  destruct (decode_loop_app (length a) (length (a ++ c :: b)) a c b) as (k & Hk & ->);
    [done|done|rewrite length_app; done|]. f_equal. by apply decode_loop_fuel.
Qed.

Lemma decode_cons c b : is_ascii c = true -> decode (c :: b) = (byte_z c, [c]) :: decode b.
Proof.
  intros Hc. unfold decode. simpl. unfold is_ascii in Hc. rewrite Hc. cbn [take drop].
  by rewrite take_0, drop_0.
Qed.

Lemma decode_runes_sep a c b :
  is_ascii c = true ->
  decode_runes (a +:+ String.String c b) = decode_runes a ++ byte_z c :: decode_runes b.
Proof.
  intros Hc. unfold decode_runes. rewrite s2l_app. simpl s2l. rewrite decode_app, decode_cons by done.
  by rewrite fmap_app.
Qed.

Lemma join_cons x y l sep : join (x :: y :: l) sep = x +:+ sep +:+ join (y :: l) sep.
Proof. apply s2l_inj. unfold join. rewrite !s2l_app, !s2l_l2s. done. Qed.

Lemma join_one x sep : join [x] sep = x.
Proof. unfold join. simpl. apply l2s_s2l. Qed.

(** ** The scanner *)

Import Pipe.

(** Tokens already found do not matter. *)
Definition add_tokens (ts : list (list Z)) (s : scan) : scan :=
  mkScan (inQuote s) (inBacktick s) (inEscape s) (current s) (ts ++ tokens s).

Lemma flush_add ts s : flush (add_tokens ts s) = add_tokens ts (flush s).
Proof. destruct s as [q b e [|r cur] toks]; unfold flush, add_tokens; simpl; [done|]. by rewrite app_assoc. Qed.

Lemma step_add ts s r : step (add_tokens ts s) r = add_tokens ts (step s r).
Proof.
  unfold step. rewrite flush_add. unfold add_tokens. simpl. repeat case_match; simpl; try done.
  by rewrite <- app_assoc.
Qed.

Lemma scan_add ts s rs : foldl step (add_tokens ts s) rs = add_tokens ts (foldl step s rs).
Proof. revert s. induction rs as [|r rs IH]; intros s; simpl; [done|]. by rewrite step_add, IH. Qed.

#[export] Instance scan_eq_dec : EqDecision scan.
Proof. solve_decision. Defined.

(** A scan outside quotes and between tokens. *)
Definition between (ts : list (list Z)) : scan := mkScan false false false [] ts.

(** A text that is one word: scanned from outside quotes it stays one token and
    leaves quotes and backticks closed; spaces and bars may occur in quotes. *)
Definition is_word (w : string) : bool :=
  bool_decide (foldl step init (decode_runes w) = mkScan false false false (reverse (decode_runes w)) []) &&
  bool_decide (decode_runes w <> []) && bool_decide (w <> "|") &&
  bool_decide (encode_runes (decode_runes w) = w).

Lemma scan_word ts w :
  is_word w = true ->
  foldl step (between ts) (decode_runes w) = mkScan false false false (reverse (decode_runes w)) ts.
Proof.
  unfold is_word. rewrite !andb_true_iff, !bool_decide_eq_true. intros [[[Hs _] _] _].
  change (between ts) with (mkScan false false false [] ts).
  replace (mkScan false false false [] ts) with (add_tokens ts init) by (unfold add_tokens; simpl; by rewrite app_nil_r).
  rewrite scan_add, Hs. unfold add_tokens. simpl. by rewrite app_nil_r.
Qed.

Lemma flush_word ts w :
  is_word w = true ->
  flush (mkScan false false false (reverse (decode_runes w)) ts) = between (ts ++ [decode_runes w]).
Proof.
  unfold is_word. rewrite !andb_true_iff, !bool_decide_eq_true. intros [[[_ Hne] _] _]. unfold flush. simpl.
  destruct (reverse (decode_runes w)) as [|r rs] eqn:E.
  { exfalso. apply Hne. apply (f_equal reverse) in E. by rewrite reverse_involutive in E. }
  unfold between. rewrite <- E, reverse_involutive. done.
Qed.

Lemma scan_space s : inQuote s = false -> inBacktick s = false -> inEscape s = false -> step s 32 = flush s.
Proof. intros H1 H2 H3. unfold step. by rewrite H1, H2, H3. Qed.

Lemma scan_bar ts : step (between ts) (byte_z bar) = between (ts ++ [[byte_z bar]]).
Proof. done. Qed.

(** The words of a command, separated by spaces. *)
Lemma scan_command cmd : forall ts,
  cmd <> [] -> Forall (fun w => is_word w = true) cmd ->
  flush (foldl step (between ts) (decode_runes (join cmd " "))) = between (ts ++ (decode_runes <$> cmd)).
Proof.
  induction cmd as [|w cmd IH]; intros ts Hne Hw; [done|]. apply Forall_cons_iff in Hw as [Hw Hcmd].
  destruct cmd as [|w2 cmd].
  - rewrite join_one, scan_word by done. by apply flush_word.
  - assert (join (w :: w2 :: cmd) " " = w +:+ String.String " "%char (join (w2 :: cmd) " ")) as ->.
    { by rewrite join_cons. }
    rewrite decode_runes_sep by done. rewrite foldl_app, scan_word by done. cbn [foldl].
    change (byte_z " "%char) with 32%Z. rewrite scan_space, flush_word by done.
    rewrite IH by done. f_equal. rewrite fmap_cons, <- app_assoc. done.
Qed.

(** A pipeline as text: words separated by spaces, commands by a bar. *)
Definition render (pipeline : list (list string)) : string :=
  join ((fun cmd => join cmd " ") <$> pipeline) " | ".

(** Its tokens. *)
Fixpoint pipe_tokens (pipeline : list (list string)) : list string :=
  match pipeline with
  | [] => []
  | [cmd] => cmd
  | cmd :: rest => cmd ++ "|" :: pipe_tokens rest
  end.

Definition good_command (cmd : list string) : Prop := cmd <> [] /\ Forall (fun w => is_word w = true) cmd.

Lemma flush_flags s ts :
  flush s = between ts -> inQuote s = false /\ inBacktick s = false /\ inEscape s = false.
Proof.
  destruct s as [q b e [|r cur] toks]; unfold flush, between; simpl; intros H; by simplify_eq.
Qed.

Lemma scan_pipeline pipeline : forall ts,
  pipeline <> [] -> Forall good_command pipeline ->
  flush (foldl step (between ts) (decode_runes (render pipeline))) =
  between (ts ++ (decode_runes <$> pipe_tokens pipeline)).
Proof.
  induction pipeline as [|cmd rest IH]; intros ts Hne Hw; [done|].
  apply Forall_cons_iff in Hw as [[Hcmd Hwords] Hrest]. destruct rest as [|cmd2 rest].
  - unfold render. simpl fmap. rewrite join_one. by apply scan_command.
  - set (later := cmd2 :: rest) in *.
    assert (render (cmd :: later) = join cmd " " +:+ String.String " "%char
              ("" +:+ String.String bar ("" +:+ String.String " "%char (render later)))) as ->.
    { unfold render, later. rewrite !fmap_cons, join_cons. done. }
    rewrite !decode_runes_sep by done. change (decode_runes "") with (@nil Z). cbn [app].
    change (byte_z " "%char) with 32%Z.
    pose proof (scan_command cmd ts Hcmd Hwords) as Hs. destruct (flush_flags _ _ Hs) as (H1 & H2 & H3).
    rewrite foldl_app. cbn [foldl].
    rewrite (scan_space (foldl step (between ts) (decode_runes (join cmd " ")))), Hs by done.
    rewrite scan_bar, scan_space by done.
    change (flush (between ?t)) with (between t). rewrite IH by done. f_equal.
    unfold later. cbn [pipe_tokens]. rewrite fmap_app, fmap_cons, <- !app_assoc. done.
Qed.

(** ** Grouping *)

Lemma group_words p cur ws :
  Forall (fun w => w <> "|") ws -> foldl group_step (p, cur) ws = (p, cur ++ ws).
Proof.
  intros Hw. revert cur. induction Hw as [|w ws Hw Hws IH]; intros cur; simpl; [by rewrite app_nil_r|].
  rewrite bool_decide_false by done. rewrite IH. by rewrite <- app_assoc.
Qed.

Lemma group_tokens pipeline p :
  Forall (fun cmd => cmd <> [] /\ Forall (fun w => w <> "|") cmd) pipeline -> pipeline <> [] ->
  exists pre cur, pipeline = pre ++ [cur] /\ foldl group_step (p, []) (pipe_tokens pipeline) = (p ++ pre, cur).
Proof.
  revert p. induction pipeline as [|cmd rest IH]; intros p Hf Hne; [done|].
  apply Forall_cons_iff in Hf as [[Hcmd Hw] Hf]. destruct rest as [|cmd2 rest].
  - exists [], cmd. split; [done|]. simpl. rewrite group_words by done. by rewrite app_nil_r.
  - destruct (IH (p ++ [cmd]) Hf ltac:(done)) as (pre & cur & E & Hg).
    exists (cmd :: pre), cur. split; [by rewrite E|].
    change (pipe_tokens (cmd :: cmd2 :: rest)) with (cmd ++ "|" :: pipe_tokens (cmd2 :: rest)).
    rewrite foldl_app, group_words by done.
    cbn [foldl app]. unfold group_step at 2. rewrite bool_decide_true by done.
    destruct cmd as [|w cmd]; [done|]. rewrite Hg. by rewrite <- app_assoc.
Qed.

Lemma group_pipe_tokens pipeline :
  Forall (fun cmd => cmd <> [] /\ Forall (fun w => w <> "|") cmd) pipeline ->
  group (pipe_tokens pipeline) = pipeline.
Proof.
  intros Hf. destruct pipeline as [|cmd rest] eqn:E; [done|]. rewrite <- E in *.
  destruct (group_tokens pipeline [] Hf) as (pre & cur & Hp & Hg); [by subst|].
  unfold group. rewrite Hg. assert (cur <> []) as Hc.
  { rewrite Hp in Hf. apply Forall_app in Hf as [_ Hf]. by apply Forall_cons_iff in Hf as [[? _] _]. }
  destruct cur; [done|]. by rewrite Hp.
Qed.

Lemma group_fold_ok (ts toks : list string) : forall p cur,
  (forall w, w ∈ toks -> w ∈ ts) -> Forall (fun w => w ∈ ts /\ w <> "|") cur ->
  Forall (fun cmd => cmd <> [] /\ Forall (fun w => w ∈ ts /\ w <> "|") cmd) p ->
  let '(p', cur') := foldl group_step (p, cur) toks in
  Forall (fun w => w ∈ ts /\ w <> "|") cur' /\
  Forall (fun cmd => cmd <> [] /\ Forall (fun w => w ∈ ts /\ w <> "|") cmd) p'.
Proof.
  induction toks as [|t toks IH]; intros p cur Hsub Hcur Hp; [done|].
  assert (forall w, w ∈ toks -> w ∈ ts) as Hsub' by (intros w Hw; apply Hsub; by right).
  cbn [foldl]. unfold group_step at 2. case_bool_decide as Ht.
  - destruct cur as [|w cur]; [by apply IH|]. apply IH; [done|by constructor|]. apply Forall_app. split; [done|].
    by apply Forall_singleton.
  - apply IH; [done| |done]. apply Forall_app. split; [done|]. constructor; [|done].
    split; [|done]. apply Hsub. by left.
Qed.

Lemma group_ok (toks : list string) :
  Forall (fun cmd => cmd <> [] /\ Forall (fun w => w ∈ toks /\ w <> "|") cmd) (group toks).
Proof.
  unfold group. pose proof (group_fold_ok toks toks [] [] (fun w H => H) (Forall_nil_2 _) (Forall_nil_2 _)) as H.
  destruct (foldl group_step ([], []) toks) as [p cur]. destruct H as [Hcur Hp].
  destruct cur as [|w cur]; [done|]. apply Forall_app. split; [done|]. by constructor.
Qed.

Lemma scan_nonempty rs s :
  Forall (fun t => t <> []) (tokens s) -> Forall (fun t => t <> []) (tokens (foldl step s rs)).
Proof.
  revert s. induction rs as [|r rs IH]; intros s Hs; [done|]. apply IH. clear IH.
  destruct s as [q b e cur toks]. simpl in Hs.
  assert (Forall (fun t => t <> []) (tokens (flush (mkScan q b e cur toks)))) as Hf.
  { destruct cur as [|c cur]; [done|]. unfold flush. simpl. apply Forall_app. split; [done|].
    constructor; [|done]. rewrite reverse_cons. by destruct (reverse cur). }
  unfold step. repeat case_match; simpl; try done. apply Forall_app. split; [done|]. by constructor.
Qed.

Lemma encode_rune_nonempty r : encode_rune r <> [].
Proof. unfold encode_rune. by repeat case_match. Qed.

Lemma encode_runes_nonempty rs : rs <> [] -> encode_runes rs <> "".
Proof.
  destruct rs as [|r rs]; [done|]. intros _ H. apply (f_equal s2l) in H. unfold encode_runes in H.
  rewrite s2l_l2s in H. simpl in H. pose proof (encode_rune_nonempty r). by destruct (encode_rune r).
Qed.

Lemma tokenize_nonempty rs : Forall (fun w => w <> "") (tokenize rs).
Proof.
  unfold tokenize. apply Forall_fmap. assert (Forall (fun t => t <> []) (tokens (foldl step init rs))) as H
    by (by apply scan_nonempty).
  assert (Forall (fun t => t <> []) (tokens (flush (foldl step init rs)))) as H'.
  { destruct (foldl step init rs) as [q b e cur toks]. destruct cur as [|c cur]; [done|].
    unfold flush. simpl in *. apply Forall_app. split; [done|].
    constructor; [|done]. rewrite reverse_cons. by destruct (reverse cur). }
  eapply Forall_impl; [exact H'|]. intros t. apply encode_runes_nonempty.
Qed.

(** An argument list survives [JoinCommandArgs]: for a command without a
    space and arguments none of which contains the delimiter, [SplitCommandArgs]
    gives back the command and the arguments; no arguments come back as one
    empty argument. *)
Theorem SplitCommandArgs_JoinCommandArgs (cmd : string) (args : list string)
    (Hcmd : contains cmd " " = false)
    (Hargs : Forall (fun a => contains a ArgsDelimiter = false) args) :
  SplitCommandArgs (JoinCommandArgs cmd args) =
  (cmd, match args with [] => [""] | _ => args end).
Proof.
  unfold SplitCommandArgs, JoinCommandArgs.
  rewrite split2_app; [|by vm_compute|done|done]. f_equal. destruct args as [|a args]; [by vm_compute|].
  apply split_join; [done|by vm_compute|done..].
Qed.

(** A pipeline survives its textual form: words, quoted or not, separated
    by spaces, and commands separated by bars, are parsed back as they were. *)
Theorem ParsePipedCommand_render (pipeline : list (list string))
    (Hgood : Forall good_command pipeline) :
  ParsePipedCommand (render pipeline) = Ok pipeline.
Proof.
  destruct (decide (pipeline = [])) as [->|Hne]; [by vm_compute|].
  unfold ParsePipedCommand, tokenize. change init with (between []).
  rewrite scan_pipeline by done. f_equal. simpl.
  assert (forall w, is_word w = true -> encode_runes (decode_runes w) = w /\ w <> "|") as Hw.
  { intros w. unfold is_word. rewrite !andb_true_iff, !bool_decide_eq_true. tauto. }
  assert (encode_runes <$> (decode_runes <$> pipe_tokens pipeline) = pipe_tokens pipeline) as ->.
  { clear Hne. induction Hgood as [|cmd rest [Hcmd Hws] Hrest IH]; [done|].
    assert (encode_runes <$> (decode_runes <$> cmd) = cmd) as Hc.
    { clear -Hws Hw. induction Hws as [|w ws Hword Hws IH]; [done|]. by rewrite !fmap_cons, (proj1 (Hw w Hword)), IH. }
    destruct rest as [|cmd2 rest]; [done|].
    change (pipe_tokens (cmd :: cmd2 :: rest)) with (cmd ++ "|" :: pipe_tokens (cmd2 :: rest)).
    rewrite !fmap_app, !fmap_cons, Hc, IH. f_equal. }
  apply group_pipe_tokens. eapply Forall_impl; [exact Hgood|]. intros cmd [Hc Hws]. split; [done|].
  eapply Forall_impl; [exact Hws|]. intros w Hword. by apply Hw.
Qed.

(** A text in double quotes. *)
Definition in_quotes (s : string) : string := l2s [dquote] +:+ s +:+ l2s [dquote].

Lemma SplitCommandArgs_JoinCommandArgs_witness :
  SplitCommandArgs (JoinCommandArgs "echo" ["a b"; ""; "c"]) = ("echo", ["a b"; ""; "c"]).
Proof.
  apply (SplitCommandArgs_JoinCommandArgs "echo" ["a b"; ""; "c"]); [by vm_compute|].
  repeat constructor; by vm_compute.
Defined.

Lemma ParsePipedCommand_render_witness :
  let pipeline := [["echo"; in_quotes "a | b"; "x\ y"]; ["grep"; "`date | cat`"]; ["wc"; "-l"]] in
  ParsePipedCommand (render pipeline) = Ok pipeline.
Proof.
  apply ParsePipedCommand_render. repeat constructor; try done; by vm_compute.
Defined.

(** Splitting a command line is total: on every text [ParsePipedCommand]
    gives commands that are not empty, of words that are neither empty nor a
    lone bar, and [SplitCommand] returns its first word with the remaining words,
    commands separated by a bar, or, exactly when there is no word, the error for
    an empty command; it never panics. *)
Theorem SplitCommand_total (cmd : string) :
  exists pipeline, ParsePipedCommand cmd = Ok pipeline /\
    Forall (fun c => c <> [] /\ Forall (fun w => w <> "" /\ w <> "|") c) pipeline /\
    match pipe_tokens pipeline with
    | [] => SplitCommand cmd = Err ErrCommandIsEmpty
    | w :: ws => SplitCommand cmd = Ok (w, ws)
    end.
Proof.
  unfold SplitCommand, ParsePipedCommand. eexists. split; [done|].
  set (toks := tokenize (decode_runes cmd)).
  assert (Forall (fun c => c <> [] /\ Forall (fun w => w <> "" /\ w <> "|") c) (group toks)) as Hok.
  { eapply Forall_impl; [exact (group_ok toks)|]. intros c [Hc Hws]. split; [done|].
    eapply Forall_impl; [exact Hws|]. intros w [Hw Hbar]. split; [|done].
    pose proof (tokenize_nonempty (decode_runes cmd)) as Hne. rewrite Forall_forall in Hne. by apply Hne. }
  split; [done|]. destruct (group toks) as [|first rest]; [done|].
  apply Forall_cons_iff in Hok as [[Hf _] Hrest]. destruct first as [|w ws]; [done|].
  assert (forall rest, Forall (fun c => c <> [] /\ Forall (fun w => w <> "" /\ w <> "|") c) rest ->
    forall c, pipe_tokens (c :: rest) = c ++ concat ((fun c => "|" :: c) <$> rest)) as Hp.
  { clear. induction rest as [|c2 rest IH]; intros Hr c; [simpl; by rewrite app_nil_r|].
    apply Forall_cons_iff in Hr as [_ Hr].
    change (pipe_tokens (c :: c2 :: rest)) with (c ++ "|" :: pipe_tokens (c2 :: rest)). by rewrite IH. }
  rewrite Hp by done. destruct rest as [|c2 rest]; simpl; [by rewrite app_nil_r|done].
Qed.
