(* ===== verification/Eval.v ===== *)
(** * Evaluation of string fields: internal/cmdutil/eval.go

    Variable references, JSON path references, backtick commands and
    environment expansion, in the order [EvalString] applies them.  Arguments:
    the process environment [lookupEnv], the shell [runCommand], and [jq], which
    stands for JSON decoding followed by the jq evaluation of a path and the
    [%v] text of its first result. *)

From S2P Require Import Prelude GoStrings CmdUtil.
From Stdlib Require Import Ascii.

(** ** Scanning *)

Fixpoint span (f : ascii -> bool) (l : bytes) : bytes * bytes :=
  match l with
  | [] => ([], [])
  | c :: l' => if f c then let '(a, b) := span f l' in (c :: a, b) else ([], l)
  end.

Lemma span_app f l : fst (span f l) ++ snd (span f l) = l.
Proof.
  induction l as [|c l IH]; simpl; [done|].
  destruct (f c); [|done]. destruct (span f l) as [a b]. simpl in *. by rewrite IH.
Qed.

Lemma span_length f l : length (snd (span f l)) <= length l.
Proof. rewrite <- (span_app f l) at 2. rewrite length_app. lia. Qed.

Lemma span_all f l rest :
  forallb f l = true -> match rest with [] => True | c :: _ => f c = false end ->
  span f (l ++ rest) = (l, rest).
Proof.
  intros Hl Hr. induction l as [|c l IH]; simpl in *.
  - destruct rest as [|c rest]; simpl; [done|]. by rewrite Hr.
  - apply andb_true_iff in Hl as [-> Hl]. by rewrite IH.
Qed.

Definition in_range (lo hi : nat) (c : ascii) : bool :=
  let n := nat_of_ascii c in (lo <=? n)%nat && (n <=? hi)%nat.
Definition is_digit (c : ascii) : bool := in_range 48 57 c.
Definition is_letter (c : ascii) : bool := in_range 65 90 c || in_range 97 122 c.
Definition is_word (c : ascii) : bool := is_letter c || is_digit c || bool_decide (c = "_"%char).
Definition is_name_start (c : ascii) : bool := is_letter c || bool_decide (c = "_"%char).

Definition dollar : ascii := "$"%char.

(** ** [strconv.Atoi] *)

Fixpoint digits_val (acc : Z) (l : bytes) : option Z :=
  match l with
  | [] => Some acc
  | c :: l' =>
      if is_digit c then digits_val (acc * 10 + Z.of_nat (nat_of_ascii c - 48)) l' else None
  end.

Definition Atoi (s : string) : option Z :=
  let '(neg, body) :=
    match s2l s with
    | c :: l => if bool_decide (c = "-"%char) then (true, l)
                else if bool_decide (c = "+"%char) then (false, l) else (false, c :: l)
    | [] => (false, [])
    end in
  match body with
  | [] => None
  | _ =>
      match digits_val 0 body with
      | None => None
      | Some n =>
          let v := (if neg then - n else n)%Z in
          if bool_decide (- 2 ^ 63 <= v < 2 ^ 63)%Z then Some v else None
      end
  end.

(** ** [replaceVars] *)

(** One match on the text after a dollar sign, a name in braces or a bare
    identifier: the key and the text after the match. *)
Definition match_var (l : bytes) : option (bytes * bytes) :=
  match l with
  | c :: r =>
      if bool_decide (c = "{"%char) then
        match span (fun x => negb (bool_decide (x = "}"%char))) r with
        | ((_ :: _) as k, _ :: rest) => Some (k, rest)
        | _ => None
        end
      else if is_name_start c then Some (span is_word l)
      else None
  | [] => None
  end.

(** The text consumed by a match that leaves [rest]. *)
Definition consumed (l rest : bytes) : bytes := take (length l - length rest) l.

Fixpoint replace_loop (m : bytes -> option (bytes * bytes)) (subst : bytes -> option bytes)
    (fuel : nat) (l : bytes) : bytes :=
  match fuel with
  | 0 => l
  | S n =>
      match l with
      | [] => []
      | c :: l' =>
          if bool_decide (c = dollar) then
            match m l' with
            | Some (key, rest) =>
                match subst key with
                | Some v => v ++ replace_loop m subst n rest
                | None => c :: consumed l' rest ++ replace_loop m subst n rest
                end
            | None => c :: replace_loop m subst n l'
            end
          else c :: replace_loop m subst n l'
      end
  end.

Definition replaceVars (template : string) (vars : gmap string string) : string :=
  let l := s2l template in
  l2s (replace_loop match_var (fun k => s2l <$> vars !! l2s k) (length l) l).

(** ** [ExpandReferences] *)

(** The two alternatives of the reference pattern after a dollar sign: a name,
    then a path that starts with a dot; the key is name and path together. *)
Definition match_path (first : ascii -> bool) (inpath : ascii -> bool) (l : bytes)
    : option (bytes * bytes * bytes) :=
  match l with
  | c :: _ =>
      if first c then
        let '(name, r) := span is_word l in
        match r with
        | d :: r' =>
            if bool_decide (d = "."%char) then
              match span inpath r' with
              | ((_ :: _) as p, rest) => Some (name, d :: p, rest)
              | _ => None
              end
            else None
        | [] => None
        end
      else None
  | [] => None
  end.

Definition match_reference (l : bytes) : option (bytes * bytes * bytes) :=
  match l with
  | c :: r =>
      if bool_decide (c = "{"%char) then
        match match_path is_word (fun x => negb (bool_decide (x = "}"%char))) r with
        | Some (name, path, _ :: rest) => Some (name, path, rest)
        | _ => None
        end
      else match_path is_name_start (fun x => negb (re_space x)) l
  | [] => None
  end.

Section eval.
Context (lookupEnv : string -> option string).
Context (jq : string -> string -> option string).
Context (runCommand : string -> result string).

(** The replacement of one reference; [None] leaves the text as it is. *)
Definition reference_value (dataMap : gmap string string) (name path : bytes) : option bytes :=
  let json := match dataMap !! l2s name with
              | Some s => Some s
              | None => lookupEnv (l2s name)
              end in
  match json with
  | None => None
  | Some jsonStr => s2l <$> jq jsonStr (l2s path)
  end.

Fixpoint reference_loop (dataMap : gmap string string) (fuel : nat) (l : bytes) : bytes :=
  match fuel with
  | 0 => l
  | S n =>
      match l with
      | [] => []
      | c :: l' =>
          if bool_decide (c = dollar) then
            match match_reference l' with
            | Some (name, path, rest) =>
                match reference_value dataMap name path with
                | Some v => v ++ reference_loop dataMap n rest
                | None => c :: consumed l' rest ++ reference_loop dataMap n rest
                end
            | None => c :: reference_loop dataMap n l'
            end
          else c :: reference_loop dataMap n l'
      end
  end.

Definition ExpandReferences (input : string) (dataMap : gmap string string) : string :=
  let l := s2l input in l2s (reference_loop dataMap (length l) l).

(** ** [os.ExpandEnv] *)

Definition is_special_var (c : ascii) : bool :=
  is_digit c || bool_decide (c ∈ ["*"%char; "#"%char; "$"%char; "@"%char; "!"%char; "?"%char; "-"%char]).

(** [getShellName]: the name and how many bytes of the text it takes. *)
Definition shell_name (l : bytes) : bytes * nat :=
  match l with
  | [] => ([], 0)
  | c :: r =>
      if bool_decide (c = "{"%char) then
        match r with
        | s :: b :: _ =>
            if is_special_var s && bool_decide (b = "}"%char) then ([s], 3)
            else match span (fun x => negb (bool_decide (x = "}"%char))) r with
                 | ([], _ :: _) => ([], 2)
                 | (k, _ :: _) => (k, length k + 2)
                 | (_, []) => ([], 1)
                 end
        | _ => match span (fun x => negb (bool_decide (x = "}"%char))) r with
               | ([], _ :: _) => ([], 2)
               | (k, _ :: _) => (k, length k + 2)
               | (_, []) => ([], 1)
               end
        end
      else if is_special_var c then ([c], 1)
      else let '(k, _) := span is_word l in (k, length k)
  end.

Definition getenv (name : string) : string := default "" (lookupEnv name).

Fixpoint expand_loop (fuel : nat) (l : bytes) : bytes :=
  match fuel with
  | 0 => l
  | S n =>
      match l with
      | [] => []
      | c :: ((_ :: _) as l') =>
          if bool_decide (c = dollar) then
            match shell_name l' with
            | ([], 0) => c :: expand_loop n l'
            | ([], w) => expand_loop n (drop w l')
            | (name, w) => s2l (getenv (l2s name)) ++ expand_loop n (drop w l')
            end
          else c :: expand_loop n l'
      | [c] => [c]
      end
  end.

Definition ExpandEnv (s : string) : string :=
  let l := s2l s in l2s (expand_loop (length l) l).

(** ** [EvalString] and [EvalIntString] *)

Record EvalOptions := mkEvalOptions {
  opt_ExpandEnv : bool;
  opt_Substitute : bool;
  opt_Variables : list (gmap string string)
}.

Definition newEvalOptions : EvalOptions := mkEvalOptions true true [].

Definition WithVariables (vars : gmap string string) (o : EvalOptions) : EvalOptions :=
  mkEvalOptions (opt_ExpandEnv o) (opt_Substitute o) (opt_Variables o ++ [vars]).
Definition WithoutExpandEnv (o : EvalOptions) : EvalOptions :=
  mkEvalOptions false (opt_Substitute o) (opt_Variables o).
Definition WithoutSubstitute (o : EvalOptions) : EvalOptions :=
  mkEvalOptions (opt_ExpandEnv o) false (opt_Variables o).
Definition OnlyReplaceVars (o : EvalOptions) : EvalOptions :=
  mkEvalOptions false false (opt_Variables o).

Definition apply_opts (opts : list (EvalOptions -> EvalOptions)) : EvalOptions :=
  foldl (fun o f => f o) newEvalOptions opts.

Definition replace_all_vars (value : string) (varss : list (gmap string string)) : string :=
  foldl (fun value vars => replaceVars (ExpandReferences value vars) vars) value varss.

Definition EvalString (input : string) (opts : list (EvalOptions -> EvalOptions)) : result string :=
  let options := apply_opts opts in
  let value := replace_all_vars input (opt_Variables options) in
  let substituted :=
    if opt_Substitute options then
      match substituteCommands runCommand value with
      | Ok v => Ok v
      | Err e => Err (EWrap ("failed to substitute string in " +:+ input +:+ ": ") e "")
      end
    else Ok value in
  match substituted with
  | Err e => Err e
  | Ok value => Ok (if opt_ExpandEnv options then ExpandEnv value else value)
  end.

(** [EvalIntString] expands the environment before it substitutes commands, and
    substitutes them whatever the options say. *)
Definition EvalIntString (input : string) (opts : list (EvalOptions -> EvalOptions)) : result Z :=
  let options := apply_opts opts in
  let value := replace_all_vars input (opt_Variables options) in
  let value := if opt_ExpandEnv options then ExpandEnv value else value in
  match substituteCommands runCommand value with
  | Err e => Err e
  | Ok value =>
      match Atoi value with
      | None => Err (ENew ("failed to convert " +:+ value +:+ " to int"))
      | Some v => Ok v
      end
  end.

End eval.
