(* ===== verification/Matcher.v ===== *)
(** * Pattern matching on text lines: internal/stringutil/matcher.go

    Literal and regular-expression patterns over the lines of a scanner.
    [compile] is [regexp.Compile] with [MatchString]: user patterns are
    arbitrary regular expressions. *)

From S2P Require Import Prelude GoStrings.
From Stdlib Require Import Ascii.

Definition rePrefix : string := "re:".

(** ** [bufio.Scanner] with [ScanLines]

    The lines of a text without their newline (and a trailing carriage return);
    a line of [maxTokenSize] bytes or more stops the scan with an error. *)
Definition newline : ascii := "010"%char.
Definition carriage : ascii := "013"%char.

Definition drop_cr (l : bytes) : bytes :=
  match reverse l with
  | c :: r => if bool_decide (c = carriage) then reverse r else l
  | [] => l
  end.

Fixpoint raw_lines (cur l : bytes) : list bytes :=
  match l with
  | [] => match cur with [] => [] | _ => [reverse cur] end
  | c :: l' => if bool_decide (c = newline) then reverse cur :: raw_lines [] l'
               else raw_lines (c :: cur) l'
  end.

(** The lines read before the scan ends, and whether it ended in an error. *)
Fixpoint bounded (maxTokenSize : nat) (ls : list bytes) : list string * bool :=
  match ls with
  | [] => ([], false)
  | l :: ls' =>
      if (length l <? maxTokenSize)%nat then
        let '(r, err) := bounded maxTokenSize ls' in (l2s (drop_cr l) :: r, err)
      else ([], true)
  end.

Definition scan_lines (maxTokenSize : nat) (content : string) : list string * bool :=
  bounded maxTokenSize (raw_lines [] (s2l content)).

Section matcher.
Context (compile : string -> option (string -> bool)).

(** The two pattern lists built by the first loop; an invalid regular
    expression is logged and skipped. *)
Definition classify_step (acc : list string * list (string -> bool)) (pattern : string)
    : list string * list (string -> bool) :=
  let '(literals, regexps) := acc in
  if has_prefix pattern rePrefix then
    match compile (trim_prefix pattern rePrefix) with
    | Some re => (literals, regexps ++ [re])
    | None => (literals, regexps)
    end
  else (literals ++ [pattern], regexps).

Definition classify (patterns : list string) : list string * list (string -> bool) :=
  foldl classify_step ([], []) patterns.

(** [matchLine]. *)
Definition matchLine (exactMatch : bool) (line : string) (literals : list string)
    (regexps : list (string -> bool)) : bool :=
  existsb (fun p => if exactMatch then bool_decide (line = p) else contains line p) literals ||
  existsb (fun re => re line) regexps.

(** [MatchPatternScanner] on the lines the scanner yields. *)
Definition MatchPatternScanner (exactMatch : bool) (lines : list string)
    (patterns : list string) : bool :=
  match patterns with
  | [] => false
  | _ =>
      let '(literals, regexps) := classify patterns in
      match lines with
      | [] => existsb (fun p => bool_decide (p = "")) literals || existsb (fun re => re "") regexps
      | _ => existsb (fun line => matchLine exactMatch line literals regexps) lines
      end
  end.

(** [MatchPattern]: a scanner with the default 64 KiB token limit. *)
Definition MatchPattern (exactMatch : bool) (content : string) (patterns : list string) : bool :=
  MatchPatternScanner exactMatch (fst (scan_lines (N.to_nat 65536) content)) patterns.

(** ** Lemmas *)

(** One pattern against one line. *)
Definition pattern_matches (exactMatch : bool) (line pattern : string) : Prop :=
  if has_prefix pattern rePrefix then
    exists re, compile (trim_prefix pattern rePrefix) = Some re /\ re line = true
  else if exactMatch then line = pattern else contains line pattern = true.

Lemma classify_acc patterns lits res :
  foldl classify_step (lits, res) patterns =
  (lits ++ fst (classify patterns), res ++ snd (classify patterns)).
Proof.
  unfold classify. revert lits res.
  induction patterns as [|p ps IH]; intros lits res; [by rewrite !app_nil_r|].
  simpl. destruct (has_prefix p rePrefix).
  - destruct (compile _) as [re|]; [|by rewrite IH].
    rewrite IH, (IH [] [re]). simpl. by rewrite <- app_assoc.
  - rewrite IH, (IH [p] []). simpl. by rewrite <- app_assoc.
Qed.

Lemma matchLine_classify exactMatch line patterns :
  matchLine exactMatch line (fst (classify patterns)) (snd (classify patterns)) = true <->
  exists p, p ∈ patterns /\ pattern_matches exactMatch line p.
Proof.
  induction patterns as [|p ps IH].
  { simpl. split; [done|]. intros (p & Hp & _). by apply elem_of_nil in Hp. }
  rewrite exists_elem_of_cons.
  unfold classify. simpl. destruct (has_prefix p rePrefix) eqn:Hp.
  - destruct (compile (trim_prefix p rePrefix)) as [re|] eqn:Hc.
    + rewrite classify_acc. simpl. unfold matchLine in *. simpl.
      rewrite orb_true_iff in IH. rewrite !orb_true_iff.
      assert (pattern_matches exactMatch line p <-> re line = true) as ->.
      { unfold pattern_matches. rewrite Hp. split; [intros (? & ? & ?); congruence | eauto]. }
      naive_solver.
    + fold (classify ps). assert (~ pattern_matches exactMatch line p).
      { unfold pattern_matches. rewrite Hp. intros (? & ? & ?); congruence. }
      naive_solver.
  - rewrite classify_acc. simpl. unfold matchLine in *. simpl.
    rewrite orb_true_iff in IH. rewrite !orb_true_iff.
    assert (pattern_matches exactMatch line p <->
            (if exactMatch then bool_decide (line = p) else contains line p) = true) as ->.
    { unfold pattern_matches. rewrite Hp. destruct exactMatch; [|done].
      by rewrite bool_decide_eq_true. }
    naive_solver.
Qed.

(** A nonempty text matches exactly when one of its lines matches one of the
    patterns. *)
Lemma MatchPatternScanner_spec exactMatch lines patterns :
  lines <> [] ->
  MatchPatternScanner exactMatch lines patterns = true <->
  exists line p, line ∈ lines /\ p ∈ patterns /\ pattern_matches exactMatch line p.
Proof.
  intros Hl. unfold MatchPatternScanner.
  destruct patterns as [|p0 ps].
  { split; [done|]. intros (? & ? & _ & Hp & _). by apply elem_of_nil in Hp. }
  destruct (classify (p0 :: ps)) as [lits res] eqn:E.
  destruct lines as [|l0 ls]; [done|].
  rewrite existsb_exists. setoid_rewrite list_elem_of_In.
  assert (forall line, matchLine exactMatch line lits res = true <->
           exists p, p ∈ p0 :: ps /\ pattern_matches exactMatch line p) as H.
  { intros line. rewrite <- matchLine_classify, E. done. }
  setoid_rewrite H. setoid_rewrite list_elem_of_In. naive_solver.
Qed.

End matcher.
