(* ===== verification/Paths.v ===== *)
(** * File names: path/filepath on Unix and internal/fileutil

    [Clean], [Join], [Base], [Ext], [Dir] of the standard library on slash
    separated byte strings; [SafeName] (name.go) and the YAML
    extension helpers (fileutil.go). *)

From S2P Require Import Prelude GoStrings Utf8 Matcher.
From Stdlib Require Import Ascii.

Definition slash : ascii := "/"%char.

(** ** path/filepath *)

Definition IsAbs (p : string) : bool := has_prefix p "/".

(** The components kept by [Clean], in reverse order. *)
Definition clean_step (rooted : bool) (stack : list bytes) (comp : bytes) : list bytes :=
  if bool_decide (comp = []) || bool_decide (comp = ["."%char]) then stack
  else if bool_decide (comp = ["."%char; "."%char]) then
    match stack with
    | [] => if rooted then [] else [comp]
    | top :: rest => if bool_decide (top = ["."%char; "."%char]) then comp :: stack else rest
    end
  else comp :: stack.

Definition cleanl (l : bytes) : bytes :=
  let rooted := has_prefixl [slash] l in
  let stack := foldl (clean_step rooted) [] (splitl (S (length l)) [slash] l) in
  match rooted, stack with
  | true, _ => slash :: joinl [slash] (reverse stack)
  | false, [] => ["."%char]
  | false, _ => joinl [slash] (reverse stack)
  end.

Definition Clean (p : string) : string := l2s (cleanl (s2l p)).

(** [Join]: empty elements are ignored, the result is cleaned. *)
Definition Join (elems : list string) : string :=
  match filter (fun e => e <> "") elems with
  | [] => ""
  | es => Clean (join es "/")
  end.

(** The text after the last slash, and the text up to and with it. *)
Definition after_slash (l : bytes) : bytes :=
  reverse (fst (foldl (fun '(acc, stop) c =>
     if (stop : bool) then (acc, stop)
     else if bool_decide (c = slash) then (acc, true) else (acc ++ [c], false))
     ([], false) (reverse l))).

Definition upto_slash (l : bytes) : bytes := take (length l - length (after_slash l)) l.

Definition strip_slashes (l : bytes) : bytes :=
  trim_right (fun c => bool_decide (c = slash)) l.

Definition Base (p : string) : string :=
  if bool_decide (p = "") then "."
  else match strip_slashes (s2l p) with
       | [] => "/"
       | l => l2s (after_slash l)
       end.

Definition Dir (p : string) : string := l2s (cleanl (upto_slash (s2l p))).

(** [Ext]: from the last dot of the last element; empty without a dot. *)
Fixpoint last_dot (l : bytes) : option bytes :=
  match l with
  | [] => None
  | c :: l' => match last_dot l' with
               | Some e => Some e
               | None => if bool_decide (c = "."%char) then Some l else None
               end
  end.

Definition Ext (p : string) : string := l2s (default [] (last_dot (after_slash (s2l p)))).

(** ** internal/fileutil/fileutil.go *)

Definition ValidYAMLExtensions : list string := [".yaml"; ".yml"].

Definition IsYAMLFile (filename : string) : bool :=
  if bool_decide (filename = "") then false
  else bool_decide (Ext filename ∈ ValidYAMLExtensions).

Definition IsFileWithExtension (filename : string) (validExtensions : list string) : bool :=
  if bool_decide (filename = "") || bool_decide (validExtensions = []) then false
  else bool_decide (Ext filename ∈ validExtensions).

Definition EnsureYAMLExtension (filename : string) : string :=
  if bool_decide (filename = "") then ""
  else if bool_decide (Ext filename = ".yml") || bool_decide (Ext filename = ".yaml")
       then filename
       else filename +:+ ".yaml".

(** [TruncString], in fileutil.go and stringutil.go: at most [max] bytes. *)
Definition TruncString (val : string) (max : nat) : string :=
  if (max <? String.length val)%nat then l2s (take max (s2l val)) else val.

(** The helpers on the system: [Stat] says whether a path is a directory. *)
Section system.
Context (File : Type) (Stat : string -> result bool) (IsNotExist : error -> bool).
Context (UserHomeDir Getwd : result string) (MkdirTemp : string -> string -> result string).
Context (OpenFile : string -> list string -> Z -> result File) (Create : string -> result File).

(** Their errors are not looked at, and the text is empty then. *)
Definition MustGetUserHomeDir : string := match UserHomeDir with Ok hd => hd | Err _ => "" end.
Definition MustGetwd : string := match Getwd with Ok wd => wd | Err _ => "" end.

Definition IsDir (path : string) : bool := match Stat path with Err _ => false | Ok isDir => isDir end.

(** A path whose status cannot be asked for another reason counts as existing. *)
Definition FileExists (file : string) : bool := match Stat file with Ok _ => true | Err e => negb (IsNotExist e) end.

Definition openFile (file : string) : result File := OpenFile file ["O_APPEND"; "O_WRONLY"] 493.
Definition createFile (file : string) : result File := Create file.

Definition OpenOrCreateFile (file : string) : result File := if FileExists file then openFile file else createFile file.

Definition MustTempDir (pattern : string) : result string :=
  match MkdirTemp "" pattern with Ok t => Ok t | Err e => Err (panic (error_text e)) end.

(** A file that is there is never created anew, which would empty it. *)
Lemma OpenOrCreateFile_keeps file isDir : Stat file = Ok isDir -> OpenOrCreateFile file = openFile file.
Proof. unfold OpenOrCreateFile, FileExists. by intros ->. Qed.
End system.

(** ** internal/fileutil/name.go *)

Definition ord (c : ascii) : Z := byte_z c.

(** The class of [reservedCharRegex]. *)
Definition reserved_char (r : Z) : bool :=
  bool_decide (r ∈ ord <$> ["<"%char; ">"%char; ":"%char; "034"%char; "/"%char; "092"%char;
                            "|"%char; "!"%char; "?"%char; "*"%char; "."%char]) ||
  ((0 <=? r)%Z && (r <=? 31)%Z).

(** [reservedNamesRegex] on an already lower-cased text. *)
Definition reserved_name (rs : list Z) : bool :=
  let named s := bool_decide (rs = ord <$> s2l s) in
  named "con" || named "prn" || named "aux" || named "nul" ||
  match reverse rs with
  | d :: stem => (48 <=? d)%Z && (d <=? 57)%Z &&
                 (bool_decide (reverse stem = ord <$> s2l "com") ||
                  bool_decide (reverse stem = ord <$> s2l "lpt"))
  | [] => false
  end.

Definition MaxSafeNameLength : nat := 100.
Definition underscore : Z := 95.

Section safe_name.
(** The Unicode tables behind [strings.ToLower] and [unicode.IsPrint]. *)
Context (rune_lower : Z -> Z) (is_print : Z -> bool).

Fixpoint drop_leading (x : Z) (l : list Z) : list Z :=
  match l with
  | [] => []
  | r :: l' => if bool_decide (r = x) then drop_leading x l' else l
  end.

(** [strings.TrimRight] with one rune. *)
Definition drop_trailing (x : Z) (l : list Z) : list Z := reverse (drop_leading x (reverse l)).

Definition SafeName_runes (str : list Z) : list Z :=
  let safe := rune_lower <$> str in
  let safe := (fun r => if reserved_char r then underscore else r) <$> safe in
  let safe := if reserved_name safe then underscore :: safe ++ [underscore] else safe in
  let safe := (fun r => if is_print r && negb (r =? 32)%Z then r else underscore) <$> safe in
  let safe := if (MaxSafeNameLength <=? length safe)%nat then take MaxSafeNameLength safe else safe in
  drop_trailing RuneError safe.

Definition SafeName (str : string) : string := encode_runes (SafeName_runes (decode_runes str)).

End safe_name.

(** ** Properties of pattern matching and of safe file names *)

(** ** Patterns *)

(** The lines the scanner reads; an empty text counts as one empty line. *)
Definition scanned (content : string) : list string :=
  match fst (scan_lines (N.to_nat 65536) content) with [] => [""] | ls => ls end.

Lemma contains_empty p : contains "" p = true <-> p = "".
Proof.
  unfold contains. rewrite bool_decide_eq_true. split.
  - intros [[a b] H]. apply cutl_sound in H. simpl in H. destruct a; [|done]. simpl in H.
    apply s2l_inj. by destruct (s2l p).
  - intros ->. by eexists.
Qed.

Section matcher.
Context (compile : string -> option (string -> bool)).

Lemma literal_empty exactMatch p :
  (if exactMatch : bool then bool_decide ("" = p) else contains "" p) = bool_decide (p = "").
Proof.
  destruct exactMatch.
  - apply bool_decide_ext. done.
  - apply eq_true_iff_eq. rewrite contains_empty. by rewrite bool_decide_eq_true.
Qed.

(** On an empty text the scan is the one of an empty line. *)
Lemma MatchPatternScanner_empty exactMatch patterns :
  MatchPatternScanner compile exactMatch [] patterns = MatchPatternScanner compile exactMatch [""] patterns.
Proof.
  unfold MatchPatternScanner. destruct patterns as [|p ps]; [done|].
  destruct (classify compile (p :: ps)) as [lits res]. simpl. rewrite orb_false_r. unfold matchLine. f_equal.
  induction lits as [|l lits IH]; [done|]. simpl. by rewrite literal_empty, IH.
Qed.

End matcher.

(** Output matching decides what it says: [MatchPattern] answers true
    exactly when some line of the text, up to the first line that exceeds the
    64 KiB limit of the scanner, matches some pattern: a pattern with the prefix
    re: that compiles matches as a regular expression, one that does not compile
    matches nothing, and any other is looked for in the line, or must be the
    line for exact matching; an empty text counts as one empty line. *)
Theorem MatchPattern_iff (compile : string -> option (string -> bool)) (exactMatch : bool)
    (content : string) (patterns : list string) :
  MatchPattern compile exactMatch content patterns = true <->
  exists line p, line ∈ scanned content /\ p ∈ patterns /\ pattern_matches compile exactMatch line p.
Proof.
  unfold MatchPattern, scanned. destruct (fst (scan_lines (N.to_nat 65536) content)) as [|l ls].
  - rewrite MatchPatternScanner_empty. by apply MatchPatternScanner_spec.
  - by apply MatchPatternScanner_spec.
Qed.

(** ** Safe names *)

Lemma byte_z_byte z : (0 <= z < 256)%Z -> byte_z (z_byte z) = z.
Proof. intros Hz. unfold byte_z, z_byte. rewrite nat_ascii_embedding by lia. lia. Qed.

(** A byte below 128 in the encoding of a rune is that rune. *)
Lemma encode_rune_small r c : c ∈ encode_rune r -> (byte_z c < 128)%Z -> byte_z c = r.
Proof.
  unfold encode_rune.
  set (r' := (if ((r <? 0) || (1114111 <? r) || ((55296 <=? r) && (r <=? 57343)))%Z then RuneError else r)).
  assert (r' = r /\ 0 <= r <= 1114111 \/ r' = 65533)%Z as Hr.
  { unfold r'. destruct (_ || _) eqn:E; [by right|left]. rewrite !orb_false_iff in E.
    destruct E as [[E1%Z.ltb_ge E2%Z.ltb_ge] _]. lia. }
  assert (forall q, 0 <= q mod 64 < 64)%Z as Hmod by (intros; by apply Z.mod_pos_bound).
  pose proof (Hmod r') as M0. pose proof (Hmod (r' / 64))%Z as M1. pose proof (Hmod (r' / 4096))%Z as M2.
  destruct (r' <? 128)%Z eqn:E1; [apply Z.ltb_lt in E1|apply Z.ltb_ge in E1].
  { intros Hc%list_elem_of_singleton _. subst c. rewrite byte_z_byte by lia. lia. }
  destruct (r' <? 2048)%Z eqn:E2; [apply Z.ltb_lt in E2|apply Z.ltb_ge in E2].
  { pose proof (Z.div_lt_upper_bound r' 64 32). pose proof (Z.div_pos r' 64). rewrite !elem_of_cons, elem_of_nil.
    intros [->|[->|[]]]; rewrite byte_z_byte by lia; lia. }
  destruct (r' <? 65536)%Z eqn:E3; [apply Z.ltb_lt in E3|apply Z.ltb_ge in E3].
  { pose proof (Z.div_lt_upper_bound r' 4096 16). pose proof (Z.div_pos r' 4096).
    rewrite !elem_of_cons, elem_of_nil.
    intros [->|[->|[->|[]]]]; rewrite byte_z_byte by lia; lia. }
  pose proof (Z.div_lt_upper_bound r' 262144 5). pose proof (Z.div_pos r' 262144).
  rewrite !elem_of_cons, elem_of_nil.
  intros [->|[->|[->|[->|[]]]]]; rewrite byte_z_byte by lia; lia.
Qed.

Lemma encode_runes_small rs c : c ∈ s2l (encode_runes rs) -> (byte_z c < 128)%Z -> byte_z c ∈ rs.
Proof.
  unfold encode_runes. rewrite s2l_l2s. intros Hc Hs.
  apply list_elem_of_In, in_concat in Hc as (b & Hb & Hc).
  apply list_elem_of_In, list_elem_of_fmap in Hb as (r & -> & Hr). apply list_elem_of_In in Hc.
  by rewrite (encode_rune_small r c).
Qed.

Lemma drop_leading_suffix x l : exists k, l = k ++ drop_leading x l.
Proof.
  induction l as [|r l [k IH]]; [by exists []|]. simpl. case_bool_decide; [|by exists []].
  exists (r :: k). simpl. by rewrite <- IH.
Qed.

Lemma drop_leading_head x l r k : drop_leading x l = r :: k -> r <> x.
Proof. induction l as [|r' l IH]; simpl; [done|]. case_bool_decide; [done|]. by intros [= <- <-]. Qed.

Lemma drop_trailing_prefix x l : exists k, l = drop_trailing x l ++ k.
Proof.
  destruct (drop_leading_suffix x (reverse l)) as [k Hk]. exists (reverse k). unfold drop_trailing.
  rewrite <- reverse_app, <- Hk. by rewrite reverse_involutive.
Qed.

Lemma drop_trailing_last x l : last (drop_trailing x l) <> Some x.
Proof.
  unfold drop_trailing. rewrite last_reverse. destruct (drop_leading x (reverse l)) as [|r k] eqn:E; [done|].
  apply drop_leading_head in E. simpl. congruence.
Qed.

Section safe_name.
Context (rune_lower : Z -> Z) (is_print : Z -> bool).

(** What a rune of a safe name is. *)
Definition safe_rune (r : Z) : Prop :=
  reserved_char r = false /\ r <> 32%Z /\ (r = underscore \/ is_print r = true).

Lemma reserved_replaced rs :
  Forall (fun r => reserved_char r = false) ((fun r => if reserved_char r then underscore else r) <$> rs).
Proof. apply Forall_fmap, Forall_forall. intros r _. simpl. by destruct (reserved_char r) eqn:E. Qed.

Lemma SafeName_runes_safe rs :
  Forall safe_rune (SafeName_runes rune_lower is_print rs) /\
  length (SafeName_runes rune_lower is_print rs) <= MaxSafeNameLength.
Proof.
  unfold SafeName_runes. set (s1 := _ <$> (rune_lower <$> rs)).
  set (s2 := if reserved_name s1 then _ else s1).
  assert (Forall (fun r => reserved_char r = false) s2) as H2.
  { pose proof (reserved_replaced (rune_lower <$> rs)) as H1. fold s1 in H1. unfold s2.
    destruct (reserved_name s1); [|done]. constructor; [done|]. apply Forall_app. split; [done|by constructor]. }
  set (s3 := _ <$> s2).
  assert (Forall safe_rune s3) as H3.
  { apply Forall_fmap. eapply Forall_impl; [exact H2|]. intros r Hr. simpl.
    destruct (is_print r && negb (r =? 32)%Z) eqn:E.
    - apply andb_true_iff in E as [Hp Hs]. apply negb_true_iff, Z.eqb_neq in Hs. split; [done|]. auto.
    - split; [done|]. split; [done|]. by left. }
  set (s4 := if MaxSafeNameLength <=? length s3 then take MaxSafeNameLength s3 else s3).
  assert (Forall safe_rune s4 /\ length s4 <= MaxSafeNameLength) as [H4 H5].
  { unfold s4. destruct (MaxSafeNameLength <=? length s3) eqn:E.
    - split; [by apply Forall_take|]. rewrite length_take. lia.
    - apply Nat.leb_gt in E. split; [done|lia]. }
  destruct (drop_trailing_prefix RuneError s4) as [k Hk]. split.
  - rewrite Hk in H4. by apply Forall_app in H4 as [? _].
  - rewrite Hk, length_app in H5. lia.
Qed.

End safe_name.

(** C24: a safe name is one path component of bounded length: for every text,
    whatever the Unicode tables say, the name has at most 100 runes and does not
    end in a replacement character, each rune is printable or an underscore, and
    no byte of it is a space or one of the reserved characters, so it has no
    slash and no dot. *)
Theorem SafeName_safe (rune_lower : Z -> Z) (is_print : Z -> bool) (str : string) :
  let rs := SafeName_runes rune_lower is_print (decode_runes str) in
  SafeName rune_lower is_print str = encode_runes rs /\ length rs <= 100 /\
  last rs <> Some RuneError /\ Forall (fun r => r = underscore \/ is_print r = true) rs /\
  (forall c, c ∈ s2l (SafeName rune_lower is_print str) -> c <> " "%char /\ reserved_char (byte_z c) = false) /\
  contains (SafeName rune_lower is_print str) "/" = false /\
  contains (SafeName rune_lower is_print str) "." = false.
Proof.
  intros rs. destruct (SafeName_runes_safe rune_lower is_print (decode_runes str)) as [Hs Hlen].
  fold rs in Hs, Hlen.
  assert (forall c, c ∈ s2l (encode_runes rs) -> c <> " "%char /\ reserved_char (byte_z c) = false) as Hb.
  { intros c Hc. destruct (decide (byte_z c < 128)%Z) as [Hlt|Hge].
    - pose proof (encode_runes_small rs c Hc Hlt) as Hr. rewrite Forall_forall in Hs.
      destruct (Hs _ Hr) as (Hres & Hsp & _). split; [|done]. intros ->. by apply Hsp.
    - split; [intros ->; by apply Hge|]. destruct (reserved_char (byte_z c)) eqn:E; [|done]. exfalso. apply Hge.
      unfold reserved_char in E. apply orb_true_iff in E as [E|E].
      + apply bool_decide_eq_true in E. revert E. generalize (byte_z c). intros z Hz.
        apply list_elem_of_fmap in Hz as (d & -> & Hd). rewrite !elem_of_cons, elem_of_nil in Hd.
        destruct_or! Hd; subst; done.
      + apply andb_true_iff in E as [_ E%Z.leb_le]. lia. }
  split_and!; [done|done|apply drop_trailing_last| |done|..].
  - eapply Forall_impl; [exact Hs|]. by intros r (_ & _ & ?).
  - apply contains_false_cutl. simpl. apply cutl_char. intros Hc. by destruct (Hb _ Hc).
  - apply contains_false_cutl. simpl. apply cutl_char. intros Hc. by destruct (Hb _ Hc).
Qed.

(** ** Properties of cleaned paths *)

Module PathProps.

Definition dot : bytes := ["."%char].
Definition dotdot : bytes := ["."%char; "."%char].

(** A component [Clean] keeps, and one it keeps after the root. *)
Definition part (c : bytes) : Prop := c <> [] /\ c <> dot /\ cutl [slash] c = None.
Definition rooted_part (c : bytes) : Prop := part c /\ c <> dotdot.

Lemma splitl_parts fuel l : length l < fuel -> Forall (fun c => cutl [slash] c = None) (splitl fuel [slash] l).
Proof.
  revert l. induction fuel as [|fuel IH]; intros l Hl; [lia|]. simpl.
  destruct (cutl [slash] l) as [[a b]|] eqn:E; [|by repeat constructor].
  pose proof (cutl_sound _ _ _ _ E) as ->. rewrite !length_app in Hl. simpl in Hl.
  constructor; [|apply IH; lia].
  destruct (cutl [slash] a) as [[a1 a2]|] eqn:Ea; [|done].
  pose proof (cutl_sound _ _ _ _ Ea) as ->.
  destruct (cutl_complete [slash] ((a1 ++ [slash] ++ a2) ++ [slash] ++ b) a1 (a2 ++ [slash] ++ b)) as (a' & b' & E' & Hle).
  { by rewrite <- !app_assoc. }
  rewrite E in E'. simplify_eq. rewrite !length_app in Hle. simpl in Hle. lia.
Qed.

Lemma clean_step_rooted stack c :
  cutl [slash] c = None -> Forall rooted_part stack -> Forall rooted_part (clean_step true stack c).
Proof.
  intros Hc Hs. unfold clean_step. fold dot. fold dotdot.
  destruct (bool_decide (c = []) || bool_decide (c = dot)) eqn:E; [done|].
  apply orb_false_iff in E as [E1%bool_decide_eq_false E2%bool_decide_eq_false].
  case_bool_decide as E3; [|by repeat constructor].
  destruct Hs as [|top rest Ht Hr]; [constructor|]. rewrite bool_decide_false; [done|apply Ht].
Qed.

(** The parts of the path that [Clean] gives for a rooted path. *)
Definition clean_parts (l : bytes) : list bytes :=
  reverse (foldl (clean_step true) [] (splitl (S (length l)) [slash] l)).

Lemma clean_parts_rooted l : Forall rooted_part (clean_parts l).
Proof.
  apply Forall_reverse.
  assert (forall cs stack, Forall (fun c => cutl [slash] c = None) cs -> Forall rooted_part stack ->
    Forall rooted_part (foldl (clean_step true) stack cs)) as H.
  { induction cs as [|c cs IH]; intros stack Hcs Hs; [done|].
    apply Forall_cons_iff in Hcs as [Hc Hcs]. simpl. by apply IH, clean_step_rooted. }
  apply H; [|constructor]. apply splitl_parts. lia.
Qed.

Lemma cleanl_rooted l : has_prefixl [slash] l = true -> cleanl l = slash :: joinl [slash] (clean_parts l).
Proof. intros H. unfold cleanl. rewrite H. done. Qed.

Lemma foldl_parts cs : Forall rooted_part cs -> forall stack, foldl (clean_step true) stack cs = reverse cs ++ stack.
Proof.
  induction 1 as [|c cs [[H1 [H2 H3]] H4] Hcs IH]; intros stack; [done|]. simpl.
  unfold clean_step at 2. fold dot. fold dotdot.
  rewrite !bool_decide_false by done. simpl. rewrite IH, reverse_cons. by rewrite <- app_assoc.
Qed.

(** Cleaning a clean rooted path changes nothing. *)
Lemma cleanl_parts cs : Forall rooted_part cs -> cleanl (slash :: joinl [slash] cs) = slash :: joinl [slash] cs.
Proof.
  intros Hcs. rewrite cleanl_rooted by done. f_equal. unfold clean_parts.
  assert (forall x, splitl (S (length (slash :: x))) [slash] (slash :: x) = [] :: splitl (S (length x)) [slash] x)
    as -> by done.
  cbn [foldl]. change (clean_step true [] []) with ([] : list bytes).
  destruct cs as [|c cs]; [done|].
  rewrite splitl_joinl; [|done|done|done| |by apply length_joinl_count].
  - rewrite foldl_parts by done. by rewrite app_nil_r, reverse_involutive.
  - eapply Forall_impl; [exact Hcs|]. intros x Hx. apply Hx.
Qed.

Lemma IsAbs_s2l p : IsAbs p = true <-> has_prefixl [slash] (s2l p) = true.
Proof. done. Qed.

Lemma Clean_rooted p : IsAbs p = true -> exists cs, Forall rooted_part cs /\ Clean p = l2s (slash :: joinl [slash] cs).
Proof.
  intros H. exists (clean_parts (s2l p)). split; [apply clean_parts_rooted|].
  unfold Clean. by rewrite cleanl_rooted.
Qed.

Lemma Clean_idempotent p : IsAbs p = true -> Clean (Clean p) = Clean p.
Proof.
  intros H. destruct (Clean_rooted p H) as (cs & Hcs & ->). unfold Clean. by rewrite s2l_l2s, cleanl_parts.
Qed.

Lemma Clean_abs p : IsAbs p = true -> IsAbs (Clean p) = true.
Proof.
  intros H. destruct (Clean_rooted p H) as (cs & _ & ->). apply IsAbs_s2l. rewrite s2l_l2s. done.
Qed.

(** A path that does not begin at the root does not when it is cleaned. *)
Lemma clean_step_pieces rooted stack c :
  cutl [slash] c = None -> Forall (fun c => c <> [] /\ cutl [slash] c = None) stack ->
  Forall (fun c => c <> [] /\ cutl [slash] c = None) (clean_step rooted stack c).
Proof.
  intros Hc Hs. unfold clean_step. fold dot. fold dotdot.
  destruct (bool_decide (c = []) || bool_decide (c = dot)) eqn:E; [done|].
  apply orb_false_iff in E as [E1%bool_decide_eq_false E2%bool_decide_eq_false].
  assert (forall st, Forall (fun c => c <> [] /\ cutl [slash] c = None) st ->
    Forall (fun c => c <> [] /\ cutl [slash] c = None) (c :: st)) as Hpush by (by constructor).
  case_bool_decide as E3; [|by apply Hpush].
  destruct Hs as [|top rest Ht Hr]; [destruct rooted; [constructor|by apply Hpush]|].
  case_bool_decide; [by apply Hpush, Forall_cons|done].
Qed.

Lemma cleanl_relative l : has_prefixl [slash] l = false -> exists c rest, cleanl l = c :: rest /\ c <> slash.
Proof.
  intros Hl. unfold cleanl. rewrite Hl.
  assert (forall cs stack, Forall (fun c => cutl [slash] c = None) cs ->
    Forall (fun c => c <> [] /\ cutl [slash] c = None) stack ->
    Forall (fun c => c <> [] /\ cutl [slash] c = None) (foldl (clean_step false) stack cs)) as H.
  { induction cs as [|c cs IH]; intros stack Hcs Hs; [done|].
    apply Forall_cons_iff in Hcs as [Hc Hcs]. simpl. by apply IH, clean_step_pieces. }
  specialize (H (splitl (S (length l)) [slash] l) [] (splitl_parts _ _ (Nat.lt_succ_diag_r _)) (Forall_nil_2 _)).
  destruct (foldl _ [] _) as [|c0 stack]; [by eexists _, _|].
  apply Forall_reverse in H. destruct (reverse (c0 :: stack)) as [|c cs] eqn:Er.
  { apply (f_equal length) in Er. rewrite length_reverse in Er. done. }
  apply Forall_cons_iff in H as [[Hc Hcut] _]. destruct c as [|x c]; [done|].
  exists x. destruct cs as [|c1 cs]; eexists; (split; [reflexivity|]);
    intros ->; apply cutl_char in Hcut; apply Hcut, list_elem_of_here.
Qed.

Lemma Clean_relative p : IsAbs p = false -> IsAbs (Clean p) = false.
Proof.
  intros H. destruct (cleanl_relative (s2l p) H) as (c & rest & E & Hc).
  unfold IsAbs, has_prefix, Clean. rewrite s2l_l2s, E.
  destruct (has_prefixl _ (c :: rest)) eqn:Ep; [|done]. apply has_prefixl_spec in Ep as [k Ek]. by simplify_eq/=.
Qed.

Lemma Clean_nonempty p : Clean p <> "".
Proof.
  intros E. apply (f_equal s2l) in E. unfold Clean in E. rewrite s2l_l2s in E. simpl in E.
  destruct (has_prefixl [slash] (s2l p)) eqn:H; [by rewrite cleanl_rooted in E|].
  destruct (cleanl_relative (s2l p) H) as (c & rest & E' & _). by rewrite E' in E.
Qed.

Lemma IsAbs_app p q : IsAbs p = true -> IsAbs (p +:+ q) = true.
Proof.
  rewrite !IsAbs_s2l, s2l_app, !has_prefixl_spec. intros [k ->]. exists (k ++ s2l q). by rewrite app_assoc.
Qed.

(** A path joined to an absolute directory is absolute. *)
Lemma Join_abs dir name : IsAbs dir = true -> name <> "" -> IsAbs (Join [dir; name]) = true.
Proof.
  intros Hd Hn. unfold Join. assert (dir <> "") as Hd' by (by intros ->).
  rewrite !filter_cons_True, filter_nil by done. apply Clean_abs.
  apply IsAbs_s2l. unfold join. rewrite s2l_l2s. change (s2l <$> [dir; name]) with [s2l dir; s2l name]. cbn [joinl].
  apply has_prefixl_spec. apply IsAbs_s2l, has_prefixl_spec in Hd as [k ->]. eexists. by rewrite <- app_assoc.
Qed.

End PathProps.
