(* ===== verification/Template.v ===== *)
(** * Templates: internal/digraph/template.go

    [RenderTemplate] and the table of the functions a template can call, those of the
    library with the program's own laid over them.  The engine of the templates, the
    library of functions and the shell's quoting and splitting are arguments. *)

From S2P Require Import Prelude GoStrings Digraph Paths.
From Stdlib Require Import Ascii.

Definition CR : string := l2s ["013"%char].
Definition LF : string := l2s ["010"%char].

(** ** The functions *)

(** What a template passes and gets. *)
Inductive value := VText (s : string) | VTexts (l : list string) | VNumber (n : Z) | VDict (m : gmap string any) | VAny (v : any).

Definition func : Type := list value -> result value.

Definition catLines (s : string) : string := replace_all (replace_all s (CR +:+ LF) " ") LF " ".
Definition splitLines (s : string) : list string := split (replace_all s (CR +:+ LF) LF) LF.

(** [filepath.FromSlash] and [ToSlash], where the separator is a slash. *)
Definition fromSlash (path : string) : string := path.
Definition toSlash (path : string) : string := path.

Definition exeExt (GOOS : string) : string := if bool_decide (GOOS = "windows") then ".exe" else "".
Definition joinPath (elem : list string) : string := Join elem.

(** The later maps over the earlier. *)
Definition merge (base : gmap string any) (v : list (gmap string any)) : gmap string any :=
  foldl (fun result m => m ∪ result) base v.

Section funcs.
Context (GOOS GOARCH : string) (NumCPU : Z).
Context (Quote : string -> result string) (Fields : string -> result (list string)).
Context (Rel : string -> string -> result string) (Sdump : value -> string).

(** What the engine says of a call with other arguments than the function's. *)
Context (wrong_args : error).

Definition text1 (f : string -> result value) : func := fun args => match args with [VText s] => f s | _ => Err wrong_args end.
Definition text0 (v : value) : func := fun args => match args with [] => Ok v | _ => Err wrong_args end.

Definition texts_of (args : list value) : option (list string) :=
  mapM (fun v => match v with VText s => Some s | _ => None end) args.
Definition dicts_of (args : list value) : option (list (gmap string any)) :=
  mapM (fun v => match v with VDict m => Some m | _ => None end) args.

Definition result_text (r : result string) : result value := match r with Ok s => Ok (VText s) | Err e => Err e end.

Definition shellQuote : func := text1 (fun s => result_text (Quote s)).

Definition funcs : gmap string func :=
  let funcs := list_to_map [
    ("OS", text0 (VText GOOS)); ("ARCH", text0 (VText GOARCH)); ("numCPU", text0 (VNumber NumCPU));
    ("catLines", text1 (fun s => Ok (VText (catLines s))));
    ("splitLines", text1 (fun s => Ok (VTexts (splitLines s))));
    ("fromSlash", text1 (fun s => Ok (VText (fromSlash s))));
    ("toSlash", text1 (fun s => Ok (VText (toSlash s))));
    ("exeExt", text0 (VText (exeExt GOOS)));
    ("shellQuote", shellQuote);
    ("splitArgs", text1 (fun s => match Fields s with Ok l => Ok (VTexts l) | Err e => Err e end));
    ("joinPath", fun args => match texts_of args with Some l => Ok (VText (joinPath l)) | None => Err wrong_args end);
    ("relPath", fun args => match args with [VText b; VText t] => result_text (Rel b t) | _ => Err wrong_args end);
    ("merge", fun args => match dicts_of args with
                          | Some (base :: v) => Ok (VDict (merge base v))
                          | _ => Err wrong_args
                          end);
    ("spew", fun args => match args with [v] => Ok (VText (Sdump v)) | _ => Err wrong_args end)] in
  <["q" := default shellQuote (funcs !! "shellQuote")]> funcs.

(** The table [init] builds. *)
Definition templateFuncs (sprig : gmap string func) : gmap string func := funcs ∪ sprig.

(** ** Rendering *)

Section render.
Context (parsed : Type) (Parse : gmap string func -> string -> result parsed)
  (Execute : parsed -> gmap string any -> result string) (sprig : gmap string func).

Definition RenderTemplate (tmpl : string) (data : gmap string any) : result string :=
  match Parse (templateFuncs sprig) tmpl with
  | Err e => Err (EWrap "failed to parse template: " e "")
  | Ok p =>
      match Execute p data with
      | Err e => Err (EWrap "failed to execute template: " e "")
      | Ok out => Ok (replace_all out "<no value>" "")
      end
  end.

(** ** Lemmas *)

(** A failure is told with its step, and only then. *)
Lemma RenderTemplate_error tmpl data e : RenderTemplate tmpl data = Err e ->
  (exists e', Parse (templateFuncs sprig) tmpl = Err e' /\ e = EWrap "failed to parse template: " e' "") \/
  (exists p e', Parse (templateFuncs sprig) tmpl = Ok p /\ Execute p data = Err e' /\ e = EWrap "failed to execute template: " e' "").
Proof.
  unfold RenderTemplate. destruct (Parse _ tmpl) as [p|e'] eqn:Hp.
  - destruct (Execute p data) as [out|e'] eqn:He; [done|]. intros [= <-]. right. by exists p, e'.
  - intros [= <-]. left. by exists e'.
Qed.
End render.

(** The program's functions hide those of the library with the same name, and no other. *)
Lemma templateFuncs_own sprig name f : funcs !! name = Some f -> templateFuncs sprig !! name = Some f.
Proof. intros H. by apply lookup_union_Some_l. Qed.

Lemma templateFuncs_library sprig name : funcs !! name = None -> templateFuncs sprig !! name = sprig !! name.
Proof. apply lookup_union_r. Qed.

Lemma shellQuote_alias : funcs !! "q" = funcs !! "shellQuote".
Proof. reflexivity. Qed.
End funcs.

(** The last map that has the key gives its value. *)
Lemma merge_lookup base v k : merge base v !! k = foldl (fun r m => match m !! k with Some x => Some x | None => r end) (base !! k) v.
Proof.
  unfold merge. revert base. induction v as [|m v IH]; intros base; [done|]. simpl. rewrite IH. f_equal.
  rewrite lookup_union. destruct (m !! k), (base !! k); done.
Qed.

(** Lines are cut at the ends of both kinds, and put together with blanks. *)
Example lines_of_both_kinds :
  splitLines ("a" +:+ CR +:+ LF +:+ "b" +:+ LF +:+ "c") = ["a"; "b"; "c"] /\
  catLines ("a" +:+ CR +:+ LF +:+ "b" +:+ LF +:+ "c") = "a b c".
Proof. vm_compute. auto. Qed.

(** The text of a missing value is taken out wherever it stands, in a value too. *)
Example missing_values_removed :
  replace_all "x: <no value>, said <no value>" "<no value>" "" = "x: , said ".
Proof. vm_compute. reflexivity. Qed.
