(* ===== verification/Contexts.v ===== *)
(** * Execution contexts and conditions: context.go, context_step.go, condition.go

    The values a [context.Context] carries for a run (the DAG context) and for a
    step (the step context), how a string is evaluated in them, how output
    variables are loaded into a step context, and the evaluation of
    preconditions.  The process environment, the shell and the order of map
    ranges are arguments. *)

From S2P Require Import Prelude GoStrings Vars Digraph CmdUtil Eval Matcher.

Definition EnvKeyLogPath : string := "DAG_EXECUTION_LOG_PATH".
Definition EnvKeySchedulerLogPath : string := "DAG_SCHEDULER_LOG_PATH".
Definition EnvKeyRequestID : string := "DAG_REQUEST_ID".
Definition EnvKeyDAGName : string := "DAG_NAME".
Definition EnvKeyDAGStepName : string := "DAG_STEP_NAME".
Definition EnvKeyDAGStepLogPath : string := "DAG_STEP_LOG_PATH".

(** ** The DAG context *)

Module Context.

(** A nil pointer or map is [None]. *)
Record t := mk { dag : option DAG.t; envs : option (gmap string string) }.

(** [Context{}]. *)
Definition zero : t := mk None None.

Definition make (d : DAG.t) (requestID logFile : string) : t :=
  mk (Some d)
     (Some (<[EnvKeySchedulerLogPath := logFile]> (<[EnvKeyRequestID := requestID]>
            (<[EnvKeyDAGName := DAG.Name d]> ∅)))).

(** A write to a nil map panics. *)
Definition WithEnv (key value : string) (c : t) : result t :=
  match envs c with
  | None => Err (panic "assignment to entry in nil map")
  | Some m => Ok (mk (dag c) (Some (<[key := value]> m)))
  end.

Definition env_text (e : string * string) : string := fst e +:+ "=" +:+ snd e.

(** [order] is the order of the range over the map. *)
Definition AllEnvs (environ : list string) (order : list (string * string)) (c : t)
    : result (list string) :=
  match dag c with
  | None => Err (panic "nil dag")
  | Some d => Ok (environ ++ DAG.Env d ++ (env_text <$> order))
  end.

(** [ApplyEnvs]: the process environment after the [os.Setenv] calls;
    [setenv] fails on a name the system refuses, and the failure is logged. *)
Definition ApplyEnvs (setenv_ok : string -> bool) (order : list (string * string))
    (environ : gmap string string) : gmap string string :=
  foldl (fun m e => if setenv_ok (fst e) then <[fst e := snd e]> m else m) environ order.

End Context.

(** ** The step context *)

Module StepContext.

Record t := mk {
  base : Context.t;
  outputVariables : SyncMap.t;
  step : Step.t;
  envs : gmap string string
}.

Definition make (base : Context.t) (s : Step.t) : t :=
  mk base SyncMap.empty s {[EnvKeyDAGStepName := Step.Name s]}.

(** One iteration of the range of [LoadOutputVariables]: an existing key is
    kept. *)
Definition load_variable (m : SyncMap.t) (e : string * string) : SyncMap.t :=
  match SyncMap.Load m (fst e) with
  | Some _ => m
  | None => SyncMap.Store m (fst e) (snd e)
  end.

Definition LoadOutputVariables (order : list (string * string)) (c : t) : t :=
  mk (base c) (foldl load_variable (outputVariables c) order) (step c) (envs c).

Definition WithEnv (key value : string) (c : t) : t :=
  mk (base c) (outputVariables c) (step c) (<[key := value]> (envs c)).

Definition AllEnvs (base_envs : list string) (order vorder : list (string * string)) (c : t)
    : list string :=
  base_envs ++ (Context.env_text <$> order) ++ (snd <$> vorder).

End StepContext.

(** A [context.Context]: what [ctxKey] and [stepCtxKey] are bound to. *)
Record ctx := mkCtx { ctx_dag : option Context.t; ctx_step : option StepContext.t }.

Definition NewContext (c : ctx) (d : DAG.t) (requestID logFile : string) : ctx :=
  mkCtx (Some (Context.make d requestID logFile)) (ctx_step c).
Definition GetContext (c : ctx) : Context.t := default Context.zero (ctx_dag c).
Definition WithContext (c : ctx) (dc : Context.t) : ctx := mkCtx (Some dc) (ctx_step c).
Definition IsContext (c : ctx) : bool := bool_decide (is_Some (ctx_dag c)).

Definition NewStepContext (c : ctx) (s : Step.t) : StepContext.t :=
  StepContext.make (GetContext c) s.
Definition WithStepContext (c : ctx) (sc : StepContext.t) : ctx := mkCtx (ctx_dag c) (Some sc).
Definition GetStepContext (c : ctx) : StepContext.t :=
  match ctx_step c with Some sc => sc | None => NewStepContext c Step.empty end.
Definition IsStepContext (c : ctx) : bool := bool_decide (is_Some (ctx_step c)).

Section eval.
(** The process: environment lookup, gojq, command substitution, regexps, the
    shell, and the order of a range over a variable map. *)
Context (lookupEnv : string -> option string).
Context (jq : string -> string -> option string).
Context (runCommand : string -> result string).
Context (compile : string -> option (string -> bool)).
Context (order : SyncMap.t -> list (string * string)).

Abbreviation opts := (list (EvalOptions -> EvalOptions)).

Definition ctx_EvalString (c : Context.t) (s : string) (o : opts) : result string :=
  EvalString lookupEnv jq runCommand s (o ++ [WithVariables (default ∅ (Context.envs c))]).

(** The step's variables, then the output variables. *)
Definition step_vars (c : StepContext.t) : opts :=
  [WithVariables (StepContext.envs c);
   WithVariables (fst (SyncMap.Variables (order (StepContext.outputVariables c))
                                         (StepContext.outputVariables c)))].

Definition step_EvalString (c : StepContext.t) (s : string) (o : opts) : result string :=
  EvalString lookupEnv jq runCommand s (o ++ step_vars c).

(** [EvalBool] on a string or a boolean; any other type is an error. *)
Definition EvalBool (parseBool : string -> result bool) (c : StepContext.t) (value : any)
    : result bool :=
  match value with
  | VStr v => match step_EvalString c v [] with Err e => Err e | Ok s => parseBool s end
  | VBool b => Ok b
  | _ => Err (ENew "unsupported type for bool")
  end.

(** ** Conditions (condition.go) *)

Definition ErrConditionNotMet : error := ENew "condition was not met".

(** [shell] is what [GetShellCommand] returns; [exec] runs a command line
    directly, [exec_shell] through a shell: the error, if any. *)
Context (shell : string).
Context (exec : string -> option error).
Context (exec_shell : string -> string -> option error).

(** The string evaluation a context offers, for the two kinds of condition. *)
Definition cond_command_eval (c : ctx) (s : string) : result string :=
  if IsStepContext c then step_EvalString (GetStepContext c) s [OnlyReplaceVars]
  else if IsContext c then ctx_EvalString (GetContext c) s [OnlyReplaceVars]
  else EvalString lookupEnv jq runCommand s [OnlyReplaceVars].

Definition cond_value_eval (c : ctx) (s : string) : result string :=
  if IsStepContext c then step_EvalString (GetStepContext c) s []
  else ctx_EvalString (GetContext c) s [].

Definition evalCommand (c : ctx) (cond : Condition.t) : result bool :=
  match cond_command_eval c (Condition.Command cond) with
  | Err e => Err e
  | Ok commandToRun =>
      match (if bool_decide (shell = "") then exec commandToRun
             else exec_shell shell commandToRun) with
      | Some e => Err (EWrap "" ErrConditionNotMet (": " +:+ error_text e))
      | None => Ok true
      end
  end.

Definition condition_text (cond : Condition.t) : string :=
  ": Condition=" +:+ Condition.Condition cond +:+ " Expected=" +:+ Condition.Expected cond.

Definition evalCondition_value (c : ctx) (cond : Condition.t) : result bool :=
  match cond_value_eval c (Condition.Condition cond) with
  | Err e => Err e
  | Ok v =>
      if MatchPattern compile true v [Condition.Expected cond] then Ok true
      else Err (EWrap "" ErrConditionNotMet (condition_text cond))
  end.

Definition cond_eval (c : ctx) (cond : Condition.t) : result bool :=
  if bool_decide (Condition.Condition cond <> "") then evalCondition_value c cond
  else if bool_decide (Condition.Command cond <> "") then evalCommand c cond
  else Err (ENew ("invalid condition: Condition=" +:+ Condition.Condition cond)).

(** [evalCondition]: [None] when the condition is met. *)
Definition evalCondition (c : ctx) (cond : Condition.t) : option error :=
  match cond_eval c cond with
  | Err e =>
      if errors_is e ErrConditionNotMet then Some e
      else Some (ENew ("failed to evaluate condition: Condition=" +:+ Condition.Condition cond
                       +:+ " Error=" +:+ error_text e))
  | Ok false => Some (EWrap "" ErrConditionNotMet (condition_text cond))
  | Ok true => None
  end.

Fixpoint EvalConditions (c : ctx) (conds : list Condition.t) : option error :=
  match conds with
  | [] => None
  | cond :: rest =>
      match evalCondition c cond with
      | Some e => Some e
      | None => EvalConditions c rest
      end
  end.

(** ** Lemmas *)

Lemma EvalConditions_none c conds :
  EvalConditions c conds = None <-> Forall (fun cond => evalCondition c cond = None) conds.
Proof.
  induction conds as [|cond conds IH]; simpl; [by split|].
  rewrite Forall_cons_iff. destruct (evalCondition c cond); [naive_solver|]. rewrite IH. naive_solver.
Qed.

(** The reported error is the one of the first condition that is not met. *)
Lemma EvalConditions_some c conds e :
  EvalConditions c conds = Some e <->
  exists l1 cond l2, conds = l1 ++ cond :: l2 /\ evalCondition c cond = Some e /\
    Forall (fun cond => evalCondition c cond = None) l1.
Proof.
  induction conds as [|cond conds IH]; simpl.
  - split; [done|]. by intros ([|? ?] & ? & ? & ? & _).
  - destruct (evalCondition c cond) eqn:Hc.
    + split.
      * intros [= <-]. by exists [], cond, conds.
      * intros ([|x l1] & y & l2 & [= -> ->] & Hy & Hl); [congruence|].
        apply Forall_cons_iff in Hl as [? _]. congruence.
    + rewrite IH. split.
      * intros (l1 & y & l2 & -> & Hy & Hl). exists (cond :: l1), y, l2. split_and!; [done..|by constructor].
      * intros ([|x l1] & y & l2 & [= -> ->] & Hy & Hl); [congruence|].
        apply Forall_cons_iff in Hl as [_ ?]. by exists l1, y, l2.
Qed.

(** A failing condition that does not report [ErrConditionNotMet] could not be
    evaluated at all. *)
Lemma evalCondition_met c cond :
  evalCondition c cond = None <-> cond_eval c cond = Ok true.
Proof. unfold evalCondition. destruct (cond_eval c cond) as [[]|e]; [done..|]. by case_match. Qed.

End eval.

Lemma load_variables_entries l m :
  NoDup l.*1 ->
  SyncMap.entries (foldl StepContext.load_variable m l) = SyncMap.entries m ∪ list_to_map l.
Proof.
  revert m. induction l as [|[k v] l IH]; intros m Hl; simpl; [by rewrite (right_id ∅ (∪))|].
  apply NoDup_cons in Hl as [Hk Hl]. rewrite IH by done.
  unfold StepContext.load_variable. simpl. unfold SyncMap.Load.
  apply map_eq. intros i. rewrite !lookup_union.
  destruct (decide (i = k)) as [->|Hi].
  - rewrite lookup_insert_eq.
    destruct (SyncMap.entries m !! k) eqn:E; simpl; [rewrite E|rewrite lookup_insert_eq];
      by destruct (list_to_map l !! k).
  - rewrite lookup_insert_ne by done.
    destruct (SyncMap.entries m !! k); simpl; [done|]. by rewrite lookup_insert_ne by done.
Qed.

(** Loading is a left-biased union of the bindings, whatever the range order. *)
Lemma LoadOutputVariables_entries c m l :
  SyncMap.range_order m l ->
  SyncMap.entries (StepContext.outputVariables (StepContext.LoadOutputVariables l c)) =
  SyncMap.entries (StepContext.outputVariables c) ∪ SyncMap.entries m.
Proof.
  intros Hl. simpl. assert (NoDup l.*1) as Hnd by (rewrite Hl; apply NoDup_fst_map_to_list).
  rewrite load_variables_entries by done. f_equal.
  rewrite <- (list_to_map_to_list (SyncMap.entries m)).
  by apply list_to_map_proper.
Qed.
