(* ===== verification/Node.v ===== *)
(** * Nodes: internal/digraph/scheduler/node.go

    A node wraps the data of a step with its executor, its output files and
    its retry policy.  The operations are functions of the node; what the
    operating system and the executors do is an argument: opening and flushing
    files, the executor factory, the evaluation of strings by the step
    context, the clock. *)

From S2P Require Import Prelude GoStrings Utf8 Vars Digraph NodeData CmdUtil Matcher Paths.
From Stdlib Require Import Ascii.

Definition SystemVariablePrefix : string := "DAGU_".

(** ** Output files (OutputCoordinator) *)

Module OutputCoordinator.

(** Open files by path; a writer exists exactly when its file does. *)
Record t := mk {
  logFilename : string;
  logFile : option string;
  stdoutFile : option string;
  stderrFile : option string;
  outputReader : bool
}.

Definition empty : t := mk "" None None None false.

Definition LogFile (oc : t) : string := logFilename oc.

Section ops.
(** [fileutil.OpenOrCreateFile]: the error, if any. *)
Context (openOrCreate : string -> option error).

Definition setupLog (oc : t) (data : NodeData) : t * option error :=
  let log := NodeState.Log (nd_State data) in
  match openOrCreate log with
  | Some e => (mk (logFilename oc) None (stdoutFile oc) (stderrFile oc) (outputReader oc),
               Some (EWrap "failed to open log file: " e ""))
  | None => (mk log (Some log) (stdoutFile oc) (stderrFile oc) (outputReader oc), None)
  end.

(** [setupFile]: a relative path is taken from the step's directory. *)
Definition setupFile (filePath : string) (data : NodeData) : result string :=
  let absFilePath := if IsAbs filePath then filePath
                     else Clean (Join [Step.Dir (nd_Step data); filePath]) in
  match openOrCreate absFilePath with
  | Some e => Err (EWrap ("failed to open file " +:+ absFilePath +:+ ": ") e "")
  | None => Ok absFilePath
  end.

Definition setupStdout (oc : t) (data : NodeData) : t * option error :=
  if bool_decide (Step.Stdout (nd_Step data) = "") then (oc, None)
  else match setupFile (Step.Stdout (nd_Step data)) data with
       | Err e => (oc, Some (EWrap "failed to setup stdout file: " e ""))
       | Ok f => (mk (logFilename oc) (logFile oc) (Some f) (stderrFile oc) (outputReader oc), None)
       end.

Definition setupStderr (oc : t) (data : NodeData) : t * option error :=
  if bool_decide (Step.Stderr (nd_Step data) = "") then (oc, None)
  else match setupFile (Step.Stderr (nd_Step data)) data with
       | Err e => (oc, Some (EWrap "failed to setup stderr file: " e ""))
       | Ok f => (mk (logFilename oc) (logFile oc) (stdoutFile oc) (Some f) (outputReader oc), None)
       end.

Definition setup (oc : t) (data : NodeData) : t * option error :=
  match setupLog oc data with
  | (oc, Some e) => (oc, Some e)
  | (oc, None) =>
      match setupStdout oc data with
      | (oc, Some e) => (oc, Some e)
      | (oc, None) => setupStderr oc data
      end
  end.

(** Where a command's output goes. *)
Inductive sink := ToLog | ToStdout | ToStderr | ToPipe.

(** [setupExecutorIO]: the writers given to [SetStdout] and to the last call
    of [SetStderr]; [pipeErr] is the error of [os.Pipe]. *)
Definition setupExecutorIO (pipeErr : option error) (oc : t) (data : NodeData)
    : t * result (list sink * list sink) :=
  let stdout := match logFile oc with Some _ => [ToLog] | None => [] end in
  let stdout := match stdoutFile oc with Some _ => [ToLog; ToStdout] | None => stdout end in
  if bool_decide (Step.Output (nd_Step data) <> "") then
    match pipeErr with
    | Some e => (oc, Err (EWrap "failed to create pipe: " e ""))
    | None =>
        let stdout := stdout ++ [ToPipe] in
        (mk (logFilename oc) (logFile oc) (stdoutFile oc) (stderrFile oc) true,
         Ok (stdout, match stderrFile oc with Some _ => [ToStderr] | None => stdout end))
    end
  else (oc, Ok (stdout, match stderrFile oc with Some _ => [ToStderr] | None => stdout end)).

(** [closeResources]: every writer is flushed, then every file synced and
    closed; the last error wins. [flush] and [sync] report errors by path. *)
Definition closeResources (flush sync : string -> option error) (oc : t) : option error :=
  let last (f : string -> option error) (acc : option error) (o : option string) :=
    match o with
    | None => acc
    | Some p => match f p with Some e => Some e | None => acc end
    end in
  let files := [logFile oc; stdoutFile oc; stderrFile oc] in
  foldl (last sync) (foldl (last flush) None files) files.

(** [capturedOutput]: [pipe] is what was written to the pipe, or the error of
    reading it. *)
Definition capturedOutput (pipe : result string) (oc : t) : result string :=
  if outputReader oc then
    match pipe with
    | Err e => Err (EWrap "io: failed to read output: " e "")
    | Ok s => Ok (TrimSpace s)
    end
  else Ok "".

End ops.

End OutputCoordinator.

(** ** Nodes *)

Record NodeRetryPolicy := mkRetry { rp_Limit : Z; rp_Interval : Z }.

(** What [executor.NewExecutor] returns: the error of [Run], the exit code when
    the executor implements [ExitCoder], the text written to the pipe. *)
Record Executor := mkExecutor {
  ex_Run : option error;
  ex_ExitCode : option Z;
  ex_Pipe : result string
}.

Record Node := mkNode {
  n_data : NodeData;
  n_outputs : OutputCoordinator.t;
  n_id : Z;
  n_cmd : option Executor;
  n_cancelFunc : bool;
  n_done : bool;
  n_retryPolicy : NodeRetryPolicy;
  n_cmdEvaluated : bool
}.

Definition NewNode (step : Step.t) (state : NodeState.t) : Node :=
  mkNode (mkNodeData step state) OutputCoordinator.empty 0 None false false (mkRetry 0 0) false.
Definition NodeWithData (data : NodeData) : Node := NewNode (nd_Step data) (nd_State data).

Definition set_n_data (n : Node) (v : NodeData) : Node :=
    mkNode v (n_outputs n) (n_id n) (n_cmd n) (n_cancelFunc n) (n_done n) (n_retryPolicy n)
    (n_cmdEvaluated n).
Definition set_n_outputs (n : Node) (v : OutputCoordinator.t) : Node :=
    mkNode (n_data n) v (n_id n) (n_cmd n) (n_cancelFunc n) (n_done n) (n_retryPolicy n)
    (n_cmdEvaluated n).
Definition set_n_id (n : Node) (v : Z) : Node :=
    mkNode (n_data n) (n_outputs n) v (n_cmd n) (n_cancelFunc n) (n_done n) (n_retryPolicy n)
    (n_cmdEvaluated n).
Definition set_n_cmd (n : Node) (v : option Executor) : Node :=
    mkNode (n_data n) (n_outputs n) (n_id n) v (n_cancelFunc n) (n_done n) (n_retryPolicy n)
    (n_cmdEvaluated n).
Definition set_n_cancelFunc (n : Node) (v : bool) : Node :=
    mkNode (n_data n) (n_outputs n) (n_id n) (n_cmd n) v (n_done n) (n_retryPolicy n)
    (n_cmdEvaluated n).
Definition set_n_done (n : Node) (v : bool) : Node :=
    mkNode (n_data n) (n_outputs n) (n_id n) (n_cmd n) (n_cancelFunc n) v (n_retryPolicy n)
    (n_cmdEvaluated n).
Definition set_n_retryPolicy (n : Node) (v : NodeRetryPolicy) : Node :=
    mkNode (n_data n) (n_outputs n) (n_id n) (n_cmd n) (n_cancelFunc n) (n_done n) v
    (n_cmdEvaluated n).
Definition set_n_cmdEvaluated (n : Node) (v : bool) : Node :=
    mkNode (n_data n) (n_outputs n) (n_id n) (n_cmd n) (n_cancelFunc n) (n_done n)
    (n_retryPolicy n) v.

Definition on_data (f : NodeData -> NodeData) (n : Node) : Node := set_n_data n (f (n_data n)).

Definition node_Status (n : Node) : NodeStatus := SafeData.Status (n_data n).
Definition node_SetStatus (s : NodeStatus) (n : Node) : Node :=
  on_data (fun d => SafeData.SetStatus d s) n.
Definition node_Name (n : Node) : string := SafeData.Name (n_data n).

(** [Init]: an identifier is given once; [next] is the global counter. *)
Definition Init (next : Z) (n : Node) : Z * Node :=
  if bool_decide (n_id n <> 0%Z) then (next, n) else ((next + 1)%Z, set_n_id n next).

(** ** [LogContainsPattern] and [shouldContinue] *)

(** The result of opening the log file. *)
Inductive log_file :=
| LogMissing
| LogOpenError (e : error)
| LogContent (content : string).

Section continue.
Context (compile : string -> option (string -> bool)).
Context (open_log : string -> log_file).
Context (scan_error : error).

(** 1 MiB, the buffer given to the scanner. *)
Definition max_line : nat := N.to_nat 1048576.

Definition LogContainsPattern (n : Node) (patterns : list string) : result bool :=
  match patterns with
  | [] => Ok false
  | _ =>
      let logFilename := OutputCoordinator.LogFile (n_outputs n) in
      if bool_decide (logFilename = "") then Ok false
      else match open_log logFilename with
           | LogMissing => Ok false
           | LogOpenError e => Err (EWrap "failed to open log file: " e "")
           | LogContent content =>
               let '(lines, err) := scan_lines max_line content in
               if MatchPatternScanner compile false lines patterns then Ok true
               else if (err : bool) then Err (EWrap "failed to read log file: " scan_error "")
               else Ok false
           end
  end.

Definition cacheKey (n : Node) : string := SystemVariablePrefix +:+ "CONTINUE_ON." +:+ node_Name n.

(** The part of [shouldContinue] after the status switch: the cached answer,
    the exit code, the output patterns. *)
Definition continue_by_match (n : Node) : bool * Node :=
  let key := cacheKey n in
  let continueOn := SafeData.ContinueOn (n_data n) in
  let remember b := on_data (fun d => SafeData.setBoolVariable d key b) n in
  match SafeData.getBoolVariable (n_data n) key with
  | Some v => (v, n)
  | None =>
      if SafeData.MatchExitCode (n_data n) (ContinueOn.ExitCode continueOn) then
        (true, remember true)
      else
        match ContinueOn.Output continueOn with
        | [] => (false, remember false)
        | _ =>
            match LogContainsPattern n (ContinueOn.Output continueOn) with
            | Err _ => (false, n)
            | Ok true => (true, remember true)
            | Ok false => (false, remember false)
            end
        end
  end.

Definition shouldContinue (n : Node) : bool * Node :=
  let continueOn := SafeData.ContinueOn (n_data n) in
  match node_Status n with
  | NodeStatusSuccess => (true, n)
  | NodeStatusError => if ContinueOn.Failure continueOn then (true, n) else continue_by_match n
  | NodeStatusCancel => (false, n)
  | NodeStatusSkipped => if ContinueOn.Skipped continueOn then (true, n) else continue_by_match n
  | NodeStatusNone => (false, n)
  | NodeStatusRunning => (false, n)
  end.

Definition shouldMarkSuccess (n : Node) : bool * Node :=
  match shouldContinue n with
  | (false, n) => (false, n)
  | (true, n) => (ContinueOn.MarkSuccess (SafeData.ContinueOn (n_data n)), n)
  end.

End continue.

(** ** Execution *)

Section execute.
Context (eval : string -> result string).
(** The executor factory, the shell for an empty command, [os.Pipe]. *)
Context (newExecutor : Step.t -> result Executor).
Context (getShell : string -> string).
Context (pipeErr : option error).

(** Evaluate the elements of a slice in place, up to the first error. *)
Fixpoint eval_in_place (args : list string) : list string * option error :=
  match args with
  | [] => ([], None)
  | a :: rest =>
      match eval a with
      | Err e => (args, Some e)
      | Ok v => let '(r, e) := eval_in_place rest in (v :: r, e)
      end
  end.

(** [evaluateCommandArgs].  On an error the step is not written back; only the
    last case writes through the slice the node shares. *)
Definition evaluateCommandArgs (n : Node) : Node * option error :=
  if n_cmdEvaluated n then (n, None)
  else
    let step := SafeData.GetStep (n_data n) in
    let finish step :=
      (set_n_cmdEvaluated (on_data (fun d => SafeData.SetStep d step) n) true, None) in
    if bool_decide (Step.CmdArgsSys step <> "") then
      let '(cmd, args) := SplitCommandArgs (Step.CmdArgsSys step) in
      match mapE eval args with
      | Err e => (n, Some (EWrap "failed to eval command with args: " e ""))
      | Ok args =>
          let step := Step.set_Args (Step.set_Command step cmd) args in
          finish (if ExecutorConfig.IsCommand (Step.ExecutorConfig step)
                  then Step.set_ShellCmdArgs step (BuildCommandEscapedString cmd args)
                  else step)
      end
    else if bool_decide (Step.CmdWithArgs step <> "") then
      match eval (Step.CmdWithArgs step) with
      | Err e => (n, Some e)
      | Ok cmdWithArgs =>
          let step := if ExecutorConfig.IsCommand (Step.ExecutorConfig step)
                      then Step.set_ShellCmdArgs step cmdWithArgs else step in
          match SplitCommand cmdWithArgs with
          | Err e => (n, Some (EWrap "failed to split command with args: " e ""))
          | Ok (cmd, args) => finish (Step.set_Args (Step.set_Command step cmd) args)
          end
      end
    else if bool_decide (Step.Command step = "") then
      finish (Step.set_Command step (getShell (Step.Shell step)))
    else if bool_decide (Step.Args step = []) then
      match SplitCommand (Step.Command step) with
      | Err e => (n, Some (EWrap "failed to split command: " e ""))
      | Ok (cmd, args) =>
          match mapE eval args with
          | Err e => (n, Some (EWrap "failed to eval command args: " e ""))
          | Ok args =>
              let step := Step.set_CmdWithArgs step (Step.Command step) in
              finish (Step.set_Args (Step.set_Command step cmd) args)
          end
      end
    else
      match eval (Step.Command step) with
      | Err e => (n, Some (EWrap "failed to eval command: " e ""))
      | Ok c =>
          let step := Step.set_Command step c in
          match eval_in_place (Step.Args step) with
          | (args, Some e) =>
              (on_data (fun d => SafeData.SetArgs d args) n,
               Some (EWrap "failed to eval command args: " e ""))
          | (args, None) => finish (Step.set_Args step args)
          end
      end.

(** [setupExecutor]. *)
Definition setupExecutor (n : Node) : Node * result Executor :=
  let n := set_n_cancelFunc n true in
  let n := on_data (fun d => SafeData.ClearVariable d (cacheKey n)) n in
  let n := on_data SafeData.ResetError n in
  let n := set_n_done n false in
  match evaluateCommandArgs n with
  | (n, Some e) => (n, Err e)
  | (n, None) =>
      match newExecutor (SafeData.GetStep (n_data n)) with
      | Err e => (n, Err e)
      | Ok cmd =>
          let n := set_n_cmd n (Some cmd) in
          match OutputCoordinator.setupExecutorIO pipeErr (n_outputs n) (n_data n) with
          | (oc, Err e) => (set_n_outputs n oc, Err (EWrap "failed to setup executor IO: " e ""))
          | (oc, Ok _) => (set_n_outputs n oc, Ok cmd)
          end
      end
  end.

(** The part of [Execute] after [setupExecutor]: the command runs, its error
    and exit code are recorded, its output variable captured; the result is the
    error recorded in the node's state. *)
Definition finishExecute (cmd : Executor) (n : Node) : Node * option error :=
  let '(n, exitCode) :=
    match ex_Run cmd with
    | Some err => (on_data (fun d => SafeData.SetError d (Some err)) n, default 1%Z (ex_ExitCode cmd))
    | None => (n, 0%Z)
    end in
  let n := on_data (fun d => SafeData.SetExitCode d exitCode) n in
  let output := Step.Output (SafeData.GetStep (n_data n)) in
  if bool_decide (output <> "") then
    match OutputCoordinator.capturedOutput (ex_Pipe cmd) (n_outputs n) with
    | Err e => (n, Some (EWrap "failed to capture output: " e ""))
    | Ok value =>
        let n := on_data (fun d => SafeData.setVariable d output value) n in
        (n, SafeData.Error (n_data n))
    end
  else (n, SafeData.Error (n_data n)).

(** [Execute]: the executor is built, then run. *)
Definition Execute (n : Node) : Node * option error :=
  match setupExecutor n with
  | (n, Err e) => (n, Some e)
  | (n, Ok cmd) => finishExecute cmd n
  end.

End execute.

(** ** Signals *)

(** [Signal]: the signal sent to the command, if any, and the node.
    [signalNum] is [unix.SignalNum]. *)
Definition Signal (signalNum : string -> Z) (sig : Z) (allowOverride : bool) (n : Node)
    : option Z * Node :=
  let status := node_Status n in
  let sent :=
    match n_cmd n with
    | Some _ =>
        if bool_decide (status = NodeStatusRunning) then
          Some (if allowOverride && bool_decide (SafeData.SignalOnStop (n_data n) <> "")
                then signalNum (SafeData.SignalOnStop (n_data n)) else sig)
        else None
    | None => None
    end in
  (sent, if bool_decide (status = NodeStatusRunning) then node_SetStatus NodeStatusCancel n else n).

(** [Cancel]: whether the context of a started command is cancelled. *)
Definition Cancel (n : Node) : bool * Node :=
  (n_cancelFunc n,
   if bool_decide (node_Status n = NodeStatusRunning) then node_SetStatus NodeStatusCancel n else n).

(** ** Setup and teardown *)

Section setup.
Context (eval : string -> result string).
Context (evalInt : string -> result Z).
Context (openOrCreate : string -> option error) (mkdirAll : string -> option error).
Context (fileExists : string -> bool).
Context (rune_lower : Z -> Z) (is_print : Z -> bool).
(** [Time.Format] with the log file layout. *)
Context (fmt_time : Z -> string).

(** [setupRetryPolicy]: a string field, when present, overrides the number. *)
Definition setupRetryPolicy (n : Node) : Node * option error :=
  let rp := Step.RetryPolicy (SafeData.GetStep (n_data n)) in
  let limit := if (0 <? RetryPolicy.Limit rp)%Z then RetryPolicy.Limit rp else 0%Z in
  let interval := if (0 <? RetryPolicy.Interval rp)%Z then RetryPolicy.Interval rp else 0%Z in
  let limit' :=
    if bool_decide (RetryPolicy.LimitStr rp <> "") then
      match evalInt (RetryPolicy.LimitStr rp) with
      | Err e => Err (EWrap ("failed to substitute retry limit " +:+ RetryPolicy.LimitStr rp +:+ ": ") e "")
      | Ok v => Ok v
      end
    else Ok limit in
  match limit' with
  | Err e => (n, Some e)
  | Ok limit =>
      let interval' :=
        if bool_decide (RetryPolicy.IntervalSecStr rp <> "") then
          match evalInt (RetryPolicy.IntervalSecStr rp) with
          | Err e => Err (EWrap ("failed to substitute retry interval " +:+
                                 RetryPolicy.IntervalSecStr rp +:+ ": ") e "")
          | Ok v => Ok (seconds v)
          end
        else Ok interval in
      match interval' with
      | Err e => (n, Some e)
      | Ok interval => (set_n_retryPolicy n (mkRetry limit interval), None)
      end
  end.

Definition log_filename (n : Node) (startedAt : Z) (requestID : string) : string :=
  SafeName rune_lower is_print (node_Name n) +:+ "." +:+ fmt_time startedAt +:+ "." +:+
  TruncString requestID 8 +:+ ".log".

(** [Node.Setup]. *)
Definition Setup (logDir requestID : string) (startedAt : Z) (n : Node) : Node * option error :=
  let logFilename := log_filename n startedAt requestID in
  match (if fileExists logDir then None else mkdirAll logDir) with
  | Some e => (n, Some (EWrap ("failed to create log directory " +:+ logDir +:+ ": ") e ""))
  | None =>
      let logFile := Join [logDir; logFilename] in
      match SafeData.Setup eval logFile startedAt (n_data n) with
      | (d, Some e) => (set_n_data n d, Some (EWrap "failed to setup node data: " e ""))
      | (d, None) =>
          let n := set_n_data n d in
          match OutputCoordinator.setup openOrCreate (n_outputs n) (n_data n) with
          | (oc, Some e) => (set_n_outputs n oc, Some (EWrap "failed to setup outputs: " e ""))
          | (oc, None) =>
              let n := set_n_outputs n oc in
              match setupRetryPolicy n with
              | (n, Some e) => (n, Some (EWrap "failed to setup retry policy: " e ""))
              | (n, None) => (n, None)
              end
          end
      end
  end.

End setup.

(** [Teardown]: once per execution, guarded by [done]. *)
Definition Teardown (flush sync : string -> option error) (n : Node) : Node * option error :=
  if n_done n then (n, None)
  else
    let n := set_n_done n true in
    match OutputCoordinator.closeResources flush sync (n_outputs n) with
    | Some e => (on_data (fun d => SafeData.SetError d (Some e)) n, Some e)
    | None => (n, None)
    end.

(** ** What the operations of a node leave alone

    Only the explicit status writes of the scheduler change a node's status;
    setup, execution and teardown never do, and no operation changes what the
    workflow declares about the step. *)

(** The declared part of a node the scheduler consults. *)
Record same_decl (n n' : Node) : Prop := mk_same_decl {
  sd_id : n_id n' = n_id n;
  sd_name : node_Name n' = node_Name n;
  sd_depends : Step.Depends (nd_Step (n_data n')) = Step.Depends (nd_Step (n_data n));
  sd_repeat : Step.RepeatPolicy (nd_Step (n_data n')) = Step.RepeatPolicy (nd_Step (n_data n));
  sd_continue : Step.ContinueOn (nd_Step (n_data n')) = Step.ContinueOn (nd_Step (n_data n))
}.

#[export] Instance same_decl_preorder : PreOrder same_decl.
Proof.
  split; [done|]. intros n1 n2 n3 [] []. split; congruence.
Qed.

(** Status and declaration unchanged. *)
Definition keeps (n n' : Node) : Prop := node_Status n' = node_Status n /\ same_decl n n'.

#[export] Instance keeps_preorder : PreOrder keeps.
Proof.
  split; [done|]. intros n1 n2 n3 [? ?] [? ?]. split; [congruence|by etrans].
Qed.

Lemma same_decl_on_state f n : same_decl n (on_data (SafeData.on_state f) n).
Proof. done. Qed.

Lemma keeps_on_step f n :
  (forall s, Step.Name (f s) = Step.Name s /\ Step.Depends (f s) = Step.Depends s /\
             Step.RepeatPolicy (f s) = Step.RepeatPolicy s /\
             Step.ContinueOn (f s) = Step.ContinueOn s) ->
  keeps n (on_data (SafeData.on_step f) n).
Proof. intros Hf. destruct (Hf (nd_Step (n_data n))) as (? & ? & ? & ?). done. Qed.

Lemma keeps_ClearVariable n k : keeps n (on_data (fun d => SafeData.ClearVariable d k) n).
Proof.
  unfold SafeData.ClearVariable, on_data. split; simpl;
    destruct (Step.OutputVariables (nd_Step (n_data n))) eqn:E; done.
Qed.

Section continue.
Context (compile : string -> option (string -> bool)) (open_log : string -> log_file)
  (scan_error : error).

Lemma keeps_continue_by_match n : keeps n (snd (continue_by_match compile open_log scan_error n)).
Proof. unfold continue_by_match. repeat case_match; done. Qed.

Lemma keeps_shouldContinue n : keeps n (snd (shouldContinue compile open_log scan_error n)).
Proof.
  unfold shouldContinue. repeat case_match; try done; apply keeps_continue_by_match.
Qed.

Lemma keeps_shouldMarkSuccess n : keeps n (snd (shouldMarkSuccess compile open_log scan_error n)).
Proof.
  unfold shouldMarkSuccess. pose proof (keeps_shouldContinue n) as Hk.
  by destruct (shouldContinue compile open_log scan_error n) as [[] n'].
Qed.

(** Marking success needs the policy. *)
Lemma shouldMarkSuccess_true n n' :
  shouldMarkSuccess compile open_log scan_error n = (true, n') ->
  ContinueOn.MarkSuccess (Step.ContinueOn (nd_Step (n_data n))) = true.
Proof.
  unfold shouldMarkSuccess. pose proof (keeps_shouldContinue n) as [_ [? ? ? ? Hc]].
  destruct (shouldContinue compile open_log scan_error n) as [[] n1]; [|done].
  intros [= Hm <-]. unfold SafeData.ContinueOn in Hm. by rewrite <- Hc.
Qed.

End continue.

Section execute.
Context (eval : string -> result string) (newExecutor : Step.t -> result Executor)
  (getShell : string -> string) (pipeErr : option error).

Lemma keeps_evaluateCommandArgs n : keeps n (fst (evaluateCommandArgs eval getShell n)).
Proof. unfold evaluateCommandArgs. repeat case_match; simplify_eq; done. Qed.

Lemma keeps_setupExecutor n :
  keeps n (fst (setupExecutor eval newExecutor getShell pipeErr n)).
Proof.
  unfold setupExecutor.
  set (n0 := set_n_done _ _).
  assert (keeps n n0) as H0.
  { etrans; [|instantiate (1 := on_data (fun d => SafeData.ClearVariable d (cacheKey n)) n)].
    - apply keeps_ClearVariable.
    - subst n0. unfold SafeData.ClearVariable, on_data. simpl.
      by destruct (Step.OutputVariables (nd_Step (n_data n))). }
  etrans; [exact H0|]. clearbody n0. pose proof (keeps_evaluateCommandArgs n0) as H1.
  destruct (evaluateCommandArgs eval getShell n0) as [n1 [e|]]; [done|]. simpl in H1.
  etrans; [exact H1|].
  destruct (newExecutor _); [|done]. by destruct (OutputCoordinator.setupExecutorIO _ _ _) as [? []].
Qed.

Lemma keeps_finishExecute cmd n : keeps n (fst (finishExecute cmd n)).
Proof. unfold finishExecute. repeat case_match; simplify_eq; done. Qed.

Lemma keeps_Execute n : keeps n (fst (Execute eval newExecutor getShell pipeErr n)).
Proof.
  unfold Execute. pose proof (keeps_setupExecutor n) as H.
  destruct (setupExecutor eval newExecutor getShell pipeErr n) as [n1 [cmd|e]]; [|done].
  etrans; [exact H|]. apply keeps_finishExecute.
Qed.

End execute.

Section setup.
Context (eval : string -> result string) (evalInt : string -> result Z)
  (openOrCreate : string -> option error) (mkdirAll : string -> option error)
  (fileExists : string -> bool) (rune_lower : Z -> Z) (is_print : Z -> bool)
  (fmt_time : Z -> string).

Lemma keeps_setupRetryPolicy n : keeps n (fst (setupRetryPolicy evalInt n)).
Proof. unfold setupRetryPolicy. repeat case_match; simplify_eq; done. Qed.

Lemma keeps_data_Setup logFile now n :
  keeps n (set_n_data n (fst (SafeData.Setup eval logFile now (n_data n)))).
Proof. unfold SafeData.Setup. repeat case_match; done. Qed.

Lemma keeps_Setup logDir reqID now n :
  keeps n (fst (Node.Setup eval evalInt openOrCreate mkdirAll fileExists rune_lower is_print
                  fmt_time logDir reqID now n)).
Proof.
  unfold Node.Setup.
  destruct (if fileExists logDir then None else mkdirAll logDir); [done|].
  set (lf := Join _). pose proof (keeps_data_Setup lf now n) as Hd.
  destruct (SafeData.Setup eval lf now (n_data n)) as [d [e|]]; [done|]. simpl in Hd.
  etrans; [exact Hd|]. generalize (set_n_data n d). clear. intros n.
  destruct (OutputCoordinator.setup _ _ _) as [oc [e|]]; [done|].
  set (n1 := set_n_outputs n oc). assert (keeps n n1) as H1 by done. etrans; [exact H1|].
  pose proof (keeps_setupRetryPolicy n1) as H2.
  by destruct (setupRetryPolicy evalInt n1) as [n2 [e|]].
Qed.

End setup.

Lemma keeps_Teardown flush sync n : keeps n (fst (Teardown flush sync n)).
Proof. unfold Teardown. repeat case_match; done. Qed.
