(* ===== verification/Graph.v ===== *)
(** * The execution graph: internal/digraph/scheduler/graph.go

    Nodes live in a store indexed by node identifier ([dict]); [nodes] lists the
    identifiers in step order, as the slice of pointers does; [from_] and [to_]
    are the adjacency maps.  A Go map ranges in an unspecified order, which is
    an argument where the result could depend on it. *)

From S2P Require Import Prelude GoStrings Vars Digraph NodeData Node.

Record ExecutionGraph := mkGraph {
  startedAt : Z;
  finishedAt : Z;
  dict : gmap Z Node;
  nodes : list Z;
  from_ : gmap Z (list Z);
  to_ : gmap Z (list Z)
}.

Definition empty_graph : ExecutionGraph := mkGraph 0 0 ∅ [] ∅ ∅.

Definition errCycleDetected : error := ENew "cycle detected".
Definition errStepNotFound : error := ENew "step not found".

(** A missing key of an adjacency map reads as the nil slice. *)
Definition adj (m : gmap Z (list Z)) (id : Z) : list Z := default [] (m !! id).

Definition node (g : ExecutionGraph) (id : Z) : option Node := dict g !! id.

Definition set_dict (g : ExecutionGraph) (d : gmap Z Node) : ExecutionGraph :=
  mkGraph (startedAt g) (finishedAt g) d (nodes g) (from_ g) (to_ g).

(** ** Times and status reads *)

Definition Start (now : Z) (g : ExecutionGraph) : ExecutionGraph :=
  mkGraph now (finishedAt g) (dict g) (nodes g) (from_ g) (to_ g).
Definition Finish (now : Z) (g : ExecutionGraph) : ExecutionGraph :=
  mkGraph (startedAt g) now (dict g) (nodes g) (from_ g) (to_ g).
Definition IsStarted (g : ExecutionGraph) : bool := negb (startedAt g =? 0)%Z.
Definition IsFinished (g : ExecutionGraph) : bool := negb (finishedAt g =? 0)%Z.
Definition StartAt (g : ExecutionGraph) : Z := startedAt g.
Definition FinishAt (g : ExecutionGraph) : Z := finishedAt g.
Definition Duration (now : Z) (g : ExecutionGraph) : Z :=
  if (finishedAt g =? 0)%Z then int64 (now - startedAt g) else int64 (finishedAt g - startedAt g).

(** The nodes in slice order. *)
Definition Nodes (g : ExecutionGraph) : list Node := omap (node g) (nodes g).

Definition IsRunning (g : ExecutionGraph) : bool :=
  existsb (fun n => bool_decide (node_Status n = NodeStatusRunning)) (Nodes g).

Definition NodeData_ (g : ExecutionGraph) : list NodeData :=
  (fun n => SafeData.Data (n_data n)) <$> Nodes g.

(** ** Edges *)

Definition addEdge (from to : Z) (g : ExecutionGraph) : ExecutionGraph :=
  mkGraph (startedAt g) (finishedAt g) (dict g) (nodes g)
    (<[from := adj (from_ g) from ++ [to]]> (from_ g))
    (<[to := adj (to_ g) to ++ [from]]> (to_ g)).

(** [findStep] ranges over [dict]; [order] is the order of that range. *)
Definition findStep (g : ExecutionGraph) (order : list Z) (name : string) : result Z :=
  match find (fun id => match node g id with
                        | Some n => bool_decide (node_Name n = name)
                        | None => false
                        end) order with
  | Some id => Ok id
  | None => Err (EWrap "" errStepNotFound (": " +:+ name))
  end.

(** ** Cycle detection *)

Definition degree (inDegrees : gmap Z Z) (id : Z) : Z := default 0%Z (inDegrees !! id).

(** One iteration of the inner loop of [hasCycle]. *)
Definition relax (acc : gmap Z Z * list Z) (to : Z) : gmap Z Z * list Z :=
  let '(inDegrees, q) := acc in
  let d := (degree inDegrees to - 1)%Z in
  (<[to := d]> inDegrees, if (d =? 0)%Z then q ++ [to] else q).

(** The queue loop of [hasCycle]: the in-degrees it leaves, [None] when the
    fuel runs out before the queue is empty. *)
Fixpoint kahn (from : gmap Z (list Z)) (fuel : nat) (q : list Z) (inDegrees : gmap Z Z)
    : option (gmap Z Z) :=
  match q with
  | [] => Some inDegrees
  | f :: q' =>
      match fuel with
      | 0 => None
      | S n =>
          let '(d, q'') := foldl relax (inDegrees, q') (adj from f) in
          kahn from n q'' d
      end
  end.

Definition initial_degrees (g : ExecutionGraph) : gmap Z Z :=
  (fun depends => Z.of_nat (length depends)) <$> to_ g.

Definition initial_queue (g : ExecutionGraph) : list Z :=
  filter (fun id => degree (initial_degrees g) id = 0%Z) (nodes g).

(** [hasCycle]; every node is dequeued at most once, so the number of nodes is
    enough fuel ([kahn_terminates]). *)
Definition hasCycle (g : ExecutionGraph) : option bool :=
  match kahn (from_ g) (length (nodes g)) (initial_queue g) (initial_degrees g) with
  | None => None
  | Some inDegrees => Some (existsb (fun e => (0 <? snd e)%Z) (map_to_list inDegrees))
  end.

(** ** Setup *)

Section setup.
(** The order of the range of [findStep] for the [i]-th dependency of a node. *)
Context (order : Z -> nat -> list Z).

Definition link_dep (id : Z) (g : ExecutionGraph) (dep : nat * string) : result ExecutionGraph :=
  match findStep g (order id (fst dep)) (snd dep) with
  | Err e => Err e
  | Ok depStep => Ok (addEdge depStep id g)
  end.

Definition depends_of (g : ExecutionGraph) (id : Z) : list string :=
  match node g id with
  | Some n => Step.Depends (SafeData.GetStep (n_data n))
  | None => []
  end.

Definition link_node (g : ExecutionGraph) (id : Z) : result ExecutionGraph :=
  foldE (link_dep id) g (imap (fun i dep => (i, dep)) (depends_of g id)).

Definition link (g : ExecutionGraph) : result ExecutionGraph := foldE link_node g (nodes g).

Definition setup (g : ExecutionGraph) : option (result ExecutionGraph) :=
  match link g with
  | Err e => Some (Err e)
  | Ok g =>
      match hasCycle g with
      | None => None
      | Some true => Some (Err errCycleDetected)
      | Some false => Some (Ok g)
      end
  end.

(** ** Retry *)

(** The local maps of [setupRetry]: the retry flags, and the node store. *)
Abbreviation retry_state := (gmap Z bool * gmap Z Node)%type.

Definition clear_node (id : Z) (d : gmap Z Node) : gmap Z Node :=
  alter (on_data SafeData.ClearState) id d.

Definition retry_of (retry : gmap Z bool) (id : Z) : bool := default false (retry !! id).

(** One node [u] of the frontier; [status] is the snapshot taken first. *)
Definition retry_visit (from : gmap Z (list Z)) (status : gmap Z NodeStatus)
    (acc : retry_state * list Z) (u : Z) : retry_state * list Z :=
  let '((retry, d), next) := acc in
  let st := default NodeStatusNone (status !! u) in
  let '(retry, d) :=
    if retry_of retry u || bool_decide (st = NodeStatusError) || bool_decide (st = NodeStatusCancel)
    then (<[u := true]> retry, clear_node u d) else (retry, d) in
  foldl (fun '((retry, d), next) v =>
           ((if retry_of retry u then <[v := true]> retry else retry, d), next ++ [v]))
        ((retry, d), next) (adj from u).

Fixpoint retry_levels (from : gmap Z (list Z)) (status : gmap Z NodeStatus) (fuel : nat)
    (frontier : list Z) (s : retry_state) : option retry_state :=
  match frontier with
  | [] => Some s
  | _ =>
      match fuel with
      | 0 => None
      | S n =>
          let '(s', next) := foldl (retry_visit from status) (s, []) frontier in
          retry_levels from status n next s'
      end
  end.

Definition retry_roots (g : ExecutionGraph) : list Z :=
  filter (fun id => depends_of g id = []) (nodes g).

Definition status_snapshot (g : ExecutionGraph) : gmap Z NodeStatus := node_Status <$> dict g.

Definition setupRetry (g : ExecutionGraph) : option ExecutionGraph :=
  match retry_levels (from_ g) (status_snapshot g) (length (nodes g)) (retry_roots g)
          (∅, dict g) with
  | None => None
  | Some (_, d) => Some (set_dict g d)
  end.

(** ** Construction *)

(** The loop of the constructors: [Init] gives each node its identifier. *)
Fixpoint add_nodes (next : Z) (ns : list Node) (g : ExecutionGraph) : Z * ExecutionGraph :=
  match ns with
  | [] => (next, g)
  | n :: ns' =>
      let '(next, n) := Init next n in
      add_nodes next ns'
        (mkGraph (startedAt g) (finishedAt g) (<[n_id n := n]> (dict g)) (nodes g ++ [n_id n])
                 (from_ g) (to_ g))
  end.

Definition NewExecutionGraph (next : Z) (steps : list Step.t) : Z * option (result ExecutionGraph) :=
  let '(next, g) :=
    add_nodes next ((fun step => NewNode step NodeState.zero) <$> steps) empty_graph in
  (next, setup g).

Definition CreateRetryExecutionGraph (next : Z) (ns : list Node)
    : Z * option (result ExecutionGraph) :=
  let '(next, g) := add_nodes next ns empty_graph in
  (next,
   match setup g with
   | Some (Ok g) => match setupRetry g with Some g' => Some (Ok g') | None => None end
   | r => r
   end).

End setup.
