(* ===== verification/GraphCycle.v ===== *)
(** * Correctness of cycle detection

    [hasCycle] (Kahn's algorithm on the adjacency maps) terminates within one
    dequeue per node, and answers whether the edge relation has a cycle. *)

From S2P Require Import Prelude GoStrings Vars Digraph NodeData Node Graph.

(** ** The edge list behind the adjacency maps *)

Abbreviation edges := (list (Z * Z)).

Definition succs (E : edges) (u : Z) : list Z := snd <$> filter (fun e => fst e = u) E.
Definition preds (E : edges) (v : Z) : list Z := fst <$> filter (fun e => snd e = v) E.

(** The maps of [g] record exactly the edges [E], in insertion order, between
    nodes of the graph. *)
Record edges_of (g : ExecutionGraph) (E : edges) : Prop := {
  eo_from : forall u, adj (from_ g) u = succs E u;
  eo_to : forall v, adj (to_ g) v = preds E v;
  eo_nodup : NoDup (nodes g);
  eo_nodes : forall u v, (u, v) ∈ E -> u ∈ nodes g /\ v ∈ nodes g
}.

Definition edge (E : edges) (u v : Z) : Prop := (u, v) ∈ E.

(** A cycle: a node reaches itself by one edge or more. *)
Definition cyclic (E : edges) : Prop := exists v, tc (edge E) v v.

Lemma elem_of_succs E u v : v ∈ succs E u <-> (u, v) ∈ E.
Proof.
  unfold succs. rewrite list_elem_of_fmap. split.
  - intros ([a b] & -> & [Ha Hin]%list_elem_of_filter). simpl in *. by subst.
  - intros H. exists (u, v). split; [done|]. by apply list_elem_of_filter.
Qed.

Lemma elem_of_preds E u v : u ∈ preds E v <-> (u, v) ∈ E.
Proof.
  unfold preds. rewrite list_elem_of_fmap. split.
  - intros ([a b] & -> & [Ha Hin]%list_elem_of_filter). simpl in *. by subst.
  - intros H. exists (u, v). split; [done|]. by apply list_elem_of_filter.
Qed.

Lemma adj_insert m k l i : adj (<[k := l]> m) i = if decide (k = i) then l else adj m i.
Proof. unfold adj. rewrite lookup_insert. by case_decide. Qed.

(** [addEdge] appends one edge. *)
Lemma addEdge_edges_of g E u v :
  edges_of g E -> u ∈ nodes g -> v ∈ nodes g -> edges_of (addEdge u v g) (E ++ [(u, v)]).
Proof.
  intros [Hf Ht Hnd Hn] Hu Hv. split.
  - intros w. unfold addEdge; simpl. rewrite adj_insert. unfold succs.
    rewrite filter_app, fmap_app, filter_cons, filter_nil. simpl.
    rewrite !Hf. case_decide; subst; [done|]. by rewrite app_nil_r.
  - intros w. unfold addEdge; simpl. rewrite adj_insert. unfold preds.
    rewrite filter_app, fmap_app, filter_cons, filter_nil. simpl.
    rewrite !Ht. case_decide; subst; [done|]. by rewrite app_nil_r.
  - done.
  - intros a b [?|[= -> ->]%list_elem_of_singleton]%elem_of_app; [by apply Hn|done].
Qed.

(** ** Counting *)

Definition cnt (v : Z) (l : list Z) : Z := Z.of_nat (length (filter (fun x => x = v) l)).

Lemma cnt_cons v x l : cnt v (x :: l) = ((if decide (x = v) then 1 else 0) + cnt v l)%Z.
Proof. unfold cnt. rewrite filter_cons. case_decide; simpl; lia. Qed.

Lemma cnt_nonneg v l : (0 <= cnt v l)%Z.
Proof. unfold cnt. lia. Qed.

Lemma cnt_pos v l : (0 < cnt v l)%Z <-> v ∈ l.
Proof.
  induction l as [|x l IH].
  - split; [unfold cnt; simpl; lia|]. by intros ?%elem_of_nil.
  - rewrite cnt_cons, elem_of_cons, <- IH. pose proof (cnt_nonneg v l).
    case_decide; subst; [lia|]. split; [intros; right; lia|intros [?|?]; [congruence|lia]].
Qed.

Lemma degree_insert d k x i :
  degree (<[k := x]> d) i = if decide (k = i) then x else degree d i.
Proof. unfold degree. rewrite lookup_insert. by case_decide. Qed.

(** Relaxing the successors of a dequeued node subtracts their multiplicities
    and enqueues, once each, those that reach zero. *)
Lemma foldl_relax tos d q :
  (forall v, cnt v tos <= degree d v \/ v ∉ tos)%Z ->
  exists d' new,
    foldl relax (d, q) tos = (d', q ++ new) /\
    (forall v, degree d' v = degree d v - cnt v tos)%Z /\
    NoDup new /\
    (forall v, v ∈ new <-> v ∈ tos /\ degree d' v = 0%Z).
Proof.
  revert d q. induction tos as [|t tos IH]; intros d q Hle.
  { exists d, []. rewrite app_nil_r. split_and!; [done|intros; unfold cnt; simpl; lia|constructor|].
    intros v. split; [by intros ?%elem_of_nil|by intros [?%elem_of_nil _]]. }
  assert (1 + cnt t tos <= degree d t)%Z as Ht.
  { destruct (Hle t) as [H|H]; [|by destruct H; left].
    rewrite cnt_cons, decide_True in H by done. done. }
  cbn [foldl]. unfold relax at 2.
  set (d1 := <[t := (degree d t - 1)%Z]> d).
  set (q1 := if (degree d t - 1 =? 0)%Z then q ++ [t] else q).
  destruct (IH d1 q1) as (d' & new & Heq & Hd & Hnd & Hnew).
  { intros v. unfold d1. rewrite degree_insert. case_decide; subst; [left; lia|].
    destruct (Hle v) as [H1|H1]; [|right; intros ?; by destruct H1; right].
    left. rewrite cnt_cons, decide_False in H1 by done. lia. }
  assert (forall v, degree d' v = degree d v - cnt v (t :: tos))%Z as Hd'.
  { intros v. rewrite Hd, cnt_cons. unfold d1. rewrite degree_insert.
    case_decide; subst; lia. }
  exists d', ((if (degree d t - 1 =? 0)%Z then [t] else []) ++ new).
  rewrite Heq. split_and!; [|done| |].
  - f_equal. unfold q1. destruct (_ =? _)%Z; by rewrite <- ?app_assoc.
  - destruct (Z.eqb_spec (degree d t - 1) 0) as [H0|H0]; [|done].
    constructor; [|done]. rewrite Hnew. intros [Hin _].
    apply cnt_pos in Hin. lia.
  - intros v. rewrite elem_of_app, elem_of_cons, Hnew.
    destruct (decide (v = t)) as [->|Hne].
    + rewrite Hd', cnt_cons, decide_True by done.
      destruct (Z.eqb_spec (degree d t - 1) 0) as [H0|H0].
      * pose proof (cnt_nonneg t tos). split; [intros _; split; [by left|lia]|].
        intros _. left. by left.
      * split; [intros [?%elem_of_nil|[? ?]]; [done|split; [by left|lia]]|].
        pose proof (cnt_nonneg t tos).
        intros [_ H1]. right. split; [|lia]. apply cnt_pos. lia.
    + assert (v ∉ (if (degree d t - 1 =? 0)%Z then [t] else [])) as Hnt.
      { destruct (_ =? _)%Z; [by intros ->%list_elem_of_singleton|apply not_elem_of_nil]. }
      naive_solver.
Qed.

(** ** The invariant of the queue loop *)

Section kahn.
Context (g : ExecutionGraph) (E : edges) (HE : edges_of g E).

(** Edges into [v] whose source has not been dequeued. *)
Definition open_degree (P : list Z) (v : Z) : Z :=
  Z.of_nat (length (filter (fun e => snd e = v /\ fst e ∉ P) E)).

(** The dequeued nodes [P] are in topological order. *)
Definition topo (P : list Z) : Prop :=
  forall P1 v P2, P = P1 ++ v :: P2 -> forall u, (u, v) ∈ E -> u ∈ P1.

Record kahn_inv (P q : list Z) (d : gmap Z Z) : Prop := {
  ki_nodup : NoDup (P ++ q);
  ki_deg : forall v, degree d v = open_degree P v;
  ki_zero : forall v, v ∈ nodes g -> (v ∈ P ++ q <-> degree d v = 0%Z);
  ki_nodes : forall v, v ∈ P ++ q -> v ∈ nodes g;
  ki_topo : topo P
}.

Lemma open_degree_nil v : open_degree [] v = Z.of_nat (length (preds E v)).
Proof.
  unfold open_degree, preds. rewrite length_fmap. do 2 f_equal.
  apply list_filter_iff. intros e. split; [by intros [? _]|].
  intros; split; [done|apply not_elem_of_nil].
Qed.

Lemma initial_degree v : degree (initial_degrees g) v = open_degree [] v.
Proof.
  rewrite open_degree_nil, <- (eo_to _ _ HE v).
  unfold degree, initial_degrees, adj. rewrite lookup_fmap.
  by destruct (to_ g !! v).
Qed.

Lemma kahn_inv_init : kahn_inv [] (initial_queue g) (initial_degrees g).
Proof.
  split; simpl.
  - unfold initial_queue. apply NoDup_filter, (eo_nodup _ _ HE).
  - apply initial_degree.
  - intros v Hv. unfold initial_queue. rewrite list_elem_of_filter. naive_solver.
  - intros v. unfold initial_queue. rewrite list_elem_of_filter. naive_solver.
  - intros P1 v P2 H. by destruct P1.
Qed.

(** Dequeuing [f] closes its outgoing edges. *)
Lemma open_degree_snoc P f v :
  f ∉ P -> (open_degree (P ++ [f]) v = open_degree P v - cnt v (succs E f))%Z.
Proof.
  intros Hf. unfold open_degree, cnt, succs. clear HE.
  induction E as [|[a b] E' IH]; [done|].
  rewrite !filter_cons. simpl.
  destruct (decide (a = f)) as [->|Haf].
  - rewrite (decide_False (P := b = v /\ f ∉ P ++ [f]))
      by (intros [_ H]; apply H, elem_of_app; right; by left).
    rewrite fmap_cons, filter_cons. simpl.
    destruct (decide (b = v)) as [->|Hb].
    + rewrite (decide_True (P := v = v /\ f ∉ P)) by done. simpl. lia.
    + rewrite (decide_False (P := b = v /\ f ∉ P)) by naive_solver. lia.
  - destruct (decide (b = v /\ a ∉ P)) as [H|H].
    + rewrite decide_True; [simpl; lia|]. destruct H as [-> H]. split; [done|].
      intros [?|?%list_elem_of_singleton]%elem_of_app; done.
    + rewrite decide_False; [lia|]. intros [-> H']. apply H. split; [done|].
      intros ?. apply H', elem_of_app. by left.
Qed.

Lemma open_degree_zero P v u : open_degree P v = 0%Z -> (u, v) ∈ E -> u ∈ P.
Proof.
  unfold open_degree. intros H Huv. destruct (decide (u ∈ P)); [done|].
  assert ((u, v) ∈ filter (fun e => snd e = v /\ fst e ∉ P) E) as Hin
    by by apply list_elem_of_filter.
  destruct (filter _ E); [by apply elem_of_nil in Hin|simpl in H; lia].
Qed.

Lemma open_degree_pos P v : (0 < open_degree P v)%Z -> exists u, (u, v) ∈ E /\ u ∉ P.
Proof.
  unfold open_degree. destruct (filter _ E) as [|[a b] l] eqn:Hf; [simpl; lia|]. intros _.
  assert ((a, b) ∈ filter (fun e => snd e = v /\ fst e ∉ P) E) as Hin
    by (rewrite Hf; by left).
  apply list_elem_of_filter in Hin as [[<- Ha] Hin]. by exists a.
Qed.

Lemma topo_snoc P f : topo P -> (forall u, (u, f) ∈ E -> u ∈ P) -> topo (P ++ [f]).
Proof.
  intros HP Hf P1 v P2 Heq u Huv.
  destruct (decide (P2 = [])) as [->|Hne].
  - apply app_inj_tail in Heq as [<- <-]. by apply Hf.
  - destruct (exists_last Hne) as (P2' & y & ->).
    rewrite app_comm_cons, app_assoc in Heq. apply app_inj_tail in Heq as [-> _].
    by eapply HP.
Qed.

Lemma kahn_inv_step P f q d :
  kahn_inv P (f :: q) d ->
  exists d' q', foldl relax (d, q) (adj (from_ g) f) = (d', q') /\ kahn_inv (P ++ [f]) q' d'.
Proof.
  intros [Hnd Hdeg Hz Hn Ht].
  assert (f ∉ P) as HfP.
  { intros HP. apply NoDup_app in Hnd as (_ & Hd & _). by apply (Hd f HP); left. }
  assert (f ∈ nodes g) as Hfn by (apply Hn, elem_of_app; right; by left).
  assert (degree d f = 0)%Z as Hf0 by (apply Hz; [done|]; apply elem_of_app; right; by left).
  rewrite (eo_from _ _ HE f).
  assert (forall v, cnt v (succs E f) <= degree d v)%Z as Hle.
  { intros v. pose proof (open_degree_snoc P f v HfP) as H.
    rewrite Hdeg. unfold open_degree in H at 1. lia. }
  destruct (foldl_relax (succs E f) d q) as (d' & new & Heq & Hd' & Hnew & Hin).
  { intros v. by left. }
  exists d', (q ++ new). split; [done|].
  assert (forall v, v ∈ (P ++ [f]) ++ q ++ new <-> v ∈ P ++ f :: q \/ v ∈ new) as Hmem.
  { intros v. rewrite !elem_of_app, !elem_of_cons, elem_of_nil. tauto. }
  assert (forall v, v ∈ new -> v ∈ nodes g /\ v ∉ P ++ f :: q) as Hfresh.
  { intros v Hv. apply Hin in Hv as [Hv Hv0].
    assert (v ∈ nodes g) as Hvn by (apply elem_of_succs in Hv; by apply (eo_nodes _ _ HE) in Hv as [_ ?]).
    split; [done|]. rewrite Hz by done. rewrite Hd' in Hv0. apply cnt_pos in Hv. lia. }
  split.
  - replace ((P ++ [f]) ++ q ++ new) with ((P ++ f :: q) ++ new)
      by (by rewrite <- !app_assoc).
    apply NoDup_app. split_and!; [done| |done].
    intros v Hv Hv'. by apply Hfresh in Hv' as [_ ?].
  - intros v. rewrite Hd', Hdeg. by rewrite open_degree_snoc.
  - intros v Hv. rewrite Hmem, Hz by done. rewrite Hin, Hd'.
    pose proof (cnt_nonneg v (succs E f)). specialize (Hle v).
    rewrite <- cnt_pos. lia.
  - intros v. rewrite Hmem. intros [?|?]; [by apply Hn|by apply Hfresh].
  - apply topo_snoc; [done|]. intros u Hu.
    apply (open_degree_zero P f u); [|done]. by rewrite <- Hdeg.
Qed.

(** One dequeue per node is enough fuel. *)
Lemma kahn_total fuel P q d :
  kahn_inv P q d -> length (nodes g) <= fuel + length P ->
  exists P' d', kahn (from_ g) fuel q d = Some d' /\ kahn_inv P' [] d'.
Proof.
  revert P q d. induction fuel as [|fuel IH]; intros P q d Hinv Hfuel.
  - destruct q as [|f q]; [by exists P, d|].
    assert (length (P ++ f :: q) <= length (nodes g)) as Hlen.
    { apply NoDup_length_le; [apply Hinv|]. intros x. apply (ki_nodes _ _ _ Hinv). }
    rewrite length_app in Hlen. simpl in *. lia.
  - destruct q as [|f q]; [by exists P, d|]. cbn [kahn].
    destruct (kahn_inv_step P f q d Hinv) as (d' & q' & -> & Hinv').
    apply (IH (P ++ [f])); [done|]. rewrite length_app. simpl. lia.
Qed.

(** At the end, a node with a positive in-degree gives a cycle. *)
Lemma kahn_inv_cycle P d v :
  kahn_inv P [] d -> (0 < degree d v)%Z -> cyclic E.
Proof.
  intros [Hnd Hdeg Hz Hn Ht] Hv. rewrite app_nil_r in *.
  apply (pred_closed_cycle (edge E) (nodes g) (fun x => x ∈ nodes g /\ x ∉ P) v).
  - rewrite Hdeg in Hv. destruct (open_degree_pos _ _ Hv) as (u & Hu & _).
    split; [by apply (eo_nodes _ _ HE) in Hu as [_ ?]|].
    intros HP. apply Hz in HP; [rewrite <- Hdeg in Hv; lia|by apply Hn].
  - by intros x [? _].
  - intros x [Hx HxP].
    assert (0 < open_degree P x)%Z as Hpos.
    { rewrite <- Hdeg. assert (degree d x <> 0%Z) by (by rewrite <- Hz).
      assert (0 <= degree d x)%Z by (rewrite Hdeg; unfold open_degree; lia). lia. }
    destruct (open_degree_pos _ _ Hpos) as (u & Hu & HuP). exists u.
    split; [|done]. split; [by apply (eo_nodes _ _ HE) in Hu as [? _]|done].
Qed.

(** Otherwise the dequeue order is topological and no edge closes a cycle. *)
Lemma kahn_inv_acyclic P d :
  kahn_inv P [] d -> (forall v, degree d v <= 0)%Z -> ~ cyclic E.
Proof.
  intros [Hnd Hdeg Hz Hn Ht] Hle [v Hv]. rewrite app_nil_r in *.
  assert (forall x y, tc (edge E) x y ->
            exists i j, P !! i = Some x /\ P !! j = Some y /\ i < j) as Hord.
  { assert (forall x y, edge E x y ->
              exists i j, P !! i = Some x /\ P !! j = Some y /\ i < j) as Hedge.
    { intros x y Hxy.
      assert (y ∈ P) as Hy.
      { apply Hz; [by apply (eo_nodes _ _ HE) in Hxy as [_ ?]|].
        assert (0 <= degree d y)%Z by (rewrite Hdeg; unfold open_degree; lia).
        specialize (Hle y). lia. }
      apply list_elem_of_split in Hy as (P1 & P2 & HP).
      pose proof (Ht P1 y P2 HP x Hxy) as Hx.
      apply list_elem_of_lookup in Hx as [i Hi].
      exists i, (length P1). subst P. apply lookup_lt_Some in Hi as Hlt.
      split_and!; [by rewrite lookup_app_l|by apply list_lookup_middle|done]. }
    intros x y Hxy. induction Hxy as [x y Hxy|x y z Hxy _ IH]; [by apply Hedge|].
    destruct (Hedge _ _ Hxy) as (i & j & Hi & Hj & Hij).
    destruct IH as (j' & k & Hj' & Hk & Hjk).
    assert (j = j') as -> by (eapply NoDup_lookup; eauto).
    exists i, k. split_and!; [done|done|lia]. }
  destruct (Hord _ _ Hv) as (i & j & Hi & Hj & Hij).
  assert (i = j) by (eapply NoDup_lookup; eauto). lia.
Qed.

Lemma existsb_positive (d : gmap Z Z) :
  existsb (fun e => (0 <? snd e)%Z) (map_to_list d) = true <-> exists v, (0 < degree d v)%Z.
Proof.
  rewrite existsb_exists. split.
  - intros ([v x] & Hin & Hx). apply list_elem_of_In, elem_of_map_to_list in Hin.
    exists v. unfold degree. rewrite Hin. simpl in *. lia.
  - intros [v Hv]. unfold degree in Hv. destruct (d !! v) as [x|] eqn:Hd; [|simpl in *; lia].
    exists (v, x). split; [by apply list_elem_of_In, elem_of_map_to_list|].
    simpl in *. by apply Z.ltb_lt.
Qed.

(** [hasCycle] answers, and its answer is the existence of a cycle. *)
Lemma hasCycle_spec : exists b, hasCycle g = Some b /\ (b = true <-> cyclic E).
Proof.
  destruct (kahn_total (length (nodes g)) [] _ _ kahn_inv_init) as (P & d & Hk & Hinv).
  { simpl. lia. }
  unfold hasCycle. rewrite Hk.
  eexists. split; [done|]. rewrite existsb_positive. split.
  - intros [v Hv]. by eapply kahn_inv_cycle.
  - intros Hc. apply existsb_positive.
    destruct (existsb _ (map_to_list d)) eqn:Hex; [done|]. exfalso.
    apply (kahn_inv_acyclic P d Hinv); [|done]. intros v.
    destruct (Z.le_gt_cases (degree d v) 0) as [|Hpos]; [done|].
    rewrite (proj2 (existsb_positive d)) in Hex; [done|]. exists v. lia.
Qed.

End kahn.
