(* ===== verification/GraphSetup.v ===== *)
(** * Construction of the execution graph

    What [setup] and [NewExecutionGraph] return: the graph whose edges are the
    declared dependencies when every name resolves and no cycle arises, the
    step-not-found or the cycle error otherwise. *)

From S2P Require Import Prelude GoStrings Vars Digraph NodeData Node Graph GraphCycle.

(** ** Linking *)

Section link.
Context (order : Z -> nat -> list Z).

(** [u] is a node of [g] whose step is called [dep]. *)
Definition named (g : ExecutionGraph) (dep : string) (u : Z) : Prop :=
  u ∈ nodes g /\ exists n, node g u = Some n /\ node_Name n = dep.

(** Every node of the slice is in the store, and a range over the store visits
    exactly the nodes. *)
Record wf_nodes (g : ExecutionGraph) : Prop := {
  wn_nodup : NoDup (nodes g);
  wn_dict : forall u, u ∈ nodes g -> is_Some (node g u);
  wn_order : forall id i u, u ∈ order id i <-> u ∈ nodes g
}.

Lemma findStep_ok g id i dep u :
  wf_nodes g -> findStep g (order id i) dep = Ok u -> named g dep u.
Proof.
  intros Hwf. unfold findStep. destruct (find _ _) as [x|] eqn:Hf; [|done].
  intros [= <-]. apply find_some in Hf as [Hin Hx].
  apply list_elem_of_In, (wn_order g Hwf) in Hin. split; [done|].
  destruct (node g x) as [n|]; [|done]. exists n. by apply bool_decide_eq_true in Hx.
Qed.

Lemma findStep_err g id i dep e :
  wf_nodes g -> findStep g (order id i) dep = Err e ->
  e = EWrap "" errStepNotFound (": " +:+ dep) /\ forall u, ~ named g dep u.
Proof.
  intros Hwf. unfold findStep. destruct (find _ _) as [x|] eqn:Hf; [done|].
  intros [= <-]. split; [done|]. intros u (Hu & n & Hn & Hname).
  apply (wn_order g Hwf id i), list_elem_of_In in Hu.
  pose proof (find_none _ _ Hf u Hu) as H. simpl in H. rewrite Hn in H.
  apply bool_decide_eq_false in H. done.
Qed.

(** Two graphs with the same nodes, whatever their edges. *)
Definition same_nodes (g g' : ExecutionGraph) : Prop :=
  nodes g' = nodes g /\ dict g' = dict g.

Lemma same_nodes_named g g' dep u : same_nodes g g' -> named g' dep u <-> named g dep u.
Proof. intros [Hn Hd]. unfold named, node. by rewrite Hn, Hd. Qed.

Lemma same_nodes_wf g g' : same_nodes g g' -> wf_nodes g -> wf_nodes g'.
Proof.
  intros [Hn Hd] [H1 H2 H3]. split; [by rewrite Hn| |].
  - intros u. rewrite Hn. unfold node. rewrite Hd. apply H2.
  - intros. by rewrite Hn.
Qed.

Lemma same_nodes_depends g g' u : same_nodes g g' -> depends_of g' u = depends_of g u.
Proof. intros [Hn Hd]. unfold depends_of, node. by rewrite Hd. Qed.

(** The edges into [id] from the nodes [us]. *)
Definition into (id : Z) (us : list Z) : edges := (fun u => (u, id)) <$> us.

Lemma preds_into E id us v :
  preds (E ++ into id us) v = preds E v ++ (if decide (v = id) then us else []).
Proof.
  unfold preds, into. rewrite filter_app, fmap_app. f_equal.
  case_decide as Hv.
  - subst. induction us as [|u us IH]; [done|].
    rewrite fmap_cons, filter_cons_True by done. by rewrite fmap_cons, IH.
  - induction us as [|u us IH]; [done|].
    rewrite fmap_cons, filter_cons_False by naive_solver. done.
Qed.

Lemma link_deps_spec id deps g E :
  wf_nodes g -> edges_of g E -> id ∈ nodes g ->
  match foldE (link_dep order id) g deps with
  | Ok g' =>
      same_nodes g g' /\
      exists us, Forall2 (named g) (snd <$> deps) us /\ edges_of g' (E ++ into id us)
  | Err e =>
      exists dep, dep ∈ snd <$> deps /\ (forall u, ~ named g dep u) /\
                  e = EWrap "" errStepNotFound (": " +:+ dep)
  end.
Proof.
  revert g E. induction deps as [|[i dep] deps IH]; intros g E Hwf HE Hid; simpl.
  { split; [done|]. exists []. split; [constructor|]. by rewrite app_nil_r. }
  unfold link_dep at 1. simpl.
  destruct (findStep g (order id i) dep) as [u|e] eqn:Hf.
  - apply findStep_ok in Hf as Hu; [|done].
    assert (same_nodes g (addEdge u id g)) as Hs by done.
    pose proof (addEdge_edges_of g E u id HE (proj1 Hu) Hid) as HE'.
    specialize (IH (addEdge u id g) _ (same_nodes_wf _ _ Hs Hwf) HE' Hid).
    destruct (foldE _ _ _) as [g'|e].
    + destruct IH as ([Hn Hd] & us & HF & Hedges). split; [done|].
      exists (u :: us). split; [constructor; [done|]|].
      * eapply Forall2_impl; [done|]. intros dep' u'. by apply same_nodes_named.
      * by rewrite <- app_assoc in Hedges.
    + destruct IH as (dep' & Hin & Hno & ->). exists dep'. split_and!; [by right| |done].
      intros w Hw. by apply (Hno w).
  - apply findStep_err in Hf as [-> Hno]; [|done].
    exists dep. split_and!; [by left|done|done].
Qed.

Lemma imap_snd (deps : list string) : snd <$> imap (fun i dep => (i, dep)) deps = deps.
Proof.
  apply list_eq. intros i. rewrite list_lookup_fmap, list_lookup_imap.
  by destruct (deps !! i).
Qed.

Lemma link_node_spec id g E :
  wf_nodes g -> edges_of g E -> id ∈ nodes g ->
  match link_node order g id with
  | Ok g' =>
      same_nodes g g' /\
      exists us, Forall2 (named g) (depends_of g id) us /\ edges_of g' (E ++ into id us)
  | Err e =>
      exists dep, dep ∈ depends_of g id /\ (forall u, ~ named g dep u) /\
                  e = EWrap "" errStepNotFound (": " +:+ dep)
  end.
Proof.
  intros Hwf HE Hid. unfold link_node.
  pose proof (link_deps_spec id (imap (fun i dep => (i, dep)) (depends_of g id)) g E Hwf HE Hid) as H.
  rewrite imap_snd in H. exact H.
Qed.

(** The loop over the nodes: those in [todo] have no incoming edge yet. *)
Lemma link_nodes_spec todo g E :
  wf_nodes g -> edges_of g E -> NoDup todo -> (forall v, v ∈ todo -> v ∈ nodes g) ->
  (forall v, v ∈ todo -> preds E v = []) ->
  (forall v, v ∈ nodes g -> v ∉ todo -> Forall2 (named g) (depends_of g v) (preds E v)) ->
  match foldE (link_node order) g todo with
  | Ok g' =>
      same_nodes g g' /\
      exists E', edges_of g' E' /\
        forall v, v ∈ nodes g -> Forall2 (named g) (depends_of g v) (preds E' v)
  | Err e =>
      exists v dep, v ∈ nodes g /\ dep ∈ depends_of g v /\ (forall u, ~ named g dep u) /\
                    e = EWrap "" errStepNotFound (": " +:+ dep)
  end.
Proof.
  revert g E. induction todo as [|id todo IH]; intros g E Hwf HE Hnd Hin Hnil Hdone; simpl.
  { split; [done|]. exists E. split; [done|]. intros v Hv. apply Hdone; [done|].
    apply not_elem_of_nil. }
  apply NoDup_cons in Hnd as [Hid Hnd].
  pose proof (link_node_spec id g E Hwf HE ltac:(by apply Hin; left)) as H1.
  destruct (link_node order g id) as [g1|e].
  - destruct H1 as (Hs & us & HF & HE1).
    pose proof Hs as [Hn Hd].
    specialize (IH g1 _ (same_nodes_wf _ _ Hs Hwf) HE1 Hnd).
    assert (forall v l, Forall2 (named g1) (depends_of g1 v) l <->
                        Forall2 (named g) (depends_of g v) l) as Hiff.
    { intros v l. rewrite (same_nodes_depends _ _ _ Hs). split; intros HH;
        (eapply Forall2_impl; [exact HH|]); intros ??; by apply same_nodes_named. }
    rewrite Hn in IH.
    destruct (foldE _ g1 todo) as [g'|e].
    + destruct IH as ([Hn' Hd'] & E' & HE' & HF').
      * intros v Hv. apply Hin. by right.
      * intros v Hv. rewrite preds_into, decide_False by (intros ->; done).
        rewrite app_nil_r. apply Hnil. by right.
      * intros v Hv Hv'. rewrite Hiff, preds_into. case_decide as Hc.
        -- subst v. rewrite Hnil by by left. done.
        -- rewrite app_nil_r. apply Hdone; [done|]. by intros [?|?]%elem_of_cons.
      * split; [split; congruence|]. exists E'. split; [done|].
        intros v Hv. apply Hiff. by apply HF'.
    + destruct IH as (v & dep & Hv & Hdep & Hno & ->).
      * intros v Hv. apply Hin. by right.
      * intros v Hv. rewrite preds_into, decide_False by (intros ->; done).
        rewrite app_nil_r. apply Hnil. by right.
      * intros v Hv Hv'. rewrite Hiff, preds_into. case_decide as Hc.
        -- subst v. rewrite Hnil by by left. done.
        -- rewrite app_nil_r. apply Hdone; [done|]. by intros [?|?]%elem_of_cons.
      * exists v, dep. rewrite (same_nodes_depends _ _ _ Hs) in Hdep.
        split_and!; try done. intros u Hu. apply (Hno u). by apply (same_nodes_named _ _ _ _ Hs).
  - destruct H1 as (dep & Hdep & Hno & ->). exists id, dep.
    split_and!; [by apply Hin; left|done|done|done].
Qed.

(** A graph whose edges have not been set up. *)
Definition unlinked (g : ExecutionGraph) : Prop := from_ g = ∅ /\ to_ g = ∅.

Lemma unlinked_edges_of g : wf_nodes g -> unlinked g -> edges_of g [].
Proof.
  intros Hwf [Hf Ht]. split; [intros; by rewrite Hf|intros; by rewrite Ht|apply Hwf|].
  by intros ?? ?%elem_of_nil.
Qed.

(** The edges [E] are the declared dependencies of the nodes of [g]. *)
Definition resolves (g : ExecutionGraph) (E : edges) : Prop :=
  forall v, v ∈ nodes g -> Forall2 (named g) (depends_of g v) (preds E v).

(** What [setup] returns. *)
Definition setup_outcome (g : ExecutionGraph) (r : option (result ExecutionGraph)) : Prop :=
  match r with
  | Some (Ok g') =>
      same_nodes g g' /\ exists E, edges_of g' E /\ resolves g E /\ ~ cyclic E
  | Some (Err e) =>
      (e = errCycleDetected /\
        exists g' E, link order g = Ok g' /\ edges_of g' E /\ resolves g E /\ cyclic E) \/
      (exists v dep, v ∈ nodes g /\ dep ∈ depends_of g v /\ (forall u, ~ named g dep u) /\
                    e = EWrap "" errStepNotFound (": " +:+ dep))
  | None => False
  end.

Lemma setup_spec g : wf_nodes g -> unlinked g -> setup_outcome g (setup order g).
Proof.
  intros Hwf Hun. unfold setup. unfold link.
  pose proof (link_nodes_spec (nodes g) g [] Hwf (unlinked_edges_of g Hwf Hun)
                (wn_nodup g Hwf)) as H.
  destruct (foldE (link_node order) g (nodes g)) as [g'|e] eqn:Hl.
  - destruct H as ([Hn Hd] & E & HE & HF); try done.
    destruct (hasCycle_spec g' E HE) as (b & Hb & Hcyc). rewrite Hb.
    destruct b; simpl.
    + left. split; [done|]. exists g', E. unfold link. split_and!; try done. by apply Hcyc.
    + split; [done|]. exists E. split_and!; [done|done|]. by intros ?%Hcyc.
  - simpl. right. apply H; done.
Qed.

End link.

(** ** Node creation *)

(** Nodes without an identifier get consecutive ones. *)
Lemma add_nodes_fresh (ns : list Node) next g :
  (0 < next)%Z -> Forall (fun n => n_id n = 0%Z) ns ->
  (forall u, u ∈ nodes g -> (u < next)%Z) ->
  let g' := snd (add_nodes next ns g) in
  fst (add_nodes next ns g) = (next + Z.of_nat (length ns))%Z /\
  nodes g' = nodes g ++ seqZ next (Z.of_nat (length ns)) /\
  from_ g' = from_ g /\ to_ g' = to_ g /\
  (forall u, (u < next)%Z \/ (next + Z.of_nat (length ns) <= u)%Z -> node g' u = node g u) /\
  (forall i n, ns !! i = Some n ->
     node g' (next + Z.of_nat i)%Z = Some (set_n_id n (next + Z.of_nat i)%Z)).
Proof.
  revert next g. induction ns as [|n ns IH]; intros next g Hnext Hns Hlt.
  { cbn. rewrite Z.add_0_r, app_nil_r. split_and!; done. }
  apply Forall_cons_iff in Hns as [Hn0 Hns].
  assert (Init next n = ((next + 1)%Z, set_n_id n next)) as HI.
  { unfold Init. by rewrite bool_decide_false by (rewrite Hn0; tauto). }
  cbn [add_nodes length]. rewrite HI.
  change (n_id (set_n_id n next)) with next.
  set (g1 := mkGraph _ _ _ _ _ _).
  destruct (IH (next + 1)%Z g1) as (Hf & Hn & Hfr & Hto & Hold & Hnew); [lia|done| |].
  { intros u. unfold g1; simpl. intros [Hu|Hu%list_elem_of_singleton]%elem_of_app.
    + apply Hlt in Hu. lia.
    + subst. lia. }
  split_and!; [rewrite Hf; lia| |by rewrite Hfr|by rewrite Hto| |].
  - rewrite Hn. unfold g1; simpl. rewrite <- app_assoc. f_equal. simpl.
    rewrite (seqZ_cons next) by lia. f_equal. f_equal; lia.
  - intros u Hu. rewrite Hold by lia. unfold g1, node; simpl.
    rewrite lookup_insert_ne by lia. done.
  - intros [|i] m Hi; simpl in Hi.
    + injection Hi as <-. rewrite Hold by lia. unfold g1, node; simpl.
      rewrite Z.add_0_r. by rewrite lookup_insert_eq.
    + replace (next + Z.of_nat (S i))%Z with (next + 1 + Z.of_nat i)%Z by lia. by apply Hnew.
Qed.

(** The graph the constructors hand to [setup]: the [i]-th node is [ns !! i]
    with identifier [next + i], and there is no edge. *)
Record fresh_graph (next : Z) (ns : list Node) (g : ExecutionGraph) : Prop := {
  fg_nodes : nodes g = seqZ next (Z.of_nat (length ns));
  fg_node : forall i n, ns !! i = Some n ->
    node g (next + Z.of_nat i)%Z = Some (set_n_id n (next + Z.of_nat i)%Z);
  fg_dom : forall u, is_Some (node g u) -> u ∈ nodes g;
  fg_unlinked : unlinked g
}.

Lemma add_nodes_fresh_graph next ns :
  (0 < next)%Z -> Forall (fun n => n_id n = 0%Z) ns ->
  fresh_graph next ns (snd (add_nodes next ns empty_graph)).
Proof.
  intros Hnext Hns.
  destruct (add_nodes_fresh ns next empty_graph Hnext Hns) as (_ & Hn & Hf & Ht & Hold & Hnew).
  { by intros u ?%elem_of_nil. }
  split; [done|done| |done].
  intros u Hu. rewrite Hn. simpl. apply elem_of_seqZ.
  destruct (decide (next <= u < next + Z.of_nat (length ns))%Z) as [|Hout]; [done|].
  rewrite Hold in Hu by lia. unfold node, empty_graph in Hu. simpl in Hu.
  rewrite lookup_empty in Hu. by destruct Hu.
Qed.

Lemma fresh_graph_index next ns g u :
  fresh_graph next ns g -> u ∈ nodes g ->
  exists i n, u = (next + Z.of_nat i)%Z /\ ns !! i = Some n.
Proof.
  intros Hg Hu. rewrite (fg_nodes _ _ _ Hg) in Hu. apply elem_of_seqZ in Hu.
  destruct (lookup_lt_is_Some_2 ns (Z.to_nat (u - next))) as [n Hn]; [lia|].
  exists (Z.to_nat (u - next)), n. split; [lia|done].
Qed.

Lemma fresh_graph_wf order next ns g :
  (forall id i u, u ∈ order id i <-> u ∈ seqZ next (Z.of_nat (length ns))) ->
  fresh_graph next ns g -> wf_nodes order g.
Proof.
  intros Ho Hg. split.
  - rewrite (fg_nodes _ _ _ Hg). apply NoDup_seqZ.
  - intros u Hu. destruct (fresh_graph_index _ _ _ _ Hg Hu) as (i & n & -> & Hn).
    rewrite (fg_node _ _ _ Hg i n Hn). by eexists.
  - intros. by rewrite Ho, (fg_nodes _ _ _ Hg).
Qed.
