(* ===== verification/GraphRetry.v ===== *)
(** * Correctness of retry preparation

    [setupRetry] walks the graph level by level from the nodes without
    dependencies.  On an acyclic graph it terminates, and it clears exactly the
    nodes reachable from a failed or cancelled one. *)

From S2P Require Import Prelude GoStrings Vars Digraph NodeData Node Graph GraphCycle.

Section retry.
Context (g : ExecutionGraph) (E : edges) (HE : edges_of g E).

Abbreviation status := (status_snapshot g).

(** A node the previous run left failed or cancelled. *)
Definition bad (u : Z) : Prop :=
  exists n, node g u = Some n /\ (node_Status n = NodeStatusError \/ node_Status n = NodeStatusCancel).

(** Nodes whose state must be cleared: reachable from a bad node. *)
Definition tainted (v : Z) : Prop := exists u, bad u /\ rtc (edge E) u v.

(** ** Levels *)

(** The frontier after [k] rounds. *)
Fixpoint level (roots : list Z) (k : nat) : list Z :=
  match k with
  | 0 => roots
  | S k' => level roots k' ≫= succs E
  end.

Lemma elem_of_level_S roots k v :
  v ∈ level roots (S k) <-> exists u, u ∈ level roots k /\ (u, v) ∈ E.
Proof.
  simpl. rewrite list_elem_of_bind. setoid_rewrite elem_of_succs. naive_solver.
Qed.

(** A node of level [k] ends a walk of [k] edges. *)
Lemma level_walk roots k v :
  v ∈ level roots k ->
  exists l, length l = S k /\ walk (fun a b => edge E b a) (v :: tail l) /\ head l = Some v /\
            Forall (fun x => x ∈ roots ++ nodes g) l.
Proof.
  revert v. induction k as [|k IH]; intros v Hv.
  - exists [v]. split_and!; [done|done|done|]. constructor; [|constructor].
    apply elem_of_app. by left.
  - apply elem_of_level_S in Hv as (u & Hu & Huv).
    destruct (IH u Hu) as (l & Hlen & Hw & Hhd & Hin).
    destruct l as [|x l]; [done|]. simpl in Hhd. simplify_eq.
    exists (v :: u :: l). split_and!; [simpl in *; lia|by split|done|].
    constructor; [|done]. apply elem_of_app. right. by apply (eo_nodes _ _ HE) in Huv as [_ ?].
Qed.

(** An acyclic graph has no level past the number of its nodes. *)
Lemma level_bound roots k v :
  (forall r, r ∈ roots -> r ∈ nodes g) -> ~ cyclic E ->
  v ∈ level roots k -> k < length (nodes g).
Proof.
  intros Hr Hac Hv. destruct (decide (k < length (nodes g))) as [|Hge]; [done|].
  exfalso. destruct (level_walk roots k v Hv) as (l & Hlen & Hw & Hhd & Hin).
  destruct l as [|x l]; [done|]. simpl in Hhd, Hw. simplify_eq.
  destruct (walk_cycle (fun a b => edge E b a) (v :: l) (nodes g)) as [x Hx].
  - done.
  - intros y Hy. rewrite Forall_forall in Hin. apply Hin in Hy.
    apply elem_of_app in Hy as [?|?]; auto.
  - lia.
  - apply Hac. exists x. clear -Hx.
    assert (forall a b, tc (fun a b => edge E b a) a b -> tc (edge E) b a) as Hflip.
    { intros a b. induction 1 as [a b H|a b c H _ IH]; [by apply tc_once|].
      eapply tc_r; eauto. }
    by apply Hflip.
Qed.

Lemma level_nil roots k j : k <= j -> level roots k = [] -> level roots j = [].
Proof.
  induction 1 as [|j Hj IH]; [done|]. intros H. simpl. by rewrite IH.
Qed.

(** ** One visit *)

Definition badb (u : Z) : bool :=
  bool_decide (default NodeStatusNone (status !! u) = NodeStatusError) ||
  bool_decide (default NodeStatusNone (status !! u) = NodeStatusCancel).

Lemma badb_spec u : badb u = true <-> bad u.
Proof.
  unfold badb, bad, status_snapshot, node. rewrite lookup_fmap, orb_true_iff, !bool_decide_eq_true.
  destruct (dict g !! u) as [n|]; simpl; naive_solver.
Qed.

Lemma inner_loop u tos retry (d : gmap Z Node) next :
  exists retry',
    foldl (fun '((retry, d), next) v =>
             ((if retry_of retry u then <[v := true]> retry else retry, d), next ++ [v]))
          ((retry, d), next) tos = ((retry', d), next ++ tos) /\
    forall w, retry_of retry' w = retry_of retry w || (retry_of retry u && bool_decide (w ∈ tos)).
Proof.
  revert retry next. induction tos as [|t tos IH]; intros retry next; cbn [foldl].
  { exists retry. rewrite app_nil_r. split; [done|]. intros w.
    rewrite bool_decide_false by apply not_elem_of_nil. by rewrite andb_false_r, orb_false_r. }
  destruct (IH (if retry_of retry u then <[t:=true]> retry else retry) (next ++ [t]))
    as (retry' & -> & Hr).
  exists retry'. rewrite <- app_assoc. split; [done|]. intros w. rewrite Hr.
  destruct (retry_of retry u) eqn:Hu.
  - assert (forall x, retry_of (<[t:=true]> retry) x = bool_decide (x = t) || retry_of retry x) as Hins.
    { intros x. unfold retry_of. rewrite lookup_insert.
      case_decide; subst; [by rewrite bool_decide_true|by rewrite bool_decide_false]. }
    rewrite !Hins, Hu, orb_true_r. simpl.
    rewrite (bool_decide_ext (w ∈ t :: tos) (w = t \/ w ∈ tos)) by apply elem_of_cons.
    rewrite bool_decide_or. by destruct (bool_decide (w = t)), (retry_of retry w).
  - by rewrite Hu.
Qed.

(** Whether visiting [u] clears it. *)
Definition hit (retry : gmap Z bool) (u : Z) : bool := retry_of retry u || badb u.

Lemma retry_visit_spec retry d next u :
  exists retry',
    retry_visit (from_ g) status ((retry, d), next) u =
      ((retry', if hit retry u then clear_node u d else d), next ++ succs E u) /\
    forall w, retry_of retry' w =
      retry_of retry w || (hit retry u && (bool_decide (w = u) || bool_decide (w ∈ succs E u))).
Proof.
  unfold retry_visit. rewrite <- (orb_assoc (retry_of retry u)). fold (badb u).
  fold (hit retry u). rewrite (eo_from _ _ HE u).
  destruct (hit retry u) eqn:Hhit.
  - destruct (inner_loop u (succs E u) (<[u:=true]> retry) (clear_node u d) next)
      as (retry' & -> & Hr).
    exists retry'. split; [done|]. intros w. rewrite Hr.
    assert (retry_of (<[u:=true]> retry) u = true) as -> by (unfold retry_of; by rewrite lookup_insert_eq).
    unfold retry_of at 1. rewrite lookup_insert.
    destruct (decide (u = w)) as [->|Hne].
    + rewrite (bool_decide_true (w = w)) by done. simpl. by rewrite orb_true_r.
    + by rewrite (bool_decide_false (w = u)) by done.
  - destruct (inner_loop u (succs E u) retry d next) as (retry' & -> & Hr).
    exists retry'. split; [done|]. intros w. rewrite Hr.
    unfold hit in Hhit. apply orb_false_iff in Hhit as [-> _]. done.
Qed.

(** ** One level *)

(** [d] is the store [dict g] with the nodes of [C] cleared. *)
Definition represents (C : gset Z) (d : gmap Z Node) : Prop :=
  forall w, d !! w = if decide (w ∈ C) then on_data SafeData.ClearState <$> dict g !! w
                     else dict g !! w.

Lemma clear_node_represents C d u :
  represents C d -> represents ({[u]} ∪ C) (clear_node u d).
Proof.
  intros H w. unfold clear_node. rewrite lookup_alter.
  destruct (decide (u = w)) as [->|Hne].
  - rewrite (decide_True (P := w ∈ {[w]} ∪ C)) by set_solver. rewrite H.
    case_decide; [|done]. by destruct (dict g !! w).
  - rewrite H. destruct (decide (w ∈ C)).
    + rewrite decide_True by set_solver. done.
    + rewrite decide_False by set_solver. done.
Qed.

Definition sound (retry : gmap Z bool) (C : gset Z) : Prop :=
  (forall w, retry_of retry w = true -> tainted w) /\ (forall w, w ∈ C -> tainted w).

Lemma tainted_edge u v : tainted u -> (u, v) ∈ E -> tainted v.
Proof.
  intros (b & Hb & Hbu) Huv. exists b. split; [done|]. eapply rtc_r; [done|exact Huv].
Qed.

Lemma hit_tainted retry C u : sound retry C -> hit retry u = true -> tainted u.
Proof.
  intros [Hs _] [H|H]%orb_true_iff; [by apply Hs|].
  exists u. split; [by apply badb_spec|apply rtc_refl].
Qed.

Lemma level_spec fr retry d next C :
  represents C d -> sound retry C ->
  exists retry' d' C',
    foldl (retry_visit (from_ g) status) ((retry, d), next) fr =
      ((retry', d'), next ++ (fr ≫= succs E)) /\
    represents C' d' /\ sound retry' C' /\ C ⊆ C' /\
    (forall w, retry_of retry w = true -> retry_of retry' w = true) /\
    (forall u, u ∈ fr -> hit retry u = true ->
       u ∈ C' /\ forall v, (u, v) ∈ E -> retry_of retry' v = true).
Proof.
  revert retry d next C. induction fr as [|u fr IH]; intros retry d next C Hrep Hs.
  { exists retry, d, C. rewrite app_nil_r. split_and!; try done.
    by intros u ?%elem_of_nil. }
  cbn [foldl]. destruct (retry_visit_spec retry d next u) as (r1 & -> & Hr1).
  set (C1 := if hit retry u then {[u]} ∪ C else C).
  destruct (IH r1 (if hit retry u then clear_node u d else d) (next ++ succs E u) C1)
    as (retry' & d' & C' & -> & Hrep' & Hs' & Hsub & Hmono & Hhit).
  { unfold C1. destruct (hit retry u); [by apply clear_node_represents|done]. }
  { split.
    - intros w. rewrite Hr1, orb_true_iff, andb_true_iff, orb_true_iff, !bool_decide_eq_true.
      intros [Hw|[Hh [->|Hw]]]; [by apply (proj1 Hs)|by eapply hit_tainted|].
      eapply tainted_edge; [by eapply hit_tainted|by apply elem_of_succs].
    - unfold C1. intros w. destruct (hit retry u) eqn:Hh; [|apply (proj2 Hs)].
      intros [->%elem_of_singleton|?]%elem_of_union; [by eapply hit_tainted|by apply (proj2 Hs)]. }
  assert (forall w, retry_of retry w = true -> retry_of r1 w = true) as Hmono1.
  { intros w Hw. by rewrite Hr1, Hw. }
  exists retry', d', C'. split_and!; try done.
  - by rewrite bind_cons, app_assoc.
  - unfold C1 in Hsub. destruct (hit retry u); set_solver.
  - auto.
  - intros w [->|Hw]%elem_of_cons Hh.
    + split; [unfold C1 in Hsub; rewrite Hh in Hsub; set_solver|].
      intros v Hv. apply Hmono. rewrite Hr1, Hh. simpl.
      rewrite (bool_decide_true (v ∈ succs E u)) by by apply elem_of_succs.
      by rewrite !orb_true_r.
    + apply Hhit; [done|]. unfold hit in *. apply orb_true_iff in Hh as [Hh|Hh].
      * by rewrite Hmono1.
      * rewrite Hh. by rewrite orb_true_r.
Qed.

(** ** The rounds *)

(** Nodes of level [k] that the walk itself knows to be tainted. *)
Fixpoint reached (roots : list Z) (k : nat) (v : Z) : Prop :=
  v ∈ level roots k /\
  (bad v \/ match k with 0 => False | S k' => exists u, reached roots k' u /\ (u, v) ∈ E end).

Lemma reached_level roots k v : reached roots k v -> v ∈ level roots k.
Proof. by destruct k; intros [? _]. Qed.

Lemma reached_path roots k u v :
  reached roots k u -> rtc (edge E) u v -> exists j, reached roots j v.
Proof.
  intros Hu Huv. revert k Hu. induction Huv as [u|u w v Huw _ IH]; intros k Hu; [by exists k|].
  apply (IH (S k)). split; [|by right; exists u].
  apply elem_of_level_S. exists u. split; [by apply (reached_level _ k)|done].
Qed.

Lemma retry_levels_spec roots fuel k retry d C :
  (forall r, r ∈ roots -> r ∈ nodes g) -> ~ cyclic E ->
  length (nodes g) <= k + fuel ->
  represents C d -> sound retry C ->
  (forall i v, i < k -> reached roots i v ->
     v ∈ C /\ forall w, (v, w) ∈ E -> retry_of retry w = true) ->
  exists retry' d' C',
    retry_levels (from_ g) status fuel (level roots k) (retry, d) = Some (retry', d') /\
    represents C' d' /\ sound retry' C' /\ (forall i v, reached roots i v -> v ∈ C').
Proof.
  intros Hroots Hac. revert k retry d C.
  induction fuel as [|fuel IH]; intros k retry d C Hfuel Hrep Hs Hinv;
    destruct (level roots k) as [|x fr] eqn:Hlev.
  1, 3: (exists retry, d, C; split_and!; [done|done|done|];
    intros i v Hv; destruct (decide (i < k)) as [Hi|Hi]; [by eapply Hinv|];
    apply reached_level in Hv; rewrite (level_nil roots k i) in Hv; [by apply elem_of_nil in Hv|lia|done]).
  - exfalso. assert (k < length (nodes g)) as Hk.
    { apply (level_bound roots k x); [done|done|]. rewrite Hlev. by left. }
    lia.
  - cbn [retry_levels]. rewrite <- Hlev.
    destruct (level_spec (level roots k) retry d [] C Hrep Hs)
      as (r1 & d1 & C1 & Heq & Hrep1 & Hs1 & Hsub & Hmono & Hhit).
    rewrite Heq. rewrite app_nil_l.
    destruct (IH (S k) r1 d1 C1) as (r' & d' & C' & Hl & H'); try done; [lia| |by exists r', d', C'].
    intros i v Hi Hv. destruct (decide (i < k)) as [Hik|Hik].
    { destruct (Hinv i v Hik Hv) as [HvC Hw]. split; [by apply Hsub|].
      intros w Hvw. by apply Hmono, Hw. }
    assert (i = k) as -> by lia. apply Hhit; [by apply reached_level|].
    unfold hit. apply orb_true_iff. destruct k as [|k]; destruct Hv as [Hvl [Hb|Hu]].
    + right. by apply badb_spec.
    + done.
    + right. by apply badb_spec.
    + destruct Hu as (u & Hu & Huv). left. apply (Hinv k u); [lia|done|done].
Qed.

(** ** Every node of an acyclic graph is on some level *)

Lemma every_node_has_level (roots : list Z) v :
  (forall r, r ∈ roots -> r ∈ nodes g) ->
  (forall w, w ∈ nodes g -> w ∉ roots -> preds E w <> []) ->
  ~ cyclic E -> v ∈ nodes g -> exists k, v ∈ level roots k.
Proof.
  intros Hroots Hpred Hac Hv.
  destruct (decide (Exists (fun k => v ∈ level roots k) (seq 0 (length (nodes g)))))
    as [Hex|Hno].
  { apply Exists_exists in Hex as (k & _ & Hk). by exists k. }
  exfalso. apply Hac.
  apply (pred_closed_cycle (edge E) (nodes g)
           (fun x => x ∈ nodes g /\ forall k, x ∉ level roots k) v).
  - split; [done|]. intros k Hk. apply Hno, Exists_exists. exists k. split; [|done].
    apply elem_of_seq. pose proof (level_bound roots k v Hroots Hac Hk). lia.
  - by intros x [? _].
  - intros x [Hx Hxl].
    pose proof (Hpred x Hx (Hxl 0)) as Hp.
    destruct (preds E x) as [|u us] eqn:Hpx; [done|].
    assert ((u, x) ∈ E) as Hux by (apply elem_of_preds; rewrite Hpx; by left).
    exists u. split; [|done]. split; [by apply (eo_nodes _ _ HE) in Hux as [? _]|].
    intros k Hk. apply (Hxl (S k)), elem_of_level_S. by exists u.
Qed.

(** ** [setupRetry] *)

Lemma setupRetry_correct :
  ~ cyclic E ->
  (forall v, v ∈ nodes g -> length (depends_of g v) = length (preds E v)) ->
  (forall v, is_Some (node g v) -> v ∈ nodes g) ->
  exists d,
    setupRetry g = Some (set_dict g d) /\
    forall v n, node g v = Some n ->
      (tainted v -> d !! v = Some (on_data SafeData.ClearState n)) /\
      (~ tainted v -> d !! v = Some n).
Proof.
  intros Hac Hdep Hdom.
  assert (forall r, r ∈ retry_roots g -> r ∈ nodes g) as Hroots.
  { intros r. unfold retry_roots. by intros [_ ?]%list_elem_of_filter. }
  destruct (retry_levels_spec (retry_roots g) (length (nodes g)) 0 ∅ (dict g) ∅)
    as (retry' & d & C & Hl & Hrep & [_ Hs] & Hreach); try done.
  { intros; lia. }
  exists d. unfold setupRetry. simpl in Hl. rewrite Hl. split; [done|].
  assert (forall v, tainted v -> v ∈ C) as Hcomplete.
  { intros v (u & Hb & Huv).
    assert (u ∈ nodes g) as Hu by (apply Hdom; destruct Hb as (n & Hn & _); by exists n).
    destruct (every_node_has_level (retry_roots g) u) as [k Hk]; try done.
    { intros w Hw Hnr Hp. apply Hnr. unfold retry_roots. apply list_elem_of_filter.
      split; [|done]. apply length_zero_iff_nil. by rewrite Hdep, Hp. }
    destruct (reached_path (retry_roots g) k u v) as [j Hj]; [|done|by apply (Hreach j)].
    destruct k; (split; [done|by left]). }
  intros v n Hn. unfold node in Hn. rewrite (Hrep v), Hn.
  split; intros Ht; case_decide as Hd; try done.
  - by destruct Hd; apply Hcomplete.
  - by destruct Ht; apply Hs.
Qed.

End retry.
