(* ===== verification/GraphProps.v ===== *)
(** * Properties of the execution graph

    The theorems about graph.go: cycle detection, the constructors, retry. *)

From S2P Require Import Prelude GoStrings Vars Digraph NodeData Node.
From S2P Require Import Graph GraphCycle GraphSetup GraphRetry.

(** ** Sample workflows *)

Definition named_step (name : string) (deps : list string) : Step.t :=
  Step.set_Depends (Step.set_Name Step.empty name) deps.

Definition diamond : list Step.t :=
  [named_step "a" []; named_step "b" ["a"]; named_step "c" ["a"]; named_step "d" ["b"; "c"]].

(** A range over the store of a graph of [k] fresh nodes, in ascending order. *)
Definition ascending (next : Z) (k : nat) : Z -> nat -> list Z :=
  fun _ _ => seqZ next (Z.of_nat k).

Definition diamond_graph : ExecutionGraph :=
  match NewExecutionGraph (ascending 1 4) 1 diamond with
  | (_, Some (Ok g)) => g
  | _ => empty_graph
  end.

Definition diamond_edges : edges := [(1, 2); (1, 3); (2, 4); (3, 4)]%Z.

Lemma fresh_steps steps :
  Forall (fun n => n_id n = 0%Z) ((fun step => NewNode step NodeState.zero) <$> steps).
Proof. apply Forall_fmap, Forall_forall. done. Qed.

(** C1: on a graph whose adjacency maps record the edges [E], [hasCycle] always
    answers, and answers true exactly when some node reaches itself along one
    or more edges. *)
Theorem hasCycle_iff_cyclic (g : ExecutionGraph) (E : edges) (HE : edges_of g E) :
  exists b, hasCycle g = Some b /\ (b = true <-> exists v, tc (edge E) v v).
Proof. exact (hasCycle_spec g E HE). Qed.

Lemma diamond_edges_of : edges_of diamond_graph diamond_edges.
Proof.
  split.
  - intros u. destruct (decide (u ∈ [1; 2; 3; 4]%Z)) as [Hu|Hu].
    + repeat (apply elem_of_cons in Hu as [->|Hu]; [vm_compute; reflexivity|]).
      by apply elem_of_nil in Hu.
    + rewrite !not_elem_of_cons in Hu. destruct Hu as (? & ? & ? & ? & _).
      unfold diamond_graph, adj. transitivity (@nil Z).
      * change (from_ _) with (from_ diamond_graph).
        replace (from_ diamond_graph) with
          (<[1 := [2; 3]]> (<[2 := [4]]> (<[3 := [4]]> (∅ : gmap Z (list Z)))))%Z
          by (vm_compute; reflexivity).
        rewrite !lookup_insert_ne, lookup_empty by done. done.
      * unfold succs, diamond_edges. rewrite !filter_cons_False by (simpl; congruence). done.
  - intros u. destruct (decide (u ∈ [1; 2; 3; 4]%Z)) as [Hu|Hu].
    + repeat (apply elem_of_cons in Hu as [->|Hu]; [vm_compute; reflexivity|]).
      by apply elem_of_nil in Hu.
    + rewrite !not_elem_of_cons in Hu. destruct Hu as (? & ? & ? & ? & _).
      unfold adj. transitivity (@nil Z).
      * replace (to_ diamond_graph) with
          (<[2 := [1]]> (<[3 := [1]]> (<[4 := [2; 3]]> (∅ : gmap Z (list Z)))))%Z
          by (vm_compute; reflexivity).
        rewrite !lookup_insert_ne, lookup_empty by done. done.
      * unfold preds, diamond_edges. rewrite !filter_cons_False by (simpl; congruence). done.
  - replace (nodes diamond_graph) with [1; 2; 3; 4]%Z by (vm_compute; reflexivity).
    repeat constructor; set_solver.
  - replace (nodes diamond_graph) with [1; 2; 3; 4]%Z by (vm_compute; reflexivity).
    intros u v H. unfold diamond_edges in H. set_solver.
Qed.

Lemma hasCycle_iff_cyclic_witness :
  hasCycle diamond_graph = Some false /\
  exists b, hasCycle diamond_graph = Some b /\
            (b = true <-> exists v, tc (edge diamond_edges) v v).
Proof.
  split; [vm_compute; reflexivity|].
  exact (hasCycle_iff_cyclic diamond_graph diamond_edges diamond_edges_of).
Defined.

(** C2: [NewExecutionGraph] on any steps and any range order of the node store
    returns: either a graph with one node per step, in order, whose edges are
    the declared dependencies (each name resolved to a node of that name) and
    which has no cycle; or the cycle error, when the resolved dependencies have
    a cycle; or the step-not-found error of a dependency that names no step. It
    never fails to return. *)
Theorem NewExecutionGraph_outcome (order : Z -> nat -> list Z) (next : Z) (steps : list Step.t)
    (Hnext : (0 < next)%Z)
    (Horder : forall id i u, u ∈ order id i <-> u ∈ seqZ next (Z.of_nat (length steps))) :
  exists g0,
    fresh_graph next ((fun step => NewNode step NodeState.zero) <$> steps) g0 /\
    setup_outcome order g0 (snd (NewExecutionGraph order next steps)).
Proof.
  pose proof (add_nodes_fresh_graph next _ Hnext (fresh_steps steps)) as Hg.
  unfold NewExecutionGraph. destruct (add_nodes next _ empty_graph) as [next' g].
  exists g. split; [done|]. simpl in Hg. apply setup_spec.
  - eapply fresh_graph_wf; [|done]. by rewrite length_fmap.
  - apply (fg_unlinked _ _ _ Hg).
Qed.

Lemma NewExecutionGraph_outcome_witness :
  (0 < 1)%Z /\
  exists g0,
    fresh_graph 1 ((fun step => NewNode step NodeState.zero) <$> diamond) g0 /\
    setup_outcome (ascending 1 4) g0 (snd (NewExecutionGraph (ascending 1 4) 1 diamond)).
Proof.
  split; [done|]. apply (NewExecutionGraph_outcome (ascending 1 4) 1 diamond); done.
Defined.

(** C3: [CreateRetryExecutionGraph] on the nodes of a previous run returns, when
    their dependencies resolve without a cycle, a graph in which exactly the
    nodes reachable from a failed or cancelled node have their state cleared;
    every other node keeps the data of the previous run. The level walk
    terminates. *)
Theorem CreateRetryExecutionGraph_clears (order : Z -> nat -> list Z) (next : Z) (ns : list Node)
    (Hnext : (0 < next)%Z) (Hns : Forall (fun n => n_id n = 0%Z) ns)
    (Horder : forall id i u, u ∈ order id i <-> u ∈ seqZ next (Z.of_nat (length ns))) :
  exists g0,
    fresh_graph next ns g0 /\
    match snd (CreateRetryExecutionGraph order next ns) with
    | Some (Ok g) =>
        nodes g = nodes g0 /\
        exists g1 E, setup order g0 = Some (Ok g1) /\ edges_of g1 E /\ resolves g0 E /\
          forall v n, node g0 v = Some n ->
            (tainted g1 E v -> node g v = Some (on_data SafeData.ClearState n)) /\
            (~ tainted g1 E v -> node g v = Some n)
    | r => setup order g0 = r /\ setup_outcome order g0 r
    end.
Proof.
  pose proof (add_nodes_fresh_graph next ns Hnext Hns) as Hg.
  unfold CreateRetryExecutionGraph. destruct (add_nodes next ns empty_graph) as [next' g0].
  simpl in Hg. exists g0. split; [done|]. simpl.
  pose proof (setup_spec order g0 (fresh_graph_wf order _ _ _ Horder Hg) (fg_unlinked _ _ _ Hg))
    as Hs.
  destruct (setup order g0) as [[g1|e]|] eqn:Hset; [|done|done].
  destruct Hs as ([Hn Hd] & E & HE & Hres & Hac).
  destruct (setupRetry_correct g1 E HE Hac) as (d & -> & Hd').
  - intros v Hv. rewrite (same_nodes_depends g0 g1) by done. rewrite Hn in Hv.
    by eapply Forall2_length, Hres.
  - intros v. rewrite Hn. unfold node. rewrite Hd. apply (fg_dom _ _ _ Hg).
  - split; [done|]. exists g1, E. split_and!; [done..|].
    intros v n Hv. apply Hd'. unfold node in *. by rewrite Hd.
Qed.

(** A previous run of the diamond in which step "b" failed. *)
Definition ran (name : string) (deps : list string) (s : NodeStatus) : Node :=
  NewNode (named_step name deps) (NodeState.set_Status NodeState.zero s).
Definition diamond_run : list Node :=
  [ran "a" [] NodeStatusSuccess; ran "b" ["a"] NodeStatusError;
   ran "c" ["a"] NodeStatusSuccess; ran "d" ["b"; "c"] NodeStatusCancel].

Example diamond_retry :
  match snd (CreateRetryExecutionGraph (ascending 1 4) 1 diamond_run) with
  | Some (Ok g) => node_Status <$> Nodes g
  | _ => []
  end = [NodeStatusSuccess; NodeStatusNone; NodeStatusSuccess; NodeStatusNone].
Proof. vm_compute. reflexivity. Qed.

Lemma CreateRetryExecutionGraph_clears_witness :
  (0 < 1)%Z /\
  exists g0,
    fresh_graph 1 diamond_run g0 /\
    match snd (CreateRetryExecutionGraph (ascending 1 4) 1 diamond_run) with
    | Some (Ok g) =>
        nodes g = nodes g0 /\
        exists g1 E, setup (ascending 1 4) g0 = Some (Ok g1) /\ edges_of g1 E /\ resolves g0 E /\
          forall v n, node g0 v = Some n ->
            (tainted g1 E v -> node g v = Some (on_data SafeData.ClearState n)) /\
            (~ tainted g1 E v -> node g v = Some n)
    | r => setup (ascending 1 4) g0 = r /\ setup_outcome (ascending 1 4) g0 r
    end.
Proof.
  split; [done|].
  apply (CreateRetryExecutionGraph_clears (ascending 1 4) 1 diamond_run);
    [done|repeat constructor|done].
Defined.
