(* ===== verification/Sched.v ===== *)
(** * The scheduler: internal/digraph/scheduler/scheduler.go

    [Schedule] runs a main loop, one goroutine per launched step, and a
    concurrent [Signal] or [Cancel].  Each is a program counter with its local
    variables; a step of the system is one access to the shared state (every
    access takes a lock, so it is atomic), made by one of them.  Steps are
    functions of a [world], the answers of the outside at that moment, so a
    schedule can be executed. *)

From S2P Require Import Prelude GoStrings Vars Digraph NodeData CmdUtil Eval Matcher Contexts.
From S2P Require Import Node Graph.

(** ** Status of a run *)

Inductive Status := StatusNone | StatusRunning | StatusError | StatusCancel | StatusSuccess.

#[export] Instance Status_eq_dec : EqDecision Status.
Proof. solve_decision. Defined.

Definition Status_String (s : Status) : string :=
  match s with
  | StatusRunning => "running"
  | StatusError => "failed"
  | StatusCancel => "canceled"
  | StatusSuccess => "finished"
  | StatusNone => "not started"
  end.

Definition ErrUpstreamFailed : error := ENew "upstream failed".
Definition ErrUpstreamSkipped : error := ENew "upstream skipped".

(** ** Configuration *)

Record Config := mkConfig {
  LogDir : string;
  MaxActiveRuns : Z;
  Timeout : Z;
  Delay : Z;
  Dry : bool;
  OnExit : option Step.t;
  OnSuccess : option Step.t;
  OnFailure : option Step.t;
  OnCancel : option Step.t;
  ReqID : string
}.

(** ** The outside of one step *)

Record world := mkWorld {
  w_now : Z;
  w_lookupEnv : string -> option string;
  w_jq : string -> string -> option string;
  w_runCommand : string -> result string;
  w_compile : string -> option (string -> bool);
  w_order : SyncMap.t -> list (string * string);
  w_shell : string -> string;
  w_exec : string -> option error;
  w_exec_shell : string -> string -> option error;
  w_open_log : string -> log_file;
  w_scan_error : error;
  w_openOrCreate : string -> option error;
  w_mkdirAll : string -> option error;
  w_fileExists : string -> bool;
  w_rune_lower : Z -> Z;
  w_is_print : Z -> bool;
  w_fmt_time : Z -> string;
  w_newExecutor : Step.t -> result Executor;
  w_pipeErr : option error;
  w_flush : string -> option error;
  w_sync : string -> option error;
  w_signalNum : string -> Z;
  (** a panic of the running command *)
  w_panic : option error
}.

Section calls.
Context (w : world).

Definition w_step_eval (c : ctx) (o : list (EvalOptions -> EvalOptions)) (s : string) : result string :=
  step_EvalString (w_lookupEnv w) (w_jq w) (w_runCommand w) (w_order w) (GetStepContext c) s o.

Definition w_EvalConditions (c : ctx) (conds : list Condition.t) : option error :=
  EvalConditions (w_lookupEnv w) (w_jq w) (w_runCommand w) (w_compile w) (w_order w)
    (w_shell w "") (w_exec w) (w_exec_shell w) c conds.

Definition w_shouldContinue (n : Node) : bool * Node :=
  shouldContinue (w_compile w) (w_open_log w) (w_scan_error w) n.

Definition w_shouldMarkSuccess (n : Node) : bool * Node :=
  shouldMarkSuccess (w_compile w) (w_open_log w) (w_scan_error w) n.

Definition w_Setup (logDir reqID : string) (c : ctx) (n : Node) : Node * option error :=
  Node.Setup (w_step_eval c []) (fun s => EvalIntString (w_lookupEnv w) (w_jq w) (w_runCommand w) s [])
    (w_openOrCreate w) (w_mkdirAll w) (w_fileExists w) (w_rune_lower w) (w_is_print w)
    (w_fmt_time w) logDir reqID (w_now w) n.

Definition w_setupExecutor (c : ctx) (n : Node) : Node * result Executor :=
  setupExecutor (w_step_eval c [WithoutExpandEnv]) (w_newExecutor w) (w_shell w) (w_pipeErr w) n.

Definition w_Execute (c : ctx) (n : Node) : Node * option error :=
  Execute (w_step_eval c [WithoutExpandEnv]) (w_newExecutor w) (w_shell w) (w_pipeErr w) n.

Definition w_Teardown (n : Node) : Node * option error := Teardown (w_flush w) (w_sync w) n.

(** [SetupContextBeforeExec]. *)
Definition SetupContextBeforeExec (c : ctx) (n : Node) : ctx :=
  let log := SafeData.Log (n_data n) in
  WithStepContext c
    (StepContext.WithEnv EnvKeyDAGStepLogPath log
      (StepContext.WithEnv EnvKeyLogPath log (GetStepContext c))).

(** ** Contexts of steps and handlers *)

Definition load_outputs (sc : StepContext.t) (n : Node) : StepContext.t :=
  match Step.OutputVariables (SafeData.GetStep (n_data n)) with
  | None => sc
  | Some m => StepContext.LoadOutputVariables (w_order w m) sc
  end.

(** The queue loop of [setupContext], from the node up through its
    dependencies; [None] when the fuel runs out. *)
Fixpoint upstream_loop (g : ExecutionGraph) (fuel : nat) (visited : gset Z) (queue : list Z)
    (sc : StepContext.t) : option StepContext.t :=
  match queue with
  | [] => Some sc
  | curr :: queue =>
      match fuel with
      | 0 => None
      | S k =>
          if decide (curr ∈ visited) then upstream_loop g k visited queue sc
          else
            let queue := queue ++ adj (to_ g) curr in
            let sc := match node g curr with Some n => load_outputs sc n | None => sc end in
            upstream_loop g k ({[curr]} ∪ visited) queue sc
      end
  end.

(** Every visited node adds its dependencies once. *)
Definition upstream_fuel (g : ExecutionGraph) : nat :=
  S (sum_list_with (fun id => length (adj (to_ g) id)) (nodes g)).

Definition setupContext (c : ctx) (g : ExecutionGraph) (n : Node) : option ctx :=
  WithStepContext c <$>
    upstream_loop g (upstream_fuel g) ∅ [n_id n] (NewStepContext c (SafeData.GetStep (n_data n))).

Definition buildStepContextForHandler (c : ctx) (g : ExecutionGraph) (n : Node) : ctx :=
  WithStepContext c
    (foldl load_outputs (NewStepContext c (SafeData.GetStep (n_data n))) (Nodes g)).

End calls.

Section scheduler.
Context (cfg : Config).
(** Whether the caller passed a channel for finished nodes. *)
Context (has_done : bool).

(** [setupNode] and [teardownNode] do nothing in a dry run. *)
Definition setupNode (w : world) (c : ctx) (n : Node) : Node * option error :=
  if Dry cfg then (n, None) else w_Setup w (LogDir cfg) (ReqID cfg) c n.
Definition teardownNode (w : world) (n : Node) : Node * option error :=
  if Dry cfg then (n, None) else w_Teardown w n.

Definition exec_error (n : Node) (e : error) : error :=
  EWrap ("failed to execute step " +:+ node_Name n +:+ ": ") e "".

Definition isTimeout (now startedAt : Z) : bool :=
  (0 <? Timeout cfg)%Z && (Timeout cfg <? int64 (now - startedAt))%Z.

(** ** Goroutines *)

(** Where the goroutine of a step is; [e] is [execErr]. *)
Inductive pc :=
| PSetupContext
| PPrecond
| PSkipErr (e : error)
| PSetup
| PSetupLast (e : error)
| PSetupMark (e : error)
| PLoop (setupSucceed : bool)
| PExec
| PRun (cmd : Executor)
| PAfterExec (e : error)
| PTimeoutChk (e : error)
| PTimeoutSet (e : error)
| PCancelChk (e : error)
| PRetryChk (e : error)
| PRetryInc (e : error)
| PRetryAt (e : error)
| PRetryNone (e : error)
| PFail (e : error)
| PMarkChk (e : error)
| PMarkSuccess (e : error)
| PMarkError (e : error)
| PLastErr (e : error)
| PCount (e : option error)
| PCountInc (e : option error)
| PRepeat (e : option error)
| PFinish
| PFinishSet
| PTeardown
| PTeardownLast (e : error)
| PTeardownErr
| PDeferTeardown (p : option error)
| PDeferFinish (p : option error)
| PWgDone (p : option error)
| PRecoverMark (e : error)
| PRecoverLast (e : error).

(** What a step of a goroutine does: the node it leaves, the error it passes to
    [setLastError], whether it sends the node on the channel, and where it goes
    ([None]: the goroutine has ended). *)
Record effect := mkEffect {
  ef_node : Node;
  ef_last : option error;
  ef_send : bool;
  ef_next : option (ctx * pc)
}.

Definition goto (n : Node) (c : ctx) (p : pc) : option effect :=
  Some (mkEffect n None false (Some (c, p))).

Definition goto_last (n : Node) (e : error) (c : ctx) (p : pc) : option effect :=
  Some (mkEffect n (Some e) false (Some (c, p))).

Definition goto_send (n : Node) (c : ctx) (p : pc) : option effect :=
  Some (mkEffect n None has_done (Some (c, p))).

Definition step_of (n : Node) : Step.t := SafeData.GetStep (n_data n).

(** The test of the repeat policy at the end of an iteration. *)
Definition repeats (n : Node) (e : option error) : bool :=
  RepeatPolicy.Repeat (Step.RepeatPolicy (step_of n)) &&
  (bool_decide (e = None) || ContinueOn.Failure (Step.ContinueOn (step_of n))).

Definition gostep (w : world) (g : ExecutionGraph) (canceled : bool) (n : Node) (c : ctx) (p : pc)
    : option effect :=
  match p with
  | PSetupContext =>
      match setupContext w c g n with
      | Some c => goto n c PPrecond
      | None => None
      end
  | PPrecond =>
      match w_EvalConditions w c (Step.Preconditions (step_of n)) with
      | Some e => goto (node_SetStatus NodeStatusSkipped n) c (PSkipErr e)
      | None => goto n c PSetup
      end
  | PSkipErr e =>
      goto_send (on_data (fun d => SafeData.SetError d (Some e)) n) c (PDeferFinish None)
  | PSetup =>
      match setupNode w c n with
      | (n, Some e) => goto n c (PSetupLast e)
      | (n, None) => goto n (SetupContextBeforeExec c n) (PLoop true)
      end
  | PSetupLast e => goto_last n e c (PSetupMark e)
  | PSetupMark e =>
      let n := on_data (fun d => SafeData.MarkError d (Some e)) n in
      goto n (SetupContextBeforeExec c n) (PLoop false)
  | PLoop setupSucceed => goto n c (if setupSucceed && negb canceled then PExec else PFinish)
  | PExec =>
      if Dry cfg then goto n c (PCount None)
      else match w_setupExecutor w c n with
           | (n, Err e) => goto n c (PAfterExec (exec_error n e))
           | (n, Ok cmd) => goto n c (PRun cmd)
           end
  | PRun cmd =>
      match w_panic w with
      | Some e => goto n c (PDeferTeardown (Some e))
      | None =>
          match finishExecute cmd n with
          | (n, Some e) => goto n c (PAfterExec (exec_error n e))
          | (n, None) => goto n c (PCount None)
          end
      end
  | PAfterExec e =>
      match node_Status n with
      | NodeStatusSuccess | NodeStatusCancel => goto n c (PCount (Some e))
      | _ => goto n c (PTimeoutChk e)
      end
  | PTimeoutChk e =>
      goto n c (if isTimeout (w_now w) (startedAt g) then PTimeoutSet e else PCancelChk e)
  | PTimeoutSet e => goto (node_SetStatus NodeStatusCancel n) c (PLastErr e)
  | PCancelChk e => goto n c (if canceled then PLastErr e else PRetryChk e)
  | PRetryChk e =>
      goto n c (if (SafeData.GetRetryCount (n_data n) <? rp_Limit (n_retryPolicy n))%Z
                then PRetryInc e else PFail e)
  | PRetryInc e => goto (on_data SafeData.IncRetryCount n) c (PRetryAt e)
  | PRetryAt e => goto (on_data (fun d => SafeData.SetRetriedAt d (w_now w)) n) c (PRetryNone e)
  | PRetryNone e => goto (node_SetStatus NodeStatusNone n) c (PCount (Some e))
  | PFail e => goto (node_SetStatus NodeStatusError n) c (PMarkChk e)
  | PMarkChk e =>
      match w_shouldMarkSuccess w n with
      | (true, n) => goto n c (PMarkSuccess e)
      | (false, n) => goto n c (PMarkError e)
      end
  | PMarkSuccess e => goto (node_SetStatus NodeStatusSuccess n) c (PCount (Some e))
  | PMarkError e => goto (on_data (fun d => SafeData.MarkError d (Some e)) n) c (PLastErr e)
  | PLastErr e => goto_last n e c (PCount (Some e))
  | PCount e =>
      goto n c (if bool_decide (node_Status n = NodeStatusCancel) then PRepeat e else PCountInc e)
  | PCountInc e => goto (on_data SafeData.IncDoneCount n) c (PRepeat e)
  | PRepeat e =>
      if repeats n e && negb canceled then goto_send n c (PLoop true)
      else if bool_decide (is_Some e) && has_done then goto_send n c (PDeferTeardown None)
      else goto n c PFinish
  | PFinish =>
      goto n c (if bool_decide (node_Status n = NodeStatusRunning) then PFinishSet else PTeardown)
  | PFinishSet => goto (node_SetStatus NodeStatusSuccess n) c PTeardown
  | PTeardown =>
      match teardownNode w n with
      | (n, Some e) => goto n c (PTeardownLast e)
      | (n, None) => goto_send n c (PDeferTeardown None)
      end
  | PTeardownLast e => goto_last n e c PTeardownErr
  | PTeardownErr => goto_send (node_SetStatus NodeStatusError n) c (PDeferTeardown None)
  | PDeferTeardown p => goto (fst (teardownNode w n)) c (PDeferFinish p)
  | PDeferFinish p => goto (on_data (SafeData.Finish (w_now w)) n) c (PWgDone p)
  | PWgDone None => Some (mkEffect n None false None)
  | PWgDone (Some e) => goto n c (PRecoverMark e)
  | PRecoverMark e => goto (on_data (fun d => SafeData.MarkError d (Some e)) n) c (PRecoverLast e)
  | PRecoverLast e => Some (mkEffect n (Some e) false None)
  end.

(** ** The main loop *)

(** Why a node is not ready, and what [isReady] writes to it. *)
Inductive block := BlockFailed | BlockSkipped | BlockCancel.

Definition block_status (b : block) : NodeStatus :=
  match b with
  | BlockFailed => NodeStatusCancel
  | BlockSkipped => NodeStatusSkipped
  | BlockCancel => NodeStatusCancel
  end.

Definition block_error (b : block) : option error :=
  match b with
  | BlockFailed => Some ErrUpstreamFailed
  | BlockSkipped => Some ErrUpstreamSkipped
  | BlockCancel => None
  end.

(** Where the main goroutine is.  [id] is the node being looked at, [rest] the
    nodes left of the pass, [deps] the dependencies left, [todo] the nodes left
    of a scan over all of them. *)
Inductive mpc :=
| MFinished (todo : list Z)
| MCancelChk
| MIter (rest : list Z)
| MReady (id : Z) (deps : list Z) (ready : bool) (rest : list Z)
| MContinue (id dep : Z) (b : block) (deps : list Z) (ready : bool) (rest : list Z)
| MBlock (id : Z) (b : block) (deps : list Z) (rest : list Z)
| MBlockErr (id : Z) (e : error) (deps : list Z) (rest : list Z)
| MCancelChk2 (id : Z) (rest : list Z)
| MCount (id : Z) (todo : list Z) (count : Z) (rest : list Z)
| MLaunch (id : Z) (rest : list Z)
| MWait
| MStatus
| MHandlers (hs : list HandlerType)
| MReturn (e : option error).

(** A call of [Signal] or [Cancel]: it sets the flag, then visits the nodes; a
    running node is signalled and, in a second access, marked cancelled. *)
Inductive sigpc :=
| SStart (sig : Z) (allowOverride : bool)
| SNodes (sig : Z) (allowOverride : bool) (todo : list Z)
| SMark (sig : Z) (allowOverride : bool) (id : Z) (todo : list Z)
| CStart
| CNodes (todo : list Z)
| CMark (id : Z) (todo : list Z).

Record state := mkState {
  graph : ExecutionGraph;
  canceled : bool;
  lastError : option error;
  handlers : list (HandlerType * Node);
  threads : list (Z * (ctx * pc));
  main : mpc;
  sigs : list sigpc;
  sent : list Z
}.

Definition on_node (f : Node -> Node) (id : Z) (g : ExecutionGraph) : ExecutionGraph :=
  set_dict g (alter f id (dict g)).

Definition set_graph (s : state) (g : ExecutionGraph) : state :=
  mkState g (canceled s) (lastError s) (handlers s) (threads s) (main s) (sigs s) (sent s).
Definition set_main (s : state) (m : mpc) : state :=
  mkState (graph s) (canceled s) (lastError s) (handlers s) (threads s) m (sigs s) (sent s).
Definition set_threads (s : state) (ts : list (Z * (ctx * pc))) : state :=
  mkState (graph s) (canceled s) (lastError s) (handlers s) ts (main s) (sigs s) (sent s).
Definition set_sigs (s : state) (l : list sigpc) : state :=
  mkState (graph s) (canceled s) (lastError s) (handlers s) (threads s) (main s) l (sent s).
Definition setCanceled (s : state) : state :=
  mkState (graph s) true (lastError s) (handlers s) (threads s) (main s) (sigs s) (sent s).
Definition setLastError (s : state) (e : option error) : state :=
  mkState (graph s) (canceled s) e (handlers s) (threads s) (main s) (sigs s) (sent s).

Definition status_of (g : ExecutionGraph) (id : Z) : NodeStatus :=
  match node g id with Some n => node_Status n | None => NodeStatusNone end.

(** [New] and [setup]: the handler nodes. *)
Definition handler_node (o : option Step.t) (h : HandlerType) : list (HandlerType * Node) :=
  match o with Some s => [(h, NewNode s NodeState.zero)] | None => [] end.

Definition setup_handlers : list (HandlerType * Node) :=
  handler_node (OnExit cfg) HandlerOnExit ++ handler_node (OnSuccess cfg) HandlerOnSuccess ++
  handler_node (OnFailure cfg) HandlerOnFailure ++ handler_node (OnCancel cfg) HandlerOnCancel.

Definition setup_error (w : world) : option error :=
  if Dry cfg then None
  else match w_mkdirAll w (LogDir cfg) with
       | Some e => Some (EWrap "failed to create log directory: " e "")
       | None => None
       end.

(** [Schedule] up to its loop; [canceled] and [lastError] are the fields of the
    scheduler it is called on. *)
Definition Schedule (w : world) (canceled : bool) (lastError : option error) (g : ExecutionGraph)
    : result state :=
  match setup_error w with
  | Some e => Err e
  | None =>
      Ok (mkState (Start (w_now w) g) canceled lastError setup_handlers []
                  (MFinished (nodes g)) [] [])
  end.

(** [Scheduler.Status]. *)
Definition isSucceed (g : ExecutionGraph) : bool :=
  forallb (fun n => bool_decide (node_Status n = NodeStatusSuccess) ||
                    bool_decide (node_Status n = NodeStatusSkipped)) (Nodes g).
Definition isError (s : state) : bool := bool_decide (is_Some (lastError s)).

Definition SchedulerStatus (s : state) : Status :=
  if canceled s && negb (isSucceed (graph s)) then StatusCancel
  else if negb (IsStarted (graph s)) then StatusNone
  else if IsRunning (graph s) then StatusRunning
  else if isError s then StatusError
  else StatusSuccess.

(** The handlers to run after the steps. *)
Definition status_handlers (s : Status) : list HandlerType :=
  match s with
  | StatusSuccess => [HandlerOnSuccess]
  | StatusError => [HandlerOnFailure]
  | StatusCancel => [HandlerOnCancel]
  | StatusNone | StatusRunning => []
  end ++ [HandlerOnExit].

Definition HandlerNode (s : state) (h : HandlerType) : option Node :=
  snd <$> find (fun e => bool_decide (fst e = h)) (handlers s).

Definition set_handler (h : HandlerType) (n : Node) (hs : list (HandlerType * Node))
    : list (HandlerType * Node) :=
  (fun e => if bool_decide (fst e = h) then (h, n) else e) <$> hs.

(** [runHandlerNode]; only this goroutine touches the node. *)
Definition runHandlerNode (w : world) (c : ctx) (g : ExecutionGraph) (n : Node)
    : Node * option error :=
  let finish n := on_data (SafeData.Finish (w_now w)) n in
  let n := node_SetStatus NodeStatusRunning n in
  if Dry cfg then (finish (node_SetStatus NodeStatusSuccess n), None)
  else match w_Setup w (LogDir cfg) (ReqID cfg) c n with
       | (n, Some _) => (finish (node_SetStatus NodeStatusError n), None)
       | (n, None) =>
           match w_Execute w (buildStepContextForHandler w c g n) n with
           | (n, Some e) =>
               (finish (fst (w_Teardown w (node_SetStatus NodeStatusError n))), Some e)
           | (n, None) =>
               (finish (fst (w_Teardown w (node_SetStatus NodeStatusSuccess n))), None)
           end
       end.

(** The context [Schedule] was called with. *)
Context (ctx0 : ctx).

(** What the status of a dependency says about the node: go on, wait, ask
    [shouldContinue], or block. *)
Definition dep_action (s : NodeStatus) : option (bool * block) :=
  match s with
  | NodeStatusError => Some (true, BlockFailed)
  | NodeStatusSkipped => Some (true, BlockSkipped)
  | NodeStatusCancel => Some (false, BlockCancel)
  | NodeStatusSuccess | NodeStatusNone | NodeStatusRunning => None
  end.

(** [isReady] as one function: the loop over the dependencies. The main loop
    runs it one access at a time. *)
Definition block_node (id : Z) (b : block) (g : ExecutionGraph) : ExecutionGraph :=
  let g := on_node (node_SetStatus (block_status b)) id g in
  match block_error b with
  | Some e => on_node (on_data (fun d => SafeData.SetError d (Some e))) id g
  | None => g
  end.

Definition isReady_dep (w : world) (id : Z) (acc : bool * ExecutionGraph) (dep : Z)
    : bool * ExecutionGraph :=
  let '(ready, g) := acc in
  match dep_action (status_of g dep) with
  | None => (ready && bool_decide (status_of g dep = NodeStatusSuccess), g)
  | Some (false, b) => (false, block_node id b g)
  | Some (true, b) =>
      match node g dep with
      | None => (ready, g)
      | Some d =>
          let '(cont, d) := w_shouldContinue w d in
          let g := on_node (fun _ => d) dep g in
          if cont : bool then (ready, g) else (false, block_node id b g)
      end
  end.

Definition isReady (w : world) (g : ExecutionGraph) (id : Z) : bool * ExecutionGraph :=
  foldl (isReady_dep w id) (true, g) (adj (to_ g) id).

(** [isFinished] and [runningCount] as functions; the main loop scans the nodes
    one access at a time. *)
Definition isFinished (g : ExecutionGraph) : bool :=
  forallb (fun n => negb (bool_decide (node_Status n = NodeStatusRunning) ||
                          bool_decide (node_Status n = NodeStatusNone))) (Nodes g).

Definition runningCount (g : ExecutionGraph) : Z :=
  Z.of_nat (length (filter (fun n => node_Status n = NodeStatusRunning) (Nodes g))).

(** Goroutines the wait group still counts. *)
Definition counted (t : Z * (ctx * pc)) : bool :=
  match snd (snd t) with PRecoverMark _ | PRecoverLast _ => false | _ => true end.

Definition set_status_of (id : Z) (st : NodeStatus) (g : ExecutionGraph) : ExecutionGraph :=
  on_node (node_SetStatus st) id g.

Definition mstep (w : world) (s : state) : option state :=
  let g := graph s in
  let go m := Some (set_main s m) in
  match main s with
  | MFinished [] => go MWait
  | MFinished (id :: todo) =>
      match status_of g id with
      | NodeStatusRunning | NodeStatusNone => go MCancelChk
      | _ => go (MFinished todo)
      end
  | MCancelChk => go (if canceled s then MWait else MIter (nodes g))
  | MIter [] => go (MFinished (nodes g))
  | MIter (id :: rest) =>
      go (if bool_decide (status_of g id = NodeStatusNone)
          then MReady id (adj (to_ g) id) true rest else MIter rest)
  | MReady id [] ready rest => go (if ready then MCancelChk2 id rest else MIter rest)
  | MReady id (dep :: deps) ready rest =>
      match dep_action (status_of g dep) with
      | Some (true, b) => go (MContinue id dep b deps ready rest)
      | Some (false, b) => go (MBlock id b deps rest)
      | None =>
          go (MReady id deps
                (ready && bool_decide (status_of g dep = NodeStatusSuccess)) rest)
      end
  | MContinue id dep b deps ready rest =>
      match node g dep with
      | None => None
      | Some d =>
          let '(cont, d) := w_shouldContinue w d in
          Some (set_main (set_graph s (on_node (fun _ => d) dep g))
                  (if cont : bool then MReady id deps ready rest else MBlock id b deps rest))
      end
  | MBlock id b deps rest =>
      Some (set_main (set_graph s (set_status_of id (block_status b) g))
              (match block_error b with
               | Some e => MBlockErr id e deps rest
               | None => MReady id deps false rest
               end))
  | MBlockErr id e deps rest =>
      Some (set_main (set_graph s (on_node (on_data (fun d => SafeData.SetError d (Some e))) id g))
              (MReady id deps false rest))
  | MCancelChk2 id rest =>
      go (if canceled s then MIter []
          else if (0 <? MaxActiveRuns cfg)%Z then MCount id (nodes g) 0 rest
          else MLaunch id rest)
  | MCount id [] count rest =>
      go (if (MaxActiveRuns cfg <=? count)%Z then MIter rest else MLaunch id rest)
  | MCount id (x :: todo) count rest =>
      go (MCount id todo
            (if bool_decide (status_of g x = NodeStatusRunning) then count + 1 else count)%Z rest)
  | MLaunch id rest =>
      Some (set_main
              (set_threads (set_graph s (set_status_of id NodeStatusRunning g))
                 (threads s ++ [(id, (ctx0, PSetupContext))]))
              (MIter rest))
  | MWait => if existsb counted (threads s) then None else go MStatus
  | MStatus => go (MHandlers (status_handlers (SchedulerStatus s)))
  | MHandlers [] =>
      Some (set_main (set_graph s (Finish (w_now w) g)) (MReturn (lastError s)))
  | MHandlers (h :: hs) =>
      match HandlerNode s h with
      | None => go (MHandlers hs)
      | Some n =>
          let '(n, err) := runHandlerNode w ctx0 g n in
          Some (mkState g (canceled s)
                  (match err with Some e => Some e | None => lastError s end)
                  (set_handler h n (handlers s)) (threads s) (MHandlers hs) (sigs s)
                  (sent s ++ (if has_done then [n_id n] else [])))
      end
  | MReturn _ => None
  end.

(** ** Signals *)

Definition repeating (g : ExecutionGraph) (id : Z) : bool :=
  match node g id with Some n => RepeatPolicy.Repeat (Step.RepeatPolicy (step_of n)) | None => false end.

(** One access of a [Signal] or [Cancel] call: whether it sets the flag, the
    node it marks cancelled, and where it goes.  Repeating nodes get no
    signal.  The signal sent to the command is that of [Node.Signal]. *)
Definition sigstep (g : ExecutionGraph) (p : sigpc) : bool * option Z * option sigpc :=
  let next_s sig ov todo := if todo is _ :: _ then Some (SNodes sig ov todo) else None in
  let next_c todo := if todo is _ :: _ then Some (CNodes todo) else None in
  match p with
  | SStart sig ov => (true, None, next_s sig ov (nodes g))
  | SNodes sig ov [] => (false, None, None)
  | SNodes sig ov (id :: todo) =>
      if negb (repeating g id) && bool_decide (status_of g id = NodeStatusRunning)
      then (false, None, Some (SMark sig ov id todo))
      else (false, None, next_s sig ov todo)
  | SMark sig ov id todo => (false, Some id, next_s sig ov todo)
  | CStart => (true, None, next_c (nodes g))
  | CNodes [] => (false, None, None)
  | CNodes (id :: todo) =>
      if bool_decide (status_of g id = NodeStatusRunning)
      then (false, None, Some (CMark id todo))
      else (false, None, next_c todo)
  | CMark id todo => (false, Some id, next_c todo)
  end.

(** ** The system *)

(** Who moves: the main loop, the [i]-th goroutine, the [i]-th signal call, or
    the outside, which calls [Signal] or [Cancel]. *)
Inductive action :=
| AMain
| AThread (i : nat)
| ASig (i : nat)
| ACallSignal (sig : Z) (allowOverride : bool)
| ACallCancel.

Definition apply_effect (i : nat) (id : Z) (e : effect) (s : state) : state :=
  mkState (on_node (fun _ => ef_node e) id (graph s)) (canceled s)
          (match ef_last e with Some x => Some x | None => lastError s end)
          (handlers s)
          (match ef_next e with
           | Some cp => <[i := (id, cp)]> (threads s)
           | None => delete i (threads s)
           end)
          (main s) (sigs s)
          (if ef_send e then sent s ++ [id] else sent s).

Definition thread_step (w : world) (i : nat) (s : state) : option state :=
  match threads s !! i with
  | None => None
  | Some (id, (c, p)) =>
      match node (graph s) id with
      | None => None
      | Some n => (fun e => apply_effect i id e s) <$> gostep w (graph s) (canceled s) n c p
      end
  end.

Definition sig_step (i : nat) (s : state) : option state :=
  match sigs s !! i with
  | None => None
  | Some p =>
      let '(flag, mark, next) := sigstep (graph s) p in
      let s := if flag : bool then setCanceled s else s in
      let s := match mark with
               | Some id => set_graph s (set_status_of id NodeStatusCancel (graph s))
               | None => s
               end in
      Some (set_sigs s (match next with Some p => <[i := p]> (sigs s) | None => delete i (sigs s) end))
  end.

Definition act (w : world) (a : action) (s : state) : option state :=
  match a with
  | AMain => mstep w s
  | AThread i => thread_step w i s
  | ASig i => sig_step i s
  | ACallSignal sig ov => Some (set_sigs s (sigs s ++ [SStart sig ov]))
  | ACallCancel => Some (set_sigs s (sigs s ++ [CStart]))
  end.

Definition step (s s' : state) : Prop := exists w a, act w a s = Some s'.

Definition reachable (s s' : state) : Prop := rtc step s s'.

(** Execute a list of moves; [None] when one of them is not enabled. *)
Fixpoint run (s : state) (l : list (world * action)) : option state :=
  match l with
  | [] => Some s
  | (w, a) :: l => match act w a s with Some s' => run s' l | None => None end
  end.

Lemma run_reachable s l s' : run s l = Some s' -> reachable s s'.
Proof.
  revert s. induction l as [|[w a] l IH]; simpl; intros s Hs; [simplify_eq; apply rtc_refl|].
  destruct (act w a s) as [s1|] eqn:Ha; [|done].
  eapply rtc_l; [by exists w, a|]. by apply IH.
Qed.

End scheduler.
