(* ===== verification/SchedInv.v ===== *)
(** * Classes of goroutine positions and the effect of one step

    A goroutine is [Busy] while it may still run its command or reset the
    node's status, [Settling] while it may still write a final status, and
    [Gone] when it only tears down.  [gostep_class] says what a step does to
    the class and to the status; the invariants of the scheduler rest on it. *)

From S2P Require Import Prelude GoStrings Vars Digraph NodeData Contexts Node Graph.
From S2P Require Import Sched.

Inductive klass := Busy | Settling | Gone.

#[export] Instance klass_eq_dec : EqDecision klass.
Proof. solve_decision. Defined.

Definition class (p : pc) : klass :=
  match p with
  | PSetupContext | PPrecond | PSetup | PLoop true | PExec | PRun _
  | PAfterExec _ | PTimeoutChk _ | PTimeoutSet _ | PCancelChk _ | PRetryChk _ | PRetryInc _
  | PRetryAt _ | PRetryNone _ | PFail _ | PCount None | PCountInc None | PRepeat None => Busy
  | PSetupLast _ | PSetupMark _ | PLoop false | PMarkChk _ | PMarkSuccess _ | PMarkError _
  | PFinish | PFinishSet | PTeardown | PTeardownLast _ | PTeardownErr
  | PDeferTeardown (Some _) | PDeferFinish (Some _) | PWgDone (Some _) | PRecoverMark _ => Settling
  | PSkipErr _ | PLastErr _ | PCount (Some _) | PCountInc (Some _) | PRepeat (Some _)
  | PDeferTeardown None | PDeferFinish None | PWgDone None | PRecoverLast _ => Gone
  end.

(** The class a step leads to; an ended goroutine is gone. *)
Definition next_class (e : effect) : klass :=
  match ef_next e with Some (_, p) => class p | None => Gone end.

(** A repeating step whose failures are ignored runs its command again after
    its status was set to an error. *)
Definition repeats_failures (n : Node) : bool :=
  RepeatPolicy.Repeat (Step.RepeatPolicy (nd_Step (n_data n))) &&
  ContinueOn.Failure (Step.ContinueOn (nd_Step (n_data n))).

Definition live_status (s : NodeStatus) : Prop :=
  s = NodeStatusRunning \/ s = NodeStatusCancel.

Lemma live_status_not_none s : live_status s -> s <> NodeStatusNone.
Proof. by intros [-> | ->]. Qed.

(** What the step of a goroutine in class [k] may do to the status. *)
Definition class_effect (k : klass) (st : NodeStatus) (k' : klass) (st' : NodeStatus) : Prop :=
  match k with
  | Busy =>
      live_status st ->
      match k' with
      | Busy => st' = st
      | Settling => st' <> NodeStatusNone
      | Gone => True
      end
  | Settling => st <> NodeStatusNone -> k' <> Busy /\ st' <> NodeStatusNone
  | Gone => k' = Gone /\ st' = st
  end.

Section step.
Context (cfg : Config) (w : world).

Lemma keeps_setupNode c n : keeps n (fst (setupNode cfg w c n)).
Proof. unfold setupNode. destruct (Dry cfg); [done|]. apply keeps_Setup. Qed.

Lemma keeps_teardownNode n : keeps n (fst (teardownNode cfg w n)).
Proof. unfold teardownNode. destruct (Dry cfg); [done|]. apply keeps_Teardown. Qed.

Lemma keeps_w_setupExecutor c n : keeps n (fst (w_setupExecutor w c n)).
Proof. apply keeps_setupExecutor. Qed.

Lemma keeps_w_shouldMarkSuccess n : keeps n (snd (w_shouldMarkSuccess w n)).
Proof. apply keeps_shouldMarkSuccess. Qed.

Lemma keeps_w_shouldContinue n : keeps n (snd (w_shouldContinue w n)).
Proof. apply keeps_shouldContinue. Qed.

(** Bring the frame facts of the calls of [gostep] into the context. *)
Ltac frame_calls :=
  repeat match goal with
  | H : context [setupNode cfg w ?c ?n] |- _ =>
      pose proof (keeps_setupNode c n); destruct (setupNode cfg w c n) as [? [?|]]; simpl in *
  | H : context [w_setupExecutor w ?c ?n] |- _ =>
      pose proof (keeps_w_setupExecutor c n); destruct (w_setupExecutor w c n) as [? [?|?]]; simpl in *
  | H : context [finishExecute ?c ?n] |- _ =>
      pose proof (keeps_finishExecute c n); destruct (finishExecute c n) as [? [?|]]; simpl in *
  | H : context [w_shouldMarkSuccess w ?n] |- _ =>
      pose proof (keeps_w_shouldMarkSuccess n);
      destruct (w_shouldMarkSuccess w n) as [[] ?]; simpl in *
  | H : context [teardownNode cfg w ?n] |- _ =>
      pose proof (keeps_teardownNode n); destruct (teardownNode cfg w n) as [? [?|]]; simpl in *
  end.

(** A step never changes what the node declares. *)
Lemma gostep_decl hd g canceled n c p e :
  gostep cfg hd w g canceled n c p = Some e -> same_decl n (ef_node e).
Proof.
  intros H. destruct p; simpl in H; unfold goto, goto_last, goto_send in H; frame_calls;
    repeat case_match; simplify_eq/=;
    try done; repeat match goal with H : keeps _ _ |- _ => destruct H end; done.
Qed.

Lemma gostep_class g canceled n c p e :
  repeats_failures n = false ->
  gostep cfg true w g canceled n c p = Some e ->
  class_effect (class p) (node_Status n) (next_class e) (node_Status (ef_node e)).
Proof.
  intros Hrep H.
  assert (forall e, repeats n (Some e) = false) as Hr.
  { intros e'. unfold repeats, step_of, SafeData.GetStep. done. }
  destruct p; simpl in H; unfold goto, goto_last, goto_send in H; frame_calls;
    repeat match goal with
    | H : keeps _ _ |- _ => destruct H as [? _]
    | H : _ \/ _ |- _ => destruct H
    end;
    repeat (case_match; simplify_eq/=); unfold class_effect, next_class; simpl;
    try rewrite Hr in *; simpl in *;
    repeat (case_match; simplify_eq/=);
    unfold live_status in *; intuition (first [congruence | discriminate]).
Qed.

(** Only the main loop makes a node running. *)
Lemma gostep_running hd g canceled n c p e :
  gostep cfg hd w g canceled n c p = Some e ->
  node_Status (ef_node e) = NodeStatusRunning -> node_Status n = NodeStatusRunning.
Proof.
  intros H. destruct p; simpl in H; unfold goto, goto_last, goto_send in H; frame_calls;
    repeat match goal with H : keeps _ _ |- _ => destruct H as [? _] end;
    repeat case_match; simplify_eq/=; intros; first [done | congruence | discriminate].
Qed.

End step.

(** ** Statuses and stores *)

Lemma node_on_node f id g x :
  node (on_node f id g) x = if decide (x = id) then f <$> node g id else node g x.
Proof.
  unfold node, on_node. simpl. case_decide; subst; [by rewrite lookup_alter_eq|].
  by rewrite lookup_alter_ne.
Qed.

Lemma status_of_on_node f id g x :
  status_of (on_node f id g) x =
  if decide (x = id)
  then match node g id with Some n => node_Status (f n) | None => NodeStatusNone end
  else status_of g x.
Proof. unfold status_of. rewrite node_on_node. case_decide; [|done]. by destruct (node g id). Qed.

Lemma status_of_set_status id st g x n :
  node g id = Some n ->
  status_of (set_status_of id st g) x = if decide (x = id) then st else status_of g x.
Proof. intros Hn. unfold set_status_of. rewrite status_of_on_node, Hn. by case_decide. Qed.

(** The fixed part of a graph: its shape and the declarations of its nodes. *)
Record same_graph (g g' : ExecutionGraph) : Prop := mk_same_graph {
  sg_nodes : nodes g' = nodes g;
  sg_to : to_ g' = to_ g;
  sg_from : from_ g' = from_ g;
  sg_dom : dom (dict g') = dom (dict g);
  sg_decl : forall id n, node g id = Some n -> exists n', node g' id = Some n' /\ same_decl n n'
}.

#[export] Instance same_graph_preorder : PreOrder same_graph.
Proof.
  split.
  - intros g. split; [done..|]. intros id n Hn. by exists n.
  - intros g1 g2 g3 [E1 E2 E3 E4 H1] [F1 F2 F3 F4 H2]. split; [congruence..|].
    intros id n Hn. destruct (H1 id n Hn) as (n2 & Hn2 & ?).
    destruct (H2 id n2 Hn2) as (n3 & ? & ?). exists n3. split; [done|]. by etrans.
Qed.

Lemma same_graph_some g g' id : same_graph g g' -> is_Some (node g id) -> is_Some (node g' id).
Proof. intros Hs [n Hn]. destruct (sg_decl _ _ Hs id n Hn) as (n' & ? & _). by exists n'. Qed.

(** A node of a graph of the same shape has one it comes from. *)
Lemma same_graph_back g g' id n' :
  same_graph g g' -> node g' id = Some n' -> exists n, node g id = Some n /\ same_decl n n'.
Proof.
  intros Hs Hn'. assert (is_Some (node g id)) as [n Hn].
  { unfold node in *. apply elem_of_dom. rewrite <- (sg_dom _ _ Hs). by eapply elem_of_dom_2. }
  destruct (sg_decl _ _ Hs id n Hn) as (n1 & Hn1 & Hd). simplify_eq. by exists n.
Qed.

Lemma same_graph_on_node f id g :
  (forall n, node g id = Some n -> same_decl n (f n)) -> same_graph g (on_node f id g).
Proof.
  intros Hf. split; [done..| |].
  { unfold on_node. simpl. apply dom_alter_L. }
  intros x n Hn. rewrite node_on_node.
  case_decide; subst; [|by exists n]. rewrite Hn. exists (f n). split; [done|]. by apply Hf.
Qed.

(** ** Threads *)

Abbreviation thread := (Z * (ctx * pc))%type.

Definition thread_class (t : thread) : klass := class (snd (snd t)).

(** The nodes of the goroutines in a class that satisfies [P]. *)
Definition ids_in (P : klass -> bool) (ts : list thread) : list Z :=
  omap (fun t => if P (thread_class t) then Some (fst t) else None) ts.

Definition is_active (k : klass) : bool := bool_decide (k <> Gone).
Definition is_busy (k : klass) : bool := bool_decide (k = Busy).

Abbreviation active_ids := (ids_in is_active).
Abbreviation busy_ids := (ids_in is_busy).

Lemma elem_of_ids_in P ts u :
  u ∈ ids_in P ts <-> exists t, t ∈ ts /\ fst t = u /\ P (thread_class t) = true.
Proof.
  unfold ids_in. rewrite list_elem_of_omap. split.
  - intros (t & Ht & Hu). destruct (P (thread_class t)) eqn:E; simplify_eq. eauto.
  - intros (t & Ht & <- & E). exists t. by rewrite E.
Qed.

Lemma busy_active ts u : u ∈ busy_ids ts -> u ∈ active_ids ts.
Proof.
  rewrite !elem_of_ids_in. intros (t & ? & ? & Hb%bool_decide_eq_true). exists t.
  split_and!; [done..|]. apply bool_decide_eq_true. congruence.
Qed.

Lemma busy_sublist ts : busy_ids ts `sublist_of` active_ids ts.
Proof.
  induction ts as [|t ts IH]; simpl; [done|].
  destruct (thread_class t); simpl; [by constructor|by constructor|done].
Qed.

Lemma ids_in_app P ts1 ts2 : ids_in P (ts1 ++ ts2) = ids_in P ts1 ++ ids_in P ts2.
Proof. apply omap_app. Qed.

Lemma ids_in_cons P u c p ts :
  ids_in P ((u, (c, p)) :: ts) = (if P (class p) then [u] else []) ++ ids_in P ts.
Proof. unfold ids_in at 1. simpl. unfold thread_class. simpl. by destruct (P (class p)). Qed.

(** The threads after the step of one of them. *)
Definition stepped (i : nat) (u : Z) (e : effect) (ts : list thread) : list thread :=
  match ef_next e with Some cp => <[i := (u, cp)]> ts | None => delete i ts end.

Lemma stepped_spec i u c p e ts :
  ts !! i = Some (u, (c, p)) ->
  exists l1 l2, ts = l1 ++ (u, (c, p)) :: l2 /\
    stepped i u e ts = l1 ++ (match ef_next e with Some cp => [(u, cp)] | None => [] end) ++ l2.
Proof.
  intros Hi. exists (take i ts), (drop (S i) ts). split; [by rewrite take_drop_middle|].
  unfold stepped. destruct (ef_next e).
  - apply insert_take_drop. by eapply lookup_lt_Some.
  - apply delete_take_drop.
Qed.

(** The nodes of a class change by at most the stepping goroutine's. *)
Lemma stepped_ids P i u c p e ts :
  P Gone = false ->
  ts !! i = Some (u, (c, p)) ->
  exists l1 l2, ids_in P ts = l1 ++ (if P (class p) then [u] else []) ++ l2 /\
    ids_in P (stepped i u e ts) = l1 ++ (if P (next_class e) then [u] else []) ++ l2.
Proof.
  intros HG Hi. destruct (stepped_spec i u c p e ts Hi) as (l1 & l2 & -> & ->).
  exists (ids_in P l1), (ids_in P l2). rewrite !ids_in_app. split.
  - by rewrite ids_in_cons.
  - f_equal. unfold next_class. destruct (ef_next e) as [[c' p']|]; [|by rewrite HG].
    rewrite ids_in_cons. simpl. by rewrite app_nil_r.
Qed.
