(* ===== verification/SchedOrder.v ===== *)
(** * Dependency order of the scheduler

    The invariant of a run: goroutines that may still execute are on nodes that
    are running or cancelled, no node has two active goroutines, and the
    dependencies of every launched node have settled. *)

From S2P Require Import Prelude GoStrings Vars Digraph NodeData Contexts Node Graph.
From S2P Require Import Sched SchedInv.

(** The node the main loop is about to launch. *)
Definition focus (m : mpc) : option Z :=
  match m with
  | MReady id _ _ _ | MContinue id _ _ _ _ _ | MBlock id _ _ _ | MBlockErr id _ _ _
  | MCancelChk2 id _ | MCount id _ _ _ | MLaunch id _ => Some id
  | _ => None
  end.

(** A node that will neither run nor be reset any more. *)
Definition settled (s : state) (u : Z) : Prop :=
  status_of (graph s) u <> NodeStatusNone /\ status_of (graph s) u <> NodeStatusRunning /\
  u ∉ busy_ids (threads s) /\ focus (main s) <> Some u.

Definition deps_settled (s : state) (v : Z) : Prop :=
  forall u, u ∈ adj (to_ (graph s)) v -> settled s u.

(** [id] can be launched: it is a node and has no active goroutine. *)
Definition idle (s : state) (id : Z) : Prop :=
  id ∈ nodes (graph s) /\ id ∉ active_ids (threads s).

(** The first dependencies of [id], before [deps], have settled if [ready]. *)
Definition scanned (s : state) (id : Z) (deps : list Z) (ready : bool) : Prop :=
  exists pre, adj (to_ (graph s)) id = pre ++ deps /\
    (ready = true -> Forall (settled s) pre).

Definition main_ok (s : state) : Prop :=
  match main s with
  | MIter rest => rest ⊆ nodes (graph s)
  | MReady id deps ready rest =>
      rest ⊆ nodes (graph s) /\ idle s id /\ scanned s id deps ready
  | MContinue id dep b deps ready rest =>
      rest ⊆ nodes (graph s) /\ idle s id /\ settled s dep /\ scanned s id (dep :: deps) ready
  | MBlock id _ deps rest | MBlockErr id _ deps rest =>
      rest ⊆ nodes (graph s) /\ idle s id /\ scanned s id deps false
  | MCancelChk2 id rest | MCount id _ _ rest | MLaunch id rest =>
      rest ⊆ nodes (graph s) /\ idle s id /\ deps_settled s id
  | _ => True
  end.

(** A step that settles no node back and activates none. *)
Record calm (s s' : state) : Prop := mk_calm {
  calm_nodes : nodes (graph s') = nodes (graph s);
  calm_to : to_ (graph s') = to_ (graph s);
  calm_active : active_ids (threads s') ⊆ active_ids (threads s);
  calm_settled : forall u, settled s u -> settled s' u
}.

Section calm.
Context (s s' : state) (H : calm s s').

Lemma calm_idle id : idle s id -> idle s' id.
Proof. destruct H as [Hn _ Ha _]. intros [? ?]. split; [by rewrite Hn|]. set_solver. Qed.

Lemma calm_deps_settled v : deps_settled s v -> deps_settled s' v.
Proof. destruct H as [_ Ht _ Hs]. intros Hd u. rewrite Ht. auto. Qed.

Lemma calm_scanned id deps ready : scanned s id deps ready -> scanned s' id deps ready.
Proof.
  destruct H as [_ Ht _ Hs]. intros (pre & Hpre & Hset). exists pre. rewrite Ht.
  split; [done|]. intros Hr. eapply Forall_impl; [exact (Hset Hr)|]. auto.
Qed.

Lemma calm_main_ok : main s' = main s -> main_ok s -> main_ok s'.
Proof.
  intros Hm. unfold main_ok. rewrite Hm, (calm_nodes _ _ H).
  destruct (main s); try done;
    pose proof (calm_settled _ _ H); intuition auto using calm_idle, calm_deps_settled, calm_scanned.
Qed.

End calm.

(** ** The invariant *)

Record inv (g0 : ExecutionGraph) (s : state) : Prop := mk_inv {
  inv_graph : same_graph g0 (graph s);
  inv_unique : NoDup (active_ids (threads s));
  inv_busy : forall u, u ∈ busy_ids (threads s) -> live_status (status_of (graph s) u);
  inv_active : forall u, u ∈ active_ids (threads s) -> status_of (graph s) u <> NodeStatusNone;
  inv_deps : forall t, t ∈ threads s -> deps_settled s (fst t);
  inv_main : main_ok s
}.

(** The graphs the theorems are about: every listed node is in the store, and
    no repeating step ignores its failures. *)
Record good_graph (g : ExecutionGraph) : Prop := mk_good {
  good_nodes : forall id, id ∈ nodes g -> is_Some (node g id);
  good_repeat : forall id n, node g id = Some n -> repeats_failures n = false;
  good_loop : forall id, id ∉ adj (to_ g) id
}.

Lemma same_decl_repeats n n' : same_decl n n' -> repeats_failures n' = repeats_failures n.
Proof. intros [_ _ _ Hr Hc]. unfold repeats_failures. by rewrite Hr, Hc. Qed.

Lemma good_same_graph g g' : same_graph g g' -> good_graph g -> good_graph g'.
Proof.
  intros Hs [Hn Hr Hl]. split.
  - intros id Hid. rewrite (sg_nodes _ _ Hs) in Hid.
    destruct (Hn id Hid) as [n Hx]. destruct (sg_decl _ _ Hs id n Hx) as (n' & ? & _). by exists n'.
  - intros id n' Hid. destruct (same_graph_back g g' id n' Hs Hid) as (n & Hx & Hd).
    rewrite (same_decl_repeats _ _ Hd). by eapply Hr.
  - by rewrite (sg_to _ _ Hs).
Qed.

(** ** Steps of goroutines *)

Section thread.
Context (cfg : Config) (w : world) (i : nat) (s s' : state) (g0 : ExecutionGraph).
Context (u : Z) (c : ctx) (p : pc) (n : Node) (e : effect).
Context (Hthread : threads s !! i = Some (u, (c, p))) (Hnode : node (graph s) u = Some n).
Context (Hrep : repeats_failures n = false).
Context (Hstep : gostep cfg true w (graph s) (canceled s) n c p = Some e).
Context (Hinv : inv g0 s).

Let s1 := apply_effect i u e s.

Lemma thread_threads : threads s1 = stepped i u e (threads s).
Proof. done. Qed.

Lemma thread_status_ne x : x <> u -> status_of (graph s1) x = status_of (graph s) x.
Proof. intros Hx. unfold s1, apply_effect. simpl. rewrite status_of_on_node. by case_decide. Qed.

Lemma thread_status_eq : status_of (graph s1) u = node_Status (ef_node e).
Proof.
  unfold s1, apply_effect. simpl. rewrite status_of_on_node, Hnode. by rewrite decide_True.
Qed.

Lemma thread_status_old : status_of (graph s) u = node_Status n.
Proof. unfold status_of. by rewrite Hnode. Qed.

Lemma thread_effect :
  class_effect (class p) (node_Status n) (next_class e) (node_Status (ef_node e)).
Proof. by eapply gostep_class. Qed.

Lemma thread_in P : P (class p) = true -> u ∈ ids_in P (threads s).
Proof.
  intros HP. apply elem_of_ids_in. exists (u, (c, p)). split_and!; [|done..].
  by eapply list_elem_of_lookup_2.
Qed.

(** The class of the stepping goroutine never grows. *)
Lemma thread_class_le :
  (next_class e = Busy -> class p = Busy) /\ (class p = Gone -> next_class e = Gone).
Proof.
  pose proof thread_effect as He. split.
  - intros Hn. rewrite Hn in He. destruct (class p) eqn:Hp; [done| |by destruct He].
    destruct He as [? _]; [|done]. rewrite <- thread_status_old.
    apply (inv_active _ _ Hinv). apply thread_in. by rewrite Hp.
  - intros Hp. rewrite Hp in He. by destruct He.
Qed.

Lemma thread_ids_sub P :
  P Gone = false -> (P (next_class e) = true -> P (class p) = true) ->
  ids_in P (threads s1) ⊆ ids_in P (threads s).
Proof.
  intros HG HP. rewrite thread_threads.
  destruct (stepped_ids P i u c p e _ HG Hthread) as (l1 & l2 & -> & ->).
  destruct (P (next_class e)); [by rewrite HP|]. set_solver.
Qed.

Lemma thread_active_sub : active_ids (threads s1) ⊆ active_ids (threads s).
Proof.
  apply thread_ids_sub; [done|]. destruct thread_class_le as [_ Hg]. unfold is_active.
  rewrite !bool_decide_eq_true. naive_solver.
Qed.

Lemma thread_busy_sub : busy_ids (threads s1) ⊆ busy_ids (threads s).
Proof.
  apply thread_ids_sub; [done|]. destruct thread_class_le as [Hb _]. unfold is_busy.
  by rewrite !bool_decide_eq_true.
Qed.

(** The goroutines other than the one that moved. *)
Lemma thread_split : exists rest,
  (forall P x, P Gone = false -> x ∈ ids_in P (threads s1) <->
     x ∈ ids_in P rest \/ (x = u /\ P (next_class e) = true)) /\
  (class p <> Gone -> u ∉ active_ids rest).
Proof.
  destruct (stepped_spec i u c p e _ Hthread) as (t1 & t2 & E1 & E2).
  exists (t1 ++ t2). split.
  - intros P x HG. rewrite thread_threads, E2, !ids_in_app, !elem_of_app.
    unfold next_class. destruct (ef_next e) as [[c' p']|].
    + rewrite ids_in_cons. simpl. destruct (P (class p')); simpl; set_solver.
    + rewrite HG. set_solver.
  - intros Hp. pose proof (inv_unique _ _ Hinv) as Hnd. rewrite E1, ids_in_app, ids_in_cons in Hnd.
    rewrite ids_in_app. replace (is_active (class p)) with true in Hnd by (symmetry; by apply bool_decide_eq_true).
    apply NoDup_app in Hnd as (_ & Hd & Hnd). apply NoDup_cons in Hnd as [Hnot _].
    rewrite elem_of_app. intros [Hx|Hx]; [|done]. apply (Hd u Hx). by left.
Qed.

(** If [u] still has an active goroutine after the step, then it is the one that
    moved, or the status was not changed. *)
Lemma thread_active_self :
  u ∈ active_ids (threads s1) ->
  next_class e <> Gone \/ node_Status (ef_node e) = node_Status n.
Proof.
  destruct thread_split as (rest & Hids & Hrest). intros [Hin|[_ Hn]]%Hids; [| |done].
  - destruct (decide (class p = Gone)) as [Hp|Hp]; [|by apply Hrest in Hp].
    right. pose proof thread_effect as He. rewrite Hp in He. by destruct He.
  - left. by apply bool_decide_eq_true in Hn.
Qed.

Lemma thread_busy_self :
  u ∈ busy_ids (threads s1) -> node_Status (ef_node e) = node_Status n.
Proof.
  destruct thread_split as (rest & Hids & Hrest). pose proof thread_effect as He.
  intros [Hin|[_ Hn]]%Hids; [| |done].
  - destruct (decide (class p = Gone)) as [Hp|Hp].
    + rewrite Hp in He. by destruct He.
    + by apply busy_active, Hrest in Hin.
  - apply bool_decide_eq_true in Hn. pose proof (proj1 thread_class_le Hn) as Hp.
    rewrite Hn, Hp in He. apply He. rewrite <- thread_status_old. apply (inv_busy _ _ Hinv).
    apply thread_in. by rewrite Hp.
Qed.

(** The final status of an active goroutine's node is not reset. *)
Lemma thread_settle :
  next_class e <> Gone -> node_Status n <> NodeStatusNone ->
  node_Status (ef_node e) <> NodeStatusNone.
Proof.
  intros Hn Hs. pose proof thread_effect as He. destruct (class p) eqn:Hp.
  - assert (live_status (node_Status n)) as Hl.
    { rewrite <- thread_status_old. apply (inv_busy _ _ Hinv), thread_in. by rewrite Hp. }
    destruct (next_class e); [|by apply He|done]. rewrite (He Hl). done.
  - by apply He.
  - destruct He. congruence.
Qed.

Lemma thread_calm : calm s s1.
Proof.
  split; [done|done|apply thread_active_sub|].
  intros x (Hnone & Hrun & Hb & Hf). split_and!; [..|done].
  - destruct (decide (x = u)) as [->|Hx]; [|by rewrite thread_status_ne].
    rewrite thread_status_eq. pose proof thread_effect as He. rewrite thread_status_old in Hnone.
    destruct (class p) eqn:Hp; [|by apply He|by destruct He as [_ ->]].
    exfalso. apply Hb, thread_in. by rewrite Hp.
  - destruct (decide (x = u)) as [->|Hx]; [|by rewrite thread_status_ne].
    rewrite thread_status_eq. rewrite thread_status_old in Hrun.
    intros H. apply Hrun. by eapply gostep_running.
  - intros Hx. by apply Hb, thread_busy_sub.
Qed.

Lemma thread_inv : inv g0 s1.
Proof.
  split.
  - etrans; [apply (inv_graph _ _ Hinv)|]. apply same_graph_on_node. intros n' Hn'. simplify_eq.
    by eapply gostep_decl.
  - pose proof (inv_unique _ _ Hinv) as Hnd. rewrite thread_threads.
    destruct (stepped_ids is_active i u c p e _ eq_refl Hthread) as (l1 & l2 & E1 & ->).
    rewrite E1 in Hnd. destruct thread_class_le as [_ Hg].
    destruct (is_active (next_class e)) eqn:Hn.
    + replace (is_active (class p)) with true in Hnd; [done|]. symmetry.
      apply bool_decide_eq_true. apply bool_decide_eq_true in Hn. naive_solver.
    + eapply sublist_NoDup; [exact Hnd|].
      apply sublist_app; [done|]. by apply sublist_inserts_l.
  - intros x Hx. destruct (decide (x = u)) as [->|Hne].
    + rewrite thread_status_eq, thread_busy_self, <- thread_status_old by done.
      apply (inv_busy _ _ Hinv). by apply thread_busy_sub.
    + rewrite thread_status_ne by done. apply (inv_busy _ _ Hinv). by apply thread_busy_sub.
  - intros x Hx. destruct (decide (x = u)) as [->|Hne].
    + rewrite thread_status_eq.
      pose proof (inv_active _ _ Hinv u (thread_active_sub _ Hx)) as Hold.
      rewrite thread_status_old in Hold.
      destruct (thread_active_self Hx) as [Hn| ->]; [by apply thread_settle|done].
    + rewrite thread_status_ne by done. apply (inv_active _ _ Hinv). by apply thread_active_sub.
  - intros t Ht. apply (calm_deps_settled _ _ thread_calm).
    destruct (stepped_spec i u c p e _ Hthread) as (t1 & t2 & E1 & E2).
    rewrite thread_threads, E2 in Ht.
    assert (exists t0, t0 ∈ threads s /\ fst t0 = fst t) as (t0 & Ht0 & <-).
    { rewrite E1. rewrite !elem_of_app in Ht. destruct Ht as [Ht|[Ht|Ht]].
      - exists t. set_solver.
      - exists (u, (c, p)). destruct (ef_next e); set_solver.
      - exists t. set_solver. }
    by apply (inv_deps _ _ Hinv).
  - apply (calm_main_ok _ _ thread_calm); [done|]. apply (inv_main _ _ Hinv).
Qed.

End thread.

(** ** Steps that change the status of one node *)

Section write.
Context (s : state) (g0 : ExecutionGraph) (id : Z) (f : Node -> Node).
Context (Hdecl : forall n, node (graph s) id = Some n -> same_decl n (f n)).

Let s1 := set_graph s (on_node f id (graph s)).

Lemma write_status_ne x : x <> id -> status_of (graph s1) x = status_of (graph s) x.
Proof. intros Hx. unfold s1. simpl. rewrite status_of_on_node. by case_decide. Qed.

(** The new status, where the node exists. *)
Lemma write_status_eq (P : NodeStatus -> Prop) :
  (forall n, node (graph s) id = Some n -> P (node_Status (f n))) ->
  P (status_of (graph s) id) -> P (status_of (graph s1) id).
Proof.
  intros Hf Hp. unfold s1. simpl. rewrite status_of_on_node, decide_True by done.
  destruct (node (graph s) id) as [n|] eqn:E; [by apply Hf|].
  unfold status_of in Hp. by rewrite E in Hp.
Qed.

Lemma write_calm :
  (forall n, settled s id -> node (graph s) id = Some n ->
     node_Status (f n) <> NodeStatusNone /\ node_Status (f n) <> NodeStatusRunning) ->
  calm s s1.
Proof.
  intros Hf. split; [done..|]. intros u Hu. destruct (decide (u = id)) as [->|Hne].
  - destruct Hu as (? & ? & ? & ?). split_and!; [| |done..].
    + apply (write_status_eq (fun st => st <> NodeStatusNone)); [|done]. intros n ?. by apply Hf.
    + apply (write_status_eq (fun st => st <> NodeStatusRunning)); [|done]. intros n ?. by apply Hf.
  - destruct Hu as (? & ? & ? & ?). split_and!; [by rewrite write_status_ne..|done|done].
Qed.

Lemma write_inv :
  inv g0 s -> calm s s1 ->
  (forall n, node (graph s) id = Some n -> id ∈ busy_ids (threads s) -> live_status (node_Status (f n))) ->
  (forall n, node (graph s) id = Some n -> id ∈ active_ids (threads s) ->
     node_Status (f n) <> NodeStatusNone) ->
  inv g0 s1.
Proof.
  intros Hinv Hcalm Hbusy Hactive. split.
  - etrans; [apply (inv_graph _ _ Hinv)|]. by apply same_graph_on_node.
  - apply (inv_unique _ _ Hinv).
  - intros x Hx. destruct (decide (x = id)) as [->|Hne].
    + apply (write_status_eq live_status); [eauto|]. by apply (inv_busy _ _ Hinv).
    + rewrite write_status_ne by done. by apply (inv_busy _ _ Hinv).
  - intros x Hx. destruct (decide (x = id)) as [->|Hne].
    + apply (write_status_eq (fun st => st <> NodeStatusNone)); [eauto|]. by apply (inv_active _ _ Hinv).
    + rewrite write_status_ne by done. by apply (inv_active _ _ Hinv).
  - intros t Ht. apply (calm_deps_settled _ _ Hcalm). by apply (inv_deps _ _ Hinv).
  - apply (calm_main_ok _ _ Hcalm); [done|]. apply (inv_main _ _ Hinv).
Qed.

End write.

(** ** Steps of signal calls *)

Lemma inv_sigs g0 s b l :
  inv g0 s ->
  inv g0 (set_sigs (if b : bool then setCanceled s else s) l) /\ calm s (set_sigs (if b then setCanceled s else s) l).
Proof.
  intros []. destruct b; (split; [by split|]); by split.
Qed.

Lemma mark_cancel_inv g0 s id :
  inv g0 s -> inv g0 (set_graph s (set_status_of id NodeStatusCancel (graph s))).
Proof.
  intros Hinv. apply write_inv; [done|done| |by intros; right|done].
  by apply write_calm.
Qed.

Lemma sig_step_inv g0 i s s' : inv g0 s -> sig_step i s = Some s' -> inv g0 s'.
Proof.
  intros Hinv. unfold sig_step. destruct (sigs s !! i) as [p|]; [|done].
  destruct (sigstep (graph s) p) as [[flag mark] next]. intros [= <-].
  assert (inv g0 (if flag then setCanceled s else s)) as H1.
  { destruct flag; [|done]. destruct Hinv; by split. }
  revert H1. generalize (if flag then setCanceled s else s). intros s1 H1.
  set (s2 := match mark with Some id => _ | None => _ end).
  assert (inv g0 s2) as H2.
  { subst s2. destruct mark; [|done]. by apply mark_cancel_inv. }
  clearbody s2. destruct next; destruct H2; by split.
Qed.

(** ** Steps of the main loop *)

(** Moving the main loop is calm when it takes hold of a node only while that
    node's status is none. *)
Lemma calm_set_main s m :
  (forall id, focus m = Some id -> focus (main s) = Some id \/
     status_of (graph s) id = NodeStatusNone) ->
  calm s (set_main s m).
Proof.
  intros Hf. split; [done..|]. intros u (? & ? & ? & Hu). split_and!; [done..|].
  intros E. by destruct (Hf u E).
Qed.

Lemma inv_set_main g0 s m :
  inv g0 s -> calm s (set_main s m) -> main_ok (set_main s m) -> inv g0 (set_main s m).
Proof.
  intros [] Hc Hm. split; try done. intros t Ht. apply (calm_deps_settled _ _ Hc). auto.
Qed.

Section main.
Context (cfg : Config) (ctx0 : ctx) (g0 : ExecutionGraph) (Hgood : good_graph g0).

Lemma inv_no_loop s id : inv g0 s -> id ∉ adj (to_ (graph s)) id.
Proof. intros Hinv. rewrite (sg_to _ _ (inv_graph _ _ Hinv)). apply (good_loop _ Hgood). Qed.

Lemma inv_good s : inv g0 s -> good_graph (graph s).
Proof. intros Hinv. by eapply good_same_graph, Hgood; apply (inv_graph _ _ Hinv). Qed.

(** The statuses of a node that ran or was skipped. *)
Definition final_status (st : NodeStatus) : Prop :=
  match st with
  | NodeStatusSuccess | NodeStatusError | NodeStatusSkipped => True
  | NodeStatusNone | NodeStatusRunning | NodeStatusCancel => False
  end.

(** A dependency in a final status has settled, when the main loop holds
    another node. *)
Lemma final_settled s u :
  inv g0 s -> focus (main s) <> Some u ->
  final_status (status_of (graph s) u) -> settled s u.
Proof.
  intros Hinv Hf Hst. split_and!; [by intros H; rewrite H in Hst|by intros H; rewrite H in Hst| |done].
  intros [H|H]%(inv_busy _ _ Hinv); by rewrite H in Hst.
Qed.

Lemma scanned_dep s id dep deps ready : scanned s id (dep :: deps) ready -> dep ∈ adj (to_ (graph s)) id.
Proof. intros (pre & -> & _). set_solver. Qed.

Lemma scanned_next s id dep deps ready ready' :
  scanned s id (dep :: deps) ready -> (ready' = true -> ready = true /\ settled s dep) ->
  scanned s id deps ready'.
Proof.
  intros (pre & Hpre & Hset) Hr. exists (pre ++ [dep]). split; [by rewrite <- app_assoc|].
  intros Ht. destruct (Hr Ht) as [-> ?]. apply Forall_app. split; [by apply Hset|by constructor].
Qed.

Lemma scanned_all s id : scanned s id [] true -> deps_settled s id.
Proof.
  intros (pre & Hpre & Hset) u. rewrite Hpre, app_nil_r. specialize (Hset eq_refl).
  rewrite Forall_forall in Hset. apply Hset.
Qed.

Lemma scanned_weaken s id deps ready : scanned s id deps ready -> scanned s id deps false.
Proof. intros (pre & ? & _). by exists pre. Qed.

(** The launch. *)
Lemma launch_inv s id rest :
  inv g0 s -> main s = MLaunch id rest ->
  inv g0 (set_main (set_threads (set_graph s (set_status_of id NodeStatusRunning (graph s)))
                      (threads s ++ [(id, (ctx0, PSetupContext))])) (MIter rest)).
Proof.
  intros Hinv Hm. pose proof (inv_main _ _ Hinv) as Hok. unfold main_ok in Hok. rewrite Hm in Hok.
  destruct Hok as (Hrest & [Hid Hact] & Hdeps).
  assert (exists n, node (graph s) id = Some n) as [n Hn] by (by apply (good_nodes _ (inv_good s Hinv))).
  set (s' := set_main _ _).
  assert (forall x, status_of (graph s') x =
                    if decide (x = id) then NodeStatusRunning else status_of (graph s) x) as Hst.
  { intros x. by apply (status_of_set_status id NodeStatusRunning (graph s) x n). }
  assert (active_ids (threads s') = active_ids (threads s) ++ [id]) as Ha by apply ids_in_app.
  assert (busy_ids (threads s') = busy_ids (threads s) ++ [id]) as Hb by apply ids_in_app.
  assert (forall u, settled s u -> settled s' u) as Hset.
  { intros u (? & ? & ? & Hf). rewrite Hm in Hf.
    assert (u <> id) by naive_solver. unfold settled. rewrite Hst, Hb, decide_False by done.
    split_and!; [done..| |done]. set_solver. }
  assert (to_ (graph s') = to_ (graph s)) as Hto by done.
  split.
  - etrans; [apply (inv_graph _ _ Hinv)|]. by apply same_graph_on_node.
  - rewrite Ha. apply NoDup_app. split_and!; [apply (inv_unique _ _ Hinv)|set_solver|].
    apply NoDup_singleton.
  - intros u. rewrite Hb, Hst. intros [Hu|Hu]%elem_of_app.
    + case_decide; [by left|by apply (inv_busy _ _ Hinv)].
    + rewrite decide_True by set_solver. by left.
  - intros u. rewrite Ha, Hst. intros [Hu|Hu]%elem_of_app.
    + case_decide; [done|by apply (inv_active _ _ Hinv)].
    + rewrite decide_True by set_solver. done.
  - intros t Ht. simpl in Ht. apply elem_of_app in Ht as [Ht|Ht].
    + intros u Hu. apply Hset. by apply (inv_deps _ _ Hinv t Ht).
    + apply list_elem_of_singleton in Ht as ->. intros u Hu. apply Hset. by apply Hdeps.
  - done.
Qed.

(** Moves that only change the position of the main loop. *)
Lemma move_inv s m :
  inv g0 s ->
  (forall id, focus m = Some id -> focus (main s) = Some id \/
     status_of (graph s) id = NodeStatusNone) ->
  (calm s (set_main s m) -> main_ok (set_main s m)) ->
  inv g0 (set_main s m).
Proof.
  intros Hinv Hf Hok. pose proof (calm_set_main s m Hf) as Hc. apply inv_set_main; auto.
Qed.

(** A node whose status is none is idle. *)
Lemma none_idle s id :
  inv g0 s -> id ∈ nodes (graph s) -> status_of (graph s) id = NodeStatusNone -> idle s id.
Proof. intros Hinv Hid Hst. split; [done|]. by intros Ha%(inv_active _ _ Hinv). Qed.

(** The moves of [isReady] on a dependency. *)
Lemma ready_inv s id dep deps ready rest (ok : bool) :
  inv g0 s -> main s = MReady id (dep :: deps) ready rest ->
  (ok = true -> status_of (graph s) dep = NodeStatusSuccess) ->
  inv g0 (set_main s (MReady id deps (ready && ok) rest)).
Proof.
  intros Hinv Hm Hok. pose proof (inv_main _ _ Hinv) as Hmain. unfold main_ok in Hmain.
  rewrite Hm in Hmain. destruct Hmain as (Hrest & Hidle & Hscan).
  apply move_inv; [done|rewrite Hm; simpl; naive_solver|]. intros Hc.
  split_and!; [done|done|]. eapply calm_scanned; [exact Hc|].
  eapply scanned_next; [exact Hscan|]. intros [-> ->]%andb_prop. split; [done|].
  apply final_settled; [done| |by rewrite Hok].
  rewrite Hm. simpl. intros [= ->]. apply (inv_no_loop s dep Hinv). by eapply scanned_dep.
Qed.

Lemma continue_inv s id dep b deps ready rest :
  inv g0 s -> main s = MReady id (dep :: deps) ready rest ->
  dep_action (status_of (graph s) dep) = Some (true, b) ->
  inv g0 (set_main s (MContinue id dep b deps ready rest)).
Proof.
  intros Hinv Hm Hb. pose proof (inv_main _ _ Hinv) as Hmain. unfold main_ok in Hmain.
  rewrite Hm in Hmain. destruct Hmain as (Hrest & Hidle & Hscan).
  apply move_inv; [done|rewrite Hm; simpl; naive_solver|]. intros Hc.
  split_and!; [done|done| |by eapply calm_scanned].
  apply (calm_settled _ _ Hc). apply final_settled; [done| |by destruct (status_of (graph s) dep)].
  rewrite Hm. simpl. intros [= ->]. apply (inv_no_loop s dep Hinv). by eapply scanned_dep.
Qed.

(** [shouldContinue] only writes its answer to the cache. *)
Lemma should_continue_inv s w id dep b deps ready rest d :
  inv g0 s -> main s = MContinue id dep b deps ready rest -> node (graph s) dep = Some d ->
  inv g0 (set_main (set_graph s (on_node (fun _ => snd (w_shouldContinue w d)) dep (graph s)))
            (if fst (w_shouldContinue w d) then MReady id deps ready rest else MBlock id b deps rest)).
Proof.
  intros Hinv Hm Hd. destruct (keeps_w_shouldContinue w d) as [Hst Hdecl].
  set (f := fun _ : Node => snd (w_shouldContinue w d)).
  assert (status_of (graph s) dep = node_Status d) as Hold by (unfold status_of; by rewrite Hd).
  assert (inv g0 (set_graph s (on_node f dep (graph s)))) as H1.
  { assert (forall n, node (graph s) dep = Some n -> same_decl n (f n)) as Hf.
    { intros n Hn. by simplify_eq. }
    apply write_inv; [done|done|..].
    - apply write_calm; [done|]. intros n (? & ? & _) Hn. unfold f. rewrite Hst, <- Hold. done.
    - intros n Hn Hb. unfold f. rewrite Hst, <- Hold. by apply (inv_busy _ _ Hinv).
    - intros n Hn Ha. unfold f. rewrite Hst, <- Hold. by apply (inv_active _ _ Hinv). }
  set (s1 := set_graph s _) in *. clearbody f. assert (main s1 = main s) as Hm1 by done. clearbody s1.
  pose proof (inv_main _ _ H1) as Hmain. unfold main_ok in Hmain. rewrite Hm1, Hm in Hmain.
  destruct Hmain as (Hrest & Hidle & Hset & Hscan).
  apply move_inv; [done|rewrite Hm1, Hm; destruct (fst _); simpl; naive_solver|]. intros Hc.
  destruct (fst (w_shouldContinue w d)); split_and!; try done; (eapply calm_scanned; [exact Hc|]).
  - eapply scanned_next; [exact Hscan|]. done.
  - eapply scanned_next; [exact Hscan|]. done.
Qed.

(** The writes of [isReady] to the node it looks at. *)
Lemma block_inv s f id m deps rest :
  inv g0 s -> focus (main s) = Some id -> focus m = Some id ->
  (forall n, same_decl n (f n)) ->
  (forall n, node_Status (f n) = node_Status n \/ final_status (node_Status (f n)) \/
             node_Status (f n) = NodeStatusCancel) ->
  rest ⊆ nodes (graph s) -> idle s id -> scanned s id deps false ->
  (forall s, rest ⊆ nodes (graph s) -> idle s id -> scanned s id deps false -> main s = m -> main_ok s) ->
  inv g0 (set_main (set_graph s (on_node f id (graph s))) m).
Proof.
  intros Hinv Hfs Hfm Hf Hst Hrest [Hid Hact] Hscan Hok.
  assert (calm s (set_graph s (on_node f id (graph s)))) as Hc1.
  { apply write_calm; [done|]. intros n (_ & _ & _ & Hx). done. }
  assert (inv g0 (set_graph s (on_node f id (graph s)))) as H1.
  { apply write_inv; [done|done|done|..]; intros n Hn Ha; [by apply busy_active in Ha|done]. }
  apply move_inv; [done|simpl; rewrite Hfs, Hfm; intros; by left|].
  intros Hc. apply Hok; [done|done| |done].
  eapply calm_scanned; [exact Hc|]. by eapply calm_scanned.
Qed.

(** A move that releases the node. *)
Lemma release_inv s m :
  inv g0 s -> focus m = None -> main_ok (set_main s m) -> inv g0 (set_main s m).
Proof. intros Hinv Hf Hok. apply move_inv; [done|by rewrite Hf|done]. Qed.

(** A move that only touches times, handlers and the error. *)
Lemma bookkeeping_inv s s' :
  inv g0 s -> dict (graph s') = dict (graph s) -> nodes (graph s') = nodes (graph s) ->
  to_ (graph s') = to_ (graph s) -> from_ (graph s') = from_ (graph s) ->
  threads s' = threads s -> focus (main s') = None -> main_ok s' -> inv g0 s'.
Proof.
  intros [Hg Hu Hb Ha Hd Hm] Ed En Et Ef Ets Hf Hok.
  assert (forall x, status_of (graph s') x = status_of (graph s) x) as Hst.
  { intros x. unfold status_of, node. by rewrite Ed. }
  split; try done; rewrite ?Ets; try done.
  - etrans; [exact Hg|]. split; [done..|by rewrite Ed|]. intros id n Hn. exists n.
    split; [|done]. unfold node. by rewrite Ed.
  - intros u Hu'. rewrite Hst. auto.
  - intros u Hu'. rewrite Hst. auto.
  - intros t Ht u. rewrite Et. intros Hu'. destruct (Hd t Ht u Hu') as (? & ? & ? & _).
    unfold settled. rewrite Hst, Ets, Hf. done.
Qed.

Lemma mstep_inv hd w s s' : inv g0 s -> mstep cfg hd ctx0 w s = Some s' -> inv g0 s'.
Proof.
  intros Hinv Hstep. pose proof (inv_main _ _ Hinv) as Hok. unfold main_ok in Hok.
  unfold mstep in Hstep. destruct (main s) eqn:Hm.
  - destruct todo; [|destruct (status_of (graph s) z)]; simplify_eq; by apply release_inv.
  - simplify_eq. destruct (canceled s); apply release_inv; unfold main_ok; simpl; set_solver.
  - destruct rest as [|id rest]; simplify_eq; [by apply release_inv|].
    case_bool_decide as Hn.
    + apply move_inv; [done|simpl; naive_solver|]. intros Hc. split_and!; [set_solver| |by exists []].
      change (idle s id). apply none_idle; [done|set_solver|done].
    + apply release_inv; [done|done|]. unfold main_ok. simpl. set_solver.
  - destruct Hok as (Hrest & Hidle & Hscan). destruct deps as [|dep deps].
    + simplify_eq. destruct ready.
      * apply move_inv; [done|rewrite Hm; simpl; naive_solver|]. intros Hc. split_and!; [done|done|].
        apply (calm_deps_settled _ _ Hc). by apply scanned_all.
      * by apply release_inv.
    + destruct (dep_action (status_of (graph s) dep)) as [[[] b]|] eqn:Ha; simplify_eq.
      * by eapply continue_inv.
      * apply move_inv; [done|rewrite Hm; simpl; naive_solver|]. intros Hc. split_and!; [done|done|].
        eapply calm_scanned; [exact Hc|]. by eapply scanned_next.
      * eapply ready_inv; [done|exact Hm|]. by rewrite bool_decide_eq_true.
  - destruct (node (graph s) dep) as [d|] eqn:Hd; [|done].
    pose proof (should_continue_inv s w id dep b deps ready rest d Hinv Hm Hd) as H.
    destruct (w_shouldContinue w d) as [cont d']. by simplify_eq.
  - destruct Hok as (? & ? & ?). simplify_eq.
    eapply (block_inv _ _ id _ deps rest); try done; [by rewrite Hm|by destruct b|
      by destruct b; [right; right|right; left|right; right]|].
    intros s1 ? ? ? Hm1. unfold main_ok. rewrite Hm1. by destruct b.
  - destruct Hok as (? & ? & ?). simplify_eq.
    eapply (block_inv _ _ id _ deps rest); try done; [by rewrite Hm|by left|].
    intros s1 ? ? ? Hm1. unfold main_ok. by rewrite Hm1.
  - destruct Hok as (? & ? & ?). simplify_eq.
    destruct (canceled s); [apply release_inv; unfold main_ok; simpl; set_solver|].
    destruct (0 <? MaxActiveRuns cfg)%Z; (apply move_inv; [done|rewrite Hm; simpl; naive_solver|]);
      intros Hc; (split_and!; [done|done|by apply (calm_deps_settled _ _ Hc)]).
  - destruct Hok as (? & ? & ?). destruct todo as [|x todo]; simplify_eq.
    + destruct (MaxActiveRuns cfg <=? count)%Z; [by apply release_inv|].
      apply move_inv; [done|rewrite Hm; simpl; naive_solver|]. intros Hc.
      split_and!; [done|done|by apply (calm_deps_settled _ _ Hc)].
    + apply move_inv; [done|rewrite Hm; simpl; naive_solver|]. intros Hc.
      split_and!; [done|done|by apply (calm_deps_settled _ _ Hc)].
  - simplify_eq. by apply launch_inv.
  - destruct (existsb counted (threads s)); simplify_eq. by apply release_inv.
  - simplify_eq. by apply release_inv.
  - destruct hs as [|h hs]; [|destruct (HandlerNode s h) as [n|]]; simplify_eq.
    + by eapply bookkeeping_inv.
    + destruct (runHandlerNode cfg w ctx0 (graph s) n) as [n' err]. simplify_eq.
      by eapply bookkeeping_inv.
    + by apply release_inv.
  - done.
Qed.

(** ** The invariant holds in every reachable state *)

Lemma thread_step_inv w i s s' : inv g0 s -> thread_step cfg true w i s = Some s' -> inv g0 s'.
Proof.
  intros Hinv. unfold thread_step. destruct (threads s !! i) as [[u [c p]]|] eqn:Ht; [|done].
  destruct (node (graph s) u) as [n|] eqn:Hn; [|done].
  destruct (gostep cfg true w (graph s) (canceled s) n c p) as [e|] eqn:He; [|done].
  intros [= <-]. eapply thread_inv; [done..| |done|done].
  by apply (good_repeat _ (inv_good s Hinv) u).
Qed.

Lemma step_inv s s' : inv g0 s -> step cfg true ctx0 s s' -> inv g0 s'.
Proof.
  intros Hinv (w & a & Ha). destruct a; simpl in Ha.
  - by eapply mstep_inv.
  - by eapply thread_step_inv.
  - by eapply sig_step_inv.
  - simplify_eq. destruct Hinv; by split.
  - simplify_eq. destruct Hinv; by split.
Qed.

Lemma reachable_inv s s' : inv g0 s -> reachable cfg true ctx0 s s' -> inv g0 s'.
Proof. intros Hinv. induction 1; eauto using step_inv. Qed.

End main.

Lemma Schedule_inv cfg w canceled lastError g s :
  Schedule cfg w canceled lastError g = Ok s -> inv g s.
Proof.
  unfold Schedule. destruct (setup_error cfg w); [done|]. intros [= <-].
  split; [split; [done..|]; intros id n Hn; by exists n|constructor|..|done];
    intros x Hx; by apply elem_of_nil in Hx.
Qed.
