(* ===== verification/SchedLimit.v ===== *)
(** * The concurrency limit of the scheduler

    At most [MaxActiveRuns] nodes are running at any time, although the main
    loop counts them one by one while goroutines change statuses; and as long as
    the run is not cancelled, every goroutine that may execute is on a running
    node. *)

From S2P Require Import Prelude GoStrings Vars Digraph NodeData Contexts Node Graph.
From S2P Require Import Sched SchedInv SchedOrder.

Definition is_running (g : ExecutionGraph) (x : Z) : Prop := status_of g x = NodeStatusRunning.

#[export] Instance is_running_dec g x : Decision (is_running g x).
Proof. unfold is_running. apply _. Defined.

Definition running_in (g : ExecutionGraph) (l : list Z) : nat := length (filter (is_running g) l).

(** No node starts running. *)
Definition no_start (g g' : ExecutionGraph) : Prop :=
  nodes g' = nodes g /\ forall x, is_running g' x -> is_running g x.

Lemma running_in_cons g x l :
  running_in g (x :: l) = (if decide (is_running g x) then 1 else 0) + running_in g l.
Proof. unfold running_in. rewrite filter_cons. by case_decide. Qed.

Lemma running_in_le g g' l :
  (forall x, x ∈ l -> is_running g' x -> is_running g x) -> running_in g' l <= running_in g l.
Proof.
  induction l as [|x l IH]; intros H; [done|]. rewrite !running_in_cons.
  assert (running_in g' l <= running_in g l) as Hl by (apply IH; intros y Hy; apply H; by right).
  pose proof (H x ltac:(by left)) as Hx. repeat case_decide; try lia. tauto.
Qed.

(** One more node runs after a launch. *)
Lemma running_in_launch g id n l :
  node g id = Some n -> NoDup l ->
  running_in (set_status_of id NodeStatusRunning g) l <= S (running_in g l).
Proof.
  intros Hn. assert (forall x, x <> id -> is_running (set_status_of id NodeStatusRunning g) x ->
                                          is_running g x) as Hne.
  { intros x Hx. unfold is_running. rewrite (status_of_set_status id _ g x n Hn).
    by rewrite decide_False. }
  induction 1 as [|x l Hx Hl IH]; [unfold running_in; simpl; lia|].
  rewrite !running_in_cons. destruct (decide (x = id)) as [->|Hxi].
  - assert (running_in (set_status_of id NodeStatusRunning g) l <= running_in g l).
    { apply running_in_le. intros y Hy. apply Hne. intros ->. done. }
    repeat case_decide; lia.
  - pose proof (Hne x Hxi). repeat case_decide; try lia. tauto.
Qed.

(** ** No step of a goroutine or a signal starts a node *)

Lemma no_start_refl g : no_start g g.
Proof. done. Qed.

Lemma no_start_on_node f id g :
  (forall n, node g id = Some n -> node_Status (f n) = NodeStatusRunning ->
             node_Status n = NodeStatusRunning) ->
  no_start g (on_node f id g).
Proof.
  intros Hf. split; [done|]. intros x. unfold is_running. rewrite status_of_on_node.
  case_decide; subst; [|done]. unfold status_of. destruct (node g id) as [n|]; [|done]. by apply Hf.
Qed.

Lemma thread_step_no_start cfg hd w i s s' :
  thread_step cfg hd w i s = Some s' -> no_start (graph s) (graph s') /\ main s' = main s.
Proof.
  unfold thread_step. destruct (threads s !! i) as [[u [c p]]|]; [|done].
  destruct (node (graph s) u) as [n|] eqn:Hn; [|done].
  destruct (gostep cfg hd w (graph s) (canceled s) n c p) as [e|] eqn:He; [|done].
  intros [= <-]. split; [|done]. apply no_start_on_node. intros n' Hn' Hr. simplify_eq.
  by eapply gostep_running.
Qed.

Lemma sig_step_no_start i s s' :
  sig_step i s = Some s' -> no_start (graph s) (graph s') /\ main s' = main s.
Proof.
  unfold sig_step. destruct (sigs s !! i) as [p|]; [|done].
  destruct (sigstep (graph s) p) as [[[] [id|]] next]; intros [= <-]; (split; [|done]);
    try apply no_start_refl; by apply no_start_on_node.
Qed.

Section limit.
Context (cfg : Config) (ctx0 : ctx) (g0 : ExecutionGraph) (Hgood : good_graph g0).
Context (Hnodup : NoDup (nodes g0)) (Hmax : (0 < MaxActiveRuns cfg)%Z).

Definition running_count (s : state) : Z := Z.of_nat (running_in (graph s) (nodes (graph s))).

(** Nodes counted so far plus those running among the rest bound the running
    nodes, since no other goroutine starts one. *)
Definition limit_ok (s : state) : Prop :=
  (running_count s <= MaxActiveRuns cfg)%Z /\
  match main s with
  | MCount _ todo count _ =>
      todo `sublist_of` nodes (graph s) /\
      (running_count s <= count + Z.of_nat (running_in (graph s) todo))%Z
  | MLaunch _ _ => (running_count s < MaxActiveRuns cfg)%Z
  | _ => True
  end.

(** The part of a list of nodes that stops running is at least as small as in
    the whole list. *)
Lemma running_in_both g g' l l' :
  no_start g g' -> l' `sublist_of` l ->
  (Z.of_nat (running_in g' l) - Z.of_nat (running_in g' l') <=
   Z.of_nat (running_in g l) - Z.of_nat (running_in g l'))%Z.
Proof.
  intros [_ H] Hl. induction Hl as [|x l1 l2 Hl IH|x l1 l2 Hl IH]; [lia|..];
    rewrite !running_in_cons; pose proof (H x); repeat case_decide; try lia; tauto.
Qed.

Lemma no_start_count s s' :
  no_start (graph s) (graph s') -> (running_count s' <= running_count s)%Z.
Proof.
  intros [Hn H]. unfold running_count. rewrite Hn.
  pose proof (running_in_le (graph s) (graph s') (nodes (graph s)) (fun x _ => H x)). lia.
Qed.

Lemma limit_same_main s s' :
  limit_ok s -> no_start (graph s) (graph s') -> main s' = main s -> limit_ok s'.
Proof.
  intros [Hc Hm] Hs Emain. pose proof (no_start_count s s' Hs). split; [lia|]. rewrite Emain.
  destruct (main s); try done; [|lia].
  destruct Hm as [Hl Hm]. destruct Hs as [Hn Hs]. rewrite Hn. split; [done|].
  pose proof (running_in_both _ _ _ _ (conj Hn Hs) Hl) as Hb. unfold running_count in *.
  rewrite Hn. lia.
Qed.

(** Positions in which nothing is being counted. *)
Definition no_count (m : mpc) : bool :=
  match m with MCount _ _ _ _ | MLaunch _ _ => false | _ => true end.

Lemma limit_other s s' :
  limit_ok s -> no_start (graph s) (graph s') -> no_count (main s') = true -> limit_ok s'.
Proof.
  intros [Hc _] Hs Hm. pose proof (no_start_count s s' Hs). split; [lia|]. by destruct (main s').
Qed.

Lemma mstep_no_start hd w s s' :
  mstep cfg hd ctx0 w s = Some s' -> no_start (graph s) (graph s') \/ exists id rest, main s = MLaunch id rest.
Proof.
  unfold mstep. destruct (main s) eqn:Hm; try (by right; eauto); intros H; left.
  1-4: repeat case_match; by simplify_eq.
  - destruct (node (graph s) dep) as [d|] eqn:Hd; [|done].
    pose proof (keeps_w_shouldContinue w d) as [Hk _].
    destruct (w_shouldContinue w d) as [cont d']. simplify_eq. apply no_start_on_node.
    intros n Hn. simpl in *. simplify_eq. by rewrite Hk.
  - simplify_eq. apply no_start_on_node. by destruct b.
  - simplify_eq. by apply no_start_on_node.
  - by simplify_eq.
  - destruct todo; by simplify_eq.
  - by destruct (existsb counted (threads s)); simplify_eq.
  - by simplify_eq.
  - destruct hs as [|h hs]; [by simplify_eq|]. destruct (HandlerNode s h); [|by simplify_eq].
    by destruct (runHandlerNode _ _ _ _) as [? ?]; simplify_eq.
Qed.

Lemma mstep_limit hd w s s' :
  inv g0 s -> limit_ok s -> mstep cfg hd ctx0 w s = Some s' -> limit_ok s'.
Proof.
  intros Hinv Hl Hstep. pose proof (mstep_no_start hd w s s' Hstep) as Hns.
  destruct (no_count (main s')) eqn:Hc.
  - destruct Hns as [Hns|(id & rest & Hm)]; [by eapply limit_other|].
    destruct Hl as [_ Hl]. rewrite Hm in Hl. unfold mstep in Hstep. rewrite Hm in Hstep.
    simplify_eq. split; [|done]. unfold running_count. simpl.
    pose proof (inv_main _ _ Hinv) as Hok. unfold main_ok in Hok. rewrite Hm in Hok.
    destruct Hok as (_ & [Hid _] & _).
    destruct (good_nodes _ (inv_good g0 Hgood s Hinv) id Hid) as [n Hn].
    assert (NoDup (nodes (graph s))) as Hnd by (by rewrite (sg_nodes _ _ (inv_graph _ _ Hinv))).
    pose proof (running_in_launch (graph s) id n _ Hn Hnd). unfold running_count in Hl. lia.
  - destruct Hl as [Hle Hl]. unfold mstep in Hstep.
    destruct (main s) eqn:Hm; try (exfalso; repeat case_match; simplify_eq/=; congruence).
    + rewrite (proj2 (Z.ltb_lt _ _) Hmax) in Hstep. by destruct (canceled s); simplify_eq.
    + destruct Hl as [Hsub Hl]. destruct todo as [|x todo]; simplify_eq.
      * destruct (MaxActiveRuns cfg <=? count)%Z eqn:E; [done|]. split; [done|]. simpl.
        apply Z.leb_gt in E. change (running_in (graph s) []) with 0 in Hl.
        change (running_count s < MaxActiveRuns cfg)%Z. lia.
      * split; [done|]. simpl. split; [by etrans; [|exact Hsub]; constructor|].
        rewrite running_in_cons in Hl. unfold running_count in *. simpl.
        case_bool_decide as Hr; case_decide as Hr'; unfold is_running in *; try done; lia.
Qed.

Lemma step_limit s s' :
  inv g0 s -> limit_ok s -> step cfg true ctx0 s s' -> limit_ok s'.
Proof.
  intros Hinv Hl (w & a & Ha). destruct a; simpl in Ha.
  - by eapply mstep_limit.
  - apply thread_step_no_start in Ha as [? ?]. by eapply limit_same_main.
  - apply sig_step_no_start in Ha as [? ?]. by eapply limit_same_main.
  - by simplify_eq.
  - by simplify_eq.
Qed.

Lemma reachable_limit s s' :
  inv g0 s -> limit_ok s -> reachable cfg true ctx0 s s' -> limit_ok s'.
Proof.
  intros Hinv Hl Hr. revert Hinv Hl. induction Hr as [|s1 s2 s3 Hs Hr IH]; [done|].
  intros Hinv Hl. apply IH; [|by eapply step_limit]. by eapply step_inv.
Qed.

End limit.

(** ** A run that is not cancelled *)

Definition starting (p : sigpc) : bool :=
  match p with SStart _ _ | CStart => true | _ => false end.

(** Before the flag is set no call has marked a node, so every goroutine that
    may execute is on a running node. *)
Record quiet (s : state) : Prop := mk_quiet {
  quiet_ids : forall t, t ∈ threads s -> fst t ∈ nodes (graph s);
  quiet_sigs : canceled s = false -> Forall (fun p => starting p = true) (sigs s);
  quiet_busy : canceled s = false -> forall u, u ∈ busy_ids (threads s) ->
    status_of (graph s) u = NodeStatusRunning
}.

Section quiet.
Context (cfg : Config) (ctx0 : ctx) (g0 : ExecutionGraph) (Hgood : good_graph g0).

Lemma thread_step_quiet w i s s' :
  inv g0 s -> quiet s -> thread_step cfg true w i s = Some s' -> quiet s'.
Proof.
  intros Hinv [Hids Hsigs Hbusy]. unfold thread_step.
  destruct (threads s !! i) as [[u [c p]]|] eqn:Ht; [|done].
  destruct (node (graph s) u) as [n|] eqn:Hn; [|done].
  destruct (gostep cfg true w (graph s) (canceled s) n c p) as [e|] eqn:He; [|done].
  intros [= <-].
  assert (repeats_failures n = false) as Hrep by apply (good_repeat _ (inv_good g0 Hgood s Hinv) u n Hn).
  split; [|done|].
  - intros t. change (threads _) with (stepped i u e (threads s)).
    destruct (stepped_spec i u c p e _ Ht) as (l1 & l2 & E1 & ->). simpl.
    rewrite E1 in Hids. rewrite !elem_of_app. intros [Hx|[Hx|Hx]].
    + apply Hids. set_solver.
    + assert (fst t = u) as -> by (destruct (ef_next e); set_solver).
      apply (Hids (u, (c, p))). set_solver.
    + apply Hids. set_solver.
  - intros Hc x Hx. pose proof (thread_busy_sub cfg w i s g0 u c p n e Ht Hn Hrep He Hinv x Hx) as Hx'.
    specialize (Hbusy Hc x Hx'). destruct (decide (x = u)) as [->|Hne].
    + rewrite (thread_status_eq i s u n e Hn).
      rewrite (thread_busy_self cfg w i s g0 u c p n e Ht Hn Hrep He Hinv Hx).
      by rewrite <- (thread_status_old s u n Hn).
    + by rewrite (thread_status_ne i s u e x Hne).
Qed.

Lemma sig_step_quiet i s s' : quiet s -> sig_step i s = Some s' -> quiet s'.
Proof.
  intros [Hids Hsigs Hbusy]. unfold sig_step. destruct (sigs s !! i) as [p|] eqn:Hi; [|done].
  destruct (starting p) eqn:Hp.
  - destruct p; try done; simpl; intros [= <-]; by split.
  - assert (canceled s = true) as Hc.
    { destruct (canceled s); [done|]. specialize (Hsigs eq_refl). rewrite Forall_forall in Hsigs.
      apply list_elem_of_lookup_2 in Hi. specialize (Hsigs p Hi). congruence. }
    destruct (sigstep (graph s) p) as [[flag mark] next]. intros [= <-].
    split; destruct flag, mark; simpl; intros; congruence || (by apply Hids) || done.
Qed.

(** A move of the main loop keeps the goroutines, and the statuses of the nodes
    that have an active one. *)
Lemma quiet_main s s' :
  quiet s -> nodes (graph s') = nodes (graph s) -> threads s' = threads s -> sigs s' = sigs s ->
  canceled s' = canceled s ->
  (forall u, u ∈ active_ids (threads s) -> status_of (graph s') u = status_of (graph s) u) ->
  quiet s'.
Proof.
  intros [Hids Hsigs Hbusy] En Et Es Ec Hst. split; rewrite ?En, ?Et, ?Es, ?Ec; try done.
  intros Hc u Hu. rewrite Hst by (by apply busy_active). auto.
Qed.

Lemma mstep_quiet hd w s s' :
  inv g0 s -> quiet s -> mstep cfg hd ctx0 w s = Some s' -> quiet s'.
Proof.
  intros Hinv Hq Hstep. pose proof (inv_main _ _ Hinv) as Hok. unfold main_ok in Hok.
  assert (forall f id m, idle s id -> quiet (set_main (set_graph s (on_node f id (graph s))) m)) as Hidle.
  { intros f id m [_ Hid]. apply (quiet_main s); try done. intros u Hu. simpl.
    rewrite status_of_on_node, decide_False by (by intros ->). done. }
  assert (forall m, quiet (set_main s m)) as Hmove by (intros m; by apply (quiet_main s)).
  unfold mstep in Hstep. destruct (main s) eqn:Hm.
  1-4: repeat case_match; simplify_eq; apply Hmove.
  - destruct (node (graph s) dep) as [d|] eqn:Hd; [|done].
    pose proof (keeps_w_shouldContinue w d) as [Hk _].
    destruct (w_shouldContinue w d) as [cont d']. simplify_eq. apply (quiet_main s); try done.
    intros u _. simpl. rewrite status_of_on_node. case_decide; [|done]. subst. rewrite Hd.
    unfold status_of. rewrite Hd. done.
  - simplify_eq. apply Hidle. by destruct Hok as (_ & ? & _).
  - simplify_eq. apply Hidle. by destruct Hok as (_ & ? & _).
  - simplify_eq. apply Hmove.
  - destruct todo; simplify_eq; apply Hmove.
  - simplify_eq. destruct Hok as (_ & [Hid Hact] & _).
    destruct (good_nodes _ (inv_good g0 Hgood s Hinv) id Hid) as [n Hn].
    destruct Hq as [Hids Hsigs Hbusy]. split; [|done|]; simpl.
    + intros t [Ht|Ht]%elem_of_app; [by apply Hids|].
      apply list_elem_of_singleton in Ht as ->. done.
    + intros Hc u. rewrite ids_in_app, (status_of_set_status id _ _ u n Hn).
      intros [Hu|Hu]%elem_of_app; case_decide; auto. exfalso. set_solver.
  - destruct (existsb counted (threads s)); simplify_eq. apply Hmove.
  - simplify_eq. apply Hmove.
  - destruct hs as [|h hs]; [|destruct (HandlerNode s h) as [n|]]; simplify_eq.
    + by apply (quiet_main s).
    + destruct (runHandlerNode _ _ _ _) as [n' err]. simplify_eq. by apply (quiet_main s).
    + apply Hmove.
  - done.
Qed.

Lemma step_quiet s s' : inv g0 s -> quiet s -> step cfg true ctx0 s s' -> quiet s'.
Proof.
  intros Hinv Hq (w & a & Ha). destruct a; simpl in Ha.
  - by eapply mstep_quiet.
  - by eapply thread_step_quiet.
  - by eapply sig_step_quiet.
  - simplify_eq. destruct Hq as [? Hs ?]. split; [done| |done]. simpl. intros Hc.
    apply Forall_app. split; [by apply Hs|by constructor].
  - simplify_eq. destruct Hq as [? Hs ?]. split; [done| |done]. simpl. intros Hc.
    apply Forall_app. split; [by apply Hs|by constructor].
Qed.

Lemma reachable_quiet s s' : inv g0 s -> quiet s -> reachable cfg true ctx0 s s' -> quiet s'.
Proof.
  intros Hinv Hl Hr. revert Hinv Hl. induction Hr as [|s1 s2 s3 Hs Hr IH]; [done|].
  intros Hinv Hl. apply IH; [|by eapply step_quiet]. by eapply step_inv.
Qed.

(** The goroutines that may execute are at most the running nodes. *)
Lemma busy_count s :
  inv g0 s -> quiet s -> canceled s = false -> NoDup (nodes g0) ->
  length (busy_ids (threads s)) <= running_in (graph s) (nodes (graph s)).
Proof.
  intros Hinv [Hids _ Hbusy] Hc Hnd. apply NoDup_length_le.
  - eapply sublist_NoDup; [apply (inv_unique _ _ Hinv)|apply busy_sublist].
  - intros u Hu. apply list_elem_of_filter. split; [by apply Hbusy|].
    apply elem_of_ids_in in Hu as (t & Ht & <- & _). by apply Hids.
Qed.

End quiet.

Lemma Schedule_quiet cfg w canceled lastError g s :
  Schedule cfg w canceled lastError g = Ok s -> quiet s.
Proof.
  unfold Schedule. destruct (setup_error cfg w); [done|]. intros [= <-].
  split; simpl; [intros t Ht; by apply elem_of_nil in Ht|constructor|].
  intros _ u Hu. by apply elem_of_nil in Hu.
Qed.
