(* ===== verification/SchedResult.v ===== *)
(** * The result of a run

    When the main loop of a run that is not cancelled leaves its loop every node
    has settled; a failed node leaves an error in the scheduler, provided no
    command panics; so the status of the scheduler after the steps, and what
    [Schedule] returns, say what happened to the nodes. *)

From S2P Require Import Prelude GoStrings Vars Digraph NodeData Contexts Node Graph.
From S2P Require Import Sched SchedInv SchedOrder SchedLimit.

Section result.
Context (cfg : Config) (ctx0 : ctx) (g0 : ExecutionGraph) (Hgood : good_graph g0).

(** ** Steps other than the main loop's *)

Lemma thread_step_calm w i s s' :
  inv g0 s -> thread_step cfg true w i s = Some s' ->
  calm s s' /\ main s' = main s /\ canceled s' = canceled s.
Proof.
  intros Hinv. unfold thread_step. destruct (threads s !! i) as [[u [c p]]|] eqn:Ht; [|done].
  destruct (node (graph s) u) as [n|] eqn:Hn; [|done].
  destruct (gostep cfg true w (graph s) (canceled s) n c p) as [e|] eqn:He; [|done].
  intros [= <-]. split; [|done]. eapply (thread_calm cfg w i s g0 u c p n e); try done.
  by apply (good_repeat _ (inv_good g0 Hgood s Hinv) u).
Qed.

Lemma sig_step_calm i s s' :
  sig_step i s = Some s' ->
  calm s s' /\ main s' = main s /\ (canceled s' = false -> canceled s = false).
Proof.
  unfold sig_step. destruct (sigs s !! i) as [p|]; [|done].
  assert (forall id s1, calm s1 (set_graph s1 (set_status_of id NodeStatusCancel (graph s1)))) as Hc.
  { intros id s1. by apply write_calm. }
  destruct (sigstep (graph s) p) as [[[] [id|]] next]; intros [= <-]; split_and!; try done.
  - destruct (Hc id (setCanceled s)) as [? ? ? Hs]. split; [done..|]. apply Hs.
  - destruct (Hc id s) as [? ? ? Hs]. split; [done..|]. apply Hs.
Qed.

(** ** Leaving the loop *)

Definition loop_done (s : state) : Prop :=
  canceled s = false ->
  match main s with
  | MFinished todo => exists pre, nodes (graph s) = pre ++ todo /\ Forall (settled s) pre
  | MWait | MStatus | MHandlers _ | MReturn _ => Forall (settled s) (nodes (graph s))
  | _ => True
  end.

Lemma calm_Forall s s' l : calm s s' -> Forall (settled s) l -> Forall (settled s') l.
Proof. intros Hc Hl. eapply Forall_impl; [exact Hl|]. apply (calm_settled _ _ Hc). Qed.

Lemma calm_loop_done s s' :
  calm s s' -> main s' = main s -> (canceled s' = false -> canceled s = false) ->
  loop_done s -> loop_done s'.
Proof.
  intros Hc Hm Hcan Hl Hf. specialize (Hl (Hcan Hf)). rewrite Hm, (calm_nodes _ _ Hc).
  destruct (main s); try done; try (by eapply calm_Forall).
  destruct Hl as (pre & ? & ?). exists pre. split; [done|]. by eapply calm_Forall.
Qed.

(** A node whose status the scan accepts has settled, while nothing is held
    and the run is not cancelled. *)
Lemma scan_settled s u :
  quiet s -> canceled s = false -> focus (main s) = None ->
  status_of (graph s) u <> NodeStatusNone -> status_of (graph s) u <> NodeStatusRunning ->
  settled s u.
Proof.
  intros Hq Hc Hf ? ?. split_and!; [done..| |by rewrite Hf].
  intros Hb. by apply (quiet_busy _ Hq Hc) in Hb.
Qed.

Lemma settled_focus_none s s' u :
  graph s' = graph s -> threads s' = threads s -> focus (main s') = None ->
  settled s u -> settled s' u.
Proof. intros Eg Et Hf (? & ? & ? & _). unfold settled. by rewrite Eg, Et, Hf. Qed.

Lemma mstep_loop_done hd w s s' :
  quiet s -> loop_done s -> mstep cfg hd ctx0 w s = Some s' -> loop_done s'.
Proof.
  intros Hq Hl Hstep Hc. unfold mstep in Hstep. unfold loop_done in Hl.
  destruct (main s) eqn:Hm.
  - destruct todo as [|id todo].
    + simplify_eq. destruct (Hl Hc) as (pre & Hn & Hpre). simpl. rewrite Hn, app_nil_r.
      eapply Forall_impl; [exact Hpre|]. intros u. by apply settled_focus_none.
    + assert (canceled s = false) as Hc'.
      { destruct (status_of (graph s) id); simplify_eq; exact Hc. }
      destruct (Hl Hc') as (pre & Hpre & Hset).
      destruct (status_of (graph s) id) eqn:Hst; simplify_eq; try done;
        (exists (pre ++ [id]); split; [rewrite <- app_assoc; exact Hpre|]; apply Forall_app; split;
         [eapply Forall_impl; [exact Hset|]; intros u; by apply settled_focus_none|
          constructor; [|constructor]; apply (settled_focus_none s); try done;
          apply scan_settled; [done|done|by rewrite Hm|by rewrite Hst|by rewrite Hst]]).
  - simplify_eq. change (canceled (set_main _ _)) with (canceled s) in Hc. by rewrite Hc.
  - destruct rest; simplify_eq; [|by case_bool_decide]. simpl. by exists [].
  - destruct deps; [simplify_eq; by destruct ready|].
    by destruct (dep_action (status_of (graph s) z)) as [[[] ?]|]; simplify_eq.
  - destruct (node (graph s) dep); [|done]. destruct (w_shouldContinue w n) as [[] ?]; by simplify_eq.
  - simplify_eq. by destruct b.
  - by simplify_eq.
  - simplify_eq. simpl. change (canceled (set_main _ _)) with (canceled s) in Hc. rewrite Hc.
    by destruct (0 <? MaxActiveRuns cfg)%Z.
  - destruct todo; simplify_eq; [by destruct (MaxActiveRuns cfg <=? count)%Z|done].
  - by simplify_eq.
  - destruct (existsb counted (threads s)); simplify_eq. specialize (Hl Hc). simpl.
    eapply Forall_impl; [exact Hl|]. intros u. by apply settled_focus_none.
  - simplify_eq. specialize (Hl Hc). simpl.
    eapply Forall_impl; [exact Hl|]. intros u. by apply settled_focus_none.
  - destruct hs as [|h hs].
    + simplify_eq. specialize (Hl Hc). simpl. eapply Forall_impl; [exact Hl|].
      by intros u (? & ? & ? & _).
    + destruct (HandlerNode s h) as [n|].
      * destruct (runHandlerNode cfg w ctx0 (graph s) n) as [n' err]. simplify_eq.
        specialize (Hl Hc). simpl. eapply Forall_impl; [exact Hl|]. intros u. by apply settled_focus_none.
      * simplify_eq. specialize (Hl Hc). simpl.
        eapply Forall_impl; [exact Hl|]. intros u. by apply settled_focus_none.
  - done.
Qed.

Lemma step_loop_done s s' :
  inv g0 s -> quiet s -> loop_done s -> step cfg true ctx0 s s' -> loop_done s'.
Proof.
  intros Hinv Hq Hl (w & a & Ha). destruct a; simpl in Ha.
  - by eapply mstep_loop_done.
  - destruct (thread_step_calm w i s s' Hinv Ha) as (? & ? & Hc).
    eapply calm_loop_done; [done..|by rewrite Hc|done].
  - destruct (sig_step_calm i s s' Ha) as (? & ? & ?). by eapply calm_loop_done.
  - simplify_eq. exact Hl.
  - simplify_eq. exact Hl.
Qed.

Lemma reachable_loop_done s s' :
  inv g0 s -> quiet s -> loop_done s -> reachable cfg true ctx0 s s' -> loop_done s'.
Proof.
  intros Hinv Hq Hl Hr. revert Hinv Hq Hl. induction Hr as [|s1 s2 s3 Hs Hr IH]; [done|].
  intros Hinv Hq Hl. apply IH; [by eapply step_inv|by eapply step_quiet|by eapply step_loop_done].
Qed.

(** ** The status after the loop *)

Lemma step_startedAt s s' : step cfg true ctx0 s s' -> startedAt (graph s') = startedAt (graph s).
Proof.
  intros (w & a & Ha). destruct a; simpl in Ha; [|..|by simplify_eq|by simplify_eq].
  - unfold mstep in Ha. destruct (main s); repeat case_match; by simplify_eq.
  - unfold thread_step in Ha. repeat case_match; try done.
    by apply fmap_Some in Ha as (e & _ & ->).
  - unfold sig_step in Ha. destruct (sigs s !! i) as [p|]; [|done].
    by destruct (sigstep (graph s) p) as [[[] []] ?]; simplify_eq.
Qed.

Lemma reachable_startedAt s s' :
  reachable cfg true ctx0 s s' -> startedAt (graph s') = startedAt (graph s).
Proof. induction 1 as [|s1 s2 s3 Hs _ IH]; [done|]. by rewrite IH, (step_startedAt _ _ Hs). Qed.

Lemma settled_not_running s :
  (forall id, id ∈ nodes (graph s) -> status_of (graph s) id <> NodeStatusRunning) ->
  IsRunning (graph s) = false.
Proof.
  intros H. unfold IsRunning, Nodes. apply not_true_is_false. rewrite existsb_exists.
  intros (n & Hn & Hr). apply bool_decide_eq_true in Hr.
  apply list_elem_of_In, list_elem_of_omap in Hn as (id & Hid & Hn). apply (H id Hid).
  unfold status_of. by rewrite Hn.
Qed.

Lemma isSucceed_not_running g : isSucceed g = true -> IsRunning g = false.
Proof.
  unfold isSucceed, IsRunning. rewrite forallb_forall. intros H. apply not_true_is_false.
  rewrite existsb_exists. intros (n & Hn & Hr). apply bool_decide_eq_true in Hr.
  specialize (H n Hn). rewrite Hr in H. done.
Qed.

(** The status [Schedule] picks its handlers by: a cancelled run that did not
    succeed, or the error it recorded. *)
Lemma status_after_loop s :
  IsStarted (graph s) = true -> loop_done s ->
  match main s with MWait | MStatus | MHandlers _ | MReturn _ => True | _ => False end ->
  SchedulerStatus s =
    if canceled s && negb (isSucceed (graph s)) then StatusCancel
    else if isError s then StatusError else StatusSuccess.
Proof.
  intros Hst Hl Hm. unfold SchedulerStatus. rewrite Hst. simpl.
  destruct (canceled s) eqn:Hc; simpl.
  - destruct (isSucceed (graph s)) eqn:Hsu; simpl; [|done]. by rewrite isSucceed_not_running.
  - rewrite settled_not_running; [done|]. intros id Hid. specialize (Hl Hc).
    destruct (main s); try done; rewrite Forall_forall in Hl; by destruct (Hl id Hid) as (_ & ? & _).
Qed.

End result.

Lemma Schedule_loop_done cfg w canceled lastError g s :
  Schedule cfg w canceled lastError g = Ok s -> loop_done s.
Proof.
  unfold Schedule. destruct (setup_error cfg w); [done|]. intros [= <-] _. by exists [].
Qed.

(** ** Failed nodes and the error of the scheduler *)

(** A step during which no command panics. *)
Definition quiet_step (cfg : Config) (ctx0 : ctx) (s s' : state) : Prop :=
  exists w a, w_panic w = None /\ act cfg true ctx0 w a s = Some s'.

Definition panicking (p : pc) : bool :=
  match p with
  | PDeferTeardown (Some _) | PDeferFinish (Some _) | PWgDone (Some _)
  | PRecoverMark _ | PRecoverLast _ => true
  | _ => false
  end.

(** Positions between the write of a failed status and the record of the error. *)
Definition owes (p : pc) : bool :=
  match p with PMarkChk _ | PMarkSuccess _ | PMarkError _ | PLastErr _ => true | _ => false end.

(** Positions reached after the error was recorded. *)
Definition recorded (p : pc) : bool :=
  match p with PSetupMark _ | PTeardownErr => true | _ => false end.

Section failed.
Context (cfg : Config) (ctx0 : ctx).

Record failed_ok (s : state) : Prop := mk_failed {
  failed_panic : forall t, t ∈ threads s -> panicking (snd (snd t)) = false;
  failed_recorded : forall t, t ∈ threads s -> recorded (snd (snd t)) = true -> isError s = true;
  failed_error : isError s = false -> forall x, status_of (graph s) x = NodeStatusError ->
    exists t, t ∈ threads s /\ fst t = x /\ owes (snd (snd t)) = true;
  failed_main : match main s with
                | MStatus | MHandlers _ => threads s = []
                | MReturn e => threads s = [] /\ e = lastError s
                | _ => True
                end
}.

(** What a step of a goroutine does to the error it owes. *)
Lemma gostep_failed w g canceled n c p e :
  w_panic w = None -> panicking p = false ->
  gostep cfg true w g canceled n c p = Some e ->
  match ef_next e with
  | Some (_, p') =>
      panicking p' = false /\ (recorded p' = true -> is_Some (ef_last e)) /\
      (node_Status (ef_node e) = NodeStatusError ->
       owes p' = true \/ is_Some (ef_last e) \/ recorded p = true \/
       (node_Status n = NodeStatusError /\ owes p = false))
  | None => node_Status (ef_node e) = node_Status n /\ owes p = false
  end.
Proof.
  intros Hw Hp H. destruct p; try done; simpl in H; unfold goto, goto_last, goto_send in H;
    rewrite ?Hw in H;
    repeat match goal with
    | H : context [setupNode cfg w ?c ?n] |- _ =>
        pose proof (keeps_setupNode cfg w c n) as [? _]; destruct (setupNode cfg w c n) as [? [?|]]
    | H : context [w_setupExecutor w ?c ?n] |- _ =>
        pose proof (keeps_w_setupExecutor w c n) as [? _]; destruct (w_setupExecutor w c n) as [? [?|?]]
    | H : context [finishExecute ?c ?n] |- _ =>
        pose proof (keeps_finishExecute c n) as [? _]; destruct (finishExecute c n) as [? [?|]]
    | H : context [w_shouldMarkSuccess w ?n] |- _ =>
        pose proof (keeps_w_shouldMarkSuccess w n) as [? _];
        destruct (w_shouldMarkSuccess w n) as [[] ?]
    | H : context [teardownNode cfg w ?n] |- _ =>
        pose proof (keeps_teardownNode cfg w n) as [? _]; destruct (teardownNode cfg w n) as [? [?|]]
    end;
    repeat (case_match; simplify_eq/=); try done;
    split_and!; try done; intros; eauto; try discriminate;
    right; right; right; split; congruence.
Qed.

Lemma thread_step_failed w i s s' :
  w_panic w = None -> failed_ok s -> thread_step cfg true w i s = Some s' -> failed_ok s'.
Proof.
  intros Hw [Hpanic Hrec Herr Hmain]. unfold thread_step.
  destruct (threads s !! i) as [[u [c p]]|] eqn:Ht; [|done].
  destruct (node (graph s) u) as [n|] eqn:Hn; [|done].
  destruct (gostep cfg true w (graph s) (canceled s) n c p) as [e|] eqn:He; [|done].
  intros [= <-]. set (s' := apply_effect i u e s).
  assert ((u, (c, p)) ∈ threads s) as Hin by (by eapply list_elem_of_lookup_2).
  pose proof (gostep_failed w (graph s) (canceled s) n c p e Hw (Hpanic _ Hin) He) as Hg.
  assert (isError s = true -> isError s' = true) as Hmono.
  { unfold isError, s', apply_effect. simpl. destruct (ef_last e); [|done]. by rewrite !bool_decide_eq_true. }
  assert (is_Some (ef_last e) -> isError s' = true) as Hlast.
  { unfold isError, s', apply_effect. simpl. intros [x ->]. by apply bool_decide_eq_true. }
  assert (forall t, t ∈ threads s' -> t ∈ threads s \/ exists c' p', ef_next e = Some (c', p') /\ t = (u, (c', p'))) as Hsub.
  { intros t. change (threads s') with (stepped i u e (threads s)).
    destruct (stepped_spec i u c p e _ Ht) as (l1 & l2 & E1 & ->). rewrite E1.
    destruct (ef_next e) as [[c' p']|]; set_solver. }
  assert (forall t, t ∈ threads s -> t <> (u, (c, p)) -> t ∈ threads s') as Hkeep.
  { intros t. change (threads s') with (stepped i u e (threads s)).
    destruct (stepped_spec i u c p e _ Ht) as (l1 & l2 & E1 & ->). rewrite E1. set_solver. }
  assert (forall c' p', ef_next e = Some (c', p') -> (u, (c', p')) ∈ threads s') as Hnew.
  { intros c' p' E. change (threads s') with (stepped i u e (threads s)).
    destruct (stepped_spec i u c p e _ Ht) as (l1 & l2 & E1 & ->). rewrite E. set_solver. }
  split.
  - intros t [?|(c' & p' & E & ->)]%Hsub; [by apply Hpanic|]. rewrite E in Hg. apply Hg.
  - intros t [Hx|(c' & p' & E & ->)]%Hsub Hr; [by eapply Hmono, Hrec|].
    rewrite E in Hg. by apply Hlast, Hg.
  - intros Hns x Hx. assert (isError s = false) as Hs by (destruct (isError s); naive_solver).
    assert (forall t, t ∈ threads s -> fst t = x -> owes (snd (snd t)) = true -> t <> (u, (c, p)) ->
      exists t, t ∈ threads s' /\ fst t = x /\ owes (snd (snd t)) = true) as Hold by eauto.
    destruct (decide (x = u)) as [->|Hne].
    + pose proof (thread_status_eq i s u n e Hn) as Heq. change (apply_effect _ _ _ _) with s' in Heq.
      rewrite Heq in Hx.
      assert (node_Status n = NodeStatusError /\ owes p = false ->
              exists t, t ∈ threads s' /\ fst t = u /\ owes (snd (snd t)) = true) as Hstay.
      { intros [Hst Ho]. destruct (Herr Hs u) as (t & ? & ? & ?).
        - by rewrite (thread_status_old s u n Hn).
        - eapply Hold; [done..|]. intros ->. simpl in *. congruence. }
      destruct (ef_next e) as [[c' p']|] eqn:E.
      * destruct Hg as (_ & _ & Hg). destruct (Hg Hx) as [Ho|[Ho|[Ho|Ho]]].
        -- exists (u, (c', p')). split; [by apply Hnew|done].
        -- apply Hlast in Ho. congruence.
        -- apply (Hrec _ Hin) in Ho. congruence.
        -- by apply Hstay.
      * destruct Hg as [Hst Ho]. apply Hstay. by rewrite <- Hst.
    + pose proof (thread_status_ne i s u e x Hne) as Heq. change (apply_effect _ _ _ _) with s' in Heq.
      rewrite Heq in Hx. destruct (Herr Hs x Hx) as (t & ? & ? & ?). eapply Hold; [done..|]. intros ->. done.
  - change (main s') with (main s). destruct (main s); try done.
    + rewrite Hmain in Ht. done.
    + rewrite Hmain in Ht. done.
    + destruct Hmain as [Hmain _]. rewrite Hmain in Ht. done.
Qed.

(** Steps that make no node fail and keep the goroutines. *)
Lemma failed_frame s s' :
  failed_ok s -> threads s' = threads s -> (isError s = true -> isError s' = true) ->
  (forall x, status_of (graph s') x = NodeStatusError -> status_of (graph s) x = NodeStatusError) ->
  match main s' with
  | MStatus | MHandlers _ => threads s' = []
  | MReturn e => threads s' = [] /\ e = lastError s'
  | _ => True
  end ->
  failed_ok s'.
Proof.
  intros [Hp Hr He _] Et Hmono Hst Hm.
  split; [rewrite Et; exact Hp|rewrite Et; eauto|rewrite Et|exact Hm].
  intros Hns x Hx. apply He; [|by apply Hst]. destruct (isError s); naive_solver.
Qed.

Lemma on_node_no_error f id g x :
  (forall n, node g id = Some n -> node_Status (f n) = NodeStatusError -> node_Status n = NodeStatusError) ->
  status_of (on_node f id g) x = NodeStatusError -> status_of g x = NodeStatusError.
Proof.
  intros Hf. rewrite status_of_on_node. case_decide; subst; [|done].
  unfold status_of. destruct (node g id) as [n|]; [|done]. by apply Hf.
Qed.

Lemma sig_step_failed i s s' : failed_ok s -> sig_step i s = Some s' -> failed_ok s'.
Proof.
  intros Hf. unfold sig_step. destruct (sigs s !! i) as [p|]; [|done].
  destruct (sigstep (graph s) p) as [[flag mark] next]. intros [= <-].
  apply (failed_frame s); [done|by destruct flag, mark|by destruct flag, mark| |].
  - intros x. destruct flag, mark; simpl; try done; by apply on_node_no_error.
  - pose proof (failed_main s Hf) as Hm. destruct flag, mark; exact Hm.
Qed.

Lemma mstep_failed w s s' : failed_ok s -> mstep cfg true ctx0 w s = Some s' -> failed_ok s'.
Proof.
  intros Hf Hstep. pose proof (failed_main s Hf) as Hm'. unfold mstep in Hstep.
  destruct (main s) eqn:Hm.
  1-4: repeat case_match; simplify_eq; by apply (failed_frame s).
  - destruct (node (graph s) dep) as [d|] eqn:Hd; [|done].
    pose proof (keeps_w_shouldContinue w d) as [Hk _].
    destruct (w_shouldContinue w d) as [cont d']. simplify_eq.
    apply (failed_frame s); [done..| |by destruct cont]. intros x. apply on_node_no_error.
    intros n Hn. simplify_eq/=. by rewrite Hk.
  - simplify_eq. apply (failed_frame s); [done..| |by destruct b]. intros x.
    apply on_node_no_error. by destruct b.
  - simplify_eq. apply (failed_frame s); [done..| |done]. intros x. by apply on_node_no_error.
  - simplify_eq. apply (failed_frame s); try done. simpl. by repeat case_match.
  - destruct todo; simplify_eq; apply (failed_frame s); try done. simpl. by destruct (MaxActiveRuns cfg <=? count)%Z.
  - simplify_eq. destruct Hf as [Hp Hr He _]. split; [| | |done]; simpl.
    + intros t [Ht|Ht]%elem_of_app; [by apply Hp|].
      apply list_elem_of_singleton in Ht as ->. done.
    + intros t [Ht|Ht]%elem_of_app; [by apply Hr|].
      apply list_elem_of_singleton in Ht as ->. done.
    + intros Hs x Hx. destruct (He Hs x) as (t & ? & ? & ?).
      * revert Hx. by apply on_node_no_error.
      * exists t. set_solver.
  - destruct (existsb counted (threads s)) eqn:Hc; simplify_eq.
    apply (failed_frame s); try done. simpl. destruct (threads s) as [|t ts] eqn:Ht; [done|].
    exfalso. simpl in Hc. apply orb_false_iff in Hc as [Hc _].
    pose proof (failed_panic s Hf t ltac:(rewrite Ht; by left)) as Hp.
    unfold counted in Hc. by destruct (snd (snd t)) as [| | | | | | | | | | | | | | | | | | | | | | | | | | | | | | | |[]| |].
  - simplify_eq. by apply (failed_frame s).
  - destruct hs as [|h hs].
    + simplify_eq. by apply (failed_frame s).
    + destruct (HandlerNode s h) as [n|]; [|simplify_eq; by apply (failed_frame s)].
      destruct (runHandlerNode cfg w ctx0 (graph s) n) as [n' err]. simplify_eq.
      apply (failed_frame s); try done. unfold isError. simpl. destruct err; [|done].
      by rewrite !bool_decide_eq_true.
  - done.
Qed.

Lemma quiet_step_failed s s' : failed_ok s -> quiet_step cfg ctx0 s s' -> failed_ok s'.
Proof.
  intros Hf (w & a & Hw & Ha). destruct a; simpl in Ha.
  - by eapply mstep_failed.
  - by eapply thread_step_failed.
  - by eapply sig_step_failed.
  - simplify_eq. destruct Hf; by split.
  - simplify_eq. destruct Hf; by split.
Qed.

Lemma quiet_reachable_failed s s' : failed_ok s -> rtc (quiet_step cfg ctx0) s s' -> failed_ok s'.
Proof. intros Hf. induction 1; eauto using quiet_step_failed. Qed.

Lemma quiet_reachable s s' : rtc (quiet_step cfg ctx0) s s' -> reachable cfg true ctx0 s s'.
Proof.
  unfold reachable. induction 1 as [|s1 s2 s3 (w & a & _ & Ha) _ IH]; [apply rtc_refl|].
  eapply rtc_l; [|exact IH]. by exists w, a.
Qed.

End failed.

Lemma Schedule_failed cfg w canceled lastError g s :
  (forall x, status_of g x <> NodeStatusError) ->
  Schedule cfg w canceled lastError g = Ok s -> failed_ok s.
Proof.
  intros Hg. unfold Schedule. destruct (setup_error cfg w); [done|]. intros [= <-].
  split; simpl; [by intros t Ht%elem_of_nil..| |done].
  intros _ x Hx. exfalso. exact (Hg x Hx).
Qed.
