(* ===== verification/SchedReady.v ===== *)
(** * Readiness of a node

    [isReady] in closed form: what each dependency says, and what is written to
    the node; the main loop, alone, computes it; the decision to continue after
    a failure is cached and stable. *)

From S2P Require Import Prelude GoStrings Vars Digraph NodeData Contexts Node Graph Sched SchedInv.

(** ** The cached decision *)

Section continue.
Context (compile : string -> option (string -> bool)) (open_log : string -> log_file)
  (scan_error : error).

Abbreviation by_match := (continue_by_match compile open_log scan_error).
Abbreviation should := (shouldContinue compile open_log scan_error).

Lemma contains_cacheKey n :
  contains (node_Name n) "=" = false -> contains (cacheKey n) "=" = false.
Proof. intros H. unfold cacheKey. by rewrite !contains_char_app, H. Qed.

(** Once an answer is stored, it is the answer. *)
Lemma by_match_cached n b :
  contains (node_Name n) "=" = false ->
  by_match (on_data (fun d => SafeData.setBoolVariable d (cacheKey n) b) n) =
  (b, on_data (fun d => SafeData.setBoolVariable d (cacheKey n) b) n).
Proof.
  intros Hn. set (n1 := on_data _ n).
  assert (SafeData.getBoolVariable (n_data n1) (cacheKey n1) = Some b) as E.
  { change (cacheKey n1) with (cacheKey n). apply getBoolVariable_setBoolVariable.
    by apply contains_cacheKey. }
  unfold continue_by_match. by rewrite E.
Qed.

Lemma by_match_idemp n :
  contains (node_Name n) "=" = false ->
  by_match (snd (by_match n)) = by_match n.
Proof.
  intros Hn. unfold continue_by_match at 2 3.
  destruct (SafeData.getBoolVariable (n_data n) (cacheKey n)) as [v|] eqn:E.
  { simpl. unfold continue_by_match. by rewrite E. }
  destruct (SafeData.MatchExitCode _ _) eqn:Em; [by apply by_match_cached|].
  destruct (Digraph.ContinueOn.Output _) eqn:Eo; [by apply by_match_cached|].
  destruct (LogContainsPattern _ _ _ n _) as [[]|e] eqn:El; [by apply by_match_cached..|].
  simpl. unfold continue_by_match. by rewrite E, Em, Eo, El.
Qed.

(** Asking again gives the same answer and changes nothing. *)
Lemma should_idemp n :
  contains (node_Name n) "=" = false -> should (snd (should n)) = should n.
Proof.
  intros Hn. pose proof (keeps_shouldContinue compile open_log scan_error n) as [Hst [_ _ _ _ Hc]].
  unfold shouldContinue at 1. unfold SafeData.ContinueOn. rewrite Hst.
  unfold SafeData.ContinueOn in *. rewrite Hc. unfold shouldContinue, SafeData.ContinueOn.
  destruct (node_Status n) eqn:E; try done; destruct (ContinueOn.Failure _) || destruct (ContinueOn.Skipped _);
    try done; by apply by_match_idemp.
Qed.

End continue.

(** ** What the dependencies say *)

Inductive verdict := VGo | VWait | VBlock (b : block).

#[export] Instance block_eq_dec : EqDecision block.
Proof. solve_decision. Defined.
#[export] Instance verdict_eq_dec : EqDecision verdict.
Proof. solve_decision. Defined.

Definition continues (w : world) (g : ExecutionGraph) (dep : Z) : bool :=
  match node g dep with Some d => fst (w_shouldContinue w d) | None => true end.

Definition dep_verdict (w : world) (g : ExecutionGraph) (dep : Z) : verdict :=
  match status_of g dep with
  | NodeStatusSuccess => VGo
  | NodeStatusNone | NodeStatusRunning => VWait
  | NodeStatusError => if continues w g dep then VGo else VBlock BlockFailed
  | NodeStatusSkipped => if continues w g dep then VGo else VBlock BlockSkipped
  | NodeStatusCancel => VBlock BlockCancel
  end.

Definition is_go (v : verdict) : bool := bool_decide (v = VGo).

Lemma andb_go ready : ready && is_go VGo = ready.
Proof. apply andb_true_r. Qed.
Lemma andb_block ready b : ready && is_go (VBlock b) = false.
Proof. apply andb_false_r. Qed.

(** The last blocking dependency decides what is written to the node. *)
Definition last_block (st : NodeStatus) (vs : list verdict) : NodeStatus :=
  foldl (fun st v => match v with VBlock b => block_status b | _ => st end) st vs.

(** A graph that differs from another by cached answers only, away from [id]. *)
Definition cached (w : world) (id : Z) (g g' : ExecutionGraph) : Prop :=
  forall x, x <> id -> node g' x = node g x \/
    exists d, node g x = Some d /\ node g' x = Some (snd (w_shouldContinue w d)).

Definition plain_names (g : ExecutionGraph) : Prop :=
  forall x n, node g x = Some n -> contains (node_Name n) "=" = false.

Section ready.
Context (w : world) (g : ExecutionGraph) (id : Z).
Context (Hnames : plain_names g) (Hid : is_Some (node g id)).

Lemma cached_status g' x : cached w id g g' -> x <> id -> status_of g' x = status_of g x.
Proof.
  intros Hc Hx. unfold status_of. destruct (Hc x Hx) as [->|(d & -> & ->)]; [done|].
  by destruct (keeps_w_shouldContinue w d).
Qed.

Lemma cached_verdict g' x : cached w id g g' -> x <> id -> dep_verdict w g' x = dep_verdict w g x.
Proof.
  intros Hc Hx. unfold dep_verdict. rewrite (cached_status g' x Hc Hx).
  replace (continues w g' x) with (continues w g x); [done|]. unfold continues.
  destruct (Hc x Hx) as [->|(d & Hd & ->)]; [done|]. rewrite Hd. symmetry. f_equal.
  unfold w_shouldContinue. apply should_idemp. by eapply Hnames.
Qed.

Lemma status_block_node g' b x :
  is_Some (node g' id) ->
  status_of (block_node id b g') x = if decide (x = id) then block_status b else status_of g' x.
Proof.
  intros [n Hn]. unfold block_node.
  pose proof (status_of_set_status id (block_status b) g' x n Hn) as H. unfold set_status_of in H.
  destruct (block_error b); [|exact H]. rewrite status_of_on_node, node_on_node, Hn.
  rewrite (decide_True (P := id = id)) by done. simpl. by case_decide.
Qed.

Lemma cached_block g' b : cached w id g g' -> cached w id g (block_node id b g').
Proof.
  intros Hc x Hx. assert (node (block_node id b g') x = node g' x) as ->; [|by apply Hc].
  unfold block_node. destruct (block_error b); by rewrite !node_on_node, !decide_False by done.
Qed.

Lemma same_graph_block g' b : same_graph g' (block_node id b g').
Proof.
  unfold block_node. destruct (block_error b); [etrans|]; by apply same_graph_on_node.
Qed.

(** One iteration of the loop. *)
Lemma isReady_dep_spec ready g' dep :
  cached w id g g' -> dep <> id -> is_Some (node g' id) ->
  let '(ready', g'') := isReady_dep w id (ready, g') dep in
  ready' = ready && is_go (dep_verdict w g dep) /\ cached w id g g'' /\ same_graph g' g'' /\
  status_of g'' id = last_block (status_of g' id) [dep_verdict w g dep].
Proof.
  intros Hc Hdep Hid'. simpl. rewrite <- (cached_verdict g' dep Hc Hdep). unfold dep_verdict, dep_action.
  assert (forall d, node g' dep = Some d ->
            cached w id g (on_node (fun _ => snd (w_shouldContinue w d)) dep g') /\
            same_graph g' (on_node (fun _ => snd (w_shouldContinue w d)) dep g') /\
            status_of (on_node (fun _ => snd (w_shouldContinue w d)) dep g') id = status_of g' id)
    as Hcache.
  { intros d Hd. split_and!.
    - intros x Hx. rewrite node_on_node. case_decide; subst; [|by apply Hc].
      rewrite Hd. simpl. destruct (Hc dep Hx) as [E|(d0 & E & E')].
      + right. exists d. by rewrite <- E.
      + right. exists d0. split; [done|]. f_equal. rewrite Hd in E'. simplify_eq.
        unfold w_shouldContinue. rewrite should_idemp; [done|by eapply Hnames].
    - apply same_graph_on_node. intros n Hn. rewrite Hd in Hn. injection Hn as <-. by destruct (keeps_w_shouldContinue w d).
    - rewrite status_of_on_node, decide_False by done. done. }
  destruct (status_of g' dep) eqn:Hst; simpl.
  - done.
  - done.
  - unfold continues. destruct (node g' dep) as [d|] eqn:Hd; [|by rewrite andb_go].
    destruct (Hcache d eq_refl) as (H1 & H2 & H3). destruct (w_shouldContinue w d) as [[] d']; simpl in *.
    + by rewrite andb_go.
    + rewrite andb_block. split_and!; [done|by apply cached_block|by etrans; [|apply same_graph_block]|].
      rewrite status_block_node by (by eapply same_graph_some).
      by rewrite decide_True.
  - rewrite andb_block. split_and!; [done|by apply cached_block|apply same_graph_block|].
    rewrite status_block_node by done. by rewrite decide_True.
  - done.
  - unfold continues. destruct (node g' dep) as [d|] eqn:Hd; [|by rewrite andb_go].
    destruct (Hcache d eq_refl) as (H1 & H2 & H3). destruct (w_shouldContinue w d) as [[] d']; simpl in *.
    + by rewrite andb_go.
    + rewrite andb_block. split_and!; [done|by apply cached_block|by etrans; [|apply same_graph_block]|].
      rewrite status_block_node by (by eapply same_graph_some).
      by rewrite decide_True.
Qed.

Lemma isReady_loop_spec deps ready g' :
  cached w id g g' -> id ∉ deps -> is_Some (node g' id) ->
  let '(ready', g'') := foldl (isReady_dep w id) (ready, g') deps in
  ready' = ready && forallb (fun dep => is_go (dep_verdict w g dep)) deps /\
  cached w id g g'' /\ same_graph g' g'' /\
  status_of g'' id = last_block (status_of g' id) (dep_verdict w g <$> deps).
Proof.
  revert ready g'. induction deps as [|dep deps IH]; intros ready g' Hc Hdeps Hid'.
  { simpl. by rewrite andb_true_r. }
  apply not_elem_of_cons in Hdeps as [Hdep Hdeps]. cbn [foldl].
  pose proof (isReady_dep_spec ready g' dep Hc (not_eq_sym Hdep) Hid') as H1.
  destruct (isReady_dep w id (ready, g') dep) as [ready1 g1]. destruct H1 as (-> & Hc1 & Hs1 & Hst1).
  assert (is_Some (node g1 id)) as Hid1 by (by eapply same_graph_some).
  pose proof (IH (ready && is_go (dep_verdict w g dep)) g1 Hc1 Hdeps Hid1) as H2.
  destruct (foldl (isReady_dep w id) _ deps) as [ready2 g2]. destruct H2 as (-> & Hc2 & Hs2 & Hst2).
  split_and!; [by rewrite <- andb_assoc|done|by etrans|]. by rewrite Hst2, Hst1.
Qed.

End ready.

(** ** The main loop computes [isReady] *)

Section refine.
Context (cfg : Config) (hd : bool) (ctx0 : ctx) (w : world).

(** Steps of the main loop alone. *)
Definition main_step (s s' : state) : Prop := mstep cfg hd ctx0 w s = Some s'.

Lemma main_step_rtc s s1 s2 : mstep cfg hd ctx0 w s = Some s1 -> rtc main_step s1 s2 -> rtc main_step s s2.
Proof. intros H. by apply rtc_l. Qed.

Lemma block_steps s id b deps rest :
  main s = MBlock id b deps rest ->
  rtc main_step s (set_main (set_graph s (block_node id b (graph s))) (MReady id deps false rest)).
Proof.
  intros Hm. unfold block_node, set_status_of. destruct (block_error b) as [e|] eqn:Hb.
  - eapply main_step_rtc; [unfold mstep; by rewrite Hm, Hb|].
    eapply main_step_rtc; [by unfold mstep|]. done.
  - eapply main_step_rtc; [unfold mstep; by rewrite Hm, Hb|]. done.
Qed.

Lemma isReady_dep_steps s id dep deps ready rest :
  is_Some (node (graph s) dep) -> main s = MReady id (dep :: deps) ready rest ->
  let '(ready', g') := isReady_dep w id (ready, graph s) dep in
  rtc main_step s (set_main (set_graph s g') (MReady id deps ready' rest)).
Proof.
  intros [d Hd] Hm. simpl. destruct (dep_action (status_of (graph s) dep)) as [[[] b]|] eqn:Ha.
  - rewrite Hd. destruct (w_shouldContinue w d) as [cont d'] eqn:Hs.
    assert (rtc main_step s (set_main (set_graph s (on_node (fun _ => d') dep (graph s)))
              (if cont then MReady id deps ready rest else MBlock id b deps rest))) as H1.
    { eapply main_step_rtc; [unfold mstep; by rewrite Hm, Ha|].
      eapply main_step_rtc; [unfold mstep; simpl; by rewrite Hd, Hs|]. done. }
    destruct cont; [exact H1|]. etrans; [exact H1|].
    set (s1 := set_main _ _). exact (block_steps s1 id b deps rest eq_refl).
  - eapply main_step_rtc; [unfold mstep; by rewrite Hm, Ha|].
    exact (block_steps (set_main s (MBlock id b deps rest)) id b deps rest eq_refl).
  - eapply main_step_rtc; [unfold mstep; by rewrite Hm, Ha|]. destruct s. done.
Qed.

Lemma isReady_steps deps s id ready rest :
  (forall dep, dep ∈ deps -> is_Some (node (graph s) dep)) -> id ∉ deps ->
  is_Some (node (graph s) id) -> plain_names (graph s) ->
  main s = MReady id deps ready rest ->
  let '(ready', g') := foldl (isReady_dep w id) (ready, graph s) deps in
  rtc main_step s (set_main (set_graph s g') (MReady id [] ready' rest)).
Proof.
  intros Hdeps Hid Hn Hnames. revert s ready Hdeps Hn Hnames.
  induction deps as [|dep deps IH]; intros s ready Hdeps Hn Hnames Hm.
  { simpl. destruct s. simpl in *. by subst. }
  apply not_elem_of_cons in Hid as [Hdep Hid]. cbn [foldl].
  pose proof (isReady_dep_steps s id dep deps ready rest (Hdeps dep ltac:(by left)) Hm) as H1.
  pose proof (isReady_dep_spec w (graph s) id Hnames ready (graph s) dep ltac:(intros x _; by left)
                (not_eq_sym Hdep) Hn) as Hspec.
  destruct (isReady_dep w id (ready, graph s) dep) as [ready1 g1].
  destruct Hspec as (_ & _ & Hsame & _).
  specialize (IH Hid (set_main (set_graph s g1) (MReady id deps ready1 rest)) ready1).
  cbn [graph main set_main set_graph] in IH.
  assert (forall x, is_Some (node (graph s) x) -> is_Some (node g1 x)) as Hsome.
  { intros x. by apply same_graph_some. }
  assert (plain_names g1) as Hn1.
  { intros x n Hx. destruct (same_graph_back _ _ x n Hsame Hx) as (n0 & Hx0 & [_ Hname _ _ _]).
    rewrite Hname. by eapply Hnames. }
  specialize (IH ltac:(intros y Hy; apply Hsome, Hdeps; by right) (Hsome _ Hn) Hn1 eq_refl).
  destruct (foldl (isReady_dep w id) (ready1, g1) deps) as [ready2 g2].
  etrans; [exact H1|exact IH].
Qed.

End refine.

(** ** Progress of the main loop

    While nothing runs and some node has not started, one pass of the main loop
    over an acyclic graph launches a node or settles one: the loop never waits
    for an event that cannot happen. *)

(** Graphs the constructors build: every listed node and every dependency is in
    the store, nothing depends on itself through any number of edges. *)
Record closed_graph (g : ExecutionGraph) : Prop := mk_closed {
  closed_nodes : forall id, id ∈ nodes g -> is_Some (node g id);
  closed_deps : forall id dep, dep ∈ adj (to_ g) id -> dep ∈ nodes g;
  closed_acyclic : ~ exists x, tc (fun u v => u ∈ adj (to_ g) v) x x
}.

Lemma closed_same_graph g g' : same_graph g g' -> closed_graph g -> closed_graph g'.
Proof.
  intros Hs [Hn Hd Ha]. split.
  - intros id. rewrite (sg_nodes _ _ Hs). intros Hid. eapply same_graph_some; [exact Hs|]. auto.
  - intros id dep. rewrite (sg_to _ _ Hs), (sg_nodes _ _ Hs). apply Hd.
  - by rewrite (sg_to _ _ Hs).
Qed.

Lemma closed_no_loop g id : closed_graph g -> id ∉ adj (to_ g) id.
Proof. intros Hg Hid. apply (closed_acyclic g Hg). exists id. by apply tc_once. Qed.

Definition not_started (g : ExecutionGraph) (x : Z) : Prop := status_of g x = NodeStatusNone.

#[export] Instance not_started_dec g x : Decision (not_started g x).
Proof. unfold not_started. apply _. Defined.

(** Some node that has not started has only dependencies that have. *)
Lemma source_exists g v :
  closed_graph g -> v ∈ nodes g -> not_started g v ->
  exists x, x ∈ nodes g /\ not_started g x /\
    forall dep, dep ∈ adj (to_ g) x -> ~ not_started g dep.
Proof.
  intros Hg Hv Hst.
  destruct (decide (Exists (fun x => not_started g x /\
              Forall (fun dep => ~ not_started g dep) (adj (to_ g) x)) (nodes g))) as [Hx|Hx].
  - apply Exists_exists in Hx as (x & Hx & Hs & Hd). exists x. split_and!; [done..|].
    by apply Forall_forall.
  - exfalso. apply (closed_acyclic g Hg).
    apply (pred_closed_cycle _ (nodes g) (fun x => x ∈ nodes g /\ not_started g x) v); [done|by intros ? []|].
    intros x [Hxn Hxs]. apply not_Exists_Forall in Hx; [|apply _]. rewrite Forall_forall in Hx.
    specialize (Hx x Hxn). destruct (decide (Forall (fun dep => ~ not_started g dep) (adj (to_ g) x))) as [Hf|Hf].
    { exfalso. by apply Hx. }
    apply not_Forall_Exists in Hf; [|apply _]. apply Exists_exists in Hf as (y & Hy & Hys).
    apply dec_stable in Hys. exists y. split; [|done]. split; [by eapply closed_deps|done].
Qed.

Section progress.
Context (cfg : Config) (hd : bool) (ctx0 : ctx) (w : world).

Abbreviation steps := (rtc (main_step cfg hd ctx0 w)).

(** What a pass achieves: a node that had not started has been started or
    settled. *)
Definition advanced (g : ExecutionGraph) (s : state) : Prop :=
  exists x, x ∈ nodes g /\ not_started g x /\ ~ not_started (graph s) x.

Lemma count_steps todo s id n rest :
  main s = MCount id todo n rest ->
  (forall x, x ∈ todo -> status_of (graph s) x <> NodeStatusRunning) ->
  steps s (set_main s (MCount id [] n rest)).
Proof.
  revert s. induction todo as [|x todo IH]; intros s Hm Hx.
  - destruct s. simpl in *. by subst.
  - eapply main_step_rtc.
    + unfold mstep. rewrite Hm, bool_decide_false by (apply Hx; by left). done.
    + apply (IH (set_main s (MCount id todo n rest))); [done|]. intros y Hy. apply Hx. by right.
Qed.

(** A node found ready is launched when nothing runs. *)
Lemma launch_steps s id rest :
  canceled s = false -> main s = MReady id [] true rest ->
  (forall x, x ∈ nodes (graph s) -> status_of (graph s) x <> NodeStatusRunning) ->
  is_Some (node (graph s) id) ->
  exists s', steps s s' /\ status_of (graph s') id = NodeStatusRunning.
Proof.
  intros Hc Hm Hrun [n Hn].
  assert (forall s1, graph s1 = graph s -> main s1 = MLaunch id rest ->
            exists s', steps s1 s' /\ status_of (graph s') id = NodeStatusRunning) as Hlaunch.
  { intros s1 Hg Hm1. eexists. split.
    - eapply main_step_rtc; [unfold mstep; by rewrite Hm1|]. apply rtc_refl.
    - simpl. rewrite Hg, (status_of_set_status id _ _ _ n Hn). by rewrite decide_True. }
  set (s1 := set_main s (MCancelChk2 id rest)).
  assert (mstep cfg hd ctx0 w s = Some s1) as H1 by (unfold mstep; by rewrite Hm).
  destruct (0 <? MaxActiveRuns cfg)%Z eqn:Hmax.
  - set (s2 := set_main s (MCount id (nodes (graph s)) 0 rest)).
    assert (mstep cfg hd ctx0 w s1 = Some s2) as H2.
    { unfold mstep. subst s1. simpl. by rewrite Hc, Hmax. }
    pose proof (count_steps (nodes (graph s)) s2 id 0 rest eq_refl Hrun) as H3.
    destruct (Hlaunch (set_main s2 (MLaunch id rest)) eq_refl eq_refl) as (s' & H4 & Hst).
    exists s'. split; [|done]. do 2 (eapply main_step_rtc; [eassumption|]).
    etrans; [exact H3|]. eapply main_step_rtc; [|exact H4].
    unfold mstep. simpl. apply Z.ltb_lt in Hmax. by rewrite (proj2 (Z.leb_gt _ _) Hmax).
  - destruct (Hlaunch (set_main s1 (MLaunch id rest)) eq_refl eq_refl) as (s' & H4 & Hst).
    exists s'. split; [|done]. eapply main_step_rtc; [exact H1|]. eapply main_step_rtc; [|exact H4].
    unfold mstep. subst s1. simpl. by rewrite Hc, Hmax.
Qed.

Definition decided (v : verdict) : Prop := v <> VWait.

Lemma last_block_none vs st :
  last_block st vs = NodeStatusNone -> st = NodeStatusNone ->
  Forall decided vs -> forallb is_go vs = true.
Proof.
  intros Hl -> Hd. assert (forall vs st, st <> NodeStatusNone -> last_block st vs <> NodeStatusNone) as Hne.
  { clear. induction vs as [|[| |b] vs IH]; intros st Hst; simpl; auto. apply IH. by destruct b. }
  induction Hd as [|v vs Hv Hd IH]; [done|]. simpl in *.
  destruct v as [| |b]; [by apply IH|done|]. exfalso. revert Hl. apply Hne. by destruct b.
Qed.

(** The pass over the rest of the nodes. *)
Lemma pass_advances rest s v :
  closed_graph (graph s) -> plain_names (graph s) -> canceled s = false ->
  (forall x, x ∈ nodes (graph s) -> status_of (graph s) x <> NodeStatusRunning) ->
  main s = MIter rest -> rest ⊆ nodes (graph s) ->
  v ∈ rest -> not_started (graph s) v ->
  (forall dep, dep ∈ adj (to_ (graph s)) v -> ~ not_started (graph s) dep) ->
  exists s', steps s s' /\ advanced (graph s) s'.
Proof.
  revert s. induction rest as [|id rest IH]; intros s Hg Hnames Hc Hrun Hm Hrest Hv Hnone Hdeps;
    [by apply elem_of_nil in Hv|].
  assert (id ∈ nodes (graph s)) as Hid by set_solver.
  destruct (decide (not_started (graph s) id)) as [Hst|Hst].
  2:{ (* started already: skip *)
    destruct (IH (set_main s (MIter rest))) as (s' & Hs' & Ha); try done.
    - set_solver.
    - apply elem_of_cons in Hv as [->|Hv]; [done|exact Hv].
    - exists s'. split; [|exact Ha]. eapply main_step_rtc; [|exact Hs'].
      unfold mstep. rewrite Hm. by rewrite bool_decide_false. }
  pose proof (closed_nodes _ Hg id Hid) as Hnode.
  pose proof (closed_no_loop _ id Hg) as Hloop.
  set (s1 := set_main s (MReady id (adj (to_ (graph s)) id) true rest)).
  assert (mstep cfg hd ctx0 w s = Some s1) as H1.
  { unfold mstep. rewrite Hm. by rewrite bool_decide_true. }
  pose proof (isReady_steps cfg hd ctx0 w (adj (to_ (graph s)) id) s1 id true rest
    ltac:(intros dep Hdep; by eapply closed_nodes, closed_deps) Hloop Hnode Hnames eq_refl) as H2.
  pose proof (isReady_loop_spec w (graph s) id Hnames (adj (to_ (graph s)) id) true (graph s)
    ltac:(intros x _; by left) Hloop Hnode) as Hspec.
  change (graph s1) with (graph s) in H2.
  destruct (foldl (isReady_dep w id) (true, graph s) (adj (to_ (graph s)) id)) as [ready g'].
  destruct Hspec as (-> & Hcached & Hsame & Hstatus). simpl in H2. rewrite Hst in Hstatus.
  set (s2 := set_main (set_graph s1 g') _) in H2.
  assert (steps s s2) as Hs2 by (eapply main_step_rtc; [exact H1|exact H2]).
  destruct (decide (not_started g' id)) as [Hst'|Hst']; [|by exists s2; split; [|exists id]].
  assert (forall x, status_of g' x = status_of (graph s) x) as Hsts.
  { intros x. destruct (decide (x = id)) as [->|Hx]; [unfold not_started in *; congruence|].
    by eapply cached_status. }
  assert (forall x, x ∈ nodes g' -> status_of g' x <> NodeStatusRunning) as Hrun'.
  { intros x. rewrite Hsts, (sg_nodes _ _ Hsame). apply Hrun. }
  destruct (forallb (fun dep => is_go (dep_verdict w (graph s) dep)) (adj (to_ (graph s)) id)) eqn:Hgo.
  - (* ready: launched *)
    destruct (launch_steps s2 id rest Hc eq_refl Hrun' ltac:(by eapply same_graph_some)) as (s3 & H3 & Hr).
    exists s3. split; [by etrans|]. exists id. unfold not_started. by rewrite Hr.
  - (* waiting: on to the next node *)
    assert (id <> v) as Hne.
    { intros ->. apply not_true_iff_false in Hgo. apply Hgo.
      assert (forallb is_go (dep_verdict w (graph s) <$> adj (to_ (graph s)) v) = true) as Hall.
      { eapply (last_block_none _ NodeStatusNone); [by rewrite <- Hstatus|done|].
        apply Forall_fmap, Forall_forall. intros dep Hdep. simpl. unfold decided, dep_verdict.
        pose proof (Hdeps dep Hdep) as H3. pose proof (Hrun dep (closed_deps _ Hg v dep Hdep)) as H4.
        unfold not_started in H3. by destruct (status_of (graph s) dep), (continues w (graph s) dep). }
      rewrite forallb_forall in Hall |- *. intros dep Hdep. apply Hall.
      apply list_elem_of_In, list_elem_of_fmap_2. by apply list_elem_of_In. }
    set (s3 := set_main s2 (MIter rest)).
    destruct (IH s3) as (s' & Hs' & (x & Hx & Hx1 & Hx2)); try done.
    + by eapply closed_same_graph.
    + intros x n Hx. destruct (same_graph_back _ _ x n Hsame Hx) as (n0 & Hx0 & [_ Hname _ _ _]).
      rewrite Hname. by eapply Hnames.
    + change (graph s3) with g'. rewrite (sg_nodes _ _ Hsame). set_solver.
    + apply elem_of_cons in Hv as [->|Hv]; done.
    + change (graph s3) with g'. unfold not_started. rewrite Hsts. done.
    + change (graph s3) with g'. rewrite (sg_to _ _ Hsame). intros dep Hdep. unfold not_started.
      rewrite Hsts. by apply Hdeps.
    + exists s'. split.
      * etrans; [exact Hs2|]. eapply main_step_rtc; [|exact Hs']. by unfold mstep.
      * exists x. change (graph s3) with g' in Hx, Hx1. unfold not_started in *.
        rewrite (sg_nodes _ _ Hsame) in Hx. rewrite Hsts in Hx1. done.
Qed.

End progress.
