(* ===== verification/SchedProps.v ===== *)
(** * Properties of the scheduler

    The theorems about scheduler.go: order, concurrency limit, readiness,
    progress, result and handlers; and runs that show their hypotheses hold. *)

From S2P Require Import Prelude GoStrings Vars Digraph NodeData Contexts Node Graph.
From S2P Require Import GraphCycle GraphSetup GraphProps.
From S2P Require Import Sched SchedInv SchedOrder SchedLimit SchedResult SchedReady.

(** ** The graphs the constructor builds *)

(** A node of a new graph is a fresh node of a step, under its identifier. *)
Lemma fresh_graph_step next steps g x n :
  fresh_graph next ((fun s => NewNode s NodeState.zero) <$> steps) g -> node g x = Some n ->
  exists s, s ∈ steps /\ n = set_n_id (NewNode s NodeState.zero) x.
Proof.
  intros Hg Hx. pose proof (fg_dom _ _ _ Hg x ltac:(by exists n)) as Hin.
  destruct (fresh_graph_index _ _ _ _ Hg Hin) as (i & m & -> & Hi).
  rewrite (fg_node _ _ _ Hg i m Hi) in Hx. simplify_eq.
  rewrite list_lookup_fmap in Hi. apply fmap_Some in Hi as (s & Hs & ->).
  exists s. split; [by eapply list_elem_of_lookup_2|done].
Qed.

Lemma new_graph_nodes order next steps g x n :
  (0 < next)%Z ->
  (forall id i u, u ∈ order id i <-> u ∈ seqZ next (Z.of_nat (length steps))) ->
  snd (NewExecutionGraph order next steps) = Some (Ok g) ->
  nodes g = seqZ next (Z.of_nat (length steps)) /\
  (node g x = Some n -> exists s, s ∈ steps /\ n = set_n_id (NewNode s NodeState.zero) x).
Proof.
  intros Hnext Horder. unfold NewExecutionGraph.
  pose proof (add_nodes_fresh_graph next _ Hnext (fresh_steps steps)) as Hg.
  destruct (add_nodes next _ empty_graph) as [next' g0]. simpl in *. intros Hset.
  assert (wf_nodes order g0) as Hwf by (eapply fresh_graph_wf; [|done]; by rewrite length_fmap).
  pose proof (setup_spec order g0 Hwf (fg_unlinked _ _ _ Hg)) as Hs. rewrite Hset in Hs.
  destruct Hs as ([Hn Hd] & _). split; [by rewrite Hn, (fg_nodes _ _ _ Hg), length_fmap|].
  intros Hx. eapply fresh_graph_step; [exact Hg|]. unfold node in *. by rewrite <- Hd.
Qed.

(** What the scheduler needs of a graph holds of every graph
    [NewExecutionGraph] returns. *)
Lemma new_graph_ready order next steps g :
  (0 < next)%Z ->
  (forall id i u, u ∈ order id i <-> u ∈ seqZ next (Z.of_nat (length steps))) ->
  Forall (fun s => RepeatPolicy.Repeat (Step.RepeatPolicy s) && ContinueOn.Failure (Step.ContinueOn s) = false) steps ->
  snd (NewExecutionGraph order next steps) = Some (Ok g) ->
  good_graph g /\ closed_graph g /\ NoDup (nodes g) /\ (forall x, status_of g x = NodeStatusNone).
Proof.
  intros Hnext Horder Hrep. unfold NewExecutionGraph.
  pose proof (add_nodes_fresh_graph next _ Hnext (fresh_steps steps)) as Hg.
  destruct (add_nodes next _ empty_graph) as [next' g0]. simpl in *. intros Hset.
  assert (wf_nodes order g0) as Hwf by (eapply fresh_graph_wf; [|done]; by rewrite length_fmap).
  pose proof (setup_spec order g0 Hwf (fg_unlinked _ _ _ Hg)) as Hs. rewrite Hset in Hs.
  destruct Hs as ([Hn Hd] & E & HE & _ & Hac).
  assert (forall x, node g x = node g0 x) as Hnode by (intros x; unfold node; by rewrite Hd).
  assert (forall x n, node g x = Some n -> exists s, s ∈ steps /\ n_data n = mkNodeData s NodeState.zero) as Hdata.
  { intros x n Hx. rewrite Hnode in Hx. destruct (fresh_graph_step next steps g0 x n Hg Hx) as (s & ? & ->).
    by exists s. }
  assert (forall id, id ∈ nodes g -> is_Some (node g id)) as Hsome.
  { intros id Hid. rewrite Hn in Hid. rewrite Hnode.
    destruct (fresh_graph_index _ _ _ _ Hg Hid) as (i & m & -> & Hi).
    rewrite (fg_node _ _ _ Hg i m Hi). by eexists. }
  split_and!.
  - split; [done| |].
    + intros id n Hid. destruct (Hdata id n Hid) as (s & Hs & Hnd). unfold repeats_failures.
      rewrite Hnd. rewrite Forall_forall in Hrep. by apply Hrep.
    + intros id Hid. apply Hac. exists id. apply tc_once. rewrite (eo_to _ _ HE) in Hid.
      by apply elem_of_preds.
  - split; [done| |].
    + intros id dep Hdep. rewrite (eo_to _ _ HE) in Hdep. apply elem_of_preds in Hdep.
      by apply (eo_nodes _ _ HE dep id).
    + intros (x & Hx). apply Hac. exists x. revert Hx. generalize x at 1 3. intros y.
      induction 1 as [u v Huv|u v z Huv _ IH].
      * apply tc_once. rewrite (eo_to _ _ HE) in Huv. by apply elem_of_preds.
      * eapply tc_l; [|exact IH]. rewrite (eo_to _ _ HE) in Huv. by apply elem_of_preds.
  - apply (eo_nodup _ _ HE).
  - intros x. unfold status_of. destruct (node g x) as [n|] eqn:Hx; [|done].
    destruct (Hdata x n Hx) as (s & _ & Hnd). unfold node_Status. by rewrite Hnd.
Qed.

(** ** A sample run: two steps in a row, a success handler *)

Definition ok_world : world :=
  mkWorld 1 (fun _ => None) (fun _ _ => None) (fun _ => Ok "") (fun _ => None)
    (fun m => map_to_list (SyncMap.entries m)) (fun _ => "sh") (fun _ => None) (fun _ _ => None)
    (fun _ => LogMissing) (ENew "scan") (fun _ => None) (fun _ => None) (fun _ => true)
    (fun c => c) (fun _ => true) (fun _ => "now")
    (fun _ => Ok (mkExecutor None None (Ok ""))) None (fun _ => None) (fun _ => None)
    (fun _ => 0%Z) None.

Definition fail_world : world :=
  mkWorld 1 (fun _ => None) (fun _ _ => None) (fun _ => Ok "") (fun _ => None)
    (fun m => map_to_list (SyncMap.entries m)) (fun _ => "sh") (fun _ => None) (fun _ _ => None)
    (fun _ => LogMissing) (ENew "scan") (fun _ => None) (fun _ => None) (fun _ => true)
    (fun c => c) (fun _ => true) (fun _ => "now")
    (fun _ => Ok (mkExecutor (Some (ENew "exit status 1")) None (Ok ""))) None (fun _ => None)
    (fun _ => None) (fun _ => 0%Z) None.

Definition panic_world : world :=
  mkWorld 1 (fun _ => None) (fun _ _ => None) (fun _ => Ok "") (fun _ => None)
    (fun m => map_to_list (SyncMap.entries m)) (fun _ => "sh") (fun _ => None) (fun _ _ => None)
    (fun _ => LogMissing) (ENew "scan") (fun _ => None) (fun _ => None) (fun _ => true)
    (fun c => c) (fun _ => true) (fun _ => "now")
    (fun _ => Ok (mkExecutor None None (Ok ""))) None (fun _ => None) (fun _ => None)
    (fun _ => 0%Z) (Some (ENew "panic recovered: nil")).

Definition sample_cfg : Config :=
  mkConfig "/logs" 1 0 0 false None (Some (named_step "ok" [])) (Some (named_step "ko" [])) None "req".

Definition bg : ctx := mkCtx None None.

Definition graph_of (steps : list Step.t) : ExecutionGraph :=
  match NewExecutionGraph (ascending 1 (length steps)) 1 steps with
  | (_, Some (Ok g)) => g
  | _ => empty_graph
  end.

Definition chain : ExecutionGraph := graph_of [named_step "a" []; named_step "b" ["a"]].

Definition start (cfg : Config) (g : ExecutionGraph) : state :=
  match Schedule cfg ok_world false None g with
  | Ok s => s
  | Err _ => mkState g false None [] [] MWait [] []
  end.

(** Run goroutines before the main loop, until nothing can move. *)
Fixpoint drive (cfg : Config) (hd : bool) (w : world) (fuel : nat) (s : state) : state :=
  match fuel with
  | 0 => s
  | S k =>
      match act cfg hd bg w (match threads s with [] => AMain | _ => AThread 0 end) s with
      | Some s' => drive cfg hd w k s'
      | None => s
      end
  end.

Lemma drive_reachable cfg hd w fuel s : reachable cfg hd bg s (drive cfg hd w fuel s).
Proof.
  revert s. induction fuel as [|k IH]; intros s; simpl; [apply rtc_refl|].
  destruct (act cfg hd bg w _ s) as [s1|] eqn:Ha; [|apply rtc_refl].
  eapply rtc_l; [by eexists w, _|apply IH].
Qed.

Lemma drive_quiet cfg w fuel s :
  w_panic w = None -> rtc (quiet_step cfg bg) s (drive cfg true w fuel s).
Proof.
  intros Hw. revert s. induction fuel as [|k IH]; intros s; simpl; [apply rtc_refl|].
  destruct (act cfg true bg w _ s) as [s1|] eqn:Ha; [|apply rtc_refl].
  eapply rtc_l; [by eexists w, _|apply IH].
Qed.

(** The whole run: both steps succeed, then the success handler. *)
Example chain_run :
  let s := drive sample_cfg true ok_world 200 (start sample_cfg chain) in
  main s = MReturn None /\ (node_Status <$> Nodes (graph s)) = [NodeStatusSuccess; NodeStatusSuccess] /\
  sent s = [1; 2; 0]%Z.
Proof. vm_compute. done. Qed.

(** The first step fails: the second is cancelled, the error returned. *)
Example chain_fails :
  let s := drive sample_cfg true fail_world 200 (start sample_cfg chain) in
  (exists e, main s = MReturn (Some e)) /\
  (node_Status <$> Nodes (graph s)) = [NodeStatusError; NodeStatusCancel].
Proof. vm_compute. split; [eexists; reflexivity|done]. Qed.

Definition chain_steps : list Step.t := [named_step "a" []; named_step "b" ["a"]].

Lemma chain_ready :
  good_graph chain /\ closed_graph chain /\ NoDup (nodes chain) /\
  (forall x, status_of chain x = NodeStatusNone).
Proof.
  apply (new_graph_ready (ascending 1 2) 1 chain_steps); [done..| |done]. by repeat constructor.
Qed.

Lemma start_ok cfg g : Dry cfg = true \/ w_mkdirAll ok_world (LogDir cfg) = None ->
  Schedule cfg ok_world false None g = Ok (start cfg g).
Proof. intros H. unfold start, Schedule, setup_error. destruct (Dry cfg); [done|]. by destruct H as [|H]; [|rewrite H]. Qed.

(** ** Order *)

(** C4: whatever the interleaving of the main loop, the goroutines and signals,
    and whatever the outside answers, whenever the goroutine of a step exists
    every dependency of the step has left the not-started and running statuses,
    and no goroutine of that dependency can run its command or reset its status
    any more. The graph must not have a step that repeats and continues on
    failure, and the caller passes a channel. *)
Theorem dependencies_settle_first (cfg : Config) (ctx0 : ctx) (w : world) (canceled : bool)
    (lastError : option error) (g : ExecutionGraph) (s0 s : state)
    (Hgood : good_graph g) (Hstart : Schedule cfg w canceled lastError g = Ok s0)
    (Hreach : reachable cfg true ctx0 s0 s) :
  forall v c p u, (v, (c, p)) ∈ threads s -> u ∈ adj (to_ (graph s)) v ->
    status_of (graph s) u <> NodeStatusNone /\ status_of (graph s) u <> NodeStatusRunning /\
    forall t, t ∈ threads s -> fst t = u -> thread_class t <> Busy.
Proof.
  intros v c p u Ht Hu.
  pose proof (reachable_inv cfg ctx0 g Hgood s0 s (Schedule_inv _ _ _ _ _ _ Hstart) Hreach) as Hinv.
  destruct (inv_deps _ _ Hinv _ Ht u Hu) as (Hnone & Hrun & Hbusy & _). split_and!; [done..|].
  intros t Htin <- Hb. apply Hbusy. apply elem_of_ids_in. exists t. split_and!; [done..|].
  by apply bool_decide_eq_true.
Qed.

(** The state of the sample run in which the second step executes. *)
Definition second_running : state := drive sample_cfg true ok_world 35 (start sample_cfg chain).

Lemma dependencies_settle_first_witness :
  fst <$> threads second_running = [2]%Z /\
  exists v c p u, (v, (c, p)) ∈ threads second_running /\ u ∈ adj (to_ (graph second_running)) v /\
    status_of (graph second_running) u <> NodeStatusNone /\
    status_of (graph second_running) u <> NodeStatusRunning /\
    forall t, t ∈ threads second_running -> fst t = u -> thread_class t <> Busy.
Proof.
  split; [vm_compute; reflexivity|].
  destruct (threads second_running) as [|[v [c p]] ts] eqn:Ht; [exfalso; vm_compute in Ht; done|].
  assert (v = 2%Z) as -> by (vm_compute in Ht; congruence).
  assert ((2%Z, (c, p)) ∈ threads second_running) as Hin by (rewrite Ht; by left).
  assert (1%Z ∈ adj (to_ (graph second_running)) 2%Z) as Hu by (vm_compute; by left).
  exists 2%Z, c, p, 1%Z. rewrite <- Ht. split; [done|]. split; [done|].
  exact (dependencies_settle_first sample_cfg bg ok_world false None chain (start sample_cfg chain)
    second_running (proj1 chain_ready) (start_ok _ _ (or_intror eq_refl))
    (drive_reachable _ _ _ _ _) 2%Z c p 1%Z Hin Hu).
Defined.

(** C5: when no step of the graph both repeats and continues on failure, and the
    caller passes a channel, no step is executed by two goroutines at once: among
    the goroutines that can still run a command or write a status, no two belong
    to the same node, retries included. (A step that does both can have two, see
    [repeating_failures_overlap].) *)
Theorem one_active_goroutine_per_step (cfg : Config) (ctx0 : ctx) (w : world) (canceled : bool)
    (lastError : option error) (g : ExecutionGraph) (s0 s : state)
    (Hgood : good_graph g) (Hstart : Schedule cfg w canceled lastError g = Ok s0)
    (Hreach : reachable cfg true ctx0 s0 s) :
  forall i j t t', threads s !! i = Some t -> threads s !! j = Some t' -> i < j ->
    fst t = fst t' -> thread_class t = Gone \/ thread_class t' = Gone.
Proof.
  intros i j t t' Hi Hj Hij E.
  pose proof (reachable_inv cfg ctx0 g Hgood s0 s (Schedule_inv _ _ _ _ _ _ Hstart) Hreach) as Hinv.
  pose proof (inv_unique _ _ Hinv) as Hnd.
  destruct (decide (thread_class t = Gone)) as [|Ht]; [by left|right].
  destruct (decide (thread_class t' = Gone)) as [|Ht']; [done|]. exfalso.
  rewrite <- (take_drop_middle _ _ _ Hi), ids_in_app in Hnd.
  apply NoDup_app in Hnd as (_ & _ & Hnd). destruct t as [u [c p]]. rewrite ids_in_cons in Hnd.
  replace (is_active (class p)) with true in Hnd by (symmetry; by apply bool_decide_eq_true).
  apply NoDup_cons in Hnd as [Hnot _]. apply Hnot, elem_of_ids_in. exists t'.
  split_and!; [|done|by apply bool_decide_eq_true].
  apply list_elem_of_lookup. exists (j - S i). rewrite lookup_drop.
  by replace (S i + (j - S i)) with j by lia.
Qed.

(** A failing step with one retry: its second goroutine starts before the first
    one has torn down. *)
Definition retry_step : Step.t :=
  Step.set_RetryPolicy (named_step "r" []) (RetryPolicy.mk 1 0 "" "").
Definition retry_graph : ExecutionGraph := graph_of [retry_step].

Fixpoint acts (cfg : Config) (hd : bool) (l : list (world * action)) (s : state) : state :=
  match l with
  | [] => s
  | (w, a) :: l => match act cfg hd bg w a s with Some s' => acts cfg hd l s' | None => s end
  end.

Lemma acts_reachable cfg hd l s : reachable cfg hd bg s (acts cfg hd l s).
Proof.
  revert s. induction l as [|[w a] l IH]; intros s; simpl; [apply rtc_refl|].
  destruct (act cfg hd bg w a s) as [s1|] eqn:Ha; [|apply rtc_refl].
  eapply rtc_l; [by exists w, a|apply IH].
Qed.

Definition mains (n : nat) : list (world * action) := replicate n (fail_world, AMain).
Definition moves (i n : nat) : list (world * action) := replicate n (fail_world, AThread i).

Definition retried : state :=
  acts sample_cfg true (mains 9 ++ moves 0 14 ++ mains 9) (start sample_cfg retry_graph).

Lemma retry_graph_good : good_graph retry_graph.
Proof.
  apply (new_graph_ready (ascending 1 1) 1 [retry_step]); [done..| |done]. by repeat constructor.
Qed.

Lemma one_active_goroutine_per_step_witness :
  (exists t t', threads retried = [t; t'] /\ fst t = fst t') /\
  forall i j t t', threads retried !! i = Some t -> threads retried !! j = Some t' -> i < j ->
    fst t = fst t' -> thread_class t = Gone \/ thread_class t' = Gone.
Proof.
  split; [vm_compute; do 2 eexists; done|].
  exact (one_active_goroutine_per_step sample_cfg bg ok_world false None retry_graph
    (start sample_cfg retry_graph) retried retry_graph_good (start_ok _ _ (or_intror eq_refl))
    (acts_reachable _ _ _ _)).
Defined.

(** ** Concurrency limit *)

(** C6: with a positive [MaxActiveRuns], when no step both repeats and continues on
    failure and the caller passes a channel, at every moment of a run that starts
    with at most that many running nodes at most that many nodes are running,
    although the count is made one node at a time while statuses change; and while
    the run is not cancelled, at most that many goroutines can still execute. *)
Theorem max_active_runs_respected (cfg : Config) (ctx0 : ctx) (w : world) (canceled0 : bool)
    (lastError : option error) (g : ExecutionGraph) (s0 s : state)
    (Hgood : good_graph g) (Hnodup : NoDup (nodes g)) (Hmax : (0 < MaxActiveRuns cfg)%Z)
    (Hinit : (running_count s0 <= MaxActiveRuns cfg)%Z)
    (Hstart : Schedule cfg w canceled0 lastError g = Ok s0)
    (Hreach : reachable cfg true ctx0 s0 s) :
  (running_count s <= MaxActiveRuns cfg)%Z /\
  (canceled s = false -> (Z.of_nat (length (busy_ids (threads s))) <= MaxActiveRuns cfg)%Z).
Proof.
  pose proof (Schedule_inv _ _ _ _ _ _ Hstart) as Hinv0.
  pose proof (Schedule_quiet _ _ _ _ _ _ Hstart) as Hquiet0.
  assert (limit_ok cfg s0) as Hlimit0.
  { split; [done|]. unfold Schedule in Hstart. destruct (setup_error cfg w); by simplify_eq. }
  pose proof (reachable_limit cfg ctx0 g Hgood Hnodup Hmax s0 s Hinv0 Hlimit0 Hreach) as [Hle _].
  split; [done|]. intros Hc.
  pose proof (reachable_inv cfg ctx0 g Hgood s0 s Hinv0 Hreach) as Hinv.
  pose proof (reachable_quiet cfg ctx0 g Hgood s0 s Hinv0 Hquiet0 Hreach) as Hquiet.
  pose proof (busy_count g s Hinv Hquiet Hc Hnodup). unfold running_count in Hle. lia.
Qed.

(** Two independent steps, limit one: after the first launch the second waits. *)
Definition pair_graph : ExecutionGraph := graph_of [named_step "a" []; named_step "b" []].
Definition pair_state : state := acts sample_cfg true (mains 40) (start sample_cfg pair_graph).

Lemma pair_ready :
  good_graph pair_graph /\ closed_graph pair_graph /\ NoDup (nodes pair_graph) /\
  (forall x, status_of pair_graph x = NodeStatusNone).
Proof.
  apply (new_graph_ready (ascending 1 2) 1 [named_step "a" []; named_step "b" []]); [done..| |done].
  by repeat constructor.
Qed.

Lemma max_active_runs_respected_witness :
  length (threads pair_state) = 1 /\
  (running_count pair_state <= 1)%Z /\
  (canceled pair_state = false -> (Z.of_nat (length (busy_ids (threads pair_state))) <= 1)%Z).
Proof.
  split; [vm_compute; reflexivity|].
  refine (max_active_runs_respected sample_cfg bg ok_world false None pair_graph
    (start sample_cfg pair_graph) pair_state (proj1 pair_ready) (proj1 (proj2 (proj2 pair_ready)))
    eq_refl _ (start_ok _ _ (or_intror eq_refl)) (acts_reachable _ _ _ _)).
  vm_compute. discriminate.
Defined.

(** ** Result *)

(** C7: when [Schedule] has returned, the run was not cancelled and no command
    panicked, every node has a final status; if the result is nil no node
    failed; and the status of the scheduler is an error exactly when the result
    is one. *)
Theorem Schedule_result (cfg : Config) (ctx0 : ctx) (w : world) (canceled0 : bool)
    (lastError0 : option error) (g : ExecutionGraph) (s0 s : state) (e : option error)
    (Hgood : good_graph g) (Hnoerr : forall x, status_of g x <> NodeStatusError)
    (Hclock : w_now w <> 0%Z)
    (Hstart : Schedule cfg w canceled0 lastError0 g = Ok s0)
    (Hreach : rtc (quiet_step cfg ctx0) s0 s)
    (Hreturn : main s = MReturn e) (Hcancel : canceled s = false) :
  (forall id, id ∈ nodes g -> status_of (graph s) id <> NodeStatusNone /\
                              status_of (graph s) id <> NodeStatusRunning) /\
  (e = None -> forall id, status_of (graph s) id <> NodeStatusError) /\
  SchedulerStatus s = match e with Some _ => StatusError | None => StatusSuccess end.
Proof.
  pose proof (quiet_reachable cfg ctx0 s0 s Hreach) as Hr.
  pose proof (Schedule_inv _ _ _ _ _ _ Hstart) as Hinv0.
  pose proof (reachable_inv cfg ctx0 g Hgood s0 s Hinv0 Hr) as Hinv.
  pose proof (reachable_loop_done cfg ctx0 g Hgood s0 s Hinv0 (Schedule_quiet _ _ _ _ _ _ Hstart)
    (Schedule_loop_done _ _ _ _ _ _ Hstart) Hr) as Hdone.
  pose proof (quiet_reachable_failed cfg ctx0 s0 s (Schedule_failed _ _ _ _ _ _ Hnoerr Hstart) Hreach)
    as Hfailed.
  pose proof (failed_main s Hfailed) as Hm. rewrite Hreturn in Hm. destruct Hm as [Hnil ->].
  split_and!.
  - intros id Hid. pose proof (Hdone Hcancel) as Hset. rewrite Hreturn in Hset.
    rewrite Forall_forall, (sg_nodes _ _ (inv_graph _ _ Hinv)) in Hset.
    destruct (Hset id Hid) as (? & ? & _). done.
  - intros He id Hid. destruct (failed_error s Hfailed) with id as (t & Ht & _); [|done|].
    + unfold isError. by rewrite He.
    + rewrite Hnil in Ht. by apply elem_of_nil in Ht.
  - rewrite status_after_loop; [|..|by rewrite Hreturn].
    + rewrite Hcancel. unfold isError. simpl. by destruct (lastError s).
    + unfold IsStarted. rewrite (reachable_startedAt cfg ctx0 s0 s Hr).
      unfold Schedule in Hstart. destruct (setup_error cfg w); simplify_eq. simpl.
      by apply negb_true_iff, Z.eqb_neq.
    + done.
Qed.

Definition chain_end : state := drive sample_cfg true ok_world 200 (start sample_cfg chain).

Lemma Schedule_result_witness :
  main chain_end = MReturn None /\
  (forall id, id ∈ nodes chain -> status_of (graph chain_end) id <> NodeStatusNone /\
                                  status_of (graph chain_end) id <> NodeStatusRunning) /\
  (None = None :> option error -> forall id, status_of (graph chain_end) id <> NodeStatusError) /\
  SchedulerStatus chain_end = StatusSuccess.
Proof.
  split; [vm_compute; reflexivity|].
  refine (Schedule_result sample_cfg bg ok_world false None chain (start sample_cfg chain) chain_end
    None (proj1 chain_ready) _ _ (start_ok _ _ (or_intror eq_refl))
    (drive_quiet sample_cfg ok_world 200 _ eq_refl) _ _).
  - intros x. rewrite (proj2 (proj2 (proj2 chain_ready)) x). discriminate.
  - discriminate.
  - vm_compute. reflexivity.
  - vm_compute. reflexivity.
Defined.

(** C8: after the loop, whatever happened, panics and cancellation included, the
    handlers to run are the one for success, failure or cancellation, chosen by
    the status, and then the exit handler: never the exit handler alone. *)
Theorem handlers_after_run (cfg : Config) (ctx0 : ctx) (w w' : world) (canceled0 : bool)
    (lastError0 : option error) (g : ExecutionGraph) (s0 s : state)
    (Hgood : good_graph g) (Hclock : w_now w <> 0%Z)
    (Hstart : Schedule cfg w canceled0 lastError0 g = Ok s0)
    (Hreach : reachable cfg true ctx0 s0 s) (Hmain : main s = MStatus) :
  exists h, mstep cfg true ctx0 w' s = Some (set_main s (MHandlers [h; HandlerOnExit])) /\
    h = (if canceled s && negb (isSucceed (graph s)) then HandlerOnCancel
         else if isError s then HandlerOnFailure else HandlerOnSuccess).
Proof.
  pose proof (Schedule_inv _ _ _ _ _ _ Hstart) as Hinv0.
  pose proof (reachable_loop_done cfg ctx0 g Hgood s0 s Hinv0 (Schedule_quiet _ _ _ _ _ _ Hstart)
    (Schedule_loop_done _ _ _ _ _ _ Hstart) Hreach) as Hdone.
  eexists. split; [|reflexivity]. unfold mstep. rewrite Hmain.
  rewrite status_after_loop; [|..|by rewrite Hmain].
  - by destruct (canceled s && negb (isSucceed (graph s))), (isError s).
  - unfold IsStarted. rewrite (reachable_startedAt cfg ctx0 s0 s Hreach).
    unfold Schedule in Hstart. destruct (setup_error cfg w); simplify_eq. simpl.
    by apply negb_true_iff, Z.eqb_neq.
  - done.
Qed.

Definition chain_status : state := drive sample_cfg true ok_world 52 (start sample_cfg chain).

Lemma handlers_after_run_witness :
  main chain_status = MStatus /\
  exists h, mstep sample_cfg true bg ok_world chain_status =
              Some (set_main chain_status (MHandlers [h; HandlerOnExit])) /\
    h = (if canceled chain_status && negb (isSucceed (graph chain_status)) then HandlerOnCancel
         else if isError chain_status then HandlerOnFailure else HandlerOnSuccess).
Proof.
  split; [vm_compute; reflexivity|].
  refine (handlers_after_run sample_cfg bg ok_world ok_world false None chain
    (start sample_cfg chain) chain_status (proj1 chain_ready) _
    (start_ok _ _ (or_intror eq_refl)) (drive_reachable _ _ _ _ _) _).
  - discriminate.
  - vm_compute. reflexivity.
Defined.

(** ** Readiness *)

(** C9: [isReady] says yes exactly when every dependency succeeded, or failed or
    was skipped and its policy says to continue; a node that is not ready gets
    the status of the last dependency that blocks it and nothing else changes
    but cached answers; and the main loop, running alone from the node, computes
    exactly that, one access at a time. *)
Theorem isReady_decides (cfg : Config) (hd : bool) (ctx0 : ctx) (w : world) (s : state) (id : Z)
    (rest : list Z) (Hg : closed_graph (graph s)) (Hnames : plain_names (graph s))
    (Hid : id ∈ nodes (graph s))
    (Hmain : main s = MReady id (adj (to_ (graph s)) id) true rest) :
  let deps := adj (to_ (graph s)) id in
  let '(ready, g') := isReady w (graph s) id in
  (ready = true <-> Forall (fun dep => dep_verdict w (graph s) dep = VGo) deps) /\
  status_of g' id = last_block (status_of (graph s) id) (dep_verdict w (graph s) <$> deps) /\
  (forall x, x <> id -> status_of g' x = status_of (graph s) x) /\ same_graph (graph s) g' /\
  rtc (main_step cfg hd ctx0 w) s (set_main (set_graph s g') (MReady id [] ready rest)).
Proof.
  pose proof (closed_nodes _ Hg id Hid) as Hnode. pose proof (closed_no_loop _ id Hg) as Hloop.
  pose proof (isReady_loop_spec w (graph s) id Hnames (adj (to_ (graph s)) id) true (graph s)
    ltac:(intros x _; by left) Hloop Hnode) as Hspec.
  pose proof (isReady_steps cfg hd ctx0 w (adj (to_ (graph s)) id) s id true rest
    ltac:(intros dep Hdep; by eapply closed_nodes, closed_deps) Hloop Hnode Hnames Hmain) as Hsteps.
  simpl. unfold isReady.
  destruct (foldl (isReady_dep w id) (true, graph s) (adj (to_ (graph s)) id)) as [ready g'].
  destruct Hspec as (-> & Hc & Hsame & Hst). split_and!; [|done| |done|done].
  - simpl. rewrite forallb_forall, Forall_forall. unfold is_go.
    split; intros H dep Hdep.
    + eapply bool_decide_eq_true_1, H. by apply list_elem_of_In.
    + apply bool_decide_eq_true_2, H. by apply list_elem_of_In.
  - intros x Hx. by eapply cached_status.
Qed.

(** The first step failed and the main loop looks at the second. *)
Definition failed_first : state :=
  set_main (set_graph (start sample_cfg chain)
              (set_status_of 1 NodeStatusError (graph (start sample_cfg chain))))
           (MReady 2 [1%Z] true []).

Lemma failed_first_graph : same_graph chain (graph failed_first).
Proof.
  unfold failed_first, start. simpl. etrans; [|by apply same_graph_on_node].
  split; [done..|]. intros id n Hn. by exists n.
Qed.

Lemma chain_plain_names : plain_names (graph failed_first).
Proof.
  intros x n Hx. assert (is_Some (node chain x)) as [m Hm].
  { unfold node in *. apply elem_of_dom. rewrite <- (sg_dom _ _ failed_first_graph).
    by eapply elem_of_dom_2. }
  destruct (sg_decl _ _ failed_first_graph x m Hm) as (n' & Hn' & [_ Hname _ _ _]). simplify_eq.
  rewrite Hname. destruct (decide (x = 1%Z)) as [->|H1]; [vm_compute in Hm; by simplify_eq|].
  destruct (decide (x = 2%Z)) as [->|H2]; [vm_compute in Hm; by simplify_eq|].
  exfalso. assert (x ∈ dom (dict chain)) as Hd by (by eapply elem_of_dom_2).
  replace (dom (dict chain)) with ({[1; 2]}%Z : gset Z) in Hd by (vm_compute; reflexivity). set_solver.
Qed.

Lemma isReady_decides_witness :
  fst (isReady ok_world (graph failed_first) 2) = false /\
  let '(ready, g') := isReady ok_world (graph failed_first) 2 in
  (ready = true <-> Forall (fun dep => dep_verdict ok_world (graph failed_first) dep = VGo) [1%Z]) /\
  status_of g' 2 = NodeStatusCancel /\
  (forall x, x <> 2%Z -> status_of g' x = status_of (graph failed_first) x) /\
  same_graph (graph failed_first) g' /\
  rtc (main_step sample_cfg true bg ok_world) failed_first
    (set_main (set_graph failed_first g') (MReady 2 [] ready [])).
Proof.
  split; [vm_compute; reflexivity|].
  refine (isReady_decides sample_cfg true bg ok_world failed_first 2 [] _ chain_plain_names _ eq_refl).
  - exact (closed_same_graph _ _ failed_first_graph (proj1 (proj2 chain_ready))).
  - vm_compute. right. left.
Defined.

(** ** Progress *)

(** The main loop alone does not get stuck. From the start of a pass of the main
    loop over an acyclic graph, when the run is not cancelled, nothing is running
    and some step has not started, the main loop alone reaches a state in which a
    step that had not started has been launched or settled, whatever the outside
    answers. *)
Theorem main_loop_advances (cfg : Config) (hd : bool) (ctx0 : ctx) (w : world) (s : state) (v : Z)
    (Hg : closed_graph (graph s)) (Hnames : plain_names (graph s)) (Hcancel : canceled s = false)
    (Hidle : forall x, x ∈ nodes (graph s) -> status_of (graph s) x <> NodeStatusRunning)
    (Hmain : main s = MIter (nodes (graph s))) (Hv : v ∈ nodes (graph s))
    (Hnone : not_started (graph s) v) :
  exists s' x, rtc (main_step cfg hd ctx0 w) s s' /\ x ∈ nodes (graph s) /\
    status_of (graph s) x = NodeStatusNone /\ status_of (graph s') x <> NodeStatusNone.
Proof.
  destruct (source_exists (graph s) v Hg Hv Hnone) as (u & Hu & Hunone & Hdeps).
  destruct (pass_advances cfg hd ctx0 w (nodes (graph s)) s u Hg Hnames Hcancel Hidle Hmain
              ltac:(done) Hu Hunone Hdeps) as (s' & Hs' & x & Hx & Hx1 & Hx2).
  by exists s', x.
Qed.

Definition second_pass : state := set_main failed_first (MIter (nodes (graph failed_first))).

Lemma main_loop_advances_witness :
  status_of (graph second_pass) 2 = NodeStatusNone /\
  exists s' x, rtc (main_step sample_cfg true bg fail_world) second_pass s' /\
    x ∈ nodes (graph second_pass) /\
    status_of (graph second_pass) x = NodeStatusNone /\ status_of (graph s') x <> NodeStatusNone.
Proof.
  split; [vm_compute; reflexivity|].
  refine (main_loop_advances sample_cfg true bg fail_world second_pass 2 _ chain_plain_names eq_refl _
    eq_refl _ _).
  - exact (closed_same_graph _ _ failed_first_graph (proj1 (proj2 chain_ready))).
  - intros x Hx. replace (nodes (graph second_pass)) with [1; 2]%Z in Hx by (vm_compute; reflexivity).
    apply elem_of_cons in Hx as [->|Hx]; [vm_compute; discriminate|].
    apply list_elem_of_singleton in Hx as ->. vm_compute. discriminate.
  - vm_compute. right. left.
  - vm_compute. reflexivity.
Defined.

(** ** Runs that break an assumption *)

Definition pmains (n : nat) : list (world * action) := replicate n (panic_world, AMain).
Definition pmoves (n : nat) : list (world * action) := replicate n (panic_world, AThread 0).
Definition single : ExecutionGraph := graph_of [named_step "a" []].

(** A command panics; the goroutine has left the wait group and marked the node
    when the main loop, before [setLastError], sees the run finished: the
    success handler runs and [Schedule] returns nil although the node failed. *)
Lemma panic_reported_as_success :
  exists s, reachable sample_cfg true bg (start sample_cfg single) s /\ main s = MReturn None /\
    status_of (graph s) 1 = NodeStatusError /\ sent s = [0%Z].
Proof.
  exists (acts sample_cfg true (pmains 9 ++ pmoves 10 ++ pmains 12) (start sample_cfg single)).
  split; [apply acts_reachable|]. vm_compute. done.
Qed.

(** A repeating step that ignores failures: while its command runs again, the
    step that depends on it is launched. *)
Definition looping_step : Step.t :=
  Step.set_RepeatPolicy
    (Step.set_ContinueOn (named_step "a" []) (ContinueOn.mk true false [] [] false))
    (RepeatPolicy.mk true 0).

Definition loop_cfg : Config := mkConfig "/logs" 0 0 0 false None None None None "req".


Definition loop_graph : ExecutionGraph := graph_of [looping_step; named_step "b" ["a"]].

Definition overlap : state :=
  acts loop_cfg true (mains 8 ++ moves 0 18 ++ mains 14) (start loop_cfg loop_graph).

(** The dependent step's goroutine exists while the first step's goroutine is
    about to run its command again: C4 needs its hypothesis on the graph. *)
Lemma repeating_failures_overlap :
  reachable loop_cfg true bg (start loop_cfg loop_graph) overlap /\
  ((fun t => (fst t, snd (snd t))) <$> threads overlap) = [(1%Z, PExec); (2%Z, PSetupContext)].
Proof. split; [apply acts_reachable|]. vm_compute. done. Qed.

(** Without a channel the goroutine of a failed attempt goes on after it reset the
    status for a retry: it marks the node successful while the second attempt is
    still to fail. *)
Lemma retry_without_channel_succeeds :
  exists s, reachable sample_cfg false bg (start sample_cfg retry_graph) s /\
    status_of (graph s) 1 = NodeStatusSuccess /\
    exists e, map (fun t => snd (snd t)) (threads s) = [PAfterExec e].
Proof.
  exists (acts sample_cfg false (mains 9 ++ moves 0 14 ++ mains 9 ++ moves 1 6 ++ moves 0 8)
            (start sample_cfg retry_graph)).
  split; [apply acts_reachable|]. vm_compute. split; [done|]. by eexists.
Qed.
