(* ===== verification/SchedCancel.v ===== *)
(** * Cancellation and dry runs

    What a cancelled run can still do: no step is launched, except one the main
    loop has already decided on, and no goroutine starts its command, except one
    that has already passed its check.  And what a dry run never does: it has no
    command, fails nowhere and asks the outside only a few questions. *)

From S2P Require Import Prelude GoStrings Vars Digraph NodeData Contexts Node Graph.
From S2P Require Import Sched SchedInv SchedProps.

(** A goroutine that has passed the check of the flag and runs its command. *)
Definition executing (p : pc) : bool := match p with PExec | PRun _ => true | _ => false end.

(** The step the main loop has passed the check of the flag for. *)
Definition committed (m : mpc) : list Z :=
  match m with MCount id _ _ _ | MLaunch id _ => [id] | _ => [] end.

Section cancel.
Context (cfg : Config) (hd : bool) (ctx0 : ctx).

(** Nothing is started from [s] to [s']. *)
Record inert (s s' : state) : Prop := mk_inert {
  ns_exec : forall id c p, (id, (c, p)) ∈ threads s' -> executing p = true ->
    exists c' p', (id, (c', p')) ∈ threads s /\ executing p' = true;
  ns_ids : forall id c p, (id, (c, p)) ∈ threads s' ->
    (exists c' p', (id, (c', p')) ∈ threads s) \/ id ∈ committed (main s);
  ns_committed : forall id, id ∈ committed (main s') -> id ∈ committed (main s);
  ns_running : forall id, status_of (graph s') id = NodeStatusRunning ->
    status_of (graph s) id = NodeStatusRunning \/ id ∈ committed (main s)
}.

Lemma inert_refl s : inert s s.
Proof. split; eauto. Qed.

Lemma inert_trans s1 s2 s3 : inert s1 s2 -> inert s2 s3 -> inert s1 s3.
Proof.
  intros [A1 A2 A3 A4] [B1 B2 B3 B4]. split.
  - intros id c p Hin Hp. destruct (B1 id c p Hin Hp) as (c' & p' & Hin' & Hp'). eauto.
  - intros id c p Hin. destruct (B2 id c p Hin) as [(c' & p' & Hin')|Hc]; eauto.
  - eauto.
  - intros id Hr. destruct (B4 id Hr) as [Hr'|Hc]; eauto.
Qed.

(** Steps that leave the goroutines as they are. *)
Lemma inert_same s s' :
  threads s' = threads s ->
  (forall id, id ∈ committed (main s') -> id ∈ committed (main s)) ->
  (forall id, status_of (graph s') id = NodeStatusRunning -> status_of (graph s) id = NodeStatusRunning) ->
  inert s s'.
Proof. intros Ht Hc Hr. split; rewrite ?Ht; eauto. Qed.

(** A goroutine does not reach its command when the flag is set. *)
Lemma gostep_executing w g n c p e c' p' :
  gostep cfg hd w g true n c p = Some e -> ef_next e = Some (c', p') ->
  executing p' = true -> executing p = true.
Proof.
  intros H. destruct p; simpl in H; unfold goto, goto_last, goto_send in H; try done;
    repeat case_match; simplify_eq/=; intros; simplify_eq/=;
    repeat match goal with H : context [?b && false] |- _ => rewrite andb_false_r in H end; done.
Qed.

Lemma status_on_node_running f id g x :
  (forall n, node g id = Some n -> node_Status (f n) = NodeStatusRunning -> node_Status n = NodeStatusRunning) ->
  status_of (on_node f id g) x = NodeStatusRunning -> status_of g x = NodeStatusRunning.
Proof.
  intros Hf. rewrite status_of_on_node. case_decide as Hx; [|done]. subst.
  destruct (node g id) as [n|] eqn:Hn; [|done]. unfold status_of. rewrite Hn. by apply Hf.
Qed.

Lemma thread_inert w i s s' :
  canceled s = true -> thread_step cfg hd w i s = Some s' -> inert s s'.
Proof.
  unfold thread_step. intros Hc H. destruct (threads s !! i) as [[id [c p]]|] eqn:Hi; [|done].
  destruct (node (graph s) id) as [n|] eqn:Hn; [|done]. rewrite Hc in H.
  destruct (gostep _ _ _ _ _ _ _ _) as [e|] eqn:He; simpl in H; [|done]. simplify_eq.
  assert (forall x c1 p1, (x, (c1, p1)) ∈ threads (apply_effect i id e s) ->
    (x, (c1, p1)) ∈ threads s \/ (x = id /\ ef_next e = Some (c1, p1))) as Hth.
  { intros x c1 p1. unfold apply_effect. simpl. destruct (ef_next e) as [cp|].
    - intros Hin. apply list_elem_of_lookup in Hin as [j Hj]. destruct (decide (j = i)) as [->|].
      + rewrite list_lookup_insert_eq in Hj by (by eapply lookup_lt_Some). simplify_eq. auto.
      + rewrite list_lookup_insert_ne in Hj by done. left. by eapply list_elem_of_lookup_2.
    - intros Hin. left. eapply elem_of_submseteq; [exact Hin|]. apply sublist_submseteq, sublist_delete. }
  apply list_elem_of_lookup_2 in Hi. split.
  - intros x c1 p1 Hin Hp. destruct (Hth _ _ _ Hin) as [?|[-> Hnext]]; [eauto|].
    exists c, p. split; [done|]. by eapply gostep_executing.
  - intros x c1 p1 Hin. left. destruct (Hth _ _ _ Hin) as [?|[-> _]]; eauto.
  - done.
  - intros x Hr. left. revert Hr. apply status_on_node_running. intros n' Hn' Hr.
    simplify_eq. by eapply gostep_running.
Qed.

Lemma set_status_running id st g x :
  st <> NodeStatusRunning -> status_of (set_status_of id st g) x = NodeStatusRunning ->
  status_of g x = NodeStatusRunning.
Proof. intros Hst. apply status_on_node_running. done. Qed.

(** A step of the main loop that only moves on. *)
Lemma inert_main s m :
  (forall id, id ∈ committed m -> id ∈ committed (main s)) -> inert s (set_main s m).
Proof. intros Hm. by apply inert_same. Qed.

Lemma launch_inert s id rest :
  main s = MLaunch id rest ->
  inert s (set_main (set_threads (set_graph s (set_status_of id NodeStatusRunning (graph s)))
                          (threads s ++ [(id, (ctx0, PSetupContext))])) (MIter rest)).
Proof.
  intros Hm. assert (forall x c p, (x, (c, p)) ∈ threads s ++ [(id, (ctx0, PSetupContext))] ->
    (x, (c, p)) ∈ threads s \/ (x = id /\ p = PSetupContext)) as Hth.
  { intros x c p [Hin|Hin%list_elem_of_singleton]%elem_of_app; [by left|right]. by simplify_eq. }
  split; simpl; rewrite ?Hm; simpl.
  - intros x c p [Hin|[_ ->]]%Hth Hp; [eauto|done].
  - intros x c p [Hin|[-> _]]%Hth; [eauto|]. right. by left.
  - intros x Hx. by apply elem_of_nil in Hx.
  - intros x Hx. unfold set_status_of in Hx. rewrite status_of_on_node in Hx.
    case_decide; [subst; right; by left|by left].
Qed.

Lemma main_inert w s s' :
  canceled s = true -> mstep cfg hd ctx0 w s = Some s' -> inert s s'.
Proof.
  unfold mstep. intros Hc H. rewrite ?Hc in H.
  destruct (main s) as [[|x todo]| |[|x rest]|id [|dep deps] ready rest|id dep b deps ready rest
    |id b deps rest|id e deps rest|id rest|id [|x todo] count rest|id rest| | |[|h hs]|e] eqn:Hm;
    try (repeat (case_match; try done); simplify_eq; apply inert_main; rewrite Hm; simpl;
         first [done | intros y Hy; by apply elem_of_nil in Hy | done]).
  - destruct (node (graph s) dep) as [d|] eqn:Hd; [|done].
    pose proof (keeps_w_shouldContinue w d) as [Hk _].
    destruct (w_shouldContinue w d) as [cont d'] eqn:Hw. simplify_eq.
    apply inert_same; [done|rewrite Hm; by destruct cont|].
    intros x. apply status_on_node_running. intros n Hn. simplify_eq. simpl in Hk. congruence.
  - simplify_eq. apply inert_same; [done|rewrite Hm; by destruct (block_error b)|].
    intros x. apply set_status_running. by destruct b.
  - simplify_eq. apply inert_same; [done|by rewrite Hm|].
    intros x. apply status_on_node_running. done.
  - simplify_eq. by apply launch_inert.
  - simplify_eq. apply inert_same; [done|by rewrite Hm|]. intros x Hx. exact Hx.
  - destruct (HandlerNode s h) as [n|]; [|simplify_eq; apply inert_main; by rewrite Hm].
    destruct (runHandlerNode _ _ _ _ _) as [n' err]. simplify_eq. apply inert_same; [done|by rewrite Hm|done].
Qed.

Lemma sig_inert i s s' : sig_step i s = Some s' -> inert s s'.
Proof.
  unfold sig_step. intros H. destruct (sigs s !! i) as [p|]; [|done].
  destruct (sigstep (graph s) p) as [[flag mark] next]. simplify_eq.
  apply inert_same; [by destruct flag, mark|by destruct flag, mark|].
  intros x. destruct flag, mark; simpl; first [done | by apply set_status_running].
Qed.

Lemma canceled_step w a s s' :
  canceled s = true -> act cfg hd ctx0 w a s = Some s' -> canceled s' = true.
Proof.
  intros Hc H. destruct a as [|i|i|sig ov|]; simpl in H.
  - unfold mstep in H. repeat case_match; by simplify_eq/=.
  - unfold thread_step in H. destruct (threads s !! i) as [[id [c p]]|]; [|done].
    destruct (node (graph s) id); [|done]. destruct (gostep _ _ _ _ _ _ _ _); by simplify_eq/=.
  - unfold sig_step in H. destruct (sigs s !! i) as [p|]; [|done].
    destruct (sigstep (graph s) p) as [[[] []] next]; by simplify_eq/=.
  - by simplify_eq/=.
  - by simplify_eq/=.
Qed.

Lemma step_inert s s' : canceled s = true -> step cfg hd ctx0 s s' -> inert s s'.
Proof.
  intros Hc (w & a & H). destruct a as [|i|i|sig ov|]; simpl in H.
  - by eapply main_inert.
  - by eapply thread_inert.
  - by eapply sig_inert.
  - simplify_eq. by apply inert_same.
  - simplify_eq. by apply inert_same.
Qed.

Lemma reachable_inert s s' :
  canceled s = true -> reachable cfg hd ctx0 s s' -> canceled s' = true /\ inert s s'.
Proof.
  intros Hc Hr. revert Hc. induction Hr as [s|s s1 s' Hs Hr IH]; intros Hc; [split; [done|apply inert_refl]|].
  destruct (IH ltac:(destruct Hs as (w & a & Ha); by eapply canceled_step)) as [Hc' Hn]. split; [done|].
  eapply inert_trans; [by apply step_inert|done].
Qed.

End cancel.

(** C17: a cancelled run starts nothing: from any state in which the flag is set,
    through every interleaving and whatever the commands do, the flag stays set,
    a goroutine executes its command only if one of that step did already, a
    step has a goroutine only if it had one already, and it becomes running only
    if it was, except for the one step, at most, for which the main loop had
    already passed its check of the flag. *)
Theorem canceled_run_starts_nothing (cfg : Config) (hd : bool) (ctx0 : ctx) (s s' : state)
    (Hcanceled : canceled s = true) (Hreach : reachable cfg hd ctx0 s s') :
  canceled s' = true /\
  (forall id c p, (id, (c, p)) ∈ threads s' -> executing p = true ->
    exists c' p', (id, (c', p')) ∈ threads s /\ executing p' = true) /\
  (forall id c p, (id, (c, p)) ∈ threads s' ->
    (exists c' p', (id, (c', p')) ∈ threads s) \/ id ∈ committed (main s)) /\
  (forall id, status_of (graph s') id = NodeStatusRunning ->
    status_of (graph s) id = NodeStatusRunning \/ id ∈ committed (main s)) /\
  length (committed (main s)) <= 1.
Proof.
  destruct (reachable_inert cfg hd ctx0 s s' Hcanceled Hreach) as [Hc [H1 H2 _ H4]].
  split_and!; [done..|]. destruct (main s); simpl; lia.
Qed.

(** The sample run cancelled while its first step executes. *)
Definition canceled_chain : option state :=
  run sample_cfg true bg (drive sample_cfg true ok_world 13 (start sample_cfg chain))
    [(ok_world, ACallCancel); (ok_world, ASig 0)].

Definition canceled_state : state :=
  match canceled_chain with Some s => s | None => start sample_cfg chain end.

Lemma canceled_run_starts_nothing_witness :
  let s := canceled_state in let s' := drive sample_cfg true ok_world 200 s in
  (executing <$> ((fun t => snd (snd t)) <$> threads s)) = [true] /\ main s' = MReturn None /\
  (node_Status <$> Nodes (graph s')) = [NodeStatusSuccess; NodeStatusNone] /\
  canceled s' = true /\
  (forall id c p, (id, (c, p)) ∈ threads s' -> executing p = true ->
    exists c' p', (id, (c', p')) ∈ threads s /\ executing p' = true) /\
  (forall id c p, (id, (c, p)) ∈ threads s' ->
    (exists c' p', (id, (c', p')) ∈ threads s) \/ id ∈ committed (main s)) /\
  (forall id, status_of (graph s') id = NodeStatusRunning ->
    status_of (graph s) id = NodeStatusRunning \/ id ∈ committed (main s)) /\
  length (committed (main s)) <= 1.
Proof.
  intros s s'. split; [vm_compute; reflexivity|]. split; [vm_compute; reflexivity|].
  split; [vm_compute; reflexivity|].
  apply (canceled_run_starts_nothing sample_cfg true bg s s'); [vm_compute; reflexivity|apply drive_reachable].
Defined.

(** ** Dry runs *)

(** Where a goroutine can be in a dry run: it has no command, no error and no panic. *)
Definition dry_pc (p : pc) : bool :=
  match p with
  | PSetupContext | PPrecond | PSkipErr _ | PSetup | PLoop true | PExec | PCount None | PCountInc None
  | PRepeat None | PFinish | PFinishSet | PTeardown | PDeferTeardown None | PDeferFinish None | PWgDone None => true
  | _ => false
  end.

(** What is asked of the outside in a dry run too: the time, the conditions, the
    variables of a step, and whether a skipped step holds the next ones back. *)
Record same_questions (w w' : world) : Prop := mkSame {
  sq_now : w_now w = w_now w';
  sq_conditions : forall c conds, w_EvalConditions w c conds = w_EvalConditions w' c conds;
  sq_context : forall c g n, setupContext w c g n = setupContext w' c g n;
  sq_continue : forall n, w_shouldContinue w n = w_shouldContinue w' n
}.

Section dry.
Context (cfg : Config) (hd : bool) (ctx0 : ctx) (Hdry : Dry cfg = true).

(** Nothing has failed. *)
Record dry (s : state) : Prop := mkDry {
  dr_threads : Forall (fun t => dry_pc (snd (snd t)) = true) (threads s);
  dr_nodes : forall id, status_of (graph s) id <> NodeStatusError;
  dr_handlers : Forall (fun h => node_Status (snd h) <> NodeStatusError) (handlers s);
  dr_last : lastError s = None;
  dr_main : forall e, main s = MReturn e -> e = None
}.

Lemma gostep_dry w g canceled n c p e : dry_pc p = true -> node_Status n <> NodeStatusError ->
  gostep cfg hd w g canceled n c p = Some e ->
  ef_last e = None /\ node_Status (ef_node e) <> NodeStatusError /\
  match ef_next e with Some (_, p') => dry_pc p' = true | None => True end.
Proof.
  intros Hp Hn H. destruct p; try discriminate Hp; simpl in Hp, H;
    unfold goto, goto_last, goto_send, setupNode, teardownNode in H; rewrite ?Hdry in H;
    repeat (case_match; simplify_eq/=); try done; unfold repeats in *; simpl; split_and!; try done;
    try (by case_match); try (by destruct (_ && _)).
Qed.

Lemma on_node_not_error f id g : (forall n, node_Status n <> NodeStatusError -> node_Status (f n) <> NodeStatusError) ->
  (forall x, status_of g x <> NodeStatusError) -> forall x, status_of (on_node f id g) x <> NodeStatusError.
Proof.
  intros Hf Hg x. rewrite status_of_on_node. case_decide; [|apply Hg]. specialize (Hg id). unfold status_of in Hg.
  destruct (node g id); [by apply Hf|done].
Qed.

Lemma thread_dry w i s s' : dry s -> thread_step cfg hd w i s = Some s' -> dry s'.
Proof.
  intros [Ht Hn Hh Hl Hm]. unfold thread_step. destruct (threads s !! i) as [[id [c p]]|] eqn:Hi; [|done].
  destruct (node (graph s) id) as [n|] eqn:Hnode; [|done].
  destruct (gostep _ _ _ _ _ _ _ _) as [e|] eqn:He; [|done]. intros [= <-].
  assert (node_Status n <> NodeStatusError) as Hns by (specialize (Hn id); unfold status_of in Hn; by rewrite Hnode in Hn).
  destruct (gostep_dry w _ _ n c p e (Forall_lookup_1 _ _ _ _ Ht Hi) Hns He) as (Hlast & Hst & Hnext).
  unfold apply_effect. rewrite Hlast. split; simpl; try done.
  - destruct (ef_next e) as [[c' p']|]; [by apply Forall_insert|by apply Forall_delete].
  - by apply on_node_not_error.
Qed.

Lemma sig_dry i s s' : dry s -> sig_step i s = Some s' -> dry s'.
Proof.
  intros [Ht Hn Hh Hl Hm]. unfold sig_step. destruct (sigs s !! i) as [p|]; [|done].
  destruct (sigstep (graph s) p) as [[flag mark] next]. intros [= <-].
  assert (forall x, status_of (match mark with Some id => set_status_of id NodeStatusCancel (graph s) | None => graph s end) x <> NodeStatusError).
  { destruct mark; [by apply on_node_not_error|done]. }
  destruct flag, mark; by split.
Qed.

Lemma handler_dry h n hs : node_Status n <> NodeStatusError -> Forall (fun h => node_Status (snd h) <> NodeStatusError) hs ->
  Forall (fun h => node_Status (snd h) <> NodeStatusError) (set_handler h n hs).
Proof.
  intros Hn H. unfold set_handler. apply Forall_fmap. eapply Forall_impl; [exact H|]. intros [h' n'] H'. simpl. by case_bool_decide.
Qed.

Lemma main_dry w s s' : dry s -> mstep cfg hd ctx0 w s = Some s' -> dry s'.
Proof.
  intros [Ht Hn Hh Hl Hm]. unfold mstep. destruct (main s) as [todo| |rest|id deps ready rest|id dep b deps ready rest|id b deps rest|
    id e deps rest|id rest|id todo count rest|id rest| | |hs|e] eqn:E; intros H.
  all: try (repeat case_match; simplify_eq; by split).
  - destruct (node (graph s) dep) as [d|] eqn:Hd; [|done].
    destruct (w_shouldContinue w d) as [cont d'] eqn:Hc. simplify_eq. split; simpl; try done; [|by destruct cont].
    pose proof (keeps_w_shouldContinue w d) as [Hk _]. rewrite Hc in Hk. apply on_node_not_error; [|done].
    intros _ _. simpl in Hk. rewrite Hk. specialize (Hn dep). unfold status_of in Hn. by rewrite Hd in Hn.
  - simplify_eq. split; simpl; try done; [|by destruct (block_error b)]. apply on_node_not_error; [|done]. by destruct b.
  - simplify_eq. split; simpl; try done. by apply on_node_not_error.
  - simplify_eq. split; simpl; try done; [|by apply on_node_not_error]. apply Forall_app. split; [done|by repeat constructor].
  - destruct hs as [|h hs]; simplify_eq; [split; simpl; try done; congruence|].
    destruct (HandlerNode s h) as [n|]; simplify_eq; [|by split].
    unfold runHandlerNode in H. rewrite Hdry in H. simplify_eq. split; simpl; try done. by apply handler_dry.
Qed.

Lemma act_dry w x s s' : dry s -> act cfg hd ctx0 w x s = Some s' -> dry s'.
Proof.
  intros Hs. destruct x; simpl; [by apply main_dry|by apply thread_dry|by apply sig_dry|..];
    intros [= <-]; destruct Hs; by split.
Qed.

Lemma reachable_dry s s' : dry s -> reachable cfg hd ctx0 s s' -> dry s'.
Proof. intros Hs H. induction H as [|s s1 s' (w & x & H) _ IH]; [done|]. apply IH. by apply (act_dry w x s). Qed.

(** Two worlds that answer the questions of a dry run alike cannot be told apart. *)
Lemma gostep_alike w w' g canceled n c p : same_questions w w' -> dry_pc p = true ->
  gostep cfg hd w g canceled n c p = gostep cfg hd w' g canceled n c p.
Proof.
  intros [H1 H2 H3 H4] Hp. destruct p; try discriminate Hp; simpl; unfold setupNode, teardownNode; rewrite ?Hdry, ?H1, ?H2, ?H3; done.
Qed.

Lemma act_alike w w' x s : same_questions w w' -> dry s -> act cfg hd ctx0 w x s = act cfg hd ctx0 w' x s.
Proof.
  intros Hq [Ht _ _ _ _]. pose proof Hq as [H1 H2 H3 H4]. destruct x as [|i| | |]; simpl; try done.
  - unfold mstep, runHandlerNode. rewrite Hdry, H1. destruct (main s); try done. by destruct (node _ _); rewrite ?H4.
  - unfold thread_step. destruct (threads s !! i) as [[id [c p]]|] eqn:Hi; [|done]. destruct (node _ _); [|done].
    by rewrite (gostep_alike w w' _ _ _ _ _ Hq (Forall_lookup_1 _ _ _ _ Ht Hi)).
Qed.
End dry.
