(* ===== verification/SchedEnds.v ===== *)
(** * Termination of a run

    A potential, the work left, falls with every move of a goroutine and never
    grows with a move of the main loop or of a signal call: a run makes a bounded
    number of goroutine moves, whatever the interleaving.  And from every
    reachable state the main loop and the goroutines alone can bring the run to
    its end: the scheduler has no deadlock. *)

From S2P Require Import Prelude GoStrings Vars Digraph NodeData CmdUtil Eval Contexts Node Graph.
From S2P Require Import GraphCycle GraphSetup GraphProps Sched SchedInv SchedOrder SchedLimit SchedResult SchedReady SchedCancel SchedProps.

(** ** Retries *)

Definition retry_count (n : Node) : Z := SafeData.GetRetryCount (n_data n).
Definition retry_decl (n : Node) : RetryPolicy.t := Step.RetryPolicy (nd_Step (n_data n)).

Record same_retry (n n' : Node) : Prop := mk_same_retry {
  sr_count : retry_count n' = retry_count n;
  sr_decl : retry_decl n' = retry_decl n;
  sr_limit : rp_Limit (n_retryPolicy n') = rp_Limit (n_retryPolicy n)
}.

#[export] Instance same_retry_preorder : PreOrder same_retry.
Proof. split; [done|]. intros n1 n2 n3 [] []. split; congruence. Qed.

(** A node whose retries are within the limit [L], and whose limit, where it is
    a string, is one of [strs]. *)
Record within (strs : list string) (L : Z) (n : Node) : Prop := mk_within {
  wi_count : (0 <= retry_count n)%Z;
  wi_limit : (rp_Limit (n_retryPolicy n) <= L)%Z;
  wi_decl : (RetryPolicy.Limit (retry_decl n) <= L)%Z;
  wi_str : RetryPolicy.LimitStr (retry_decl n) ∈ strs
}.

Lemma within_same strs L n n' : same_retry n n' -> within strs L n -> within strs L n'.
Proof. intros [E1 E2 E3] []. split; by rewrite ?E1, ?E2, ?E3. Qed.

(** The world evaluates these strings to integers that are at most [L]. *)
Definition limits_under (strs : list string) (L : Z) (w : world) : Prop :=
  forall s v, s ∈ strs -> EvalIntString (w_lookupEnv w) (w_jq w) (w_runCommand w) s [] = Ok v -> (v <= L)%Z.

(** [strconv.Atoi] only accepts 64-bit integers. *)
Lemma limits_under_int strs w : limits_under strs (2 ^ 63 - 1) w.
Proof.
  intros s v _. unfold EvalIntString. destruct (substituteCommands _ _) as [x|]; [|done].
  unfold Atoi. repeat case_match; intros; simplify_eq;
    repeat match goal with H : bool_decide _ = true |- _ => apply bool_decide_eq_true in H end; lia.
Qed.

Section frames.
Context (cfg : Config) (w : world) (strs : list string) (L : Z) (HL : (0 <= L)%Z) (Hw : limits_under strs L w).

Lemma same_retry_shouldContinue n : same_retry n (snd (w_shouldContinue w n)).
Proof. unfold w_shouldContinue, shouldContinue, continue_by_match. repeat case_match; done. Qed.

Lemma same_retry_shouldMarkSuccess n : same_retry n (snd (w_shouldMarkSuccess w n)).
Proof.
  unfold w_shouldMarkSuccess, shouldMarkSuccess. pose proof (same_retry_shouldContinue n) as H.
  unfold w_shouldContinue in H. by destruct (shouldContinue _ _ _ n) as [[] ?].
Qed.

Lemma same_retry_finishExecute cmd n : same_retry n (fst (finishExecute cmd n)).
Proof. unfold finishExecute. repeat case_match; simplify_eq; done. Qed.

Lemma same_retry_ClearVariable k n : same_retry n (on_data (fun d => SafeData.ClearVariable d k) n).
Proof.
  unfold SafeData.ClearVariable. destruct (Step.OutputVariables (nd_Step (n_data n))) eqn:E; split;
    unfold on_data; simpl; by rewrite ?E.
Qed.

Lemma same_retry_setupExecutor c n : same_retry n (fst (w_setupExecutor w c n)).
Proof.
  unfold w_setupExecutor, setupExecutor.
  match goal with |- context [evaluateCommandArgs _ _ ?x] => set (n0 := x) end.
  assert (same_retry n n0) as H0.
  { etrans; [apply (same_retry_ClearVariable (cacheKey n))|]. unfold n0, on_data. by split. }
  clearbody n0. etrans; [exact H0|].
  assert (same_retry n0 (fst (evaluateCommandArgs (w_step_eval w c [WithoutExpandEnv]) (w_shell w) n0))) as H1.
  { unfold evaluateCommandArgs. repeat case_match; simplify_eq; done. }
  destruct (evaluateCommandArgs _ _ n0) as [n1 [e|]]; [done|]. simpl in H1. etrans; [exact H1|].
  destruct (w_newExecutor w _); [|done]. by destruct (OutputCoordinator.setupExecutorIO _ _ _) as [? []].
Qed.

Lemma same_retry_teardownNode n : same_retry n (fst (teardownNode cfg w n)).
Proof. unfold teardownNode, w_Teardown, Teardown. repeat case_match; done. Qed.

(** [Setup] reads the limit again: a number, or a string the world evaluates. *)
Lemma setupRetryPolicy_within n :
  let n' := fst (setupRetryPolicy (fun s => EvalIntString (w_lookupEnv w) (w_jq w) (w_runCommand w) s []) n) in
  within strs L n -> within strs L n' /\ retry_count n' = retry_count n.
Proof.
  intros n' Hn. unfold n', setupRetryPolicy, SafeData.GetStep. pose proof (wi_decl _ _ _ Hn) as Hd.
  unfold retry_decl in Hd.
  destruct (bool_decide (RetryPolicy.LimitStr _ <> "")).
  - destruct (EvalIntString _ _ _ (RetryPolicy.LimitStr _) []) as [v|e] eqn:E; [|done].
    apply Hw in E; [|exact (wi_str _ _ _ Hn)].
    repeat case_match; simplify_eq; (split; [|done]); try done; destruct Hn; by split.
  - destruct (0 <? RetryPolicy.Limit _)%Z; repeat case_match; simplify_eq; (split; [|done]);
      try done; destruct Hn; split; simpl; done.
Qed.

Lemma setupNode_within c n :
  within strs L n -> within strs L (fst (setupNode cfg w c n)) /\ retry_count (fst (setupNode cfg w c n)) = retry_count n.
Proof.
  intros Hn. unfold setupNode, w_Setup, Node.Setup. destruct (Dry cfg); [done|].
  destruct (if w_fileExists w (LogDir cfg) then None else _); [done|].
  match goal with |- context [SafeData.Setup _ ?x _ _] => set (lf := x) end.
  assert (same_retry n (set_n_data n (fst (SafeData.Setup (w_step_eval w c []) lf (w_now w) (n_data n))))) as H1.
  { unfold SafeData.Setup. repeat case_match; done. }
  destruct (SafeData.Setup _ lf _ _) as [d [e|]]; simpl in H1;
    pose proof (within_same strs L _ _ H1 Hn) as Hn1; pose proof (sr_count _ _ H1) as Ec; [done|].
  destruct (OutputCoordinator.setup _ _ _) as [oc [e|]].
  { simpl. split; [|done]. by destruct Hn1. }
  assert (within strs L (set_n_outputs (set_n_data n d) oc)) as Hn2 by (by destruct Hn1).
  pose proof (setupRetryPolicy_within _ Hn2) as [H3 H4].
  destruct (setupRetryPolicy _ (set_n_outputs (set_n_data n d) oc)) as [n2 [e|]]; simpl in *;
    (split; [done|by rewrite H4]).
Qed.

End frames.

(** ** The work left *)

(** The moves a goroutine makes at most before it ends, a retry or another
    iteration of a repeating step apart. *)
Definition rank (p : pc) : Z :=
  match p with
  | PSetupContext => 27 | PPrecond => 26 | PSkipErr _ => 5
  | PSetup => 25 | PSetupLast _ => 13 | PSetupMark _ => 12
  | PLoop true => 24 | PLoop false => 11
  | PExec => 23 | PRun _ => 22 | PAfterExec _ => 21
  | PTimeoutChk _ => 20 | PTimeoutSet _ => 15 | PCancelChk _ => 19
  | PRetryChk _ => 18 | PRetryInc _ => 17 | PRetryAt _ => 43 | PRetryNone _ => 42
  | PFail _ => 17 | PMarkChk _ => 16 | PMarkSuccess _ => 15 | PMarkError _ => 15
  | PLastErr _ => 14 | PCount _ => 13 | PCountInc _ => 12 | PRepeat _ => 11
  | PFinish => 10 | PFinishSet => 9 | PTeardown => 8 | PTeardownLast _ => 7 | PTeardownErr => 6
  | PDeferTeardown _ => 5 | PDeferFinish _ => 4 | PWgDone _ => 3
  | PRecoverMark _ => 2 | PRecoverLast _ => 1
  end%Z.

(** What one launch of a node, and one retry of it, may cost. *)
Definition launch_cost : Z := 28.

Definition status_credit (st : NodeStatus) : Z :=
  if bool_decide (st = NodeStatusNone) then launch_cost else 0.

(** The retries a node has left, and its next launch. *)
Definition node_credit (L : Z) (n : Node) : Z :=
  (launch_cost * Z.max 0 (L - retry_count n) + status_credit (node_Status n))%Z.

Definition next_rank (e : effect) : Z :=
  match ef_next e with Some (_, p) => rank p | None => 0 end.

Definition retrying (p : pc) : bool := match p with PRetryInc _ => true | _ => false end.

Definition repeating_step (n : Node) : bool :=
  RepeatPolicy.Repeat (Step.RepeatPolicy (nd_Step (n_data n))).

Lemma rank_pos p : (0 < rank p)%Z.
Proof. by destruct p as [| | | | | |[]| | | | | | | | | | | | | | | | | | | | | | | | | | | |]. Qed.

Lemma node_credit_nonneg L n : (0 <= node_credit L n)%Z.
Proof. unfold node_credit, status_credit, launch_cost. case_bool_decide; lia. Qed.

(** A node left with the same retries and a status that is not reset. *)
Lemma node_credit_le L n n' :
  retry_count n' = retry_count n ->
  (node_Status n' = NodeStatusNone -> node_Status n = NodeStatusNone) ->
  (node_credit L n' <= node_credit L n)%Z.
Proof.
  intros Hc Hs. unfold node_credit, status_credit, launch_cost. rewrite Hc.
  repeat case_bool_decide; try lia. tauto.
Qed.

Section work.
Context (cfg : Config) (w : world) (strs : list string) (L : Z) (HL : (0 <= L < 2 ^ 63)%Z) (Hw : limits_under strs L w).

(** What a move costs: the node's credit and the goroutine's rank together fall,
    where [once] excludes another iteration of a repeating step. *)
Definition cheaper (once : Prop) (n : Node) (p : pc) (e : effect) : Prop :=
  (once -> (node_credit L (ef_node e) + next_rank e < node_credit L n + rank p)%Z) /\
  within strs L (ef_node e) /\ (retrying p = false -> retry_count (ef_node e) = retry_count n) /\
  (match ef_next e with
   | Some (_, p') => retrying p' = true -> (retry_count (ef_node e) < L)%Z
   | None => True
   end).

Lemma cheaper_same (once : Prop) n p e :
  within strs L n -> same_retry n (ef_node e) ->
  (node_Status (ef_node e) = NodeStatusNone -> node_Status n = NodeStatusNone) ->
  (once -> (next_rank e < rank p)%Z) ->
  (match ef_next e with Some (_, p') => retrying p' = false | None => True end) ->
  cheaper once n p e.
Proof.
  intros Hn Hs Hst Hr Hp. unfold cheaper. pose proof (node_credit_le L n (ef_node e) (sr_count _ _ Hs) Hst).
  split_and!; [intros Ho; specialize (Hr Ho); lia|by eapply within_same|intros _; apply Hs|].
  destruct (ef_next e) as [[? ?]|]; [|done]. by rewrite Hp.
Qed.

Lemma retry_none_cheaper once n c e :
  within strs L n ->
  cheaper once n (PRetryNone e) (mkEffect (node_SetStatus NodeStatusNone n) None false (Some (c, PCount (Some e)))).
Proof.
  intros Hn. split_and!; [|by destruct Hn|done|done]. intros _. unfold next_rank, node_credit, status_credit, launch_cost.
  change (retry_count (ef_node _)) with (retry_count n). simpl. repeat case_bool_decide; lia.
Qed.

Lemma retry_inc_cheaper once n c e :
  within strs L n -> (retry_count n < L)%Z ->
  cheaper once n (PRetryInc e) (mkEffect (on_data SafeData.IncRetryCount n) None false (Some (c, PRetryAt e))).
Proof.
  intros Hn Hc. pose proof (wi_count _ _ _ Hn) as H0.
  assert (retry_count (on_data SafeData.IncRetryCount n) = retry_count n + 1)%Z as Ec.
  { apply (int64_id (retry_count n + 1)). unfold in_int64. lia. }
  split_and!; [|destruct Hn; split; simpl; [rewrite Ec; lia|done..]|done|done].
  intros _. unfold next_rank, node_credit, status_credit, launch_cost.
  change (ef_node _) with (on_data SafeData.IncRetryCount n). rewrite Ec.
  change (node_Status (on_data SafeData.IncRetryCount n)) with (node_Status n). simpl.
  case_bool_decide; lia.
Qed.

Lemma setup_cheaper once hd g canceled n c e :
  within strs L n -> gostep cfg hd w g canceled n c PSetup = Some e -> cheaper once n PSetup e.
Proof.
  intros Hn H. simpl in H. pose proof (setupNode_within cfg w strs L (proj1 HL) Hw c n Hn) as [H1 H2].
  pose proof (keeps_setupNode cfg w c n) as [H3 _].
  destruct (setupNode cfg w c n) as [n' [x|]]; simpl in *; unfold goto in H; simplify_eq;
    (split_and!; [intros _|done|done|done]); unfold next_rank, node_credit; simpl; rewrite H2, H3; lia.
Qed.

(** Every move of a goroutine lowers the credit of its node and its rank
    together, unless a repeating step starts over. *)
Lemma gostep_cheaper hd g canceled n c p e :
  within strs L n -> (retrying p = true -> (retry_count n < L)%Z) ->
  gostep cfg hd w g canceled n c p = Some e ->
  cheaper (canceled = true \/ repeating_step n = false) n p e.
Proof.
  intros Hn Hp H.
  assert (forall o, repeats n o && negb canceled = true -> ~ (canceled = true \/ repeating_step n = false)) as Hr.
  { intros o [Hr Hc]%andb_prop [->|E]; [done|]. unfold repeats in Hr. apply andb_prop in Hr as [Hr _].
    unfold repeating_step in E. unfold step_of, SafeData.GetStep in Hr. congruence. }
  destruct p; try (by eapply setup_cheaper); simpl in H; unfold goto, goto_last, goto_send in H;
    repeat match goal with
    | H : context [w_setupExecutor w ?c ?n] |- _ =>
        pose proof (same_retry_setupExecutor w c n); pose proof (keeps_w_setupExecutor w c n) as [? _];
        destruct (w_setupExecutor w c n) as [? [?|?]]; simpl in *
    | H : context [finishExecute ?c ?n] |- _ =>
        pose proof (same_retry_finishExecute c n); pose proof (keeps_finishExecute c n) as [? _];
        destruct (finishExecute c n) as [? [?|]]; simpl in *
    | H : context [w_shouldMarkSuccess w ?n] |- _ =>
        pose proof (same_retry_shouldMarkSuccess w n); pose proof (keeps_w_shouldMarkSuccess w n) as [? _];
        destruct (w_shouldMarkSuccess w n) as [[] ?]; simpl in *
    | H : context [teardownNode cfg w ?n] |- _ =>
        pose proof (same_retry_teardownNode cfg w n); pose proof (keeps_teardownNode cfg w n) as [? _];
        destruct (teardownNode cfg w n) as [? [?|]]; simpl in *
    end.
  all: try (repeat case_match; simplify_eq; apply cheaper_same; done || (by simpl; congruence) || (by repeat case_match)).
  - simplify_eq. destruct (setupSucceed && negb canceled) eqn:E; apply cheaper_same; try done;
      by destruct setupSucceed.
  - simplify_eq. destruct (_ <? _)%Z eqn:E; [|by apply cheaper_same]. apply Z.ltb_lt in E.
    pose proof (wi_limit _ _ _ Hn). split_and!; [unfold next_rank; simpl; lia|done|done|].
    intros _. simpl. unfold retry_count. lia.
  - simplify_eq. apply retry_inc_cheaper; auto.
  - simplify_eq. by apply retry_none_cheaper.
  - destruct (repeats n e0 && negb canceled) eqn:E;
      [|destruct (bool_decide (is_Some e0) && hd)]; simplify_eq; apply cheaper_same; try done.
    intros Ho. by destruct (Hr e0 E).
Qed.

End work.

(** Sums of credits. *)
Definition zsum {A} (f : A -> Z) (l : list A) : Z := foldr (fun x a => f x + a)%Z 0%Z l.

Lemma zsum_app {A} (f : A -> Z) l1 l2 : zsum f (l1 ++ l2) = (zsum f l1 + zsum f l2)%Z.
Proof. induction l1 as [|x l1 IH]; simpl; [done|]. rewrite IH. lia. Qed.

Lemma zsum_le {A} (f f' : A -> Z) l : (forall x, x ∈ l -> (f' x <= f x)%Z) -> (zsum f' l <= zsum f l)%Z.
Proof.
  induction l as [|x l IH]; simpl; intros H; [done|].
  pose proof (H x ltac:(by left)). pose proof (IH (fun y Hy => H y ltac:(by right))). lia.
Qed.

Lemma zsum_nonneg {A} (f : A -> Z) l : (forall x, (0 <= f x)%Z) -> (0 <= zsum f l)%Z.
Proof. intros H. induction l as [|x l IH]; simpl; [done|]. pose proof (H x). lia. Qed.

(** One term of the sum changes. *)
Lemma zsum_one (f f' : Z -> Z) l u :
  NoDup l -> u ∈ l -> (forall x, x <> u -> f' x = f x) -> (zsum f' l = zsum f l - f u + f' u)%Z.
Proof.
  intros Hl Hu Hf. induction Hl as [|x l Hx Hl IH]; [by apply elem_of_nil in Hu|]. simpl.
  apply elem_of_cons in Hu as [->|Hu].
  - assert (zsum f' l = zsum f l) as ->; [|lia]. clear -Hx Hf. induction l as [|y l IH]; [done|]. simpl.
    rewrite IH by set_solver. rewrite Hf; [done|]. set_solver.
  - rewrite IH by done. rewrite (Hf x); [lia|]. by intros ->.
Qed.

Definition id_credit (L : Z) (g : ExecutionGraph) (id : Z) : Z :=
  match node g id with Some n => node_credit L n | None => 0 end.

Definition thread_rank (t : thread) : Z := rank (snd (snd t)).

(** A run that is not cancelled may still be cancelled once the main loop has
    passed its check of the flag, and the node marked: one more launch. *)
Definition flag_credit (s : state) : Z :=
  if canceled s then match committed (main s) with [] => 0 | _ => launch_cost end else launch_cost.

(** The work left: goroutine moves that may still happen. *)
Definition work (L : Z) (s : state) : Z :=
  (zsum (id_credit L (graph s)) (nodes (graph s)) + zsum thread_rank (threads s) + flag_credit s)%Z.

Lemma id_credit_nonneg L g id : (0 <= id_credit L g id)%Z.
Proof. unfold id_credit. destruct (node g id); [apply node_credit_nonneg|done]. Qed.

Lemma work_nonneg L s : (0 <= work L s)%Z.
Proof.
  unfold work, flag_credit, launch_cost.
  pose proof (zsum_nonneg (id_credit L (graph s)) (nodes (graph s)) (id_credit_nonneg L _)).
  pose proof (zsum_nonneg thread_rank (threads s) (fun t => Z.lt_le_incl _ _ (rank_pos _))).
  destruct (canceled s), (committed (main s)); lia.
Qed.

(** A graph whose nodes have the same retries, none of them reset. *)
Definition mild (g g' : ExecutionGraph) : Prop :=
  nodes g' = nodes g /\
  forall id n', node g' id = Some n' -> exists n, node g id = Some n /\ same_retry n n' /\
    (node_Status n' = NodeStatusNone -> node_Status n = NodeStatusNone).

Lemma mild_refl g : mild g g.
Proof. split; [done|]. intros id n Hn. by exists n. Qed.

Lemma mild_on_node f id g :
  (forall n, node g id = Some n -> same_retry n (f n) /\
     (node_Status (f n) = NodeStatusNone -> node_Status n = NodeStatusNone)) ->
  mild g (on_node f id g).
Proof.
  intros Hf. split; [done|]. intros x n'. rewrite node_on_node. case_decide; [|by exists n']. subst.
  destruct (node g id) as [n|]; [|done]. intros [= <-]. exists n. split; [done|]. by apply Hf.
Qed.

Lemma mild_status id st g : st <> NodeStatusNone -> mild g (set_status_of id st g).
Proof. intros Hst. apply mild_on_node. intros n Hn. split; [done|]. intros H. by destruct (Hst H). Qed.

Lemma mild_credit L g g' :
  mild g g' -> (zsum (id_credit L g') (nodes g') <= zsum (id_credit L g) (nodes g))%Z.
Proof.
  intros [-> H]. apply zsum_le. intros x _. unfold id_credit at 1.
  destruct (node g' x) as [n'|] eqn:E; [|apply id_credit_nonneg].
  destruct (H x n' E) as (n & Hn & Hs & Hst). unfold id_credit. rewrite Hn.
  apply node_credit_le; [apply (sr_count _ _ Hs)|done].
Qed.

Lemma mild_main cfg hd ctx0 w s s' : mstep cfg hd ctx0 w s = Some s' -> mild (graph s) (graph s').
Proof.
  unfold mstep. destruct (main s).
  1-4, 8-9, 11-14: intros; repeat case_match; simplify_eq; exact (mild_refl (graph s)).
  - destruct (node (graph s) dep) as [d|] eqn:Hd; [|done].
    pose proof (keeps_w_shouldContinue w d) as [Hk _]. pose proof (same_retry_shouldContinue w d) as Hs.
    destruct (w_shouldContinue w d) as [cont d']. intros [= <-]. apply mild_on_node.
    intros n Hn. simplify_eq. split; [done|]. simpl in Hk. by rewrite Hk.
  - intros [= <-]. apply mild_status. by destruct b.
  - intros [= <-]. by apply mild_on_node.
  - intros [= <-]. by apply mild_status.
Qed.

(** ** What holds of a run that ends *)

(** The node the main loop has found unstarted and may launch. *)
Definition held (m : mpc) : option Z :=
  match m with
  | MReady id _ true _ | MContinue id _ _ _ true _ | MCancelChk2 id _ | MCount id _ _ _ | MLaunch id _ => Some id
  | _ => None
  end.

(** Positions of a goroutine that will still write the status of a running node. *)
Definition keeps_running (p : pc) : bool :=
  match p with PTeardown | PTeardownLast _ => false | _ => is_active (class p) end.

Definition no_repeats (g : ExecutionGraph) : Prop :=
  forall id n, node g id = Some n -> repeating_step n = false.

Lemma no_repeats_same g g0 : same_graph g g0 -> no_repeats g -> no_repeats g0.
Proof.
  intros Hs Hno id n0 Hn0. destruct (same_graph_back g g0 id n0 Hs Hn0) as (n & Hn & [_ _ _ Hr _]).
  unfold repeating_step. rewrite Hr. by apply (Hno id).
Qed.

Record sound (strs : list string) (L : Z) (g0 : ExecutionGraph) (s : state) : Prop := mk_sound {
  so_inv : inv g0 s;
  so_quiet : quiet s;
  so_within : forall id n, node (graph s) id = Some n -> within strs L n;
  so_retrying : forall t n, t ∈ threads s -> retrying (snd (snd t)) = true ->
    node (graph s) (fst t) = Some n -> (retry_count n < L)%Z;
  so_held : canceled s = false -> forall id, held (main s) = Some id -> not_started (graph s) id;
  so_running : canceled s = false -> forall u, is_running (graph s) u ->
    exists t, t ∈ threads s /\ fst t = u /\ keeps_running (snd (snd t)) = true;
  so_todo : match main s with MFinished todo => todo ⊆ nodes (graph s) | _ => True end
}.

(** No two goroutines of a class are on one node. *)
Lemma ids_in_once P ts : NoDup (ids_in P ts) -> forall i j t t',
  ts !! i = Some t -> ts !! j = Some t' -> P (thread_class t) = true -> P (thread_class t') = true ->
  fst t = fst t' -> i = j.
Proof.
  induction ts as [|[v [c p]] ts IH]; intros Hnd i j t t' Hi Hj Hp Hp' Hu; [done|].
  rewrite ids_in_cons in Hnd. apply NoDup_app in Hnd as (_ & Hd & Hnd).
  assert (forall k t1, ts !! k = Some t1 -> P (thread_class t1) = true -> fst t1 = v ->
            P (class p) = true -> False) as Hno.
  { intros k t1 Hk H1 E HP. rewrite HP in Hd. apply (Hd v ltac:(by left)). apply elem_of_ids_in.
    exists t1. split_and!; [by eapply list_elem_of_lookup_2|done..]. }
  destruct i as [|i], j as [|j]; simpl in *; [done| | |f_equal; by eapply IH]; simplify_eq; exfalso.
  - by apply (Hno j t').
  - by apply (Hno i t).
Qed.

Section ends.
Context (cfg : Config) (ctx0 : ctx) (strs : list string) (L : Z) (g0 : ExecutionGraph).
Context (Hgood : good_graph g0) (Hnodup : NoDup (nodes g0)) (HL : (0 <= L < 2 ^ 63)%Z).

Lemma ends_now s id n :
  inv g0 s -> canceled s = true \/ no_repeats g0 -> node (graph s) id = Some n ->
  canceled s = true \/ repeating_step n = false.
Proof.
  intros Hinv [Hc|Hno] Hn; [by left|right].
  exact (no_repeats_same _ _ (inv_graph _ _ Hinv) Hno id n Hn).
Qed.

(** A goroutine that keeps a node running goes on doing so while the node runs
    and the run is not cancelled. *)
Lemma gostep_keeps_running w g n c p e :
  repeats_failures n = false -> keeps_running p = true ->
  gostep cfg true w g false n c p = Some e -> node_Status (ef_node e) = NodeStatusRunning ->
  match ef_next e with Some (_, p') => keeps_running p' = true | None => False end.
Proof.
  intros Hrep Hp H Hst. assert (forall e, repeats n (Some e) = false) as Hr by done.
  destruct p; simpl in Hp; try done; simpl in H; unfold goto, goto_last, goto_send in H;
    rewrite ?Hr in H;
    repeat match goal with
    | H : context [setupNode cfg w ?c ?n] |- _ =>
        pose proof (keeps_setupNode cfg w c n) as [? _]; destruct (setupNode cfg w c n) as [? [?|]]
    | H : context [w_setupExecutor w ?c ?n] |- _ => destruct (w_setupExecutor w c n) as [? [?|?]]
    | H : context [finishExecute ?c ?n] |- _ => destruct (finishExecute c n) as [? [?|]]
    | H : context [w_shouldMarkSuccess w ?n] |- _ => destruct (w_shouldMarkSuccess w n) as [[] ?]
    | H : context [teardownNode cfg w ?n] |- _ => destruct (teardownNode cfg w n) as [? [?|]]
    end;
    repeat (case_match; simplify_eq/=); try done; try congruence;
    repeat match goal with
    | H : context [bool_decide _] |- _ => rewrite bool_decide_eq_false in H
    end; try done.
Qed.

(** ** Moves of goroutines *)

Section thread.
Context (w : world) (Hw : limits_under strs L w) (i : nat) (s : state) (u : Z) (c : ctx) (p : pc) (n : Node) (e : effect).
Context (Hs : sound strs L g0 s) (Ht : threads s !! i = Some (u, (c, p))) (Hn : node (graph s) u = Some n).
Context (He : gostep cfg true w (graph s) (canceled s) n c p = Some e).

Let s' := apply_effect i u e s.

Lemma thread_cheaper : cheaper strs L (canceled s = true \/ repeating_step n = false) n p e.
Proof.
  eapply gostep_cheaper; [exact HL|exact Hw|by eapply so_within| |exact He].
  intros Hp. apply (so_retrying _ _ _ _ Hs (u, (c, p))); [by eapply list_elem_of_lookup_2|done..].
Qed.

Lemma thread_node x : node (graph s') x = if decide (x = u) then Some (ef_node e) else node (graph s) x.
Proof. unfold s', apply_effect. simpl. rewrite node_on_node. case_decide; [|done]. by rewrite Hn. Qed.

(** A goroutine after the move: one that was there, at another place in the
    list, or the one that moved. *)
Lemma thread_elem t : t ∈ threads s' ->
  (exists j, j <> i /\ threads s !! j = Some t) \/ (exists c' p', ef_next e = Some (c', p') /\ t = (u, (c', p'))).
Proof.
  unfold s', apply_effect. simpl. destruct (ef_next e) as [[c' p']|].
  - intros Hin. apply list_elem_of_lookup in Hin as [j Hj]. destruct (decide (j = i)) as [->|Hji].
    + rewrite list_lookup_insert_eq in Hj by (by eapply lookup_lt_Some). simplify_eq. eauto.
    + rewrite list_lookup_insert_ne in Hj by done. eauto.
  - intros Hin. apply list_elem_of_lookup in Hin as [j Hj]. left. destruct (decide (j < i)) as [Hji|Hji].
    + rewrite list_lookup_delete_lt in Hj by done. exists j. split; [lia|done].
    + rewrite list_lookup_delete_ge in Hj by lia. exists (S j). split; [lia|done].
Qed.

Lemma thread_keep t : t ∈ threads s -> t = (u, (c, p)) \/ t ∈ threads s'.
Proof.
  intros Hin. change (threads s') with (stepped i u e (threads s)).
  destruct (stepped_spec i u c p e _ Ht) as (l1 & l2 & E1 & ->). rewrite E1 in Hin. set_solver.
Qed.

Lemma thread_next : threads s' = stepped i u e (threads s).
Proof. done. Qed.

Lemma thread_retrying t n' : t ∈ threads s' -> retrying (snd (snd t)) = true ->
  node (graph s') (fst t) = Some n' -> (retry_count n' < L)%Z.
Proof.
  intros Hin Hr. rewrite thread_node. pose proof thread_cheaper as (_ & _ & Hcount & Hc).
  destruct (thread_elem t Hin) as [(j & Hji & Hj)|(c' & p' & E & ->)].
  - case_decide as Eu.
    + intros [= <-]. destruct (decide (retrying p = true)) as [Hp|Hp].
      * exfalso. apply Hji. eapply (ids_in_once is_active); [apply (inv_unique _ _ (so_inv _ _ _ _ Hs))|..];
          [exact Hj|exact Ht| |by destruct p|done].
        unfold thread_class. by destruct (snd (snd t)).
      * rewrite Hcount by (by destruct (retrying p)).
        eapply (so_retrying _ _ _ _ Hs t); [by eapply list_elem_of_lookup_2|done|by rewrite Eu].
    + eapply (so_retrying _ _ _ _ Hs t); [by eapply list_elem_of_lookup_2|done].
  - simpl. rewrite decide_True by done. intros [= <-]. rewrite E in Hc. by apply Hc.
Qed.

Lemma thread_work : canceled s = true \/ no_repeats g0 -> (work L s' < work L s)%Z.
Proof.
  intros Hends. pose proof thread_cheaper as (Hcost & _).
  specialize (Hcost (ends_now s u n (so_inv _ _ _ _ Hs) Hends Hn)). unfold work, flag_credit.
  change (canceled s') with (canceled s). change (main s') with (main s).
  assert (u ∈ nodes (graph s)) as Hu.
  { apply (quiet_ids _ (so_quiet _ _ _ _ Hs) (u, (c, p))). by eapply list_elem_of_lookup_2. }
  change (nodes (graph s')) with (nodes (graph s)).
  rewrite (zsum_one (id_credit L (graph s)) (id_credit L (graph s')) (nodes (graph s)) u); [|..|done|].
  2:{ by rewrite (sg_nodes _ _ (inv_graph _ _ (so_inv _ _ _ _ Hs))). }
  2:{ intros x Hx. unfold id_credit. rewrite thread_node. by rewrite decide_False. }
  assert (id_credit L (graph s') u = node_credit L (ef_node e)) as ->.
  { unfold id_credit. rewrite thread_node. by rewrite decide_True. }
  assert (id_credit L (graph s) u = node_credit L n) as -> by (unfold id_credit; by rewrite Hn).
  rewrite thread_next. destruct (stepped_spec i u c p e _ Ht) as (l1 & l2 & E & ->). rewrite E.
  rewrite !zsum_app. unfold next_rank in Hcost. destruct (ef_next e) as [[c' p']|]; simpl;
    unfold thread_rank; simpl; lia.
Qed.

Lemma thread_running x : canceled s = false -> is_running (graph s') x ->
  exists t, t ∈ threads s' /\ fst t = x /\ keeps_running (snd (snd t)) = true.
Proof.
  intros Hc Hx.
  assert (thread_step cfg true w i s = Some s') as Hstep by (unfold thread_step; by rewrite Ht, Hn, He).
  apply thread_step_no_start in Hstep as [[_ Hstep] _].
  destruct (so_running _ _ _ _ Hs Hc x (Hstep x Hx)) as (t & Hin & Hf & Hk).
  destruct (thread_keep t Hin) as [->|Hin']; [|by exists t].
  simpl in *. subst x. rewrite Hc in He.
  assert (repeats_failures n = false) as Hrep by apply (good_repeat _ (inv_good g0 Hgood s (so_inv _ _ _ _ Hs)) u n Hn).
  assert (node_Status (ef_node e) = NodeStatusRunning) as Hst.
  { unfold is_running, status_of in Hx. rewrite thread_node, decide_True in Hx; done. }
  pose proof (gostep_keeps_running w (graph s) n c p e Hrep Hk He Hst) as Hnext.
  destruct (ef_next e) as [[c' p']|] eqn:E; [|done]. exists (u, (c', p')). split_and!; [|done..].
  apply list_elem_of_lookup. exists i. apply list_lookup_insert_eq. by eapply lookup_lt_Some.
Qed.

Lemma thread_sound : sound strs L g0 s'.
Proof.
  pose proof (so_inv _ _ _ _ Hs) as Hinv. pose proof (so_quiet _ _ _ _ Hs) as Hq.
  assert (repeats_failures n = false) as Hrep by apply (good_repeat _ (inv_good g0 Hgood s Hinv) u n Hn).
  assert (thread_step cfg true w i s = Some s') as Hstep by (unfold thread_step; by rewrite Ht, Hn, He).
  split.
  - by eapply thread_step_inv.
  - by eapply thread_step_quiet.
  - intros x n'. rewrite thread_node. case_decide; [|by eapply so_within]. intros [= <-]. apply thread_cheaper.
  - intros t n' Hin. apply thread_retrying. done.
  - intros Hc id Hh. pose proof (so_held _ _ _ _ Hs Hc id Hh) as Hnone. unfold not_started, status_of in *.
    rewrite thread_node. case_decide; [|done]. subst id.
    apply dec_stable. intros Hst. rewrite Hn in Hnone.
    destruct (decide (class p = Gone)) as [Hp|Hp].
    + pose proof (gostep_class cfg w (graph s) (canceled s) n c p e Hrep He) as Hk. rewrite Hp in Hk.
      destruct Hk as [_ Hk]. congruence.
    + apply (inv_active _ _ Hinv u); [|unfold status_of; by rewrite Hn].
      apply elem_of_ids_in. exists (u, (c, p)). split_and!; [by eapply list_elem_of_lookup_2|done|].
      by apply bool_decide_eq_true.
  - intros Hc x Hx. by apply thread_running.
  - exact (so_todo _ _ _ _ Hs).
Qed.

End thread.
Lemma thread_step_sound w i s s' :
  limits_under strs L w -> sound strs L g0 s -> thread_step cfg true w i s = Some s' ->
  sound strs L g0 s' /\ (canceled s = true \/ no_repeats g0 -> (work L s' < work L s)%Z).
Proof.
  intros Hw Hs. unfold thread_step. destruct (threads s !! i) as [[u [c p]]|] eqn:Ht; [|done].
  destruct (node (graph s) u) as [n|] eqn:Hn; [|done].
  destruct (gostep cfg true w (graph s) (canceled s) n c p) as [e|] eqn:He; [|done].
  intros [= <-]. split; [by eapply thread_sound|by eapply thread_work].
Qed.

(** ** Moves of the main loop and of signal calls *)

(** A move that keeps the goroutines, starts no node and resets none. *)
Lemma sound_frame s s' :
  sound strs L g0 s -> inv g0 s' -> quiet s' -> mild (graph s) (graph s') -> no_start (graph s) (graph s') ->
  threads s' = threads s -> (canceled s = true -> canceled s' = true) ->
  (canceled s' = false -> forall id, held (main s') = Some id -> not_started (graph s') id) ->
  match main s' with MFinished todo => todo ⊆ nodes (graph s') | _ => True end ->
  sound strs L g0 s'.
Proof.
  intros Hs Hinv Hq [Hnodes Hm] [_ Hstart] Et Hc Hheld Htodo.
  assert (canceled s' = false -> canceled s = false) as Hc' by (destruct (canceled s); [|done]; by rewrite Hc).
  split; [done|done|..|exact Hheld| |exact Htodo].
  - intros id n' Hn'. destruct (Hm id n' Hn') as (n & Hn & Hsame & _).
    eapply within_same; [exact Hsame|by eapply so_within].
  - intros t n' Hin Hr Hn'. destruct (Hm _ n' Hn') as (n & Hn & Hsame & _). rewrite (sr_count _ _ Hsame).
    eapply so_retrying; [done|by rewrite <- Et|done|done].
  - intros Hf u Hu. rewrite Et. apply (so_running _ _ _ _ Hs); auto.
Qed.

Lemma work_frame s s' :
  mild (graph s) (graph s') -> threads s' = threads s -> (flag_credit s' <= flag_credit s)%Z ->
  (work L s' <= work L s)%Z.
Proof. intros Hm Et Hf. unfold work. rewrite Et. pose proof (mild_credit L _ _ Hm). lia. Qed.

Lemma status_mild g g' id : mild g g' -> is_Some (node g' id) -> not_started g' id -> not_started g id.
Proof.
  intros [_ Hm] [n' Hn'] Hst. destruct (Hm id n' Hn') as (n & Hn & _ & H).
  unfold not_started, status_of in *. rewrite Hn. apply H. by rewrite Hn' in Hst.
Qed.

Lemma sig_step_sound i s s' :
  sound strs L g0 s -> sig_step i s = Some s' -> sound strs L g0 s' /\ (work L s' <= work L s)%Z.
Proof.
  intros Hs Hstep. pose proof (so_quiet _ _ _ _ Hs) as Hq.
  pose proof (sig_step_inv g0 i s s' (so_inv _ _ _ _ Hs) Hstep) as Hinv'.
  pose proof (sig_step_quiet i s s' Hq Hstep) as Hq'.
  pose proof (sig_step_no_start i s s' Hstep) as [Hns Hm].
  unfold sig_step in Hstep. destruct (sigs s !! i) as [p|] eqn:Hi; [|done].
  assert (canceled s = false -> starting p = true) as Hp.
  { intros Hc. pose proof (quiet_sigs _ Hq Hc) as Hf. rewrite Forall_forall in Hf. apply Hf.
    by eapply list_elem_of_lookup_2. }
  destruct (sigstep (graph s) p) as [[flag mark] next] eqn:Ep.
  assert (mild (graph s) (graph s')) as Hmild.
  { injection Hstep as <-. destruct flag, mark; simpl; first [apply mild_refl|by apply mild_status]. }
  assert (threads s' = threads s) as Et by (injection Hstep as <-; by destruct flag, mark).
  assert (canceled s' = true) as Hc'.
  { injection Hstep as <-. destruct (canceled s) eqn:Hc; [by destruct flag, mark|].
    specialize (Hp eq_refl). destruct p; try done; simpl in Ep; simplify_eq; done. }
  split.
  - apply (sound_frame s); try done; [by rewrite Hc'|]. rewrite Hm.
    destruct (main s) eqn:E; try done. rewrite (proj1 Hmild). pose proof (so_todo _ _ _ _ Hs) as Ht. by rewrite E in Ht.
  - apply work_frame; [done..|]. unfold flag_credit. rewrite Hc', Hm.
    destruct (canceled s); [done|]. destruct (committed (main s)); unfold launch_cost; lia.
Qed.

(** What the main loop holds has not started, unless the run is cancelled. *)
Lemma main_held w s s' id :
  sound strs L g0 s -> mstep cfg true ctx0 w s = Some s' -> canceled s' = false ->
  held (main s') = Some id -> not_started (graph s') id.
Proof.
  intros Hs Hstep Hc. assert (canceled s = false -> forall id, held (main s) = Some id -> not_started (graph s) id) as Hh
    by apply (so_held _ _ _ _ Hs).
  unfold mstep in Hstep. destruct (main s) eqn:Hm; simpl in Hh.
  - repeat case_match; by simplify_eq/=.
  - simplify_eq/=. by destruct (canceled s).
  - destruct rest as [|x rest]; simplify_eq/=; [done|]. case_bool_decide; [|done]. by intros [= <-].
  - destruct deps as [|dep deps]; [by simplify_eq/=; destruct ready; auto|].
    destruct (dep_action (status_of (graph s) dep)) as [[[] b]|]; simplify_eq/=; [by destruct ready; auto|done|].
    destruct ready; simpl; [|done]. case_bool_decide; [by auto|done].
  - destruct (node (graph s) dep) as [d|] eqn:Hd; [|done].
    pose proof (keeps_w_shouldContinue w d) as [Hk _]. destruct (w_shouldContinue w d) as [cont d'].
    simplify_eq/=. destruct cont; [|done]. intros Hid. destruct ready; [|done].
    unfold not_started. rewrite status_of_on_node, Hd. case_decide; [subst|by apply Hh].
    rewrite Hk. specialize (Hh Hc _ Hid). unfold not_started, status_of in Hh. by rewrite Hd in Hh.
  - simplify_eq/=. by destruct (block_error b).
  - by simplify_eq/=.
  - simplify_eq/=. destruct (canceled s); [done|]. destruct (0 <? MaxActiveRuns cfg)%Z; auto.
  - destruct todo; simplify_eq/=; [destruct (MaxActiveRuns cfg <=? count)%Z; [done|]|]; auto.
  - by simplify_eq/=.
  - destruct (existsb counted (threads s)); by simplify_eq/=.
  - by simplify_eq/=.
  - destruct hs as [|h hs]; [by simplify_eq/=|]. destruct (HandlerNode s h); [|by simplify_eq/=].
    destruct (runHandlerNode _ _ _ _ _). by simplify_eq/=.
  - done.
Qed.

(** The fields a move of the main loop leaves alone, unless it launches. *)
Lemma main_frame w s s' :
  mstep cfg true ctx0 w s = Some s' -> (forall id rest, main s <> MLaunch id rest) ->
  threads s' = threads s /\ canceled s' = canceled s /\ (flag_credit s' <= flag_credit s)%Z.
Proof.
  intros H Hl. assert (threads s' = threads s /\ canceled s' = canceled s) as [Et Ec].
  { unfold mstep in H. destruct (main s) eqn:Hm; repeat case_match; simplify_eq/=; try done. by destruct (Hl id rest). }
  split_and!; [done..|]. unfold flag_credit. rewrite Ec. destruct (canceled s) eqn:Hc; [|done].
  pose proof (ns_committed _ _ (main_inert cfg true ctx0 w s s' Hc H)) as Hin.
  destruct (committed (main s')) as [|x l]; [by destruct (committed (main s))|].
  destruct (committed (main s)); [|done]. specialize (Hin x ltac:(by left)). by apply elem_of_nil in Hin.
Qed.

Lemma main_todo w s s' :
  sound strs L g0 s -> mstep cfg true ctx0 w s = Some s' ->
  match main s' with MFinished todo => todo ⊆ nodes (graph s') | _ => True end.
Proof.
  intros Hs H. pose proof (so_todo _ _ _ _ Hs) as Ht. unfold mstep in H.
  destruct (main s) eqn:Hm; repeat case_match; simplify_eq/=; try done; set_solver.
Qed.

(** The launch: paid by the node that had not started, or, in a cancelled run,
    by the main loop that had passed its check. *)
Definition launched (s : state) (id : Z) (rest : list Z) : state :=
  set_main (set_threads (set_graph s (set_status_of id NodeStatusRunning (graph s)))
              (threads s ++ [(id, (ctx0, PSetupContext))])) (MIter rest).

Section launch.
Context (s : state) (id : Z) (rest : list Z) (Hs : sound strs L g0 s) (Hm : main s = MLaunch id rest).

Lemma launch_node : id ∈ nodes (graph s) /\ exists n, node (graph s) id = Some n.
Proof.
  pose proof (inv_main _ _ (so_inv _ _ _ _ Hs)) as Hok. unfold main_ok in Hok. rewrite Hm in Hok.
  destruct Hok as (_ & [Hid _] & _). split; [done|].
  by apply (good_nodes _ (inv_good g0 Hgood s (so_inv _ _ _ _ Hs))).
Qed.

Lemma launch_work : (work L (launched s id rest) < work L s)%Z.
Proof.
  destruct launch_node as [Hid [n Hn]]. unfold work.
  change (nodes (graph (launched s id rest))) with (nodes (graph s)).
  change (threads (launched s id rest)) with (threads s ++ [(id, (ctx0, PSetupContext))]).
  rewrite zsum_app. set (g' := graph (launched s id rest)).
  rewrite (zsum_one (id_credit L (graph s)) (id_credit L g') (nodes (graph s)) id); [| |done|].
  2:{ by rewrite (sg_nodes _ _ (inv_graph _ _ (so_inv _ _ _ _ Hs))). }
  2:{ intros x Hx. unfold id_credit, g'. simpl. unfold set_status_of. rewrite node_on_node. by rewrite decide_False. }
  assert (id_credit L g' id = node_credit L (node_SetStatus NodeStatusRunning n)) as ->.
  { unfold id_credit, g'. simpl. unfold set_status_of. rewrite node_on_node, decide_True by done. by rewrite Hn. }
  assert (id_credit L (graph s) id = node_credit L n) as -> by (unfold id_credit; by rewrite Hn).
  unfold node_credit, flag_credit, status_credit, launch_cost, thread_rank. rewrite Hm. simpl.
  change (retry_count (node_SetStatus NodeStatusRunning n)) with (retry_count n).
  change (canceled (launched s id rest)) with (canceled s).
  destruct (canceled s) eqn:Hc; [case_bool_decide; lia|].
  rewrite bool_decide_true; [lia|]. pose proof (so_held _ _ _ _ Hs Hc id) as Hh. rewrite Hm in Hh.
  specialize (Hh eq_refl). unfold not_started, status_of in Hh. by rewrite Hn in Hh.
Qed.

Lemma launch_sound w : mstep cfg true ctx0 w s = Some (launched s id rest) -> sound strs L g0 (launched s id rest).
Proof.
  intros Hstep. pose proof (mild_main _ _ _ _ _ _ Hstep) as [_ Hmild].
  destruct launch_node as [Hid [n Hn]]. split.
  - eapply mstep_inv; [exact Hgood|apply Hs|exact Hstep].
  - eapply mstep_quiet; [exact Hgood|apply Hs|apply Hs|exact Hstep].
  - intros x n' Hx. destruct (Hmild x n' Hx) as (n0 & Hn0 & Hsame & _).
    eapply within_same; [exact Hsame|by eapply so_within].
  - intros t n' [Hin|Hin]%elem_of_app Hr Hx; [|apply list_elem_of_singleton in Hin as ->; done].
    destruct (Hmild _ n' Hx) as (n0 & Hn0 & Hsame & _). rewrite (sr_count _ _ Hsame). by eapply so_retrying.
  - done.
  - intros Hc u. unfold is_running. simpl. rewrite (status_of_set_status id _ _ u n Hn). case_decide as Hu.
    + intros _. exists (id, (ctx0, PSetupContext)). split_and!; [|done|done]. set_solver.
    + intros Hr. destruct (so_running _ _ _ _ Hs Hc u Hr) as (t & ? & ?). exists t. set_solver.
  - done.
Qed.

End launch.

Lemma main_step_sound w s s' :
  sound strs L g0 s -> mstep cfg true ctx0 w s = Some s' ->
  sound strs L g0 s' /\ (work L s' <= work L s)%Z /\ (forall id rest, main s = MLaunch id rest -> (work L s' < work L s)%Z).
Proof.
  intros Hs Hstep. assert ((exists id rest, main s = MLaunch id rest) \/ forall id rest, main s <> MLaunch id rest) as [(id & rest & Hm)|Hl].
  { destruct (main s); eauto; by right. }
  - assert (s' = launched s id rest) as ->.
    { unfold mstep in Hstep. rewrite Hm in Hstep. by simplify_eq. }
    pose proof (launch_work s id rest Hs Hm). split_and!; [by eapply launch_sound|lia|done].
  - destruct (main_frame w s s' Hstep Hl) as (Et & Ec & Hf). pose proof (mild_main _ _ _ _ _ _ Hstep) as Hmild.
    split_and!; [|by apply work_frame|by intros id rest ?%Hl].
    apply (sound_frame s); try done.
    + eapply mstep_inv; [exact Hgood|apply Hs|exact Hstep].
    + eapply mstep_quiet; [exact Hgood|apply Hs|apply Hs|exact Hstep].
    + destruct (mstep_no_start cfg ctx0 true w s s' Hstep) as [?|(id & rest & Hm)]; [done|by destruct (Hl id rest)].
    + by rewrite Ec.
    + intros Hc id. by eapply main_held.
    + by eapply main_todo.
Qed.

(** A call of [Signal] or [Cancel] begins. *)
Lemma call_sound s s' :
  sound strs L g0 s -> step cfg true ctx0 s s' -> graph s' = graph s -> threads s' = threads s ->
  canceled s' = canceled s -> main s' = main s ->
  sound strs L g0 s' /\ (canceled s = true \/ no_repeats g0 -> (work L s' + 0 <= work L s)%Z).
Proof.
  intros Hs Hstep Eg Et Ec Em. split.
  - apply (sound_frame s); rewrite ?Eg, ?Et, ?Ec, ?Em; try done.
    + by eapply step_inv; [|apply Hs|].
    + by eapply step_quiet; [|apply Hs|apply Hs|].
    + apply mild_refl.
    + by apply (so_held _ _ _ _ Hs).
    + by apply (so_todo _ _ _ _ Hs).
  - unfold work, flag_credit. rewrite Eg, Et, Ec, Em. lia.
Qed.

(** Every move keeps what holds; a goroutine's lowers the work left, the others'
    do not raise it. *)
Lemma act_sound w a s s' :
  limits_under strs L w -> sound strs L g0 s -> act cfg true ctx0 w a s = Some s' ->
  sound strs L g0 s' /\ (canceled s = true \/ no_repeats g0 ->
    (work L s' + (match a with AThread _ => 1 | _ => 0 end) <= work L s)%Z).
Proof.
  intros Hw Hs. destruct a; simpl; intros H.
  - destruct (main_step_sound w s s' Hs H) as (? & ? & _). split; [done|lia].
  - destruct (thread_step_sound w i s s' Hw Hs H) as [? Hl]. split; [done|]. intros He. specialize (Hl He). lia.
  - destruct (sig_step_sound i s s' Hs H). split; [done|lia].
  - apply (call_sound s); [done|by exists w, (ACallSignal sig allowOverride)|by simplify_eq..].
  - apply (call_sound s); [done|by exists w, ACallCancel|by simplify_eq..].
Qed.

End ends.

(** ** Bounded work *)

(** The goroutine moves of a schedule. *)
Definition goroutine_moves (l : list (world * action)) : Z :=
  zsum (fun m => match snd m with AThread _ => 1 | _ => 0 end)%Z l.

(** A graph [Schedule] may be called on: what [inv] needs, no running node, and
    retries within [L]. *)
Record startable (strs : list string) (L : Z) (g : ExecutionGraph) : Prop := mk_startable {
  st_good : good_graph g;
  st_nodup : NoDup (nodes g);
  st_within : forall id n, node g id = Some n -> within strs L n;
  st_idle : forall id, status_of g id <> NodeStatusRunning
}.

Lemma Schedule_sound cfg w canceled lastError strs L g s :
  startable strs L g -> Schedule cfg w canceled lastError g = Ok s -> sound strs L g s.
Proof.
  intros Hg Hs. pose proof (Schedule_inv _ _ _ _ _ _ Hs) as Hinv. pose proof (Schedule_quiet _ _ _ _ _ _ Hs) as Hq.
  unfold Schedule in Hs. destruct (setup_error cfg w); [done|]. injection Hs as <-.
  split; try done; simpl.
  - apply (st_within _ _ _ Hg).
  - by intros t n Ht%elem_of_nil.
  - intros _ u Hu. by destruct (st_idle _ _ _ Hg u).
  - apply reflexivity.
Qed.

Lemma run_sound cfg ctx0 strs L g0 l : forall s s',
  startable strs L g0 -> (0 <= L < 2 ^ 63)%Z -> Forall (fun m => limits_under strs L (fst m)) l ->
  sound strs L g0 s -> run cfg true ctx0 s l = Some s' ->
  sound strs L g0 s' /\ (canceled s = true \/ no_repeats g0 -> (work L s' + goroutine_moves l <= work L s)%Z).
Proof.
  induction l as [|[w a] l IH]; intros s s' Hg HL Hw Hs Hrun; simpl in Hrun.
  { simplify_eq. split; [done|]. unfold goroutine_moves. simpl. lia. }
  apply Forall_cons in Hw as [Hw Hl]. destruct (act cfg true ctx0 w a s) as [s1|] eqn:Ha; [|done].
  destruct (act_sound cfg ctx0 strs L g0 (st_good _ _ _ Hg) (st_nodup _ _ _ Hg) HL w a s s1 Hw Hs Ha) as [Hs1 Hle].
  destruct (IH s1 s' Hg HL Hl Hs1 Hrun) as [Hs' Hle']. split; [done|]. intros Hends.
  assert (canceled s1 = true \/ no_repeats g0) as Hends1.
  { destruct Hends as [Hc|]; [left|by right]. by eapply canceled_step. }
  specialize (Hle Hends). specialize (Hle' Hends1). unfold goroutine_moves in *. simpl. lia.
Qed.

Lemma zsum_bound {A} (f : A -> Z) l k :
  (forall x, x ∈ l -> (f x <= k)%Z) -> (zsum f l <= k * Z.of_nat (length l))%Z.
Proof.
  induction l as [|x l IH]; simpl; intros H; [lia|].
  pose proof (H x ltac:(by left)). pose proof (IH (fun y Hy => H y ltac:(by right))). lia.
Qed.

(** The work left in any state, in closed form. *)
Lemma work_bound strs L g0 s :
  (0 <= L)%Z -> sound strs L g0 s ->
  (work L s <= 28 * (L + 1) * Z.of_nat (length (nodes (graph s))) + 43 * Z.of_nat (length (threads s)) + 28)%Z.
Proof.
  intros HL Hs. unfold work.
  assert (zsum (id_credit L (graph s)) (nodes (graph s)) <= 28 * (L + 1) * Z.of_nat (length (nodes (graph s))))%Z.
  { apply zsum_bound. intros x _. unfold id_credit. destruct (node (graph s) x) as [n|] eqn:Hn; [|lia].
    pose proof (wi_count _ _ _ (so_within _ _ _ _ Hs x n Hn)). unfold node_credit, status_credit, launch_cost.
    case_bool_decide; lia. }
  assert (zsum thread_rank (threads s) <= 43 * Z.of_nat (length (threads s)))%Z.
  { apply zsum_bound. intros [u [c p]] _. unfold thread_rank. simpl.
    by destruct p as [| | | | | |[]| | | | | | | | | | | | | | | | | | | | | | | | | | | |]. }
  unfold flag_credit, launch_cost. destruct (canceled s); [destruct (committed (main s))|]; lia.
Qed.

(** ** No goroutine is stuck *)

(** The dependencies the queue loop of [setupContext] may still add. *)
Definition unvisited (g : ExecutionGraph) (visited : gset Z) (l : list Z) : nat :=
  sum_list_with (fun id => if decide (id ∈ visited) then 0 else length (adj (to_ g) id)) l.

Lemma unvisited_mono g v v' l : v ⊆ v' -> unvisited g v' l <= unvisited g v l.
Proof.
  intros Hv. induction l as [|x l IH]; simpl; [done|]. unfold unvisited in *. simpl.
  repeat case_decide; try lia. set_solver.
Qed.

Lemma unvisited_visit g v l x : x ∈ l -> x ∉ v ->
  unvisited g ({[x]} ∪ v) l + length (adj (to_ g) x) <= unvisited g v l.
Proof.
  intros Hx Hv. induction l as [|y l IH]; [by apply elem_of_nil in Hx|].
  pose proof (unvisited_mono g v ({[x]} ∪ v) l ltac:(set_solver)) as Hm. unfold unvisited in *. simpl.
  apply elem_of_cons in Hx as [->|Hx].
  - rewrite decide_True by set_solver. rewrite decide_False by done. lia.
  - specialize (IH Hx). repeat case_decide; try lia. set_solver.
Qed.

Lemma unvisited_empty g l : unvisited g ∅ l = sum_list_with (fun id => length (adj (to_ g) id)) l.
Proof.
  unfold unvisited. induction l as [|x l IH]; [done|]. simpl. rewrite IH, decide_False by set_solver. done.
Qed.

(** The fuel is enough: a node adds its dependencies when it is first visited. *)
Lemma upstream_loop_total w g : closed_graph g -> forall fuel visited queue sc,
  queue ⊆ nodes g -> length queue + unvisited g visited (nodes g) <= fuel ->
  is_Some (upstream_loop w g fuel visited queue sc).
Proof.
  intros Hg. induction fuel as [|k IH]; intros visited [|x queue] sc Hq Hf; simpl in *; try (by eexists); [lia|].
  case_decide as Hx; [apply IH; [set_solver|lia]|].
  pose proof (unvisited_visit g visited (nodes g) x ltac:(set_solver) Hx) as Hv. apply IH.
  - intros y Hy. apply elem_of_app in Hy as [Hy|Hy]; [set_solver|]. by eapply closed_deps.
  - rewrite length_app. lia.
Qed.

Lemma setupContext_total w c g n : closed_graph g -> n_id n ∈ nodes g -> is_Some (setupContext w c g n).
Proof.
  intros Hg Hn. unfold setupContext.
  destruct (upstream_loop_total w g Hg (upstream_fuel g) ∅ [n_id n]
    (NewStepContext c (SafeData.GetStep (n_data n)))) as [sc ->]; [set_solver| |by eexists].
  unfold upstream_fuel. rewrite unvisited_empty. simpl. lia.
Qed.

Lemma gostep_total cfg hd w g canceled n c p :
  closed_graph g -> n_id n ∈ nodes g -> is_Some (gostep cfg hd w g canceled n c p).
Proof.
  intros Hg Hn. destruct p; simpl; unfold goto, goto_last, goto_send;
    try (destruct (setupContext_total w c g n Hg Hn) as [? ->]);
    repeat case_match; by eexists.
Qed.

(** What the constructors give every graph: the nodes under their identifiers. *)
Definition keyed (g : ExecutionGraph) : Prop := forall id n, node g id = Some n -> n_id n = id.

Lemma keyed_same g g0 : same_graph g g0 -> keyed g -> keyed g0.
Proof.
  intros Hs Hk id n0 Hn0. destruct (same_graph_back g g0 id n0 Hs Hn0) as (n & Hn & [Hid _ _ _ _]).
  rewrite Hid. by apply Hk.
Qed.

Section progress.
Context (cfg : Config) (ctx0 : ctx) (strs : list string) (L : Z) (g0 : ExecutionGraph).
Context (Hg : startable strs L g0) (HL : (0 <= L < 2 ^ 63)%Z) (Hclosed : closed_graph g0) (Hkeyed : keyed g0).
Context (w : world) (Hw : limits_under strs L w).

Lemma closed_now s : sound strs L g0 s -> closed_graph (graph s).
Proof. intros Hs. eapply closed_same_graph, Hclosed. apply (inv_graph _ _ (so_inv _ _ _ _ Hs)). Qed.

Lemma keyed_now s id n : sound strs L g0 s -> node (graph s) id = Some n -> n_id n = id.
Proof.
  intros Hs Hn. exact (keyed_same _ _ (inv_graph _ _ (so_inv _ _ _ _ Hs)) Hkeyed id n Hn).
Qed.

(** The steps of the main loop keep what holds. *)
Lemma main_runs_work s s' : sound strs L g0 s -> rtc (main_step cfg true ctx0 w) s s' -> (work L s' <= work L s)%Z.
Proof.
  intros Hs Hr. revert Hs. induction Hr as [|s1 s2 s3 H1 Hr IH]; intros Hs; [lia|].
  destruct (main_step_sound cfg ctx0 strs L g0 (st_good _ _ _ Hg) (st_nodup _ _ _ Hg) HL w s1 s2 Hs H1) as (Hs2 & ? & _).
  specialize (IH Hs2). lia.
Qed.

(** A goroutine can always move, and so the work left falls. *)
Lemma thread_progress s :
  sound strs L g0 s -> canceled s = true \/ no_repeats g0 -> threads s <> [] ->
  exists s', act cfg true ctx0 w (AThread 0) s = Some s' /\ sound strs L g0 s' /\ (work L s' < work L s)%Z.
Proof.
  intros Hs Hends Ht. destruct (threads s) as [|[u [c p]] ts] eqn:E; [done|].
  assert (u ∈ nodes (graph s)) as Hu.
  { apply (quiet_ids _ (so_quiet _ _ _ _ Hs) (u, (c, p))). rewrite E. by left. }
  destruct (closed_nodes _ (closed_now s Hs) u Hu) as [n Hn].
  destruct (gostep_total cfg true w (graph s) (canceled s) n c p (closed_now s Hs)) as [e He].
  { by rewrite (keyed_now s u n Hs Hn). }
  assert (thread_step cfg true w 0 s = Some (apply_effect 0 u e s)) as Hstep.
  { unfold thread_step. rewrite E. simpl. by rewrite Hn, He. }
  exists (apply_effect 0 u e s). split; [done|].
  destruct (thread_step_sound cfg strs L g0 (st_good _ _ _ Hg) (st_nodup _ _ _ Hg) HL w 0 s _ Hw Hs Hstep); auto.
Qed.

(** ** The main loop alone *)

(** The steps of the main loop to the end of its pass, at most. *)
Definition pass_cost (g : ExecutionGraph) (rest : list Z) : nat :=
  sum_list_with (fun id => 4 * length (adj (to_ g) id) + length (nodes g) + 6) rest.

Definition distance (s : state) : nat :=
  let n := length (nodes (graph s)) in
  let left rest k := n + 3 + pass_cost (graph s) rest + k in
  match main s with
  | MWait | MStatus | MHandlers _ | MReturn _ => 0
  | MCancelChk => 1
  | MFinished todo => length todo + 2
  | MIter rest => left rest 0
  | MReady _ deps _ rest => left rest (4 * length deps + n + 5)
  | MContinue _ _ _ deps _ rest => left rest (4 * length deps + n + 8)
  | MBlock _ _ deps rest => left rest (4 * length deps + n + 7)
  | MBlockErr _ _ deps rest => left rest (4 * length deps + n + 6)
  | MCancelChk2 _ rest => left rest (n + 4)
  | MCount _ todo _ rest => left rest (length todo + 2)
  | MLaunch _ rest => left rest 1
  end.

(** The loop is over. *)
Definition loop_over (m : mpc) : bool :=
  match m with MWait | MStatus | MHandlers _ | MReturn _ => true | _ => false end.

(** The main loop moves on towards the end of its pass, or launches. *)
Definition main_progress (s s' : state) : Prop :=
  (work L s' < work L s)%Z \/
  (distance s' < distance s /\ threads s' = threads s /\ canceled s' = canceled s).

Lemma continue_node s id dep b deps ready rest :
  sound strs L g0 s -> main s = MContinue id dep b deps ready rest -> is_Some (node (graph s) dep).
Proof.
  intros Hs Hm. pose proof (inv_main _ _ (so_inv _ _ _ _ Hs)) as Hok. unfold main_ok in Hok. rewrite Hm in Hok.
  destruct Hok as (_ & _ & _ & Hscan). apply (scanned_dep g0 (st_good _ _ _ Hg)) in Hscan.
  pose proof (closed_now s Hs) as Hc. exact (closed_nodes _ Hc dep (closed_deps _ Hc id dep Hscan)).
Qed.

Lemma main_enabled s :
  sound strs L g0 s -> loop_over (main s) = false -> is_Some (mstep cfg true ctx0 w s).
Proof.
  intros Hs Hm. unfold mstep. destruct (main s) as [[]| |[]|? []|? ? ? ? ? ?| | | |? []| | | | |] eqn:E;
    try done; try (repeat case_match; by eexists).
  destruct (continue_node s _ _ _ _ _ _ Hs E) as [d ->]. destruct (w_shouldContinue w d). by eexists.
Qed.

Lemma main_moves s s' :
  sound strs L g0 s -> mstep cfg true ctx0 w s = Some s' -> loop_over (main s) = false ->
  main s <> MCancelChk -> main_progress s s'.
Proof.
  intros Hs Hstep Hover Hchk.
  destruct (main_step_sound cfg ctx0 strs L g0 (st_good _ _ _ Hg) (st_nodup _ _ _ Hg) HL w s s' Hs Hstep) as (_ & _ & Hl).
  assert ((exists id rest, main s = MLaunch id rest) \/ forall id rest, main s <> MLaunch id rest) as [(id & rest & Hm)|Hnl].
  { destruct (main s); eauto; by right. }
  { left. by eapply Hl. }
  right. destruct (main_frame cfg ctx0 w s s' Hstep Hnl) as (Et & Ec & _). split; [|done].
  unfold mstep in Hstep. unfold distance. destruct (main s) eqn:Hm; try done;
    repeat case_match; simplify_eq; simpl in *; unfold pass_cost in *; simpl in *; simplify_eq; simpl in *; try lia;
    by destruct (Hnl id rest).
Qed.

Abbreviation main_runs := (rtc (main_step cfg true ctx0 w)).

Lemma mild_trans g1 g2 g3 : mild g1 g2 -> mild g2 g3 -> mild g1 g3.
Proof.
  intros [E1 H1] [E2 H2]. split; [congruence|]. intros id n3 Hn3.
  destruct (H2 id n3 Hn3) as (n2 & Hn2 & Hs2 & Hst2). destruct (H1 id n2 Hn2) as (n1 & Hn1 & Hs1 & Hst1).
  exists n1. split_and!; [done|by etrans|auto].
Qed.

(** While no goroutine is left, nothing runs. *)
Lemma none_running s u :
  sound strs L g0 s -> canceled s = false -> threads s = [] -> status_of (graph s) u <> NodeStatusRunning.
Proof.
  intros Hs Hc Ht Hu. destruct (so_running _ _ _ _ Hs Hc u Hu) as (t & Hin & _). rewrite Ht in Hin.
  by apply elem_of_nil in Hin.
Qed.

(** The main loop only comes back to the check of the flag from a node that has
    not finished. *)
Lemma check_reached s s' :
  sound strs L g0 s -> mstep cfg true ctx0 w s = Some s' -> main s <> MCancelChk -> main s' = MCancelChk ->
  threads s = [] -> canceled s = false ->
  exists id, id ∈ nodes (graph s') /\ not_started (graph s') id.
Proof.
  intros Hs Hstep Hm Hm' Ht Hc. pose proof (so_todo _ _ _ _ Hs) as Htodo. unfold mstep in Hstep.
  destruct (main s) as [[|id todo]| | | | | | | | | | | | |] eqn:E; try done;
    try (repeat case_match; by simplify_eq/=).
  exists id. pose proof (none_running s id Hs Hc Ht) as Hr.
  destruct (status_of (graph s) id) eqn:Hst; simplify_eq/=; try done; (split; [set_solver|exact Hst]).
Qed.

(** Where the main loop alone gets to from anywhere else: a launch or a settled
    node, the end of the loop, or the check of the flag with a node left. *)
Definition pass_end (s s' : state) : Prop :=
  (work L s' < work L s)%Z \/
  (threads s' = [] /\ canceled s' = canceled s /\ mild (graph s) (graph s') /\
   (loop_over (main s') = true \/
    (main s' = MCancelChk /\ (canceled s' = false -> exists id, id ∈ nodes (graph s') /\ not_started (graph s') id)))).

Lemma main_descends k : forall s,
  distance s < k -> sound strs L g0 s -> threads s = [] -> main s <> MCancelChk ->
  exists s', main_runs s s' /\ sound strs L g0 s' /\ pass_end s s'.
Proof.
  induction k as [|k IH]; intros s Hk Hs Ht Hm; [lia|].
  destruct (loop_over (main s)) eqn:Hover.
  { exists s. split; [apply rtc_refl|]. split; [done|]. right. split_and!; [done|done|apply mild_refl|by left]. }
  destruct (main_enabled s Hs Hover) as [s1 Hstep].
  destruct (main_step_sound cfg ctx0 strs L g0 (st_good _ _ _ Hg) (st_nodup _ _ _ Hg) HL w s s1 Hs Hstep) as (Hs1 & Hle & _).
  destruct (main_moves s s1 Hs Hstep Hover Hm) as [Hlt|(Hd & Et & Ec)].
  { exists s1. split; [by apply rtc_once|]. split; [done|by left]. }
  rewrite Ht in Et. pose proof (mild_main _ _ _ _ _ _ Hstep) as Hmild.
  assert (main s1 = MCancelChk \/ main s1 <> MCancelChk) as [Hm1|Hm1] by (destruct (main s1); auto).
  - exists s1. split; [by apply rtc_once|]. split; [done|]. right. split_and!; [done|done|done|right].
    split; [done|]. rewrite Ec. by apply (check_reached s).
  - destruct (IH s1 ltac:(lia) Hs1 Et Hm1) as (s' & Hr & Hs' & Hend). exists s'.
    split; [by eapply rtc_l|]. split; [done|]. destruct Hend as [Hlt|(? & ? & ? & Hend)]; [left; lia|].
    right. split_and!; [done|congruence|by eapply mild_trans|done].
Qed.

(** ** A pass towards a node that can start *)

(** [v] has not started and its dependencies have. *)
Definition source (s : state) (v : Z) : Prop :=
  v ∈ nodes (graph s) /\ not_started (graph s) v /\
  forall dep, dep ∈ adj (to_ (graph s)) v -> ~ not_started (graph s) dep.

(** The pass has not gone past [v]. *)
Definition aims (v : Z) (s : state) : Prop :=
  match main s with
  | MIter rest | MBlockErr _ _ _ rest => v ∈ rest
  | MReady id _ ready rest | MContinue id _ _ _ ready rest => v ∈ rest \/ (id = v /\ ready = true)
  | MBlock id _ _ rest | MCancelChk2 id rest | MLaunch id rest => v ∈ rest \/ id = v
  | MCount id _ count rest => (v ∈ rest \/ id = v) /\ count = 0%Z /\ (0 < MaxActiveRuns cfg)%Z
  | _ => False
  end.

(** Settling a node that had not started lowers the work left. *)
Lemma block_work s id b deps rest s' :
  sound strs L g0 s -> main s = MBlock id b deps rest -> mstep cfg true ctx0 w s = Some s' ->
  id ∈ nodes (graph s) -> not_started (graph s) id -> (work L s' < work L s)%Z.
Proof.
  intros Hs Hm Hstep Hid Hnone. assert (forall x y, main s <> MLaunch x y) as Hnl by (rewrite Hm; done).
  destruct (main_frame cfg ctx0 w s s' Hstep Hnl) as (Et & Ec & Hf).
  unfold mstep in Hstep. rewrite Hm in Hstep.
  destruct (closed_nodes _ (closed_now s Hs) id Hid) as [n Hn].
  assert (graph s' = set_status_of id (block_status b) (graph s)) as Eg by (by simplify_eq).
  unfold work. rewrite Et, Eg. change (nodes (set_status_of id (block_status b) (graph s))) with (nodes (graph s)).
  set (g' := set_status_of id (block_status b) (graph s)).
  rewrite (zsum_one (id_credit L (graph s)) (id_credit L g') (nodes (graph s)) id); [| |done|].
  2:{ rewrite (sg_nodes _ _ (inv_graph _ _ (so_inv _ _ _ _ Hs))). apply Hg. }
  2:{ intros x Hx. unfold id_credit, g', set_status_of. rewrite node_on_node. by rewrite decide_False. }
  assert (id_credit L g' id = node_credit L (node_SetStatus (block_status b) n)) as ->.
  { unfold id_credit, g', set_status_of. rewrite node_on_node, decide_True by done. by rewrite Hn. }
  assert (id_credit L (graph s) id = node_credit L n) as -> by (unfold id_credit; by rewrite Hn).
  unfold node_credit, status_credit, launch_cost.
  change (retry_count (node_SetStatus (block_status b) n)) with (retry_count n).
  change (node_Status (node_SetStatus (block_status b) n)) with (block_status b).
  rewrite (bool_decide_false (block_status b = NodeStatusNone)) by (by destruct b).
  unfold not_started, status_of in Hnone. rewrite Hn in Hnone. rewrite bool_decide_true by done. lia.
Qed.

Section aim.
Context (s s' : state) (v : Z).
Context (Hs : sound strs L g0 s) (Hc : canceled s = false) (Ht : threads s = []) (Hv : source s v).
Context (Haim : aims v s) (Hstep : mstep cfg true ctx0 w s = Some s').

(** The dependencies of [v] let it go on or settle it. *)
Lemma aim_ready id dep deps ready rest :
  main s = MReady id (dep :: deps) ready rest -> aims v s'.
Proof.
  intros Hm. unfold mstep in Hstep. unfold aims in Haim. rewrite Hm in Hstep, Haim.
  destruct (dep_action (status_of (graph s) dep)) as [[[] b]|] eqn:Ha; simplify_eq; unfold aims; simpl;
    [done|by destruct Haim as [?|[? _]]; [left|right]|].
  destruct Haim as [?|[-> ->]]; [by left|right]. split; [done|]. simpl. apply bool_decide_eq_true.
  pose proof (inv_main _ _ (so_inv _ _ _ _ Hs)) as Hok. unfold main_ok in Hok. rewrite Hm in Hok.
  destruct Hok as (_ & _ & Hscan). apply (scanned_dep g0 (st_good _ _ _ Hg)) in Hscan.
  pose proof (none_running s dep Hs Hc Ht) as Hr. destruct Hv as (_ & _ & Hd). specialize (Hd dep Hscan).
  unfold not_started in Hd. by destruct (status_of (graph s) dep).
Qed.

Lemma aim_kept : (work L s' < work L s)%Z \/ (aims v s' /\ not_started (graph s') v).
Proof.
  destruct Hv as (Hvn & Hnone & _).
  destruct (main_step_sound cfg ctx0 strs L g0 (st_good _ _ _ Hg) (st_nodup _ _ _ Hg) HL w s s' Hs Hstep) as (_ & _ & Hlaunch).
  pose proof Hstep as Hstep'. unfold mstep in Hstep'. pose proof Haim as Haim'. unfold aims in Haim'.
  destruct (main s) as [| |[|x rest]|id [|dep deps] ready rest|id dep b deps ready rest|id b deps rest
    |id e deps rest|id rest|id [|x todo] count rest|id rest| | | |] eqn:Hm; try done.
  - by apply elem_of_nil in Haim'.
  - right. simplify_eq. split; [|done]. apply elem_of_cons in Haim'. unfold aims. simpl.
    case_bool_decide as Hx; simpl; [destruct Haim' as [->|?]; auto|].
    destruct Haim' as [->|?]; [by destruct Hx|done].
  - right. simplify_eq. split; [|done]. unfold aims. destruct ready; simpl; [tauto|]. by destruct Haim' as [?|[_ ?]].
  - right. split; [by eapply aim_ready|]. repeat case_match; by simplify_eq.
  - right. destruct (node (graph s) dep) as [d|] eqn:Hd; [|done].
    pose proof (keeps_w_shouldContinue w d) as [Hk _]. destruct (w_shouldContinue w d) as [cont d'].
    simplify_eq. split; [unfold aims; destruct cont; simpl; tauto|]. unfold not_started in *. simpl. simpl in Hk.
    rewrite status_of_on_node, Hd. case_decide; [subst|done]. rewrite Hk. unfold status_of in Hnone. by rewrite Hd in Hnone.
  - destruct (decide (id = v)) as [->|Hne]; [left; by eapply block_work|right]. simplify_eq.
    split; [destruct Haim' as [?|?]; [|done]; unfold aims; destruct (block_error b); simpl; auto|].
    unfold not_started. simpl. unfold set_status_of. rewrite status_of_on_node. by rewrite decide_False.
  - right. simplify_eq. split; [unfold aims; simpl; by left|]. unfold not_started in *. simpl. rewrite status_of_on_node.
    case_decide; [subst|done]. unfold status_of in Hnone. by destruct (node (graph s) id).
  - right. simplify_eq. rewrite Hc. split; [|done]. unfold aims. simpl. destruct (0 <? MaxActiveRuns cfg)%Z eqn:Hmax; simpl; [|done].
    split_and!; [done|done|lia].
  - right. destruct Haim' as (? & -> & Hmax). simplify_eq. split; [|done].
    unfold aims. simpl. rewrite (proj2 (Z.leb_gt _ _) Hmax). done.
  - right. simplify_eq. split; [|done]. unfold aims. simpl. rewrite bool_decide_false; [done|]. by apply none_running.
  - left. by eapply Hlaunch.
Qed.

Lemma aim_source : not_started (graph s') v -> source s' v.
Proof.
  intros Hnone. pose proof (mild_main _ _ _ _ _ _ Hstep) as Hmild. destruct Hv as (Hvn & _ & Hd).
  pose proof (mstep_inv cfg ctx0 g0 (st_good _ _ _ Hg) true w s s' (so_inv _ _ _ _ Hs) Hstep) as Hinv'.
  assert (to_ (graph s') = to_ (graph s)) as Eto.
  { rewrite (sg_to _ _ (inv_graph _ _ Hinv')). symmetry. apply (inv_graph _ _ (so_inv _ _ _ _ Hs)). }
  assert (closed_graph (graph s')) as Hcl' by (eapply closed_same_graph, Hclosed; apply (inv_graph _ _ Hinv')).
  split_and!; [by rewrite (proj1 Hmild)|done|]. rewrite Eto. intros dep Hdep Hn. apply (Hd dep Hdep).
  eapply status_mild; [exact Hmild| |exact Hn]. apply (closed_nodes _ Hcl').
  rewrite (proj1 Hmild). exact (closed_deps _ (closed_now s Hs) v dep Hdep).
Qed.

End aim.

Lemma aimed_pass k : forall s v,
  distance s < k -> sound strs L g0 s -> canceled s = false -> threads s = [] -> source s v -> aims v s ->
  exists s', main_runs s s' /\ sound strs L g0 s' /\ (work L s' < work L s)%Z.
Proof.
  induction k as [|k IH]; intros s v Hk Hs Hc Ht Hv Haim; [lia|].
  assert (loop_over (main s) = false /\ main s <> MCancelChk) as [Hover Hm] by (unfold aims in Haim; by destruct (main s)).
  destruct (main_enabled s Hs Hover) as [s1 Hstep].
  destruct (main_step_sound cfg ctx0 strs L g0 (st_good _ _ _ Hg) (st_nodup _ _ _ Hg) HL w s s1 Hs Hstep) as (Hs1 & Hle & _).
  destruct (main_moves s s1 Hs Hstep Hover Hm) as [Hlt|(Hd & Et & Ec)]; [exists s1; split; [by apply rtc_once|done]|].
  destruct (aim_kept s s1 v Hs Hc Ht Hv Haim Hstep) as [Hlt|[Haim1 Hn1]]; [exists s1; split; [by apply rtc_once|done]|].
  destruct (IH s1 v) as (s' & Hr & Hs' & Hlt); [lia|done|congruence|congruence| |done|].
  - eapply (aim_source s); eassumption.
  - exists s'. split; [by eapply rtc_l|]. split; [done|lia].
Qed.

(** ** To the end of the run *)

(** Out of the loop the main goroutine waits, picks the handlers, runs them and
    returns. *)
Lemma loop_over_returns s :
  threads s = [] -> loop_over (main s) = true ->
  exists s' e, main_runs s s' /\ main s' = MReturn e /\ threads s' = [].
Proof.
  intros Ht Hm.
  assert (forall hs s, threads s = [] -> main s = MHandlers hs ->
    exists s' e, main_runs s s' /\ main s' = MReturn e /\ threads s' = []) as Hhandlers.
  { clear. induction hs as [|h hs IH]; intros s Ht Hm.
    - eexists _, _. split; [apply rtc_once; unfold main_step, mstep; by rewrite Hm|done].
    - assert (exists s1, mstep cfg true ctx0 w s = Some s1 /\ threads s1 = [] /\ main s1 = MHandlers hs) as (s1 & H1 & Ht1 & Hm1).
      { unfold mstep. rewrite Hm. destruct (HandlerNode s h) as [n|]; [|by eexists].
        destruct (runHandlerNode cfg w ctx0 (graph s) n). by eexists. }
      destruct (IH s1 Ht1 Hm1) as (s' & e & Hr & ?). exists s', e. split; [by eapply rtc_l|done]. }
  assert (forall s, threads s = [] -> main s = MStatus ->
    exists s' e, main_runs s s' /\ main s' = MReturn e /\ threads s' = []) as Hstatus.
  { clear -Hhandlers. intros s Ht Hm.
    destruct (Hhandlers (status_handlers (SchedulerStatus s)) (set_main s (MHandlers (status_handlers (SchedulerStatus s)))) Ht eq_refl)
      as (s' & e & Hr & ?). exists s', e. split; [|done].
    eapply rtc_l; [unfold main_step, mstep; by rewrite Hm|exact Hr]. }
  destruct (main s) eqn:E; try done; [|by apply Hstatus|by eapply Hhandlers|].
  - destruct (Hstatus (set_main s MStatus) Ht eq_refl) as (s' & e' & Hr & ?). exists s', e'. split; [|done].
    eapply rtc_l; [unfold main_step, mstep; by rewrite E, Ht|exact Hr].
  - exists s, e. split; [apply rtc_refl|done].
Qed.

(** At the check of the flag. *)
Lemma check_settles s :
  sound strs L g0 s -> threads s = [] -> main s = MCancelChk ->
  exists s', main_runs s s' /\ sound strs L g0 s' /\
    ((work L s' < work L s)%Z \/ (threads s' = [] /\ loop_over (main s') = true)).
Proof.
  intros Hs Ht Hm. set (s1 := set_main s (if canceled s then MWait else MIter (nodes (graph s)))).
  assert (mstep cfg true ctx0 w s = Some s1) as Hstep by (unfold mstep; by rewrite Hm).
  destruct (main_step_sound cfg ctx0 strs L g0 (st_good _ _ _ Hg) (st_nodup _ _ _ Hg) HL w s s1 Hs Hstep) as (Hs1 & Hle & _).
  destruct (canceled s) eqn:Hc; [exists s1; split; [by apply rtc_once|]; split; [done|by right]|].
  assert (canceled s1 = false /\ threads s1 = []) as [Hc1 Ht1] by done.
  destruct (decide (Exists (not_started (graph s)) (nodes (graph s)))) as [Hx|Hx].
  - apply Exists_exists in Hx as (x & Hx & Hxn).
    destruct (source_exists (graph s) x (closed_now s Hs) Hx Hxn) as (v & Hv).
    destruct (aimed_pass (S (distance s1)) s1 v) as (s' & Hr & Hs' & Hlt); [lia|done..| |].
    { unfold aims. simpl. apply Hv. }
    exists s'. split; [by eapply rtc_l|]. split; [done|left; lia].
  - destruct (main_descends (S (distance s1)) s1) as (s' & Hr & Hs' & Hend); [lia|done..|].
    exists s'. split; [by eapply rtc_l|]. split; [done|].
    destruct Hend as [Hlt|(Ht' & Hc' & Hmild & [Ho|[_ Hn]])]; [left; lia|by right|].
    exfalso. rewrite Hc1 in Hc'. destruct (Hn Hc') as (y & Hy & Hyn). apply Hx, Exists_exists. exists y.
    split; [by rewrite (proj1 Hmild) in Hy|]. eapply status_mild; [exact Hmild| |exact Hyn].
    by apply (closed_nodes _ (closed_now s' Hs')).
Qed.

(** With no goroutine left the main loop alone launches or settles a node, or
    leaves the loop. *)
Lemma main_settles s :
  sound strs L g0 s -> threads s = [] ->
  exists s', main_runs s s' /\ sound strs L g0 s' /\
    ((work L s' < work L s)%Z \/ (threads s' = [] /\ loop_over (main s') = true)).
Proof.
  intros Hs Ht. assert (main s = MCancelChk \/ main s <> MCancelChk) as [Hm|Hm] by (destruct (main s); auto);
    [by apply check_settles|].
  destruct (main_descends (S (distance s)) s) as (s1 & Hr & Hs1 & Hend); [lia|done..|].
  destruct Hend as [Hlt|(Ht1 & _ & _ & [Ho|[Hm1 _]])]; [exists s1; auto|exists s1; auto|].
  pose proof (main_runs_work s s1 Hs Hr) as Hle.
  destruct (check_settles s1 Hs1 Ht1 Hm1) as (s' & Hr' & Hs' & Hend). exists s'. split; [by etrans|].
  split; [done|]. destruct Hend as [Hlt|?]; [left; lia|by right].
Qed.

End progress.

(** ** The graphs the constructor builds *)

(** [g] is the graph of the steps, no repeating step ignores its failures, and
    the declared retry limits are at most [L]. *)
Record built (L : Z) (order : Z -> nat -> list Z) (next : Z) (steps : list Step.t) (g : ExecutionGraph) : Prop := mk_built {
  bu_next : (0 < next)%Z;
  bu_order : forall id i u, u ∈ order id i <-> u ∈ seqZ next (Z.of_nat (length steps));
  bu_steps : Forall (fun st =>
    RepeatPolicy.Repeat (Step.RepeatPolicy st) && ContinueOn.Failure (Step.ContinueOn st) = false /\
    (RetryPolicy.Limit (Step.RetryPolicy st) <= L)%Z) steps;
  bu_graph : snd (NewExecutionGraph order next steps) = Some (Ok g)
}.

(** The retry limits that are strings. *)
Definition limit_strings (steps : list Step.t) : list string :=
  (fun st => RetryPolicy.LimitStr (Step.RetryPolicy st)) <$> steps.

Definition repeats_none (steps : list Step.t) : Prop :=
  Forall (fun st => RepeatPolicy.Repeat (Step.RepeatPolicy st) = false) steps.

Section built.
Context (L : Z) (order : Z -> nat -> list Z) (next : Z) (steps : list Step.t) (g : ExecutionGraph).
Context (HL : (0 <= L)%Z) (Hb : built L order next steps g).

Lemma built_node x n : node g x = Some n -> exists s, s ∈ steps /\ n = set_n_id (NewNode s NodeState.zero) x.
Proof. apply (new_graph_nodes order next steps g x n); apply Hb. Qed.

Lemma built_nodes : length (nodes g) = length steps.
Proof.
  pose proof (new_graph_nodes order next steps g 0 (NewNode (named_step "" []) NodeState.zero)
    (bu_next _ _ _ _ _ Hb) (bu_order _ _ _ _ _ Hb) (bu_graph _ _ _ _ _ Hb)) as [-> _].
  rewrite length_seqZ. lia.
Qed.

Lemma built_ready : good_graph g /\ closed_graph g /\ NoDup (nodes g) /\ (forall x, status_of g x = NodeStatusNone).
Proof.
  destruct Hb as [Hnext Horder Hsteps Hgraph]. eapply new_graph_ready; [done..| |done].
  eapply Forall_impl; [exact Hsteps|]. by intros st [? _].
Qed.

Lemma built_startable : startable (limit_strings steps) L g.
Proof.
  destruct built_ready as (Hgood & _ & Hnd & Hst). split; [done|done| |intros id; by rewrite Hst].
  intros id n Hn. destruct (built_node id n Hn) as (st & Hin & ->).
  pose proof (bu_steps _ _ _ _ _ Hb) as Hs. rewrite Forall_forall in Hs. destruct (Hs st Hin).
  split; try done. simpl. apply list_elem_of_fmap. by exists st.
Qed.

Lemma built_keyed : keyed g.
Proof. intros id n Hn. by destruct (built_node id n Hn) as (st & _ & ->). Qed.

Lemma built_no_repeats : repeats_none steps -> no_repeats g.
Proof.
  unfold repeats_none. rewrite Forall_forall. intros H id n Hn.
  destruct (built_node id n Hn) as (st & Hin & ->). by apply H.
Qed.

End built.

(** ** Termination *)

(** C18: the goroutines of a run end: after any interleaving [before] of the main
    loop, the goroutines and signal calls, and whatever the outside answers, the
    goroutines make in any continuation [after] at most 28 (L + 1) moves per
    step, 43 per goroutine and 28 more, where [L] bounds the retry limits, the
    declared ones and those the outside answers; provided no step repeats or the
    run has been cancelled.  At the start of a run there is no goroutine yet, so
    this bounds the whole run. *)
Theorem goroutines_end (cfg : Config) (ctx0 : ctx) (w : world) (canceled0 : bool) (lastError0 : option error)
    (L : Z) (order : Z -> nat -> list Z) (next : Z) (steps : list Step.t) (g0 : ExecutionGraph)
    (s0 s s' : state) (before after : list (world * action))
    (HL : (0 <= L < 2 ^ 63)%Z) (Hgraph : built L order next steps g0)
    (Hsched : Schedule cfg w canceled0 lastError0 g0 = Ok s0)
    (Hworlds : Forall (fun m => limits_under (limit_strings steps) L (fst m)) (before ++ after))
    (Hbefore : run cfg true ctx0 s0 before = Some s) (Hafter : run cfg true ctx0 s after = Some s')
    (Hends : canceled s = true \/ repeats_none steps) :
  (goroutine_moves after <=
   28 * (L + 1) * Z.of_nat (length steps) + 43 * Z.of_nat (length (threads s)) + 28)%Z /\
  threads s0 = [].
Proof.
  pose proof (built_startable L order next steps g0 (proj1 HL) Hgraph) as Hg.
  apply Forall_app in Hworlds as [Hw1 Hw2].
  destruct (run_sound cfg ctx0 _ L g0 before s0 s Hg HL Hw1 (Schedule_sound _ _ _ _ _ _ _ _ Hg Hsched) Hbefore) as [Hs _].
  destruct (run_sound cfg ctx0 _ L g0 after s s' Hg HL Hw2 Hs Hafter) as [_ Hle].
  assert (canceled s = true \/ no_repeats g0) as Hends0.
  { destruct Hends; [by left|right; by eapply built_no_repeats]. }
  specialize (Hle Hends0). pose proof (work_bound _ L g0 s (proj1 HL) Hs) as Hb. pose proof (work_nonneg L s').
  rewrite (sg_nodes _ _ (inv_graph _ _ (so_inv _ _ _ _ Hs))), (built_nodes L order next steps g0 Hgraph) in Hb.
  split; [lia|]. unfold Schedule in Hsched. destruct (setup_error cfg w); [done|]. by simplify_eq.
Qed.

(** A move of the run itself, not of a signal call. *)
Definition own_move (a : action) : Prop := match a with AMain | AThread _ => True | _ => False end.

Definition own_step (cfg : Config) (ctx0 : ctx) (w : world) (s s' : state) : Prop :=
  exists a, own_move a /\ act cfg true ctx0 w a s = Some s'.

Lemma main_runs_own cfg ctx0 w s s' :
  rtc (main_step cfg true ctx0 w) s s' -> rtc (own_step cfg ctx0 w) s s' /\ (canceled s = true -> canceled s' = true).
Proof.
  induction 1 as [s|s1 s2 s3 H1 _ [IH IHc]]; [split; [apply rtc_refl|done]|]. split.
  - eapply rtc_l; [by exists AMain|done].
  - intros Hc. apply IHc. by apply (canceled_step cfg true ctx0 w AMain s1).
Qed.

Section returns.
Context (cfg : Config) (ctx0 : ctx) (strs : list string) (L : Z) (g0 : ExecutionGraph).
Context (Hg : startable strs L g0) (HL : (0 <= L < 2 ^ 63)%Z) (Hclosed : closed_graph g0) (Hkeyed : keyed g0).
Context (w : world) (Hw : limits_under strs L w).

(** Goroutines first, then the main loop, until the run returns. *)
Lemma sound_returns k : forall s,
  (work L s < Z.of_nat k)%Z -> sound strs L g0 s -> canceled s = true \/ no_repeats g0 ->
  exists s' e, rtc (own_step cfg ctx0 w) s s' /\ main s' = MReturn e /\ threads s' = [].
Proof.
  induction k as [|k IH]; intros s Hk Hs Hends; [pose proof (work_nonneg L s); lia|].
  assert (threads s = [] \/ threads s <> []) as [Ht|Ht] by (destruct (threads s); auto).
  - destruct (main_settles cfg ctx0 strs L g0 Hg HL Hclosed Hkeyed w Hw s Hs Ht) as (s1 & Hr & Hs1 & Hend).
    destruct (main_runs_own _ _ _ _ _ Hr) as [Hown Hc]. destruct Hend as [Hlt|[Ht1 Ho]].
    + destruct (IH s1) as (s' & e & Hr' & ?); [lia|done|destruct Hends; auto|].
      exists s', e. split; [by etrans|done].
    + destruct (loop_over_returns cfg ctx0 w s1 Ht1 Ho) as (s' & e & Hr' & ?). exists s', e.
      split; [etrans; [exact Hown|by eapply main_runs_own]|done].
  - destruct (thread_progress cfg ctx0 strs L g0 Hg HL Hclosed Hkeyed w Hw s Hs Hends Ht) as (s1 & H1 & Hs1 & Hlt).
    destruct (IH s1) as (s' & e & Hr' & ?); [lia|done| |].
    { destruct Hends as [Hc|]; [left; by eapply canceled_step|by right]. }
    exists s', e. split; [|done]. eapply rtc_l; [by exists (AThread 0)|done].
Qed.

End returns.

Lemma reachable_sound cfg ctx0 strs L g0 s s' :
  startable strs L g0 -> (0 <= L < 2 ^ 63)%Z -> (forall w, limits_under strs L w) ->
  sound strs L g0 s -> reachable cfg true ctx0 s s' -> sound strs L g0 s'.
Proof.
  intros Hg HL Hw Hs Hr. revert Hs. induction Hr as [|s1 s2 s3 (w & a & Ha) _ IH]; [done|]. intros Hs. apply IH.
  by eapply (act_sound cfg ctx0 strs L g0 (st_good _ _ _ Hg) (st_nodup _ _ _ Hg) HL w a s1 s2 (Hw w) Hs).
Qed.


(** ** A failing step with one retry, and a cancelled run *)

Lemma run_acts cfg hd l s :
  bool_decide (is_Some (run cfg hd bg s l)) = true -> run cfg hd bg s l = Some (acts cfg hd l s).
Proof.
  rewrite bool_decide_eq_true. revert s. induction l as [|[w a] l IH]; intros s [x Hx]; simpl in *; [done|].
  destruct (act cfg hd bg w a s) as [s1|]; [|done]. apply IH. by exists x.
Qed.

Lemma retry_built : built 1 (ascending 1 1) 1 [retry_step] retry_graph.
Proof. split; [done..| |done]. repeat constructor. simpl. lia. Qed.

Definition before_retry : list (world * action) := mains 9.
Definition after_launch : list (world * action) := moves 0 14 ++ mains 9 ++ moves 1 5.

Lemma goroutines_end_witness :
  let s0 := start sample_cfg retry_graph in
  let s := acts sample_cfg true before_retry s0 in
  let s' := acts sample_cfg true after_launch s in
  (goroutine_moves after_launch = 19 /\ length (threads s) = 1%nat /\
   28 * (1 + 1) * Z.of_nat (length [retry_step]) + 43 * Z.of_nat (length (threads s)) + 28 = 127)%Z /\
  (goroutine_moves after_launch <=
   28 * (1 + 1) * Z.of_nat (length [retry_step]) + 43 * Z.of_nat (length (threads s)) + 28)%Z /\
  threads s0 = [].
Proof.
  intros s0 s s'. split; [split_and!; vm_compute; reflexivity|].
  apply (goroutines_end sample_cfg bg ok_world false None 1%Z (ascending 1 1) 1%Z [retry_step] retry_graph
           s0 s s' before_retry after_launch).
  - done.
  - exact retry_built.
  - by apply start_ok; right.
  - assert (limits_under (limit_strings [retry_step]) 1 fail_world) as Hw.
    { intros str v ->%list_elem_of_singleton. vm_compute. discriminate. }
    rewrite Forall_forall. intros m Hm. replace (fst m) with fail_world; [exact Hw|].
    unfold before_retry, after_launch, mains, moves in Hm.
    repeat (apply elem_of_app in Hm as [Hm|Hm]); apply elem_of_replicate in Hm as [-> _]; reflexivity.
  - apply run_acts. vm_compute. reflexivity.
  - apply run_acts. vm_compute. reflexivity.
  - right. by repeat constructor.
Defined.

