(* ===== verification/Model.v ===== *)
(** * Persistent status: internal/persistence/model, internal/stringutil times

    The record written to the history files, its construction from a workflow
    and from the nodes of a run, and the way back to nodes for a retry.  The
    formats of the [time] package are arguments. *)

From S2P Require Import Prelude GoStrings Vars Digraph NodeData Node Sched.

(** ** Records (node.go, status.go) *)

Module MNode.
Record t := mk {
  Step : Step.t;
  Log : string;
  StartedAt : string;
  FinishedAt : string;
  Status : NodeStatus;
  RetriedAt : string;
  RetryCount : Z;
  DoneCount : Z;
  Error : string;
  StatusText : string
}.
End MNode.

Module MStatus.
Record t := mk {
  RequestID : string;
  Name : string;
  Status : Status;
  StatusText : string;
  PID : Z;
  Nodes : list MNode.t;
  OnExit : option MNode.t;
  OnSuccess : option MNode.t;
  OnFailure : option MNode.t;
  OnCancel : option MNode.t;
  StartedAt : string;
  FinishedAt : string;
  Log : string;
  Params : string;
  ParamsList : list string
}.
End MStatus.

(** ** Times (stringutil.go) *)

Definition timeEmpty : string := "-".

Section times.
(** [Time.Format(time.RFC3339)] and [time.ParseInLocation] with the RFC 3339 and
    the legacy layouts; 0 is the zero time. *)
Context (fmt_rfc3339 : Z -> string).
Context (parse_rfc3339 parse_legacy : string -> option Z).

Definition ErrParseTime : error := ENew "cannot parse time".

Definition FormatTime (t : Z) : string := if bool_decide (t = 0%Z) then timeEmpty else fmt_rfc3339 t.

(** The time and the error; a failed parse leaves the zero time. *)
Definition ParseTime (val : string) : Z * option error :=
  if bool_decide (val = timeEmpty) then (0%Z, None)
  else match parse_rfc3339 val with
       | Some t => (t, None)
       | None => match parse_legacy val with
                 | Some t => (t, None)
                 | None => (0%Z, Some ErrParseTime)
                 end
       end.

(** ** Nodes (node.go) *)

Definition errNodeProcessing : error := ENew "node processing error".

Definition errFromText (err : string) : option error :=
  if bool_decide (err = "") then None else Some (EWrap "" errNodeProcessing (": " +:+ err)).

Definition errText (err : option error) : string :=
  match err with None => "" | Some e => error_text e end.

Definition MNewNode (step : Step.t) : MNode.t :=
  MNode.mk step "" "-" "-" NodeStatusNone "" 0 0 "" (NodeStatus_String NodeStatusNone).

Definition FromNode (node : NodeData) : MNode.t :=
  let st := nd_State node in
  MNode.mk (nd_Step node) (NodeState.Log st) (FormatTime (NodeState.StartedAt st))
    (FormatTime (NodeState.FinishedAt st)) (NodeState.Status st)
    (FormatTime (NodeState.RetriedAt st)) (NodeState.RetryCount st) (NodeState.DoneCount st)
    (errText (NodeState.Error st)) (NodeStatus_String (NodeState.Status st)).

Definition FromSteps (steps : list Step.t) : list MNode.t := MNewNode <$> steps.
Definition FromNodes (ns : list NodeData) : list MNode.t := FromNode <$> ns.

(** [ToNode]; the exit code is not stored. *)
Definition ToNode (n : MNode.t) : Node :=
  NewNode (MNode.Step n)
    (NodeState.mk (MNode.Status n) (MNode.Log n) (fst (ParseTime (MNode.StartedAt n)))
       (fst (ParseTime (MNode.FinishedAt n))) (MNode.RetryCount n)
       (fst (ParseTime (MNode.RetriedAt n))) (MNode.DoneCount n) (errFromText (MNode.Error n)) 0).

(** ** Status (status.go) *)

Definition pidNotRunning : Z := -1.
Definition PID_IsRunning (p : Z) : bool := negb (p =? pidNotRunning)%Z.

(** [model.FormatTime]: the zero time is the empty string. *)
Definition MFormatTime (val : Z) : string := if bool_decide (val = 0%Z) then "" else FormatTime val.

Definition nodeOrNil (s : option Step.t) : option MNode.t := MNewNode <$> s.

Definition CreateDefault (dag : DAG.t) : MStatus.t :=
  MStatus.mk "" (DAG.Name dag) StatusNone (Status_String StatusNone) pidNotRunning
    (FromSteps (DAG.Steps dag))
    (nodeOrNil (HandlerOn.Exit (DAG.HandlerOn dag))) (nodeOrNil (HandlerOn.Success (DAG.HandlerOn dag)))
    (nodeOrNil (HandlerOn.Failure (DAG.HandlerOn dag))) (nodeOrNil (HandlerOn.Cancel (DAG.HandlerOn dag)))
    (FormatTime 0) (FormatTime 0) "" (join (DAG.Params dag) " ") (DAG.Params dag).

Abbreviation StatusOption := (MStatus.t -> MStatus.t).

Definition WithNodes (ns : list NodeData) : StatusOption := fun s =>
  MStatus.mk (MStatus.RequestID s) (MStatus.Name s) (MStatus.Status s) (MStatus.StatusText s)
    (MStatus.PID s) (FromNodes ns) (MStatus.OnExit s) (MStatus.OnSuccess s) (MStatus.OnFailure s)
    (MStatus.OnCancel s) (MStatus.StartedAt s) (MStatus.FinishedAt s) (MStatus.Log s)
    (MStatus.Params s) (MStatus.ParamsList s).

Definition WithFinishedAt (t : Z) : StatusOption := fun s =>
  MStatus.mk (MStatus.RequestID s) (MStatus.Name s) (MStatus.Status s) (MStatus.StatusText s)
    (MStatus.PID s) (MStatus.Nodes s) (MStatus.OnExit s) (MStatus.OnSuccess s) (MStatus.OnFailure s)
    (MStatus.OnCancel s) (MStatus.StartedAt s) (MFormatTime t) (MStatus.Log s)
    (MStatus.Params s) (MStatus.ParamsList s).

Definition WithLogFilePath (log : string) : StatusOption := fun s =>
  MStatus.mk (MStatus.RequestID s) (MStatus.Name s) (MStatus.Status s) (MStatus.StatusText s)
    (MStatus.PID s) (MStatus.Nodes s) (MStatus.OnExit s) (MStatus.OnSuccess s) (MStatus.OnFailure s)
    (MStatus.OnCancel s) (MStatus.StartedAt s) (MStatus.FinishedAt s) log
    (MStatus.Params s) (MStatus.ParamsList s).

(** The options for handler nodes do nothing on a nil node. *)
Definition with_handlers (exit success failure cancel : option MNode.t) : StatusOption := fun s =>
  MStatus.mk (MStatus.RequestID s) (MStatus.Name s) (MStatus.Status s) (MStatus.StatusText s)
    (MStatus.PID s) (MStatus.Nodes s) exit success failure cancel (MStatus.StartedAt s)
    (MStatus.FinishedAt s) (MStatus.Log s) (MStatus.Params s) (MStatus.ParamsList s).

Definition or_keep (n : option Node) (old : option MNode.t) : option MNode.t :=
  match n with Some n => Some (FromNode (n_data n)) | None => old end.

Definition WithOnExitNode (n : option Node) : StatusOption := fun s =>
  with_handlers (or_keep n (MStatus.OnExit s)) (MStatus.OnSuccess s) (MStatus.OnFailure s) (MStatus.OnCancel s) s.
Definition WithOnSuccessNode (n : option Node) : StatusOption := fun s =>
  with_handlers (MStatus.OnExit s) (or_keep n (MStatus.OnSuccess s)) (MStatus.OnFailure s) (MStatus.OnCancel s) s.
Definition WithOnFailureNode (n : option Node) : StatusOption := fun s =>
  with_handlers (MStatus.OnExit s) (MStatus.OnSuccess s) (or_keep n (MStatus.OnFailure s)) (MStatus.OnCancel s) s.
Definition WithOnCancelNode (n : option Node) : StatusOption := fun s =>
  with_handlers (MStatus.OnExit s) (MStatus.OnSuccess s) (MStatus.OnFailure s) (or_keep n (MStatus.OnCancel s)) s.

Definition Create (dag : DAG.t) (requestID : string) (status : Status) (pid startedAt : Z)
    (opts : list StatusOption) : MStatus.t :=
  let s := CreateDefault dag in
  foldl (fun s opt => opt s)
    (MStatus.mk requestID (MStatus.Name s) status (Status_String status) pid (MStatus.Nodes s)
       (MStatus.OnExit s) (MStatus.OnSuccess s) (MStatus.OnFailure s) (MStatus.OnCancel s)
       (MFormatTime startedAt) (MStatus.FinishedAt s) (MStatus.Log s) (MStatus.Params s)
       (MStatus.ParamsList s)) opts.

(** [CorrectRunningStatus]: a run found running by a reader that knows it is not
    becomes failed. *)
Definition CorrectRunningStatus (s : MStatus.t) : MStatus.t :=
  if bool_decide (MStatus.Status s = StatusRunning) then
    MStatus.mk (MStatus.RequestID s) (MStatus.Name s) StatusError (Status_String StatusError)
      (MStatus.PID s) (MStatus.Nodes s) (MStatus.OnExit s) (MStatus.OnSuccess s)
      (MStatus.OnFailure s) (MStatus.OnCancel s) (MStatus.StartedAt s) (MStatus.FinishedAt s)
      (MStatus.Log s) (MStatus.Params s) (MStatus.ParamsList s)
  else s.

(** ** Lemmas *)

(** Seconds are what the RFC 3339 format keeps. *)
Definition whole_second (t : Z) : Z := (t - t mod 1000000000)%Z.

Hypothesis parse_fmt : forall t, t <> 0%Z -> parse_rfc3339 (fmt_rfc3339 t) = Some (whole_second t).
Hypothesis fmt_not_dash : forall t, fmt_rfc3339 t <> timeEmpty.

Lemma ParseTime_FormatTime t : ParseTime (FormatTime t) = (whole_second t, None).
Proof using parse_fmt fmt_not_dash.
  unfold ParseTime, FormatTime. destruct (bool_decide (t = 0%Z)) eqn:Ht.
  - apply bool_decide_eq_true in Ht as ->. done.
  - apply bool_decide_eq_false in Ht. rewrite bool_decide_false by done. by rewrite parse_fmt.
Qed.

Lemma errText_errFromText e : errText (errFromText e) = if bool_decide (e = "") then "" else "node processing error: " +:+ e.
Proof. unfold errFromText. by case_bool_decide. Qed.

(** What a node keeps through the history: its step, status, log, counters, its
    times to the second, the text of its error; not its exit code. *)
Definition stored (d : NodeData) : NodeData :=
  let st := nd_State d in
  mkNodeData (nd_Step d)
    (NodeState.mk (NodeState.Status st) (NodeState.Log st) (whole_second (NodeState.StartedAt st))
       (whole_second (NodeState.FinishedAt st)) (NodeState.RetryCount st)
       (whole_second (NodeState.RetriedAt st)) (NodeState.DoneCount st)
       (errFromText (errText (NodeState.Error st))) 0).

Lemma ToNode_FromNode d : n_data (ToNode (FromNode d)) = stored d.
Proof using parse_fmt fmt_not_dash.
  unfold ToNode, FromNode. simpl. by rewrite !ParseTime_FormatTime.
Qed.

End times.
