(* ===== verification/JobSched.v ===== *)
(** * The cron daemon: internal/scheduler/{job,manager,scheduler}.go

    A tick per minute asks the manager for the next activation of every
    schedule of every registered workflow and invokes the jobs that are due; a
    job decides from the latest recorded status whether to start.  The cron
    library, the clock, the file system and the client are arguments. *)

From S2P Require Import Prelude GoStrings Vars Digraph NodeData Paths Node Sched Model.

Definition second_ns : Z := 1000000000.
Definition minute_ns : Z := 60000000000.

(** [Time.Truncate], on times counted from a whole minute. *)
Definition Truncate (d t : Z) : Z := (t - t mod d)%Z.

(** ** Jobs (job.go) *)

Definition ErrJobRunning : error := ENew "job already running".
Definition ErrJobIsNotRunning : error := ENew "job is not running".
Definition ErrJobFinished : error := ENew "job already finished".
Definition ErrJobSkipped : error := ENew "job skipped".
Definition ErrJobSuccess : error := ENew "job already successful".

Record dagJob := mkJob {
  job_DAG : DAG.t;
  job_Next : Z;
  job_Schedule : Z -> Z
}.

(** The call a job makes on the client when it goes through. *)
Inductive client_call := CallStart | CallStop | CallRestart.

#[export] Instance client_call_eq_dec : EqDecision client_call.
Proof. solve_decision. Defined.

Section job.
Context (parse_rfc3339 parse_legacy : string -> option Z).

Definition prevExecTime (job : dagJob) : Z :=
  let nextNextRunTime := job_Schedule job (job_Next job + second_ns)%Z in
  let duration := (nextNextRunTime - job_Next job)%Z in
  (job_Next job - duration)%Z.

Definition skipIfSuccessful (job : dagJob) (latestStatus : MStatus.t) (latestStartedAt : Z)
    : option error :=
  if negb (DAG.SkipIfSuccessful (job_DAG job)) || bool_decide (MStatus.Status latestStatus <> StatusSuccess)
  then None
  else
    let prev := prevExecTime job in
    if (((prev <? latestStartedAt) || (latestStartedAt =? prev)) && (latestStartedAt <? job_Next job))%Z
    then Some ErrJobSuccess else None.

Definition ready (job : dagJob) (latestStatus : MStatus.t) : option error :=
  if bool_decide (MStatus.Status latestStatus = StatusRunning) then Some ErrJobRunning
  else match ParseTime parse_rfc3339 parse_legacy (MStatus.StartedAt latestStatus) with
       | (_, Some _) => None
       | (t, None) =>
           let t := Truncate minute_ns t in
           if ((job_Next job <? t) || (job_Next job =? t))%Z then Some ErrJobFinished
           else skipIfSuccessful job latestStatus t
       end.

(** [Start], [Stop] and [Restart]: the call made, or the error returned without
    one; [latest] is what [GetLatestStatus] answers. *)
Definition job_Start (job : dagJob) (latest : result MStatus.t) : result client_call :=
  match latest with
  | Err e => Err e
  | Ok st =>
      if bool_decide (MStatus.Status st = StatusRunning) then Err ErrJobRunning
      else match ready job st with
           | Some e => Err e
           | None => Ok CallStart
           end
  end.

Definition job_Stop (latest : result MStatus.t) : result client_call :=
  match latest with
  | Err e => Err e
  | Ok st =>
      if bool_decide (MStatus.Status st <> StatusRunning) then Err ErrJobIsNotRunning else Ok CallStop
  end.

Definition job_Restart : result client_call := Ok CallRestart.

(** ** Scheduled jobs (manager.go, scheduler.go) *)

Inductive ScheduleType := ScheduleTypeStart | ScheduleTypeStop | ScheduleTypeRestart.

Definition ScheduleType_String (t : ScheduleType) : string :=
  match t with
  | ScheduleTypeStart => "Start"
  | ScheduleTypeStop => "Stop"
  | ScheduleTypeRestart => "Restart"
  end.

Record ScheduledJob := mkScheduled {
  sj_Next : Z;
  sj_Job : dagJob;
  sj_Type : ScheduleType
}.

Definition invoke (latest : result MStatus.t) (j : ScheduledJob) : result client_call :=
  match sj_Type j with
  | ScheduleTypeStart => job_Start (sj_Job j) latest
  | ScheduleTypeStop => job_Stop latest
  | ScheduleTypeRestart => job_Restart
  end.

End job.

(** ** The manager *)

Abbreviation registry := (gmap string DAG.t).

(** The name under which a workflow is suspended. *)
Definition dag_file_name (dag : DAG.t) : string :=
  trim_suffix (Base (DAG.Location dag)) (Ext (DAG.Location dag)).

Definition schedules_of (dag : DAG.t) : list (Schedule.t * ScheduleType) :=
  ((fun s => (s, ScheduleTypeStart)) <$> DAG.Schedule dag) ++
  ((fun s => (s, ScheduleTypeStop)) <$> DAG.StopSchedule dag) ++
  ((fun s => (s, ScheduleTypeRestart)) <$> DAG.RestartSchedule dag).

Definition createJob (dag : DAG.t) (next : Z) (schedule : Schedule.t) : dagJob :=
  mkJob dag next (Schedule.Parsed schedule).

Definition schedule_job (now : Z) (dag : DAG.t) (s : Schedule.t * ScheduleType) : ScheduledJob :=
  let next := Schedule.Parsed (fst s) now in
  mkScheduled next (createJob dag next (fst s)) (snd s).

(** [Next]; [dags] are the workflows of the registry in the order of the range. *)
Definition Next (isSuspended : string -> bool) (dags : list DAG.t) (now : Z) : list ScheduledJob :=
  dags ≫= fun dag =>
    if isSuspended (dag_file_name dag) then [] else schedule_job now dag <$> schedules_of dag.

(** [initialize]: [entries] are the names in the directory, in its order; a
    workflow that does not load is logged and left out. *)
Definition register (load : string -> result DAG.t) (m : registry) (name : string) : registry :=
  if IsYAMLFile name then
    match load name with
    | Ok dag => <[name := dag]> m
    | Err _ => m
    end
  else m.

Definition initialize (load : string -> result DAG.t) (entries : list string) (m : registry) : registry :=
  foldl (register load) m entries.

(** The fsnotify operations, bits of an event. *)
Definition OpCreate : Z := 1.
Definition OpWrite : Z := 2.
Definition OpRemove : Z := 4.
Definition OpRename : Z := 8.

(** One event of [watchDags]. *)
Definition on_event (load : string -> result DAG.t) (m : registry) (ev : string * Z) : registry :=
  let '(name, op) := ev in
  if negb (IsYAMLFile name) then m
  else
    let m := if ((op =? OpCreate) || (op =? OpWrite))%Z then
               match load (Base name) with
               | Ok dag => <[Base name := dag]> m
               | Err _ => m
               end
             else m in
    if ((op =? OpRename) || (op =? OpRemove))%Z then delete (Base name) m else m.

(** ** The tick *)

Definition nextTick (now : Z) : Z := Truncate (60 * second_ns) (now + minute_ns).

(** [sort.SliceStable] by the next time. *)
Fixpoint insert_job (j : ScheduledJob) (l : list ScheduledJob) : list ScheduledJob :=
  match l with
  | [] => [j]
  | x :: l' => if (sj_Next j <=? sj_Next x)%Z then j :: l else x :: insert_job j l'
  end.

Definition sort_jobs (l : list ScheduledJob) : list ScheduledJob := foldr insert_job [] l.

(** The loop up to the first job after [now]. *)
Fixpoint due (now : Z) (l : list ScheduledJob) : list ScheduledJob :=
  match l with
  | [] => []
  | j :: l' => if (now <? sj_Next j)%Z then [] else j :: due now l'
  end.

(** [run]: the jobs invoked at a tick. *)
Definition run_jobs (isSuspended : string -> bool) (dags : list DAG.t) (now : Z) : list ScheduledJob :=
  due now (sort_jobs (Next isSuspended dags (now - second_ns)%Z)).

(** The ticks of [start]: the first is the minute of the start, each next one is
    computed from the last, whatever time the jobs took. *)
Fixpoint ticks (t : Z) (n : nat) : list Z :=
  match n with
  | 0 => []
  | S k => t :: ticks (nextTick t) k
  end.

Definition start_ticks (now : Z) (n : nat) : list Z := ticks (Truncate minute_ns now) n.

(** ** Lemmas *)

Lemma Truncate_divide d t : (0 < d)%Z -> (d | Truncate d t)%Z.
Proof.
  intros Hd. unfold Truncate. exists (t / d)%Z. pose proof (Z.div_mod t d ltac:(lia)). lia.
Qed.

Lemma Truncate_multiple d t : (0 < d)%Z -> (d | t)%Z -> Truncate d t = t.
Proof. intros Hd Ht. unfold Truncate. rewrite (proj2 (Z.mod_divide t d ltac:(lia)) Ht). lia. Qed.

Lemma Truncate_le d t : (0 < d)%Z -> (Truncate d t <= t < Truncate d t + d)%Z.
Proof. intros Hd. unfold Truncate. pose proof (Z.mod_pos_bound t d Hd). lia. Qed.

Lemma nextTick_minute t : (minute_ns | t)%Z -> nextTick t = (t + minute_ns)%Z.
Proof.
  intros Ht. unfold nextTick. change (60 * second_ns)%Z with minute_ns.
  apply Truncate_multiple; [done|]. apply Z.divide_add_r; [done|]. by apply Z.divide_refl.
Qed.

Lemma ticks_lookup t n k :
  (minute_ns | t)%Z -> k < n -> ticks t n !! k = Some (t + Z.of_nat k * minute_ns)%Z.
Proof.
  revert t k. induction n as [|n IH]; intros t k Ht Hk; [lia|]. destruct k as [|k]; simpl.
  - f_equal. lia.
  - rewrite IH; [|rewrite nextTick_minute by done; apply Z.divide_add_r; [done|apply Z.divide_refl]|lia].
    rewrite nextTick_minute by done. f_equal. unfold minute_ns. lia.
Qed.

Definition job_le (a b : ScheduledJob) : Prop := (sj_Next a <= sj_Next b)%Z.

Lemma insert_job_perm j l : Permutation (insert_job j l) (j :: l).
Proof.
  induction l as [|x l IH]; simpl; [done|]. destruct (sj_Next j <=? sj_Next x)%Z; [done|].
  rewrite IH. apply Permutation_swap.
Qed.

Lemma sort_jobs_perm l : Permutation (sort_jobs l) l.
Proof. induction l as [|j l IH]; simpl; [done|]. by rewrite insert_job_perm, IH. Qed.

Lemma insert_job_sorted j l : StronglySorted job_le l -> StronglySorted job_le (insert_job j l).
Proof.
  induction 1 as [|x l Hl IH Hx]; simpl; [by repeat constructor|].
  destruct (sj_Next j <=? sj_Next x)%Z eqn:E.
  - apply Z.leb_le in E. constructor; [by constructor|]. constructor; [done|].
    eapply Forall_impl; [exact Hx|]. intros y Hy. unfold job_le in *. simpl in *. lia.
  - apply Z.leb_gt in E. constructor; [done|]. rewrite insert_job_perm. constructor; [|done].
    unfold job_le. lia.
Qed.

Lemma sort_jobs_sorted l : StronglySorted job_le (sort_jobs l).
Proof. induction l as [|j l IH]; simpl; [constructor|]. by apply insert_job_sorted. Qed.

(** On a sorted list the loop that stops at the first late job keeps all due ones. *)
Lemma elem_of_due now l j :
  StronglySorted job_le l -> j ∈ due now l <-> j ∈ l /\ (sj_Next j <= now)%Z.
Proof.
  induction 1 as [|x l Hl IH Hx]; simpl.
  - split; [by intros ?%elem_of_nil|by intros [?%elem_of_nil _]].
  - destruct (now <? sj_Next x)%Z eqn:E.
    + apply Z.ltb_lt in E. split; [by intros ?%elem_of_nil|].
      intros [[->|Hj]%elem_of_cons Hle]; [lia|]. rewrite Forall_forall in Hx.
      specialize (Hx j Hj). unfold job_le in Hx. lia.
    + apply Z.ltb_ge in E. rewrite !elem_of_cons, IH. naive_solver.
Qed.

Lemma elem_of_run isSuspended dags now j :
  j ∈ run_jobs isSuspended dags now <->
  (sj_Next j <= now)%Z /\
  exists dag s, dag ∈ dags /\ isSuspended (dag_file_name dag) = false /\ s ∈ schedules_of dag /\
    j = schedule_job (now - second_ns) dag s.
Proof.
  unfold run_jobs. rewrite elem_of_due by apply sort_jobs_sorted. rewrite sort_jobs_perm.
  unfold Next. rewrite list_elem_of_bind. split.
  - intros [(dag & Hj & Hdag) Hle]. split; [done|]. exists dag.
    destruct (isSuspended (dag_file_name dag)); [by apply elem_of_nil in Hj|].
    apply list_elem_of_fmap in Hj as (s & -> & Hs). eauto.
  - intros [Hle (dag & s & Hdag & Hsus & Hs & ->)]. split; [|done]. exists dag. rewrite Hsus.
    split; [|done]. by apply list_elem_of_fmap_2.
Qed.
