(* ===== verification/JobProps.v ===== *)
(** * Properties of the cron daemon

    Every activation of every schedule is fired at exactly one tick; a job is
    not started twice for the same activation; the registry mirrors the
    directory. *)

From S2P Require Import Prelude GoStrings Vars Digraph NodeData Paths Node Sched Model JobSched.
From Stdlib Require Import Ascii.

(** What the cron library documents of [Schedule.Next]: the least activation
    after the given time; activations are on whole minutes. *)
Record cron_spec (active : Z -> Prop) (next : Z -> Z) : Prop := mk_cron {
  cron_after : forall t, (t < next t)%Z;
  cron_active : forall t, active (next t);
  cron_least : forall t u, (t < u)%Z -> active u -> (next t <= u)%Z;
  cron_minute : forall u, active u -> (minute_ns | u)%Z
}.

Lemma start_ticks_lookup now n k :
  k < n -> start_ticks now n !! k = Some (Truncate minute_ns now + Z.of_nat k * minute_ns)%Z.
Proof. intros Hk. unfold start_ticks. apply ticks_lookup; [by apply Truncate_divide|done]. Qed.

(** A schedule is due at a minute exactly when that minute is an activation. *)
Lemma due_at_tick active next t :
  cron_spec active next -> (minute_ns | t)%Z -> (next (t - second_ns) <= t)%Z <-> active t.
Proof.
  intros Hc Ht. split.
  - intros Hle. pose proof (cron_after _ _ Hc (t - second_ns)%Z) as Hlt.
    pose proof (cron_active _ _ Hc (t - second_ns)%Z) as Ha.
    pose proof (cron_minute _ _ Hc _ Ha) as [k Hk]. destruct Ht as [m ->].
    assert (next (m * minute_ns - second_ns) = m * minute_ns)%Z as <-; [|done].
    rewrite Hk in *. unfold minute_ns, second_ns in *. assert (k = m) by lia. by subst.
  - intros Ha. apply (cron_least _ _ Hc); [unfold second_ns; lia|done].
Qed.


(** The schedule that fires every minute. *)
Definition every_minute : Schedule.t := Schedule.mk "* * * * *" nextTick.

Lemma every_minute_spec : cron_spec (fun u => (minute_ns | u)%Z) nextTick.
Proof.
  split.
  - intros t. unfold nextTick. change (60 * second_ns)%Z with minute_ns.
    pose proof (Truncate_le minute_ns (t + minute_ns) ltac:(done)). lia.
  - intros t. unfold nextTick. by apply Truncate_divide.
  - intros t u Hu [k ->]. unfold nextTick. change (60 * second_ns)%Z with minute_ns.
    pose proof (Truncate_divide minute_ns (t + minute_ns) ltac:(done)) as [m Hm].
    pose proof (Truncate_le minute_ns (t + minute_ns) ltac:(done)) as Hle.
    rewrite Hm in *. unfold minute_ns in *. lia.
  - done.
Qed.

Definition cron_dag : DAG.t :=
  DAG.set_Schedule (DAG.set_Location DAG.empty "/dags/a.yaml") [every_minute].


(** C12: a job is never started a second time for the same activation, nor while
    a run is in progress: if the latest run is running, or was recorded as
    started in or after the minute of the activation, [Start] is refused. If the
    latest run started before that minute and is over, [Start] goes through,
    except that with [skipIfSuccessful] a success since the previous activation
    stops it. *)
Theorem job_Start_once (fmt : Z -> string) (parse legacy : string -> option Z) (job : dagJob)
    (st : MStatus.t) (t : Z)
    (Hparse : forall t, t <> 0%Z -> parse (fmt t) = Some (whole_second t))
    (Hdash : forall t, fmt t <> timeEmpty)
    (Hnext : (minute_ns | job_Next job)%Z) (Hst : MStatus.StartedAt st = FormatTime fmt t) :
  (MStatus.Status st = StatusRunning \/ (job_Next job <= t)%Z ->
     exists e, job_Start parse legacy job (Ok st) = Err e) /\
  (MStatus.Status st <> StatusRunning -> (t < job_Next job)%Z ->
     job_Start parse legacy job (Ok st) =
       if DAG.SkipIfSuccessful (job_DAG job) && bool_decide (MStatus.Status st = StatusSuccess) &&
          (prevExecTime job <=? Truncate minute_ns (whole_second t))%Z
       then Err ErrJobSuccess else Ok CallStart).
Proof.
  unfold job_Start. split.
  - intros Hrun. destruct (bool_decide (MStatus.Status st = StatusRunning)) eqn:Hr; [by eexists|].
    apply bool_decide_eq_false in Hr. destruct Hrun as [?|Hle]; [done|].
    unfold ready. rewrite bool_decide_false by done. rewrite Hst, (ParseTime_FormatTime fmt) by done.
    assert (job_Next job <= Truncate minute_ns (whole_second t))%Z as Hle'.
    { destruct Hnext as [k Hk]. unfold Truncate, whole_second, minute_ns in *. rewrite Hk in *.
      pose proof (Z.mod_pos_bound t 1000000000 ltac:(lia)).
      pose proof (Z.div_mod t 1000000000 ltac:(lia)).
      set (u := (t - t mod 1000000000)%Z) in *.
      pose proof (Z.mod_pos_bound u 60000000000 ltac:(lia)).
      pose proof (Z.div_mod u 60000000000 ltac:(lia)). lia. }
    destruct (job_Next job <? Truncate minute_ns (whole_second t))%Z eqn:E1; simpl; [by eexists|].
    apply Z.ltb_ge in E1. rewrite (proj2 (Z.eqb_eq _ _)) by lia. by eexists.
  - intros Hr Hlt. rewrite bool_decide_false by done. unfold ready. rewrite bool_decide_false by done.
    rewrite Hst, (ParseTime_FormatTime fmt) by done.
    assert (Truncate minute_ns (whole_second t) < job_Next job)%Z as Hlt'.
    { pose proof (Truncate_le minute_ns (whole_second t) ltac:(done)).
      unfold whole_second in *. pose proof (Z.mod_pos_bound t 1000000000 ltac:(lia)). lia. }
    rewrite (proj2 (Z.ltb_ge _ _)) by lia. rewrite (proj2 (Z.eqb_neq _ _)) by lia. simpl.
    unfold skipIfSuccessful. destruct (DAG.SkipIfSuccessful (job_DAG job)); simpl; [|done].
    destruct (decide (MStatus.Status st = StatusSuccess)) as [Hs|Hs].
    + rewrite bool_decide_false by tauto. rewrite bool_decide_true by done. simpl.
      rewrite (proj2 (Z.ltb_lt _ (job_Next job))) by lia. rewrite andb_true_r.
      destruct (Z.ltb_spec (prevExecTime job) (Truncate minute_ns (whole_second t))),
        (Z.eqb_spec (Truncate minute_ns (whole_second t)) (prevExecTime job)),
        (Z.leb_spec (prevExecTime job) (Truncate minute_ns (whole_second t))); simpl; done || lia.
    + rewrite bool_decide_true by done. rewrite bool_decide_false by done. done.
Qed.

(** A time format for the witness: the seconds in binary, least digit first. *)
Fixpoint digits (p : positive) : string :=
  match p with
  | xH => "1"
  | xO p => String.String "0"%char (digits p)
  | xI p => String.String "1"%char (digits p)
  end.

Fixpoint undigits (s : string) : option positive :=
  match s with
  | String.String "1"%char String.EmptyString => Some xH
  | String.String "1"%char s => xI <$> undigits s
  | String.String "0"%char s => xO <$> undigits s
  | _ => None
  end.

Lemma undigits_digits p : undigits (digits p) = Some p.
Proof.
  induction p as [p IH|p IH|]; simpl; [|by rewrite IH|done].
  rewrite IH. by destruct p.
Qed.

Definition binary_time (t : Z) : string :=
  match whole_second t with
  | Z0 => "z"
  | Zpos p => String.append "p" (digits p)
  | Zneg p => String.append "n" (digits p)
  end.

Definition parse_binary_time (s : string) : option Z :=
  match s with
  | String.String "z"%char String.EmptyString => Some 0%Z
  | String.String "p"%char s => Zpos <$> undigits s
  | String.String "n"%char s => Zneg <$> undigits s
  | _ => None
  end.

Lemma parse_binary_time_ok t : parse_binary_time (binary_time t) = Some (whole_second t).
Proof.
  unfold binary_time. destruct (whole_second t) as [|p|p]; [done|..];
    (etrans; [exact (f_equal _ (undigits_digits p))|done]).
Qed.

Lemma binary_time_not_dash t : binary_time t <> timeEmpty.
Proof. unfold binary_time. by destruct (whole_second t). Qed.

Definition minute_job : dagJob := mkJob cron_dag 120000000000 nextTick.
Definition started_at (t : Z) : MStatus.t :=
  Create binary_time cron_dag "req" StatusSuccess 7 t [].

Lemma job_Start_once_witness :
  job_Start parse_binary_time parse_binary_time minute_job (Ok (started_at 119000000000)) = Ok CallStart /\
  (MStatus.Status (started_at 121000000000) = StatusRunning \/ (120000000000 <= 121000000000)%Z ->
     exists e, job_Start parse_binary_time parse_binary_time minute_job (Ok (started_at 121000000000)) = Err e) /\
  (MStatus.Status (started_at 121000000000) <> StatusRunning -> (121000000000 < 120000000000)%Z ->
     job_Start parse_binary_time parse_binary_time minute_job (Ok (started_at 121000000000)) =
       if DAG.SkipIfSuccessful cron_dag && bool_decide (MStatus.Status (started_at 121000000000) = StatusSuccess) &&
          (prevExecTime minute_job <=? Truncate minute_ns (whole_second 121000000000))%Z
       then Err ErrJobSuccess else Ok CallStart).
Proof.
  split; [vm_compute; reflexivity|].
  refine (job_Start_once binary_time parse_binary_time parse_binary_time minute_job
    (started_at 121000000000) 121000000000 _ binary_time_not_dash _ eq_refl).
  - intros t _. apply parse_binary_time_ok.
  - exists 2%Z. reflexivity.
Defined.

Lemma initialize_lookup load entries name dag :
  initialize load entries ∅ !! name = Some dag <->
  name ∈ entries /\ IsYAMLFile name = true /\ load name = Ok dag.
Proof.
  unfold initialize. induction entries as [|e es IH] using rev_ind.
  - simpl. rewrite lookup_empty. split; [done|]. by intros [?%elem_of_nil _].
  - rewrite foldl_app. simpl. rewrite elem_of_app, list_elem_of_singleton. unfold register at 1.
    destruct (decide (name = e)) as [<-|Hne].
    + destruct (IsYAMLFile name); [|rewrite IH; split; [intros (_ & ? & _)|intros (_ & ? & _)]; done].
      destruct (load name) as [d|err].
      * rewrite lookup_insert_eq. split; [intros [= ->]; auto|by intros (_ & _ & [= ->])].
      * rewrite IH. split; intros (_ & _ & ?); done.
    + assert (forall d, <[e:=d]> (foldl (register load) ∅ es) !! name = foldl (register load) ∅ es !! name) as Hi.
      { intros d. by apply lookup_insert_ne. }
      destruct (IsYAMLFile e), (load e); rewrite ?Hi, IH; tauto.
Qed.

(** The manager's registry mirrors the directory: after [initialize] it maps
    exactly the YAML names of the directory that load to the workflow they load,
    and each later event on a YAML file changes that one entry only: to the newly
    loaded workflow on a creation or a write that loads, to nothing on a removal
    or a renaming; a file that does not load keeps its last good version. *)
Theorem registry_mirrors_directory (load : string -> result DAG.t) (entries : list string)
    (name : string) (dag : DAG.t) (m : registry) (op : Z) (path key : string) :
  (initialize load entries ∅ !! name = Some dag <->
     name ∈ entries /\ IsYAMLFile name = true /\ load name = Ok dag) /\
  on_event load m (path, op) !! key =
    if IsYAMLFile path && bool_decide (key = Base path) then
      if ((op =? OpRename) || (op =? OpRemove))%Z then None
      else if ((op =? OpCreate) || (op =? OpWrite))%Z then
        match load (Base path) with Ok d => Some d | Err _ => m !! key end
      else m !! key
    else m !! key.
Proof.
  split.
  - apply initialize_lookup.
  - unfold on_event. destruct (IsYAMLFile path); simpl; [|done].
    assert (((op =? OpCreate) || (op =? OpWrite))%Z && ((op =? OpRename) || (op =? OpRemove))%Z = false) as Hex.
    { unfold OpCreate, OpWrite, OpRename, OpRemove.
      destruct (Z.eqb_spec op 1), (Z.eqb_spec op 2), (Z.eqb_spec op 8), (Z.eqb_spec op 4); simpl; done || lia. }
    destruct (((op =? OpRename) || (op =? OpRemove))%Z) eqn:Er.
    + rewrite andb_true_r in Hex. rewrite Hex.
      case_bool_decide; subst; [apply lookup_delete_eq|by rewrite lookup_delete_ne].
    + destruct (((op =? OpCreate) || (op =? OpWrite))%Z); [|by case_bool_decide].
      destruct (load (Base path)); case_bool_decide; subst; [apply lookup_insert_eq|by rewrite lookup_insert_ne|done..].
Qed.
