(* ===== verification/History.v ===== *)
(** * The history store: internal/persistence/jsondb/{jsondb,writer}.go

    One file per run, one JSON document per line, the last one being the status
    of the run.  The file system is a map from paths to contents; an [os]
    record says how each system call of an operation ends, and which directories
    exist.  The JSON codec, the
    MD5 digest and the formats of the [time] package are arguments.  The store
    is modelled without its optional cache (see JsonStore). *)

From S2P Require Import Prelude GoStrings Vars Digraph NodeData Paths Node Sched Model.
From Stdlib Require Import Ascii.

Record file := mkFile { f_content : bytes; f_mtime : Z }.

Abbreviation fs := (gmap string file).

(** How system calls end: the error for a path, if any; a failing write leaves
    the given number of bytes. *)
Record os := mkOs {
  os_now : Z;
  os_exists : string -> bool;
  os_mkdir : string -> option error;
  os_open : string -> option error;
  os_write : string -> option (nat * error);
  os_close : string -> option error;
  os_remove : string -> option error;
  os_rename : string -> option error
}.

Definition nl : ascii := "010"%char.
Definition cr : ascii := "013"%char.

Definition ErrWriterClosed : error := ENew "writer is closed".
Definition ErrWriterNotOpen : error := ENew "writer is not open".
Definition ErrEOF : error := ENew "EOF".
Definition ErrNotExist : error := ENew "file does not exist".
Definition errRequestIDNotFound : error := ENew "request ID not found".
Definition errCreateNewDirectory : error := ENew "failed to create new directory".
Definition errKeyEmpty : error := ENew "dagFile is empty".
Definition ErrRequestIDNotFound : error := ENew "request id not found".
Definition ErrNoStatusDataToday : error := ENew "no status data today".
Definition ErrNoStatusData : error := ENew "no status data".

(** ** Reading (ParseStatusFile, readLineFrom) *)

(** [bufio.Reader.ReadLine]: the bytes before the newline, without a carriage
    return before it; a last line without a newline is kept whole. *)
Fixpoint line_end (l : bytes) : bytes * bool :=
  match l with
  | [] => ([], false)
  | c :: l' => if bool_decide (c = nl) then ([], true)
               else let '(a, b) := line_end l' in (c :: a, b)
  end.

Fixpoint strip_cr (l : bytes) : bytes :=
  match l with
  | [] => []
  | [c] => if bool_decide (c = cr) then [] else [c]
  | c :: l' => c :: strip_cr l'
  end.

(** The reader's buffer holds 4096 bytes.  A last line without a newline that
    fills its last buffer exactly is lost: the next read answers EOF before the
    line is returned.  A carriage return at the end of a buffer is read again. *)
Definition bufferSize : nat := 4096.

Fixpoint lost_at_eof (fuel : nat) (l : bytes) : bool :=
  match fuel with
  | 0 => false
  | S k =>
      if length l <? bufferSize then false
      else
        let rest := drop bufferSize l in
        if bool_decide (l !! (bufferSize - 1) = Some cr) then lost_at_eof k (cr :: rest)
        else match rest with [] => true | _ => lost_at_eof k rest end
  end.

Definition readLineFrom (content : bytes) (offset : nat) : option bytes :=
  match drop offset content with
  | [] => None
  | rest =>
      let '(line, ended) := line_end rest in
      if ended : bool then Some (strip_cr line)
      else if lost_at_eof (length line) line then None else Some line
  end.

Section codec.
(** [json.Marshal] and [json.Unmarshal] of a status. *)
Context (marshal : MStatus.t -> result string).
Context (unmarshal : string -> option MStatus.t).

(** The loop of [ParseStatusFile]; the offset grows at every turn, so the length
    of the file bounds the turns. *)
Fixpoint parse_loop (fuel : nat) (content : bytes) (offset : nat) (res : option MStatus.t)
    : option MStatus.t :=
  match fuel with
  | 0 => res
  | S k =>
      match readLineFrom content offset with
      | None => res
      | Some line =>
          let res := match line with
                     | [] => res
                     | _ => match unmarshal (l2s line) with Some st => Some st | None => res end
                     end in
          parse_loop k content (offset + length line + 1) res
      end
  end.

Definition parse_content (content : bytes) : option MStatus.t :=
  parse_loop (S (length content)) content 0 None.

Definition ParseStatusFile (f : fs) (filePath : string) : result MStatus.t :=
  match f !! filePath with
  | None => Err ErrNotExist
  | Some fl => match parse_content (f_content fl) with
               | Some st => Ok st
               | None => Err ErrEOF
               end
  end.

(** ** The writer (writer.go) *)

Record writer := mkWriter { w_target : string; w_opened : bool; w_closed : bool }.

Definition newWriter (target : string) : writer := mkWriter target false false.

Section ops.
Context (o : os).

Definition writer_open (f : fs) (w : writer) : fs * (writer * option error) :=
  if w_closed w then (f, (w, Some ErrWriterClosed))
  else match os_mkdir o (Dir (w_target w)) with
       | Some e => (f, (w, Some e))
       | None =>
           match os_open o (w_target w) with
           | Some e => (f, (w, Some e))
           | None =>
               (match f !! w_target w with
                | Some _ => f
                | None => <[w_target w := mkFile [] (os_now o)]> f
                end, (mkWriter (w_target w) true false, None))
           end
       end.

Definition append_bytes (b : bytes) (fl : file) : file := mkFile (f_content fl ++ b) (os_now o).

(** A document and its newline are appended in one flush. *)
Definition writer_write (f : fs) (w : writer) (st : MStatus.t) : fs * option error :=
  if w_closed w then (f, Some ErrWriterClosed)
  else if negb (w_opened w) then (f, Some ErrWriterNotOpen)
  else match marshal st with
       | Err e => (f, Some e)
       | Ok json =>
           let data := s2l json ++ [nl] in
           match os_write o (w_target w) with
           | Some (n, e) => (alter (append_bytes (take n data)) (w_target w) f, Some e)
           | None => (alter (append_bytes data) (w_target w) f, None)
           end
       end.

Definition writer_close (w : writer) : writer * option error :=
  if w_closed w then (w, None)
  else (mkWriter (w_target w) false true, if w_opened w then os_close o (w_target w) else None).

Definition remove (f : fs) (p : string) : fs * option error :=
  match f !! p with
  | None => (f, Some ErrNotExist)
  | Some _ => match os_remove o p with Some e => (f, Some e) | None => (delete p f, None) end
  end.

Definition rename (f : fs) (old new : string) : fs * option error :=
  match f !! old with
  | None => (f, Some ErrNotExist)
  | Some fl =>
      match os_rename o old with
      | Some e => (f, Some e)
      | None => (<[new := fl]> (delete old f), None)
      end
  end.

(** ** Compaction *)

Definition temp_path (target : string) : string :=
  Join [Dir target; trim_suffix (Base target) (Ext target) +:+ "_c.dat"].

Definition Compact (f : fs) (target : string) : fs * option error :=
  match ParseStatusFile f target with
  | Err e => if bool_decide (e = ErrEOF) then (f, None) else (f, Some (EWrap "" e (": " +:+ target)))
  | Ok status =>
      let temp := temp_path target in
      match writer_open f (newWriter temp) with
      | (f, (_, Some e)) => (f, Some e)
      | (f, (w, None)) =>
          match writer_write f w status with
          | (f, Some e) =>
              match remove f temp with
              | (f, Some re) => (f, Some (EWrap "" e (": " +:+ error_text re)))
              | (f, None) => (f, Some (EWrap "" e (": " +:+ temp)))
              end
          | (f, None) =>
              match remove f target with
              | (f, Some e) => (f, Some (EWrap "" e (": " +:+ target)))
              | (f, None) =>
                  match rename f temp target with
                  | (f, Some e) => (f, Some (EWrap "" e (": " +:+ target)))
                  | (f, None) => (f, None)
                  end
              end
          end
      end
  end.

End ops.
End codec.

(** ** Names of files *)

Definition getPrefix (key : string) : string :=
  if bool_decide (Ext key = "") then Base key
  else if IsYAMLFile key then trim_suffix (Base key) (Ext key)
  else Base key.

Section names.
Context (baseDir : string).
(** [hex.EncodeToString] of the MD5 digest; [Time.Format] with the UTC layout. *)
Context (md5hex : string -> string) (fmt_utc : Z -> string).

Definition getDirectory (key prefix : string) : string :=
  if bool_decide (key <> prefix) then Join [baseDir; prefix +:+ "-" +:+ md5hex key]
  else Join [baseDir; key].

Definition createPrefix (key : string) : string :=
  let prefix := getPrefix key in Join [getDirectory key prefix; prefix].

Definition globPattern (key : string) : string * string := (createPrefix key, ".dat").

Definition requestIDLenSafe : nat := 8.

Definition generateFilePath (key : string) (timestamp : Z) (requestID : string) : result string :=
  if bool_decide (key = "") then Err errKeyEmpty
  else Ok (createPrefix key +:+ "." +:+ fmt_utc timestamp +:+ "." +:+
           TruncString requestID requestIDLenSafe +:+ ".dat").

End names.

(** [filepath.Glob] of a literal prefix, one star and a literal suffix: the star
    does not match a slash; the names come in order. *)
Definition glob_match (pattern : string * string) (name : string) : bool :=
  has_prefix name (fst pattern) &&
  has_suffix name (snd pattern) &&
  (String.length (fst pattern) + String.length (snd pattern) <=? String.length name) &&
  negb (contains (l2s (drop (String.length (fst pattern)) (s2l name))) "/").

Definition glob (f : fs) (pattern : string * string) : list string :=
  merge_sort String.le (filter (fun n => glob_match pattern n = true) (fst <$> map_to_list f)).

(** ** Timestamps in names *)

(** The first text of a name that looks like a timestamp. *)
Definition digit (c : ascii) : bool := (48 <=? nat_of_ascii c) && (nat_of_ascii c <=? 57).

(** [d] stands for a digit, any other character for itself. *)
Fixpoint shape (pat : string) (l : bytes) : option bytes :=
  match pat, l with
  | String.EmptyString, _ => Some []
  | String.String "d"%char pat, c :: l => if digit c then cons c <$> shape pat l else None
  | String.String p pat, c :: l => if bool_decide (c = p) then cons c <$> shape pat l else None
  | _, [] => None
  end.

(** [rTimestamp]: the alternative without the final Z is tried first, and
    matches whenever the other one would. *)
Definition timestamp_shape : string := "2ddddddd.dd:dd:dd.ddd".

Fixpoint find_shape (l : bytes) : bytes :=
  match shape timestamp_shape l with
  | Some m => m
  | None => match l with [] => [] | _ :: l' => find_shape l' end
  end.

Section times.
(** [time.Parse] with the layouts without and with the Z. *)
Context (parse_plain parse_utc : string -> option Z).

(** Both branches fall back on the zero time. *)
Definition findTimestamp (f : string) : Z :=
  let ts := l2s (find_shape (s2l f)) in
  if negb (contains ts "Z") then default 0%Z (parse_plain ts) else default 0%Z (parse_utc ts).

(** The latest files first ([sort.Slice] by descending timestamp). *)
Definition later (a b : string) : Prop := (findTimestamp b <= findTimestamp a)%Z.
#[export] Instance later_dec a b : Decision (later a b).
Proof. unfold later. apply _. Defined.

Definition filterLatest (files : list string) (itemLimit : nat) : list string :=
  take itemLimit (merge_sort later files).

End times.

(** ** The store *)

Section store.
Context (marshal : MStatus.t -> result string) (unmarshal : string -> option MStatus.t).
Context (baseDir : string) (md5hex : string -> string) (fmt_utc : Z -> string).
Context (parse_plain parse_utc : string -> option Z).
Context (latestStatusToday : bool).
Context (o : os).

Abbreviation parse := (ParseStatusFile unmarshal).
Abbreviation pattern := (globPattern baseDir md5hex).

Record StatusFile := mkStatusFile { sf_File : string; sf_Status : MStatus.t }.

(** The open writer, and the files. *)
Abbreviation db := (option writer * fs)%type.

Definition db_Open (key : string) (timestamp : Z) (requestID : string) (s : db) : db * option error :=
  match generateFilePath baseDir md5hex fmt_utc key timestamp requestID with
  | Err e => (s, Some e)
  | Ok filePath =>
      match writer_open o (snd s) (newWriter filePath) with
      | (f, (_, Some e)) => ((fst s, f), Some e)
      | (f, (w, None)) => ((Some w, f), None)
      end
  end.

(** [Write] on a store that was not opened dereferences nil. *)
Definition db_Write (status : MStatus.t) (s : db) : db * option error :=
  match fst s with
  | None => (s, Some (panic "nil writer"))
  | Some w => let '(f, e) := writer_write marshal o (snd s) w status in ((Some w, f), e)
  end.

(** [Close]: compaction, then the writer is closed whatever happened. *)
Definition db_Close (s : db) : db * option error :=
  match fst s with
  | None => (s, None)
  | Some w =>
      match Compact marshal unmarshal o (snd s) (w_target w) with
      | (f, Some e) => ((None, f), Some e)
      | (f, None) => ((None, f), snd (writer_close o w))
      end
  end.

(** The first file, latest name first, that holds the request. *)
Fixpoint find_request (f : fs) (requestID : string) (matches : list string) : option StatusFile :=
  match matches with
  | [] => None
  | m :: ms =>
      match parse f m with
      | Ok st => if bool_decide (MStatus.RequestID st = requestID) then Some (mkStatusFile m st)
                 else find_request f requestID ms
      | Err _ => find_request f requestID ms
      end
  end.

Definition FindByRequestID (f : fs) (key requestID : string) : result StatusFile :=
  if bool_decide (requestID = "") then Err errRequestIDNotFound
  else match find_request f requestID (rev (glob f (pattern key))) with
       | Some sf => Ok sf
       | None => Err (EWrap "" ErrRequestIDNotFound (" : " +:+ requestID))
       end.

Definition Update (f : fs) (key requestID : string) (status : MStatus.t) : fs * option error :=
  match FindByRequestID f key requestID with
  | Err e => (f, Some e)
  | Ok sf =>
      match writer_open o f (newWriter (sf_File sf)) with
      | (f, (_, Some e)) => (f, Some e)
      | (f, (w, None)) => writer_write marshal o f w status
      end
  end.

Definition getLatestMatches (f : fs) (pattern : string * string) (itemLimit : nat) : list string :=
  filterLatest parse_plain parse_utc (glob f pattern) itemLimit.

Definition ReadStatusRecent (f : fs) (key : string) (itemLimit : nat) : list StatusFile :=
  omap (fun file => match parse f file with
                    | Ok st => Some (mkStatusFile file st)
                    | Err _ => None
                    end)
       (getLatestMatches f (pattern key) itemLimit).

Definition day_ns : Z := 86400000000000.

(** [latestToday]: the pattern [prefix.*.*.dat] is [prefix*.dat] with a dot after
    the prefix and another one before the suffix; the day starts at midnight UTC
    ([Truncate]). *)
Definition latestToday (f : fs) (key : string) (day : Z) : result string :=
  let prefix := createPrefix baseDir md5hex key +:+ "." in
  let matches := filter (fun n => has_prefix n prefix &&
                                  contains (trim_suffix (trim_prefix n prefix) ".dat") "." = true)
                        (glob f (pattern key)) in
  match matches with
  | [] => Err ErrNoStatusDataToday
  | _ =>
      match filterLatest parse_plain parse_utc matches 1 with
      | [] => Err ErrNoStatusData
      | file :: _ =>
          if latestStatusToday && (findTimestamp parse_plain parse_utc file <? day - day mod day_ns)%Z
          then Err ErrNoStatusDataToday else Ok file
      end
  end.

Definition ReadStatusToday (f : fs) (key : string) (now : Z) : result MStatus.t :=
  match latestToday f key now with
  | Err e => Err e
  | Ok file => parse f file
  end.

(** [RemoveOld]: [oldDate] is [time.Now] less the retention days; the last error
    of a removal is returned. *)
Definition remove_old (oldDate : Z) (acc : fs * option error) (m : string) : fs * option error :=
  let '(f, lastErr) := acc in
  match f !! m with
  | None => (f, lastErr)
  | Some fl =>
      if (f_mtime fl <? oldDate)%Z then
        match remove o f m with
        | (f, Some e) => (f, Some e)
        | (f, None) => (f, lastErr)
        end
      else (f, lastErr)
  end.

Definition RemoveOld (f : fs) (key : string) (retentionDays oldDate : Z) : fs * option error :=
  if (retentionDays <? 0)%Z then (f, None)
  else foldl (remove_old oldDate) (f, None) (glob f (pattern key)).

Definition RemoveAll (f : fs) (key : string) : fs * option error := RemoveOld f key 0 (os_now o).

(** [Rename]: the files of the old key move to the directory of the new one; a
    file that cannot be renamed is logged and left.  Directories are not part of
    the map: the removal of the empty old one is not modelled. *)
Definition replace_first (s old new : string) : string :=
  match cutl (s2l old) (s2l s) with
  | Some (a, b) => l2s (a ++ s2l new ++ b)
  | None => s
  end.

Definition Rename (f : fs) (oldKey newKey : string) : fs * option error :=
  if negb (IsAbs oldKey) || negb (IsAbs newKey) then
    (f, Some (ENew ("invalid path: " +:+ oldKey +:+ " -> " +:+ newKey)))
  else
    let oldDir := getDirectory baseDir md5hex oldKey (getPrefix oldKey) in
    let newDir := getDirectory baseDir md5hex newKey (getPrefix newKey) in
    if negb (os_exists o oldDir) then (f, None)
    else match (if os_exists o newDir then None else os_mkdir o newDir) with
    | Some e => (f, Some (EWrap "" errCreateNewDirectory (": " +:+ newDir +:+ " : " +:+ error_text e)))
    | None =>
        let oldPrefix := Base (createPrefix baseDir md5hex oldKey) in
        let newPrefix := Base (createPrefix baseDir md5hex newKey) in
        (foldl (fun f m => fst (rename o f m (Join [newDir; replace_first (Base m) oldPrefix newPrefix])))
               f (glob f (pattern oldKey)), None)
    end.

End store.

(** ** Lemmas: reading back what was written *)

Lemma line_end_nl l rest : nl ∉ l -> line_end (l ++ nl :: rest) = (l, true).
Proof.
  induction l as [|c l IH]; intros Hl; simpl; [done|].
  apply not_elem_of_cons in Hl as [Hc Hl]. rewrite bool_decide_false by done. by rewrite IH.
Qed.

Lemma strip_cr_keep l : last l <> Some cr -> strip_cr l = l.
Proof.
  induction l as [|c l IH]; intros Hl; [done|]. destruct l as [|c' l].
  - simpl in *. rewrite bool_decide_false; [done|congruence].
  - change (strip_cr (c :: c' :: l)) with (c :: strip_cr (c' :: l)). f_equal. apply IH. exact Hl.
Qed.

(** The contents made of whole lines. *)
Definition lines (ls : list bytes) : bytes := ls ≫= (fun l => l ++ [nl]).

Section read_back.
Context (unmarshal : string -> option MStatus.t).

Abbreviation loop := (parse_loop unmarshal).

Lemma readLineFrom_line pre l rest :
  nl ∉ l -> readLineFrom (pre ++ l ++ nl :: rest) (length pre) = Some (strip_cr l).
Proof.
  intros Hl. unfold readLineFrom. rewrite drop_app_length.
  destruct (l ++ nl :: rest) as [|c r] eqn:E; [by destruct l|].
  rewrite <- E, line_end_nl by done. done.
Qed.

Lemma strip_cr_length l : length (strip_cr l) = length l \/ exists l', l = l' ++ [cr] /\ strip_cr l = l'.
Proof.
  induction l as [|c l IH]; [by left|]. destruct l as [|c' l].
  - simpl. case_bool_decide; [right; exists []; by subst|by left].
  - change (strip_cr (c :: c' :: l)) with (c :: strip_cr (c' :: l)).
    destruct IH as [IH|(l' & E & Hs)]; [left; simpl in *; lia|right].
    exists (c :: l'). rewrite Hs. by rewrite E.
Qed.

(** The loop passes over a line, in one turn or, after a carriage return, in two. *)
Lemma loop_line pre l rest fuel acc :
  nl ∉ l -> S (length l + length rest) < fuel ->
  exists fuel' acc', length rest < fuel' /\
    loop fuel (pre ++ l ++ nl :: rest) (length pre) acc =
    loop fuel' (pre ++ l ++ nl :: rest) (length pre + length l + 1) acc'.
Proof.
  intros Hl Hf. destruct fuel as [|fuel]; [lia|]. simpl. rewrite readLineFrom_line by done.
  set (acc1 := match strip_cr l with [] => acc | _ => _ end).
  destruct (strip_cr_length l) as [Hn|(l' & -> & Hs)].
  - rewrite Hn. exists fuel, acc1. split; [lia|done].
  - rewrite Hs. rewrite length_app in *. simpl in *.
    destruct fuel as [|fuel]; [lia|]. simpl.
    assert (readLineFrom (pre ++ (l' ++ [cr]) ++ nl :: rest) (length pre + length l' + 1) = Some []) as Hr.
    { replace (pre ++ (l' ++ [cr]) ++ nl :: rest) with ((pre ++ l' ++ [cr]) ++ [] ++ nl :: rest)
        by (by rewrite <- !app_assoc).
      replace (length pre + length l' + 1) with (length (pre ++ l' ++ [cr])) by (rewrite !length_app; simpl; lia).
      apply readLineFrom_line. apply not_elem_of_nil. }
    rewrite Hr. exists fuel, acc1. split; [lia|]. f_equal; simpl; lia.
Qed.

Lemma loop_lines ls pre rest fuel acc :
  Forall (fun l => nl ∉ l) ls -> length (lines ls) + length rest < fuel ->
  exists fuel' acc', length rest < fuel' /\
    loop fuel (pre ++ lines ls ++ rest) (length pre) acc =
    loop fuel' (pre ++ lines ls ++ rest) (length pre + length (lines ls)) acc'.
Proof.
  intros Hls. revert pre fuel acc. induction Hls as [|l ls Hl Hls IH]; intros pre fuel acc Hf.
  - exists fuel, acc. simpl in *. split; [lia|]. f_equal. lia.
  - assert (lines (l :: ls) = l ++ nl :: lines ls) as E by (unfold lines; simpl; by rewrite <- app_assoc).
    rewrite E in *. rewrite length_app in Hf. simpl in Hf.
    replace (pre ++ (l ++ nl :: lines ls) ++ rest) with (pre ++ l ++ nl :: (lines ls ++ rest))
      by (by rewrite <- app_assoc).
    destruct (loop_line pre l (lines ls ++ rest) fuel acc Hl) as (f1 & a1 & Hf1 & ->).
    { rewrite length_app. lia. }
    replace (pre ++ l ++ nl :: lines ls ++ rest) with ((pre ++ l ++ [nl]) ++ lines ls ++ rest)
      by (by rewrite <- !app_assoc).
    destruct (IH (pre ++ l ++ [nl]) f1 a1) as (f2 & a2 & Hf2 & Heq); [rewrite length_app in Hf1; lia|].
    exists f2, a2. split; [done|]. rewrite !length_app in *. simpl in *.
    replace (length pre + length l + 1) with (length pre + (length l + 1)) by lia.
    rewrite Heq. f_equal. lia.
Qed.

(** A line that parses, written after whole lines, is the status of the file. *)
Lemma parse_content_last ls l st :
  Forall (fun l => nl ∉ l) ls -> nl ∉ l -> last l <> Some cr -> l <> [] ->
  unmarshal (l2s l) = Some st ->
  parse_content unmarshal (lines ls ++ l ++ [nl]) = Some st.
Proof.
  intros Hls Hl Hcr Hne Hun. unfold parse_content.
  destruct (loop_lines ls [] (l ++ [nl]) (S (length (lines ls ++ l ++ [nl]))) None Hls)
    as (fuel & acc & Hf & Heq).
  { rewrite !length_app. simpl. lia. }
  etrans; [exact Heq|]. cbn [length app Nat.add]. rewrite length_app in Hf. simpl in Hf.
  destruct fuel as [|fuel]; [lia|]. cbn [parse_loop]. rewrite readLineFrom_line by done.
  rewrite strip_cr_keep by done. rewrite Hun. destruct l as [|c l]; [done|].
  destruct fuel as [|fuel]; [simpl in *; lia|]. cbn [parse_loop].
  assert (readLineFrom (lines ls ++ (c :: l) ++ [nl]) (length (lines ls) + length (c :: l) + 1) = None) as ->; [|done].
  unfold readLineFrom. rewrite drop_ge; [done|]. rewrite !length_app. simpl. lia.
Qed.

End read_back.
