(* ===== verification/HistoryProps.v ===== *)
(** * Properties of the history store

    What is written is read back; compaction keeps the status whatever system
    call fails; an update is found again. *)

From S2P Require Import Prelude GoStrings Vars Digraph NodeData Paths Node Sched Model History.
From Stdlib Require Import Ascii.

Section codec.
Context (marshal : MStatus.t -> result string) (unmarshal : string -> option MStatus.t).

(** What [encoding/json] guarantees of a status it can encode: a nonempty text on
    one line that decodes to the status. *)
Record encodable (st : MStatus.t) (j : string) : Prop := mk_encodable {
  enc_marshal : marshal st = Ok j;
  enc_line : nl ∉ s2l j;
  enc_cr : last (s2l j) <> Some cr;
  enc_nonempty : s2l j <> [];
  enc_unmarshal : unmarshal j = Some st
}.

(** Contents in which every document has its newline. *)
Definition whole (content : bytes) : Prop := exists ls, content = lines ls /\ Forall (fun l => nl ∉ l) ls.

Lemma whole_nil : whole [].
Proof. by exists []. Qed.

Lemma whole_snoc content l : whole content -> nl ∉ l -> whole (content ++ l ++ [nl]).
Proof.
  intros (ls & -> & Hls) Hl. exists (ls ++ [l]). split.
  - unfold lines. rewrite bind_app. simpl. by rewrite app_nil_r.
  - apply Forall_app. split; [done|]. by constructor.
Qed.

Lemma parse_whole_snoc content st j :
  whole content -> encodable st j -> parse_content unmarshal (content ++ s2l j ++ [nl]) = Some st.
Proof.
  intros (ls & -> & Hls) [_ Hl Hcr Hne Hun]. apply parse_content_last; try done. by rewrite l2s_s2l.
Qed.

Abbreviation parse := (ParseStatusFile unmarshal).

(** A successful write on an open writer. *)
Lemma write_ok o f w st j fl :
  encodable st j -> w_closed w = false -> w_opened w = true -> f !! w_target w = Some fl ->
  os_write o (w_target w) = None ->
  writer_write marshal o f w st =
    (<[w_target w := mkFile (f_content fl ++ s2l j ++ [nl]) (os_now o)]> f, None).
Proof.
  intros He Hc Ho Hf Hw. unfold writer_write. rewrite Hc, Ho, (enc_marshal _ _ He), Hw. simpl. f_equal.
  apply map_eq. intros p. destruct (decide (p = w_target w)) as [->|Hp].
  - by rewrite lookup_alter_eq, lookup_insert_eq, Hf.
  - by rewrite lookup_alter_ne, lookup_insert_ne.
Qed.

(** The writes of a run, none of which fails. *)
Fixpoint write_all (o : os) (f : fs) (w : writer) (sts : list MStatus.t) : option fs :=
  match sts with
  | [] => Some f
  | st :: sts =>
      match writer_write marshal o f w st with
      | (f, None) => write_all o f w sts
      | (_, Some _) => None
      end
  end.

Lemma write_all_spec o w sts : forall f fl,
  Forall (fun st => exists j, encodable st j) sts -> w_closed w = false -> w_opened w = true ->
  os_write o (w_target w) = None -> f !! w_target w = Some fl -> whole (f_content fl) ->
  exists f' fl', write_all o f w sts = Some f' /\ f' !! w_target w = Some fl' /\ whole (f_content fl') /\
    (forall p, p <> w_target w -> f' !! p = f !! p) /\
    (forall st, last sts = Some st -> parse f' (w_target w) = Ok st).
Proof.
  induction sts as [|st sts IH]; intros f fl Hs Hc Ho Hw Hf Hwh.
  { by exists f, fl. }
  apply Forall_cons_iff in Hs as [(j & He) Hs]. simpl. rewrite (write_ok o f w st j fl) by done.
  set (fl1 := mkFile _ _). set (f1 := <[_:=_]> f).
  assert (f1 !! w_target w = Some fl1) as Hf1 by apply lookup_insert_eq.
  assert (whole (f_content fl1)) as Hwh1 by (apply whole_snoc; [done|apply He]).
  destruct (IH f1 fl1 Hs Hc Ho Hw Hf1 Hwh1) as (f' & fl' & H1 & H2 & H3 & H4 & H5).
  exists f', fl'. split_and!; [done..| |].
  - intros p Hp. rewrite H4 by done. by apply lookup_insert_ne.
  - intros st' Hlast. destruct sts as [|st2 sts].
    + injection Hlast as <-. injection H1 as <-. unfold ParseStatusFile. rewrite Hf1.
      unfold fl1. simpl f_content. by rewrite (parse_whole_snoc _ st j).
    + apply H5. exact Hlast.
Qed.

Lemma open_spec o f target :
  os_mkdir o (Dir target) = None -> os_open o target = None ->
  exists f' fl, writer_open o f (newWriter target) = (f', (mkWriter target true false, None)) /\
    f' !! target = Some fl /\ (forall p, p <> target -> f' !! p = f !! p) /\
    f_content fl = match f !! target with Some fl => f_content fl | None => [] end.
Proof.
  intros Hm Ho. unfold writer_open. simpl. rewrite Hm, Ho. destruct (f !! target) as [fl|] eqn:E.
  - by exists f, fl.
  - exists (<[target := mkFile [] (os_now o)]> f), (mkFile [] (os_now o)). split_and!; [done|apply lookup_insert_eq| |done].
    intros p Hp. by apply lookup_insert_ne.
Qed.

End codec.

(** ** Looking up requests *)

Lemma map_keys_elem (f : fs) p : p ∈ fst <$> map_to_list f <-> is_Some (f !! p).
Proof.
  rewrite list_elem_of_fmap. split.
  - intros ([q fl] & -> & Hin). apply elem_of_map_to_list in Hin. by exists fl.
  - intros [fl Hfl]. exists (p, fl). split; [done|]. by apply elem_of_map_to_list.
Qed.

(** The names found do not depend on the contents. *)
Lemma glob_dom (f f' : fs) pat : (forall p, is_Some (f !! p) <-> is_Some (f' !! p)) -> glob f pat = glob f' pat.
Proof.
  intros Hd. unfold glob. apply (Sorted_unique String.le); [apply (Sorted_merge_sort _)..|].
  rewrite !merge_sort_Permutation. apply filter_Permutation.
  apply NoDup_Permutation; [apply NoDup_fst_map_to_list..|]. intros p.
  by rewrite !map_keys_elem.
Qed.

Section find.
Context (unmarshal : string -> option MStatus.t).

Abbreviation parse := (ParseStatusFile unmarshal).
Abbreviation find := (find_request unmarshal).

Lemma find_request_ok f rid ms sf :
  find f rid ms = Some sf -> parse f (sf_File sf) = Ok (sf_Status sf) /\ MStatus.RequestID (sf_Status sf) = rid.
Proof.
  induction ms as [|m ms IH]; simpl; [done|]. destruct (parse f m) as [st|e] eqn:E; [|done].
  case_bool_decide; [|done]. by intros [= <-].
Qed.

(** Another status of the same request in the file found is found... *)
Lemma find_request_updated f f' rid ms p st st' :
  find f rid ms = Some (mkStatusFile p st) -> (forall q, q <> p -> f' !! q = f !! q) ->
  parse f' p = Ok st' -> MStatus.RequestID st' = rid -> find f' rid ms = Some (mkStatusFile p st').
Proof.
  intros Hf Hframe Hp Hr. induction ms as [|m ms IH]; simpl in *; [done|].
  destruct (decide (m = p)) as [->|Hm].
  - rewrite Hp. by rewrite bool_decide_true.
  - assert (parse f' m = parse f m) as -> by (unfold ParseStatusFile; by rewrite Hframe).
    destruct (parse f m) as [st0|e]; [|by apply IH]. case_bool_decide; [|by apply IH].
    by simplify_eq.
Qed.

(** ... and the other requests are found as before. *)
Lemma find_request_others f f' rid ms p st st' :
  (forall q, q <> p -> f' !! q = f !! q) -> parse f p = Ok st -> parse f' p = Ok st' ->
  MStatus.RequestID st <> rid -> MStatus.RequestID st' <> rid -> find f' rid ms = find f rid ms.
Proof.
  intros Hframe Hp Hp' Hr Hr'. induction ms as [|m ms IH]; simpl; [done|].
  destruct (decide (m = p)) as [->|Hm].
  - rewrite Hp, Hp'. by rewrite !bool_decide_false.
  - assert (parse f' m = parse f m) as -> by (unfold ParseStatusFile; by rewrite Hframe).
    rewrite IH. done.
Qed.

End find.

(** What a run writes is what is read: on a file that is new or made of whole
    lines, when a writer is opened and a nonempty sequence of encodable statuses
    is written without a failing call, the file parses to the last status
    written, it is again made of whole lines, and no other file changed. *)
Theorem written_status_is_read (marshal : MStatus.t -> result string)
    (unmarshal : string -> option MStatus.t) (o : os) (f : fs) (target : string)
    (sts : list MStatus.t) (st : MStatus.t)
    (Hmkdir : os_mkdir o (Dir target) = None) (Hopen : os_open o target = None)
    (Hwrite : os_write o target = None)
    (Hwhole : forall fl, f !! target = Some fl -> whole (f_content fl))
    (Hcodec : Forall (fun st => exists j, encodable marshal unmarshal st j) sts)
    (Hlast : last sts = Some st) :
  exists f1 w f2, writer_open o f (newWriter target) = (f1, (w, None)) /\
    write_all marshal o f1 w sts = Some f2 /\ ParseStatusFile unmarshal f2 target = Ok st /\
    (exists fl, f2 !! target = Some fl /\ whole (f_content fl)) /\
    (forall p, p <> target -> f2 !! p = f !! p).
Proof.
  destruct (open_spec o f target Hmkdir Hopen) as (f1 & fl & H1 & H2 & H3 & H4).
  assert (whole (f_content fl)) as Hw.
  { rewrite H4. destruct (f !! target) as [fl0|] eqn:E; [by apply Hwhole|apply whole_nil]. }
  destruct (write_all_spec marshal unmarshal o (mkWriter target true false) sts f1 fl Hcodec eq_refl eq_refl
    Hwrite H2 Hw) as (f2 & fl2 & H5 & H6 & H7 & H8 & H9).
  exists f1, (mkWriter target true false), f2. split_and!; [done|done|by apply H9|by exists fl2|].
  intros p Hp. rewrite H8 by done. by apply H3.
Qed.

(** C15: compaction never loses the status of a run, whichever system calls
    fail: afterwards the status is read from the file, or, if the file was
    removed and the renaming failed, from the temporary file; if [Compact]
    reports no error it is read from the file and the temporary file is gone. No
    third file changes. *)
Theorem Compact_keeps_status (marshal : MStatus.t -> result string)
    (unmarshal : string -> option MStatus.t) (o : os) (f : fs) (target : string)
    (st : MStatus.t) (j : string)
    (Hcodec : encodable marshal unmarshal st j) (Htemp : temp_path target <> target)
    (Hwhole : forall fl, f !! temp_path target = Some fl -> whole (f_content fl))
    (Hparse : ParseStatusFile unmarshal f target = Ok st) :
  let '(f', e) := Compact marshal unmarshal o f target in
  (ParseStatusFile unmarshal f' target = Ok st \/
   (f' !! target = None /\ ParseStatusFile unmarshal f' (temp_path target) = Ok st)) /\
  (e = None -> ParseStatusFile unmarshal f' target = Ok st /\ f' !! temp_path target = None) /\
  (forall p, p <> target -> p <> temp_path target -> f' !! p = f !! p).
Proof.
  unfold Compact. rewrite Hparse. set (temp := temp_path target) in *.
  assert (forall f', f' !! target = f !! target -> ParseStatusFile unmarshal f' target = Ok st) as Hsame.
  { intros f' E. unfold ParseStatusFile in *. by rewrite E. }
  destruct (os_mkdir o (Dir temp)) as [e|] eqn:Hm.
  { unfold writer_open. simpl. rewrite Hm. split_and!; [by left|done|done]. }
  destruct (os_open o temp) as [e|] eqn:Ho.
  { unfold writer_open. simpl. rewrite Hm, Ho. split_and!; [by left|done|done]. }
  destruct (open_spec o f temp Hm Ho) as (f1 & fl & -> & H2 & H3 & H4).
  assert (f1 !! target = f !! target) as Ht1 by (by apply H3).
  destruct (os_write o temp) as [[n e]|] eqn:Hw.
  { unfold writer_write. simpl. rewrite (enc_marshal _ _ _ _ Hcodec), Hw. unfold remove.
    rewrite lookup_alter_eq, H2. simpl.
    destruct (os_remove o temp); (split_and!; [left; apply Hsame|done|]).
    - by rewrite lookup_alter_ne.
    - intros p ? ?. rewrite lookup_alter_ne by done. by apply H3.
    - by rewrite lookup_delete_ne, lookup_alter_ne.
    - intros p ? ?. rewrite lookup_delete_ne, lookup_alter_ne by done. by apply H3. }
  rewrite (write_ok marshal unmarshal o f1 (mkWriter temp true false) st j fl) by done. simpl.
  set (fl2 := mkFile _ _). assert (parse_content unmarshal (f_content fl2) = Some st) as Hp2.
  { apply (parse_whole_snoc marshal); [|done]. rewrite H4.
    destruct (f !! temp) as [fl0|] eqn:E; [by apply Hwhole|apply whole_nil]. }
  unfold remove. rewrite lookup_insert_ne, Ht1 by done.
  destruct (f !! target) as [flt|] eqn:Eft; [|by unfold ParseStatusFile in Hparse; rewrite Eft in Hparse].
  destruct (os_remove o target) as [e|] eqn:Hr.
  { split_and!; [left; apply Hsame; by rewrite lookup_insert_ne, Ht1|done|].
    intros p ? ?. rewrite lookup_insert_ne by done. by apply H3. }
  unfold rename. rewrite lookup_delete_ne, lookup_insert_eq by done.
  destruct (os_rename o temp) as [e|] eqn:Hren.
  { split_and!; [right|done|].
    - split; [apply lookup_delete_eq|]. unfold ParseStatusFile.
      rewrite lookup_delete_ne, lookup_insert_eq by done. by rewrite Hp2.
    - intros p ? ?. rewrite lookup_delete_ne, lookup_insert_ne by done. by apply H3. }
  assert (forall g : fs, ParseStatusFile unmarshal (<[target := fl2]> g) target = Ok st) as Hp.
  { intros g. unfold ParseStatusFile. by rewrite lookup_insert_eq, Hp2. }
  split_and!; [left; apply Hp| |].
  - intros _. split; [apply Hp|]. rewrite lookup_insert_ne by done. apply lookup_delete_eq.
  - intros p ? ?. rewrite lookup_insert_ne, lookup_delete_ne, lookup_delete_ne, lookup_insert_ne by done.
    by apply H3.
Qed.


(** An update writes the status where the request was found. *)
Lemma updated_status (marshal : MStatus.t -> result string)
    (unmarshal : string -> option MStatus.t) (baseDir : string) (md5hex : string -> string)
    (o : os) (f : fs) (key requestID file : string) (old new : MStatus.t) (j : string)
    (Hfound : FindByRequestID unmarshal baseDir md5hex f key requestID = Ok (mkStatusFile file old))
    (Hnew : MStatus.RequestID new = requestID) (Hcodec : encodable marshal unmarshal new j)
    (Hwhole : forall fl, f !! file = Some fl -> whole (f_content fl))
    (Hmkdir : os_mkdir o (Dir file) = None) (Hopen : os_open o file = None)
    (Hwrite : os_write o file = None) :
  let '(f', e) := Update marshal unmarshal baseDir md5hex o f key requestID new in
  e = None /\
  FindByRequestID unmarshal baseDir md5hex f' key requestID = Ok (mkStatusFile file new) /\
  (forall other, other <> requestID ->
    FindByRequestID unmarshal baseDir md5hex f' key other =
    FindByRequestID unmarshal baseDir md5hex f key other).
Proof.
  unfold Update. rewrite Hfound. simpl sf_File.
  destruct (open_spec o f file Hmkdir Hopen) as (f1 & fl & -> & H2 & H3 & H4).
  rewrite (write_ok marshal unmarshal o f1 (mkWriter file true false) new j fl) by done. simpl w_target.
  unfold FindByRequestID in *. case_bool_decide as Hid; [done|].
  destruct (find_request _ f _ _) as [sf|] eqn:Hfind; [|done]. injection Hfound as ->.
  destruct (find_request_ok _ _ _ _ _ Hfind) as [Hold Hrid]. simpl in Hold, Hrid.
  assert (is_Some (f !! file)) as [fl0 Hfl0].
  { unfold ParseStatusFile in Hold. destruct (f !! file); [by eexists|done]. }
  rewrite Hfl0 in H4. set (fl' := mkFile _ _). set (f' := <[file:=fl']> f1).
  assert (forall q, q <> file -> f' !! q = f !! q) as Hframe.
  { intros q Hq. unfold f'. rewrite lookup_insert_ne by done. by apply H3. }
  assert (f' !! file = Some fl') as Hf' by apply lookup_insert_eq.
  assert (ParseStatusFile unmarshal f' file = Ok new) as Hp.
  { unfold ParseStatusFile. rewrite Hf'. unfold fl'. simpl f_content. rewrite H4.
    by rewrite (parse_whole_snoc marshal unmarshal _ new j (Hwhole _ Hfl0) Hcodec). }
  assert (forall pat, glob f' pat = glob f pat) as Hglob.
  { intros pat. apply glob_dom. intros p. destruct (decide (p = file)) as [->|Hq].
    - rewrite Hf', Hfl0. split; by eexists.
    - by rewrite Hframe. }
  rewrite !Hglob. split_and!; [done| |].
  - by rewrite (find_request_updated _ _ _ _ _ _ _ new Hfind Hframe Hp Hnew).
  - intros other Hother. case_bool_decide; [done|].
    by rewrite (find_request_others unmarshal f f' other _ file old new) by (congruence || done).
Qed.

(** An update is read back by its request: when the request is found in a
    file of whole lines, the update of its status succeeds if no system call
    fails, the request is then found in the same file with the new status, and
    every other request is found as before. *)
Theorem updated_status_is_found (marshal : MStatus.t -> result string)
    (unmarshal : string -> option MStatus.t) (baseDir : string) (md5hex : string -> string)
    (o : os) (f : fs) (key requestID file : string) (old new : MStatus.t) (j : string)
    (Hfound : FindByRequestID unmarshal baseDir md5hex f key requestID = Ok (mkStatusFile file old))
    (Hnew : MStatus.RequestID new = requestID) (Hcodec : encodable marshal unmarshal new j)
    (Hwhole : forall fl, f !! file = Some fl -> whole (f_content fl))
    (Hmkdir : os_mkdir o (Dir file) = None) (Hopen : os_open o file = None)
    (Hwrite : os_write o file = None) :
  let '(f', e) := Update marshal unmarshal baseDir md5hex o f key requestID new in
  e = None /\
  FindByRequestID unmarshal baseDir md5hex f' key requestID = Ok (mkStatusFile file new) /\
  (forall other, other <> requestID ->
    FindByRequestID unmarshal baseDir md5hex f' key other =
    FindByRequestID unmarshal baseDir md5hex f key other).
Proof. by apply (updated_status marshal unmarshal baseDir md5hex o f key requestID file old new j). Qed.

(** ** A sample store *)

Definition sample_status (id : string) (st : Status) : MStatus.t :=
  MStatus.mk id "job" st (Status_String st) pidNotRunning [] None None None None "-" "-" "" "" [].

(** A codec for the sample statuses. *)
Definition sample_marshal (st : MStatus.t) : result string :=
  Ok (if bool_decide (MStatus.Status st = StatusRunning) then "running" else "success").

Definition sample_unmarshal (s : string) : option MStatus.t :=
  if bool_decide (s = "running") then Some (sample_status "r1" StatusRunning)
  else if bool_decide (s = "success") then Some (sample_status "r1" StatusSuccess)
  else None.

Definition calm : os :=
  mkOs 7 (fun _ => true) (fun _ => None) (fun _ => None) (fun _ => None) (fun _ => None)
    (fun _ => None) (fun _ => None).

Definition sample_file : string := "/h/k-m/k.20240101.10:00:00.000.r1.dat".

Definition one_line (s : string) : fs := {[ sample_file := mkFile (s2l s ++ [nl]) 3 ]}.

Lemma running_encodable : encodable sample_marshal sample_unmarshal (sample_status "r1" StatusRunning) "running".
Proof. split; [done|by apply (bool_decide_unpack _)|vm_compute; congruence|done|done]. Qed.

Lemma success_encodable : encodable sample_marshal sample_unmarshal (sample_status "r1" StatusSuccess) "success".
Proof. split; [done|by apply (bool_decide_unpack _)|vm_compute; congruence|done|done]. Qed.

Lemma one_line_whole s p fl : nl ∉ s2l s -> one_line s !! p = Some fl -> whole (f_content fl).
Proof.
  intros Hs Hl. unfold one_line in Hl. apply lookup_singleton_Some in Hl as [_ <-]. exists [s2l s]. split; [|by constructor].
  unfold lines. simpl. by rewrite app_nil_r.
Qed.

Lemma written_status_is_read_witness :
  ParseStatusFile sample_unmarshal (one_line "running") sample_file = Ok (sample_status "r1" StatusRunning) /\
  exists f1 w f2, writer_open calm (one_line "running") (newWriter sample_file) = (f1, (w, None)) /\
    write_all sample_marshal calm f1 w [sample_status "r1" StatusRunning; sample_status "r1" StatusSuccess] = Some f2 /\
    ParseStatusFile sample_unmarshal f2 sample_file = Ok (sample_status "r1" StatusSuccess) /\
    (exists fl, f2 !! sample_file = Some fl /\ whole (f_content fl)) /\
    (forall p, p <> sample_file -> f2 !! p = one_line "running" !! p).
Proof.
  split; [vm_compute; reflexivity|].
  refine (written_status_is_read sample_marshal sample_unmarshal calm (one_line "running") sample_file
    [sample_status "r1" StatusRunning; sample_status "r1" StatusSuccess] _ eq_refl eq_refl eq_refl _ _ eq_refl).
  - intros fl. apply one_line_whole. by apply (bool_decide_unpack _).
  - repeat constructor; eexists; [apply running_encodable|apply success_encodable].
Defined.

Lemma Compact_keeps_status_witness :
  let '(f', e) := Compact sample_marshal sample_unmarshal calm (one_line "running") sample_file in
  (ParseStatusFile sample_unmarshal f' sample_file = Ok (sample_status "r1" StatusRunning) \/
   (f' !! sample_file = None /\
    ParseStatusFile sample_unmarshal f' (temp_path sample_file) = Ok (sample_status "r1" StatusRunning))) /\
  (e = None -> ParseStatusFile sample_unmarshal f' sample_file = Ok (sample_status "r1" StatusRunning) /\
               f' !! temp_path sample_file = None) /\
  (forall p, p <> sample_file -> p <> temp_path sample_file -> f' !! p = one_line "running" !! p).
Proof.
  refine (Compact_keeps_status sample_marshal sample_unmarshal calm (one_line "running") sample_file
    (sample_status "r1" StatusRunning) "running" running_encodable _ _ _).
  - vm_compute. congruence.
  - intros fl. apply one_line_whole. by apply (bool_decide_unpack _).
  - vm_compute. reflexivity.
Defined.

Lemma updated_status_is_found_witness :
  let f := one_line "running" in let find := FindByRequestID sample_unmarshal "/h" (fun _ => "m") in
  let '(f', e) := Update sample_marshal sample_unmarshal "/h" (fun _ => "m") calm f "/d/k.yaml" "r1"
                    (sample_status "r1" StatusSuccess) in
  e = None /\ find f' "/d/k.yaml" "r1" = Ok (mkStatusFile sample_file (sample_status "r1" StatusSuccess)) /\
  (forall other, other <> "r1" -> find f' "/d/k.yaml" other = find f "/d/k.yaml" other).
Proof.
  refine (updated_status_is_found sample_marshal sample_unmarshal "/h" (fun _ => "m") calm (one_line "running")
    "/d/k.yaml" "r1" sample_file (sample_status "r1" StatusRunning) (sample_status "r1" StatusSuccess)
    "success" _ eq_refl success_encodable _ eq_refl eq_refl eq_refl).
  - vm_compute. reflexivity.
  - intros fl. apply one_line_whole. by apply (bool_decide_unpack _).
Defined.

(** ** After a torn write

    A write that stops in the middle of a line leaves text without a newline;
    the next update, though it reports no error, completes that line, which then
    cannot be read: the request keeps its old status. *)

Definition torn : fs := {[ sample_file := mkFile (s2l "running" ++ nl :: s2l "succ") 3 ]}.

Lemma torn_write_hides_update :
  let find := FindByRequestID sample_unmarshal "/h" (fun _ => "m") in
  let '(f', e) := Update sample_marshal sample_unmarshal "/h" (fun _ => "m") calm torn "/d/k.yaml" "r1"
                    (sample_status "r1" StatusSuccess) in
  e = None /\ find f' "/d/k.yaml" "r1" = Ok (mkStatusFile sample_file (sample_status "r1" StatusRunning)).
Proof. vm_compute. done. Qed.
