(* ===== verification/HistoryLife.v ===== *)
(** * Life of a history file

    A run opens its file, writes its statuses and closes it; afterwards it is
    found by its request.  Old files are removed. *)

From S2P Require Import Prelude GoStrings Vars Digraph NodeData Paths Node Sched Model History HistoryProps.
From Stdlib Require Import Ascii.

(** ** The names found *)

Lemma elem_of_glob (f : fs) pat p : p ∈ glob f pat <-> is_Some (f !! p) /\ glob_match pat p = true.
Proof.
  unfold glob. rewrite (merge_sort_Permutation String.le), list_elem_of_filter, map_keys_elem. tauto.
Qed.

Lemma glob_NoDup (f : fs) pat : NoDup (glob f pat).
Proof.
  unfold glob. rewrite (merge_sort_Permutation String.le). apply NoDup_filter, NoDup_fst_map_to_list.
Qed.

Lemma glob_sorted (f : fs) pat : StronglySorted String.le (glob f pat).
Proof. apply (StronglySorted_merge_sort _). Qed.

Lemma StronglySorted_filter {A} (R : relation A) (P : A -> Prop) `{!forall x, Decision (P x)} l :
  StronglySorted R l -> StronglySorted R (filter P l).
Proof.
  induction 1 as [|x l Hl IH Hx]; [constructor|]. rewrite filter_cons. case_decide; [|done].
  constructor; [done|]. apply Forall_forall. intros y Hy. apply list_elem_of_filter in Hy as [_ Hy].
  rewrite Forall_forall in Hx. by apply Hx.
Qed.

(** A file more is one name more. *)
Lemma glob_insert (f f' : fs) pat p :
  f !! p = None -> (forall q, q <> p -> is_Some (f' !! q) <-> is_Some (f !! q)) ->
  glob f pat = filter (fun q => q <> p) (glob f' pat).
Proof.
  intros Hp Hf. apply (StronglySorted_unique String.le);
    [apply glob_sorted|apply StronglySorted_filter, glob_sorted|].
  apply NoDup_Permutation; [apply glob_NoDup|apply NoDup_filter, glob_NoDup|].
  intros q. rewrite list_elem_of_filter, !elem_of_glob. destruct (decide (q = p)) as [->|Hq].
  - rewrite Hp. split; [by intros [[? ?] _]|by intros [? _]].
  - rewrite Hf by done. tauto.
Qed.

Lemma rev_filter {A} (P : A -> Prop) `{!forall x, Decision (P x)} l : rev (filter P l) = filter P (rev l).
Proof.
  induction l as [|x l IH]; [done|]. simpl rev at 2. rewrite filter_app, <- IH.
  rewrite !filter_cons, filter_nil. case_decide; simpl; [done|]. by rewrite app_nil_r.
Qed.

Section find.
Context (unmarshal : string -> option MStatus.t).

Abbreviation parse := (ParseStatusFile unmarshal).
Abbreviation find := (find_request unmarshal).

Lemma find_request_none f rid ms :
  find f rid ms = None <-> forall m st, m ∈ ms -> parse f m = Ok st -> MStatus.RequestID st <> rid.
Proof.
  induction ms as [|m ms IH]; simpl.
  - split; [|done]. intros _ m st Hm. by apply elem_of_nil in Hm.
  - destruct (parse f m) as [st|e] eqn:E.
    + case_bool_decide as Hid.
      * split; [done|]. intros H. exfalso. by apply (H m st (list_elem_of_here _ _)).
      * rewrite IH. split.
        -- intros H m' st' [->|Hm']%elem_of_cons; [congruence|by apply H].
        -- intros H m' st' Hm'. apply H. by right.
    + rewrite IH. split.
      * intros H m' st' [->|Hm']%elem_of_cons; [congruence|by apply H].
      * intros H m' st' Hm'. apply H. by right.
Qed.

(** The only file with the request is found. *)
Lemma find_request_only f rid ms p st :
  p ∈ ms -> parse f p = Ok st -> MStatus.RequestID st = rid ->
  (forall m st, m ∈ ms -> m <> p -> parse f m = Ok st -> MStatus.RequestID st <> rid) ->
  find f rid ms = Some (mkStatusFile p st).
Proof.
  intros Hp Hst Hid Hothers. induction ms as [|m ms IH]; [by apply elem_of_nil in Hp|]. simpl.
  destruct (decide (m = p)) as [->|Hm]; [rewrite Hst; by rewrite bool_decide_true|].
  apply elem_of_cons in Hp as [->|Hp]; [done|].
  assert (find f rid ms = Some (mkStatusFile p st)) as Hrest.
  { apply IH; [done|]. intros m' st' Hm' Hne. apply Hothers; [by right|done]. }
  rewrite Hrest. destruct (parse f m) as [st'|e] eqn:E; [|done].
  rewrite bool_decide_false; [done|]. apply (Hothers m); [by left|done|done].
Qed.

(** A file of another request does not matter. *)
Lemma find_request_skip f f' rid ms p st :
  parse f' p = Ok st -> MStatus.RequestID st <> rid -> (forall q, q <> p -> f' !! q = f !! q) ->
  find f' rid ms = find f rid (filter (fun q => q <> p) ms).
Proof.
  intros Hp Hid Hframe. induction ms as [|m ms IH]; [done|]. rewrite filter_cons. simpl.
  destruct (decide (m = p)) as [->|Hm].
  - rewrite Hp, bool_decide_false by done. rewrite decide_False by (by intros []). done.
  - rewrite decide_True by done. simpl.
    assert (parse f' m = parse f m) as -> by (unfold ParseStatusFile; by rewrite Hframe).
    by rewrite IH.
Qed.

End find.

(** ** The name of a new file matches *)

Lemma has_suffix_app s t : has_suffix (s +:+ t) t = true.
Proof.
  unfold has_suffix, has_suffixl. rewrite s2l_app, length_app, andb_true_iff. split.
  - apply bool_decide_eq_true. lia.
  - apply bool_decide_eq_true. replace (length (s2l s) + length (s2l t) - length (s2l t)) with (length (s2l s)) by lia.
    by rewrite drop_app_length.
Qed.

Lemma string_length_app s t : String.length (s +:+ t) = String.length s + String.length t.
Proof. rewrite <- !length_s2l, s2l_app. apply length_app. Qed.

Lemma glob_match_new prefix t r :
  contains t "/" = false -> contains r "/" = false ->
  glob_match (prefix, ".dat") (prefix +:+ "." +:+ t +:+ "." +:+ r +:+ ".dat") = true.
Proof.
  intros Ht Hr. unfold glob_match. simpl fst. simpl snd. rewrite has_prefix_app. simpl.
  rewrite !andb_true_iff. split_and!.
  - replace (prefix +:+ "." +:+ t +:+ "." +:+ r +:+ ".dat")
      with ((prefix +:+ "." +:+ t +:+ "." +:+ r) +:+ ".dat") by (by rewrite !append_assoc).
    apply has_suffix_app.
  - apply Nat.leb_le. rewrite !string_length_app. simpl. lia.
  - rewrite s2l_app, <- length_s2l, drop_app_length, l2s_s2l, !contains_char_app, Ht, Hr. done.
Qed.

(** ** Opening, writing, closing *)

(** No system call on a path fails. *)
Definition calm_at (o : os) (p : string) : Prop :=
  os_mkdir o (Dir p) = None /\ os_open o p = None /\ os_write o p = None /\
  os_close o p = None /\ os_remove o p = None /\ os_rename o p = None.

Section life.
Context (marshal : MStatus.t -> result string) (unmarshal : string -> option MStatus.t).
Context (baseDir : string) (md5hex : string -> string) (fmt_utc : Z -> string) (o : os).

(** The writes of a run. *)
Fixpoint db_Writes (sts : list MStatus.t) (s : option writer * fs) : (option writer * fs) * option error :=
  match sts with
  | [] => (s, None)
  | st :: sts =>
      match db_Write marshal o st s with
      | (s, Some e) => (s, Some e)
      | (s, None) => db_Writes sts s
      end
  end.

Lemma db_Writes_all sts w f f' :
  write_all marshal o f w sts = Some f' -> db_Writes sts (Some w, f) = ((Some w, f'), None).
Proof.
  revert f. induction sts as [|st sts IH]; intros f H; simpl in *; [by simplify_eq|].
  unfold db_Write. simpl. destruct (writer_write marshal o f w st) as [f1 [e|]]; [done|]. by apply IH.
Qed.

Lemma Compact_calm f target fl st j :
  f !! target = Some fl -> parse_content unmarshal (f_content fl) = Some st -> encodable marshal unmarshal st j ->
  temp_path target <> target -> f !! temp_path target = None ->
  calm_at o target -> calm_at o (temp_path target) ->
  exists f', Compact marshal unmarshal o f target = (f', None) /\
    f' !! target = Some (mkFile (s2l j ++ [nl]) (os_now o)) /\
    (forall p, p <> target -> f' !! p = f !! p).
Proof.
  intros Hf Hp Hj Hne Hfresh (_ & _ & _ & _ & Hr & _) (Hm & Ho & Hw & _ & _ & Hren).
  unfold Compact, ParseStatusFile. rewrite Hf, Hp. set (temp := temp_path target) in *.
  destruct (open_spec o f temp Hm Ho) as (f1 & fl1 & -> & H2 & H3 & H4). rewrite Hfresh in H4.
  rewrite (write_ok marshal unmarshal o f1 (mkWriter temp true false) st j fl1) by done. simpl w_target.
  rewrite H4. simpl. unfold remove. rewrite lookup_insert_ne, H3, Hf, Hr by done.
  unfold rename. rewrite lookup_delete_ne, lookup_insert_eq, Hren by done.
  eexists. split; [done|]. split; [apply lookup_insert_eq|]. intros p Hpt.
  rewrite lookup_insert_ne by done. destruct (decide (p = temp)) as [->|Hpn].
  - by rewrite lookup_delete_eq.
  - rewrite lookup_delete_ne, lookup_delete_ne, lookup_insert_ne by done. by apply H3.
Qed.

(** From the opening to the closing of a new file. *)
Lemma life_of_file f key ts rid p sts st :
  generateFilePath baseDir md5hex fmt_utc key ts rid = Ok p ->
  f !! p = None -> f !! temp_path p = None -> temp_path p <> p -> calm_at o p -> calm_at o (temp_path p) ->
  Forall (fun st => exists j, encodable marshal unmarshal st j) sts -> last sts = Some st ->
  exists s1 s2 f3 fl, db_Open baseDir md5hex fmt_utc o key ts rid (None, f) = (s1, None) /\
    db_Writes sts s1 = (s2, None) /\ db_Close marshal unmarshal o s2 = ((None, f3), None) /\
    f3 !! p = Some fl /\ parse_content unmarshal (f_content fl) = Some st /\
    (forall q, q <> p -> f3 !! q = f !! q).
Proof.
  intros Hgen Hp Ht Hne Hcalm Hcalmt Hcodec Hlast. pose proof Hcalm as (Hm & Ho & Hw & Hcl & _ & _).
  unfold db_Open. rewrite Hgen. simpl snd.
  destruct (open_spec o f p Hm Ho) as (f1 & fl1 & -> & H2 & H3 & H4). rewrite Hp in H4.
  assert (whole (f_content fl1)) as Hwh by (rewrite H4; apply whole_nil).
  destruct (write_all_spec marshal unmarshal o (mkWriter p true false) sts f1 fl1 Hcodec eq_refl eq_refl Hw H2 Hwh)
    as (f2 & fl2 & Hwr & H6 & _ & H8 & H9). simpl in H6, H8, H9.
  pose proof (H9 _ Hlast) as Hparse. unfold ParseStatusFile in Hparse. rewrite H6 in Hparse.
  destruct (parse_content unmarshal (f_content fl2)) as [st2|] eqn:Hp2; [|done]. injection Hparse as ->.
  assert (exists j, encodable marshal unmarshal st j) as [j Hj].
  { rewrite Forall_forall in Hcodec. apply Hcodec. apply last_Some in Hlast as [l' ->].
    apply elem_of_app. right. by left. }
  assert (f2 !! temp_path p = None) as Hfree by (by rewrite H8, H3).
  destruct (Compact_calm f2 p fl2 st j) as (f3 & Hcomp & H10 & H11); [done..|].
  eexists _, _, f3, _. split; [done|]. split; [by apply db_Writes_all|]. split; [|split; [exact H10|split]].
  - unfold db_Close. simpl. by rewrite Hcomp, Hcl.
  - simpl. apply (parse_whole_snoc marshal unmarshal [] st j); [apply whole_nil|done].
  - intros q Hq. rewrite H11, H8, H3 by done. done.
Qed.

End life.

(** A run that opens, writes and closes a new file is found by its request. *)
Lemma recorded_run (marshal : MStatus.t -> result string)
    (unmarshal : string -> option MStatus.t) (baseDir : string) (md5hex : string -> string)
    (fmt_utc : Z -> string) (o : os) (f : fs) (key requestID path : string) (timestamp : Z)
    (sts : list MStatus.t) (st : MStatus.t)
    (Hpath : generateFilePath baseDir md5hex fmt_utc key timestamp requestID = Ok path)
    (Htime : contains (fmt_utc timestamp) "/" = false)
    (Hid : contains (TruncString requestID requestIDLenSafe) "/" = false)
    (Hfree : f !! path = None /\ f !! temp_path path = None /\ temp_path path <> path)
    (Hcalm : calm_at o path /\ calm_at o (temp_path path))
    (Hnew : forall sf, FindByRequestID unmarshal baseDir md5hex f key requestID <> Ok sf)
    (Hcodec : Forall (fun st => exists j, encodable marshal unmarshal st j) sts)
    (Hlast : last sts = Some st) (Hst : MStatus.RequestID st = requestID) (Hne : requestID <> "") :
  exists s1 s2 f3, db_Open baseDir md5hex fmt_utc o key timestamp requestID (None, f) = (s1, None) /\
    db_Writes marshal o sts s1 = (s2, None) /\
    db_Close marshal unmarshal o s2 = ((None, f3), None) /\
    FindByRequestID unmarshal baseDir md5hex f3 key requestID = Ok (mkStatusFile path st) /\
    (forall other, other <> requestID ->
      FindByRequestID unmarshal baseDir md5hex f3 key other =
      FindByRequestID unmarshal baseDir md5hex f key other) /\
    (forall q, q <> path -> f3 !! q = f !! q).
Proof.
  destruct Hfree as (Hp & Ht & Htp). destruct Hcalm as [Hc Hct].
  destruct (life_of_file marshal unmarshal baseDir md5hex fmt_utc o f key timestamp requestID path sts st)
    as (s1 & s2 & f3 & fl & H1 & H2 & H3 & H4 & H5 & H6); [done..|].
  exists s1, s2, f3. split_and!; [done..| | |done].
  all: set (pat := globPattern baseDir md5hex key).
  all: assert (glob f pat = filter (fun q => q <> path) (glob f3 pat)) as Hglob
    by (apply glob_insert; [done|intros q Hq; by rewrite H6]).
  all: assert (ParseStatusFile unmarshal f3 path = Ok st) as Hparse by (unfold ParseStatusFile; by rewrite H4, H5).
  - unfold FindByRequestID in *. rewrite bool_decide_false in * by done. fold pat in Hnew. fold pat.
    destruct (find_request unmarshal f requestID (rev (glob f pat))) as [sf|] eqn:Hf; [by destruct (Hnew sf)|].
    rewrite find_request_none in Hf.
    rewrite (find_request_only unmarshal f3 requestID _ path st); [done| |done|done|].
    + rewrite list_elem_of_In, <- in_rev, <- list_elem_of_In, elem_of_glob. split; [by eexists|].
      unfold generateFilePath in Hpath. case_bool_decide; [done|]. injection Hpath as <-.
      by apply glob_match_new.
    + intros m st' Hm Hmp Hst'. apply (Hf m st').
      * rewrite Hglob, rev_filter. by apply list_elem_of_filter.
      * unfold ParseStatusFile in *. by rewrite <- H6.
  - intros other Ho. unfold FindByRequestID. case_bool_decide; [done|]. fold pat.
    rewrite (find_request_skip unmarshal f f3 other _ path st) by (congruence || done).
    by rewrite Hglob, rev_filter.
Qed.

(** A recorded run is found: when a run with a new request opens its file,
    writes a nonempty sequence of encodable statuses and closes it, and no
    system call on its file or on the temporary file fails, then all three
    succeed, the last status is found by the request in the file named for the
    run, every other request is found as before, and no other file changed. *)
Theorem recorded_run_is_found (marshal : MStatus.t -> result string)
    (unmarshal : string -> option MStatus.t) (baseDir : string) (md5hex : string -> string)
    (fmt_utc : Z -> string) (o : os) (f : fs) (key requestID path : string) (timestamp : Z)
    (sts : list MStatus.t) (st : MStatus.t)
    (Hpath : generateFilePath baseDir md5hex fmt_utc key timestamp requestID = Ok path)
    (Htime : contains (fmt_utc timestamp) "/" = false)
    (Hid : contains (TruncString requestID requestIDLenSafe) "/" = false)
    (Hfree : f !! path = None /\ f !! temp_path path = None /\ temp_path path <> path)
    (Hcalm : calm_at o path /\ calm_at o (temp_path path))
    (Hnew : forall sf, FindByRequestID unmarshal baseDir md5hex f key requestID <> Ok sf)
    (Hcodec : Forall (fun st => exists j, encodable marshal unmarshal st j) sts)
    (Hlast : last sts = Some st) (Hst : MStatus.RequestID st = requestID) (Hne : requestID <> "") :
  exists s1 s2 f3, db_Open baseDir md5hex fmt_utc o key timestamp requestID (None, f) = (s1, None) /\
    db_Writes marshal o sts s1 = (s2, None) /\
    db_Close marshal unmarshal o s2 = ((None, f3), None) /\
    FindByRequestID unmarshal baseDir md5hex f3 key requestID = Ok (mkStatusFile path st) /\
    (forall other, other <> requestID ->
      FindByRequestID unmarshal baseDir md5hex f3 key other =
      FindByRequestID unmarshal baseDir md5hex f key other) /\
    (forall q, q <> path -> f3 !! q = f !! q).
Proof. by apply recorded_run. Qed.

(** ** Removing old files *)

(** A file last modified before the date. *)
Definition is_old (f : fs) (oldDate : Z) (p : string) : Prop :=
  exists fl, f !! p = Some fl /\ (f_mtime fl < oldDate)%Z.

#[export] Instance is_old_dec f oldDate p : Decision (is_old f oldDate p).
Proof.
  unfold is_old. destruct (f !! p) as [fl|].
  - destruct (decide (f_mtime fl < oldDate)%Z); [left; by exists fl|right; intros (? & ? & ?); by simplify_eq].
  - right. by intros (? & ? & _).
Defined.

Lemma remove_old_step o oldDate f e m :
  remove_old o oldDate (f, e) m =
  if decide (is_old f oldDate m)
  then match os_remove o m with Some e' => (f, Some e') | None => (delete m f, e) end
  else (f, e).
Proof.
  unfold remove_old, remove. case_decide as H.
  - destruct H as (fl & -> & Hlt). rewrite (proj2 (Z.ltb_lt _ _) Hlt). by destruct (os_remove o m).
  - destruct (f !! m) as [fl|] eqn:Hf; [|done]. destruct (f_mtime fl <? oldDate)%Z eqn:E; [|done].
    apply Z.ltb_lt in E. destruct H. by exists fl.
Qed.

Lemma is_old_delete f oldDate p m : p <> m -> is_old (delete m f) oldDate p <-> is_old f oldDate p.
Proof. intros Hp. unfold is_old. by rewrite lookup_delete_ne. Qed.

Lemma remove_old_fold o oldDate ms : forall f e0, NoDup ms ->
  let '(f', e) := foldl (remove_old o oldDate) (f, e0) ms in
  (forall p, f' !! p = if decide (p ∈ ms /\ is_old f oldDate p /\ os_remove o p = None) then None else f !! p) /\
  (e = None <-> e0 = None /\ forall p, p ∈ ms -> is_old f oldDate p -> os_remove o p = None).
Proof.
  induction ms as [|m ms IH]; intros f e0 Hnd.
  - cbn [foldl]. split; [|split; [|by intros []]].
    + intros p. rewrite decide_False; [done|]. intros [Hp _]. by apply elem_of_nil in Hp.
    + intros ->. split; [done|]. intros p Hp. by apply elem_of_nil in Hp.
  - apply NoDup_cons in Hnd as [Hm Hnd]. cbn [foldl]. rewrite remove_old_step. case_decide as Hold.
    + destruct (os_remove o m) as [e'|] eqn:Hrm.
      * specialize (IH f (Some e') Hnd). destruct (foldl _ _ ms) as [f' e]. destruct IH as [H1 H2]. split.
        -- intros p. rewrite H1. apply decide_ext. rewrite elem_of_cons.
           split; [tauto|]. intros ([->|?] & ? & ?); [congruence|tauto].
        -- rewrite H2. split; [by intros []|]. intros [_ H]. specialize (H m (list_elem_of_here _ _) Hold). congruence.
      * specialize (IH (delete m f) e0 Hnd). destruct (foldl _ _ ms) as [f' e]. destruct IH as [H1 H2]. split.
        -- intros p. rewrite H1. destruct (decide (p = m)) as [->|Hp].
           ++ rewrite (decide_True (P := m ∈ m :: ms /\ _)) by (split; [by left|done]).
              rewrite lookup_delete_eq. by case_decide.
           ++ rewrite lookup_delete_ne by done. apply decide_ext.
              rewrite (is_old_delete f oldDate p m Hp), elem_of_cons. tauto.
        -- rewrite H2. split; intros [He H]; (split; [done|]); intros p Hp.
           ++ destruct (decide (p = m)) as [->|Hne]; [done|]. apply elem_of_cons in Hp as [->|Hp]; [done|].
              intros Ho. apply H; [done|]. by apply is_old_delete.
           ++ intros Ho. apply H; [by right|]. apply (is_old_delete f oldDate p m); [by intros ->|done].
    + specialize (IH f e0 Hnd). destruct (foldl _ _ ms) as [f' e]. destruct IH as [H1 H2]. split.
      * intros p. rewrite H1. apply decide_ext. rewrite elem_of_cons.
        split; [tauto|]. intros ([->|?] & ? & ?); [done|tauto].
      * rewrite H2. split; intros [He H]; (split; [done|]); intros p Hp.
        -- apply elem_of_cons in Hp as [->|Hp]; [done|by apply H].
        -- apply H. by right.
Qed.

(** Removing old files only removes. *)
Lemma RemoveOld_sub baseDir md5hex o f key retentionDays oldDate p :
  fst (RemoveOld baseDir md5hex o f key retentionDays oldDate) !! p = f !! p \/
  fst (RemoveOld baseDir md5hex o f key retentionDays oldDate) !! p = None.
Proof.
  unfold RemoveOld. destruct (retentionDays <? 0)%Z; [by left|].
  pose proof (remove_old_fold o oldDate (glob f (globPattern baseDir md5hex key)) f None (glob_NoDup f _)) as H.
  destruct (foldl _ _ _) as [f' e]. destruct H as [H _]. simpl. rewrite H. case_decide; [by right|by left].
Qed.

(** With fewer files no more requests are found. *)
Lemma FindByRequestID_sub unmarshal baseDir md5hex f f' key requestID :
  (forall p, f' !! p = f !! p \/ f' !! p = None) ->
  (forall sf, FindByRequestID unmarshal baseDir md5hex f key requestID <> Ok sf) ->
  forall sf, FindByRequestID unmarshal baseDir md5hex f' key requestID <> Ok sf.
Proof.
  intros Hsub Hnone sf. unfold FindByRequestID in *. case_bool_decide; [done|].
  set (pat := globPattern baseDir md5hex key) in *.
  destruct (find_request unmarshal f requestID _) as [sf'|] eqn:E; [by destruct (Hnone sf')|].
  rewrite find_request_none in E.
  assert (find_request unmarshal f' requestID (rev (glob f' pat)) = None) as ->; [|done].
  apply find_request_none. intros m st Hm Hst.
  rewrite list_elem_of_In, <- in_rev, <- list_elem_of_In, elem_of_glob in Hm. destruct Hm as [[fl Hfl] Hm].
  destruct (Hsub m) as [Hs|Hs]; [|by rewrite Hs in Hfl].
  apply (E m).
  - rewrite list_elem_of_In, <- in_rev, <- list_elem_of_In, elem_of_glob, <- Hs. by split; [eexists|].
  - unfold ParseStatusFile in *. by rewrite <- Hs.
Qed.

(** The retention keeps and removes the right files: with a nonnegative
    number of days exactly the files of the workflow last modified before the
    date and whose removal does not fail are gone, every other file is
    unchanged, and no error is reported exactly if no removal failed; with a
    negative number of days nothing changes. *)
Theorem RemoveOld_removes_old (baseDir : string) (md5hex : string -> string) (o : os) (f : fs)
    (key : string) (retentionDays oldDate : Z) :
  let '(f', e) := RemoveOld baseDir md5hex o f key retentionDays oldDate in
  let mine p := glob_match (globPattern baseDir md5hex key) p = true in
  if (retentionDays <? 0)%Z then f' = f /\ e = None
  else
    (forall p, mine p -> is_old f oldDate p -> os_remove o p = None -> f' !! p = None) /\
    (forall p, ~ (mine p /\ is_old f oldDate p /\ os_remove o p = None) -> f' !! p = f !! p) /\
    (e = None <-> forall p, mine p -> is_old f oldDate p -> os_remove o p = None).
Proof.
  unfold RemoveOld. destruct (retentionDays <? 0)%Z; [done|].
  set (pat := globPattern baseDir md5hex key).
  pose proof (remove_old_fold o oldDate (glob f pat) f None (glob_NoDup f pat)) as H.
  destruct (foldl _ _ _) as [f' e]. destruct H as [H1 H2].
  assert (forall p, is_old f oldDate p -> p ∈ glob f pat <-> glob_match pat p = true) as Hg.
  { intros p (fl & Hfl & _). rewrite elem_of_glob. split; [tauto|]. intros ?. split; [by eexists|done]. }
  split_and!.
  - intros p Hm Ho Hr. rewrite H1. apply decide_True. split; [by apply Hg|done].
  - intros p Hn. rewrite H1. apply decide_False. intros (Hp & Ho & Hr). apply Hn. split; [by apply Hg|done].
  - rewrite H2. split.
    + intros [_ H] p Hm Ho. apply H; [by apply Hg|done].
    + intros H. split; [done|]. intros p Hp Ho. apply H; [by apply Hg|done].
Qed.

(** ** A sample run *)

Definition sample_path : string := "/h/k-m/k.20240102.10:00:00.000Z.r1.dat".

Lemma calm_calm p : calm_at calm p.
Proof. done. Qed.

Lemma recorded_run_is_found_witness :
  let f := one_line "other" in let find := FindByRequestID sample_unmarshal "/h" (fun _ => "m") in
  let sts := [sample_status "r1" StatusRunning; sample_status "r1" StatusSuccess] in
  exists s1 s2 f3,
    db_Open "/h" (fun _ => "m") (fun _ => "20240102.10:00:00.000Z") calm "/d/k.yaml" 5 "r1" (None, f) = (s1, None) /\
    db_Writes sample_marshal calm sts s1 = (s2, None) /\
    db_Close sample_marshal sample_unmarshal calm s2 = ((None, f3), None) /\
    find f3 "/d/k.yaml" "r1" = Ok (mkStatusFile sample_path (sample_status "r1" StatusSuccess)) /\
    (forall other, other <> "r1" -> find f3 "/d/k.yaml" other = find f "/d/k.yaml" other) /\
    (forall q, q <> sample_path -> f3 !! q = f !! q).
Proof.
  refine (recorded_run_is_found sample_marshal sample_unmarshal "/h" (fun _ => "m")
    (fun _ => "20240102.10:00:00.000Z") calm (one_line "other") "/d/k.yaml" "r1" sample_path 5
    [sample_status "r1" StatusRunning; sample_status "r1" StatusSuccess] (sample_status "r1" StatusSuccess)
    _ _ _ _ _ _ _ eq_refl eq_refl _).
  - vm_compute. reflexivity.
  - vm_compute. reflexivity.
  - vm_compute. reflexivity.
  - split_and!; [vm_compute; reflexivity..|vm_compute; congruence].
  - split; apply calm_calm.
  - intros sf. vm_compute. congruence.
  - repeat constructor; eexists; [apply running_encodable|apply success_encodable].
  - congruence.
Defined.
