(* ===== verification/Regex.v ===== *)
(** * Regular expressions

    The part of Go's [regexp] the program's patterns need: leftmost-first
    matching with greedy repetition and capture groups, as a backtracking
    matcher on the bytes of a text. *)

From S2P Require Import Prelude GoStrings.
From Stdlib Require Import Ascii.

Inductive re :=
| RChar (f : ascii -> bool)
| RSeq (a b : re)
| RAlt (a b : re)
| RStar (a : re)
| ROpt (a : re)
| RGroup (i : nat) (a : re).

Definition RPlus (a : re) : re := RSeq a (RStar a).
Definition RByte (c : ascii) : re := RChar (fun x => bool_decide (x = c)).

Fixpoint re_size (r : re) : nat :=
  match r with
  | RChar _ => 1
  | RSeq a b | RAlt a b => S (re_size a + re_size b)
  | RStar a | ROpt a | RGroup _ a => S (re_size a)
  end.

(** The text of each group. *)
Abbreviation caps := (gmap nat bytes).

(** The matcher passes the rest of the text and the groups to a continuation,
    and comes back for another match when it fails. *)
Fixpoint match_re {R} (fuel : nat) (r : re) (l : bytes) (c : caps)
    (k : bytes -> caps -> option R) {struct fuel} : option R :=
  match fuel with
  | 0 => None
  | S n =>
      match r with
      | RChar f => match l with x :: l' => if f x then k l' c else None | [] => None end
      | RSeq a b => match_re n a l c (fun l c => match_re n b l c k)
      | RAlt a b =>
          match match_re n a l c k with Some x => Some x | None => match_re n b l c k end
      | RStar a =>
          match match_re n a l c (fun l' c =>
                  if length l' <? length l then match_re n (RStar a) l' c k else None) with
          | Some x => Some x
          | None => k l c
          end
      | ROpt a => match match_re n a l c k with Some x => Some x | None => k l c end
      | RGroup i a =>
          match_re n a l c (fun l' c => k l' (<[i := take (length l - length l') l]> c))
      end
  end.

(** Every turn of a repetition takes a byte, so the size of the pattern and the
    length of the text bound the depth. *)
Definition re_fuel (r : re) (l : bytes) : nat := S (re_size r + length l).

(** A match at the start of a text: what is left, and the groups. *)
Definition match_here (r : re) (l : bytes) : option (bytes * caps) :=
  match_re (re_fuel r l) r l ∅ (fun l' c => Some (l', c)).

(** The leftmost match: the text before it, what is left, the groups. *)
Fixpoint find_re (r : re) (l : bytes) : option (bytes * bytes * caps) :=
  match match_here r l with
  | Some (rest, c) => Some ([], rest, c)
  | None =>
      match l with
      | [] => None
      | x :: l' =>
          match find_re r l' with
          | Some (pre, rest, c) => Some (x :: pre, rest, c)
          | None => None
          end
      end
  end.

(** [FindAllStringSubmatch] for a pattern that does not match the empty text:
    the groups of the successive matches. *)
Fixpoint find_all (fuel : nat) (r : re) (l : bytes) : list caps :=
  match fuel with
  | 0 => []
  | S n =>
      match find_re r l with
      | None => []
      | Some (_, rest, c) => c :: find_all n r rest
      end
  end.

(** [ReplaceAllString] with the empty text. *)
Fixpoint remove_all (fuel : nat) (r : re) (l : bytes) : bytes :=
  match fuel with
  | 0 => l
  | S n =>
      match find_re r l with
      | None => l
      | Some (pre, rest, _) => pre ++ remove_all n r rest
      end
  end.

Definition group (c : caps) (i : nat) : string := l2s (default [] (c !! i)).

(** ** Lemmas *)

Section unfold.
Context {R : Type}.
Implicit Types (k : bytes -> caps -> option R).

Lemma char_unfold n f l c k :
  match_re (S n) (RChar f) l c k = match l with x :: l' => if f x then k l' c else None | [] => None end.
Proof. done. Qed.

Lemma seq_unfold n a b l c k :
  match_re (S n) (RSeq a b) l c k = match_re n a l c (fun l c => match_re n b l c k).
Proof. done. Qed.

Lemma alt_unfold n a b l c k :
  match_re (S n) (RAlt a b) l c k =
  match match_re n a l c k with Some x => Some x | None => match_re n b l c k end.
Proof. done. Qed.

Lemma star_unfold n a l c k :
  match_re (S n) (RStar a) l c k =
  match match_re n a l c (fun l' c =>
          if length l' <? length l then match_re n (RStar a) l' c k else None) with
  | Some x => Some x
  | None => k l c
  end.
Proof. done. Qed.

Lemma opt_unfold n a l c k :
  match_re (S n) (ROpt a) l c k =
  match match_re n a l c k with Some x => Some x | None => k l c end.
Proof. done. Qed.

Lemma group_unfold n i a l c k :
  match_re (S n) (RGroup i a) l c k =
  match_re n a l c (fun l' c => k l' (<[i := take (length l - length l') l]> c)).
Proof. done. Qed.

(** A repeated class takes all it can when what follows then matches. *)
Lemma match_star_class n f l rest c k x :
  Forall (fun a => f a = true) l -> length l + 1 < n -> k rest c = Some x ->
  match rest with [] => True | a :: _ => f a = false end ->
  match_re n (RStar (RChar f)) (l ++ rest) c k = Some x.
Proof.
  intros Hl. revert n. induction Hl as [|a l Ha Hl IH]; intros n Hn Hk Hr;
    (destruct n as [|[|n]]; [simpl in Hn; lia..|]); rewrite star_unfold, char_unfold; cbn [app].
  - destruct rest as [|b rest]; [done|]. by rewrite Hr.
  - rewrite Ha. rewrite (proj2 (Nat.ltb_lt _ _)) by (simpl; lia).
    by rewrite IH by (done || simpl in Hn; lia).
Qed.

Lemma match_plus_class n f l rest c k x :
  Forall (fun a => f a = true) l -> l <> [] -> length l + 2 < n -> k rest c = Some x ->
  match rest with [] => True | a :: _ => f a = false end ->
  match_re n (RPlus (RChar f)) (l ++ rest) c k = Some x.
Proof.
  intros Hl Hne Hn Hk Hr. destruct l as [|a l]; [done|]. apply Forall_cons_iff in Hl as [Ha Hl].
  destruct n as [|[|n]]; [simpl in Hn; lia..|]. unfold RPlus. rewrite seq_unfold, char_unfold. cbn [app].
  rewrite Ha. apply match_star_class; [done|simpl in Hn; lia|done|done].
Qed.

End unfold.
