(* ===== verification/Params.v ===== *)
(** * Parameters: internal/digraph params.go, and errors.go

    Parsing of the parameters of a workflow from a text, a list or maps, with
    command substitution, and the override of the defaults by the command line.
    Setting environment variables is explicit: the environment is a map passed
    through the functions.  Running a command, the jq library, Unicode's printable
    table and the text of maps are arguments. *)

From stdpp Require Import pretty.
From S2P Require Import Prelude GoStrings Utf8 Digraph CmdUtil Eval Regex.
From Stdlib Require Import Ascii.

(** ** Errors (errors.go) *)

Definition ErrInvalidSchedule : error := ENew "invalid schedule".
Definition ErrScheduleMustBeStringOrArray : error := ENew "schedule must be a string or an array of strings".
Definition ErrInvalidScheduleType : error := ENew "invalid schedule type".
Definition ErrInvalidKeyType : error := ENew "invalid key type".
Definition ErrInvalidParamValue : error := ENew "invalid parameter value".
Definition ErrInvalidEnvValue : error := ENew "invalid value for env".
Definition ErrScheduleKeyMustBeString : error := ENew "schedule key must be a string".

(** The name [%T] prints. *)
Definition type_name (v : any) : string :=
  match v with
  | VNil => "<nil>"
  | VBool _ => "bool"
  | VInt _ => "int"
  | VFloat _ => "float64"
  | VStr _ => "string"
  | VList _ => "[]interface {}"
  | VMap _ => "map[interface {}]interface {}"
  | VStrMap _ => "map[string]interface {}"
  | VStrList _ => "[]string"
  end.

Section show.
(** The text of a map: [fmt] sorts its keys. *)
Context (show_map : list (any * any) -> string).

(** [%v] and [%+v]. *)
Fixpoint show (v : any) : string :=
  match v with
  | VNil => "<nil>"
  | VBool b => if b then "true" else "false"
  | VInt n => pretty n
  | VFloat t => t
  | VStr s => s
  | VList l => "[" +:+ join (show <$> l) " " +:+ "]"
  | VMap m => show_map m
  | VStrMap m => show_map ((fun e => (VStr (fst e), snd e)) <$> m)
  | VStrList l => "[" +:+ join l " " +:+ "]"
  end.

(** [wrapError] and [LoadError.Error]. *)
Definition wrapError (field : string) (value : any) (err : error) : error :=
  EWrap ("field '" +:+ field +:+ "': ") err
    (match value with VNil => "" | v => " (value: " +:+ show v +:+ ")" end).

End show.

(** ** The process environment *)

Abbreviation env := (gmap string string).

(** [os.Setenv]. *)
Definition ErrInvalidArgument : error := ENew "setenv: invalid argument".
Definition has_byte (c : ascii) (s : string) : bool := bool_decide (c ∈ s2l s).

Definition Setenv (e : env) (key value : string) : result env :=
  if bool_decide (key = "") || has_byte "=" key || has_byte "000" key || has_byte "000" value
  then Err ErrInvalidArgument else Ok (<[key := value]> e).

Abbreviation getEnv e := (fun k => (e : env) !! k).

(** ** Quoting: [strconv.Quote] *)

Section quote.
Context (is_print : Z -> bool).

Definition hex_digit (n : Z) : ascii := ascii_of_nat (Z.to_nat (if (n <? 10)%Z then 48 + n else 87 + n)%Z).

Fixpoint hex (digits : nat) (n : Z) : bytes :=
  match digits with
  | 0 => []
  | S k => hex k (n / 16)%Z ++ [hex_digit (n mod 16)%Z]
  end.

Definition bs : ascii := Pipe.backslash.

Definition quote_rune (r : Z * bytes) : bytes :=
  let '(r, b) := r in
  if bool_decide (r = RuneError) && (length b =? 1)%nat then
    [bs; "x"%char] ++ hex 2 (byte_z (default "000"%char (head b)))
  else if bool_decide (r = byte_z Pipe.dquote) || bool_decide (r = byte_z bs) then [bs; z_byte r]
  else if is_print r then encode_rune r
  else if bool_decide (r = 7%Z) then [bs; "a"%char]
  else if bool_decide (r = 8%Z) then [bs; "b"%char]
  else if bool_decide (r = 12%Z) then [bs; "f"%char]
  else if bool_decide (r = 10%Z) then [bs; "n"%char]
  else if bool_decide (r = 13%Z) then [bs; "r"%char]
  else if bool_decide (r = 9%Z) then [bs; "t"%char]
  else if bool_decide (r = 11%Z) then [bs; "v"%char]
  else if (r <? 32)%Z || bool_decide (r = 127%Z) then [bs; "x"%char] ++ hex 2 r
  else if (r <? 65536)%Z then [bs; "u"%char] ++ hex 4 r
  else [bs; "U"%char] ++ hex 8 r.

Definition Quote (s : string) : string :=
  l2s (Pipe.dquote :: concat (quote_rune <$> decode (s2l s)) ++ [Pipe.dquote]).

(** ** Pairs *)

Record paramPair := mkPair { pp_Name : string; pp_Value : string }.

#[export] Instance paramPair_eq_dec : EqDecision paramPair.
Proof. solve_decision. Defined.

Definition pair_String (p : paramPair) : string :=
  if bool_decide (pp_Name p <> "") then pp_Name p +:+ "=" +:+ pp_Value p else pp_Value p.

Definition Escaped (p : paramPair) : string :=
  if bool_decide (pp_Name p <> "") then pp_Name p +:+ "=" +:+ Quote (pp_Value p) else Quote (pp_Value p).

End quote.

(** ** The pattern of parameters *)

Definition not_space_eq (c : ascii) : bool := negb (re_space c) && negb (bool_decide (c = "="%char)).
Definition not_quote (c : ascii) : bool := negb (bool_decide (c = Pipe.dquote)).
Definition bare_char (c : ascii) : bool := not_quote c && negb (re_space c).

Definition quoted_re : re :=
  RSeq (RByte Pipe.dquote)
    (RSeq (RStar (RAlt (RSeq (RByte bs) (RByte Pipe.dquote)) (RChar not_quote))) (RByte Pipe.dquote)).

(** The group around the two middle alternatives is closed before the backtick. *)
Definition backtick_re : re :=
  RSeq (RByte Pipe.backtick)
    (RSeq (RAlt (RSeq (RByte bs) (RByte Pipe.dquote)) (RStar (RChar not_quote))) (RByte Pipe.backtick)).

Definition paramRegex : re :=
  RSeq (ROpt (RSeq (RGroup 1 (RPlus (RChar not_space_eq))) (RByte "="%char)))
       (RGroup 2 (RAlt quoted_re (RAlt backtick_re (RPlus (RChar bare_char))))).

(** ** Parsing *)

Section parse.
Context (show_map : list (any * any) -> string) (is_print : Z -> bool).
Context (jq : string -> string -> option string).
(** [sh -c] in an environment: the command of a parameter, whose output is
    trimmed here, and [runCommand] of cmdutil. *)
Context (sh : env -> string -> result string).
Context (runCommand : env -> string -> result string).
(** [BuildOpts.NoEval]. *)
Context (noEval : bool).

Abbreviation wrap := (wrapError show_map).

Definition evalString (e : env) (s : string) : result string :=
  EvalString (getEnv e) jq (runCommand e) s [].

(** The replacement of the texts between backticks; the last error is kept and
    a command that fails stays in its backticks. *)
Fixpoint backtick_loop (e : env) (fuel : nat) (l : bytes) : bytes * option error :=
  match fuel with
  | 0 => (l, None)
  | S n =>
      match cutl [Pipe.backtick] l with
      | None => (l, None)
      | Some (a, l1) =>
          match cutl [Pipe.backtick] l1 with
          | None => (l, None)
          | Some (cmd, l2) =>
              let cmdStr := ExpandEnv (getEnv e) (l2s cmd) in
              let '(rest, err) := backtick_loop e n l2 in
              match sh e cmdStr with
              | Err x => (a ++ Pipe.backtick :: s2l cmdStr ++ Pipe.backtick :: rest,
                          match err with Some y => Some y | None => Some x end)
              | Ok out => (a ++ s2l (TrimSpace out) ++ rest, err)
              end
          end
      end
  end.

Definition param_of (e : env) (m : caps) : result paramPair :=
  let name := group m 1 in
  let value := group m 2 in
  let dq := l2s [Pipe.dquote] in
  let quoted := has_prefix value dq in
  if quoted || has_prefix value (l2s [Pipe.backtick]) then
    let value := if quoted then replace_all (trim value dq) (l2s [bs; Pipe.dquote]) dq else value in
    if noEval then Ok (mkPair name value)
    else
      let '(v, err) := backtick_loop e (S (String.length value)) (s2l value) in
      match err with
      | Some x => Err (wrap "params" (VStr (l2s v)) (EWrap "" ErrInvalidParamValue (": " +:+ error_text x)))
      | None => Ok (mkPair name (l2s v))
      end
  else Ok (mkPair name value).

Definition parseStringParams (e : env) (input : string) : result (list paramPair) :=
  mapE (param_of e) (find_all (S (String.length input)) paramRegex (s2l input)).

Definition concatE {A B} (f : A -> result (list B)) (l : list A) : result (list B) :=
  match mapE f l with Ok ls => Ok (concat ls) | Err e => Err e end.

Definition parseListParams (e : env) (input : list string) : result (list paramPair) :=
  concatE (parseStringParams e) input.

(** One entry of a map, in the order of the range. *)
Definition param_of_entry (e : env) (entry : any * any) : result paramPair :=
  let '(name, value) := entry in
  let valueStr := match value with VStr s => s | v => show show_map v end in
  match name with
  | VStr nameStr =>
      if noEval then Ok (mkPair nameStr valueStr)
      else match evalString e valueStr with
           | Ok v => Ok (mkPair nameStr v)
           | Err x => Err (wrap "params" (VStr valueStr) (EWrap "" ErrInvalidParamValue (": " +:+ error_text x)))
           end
  | n => Err (wrap "params" n (EWrap "" ErrInvalidParamValue (": " +:+ type_name n)))
  end.

Definition parseMapParams (e : env) (input : list any) : result (list paramPair) :=
  concatE (fun m =>
    match m with
    | VStr s => parseStringParams e s
    | VMap entries => mapE (param_of_entry e) entries
    | m => Err (wrap "params" m (EWrap "" ErrInvalidParamValue (": " +:+ type_name m)))
    end) input.

Definition parseParamValue (e : env) (input : any) : result (list paramPair) :=
  match input with
  | VNil => Ok []
  | VStr s => parseStringParams e s
  | VList l => parseMapParams e l
  | VStrList l => parseListParams e l
  | VMap m => parseMapParams e [VMap m]
  | v => Err (wrap "params" v (EWrap "" ErrInvalidParamValue (": " +:+ type_name v)))
  end.

(** The loop of [parseParams]: each parameter is set as $1, $2, ... and under its
    name before the next one is expanded. *)
Fixpoint params_loop (e : env) (index : Z) (pairs : list paramPair)
    (params : list paramPair) (envs : list string) : env * result (list paramPair * list string) :=
  match pairs with
  | [] => (e, Ok (params, envs))
  | p :: pairs =>
      let p := if noEval then p else mkPair (pp_Name p) (ExpandEnv (getEnv e) (pp_Value p)) in
      let params := params ++ [p] in
      let s := pair_String p in
      let fail x := Err (wrap "params" (VStr s) (EWrap "failed to set environment variable: " x "")) in
      match Setenv e (pretty (index + 1)%Z) s with
      | Err x => (e, fail x)
      | Ok e =>
          if negb noEval && bool_decide (pp_Name p <> "") then
            match Setenv e (pp_Name p) (pp_Value p) with
            | Err x => (e, fail x)
            | Ok e => params_loop e (index + 1) pairs params (envs ++ [s])
            end
          else params_loop e (index + 1) pairs params envs
      end
  end.

Definition parseParams (e : env) (value : any) (params : list paramPair) (envs : list string)
    : env * result (list paramPair * list string) :=
  match parseParamValue e value with
  | Err x => (e, Err (wrap "params" value (EWrap "" ErrInvalidParamValue (": " +:+ error_text x))))
  | Ok pairs => params_loop e 0 pairs params envs
  end.

(** ** Overriding *)

(** The index of names, built once from the defaults: the last one wins. *)
Definition name_index (pairs : list paramPair) : gmap string nat :=
  foldl (fun m e => if bool_decide (pp_Name (snd e) <> "") then <[pp_Name (snd e) := fst e]> m else m)
    ∅ (imap (fun i p => (i, p)) pairs).

Definition override_step (index : gmap string nat) (pairs : list paramPair) (e : nat * paramPair)
    : list paramPair :=
  let '(i, p) := e in
  if bool_decide (pp_Name p = "") then
    if i <? length pairs then <[i := p]> pairs else pairs ++ [p]
  else match index !! pp_Name p with
       | Some j => <[j := p]> pairs
       | None => pairs ++ [p]
       end.

Definition overrideParams (pairs override : list paramPair) : list paramPair :=
  foldl (override_step (name_index pairs)) pairs (imap (fun i p => (i, p)) override).

Definition env_index (envs : list string) : gmap string nat :=
  foldl (fun m e => <[snd e := fst e]> m) ∅ (imap (fun i s => (i, s)) envs).

Definition overrideEnvirons (envs override : list string) : list string :=
  foldl (fun envs' s => match env_index envs !! s with
                        | None => envs' ++ [s]
                        | Some i => <[i := s]> envs'
                        end) envs override.

(** ** [buildParams] *)

(** One override of the defaults, from [Parameters] or [ParametersList]. *)
Definition override_with (value : any) (present : bool)
    (acc : env * result (list paramPair * list string)) : env * result (list paramPair * list string) :=
  match acc with
  | (e, Ok (pairs, envs)) =>
      if present then
        match parseParams e value [] [] with
        | (e, Err x) => (e, Err x)
        | (e, Ok (op, oe)) => (e, Ok (overrideParams pairs op, overrideEnvirons envs oe))
        end
      else acc
  | _ => acc
  end.

Definition buildParams (e : env) (params : any) (parameters : string) (parametersList : list string)
    (dag : DAG.t) : env * (DAG.t * option error) :=
  match parseParams e params [] [] with
  | (e, Err x) => (e, (dag, Some x))
  | (e, Ok (pairs, envs)) =>
      let dag := DAG.set_DefaultParams dag (join (Escaped is_print <$> pairs) " ") in
      match override_with (VStrList parametersList) (negb (bool_decide (parametersList = [])))
              (override_with (VStr parameters) (bool_decide (parameters <> "")) (e, Ok (pairs, envs))) with
      | (e, Err x) => (e, (dag, Some x))
      | (e, Ok (pairs, envs)) =>
          (e, (DAG.set_Env (DAG.set_Params dag (DAG.Params dag ++ (pair_String <$> pairs)))
                           (DAG.Env dag ++ envs), None))
      end
  end.

End parse.
