(* ===== verification/ParamsProps.v ===== *)
(** * Properties of parameters

    The default parameters a workflow records are parsed back as the pairs they
    were made of, and the override keeps the defaults it does not name. *)

From stdpp Require Import pretty.
From S2P Require Import Prelude GoStrings Utf8 Digraph CmdUtil Eval Regex Params.
From Stdlib Require Import Ascii.

(** ** Matching a token *)

Section star.
Context {R : Type}.
Implicit Types (k : bytes -> caps -> option R).

Abbreviation body := (RAlt (RSeq (RByte bs) (RByte Pipe.dquote)) (RChar not_quote)).

Definition plain_char (c : ascii) : Prop := c <> Pipe.dquote /\ c <> bs.

Lemma body_plain n x l c k :
  plain_char x -> match_re (S (S (S n))) body (x :: l) c k = k l c.
Proof.
  intros [Hq Hb]. rewrite alt_unfold, seq_unfold. unfold RByte. rewrite !char_unfold.
  rewrite bool_decide_false by done. unfold not_quote. by rewrite bool_decide_false.
Qed.

Lemma body_quote n l c k : match_re (S (S (S n))) body (Pipe.dquote :: l) c k = None.
Proof. done. Qed.

(** The inside of a quoted text is taken up to the closing quote. *)
Lemma match_inside n v rest c k x :
  Forall plain_char v -> length v + 4 < n -> k (Pipe.dquote :: rest) c = Some x ->
  match_re n (RStar body) (v ++ Pipe.dquote :: rest) c k = Some x.
Proof.
  intros Hv. revert n. induction Hv as [|a v Ha Hv IH]; intros n Hn Hk;
    (destruct n as [|[|[|[|n]]]]; [simpl in Hn; lia..|]); rewrite star_unfold; cbn [app].
  - by rewrite body_quote.
  - rewrite body_plain by done. rewrite (proj2 (Nat.ltb_lt _ _)) by (simpl; lia).
    by rewrite IH by (done || simpl in Hn; lia).
Qed.

Lemma match_quoted n v rest c k x :
  Forall plain_char v -> length v + 6 < n -> k rest c = Some x ->
  match_re n quoted_re (Pipe.dquote :: v ++ Pipe.dquote :: rest) c k = Some x.
Proof.
  intros Hv Hn Hk. destruct n as [|[|n]]; [lia..|]. unfold quoted_re, RByte.
  rewrite seq_unfold, char_unfold, bool_decide_true by done. rewrite seq_unfold.
  apply match_inside; [done|lia|]. destruct n as [|n]; [lia|]. by rewrite char_unfold, bool_decide_true.
Qed.

(** A repeated class fails when what follows fails wherever it stops. *)
Lemma match_star_none n f l c k :
  (forall a b, l = a ++ b -> Forall (fun x => f x = true) a -> k b c = None) ->
  match_re n (RStar (RChar f)) l c k = None.
Proof.
  revert l. induction n as [|[|n] IH]; intros l Hk; [done| |].
  { rewrite star_unfold. simpl. by apply (Hk [] l). }
  rewrite star_unfold, char_unfold. destruct l as [|x l]; [by apply (Hk [] [])|].
  destruct (f x) eqn:Hx; [|by apply (Hk [] (x :: l))].
  rewrite (proj2 (Nat.ltb_lt _ _)) by (simpl; lia). rewrite IH; [by apply (Hk [] (x :: l))|].
  intros a b -> Ha. apply (Hk (x :: a) b); [done|by constructor].
Qed.

End star.

(** The name of a pair, if any, then its value in quotes. *)
Definition token (name v : bytes) : bytes :=
  match name with [] => [] | _ => name ++ ["="%char] end ++ Pipe.dquote :: v ++ [Pipe.dquote].

Definition name_char (c : ascii) : Prop := not_space_eq c = true.

(** A text that ends, or goes on with a space. *)
Definition ends (rest : bytes) : Prop := match rest with [] => True | c :: _ => c = " "%char end.

Definition token_caps (name v : bytes) : caps :=
  <[2 := Pipe.dquote :: v ++ [Pipe.dquote]]> (match name with [] => ∅ | _ => <[1 := name]> ∅ end).

Lemma take_front {A} (a b : list A) : take (length (a ++ b) - length b) (a ++ b) = a.
Proof. rewrite length_app, Nat.add_sub. apply take_app_length. Qed.

Lemma match_value n v rest c :
  Forall plain_char v -> length v + 10 < n ->
  match_re n (RGroup 2 (RAlt quoted_re (RAlt backtick_re (RPlus (RChar bare_char)))))
    (Pipe.dquote :: v ++ Pipe.dquote :: rest) c (fun l' c => Some (l', c)) =
  Some (rest, <[2 := Pipe.dquote :: v ++ [Pipe.dquote]]> c).
Proof.
  intros Hv Hn. destruct n as [|[|n]]; [lia..|]. rewrite group_unfold, alt_unfold.
  erewrite match_quoted; [done|done|lia|]. f_equal. f_equal. f_equal.
  replace (Pipe.dquote :: v ++ Pipe.dquote :: rest) with ((Pipe.dquote :: v ++ [Pipe.dquote]) ++ rest)
    by (simpl; by rewrite <- app_assoc).
  apply take_front.
Qed.

Lemma match_token name v rest :
  Forall name_char name -> Forall plain_char v -> ends rest -> (name = [] -> "="%char ∉ v) ->
  match_here paramRegex (token name v ++ rest) = Some (rest, token_caps name v).
Proof.
  intros Hname Hv Hends Heq. unfold match_here, re_fuel. set (N := re_size paramRegex + _).
  assert (length name + length v + 20 < N) as HN.
  { unfold N, token. change (re_size paramRegex) with 36. rewrite !length_app.
    destruct name as [|x name]; simpl; rewrite ?length_app; simpl; lia. }
  clearbody N. unfold paramRegex, token, token_caps. rewrite <- app_assoc. cbn [app].
  rewrite <- app_assoc. cbn [app]. rewrite seq_unfold.
  destruct N as [|[|[|n]]]; [lia..|]. rewrite opt_unfold, seq_unfold.
  destruct name as [|x name].
  - cbn [app]. rewrite group_unfold. unfold RPlus.
    set (l := Pipe.dquote :: v ++ Pipe.dquote :: rest).
    replace (match_re n _ l ∅ _) with (@None (bytes * caps)).
    { unfold l. rewrite match_value by (done || simpl in HN; lia). done. }
    symmetry. destruct n as [|[|n]]; [simpl in HN; lia..|]. rewrite seq_unfold, char_unfold. unfold l at 1.
    replace (not_space_eq Pipe.dquote) with true by done. apply match_star_none.
    intros a b Hab Ha. unfold RByte. rewrite char_unfold. destruct b as [|y b]; [done|].
    rewrite bool_decide_false; [done|]. intros ->. specialize (Heq eq_refl).
    assert ("="%char ∉ v ++ [Pipe.dquote]) as Hne.
    { rewrite elem_of_app, list_elem_of_singleton. by intros [?|?]. }
    replace (v ++ Pipe.dquote :: rest) with ((v ++ [Pipe.dquote]) ++ rest) in Hab by (by rewrite <- app_assoc).
    apply app_eq_inv in Hab as [(k & E1 & E2)|(k & E1 & E2)].
    + destruct k as [|z k]; simpl in E2.
      * rewrite app_nil_r in E1. destruct rest as [|z rest]; [done|]. simpl in Hends. by simplify_eq.
      * simplify_eq. apply Hne. rewrite E1. apply elem_of_app. right. by left.
    + destruct k as [|z k]; simpl in E2.
      * destruct rest as [|z rest]; [done|]. simpl in Hends. by simplify_eq.
      * destruct rest as [|z' rest]; [done|]. simpl in Hends. simplify_eq.
        apply Forall_app in Ha as [_ Ha]. by apply Forall_cons_iff in Ha as [Ha _].
  - rewrite group_unfold. rewrite <- app_assoc. cbn [app].
    change (x :: name ++ ?r) with ((x :: name) ++ r). set (nm := x :: name) in *.
    set (r := "="%char :: Pipe.dquote :: v ++ Pipe.dquote :: rest).
    erewrite match_plus_class; [done|done|by unfold nm|lia| |by unfold r].
    unfold RByte, r at 1. rewrite char_unfold, bool_decide_true by done.
    rewrite match_value by (done || lia). by rewrite take_front.
Qed.

Lemma find_token name v rest :
  Forall name_char name -> Forall plain_char v -> ends rest -> (name = [] -> "="%char ∉ v) ->
  find_re paramRegex (token name v ++ rest) = Some ([], rest, token_caps name v).
Proof.
  intros. pose proof (match_token name v rest) as H3. destruct (token name v ++ rest) as [|x l] eqn:E.
  - exfalso. unfold token in E. by destruct name.
  - unfold find_re. by rewrite H3.
Qed.

Lemma no_match_space l : match_here paramRegex (" "%char :: l) = None.
Proof. reflexivity. Qed.

Lemma find_space l pre rest c :
  find_re paramRegex l = Some (pre, rest, c) ->
  find_re paramRegex (" "%char :: l) = Some (" "%char :: pre, rest, c).
Proof. intros H. cbn [find_re]. by rewrite no_match_space, H. Qed.

(** A pair as it can be read back. *)
Definition readable (noEval : bool) (is_print : Z -> bool) (p : paramPair) : Prop :=
  Forall name_char (s2l (pp_Name p)) /\ Forall plain_char (s2l (pp_Value p)) /\
  s2l (Quote is_print (pp_Value p)) = Pipe.dquote :: s2l (pp_Value p) ++ [Pipe.dquote] /\
  (pp_Name p = "" -> "="%char ∉ s2l (pp_Value p)) /\
  (noEval = true \/ Pipe.backtick ∉ s2l (pp_Value p)).

Definition token_of (p : paramPair) : bytes := token (s2l (pp_Name p)) (s2l (pp_Value p)).
Definition caps_of (p : paramPair) : caps := token_caps (s2l (pp_Name p)) (s2l (pp_Value p)).

Lemma Escaped_token noEval is_print p : readable noEval is_print p -> s2l (Escaped is_print p) = token_of p.
Proof.
  intros (_ & _ & Hq & _). unfold Escaped, token_of, token. case_bool_decide as Hn.
  - rewrite !s2l_app, Hq. destruct (s2l (pp_Name p)) as [|x l] eqn:E.
    + exfalso. apply Hn. by apply s2l_inj.
    + simpl. by rewrite <- app_assoc.
  - rewrite Hq. by rewrite Hn.
Qed.

Lemma find_token_of noEval is_print p rest :
  readable noEval is_print p -> ends rest ->
  find_re paramRegex (token_of p ++ rest) = Some ([], rest, caps_of p).
Proof.
  intros (H1 & H2 & _ & H4 & _) He. apply find_token; [done..|]. intros Hn. apply H4. by apply s2l_inj.
Qed.

(** The texts of a kind of parameters, one space between each two, are found
    one after the other. *)
Section spaced.
Context {A : Type} (text : A -> bytes) (cap : A -> caps) (ok : A -> Prop).
Context (Hfind : forall p rest, ok p -> ends rest -> find_re paramRegex (text p ++ rest) = Some ([], rest, cap p)).

Lemma find_all_spaced ps : forall n,
  length ps < n -> Forall ok ps -> find_all n paramRegex (joinl [" "%char] (text <$> ps)) = cap <$> ps.
Proof.
  induction ps as [|p ps IH]; intros n Hn Hp.
  - destruct n as [|n]; [done|]. reflexivity.
  - apply Forall_cons_iff in Hp as [Hp Hps]. destruct n as [|n]; [simpl in Hn; lia|].
    destruct ps as [|p2 ps].
    + cbn [fmap list_fmap joinl find_all]. rewrite <- (app_nil_r (text p)).
      rewrite Hfind by done. by destruct n.
    + change (joinl [" "%char] (text <$> p :: p2 :: ps))
        with (text p ++ " "%char :: joinl [" "%char] (text <$> p2 :: ps)).
      cbn [find_all]. rewrite Hfind by done.
      change (cap <$> p :: p2 :: ps) with (cap p :: (cap <$> p2 :: ps)). f_equal.
      rewrite <- (IH n) by (done || simpl in *; lia).
      apply Forall_cons_iff in Hps as [Hp2 Hps]. destruct n as [|n]; [simpl in Hn; lia|]. cbn [find_all].
      assert (exists rest, find_re paramRegex (joinl [" "%char] (text <$> p2 :: ps)) = Some ([], rest, cap p2)) as [rest Hr].
      { destruct ps as [|p3 ps].
        - exists []. cbn [fmap list_fmap joinl]. rewrite <- (app_nil_r (text p2)). by apply Hfind.
        - eexists. change (joinl [" "%char] (text <$> p2 :: p3 :: ps))
            with (text p2 ++ " "%char :: joinl [" "%char] (text <$> p3 :: ps)).
          by apply Hfind. }
      by rewrite (find_space _ _ _ _ Hr), Hr.
Qed.

Lemma length_spaced ps : Forall (fun p => text p <> []) ps -> length ps <= length (joinl [" "%char] (text <$> ps)).
Proof.
  induction 1 as [|p ps Hp Hps IH]; [done|]. destruct ps as [|q ps].
  - simpl. destruct (text p); [done|]. simpl. lia.
  - change (joinl [" "%char] (text <$> p :: q :: ps)) with (text p ++ " "%char :: joinl [" "%char] (text <$> q :: ps)).
    rewrite length_app. cbn [length] in *. lia.
Qed.

End spaced.

(** ** Reading a token *)

Lemma trim_quotes v :
  Forall plain_char v ->
  trim (l2s (Pipe.dquote :: v ++ [Pipe.dquote])) (l2s [Pipe.dquote]) = l2s v.
Proof.
  intros Hv. unfold trim, trim_func. rewrite !s2l_l2s. f_equal. set (f := fun c => _).
  assert (f Pipe.dquote = true) as Hq by done.
  assert (forall c, plain_char c -> f c = false) as Hp.
  { intros c [Hc _]. unfold f. apply bool_decide_false. rewrite list_elem_of_singleton. done. }
  cbn [trim_left]. rewrite Hq. destruct v as [|c v]; [cbn [trim_left app]; by rewrite Hq|].
  apply Forall_cons_iff in Hv as [Hc Hv]. cbn [trim_left app]. rewrite (Hp c Hc). unfold trim_right.
  change (c :: v ++ [Pipe.dquote]) with ((c :: v) ++ [Pipe.dquote]). rewrite reverse_app.
  change (reverse [Pipe.dquote]) with [Pipe.dquote]. cbn [trim_left app]. rewrite Hq.
  destruct (reverse (c :: v)) as [|z l] eqn:E.
  { apply (f_equal reverse) in E. rewrite reverse_involutive in E. done. }
  assert (plain_char z) as Hz.
  { assert (z ∈ c :: v) as Hin by (apply elem_of_reverse; rewrite E; by left).
    apply elem_of_cons in Hin as [->|Hin]; [done|]. rewrite Forall_forall in Hv. by apply Hv. }
  cbn [trim_left]. rewrite (Hp z Hz), <- E. apply reverse_involutive.
Qed.

Lemma no_escape v :
  Forall plain_char v -> replace_all (l2s v) (l2s [bs; Pipe.dquote]) (l2s [Pipe.dquote]) = l2s v.
Proof.
  intros Hv. unfold replace_all. rewrite <- (join_one (l2s v) (l2s [bs; Pipe.dquote])) at 1.
  rewrite split_join; [apply join_one|done|by vm_compute|done|].
  apply Forall_singleton. apply contains_false_cutl. rewrite !s2l_l2s.
  destruct (cutl [bs; Pipe.dquote] v) as [[a b]|] eqn:E; [|done]. apply cutl_sound in E. exfalso.
  rewrite Forall_forall in Hv. destruct (Hv bs) as [_ Hbs]; [|done].
  rewrite E. apply elem_of_app. right. by left.
Qed.

Lemma backtick_none sh e n v : Pipe.backtick ∉ v -> backtick_loop sh e n v = (v, None).
Proof.
  intros Hv. destruct n as [|n]; [done|]. cbn [backtick_loop].
  assert (cutl [Pipe.backtick] v = None) as ->; [|done]. by apply cutl_char.
Qed.

Lemma param_of_caps show_map is_print sh noEval e p :
  readable noEval is_print p -> param_of show_map sh noEval e (caps_of p) = Ok p.
Proof.
  intros (_ & Hv & _ & _ & Hb).
  assert (group (caps_of p) 1 = pp_Name p /\
          group (caps_of p) 2 = l2s (Pipe.dquote :: s2l (pp_Value p) ++ [Pipe.dquote])) as [E1 E2].
  { unfold group, caps_of, token_caps. rewrite lookup_insert_eq. split; [|done].
    rewrite lookup_insert_ne by done. destruct (s2l (pp_Name p)) as [|x l] eqn:E.
    - rewrite lookup_empty. simpl. apply s2l_inj. by rewrite E.
    - rewrite lookup_insert_eq. rewrite <- E. apply l2s_s2l. }
  unfold param_of. rewrite E1, E2.
  assert (has_prefix (l2s (Pipe.dquote :: s2l (pp_Value p) ++ [Pipe.dquote])) (l2s [Pipe.dquote]) = true) as ->.
  { unfold has_prefix. rewrite !s2l_l2s. apply has_prefixl_spec. by eexists. }
  cbn [orb]. rewrite trim_quotes, no_escape, l2s_s2l by done. destruct noEval; [by destruct p|].
  destruct Hb as [Hb|Hb]; [done|]. rewrite backtick_none by done. rewrite l2s_s2l. by destruct p.
Qed.

(** Default parameters are read back: the text [buildParams] records for
    pairs, each name and quoted value, is parsed as the same pairs, provided no
    name has a space or an equal sign, no value needs an escape, no positional
    value has an equal sign, and, when commands are evaluated, no value has a
    backtick. *)
Theorem DefaultParams_read_back (show_map : list (any * any) -> string) (is_print : Z -> bool)
    (sh : env -> string -> result string) (noEval : bool) (e : env) (pairs : list paramPair)
    (Hreadable : Forall (readable noEval is_print) pairs) :
  parseStringParams show_map sh noEval e (join (Escaped is_print <$> pairs) " ") = Ok pairs.
Proof.
  unfold parseStringParams. set (text := join _ _).
  assert (s2l text = joinl [" "%char] (token_of <$> pairs)) as Htext.
  { unfold text, join. rewrite s2l_l2s. f_equal. rewrite <- list_fmap_compose.
    apply list_fmap_ext. intros i p Hi. apply (Escaped_token noEval). rewrite Forall_forall in Hreadable.
    by apply Hreadable, list_elem_of_lookup_2 with i. }
  rewrite Htext, (find_all_spaced token_of caps_of (readable noEval is_print)); [|intros; by apply (find_token_of noEval is_print)| |done].
  - apply mapE_ok_Forall2. apply Forall2_fmap_l, Forall_Forall2_diag.
    eapply Forall_impl; [exact Hreadable|]. intros p. apply param_of_caps.
  - rewrite <- length_s2l, Htext. apply Nat.lt_succ_r, length_spaced. apply Forall_forall. intros p _.
    unfold token_of, token. by destruct (s2l (pp_Name p)).
Qed.

(** ** Overriding *)

Definition named (p : paramPair) : Prop := pp_Name p <> "".

(** What a default becomes: the last override of its name. *)
Definition overridden (ov : list paramPair) (q : paramPair) : paramPair :=
  default q (last (filter (fun p => pp_Name p = pp_Name q) ov)).

Definition additions (pairs ov : list paramPair) : list paramPair :=
  filter (fun p => pp_Name p ∉ pp_Name <$> pairs) ov.

Lemma name_index_spec pairs n i :
  NoDup (pp_Name <$> pairs) -> Forall named pairs ->
  name_index pairs !! n = Some i <-> exists p, pairs !! i = Some p /\ pp_Name p = n.
Proof.
  intros Hnd Hnamed. unfold name_index. induction pairs as [|p pairs IH] using rev_ind.
  { simpl. rewrite lookup_empty. split; [done|]. by intros (p & Hp & _). }
  rewrite fmap_app in Hnd. apply NoDup_app in Hnd as (Hnd & Hnot & _).
  apply Forall_app in Hnamed as [Hnamed Hp]. apply Forall_cons_iff in Hp as [Hp _].
  rewrite imap_app, foldl_app. cbn [imap foldl fst snd]. rewrite bool_decide_true by done.
  rewrite Nat.add_0_r. destruct (decide (n = pp_Name p)) as [->|Hn].
  - rewrite lookup_insert_eq. split.
    + intros [= <-]. exists p. split; [|done]. by apply list_lookup_middle.
    + intros (q & Hq & Hqn). f_equal. apply lookup_app_Some in Hq as [Hq|[Hle Hq]].
      * exfalso. apply (Hnot (pp_Name p)); [|by left]. rewrite <- Hqn. apply list_elem_of_fmap_2.
        by eapply list_elem_of_lookup_2.
      * apply list_lookup_singleton_Some in Hq as [Hi _]. lia.
  - rewrite lookup_insert_ne by done. rewrite IH by done. split.
    + intros (q & Hq & Hqn). exists q. split; [|done]. by apply lookup_app_l_Some.
    + intros (q & Hq & Hqn). exists q. split; [|done]. apply lookup_app_Some in Hq as [Hq|[Hle Hq]]; [done|].
      apply list_lookup_singleton_Some in Hq as [_ ->]. done.
Qed.

Lemma overridden_name ov q : pp_Name (overridden ov q) = pp_Name q.
Proof.
  unfold overridden. destruct (last _) as [p|] eqn:E; [|done]. simpl.
  apply last_Some_elem_of, list_elem_of_filter in E as [E _]. done.
Qed.

Lemma overridden_snoc ov p q :
  overridden (ov ++ [p]) q = if decide (pp_Name p = pp_Name q) then p else overridden ov q.
Proof.
  unfold overridden. rewrite filter_app, filter_cons, filter_nil. case_decide.
  - by rewrite last_snoc.
  - by rewrite app_nil_r.
Qed.

Lemma additions_snoc pairs ov p :
  additions pairs (ov ++ [p]) =
  additions pairs ov ++ (if decide (pp_Name p ∈ pp_Name <$> pairs) then [] else [p]).
Proof.
  unfold additions. rewrite filter_app, filter_cons, filter_nil.
  destruct (decide (pp_Name p ∈ pp_Name <$> pairs)) as [H|H].
  - by rewrite decide_False by (by intros []).
  - by rewrite decide_True.
Qed.

Lemma overridden_insert pairs ov p j q :
  NoDup (pp_Name <$> pairs) -> pairs !! j = Some q -> pp_Name q = pp_Name p ->
  <[j := p]> (overridden ov <$> pairs) = overridden (ov ++ [p]) <$> pairs.
Proof.
  intros Hnd Hj Hq. apply list_eq. intros i. rewrite list_lookup_fmap.
  destruct (decide (i = j)) as [->|Hi].
  - rewrite list_lookup_insert_eq by (rewrite length_fmap; by eapply lookup_lt_Some).
    rewrite Hj. simpl. by rewrite overridden_snoc, decide_True.
  - rewrite list_lookup_insert_ne, list_lookup_fmap by done. destruct (pairs !! i) as [r|] eqn:Hr; [|done].
    simpl. rewrite overridden_snoc, decide_False; [done|]. intros Hn. apply Hi.
    eapply (NoDup_lookup (pp_Name <$> pairs)); [done|rewrite list_lookup_fmap, Hr; done|].
    rewrite list_lookup_fmap, Hj. simpl. congruence.
Qed.

(** The override keeps what it does not name: when the defaults have
    distinct names and every override is named, the result is the defaults in
    their order, each replaced by the last override of its name if there is one,
    followed by the overrides of other names in theirs. *)
Theorem overrideParams_spec (pairs override : list paramPair)
    (Hdistinct : NoDup (pp_Name <$> pairs)) (Hnamed : Forall named pairs)
    (Hoverride : Forall named override) :
  overrideParams pairs override = (overridden override <$> pairs) ++ additions pairs override.
Proof.
  unfold overrideParams. induction override as [|p ov IH] using rev_ind.
  { simpl. rewrite app_nil_r. symmetry. apply list_fmap_id. }
  apply Forall_app in Hoverride as [Hov Hp]. apply Forall_cons_iff in Hp as [Hp _].
  rewrite imap_app, foldl_app, IH by done. cbn [imap foldl]. unfold override_step.
  rewrite bool_decide_false by done. rewrite additions_snoc.
  destruct (name_index pairs !! pp_Name p) as [j|] eqn:Hj.
  - apply name_index_spec in Hj as (q & Hq & Hqn); [|done..].
    rewrite insert_app_l by (rewrite length_fmap; by eapply lookup_lt_Some).
    rewrite (overridden_insert pairs ov p j q), decide_True, app_nil_r; [done| |done..].
    rewrite <- Hqn. apply list_elem_of_fmap_2. by eapply list_elem_of_lookup_2.
  - assert (pp_Name p ∉ pp_Name <$> pairs) as Hnot.
    { intros Hin. apply list_elem_of_fmap in Hin as (q & Hqn & Hq). apply list_elem_of_lookup in Hq as [i Hi].
      assert (name_index pairs !! pp_Name p = Some i) as Hc by (apply name_index_spec; [done..|eauto]).
      congruence. }
    rewrite decide_False by done. rewrite app_assoc. f_equal. f_equal. apply list_fmap_ext.
    intros i q Hi. rewrite overridden_snoc, decide_False; [done|]. intros Hn. apply Hnot. rewrite Hn.
    apply list_elem_of_fmap_2. by eapply list_elem_of_lookup_2.
Qed.

(** ** Samples *)

Definition always (z : Z) : bool := true.

Definition sample_pairs : list paramPair := [mkPair "x" "a b=c"; mkPair "" "1 2"; mkPair "y" ""].

Lemma DefaultParams_read_back_witness :
  parseStringParams (fun _ => "") (fun _ _ => Ok "") false ∅ (join (Escaped always <$> sample_pairs) " ") =
  Ok sample_pairs.
Proof.
  apply (DefaultParams_read_back (fun _ => "") always (fun _ _ => Ok "") false ∅ sample_pairs).
  unfold readable, name_char, plain_char.
  repeat apply Forall_cons_2; try apply Forall_nil_2; split_and!; try (left; reflexivity);
    try (right; apply (bool_decide_unpack _); vm_compute; exact I);
    try (apply (bool_decide_unpack _); vm_compute; exact I).
Defined.

Lemma overrideParams_spec_witness :
  overrideParams [mkPair "x" "1"; mkPair "y" "2"] [mkPair "z" "3"; mkPair "x" "4"] =
  [mkPair "x" "4"; mkPair "y" "2"; mkPair "z" "3"].
Proof.
  refine (overrideParams_spec [mkPair "x" "1"; mkPair "y" "2"] [mkPair "z" "3"; mkPair "x" "4"] _ _ _).
  - apply (bool_decide_unpack _). vm_compute. exact I.
  - by repeat constructor.
  - by repeat constructor.
Defined.

(** A value that ends in a quotation mark loses it on the way through
    [DefaultParams]: all quotes at the end are trimmed before the escape is
    undone, and a backslash is left. *)
Lemma trailing_quote_lost :
  let v := "say " +:+ l2s [Pipe.dquote] +:+ "hi" +:+ l2s [Pipe.dquote] in
  parseStringParams (fun _ => "") (fun _ _ => Ok "") true ∅ (Escaped always (mkPair "x" v)) =
  Ok [mkPair "x" ("say " +:+ l2s [Pipe.dquote] +:+ "hi" +:+ l2s [bs])].
Proof. vm_compute. done. Qed.

(** A positional value in quotes with an equal sign is taken for a named one. *)
Lemma quoted_equal_sign_named :
  parseStringParams (fun _ => "") (fun _ _ => Ok "") true ∅ (Escaped always (mkPair "" "a=b")) =
  Ok [mkPair (l2s [Pipe.dquote; "a"%char]) "b"].
Proof. vm_compute. done. Qed.

(** ** Parameters written as plain words

    The parameters of a run are recorded as words without quotes; what they are
    read back as, and that overriding by what an override gave changes
    nothing. *)

(** ** Words *)

(** A parameter whose text is a word of its own: nothing in it is quoted,
    evaluated or split. *)
Definition word_char (c : ascii) : Prop :=
  bare_char c = true /\ c <> Pipe.backtick /\ c <> dollar /\ c <> "000"%char.

Definition word (p : paramPair) : Prop :=
  Forall name_char (s2l (pp_Name p)) /\ "000"%char ∉ s2l (pp_Name p) /\
  pp_Value p <> "" /\ Forall word_char (s2l (pp_Value p)) /\ (pp_Name p = "" -> "="%char ∉ s2l (pp_Value p)).

Definition word_text (p : paramPair) : bytes := s2l (pair_String p).
Definition word_caps (p : paramPair) : caps :=
  <[2 := s2l (pp_Value p)]> (if bool_decide (pp_Name p = "") then ∅ else <[1 := s2l (pp_Name p)]> ∅).

Lemma word_bare v : Forall word_char v -> Forall (fun c => bare_char c = true) v.
Proof. intros H. eapply Forall_impl; [exact H|]. by intros c []. Qed.

Lemma ends_bare rest : ends rest -> match rest with [] => True | c :: _ => bare_char c = false end.
Proof. destruct rest as [|c rest]; [done|]. by intros ->. Qed.

(** The value of a word is taken whole. *)
Lemma match_word_value n v rest c :
  v <> [] -> Forall word_char v -> ends rest -> length v + 10 < n ->
  match_re n (RGroup 2 (RAlt quoted_re (RAlt backtick_re (RPlus (RChar bare_char)))))
    (v ++ rest) c (fun l' c => Some (l', c)) = Some (rest, <[2 := v]> c).
Proof.
  intros Hne Hv He Hn. destruct n as [|[|[|[|[|n]]]]]; [lia..|]. rewrite group_unfold, !alt_unfold.
  destruct v as [|x v]; [done|]. pose proof Hv as [[Hx1 [Hx2 _]] _]%Forall_cons_iff.
  assert (x <> Pipe.dquote) as Hq.
  { intros ->. discriminate Hx1. }
  unfold quoted_re at 1, backtick_re at 1, RByte. rewrite !seq_unfold, !char_unfold. cbn [app].
  rewrite !bool_decide_false by done.
  change (x :: v ++ rest) with ((x :: v) ++ rest).
  erewrite match_plus_class; [done|by apply word_bare|done|lia| |by apply ends_bare].
  f_equal. f_equal. f_equal. apply take_front.
Qed.

(** A word that has no equal sign has no name. *)
Lemma match_no_name n v rest k :
  v <> [] -> "="%char ∉ v -> ends rest ->
  match_re n (RSeq (RGroup 1 (RPlus (RChar not_space_eq))) (RByte "="%char)) (v ++ rest) ∅ k = @None (bytes * caps).
Proof.
  intros Hne Heq He. destruct n as [|[|[|n]]]; [done..|]. rewrite seq_unfold, group_unfold. unfold RPlus.
  rewrite seq_unfold. destruct v as [|x v]; [done|]. destruct n as [|n]; [done|]. rewrite char_unfold. cbn [app].
  destruct (not_space_eq x) eqn:Ex; [|done]. apply match_star_none.
  intros a b Hab Ha. unfold RByte. rewrite char_unfold. destruct b as [|y b]; [done|].
  rewrite bool_decide_false; [done|]. intros ->.
  apply app_eq_inv in Hab as [(k' & E1 & E2)|(k' & E1 & E2)].
  - destruct k' as [|z k']; simpl in E2.
    + destruct rest as [|z rest]; [done|]. simpl in He. by simplify_eq.
    + simplify_eq. apply Heq. right. apply elem_of_app. right. by left.
  - destruct k' as [|z k']; simpl in E2.
    + destruct rest as [|z rest]; [done|]. simpl in He. by simplify_eq.
    + destruct rest as [|z' rest]; [done|]. simpl in He. simplify_eq.
      apply Forall_app in Ha as [_ Ha]. by apply Forall_cons_iff in Ha as [Ha _].
Qed.

Lemma match_word p rest : word p -> ends rest ->
  match_here paramRegex (word_text p ++ rest) = Some (rest, word_caps p).
Proof.
  intros (Hname & _ & Hv & Hvc & Heq) He. unfold match_here, re_fuel. set (N := re_size paramRegex + _).
  assert (length (s2l (pp_Name p)) + length (s2l (pp_Value p)) + 20 < N) as HN.
  { unfold N, word_text, pair_String. change (re_size paramRegex) with 36. rewrite length_app.
    case_bool_decide as E; rewrite ?s2l_app, ?length_app; simpl; [lia|].
    rewrite E. simpl. lia. }
  clearbody N. unfold paramRegex, word_text, word_caps, pair_String. rewrite seq_unfold.
  assert (s2l (pp_Value p) <> []) as Hne by (intros E; apply Hv; by apply s2l_inj).
  destruct N as [|[|[|n]]]; [lia..|]. rewrite opt_unfold.
  destruct (decide (pp_Name p = "")) as [Ep|Ep].
  - rewrite bool_decide_false by (by intros []). rewrite bool_decide_true by done.
    rewrite match_no_name by auto. apply match_word_value; [done..|lia].
  - rewrite bool_decide_true by done. rewrite bool_decide_false by done.
    rewrite !s2l_app, <- !app_assoc. change (s2l "=") with ["="%char]. cbn [app].
    rewrite seq_unfold, group_unfold. set (nm := s2l (pp_Name p)) in *. set (v := s2l (pp_Value p)) in *.
    assert (nm <> []) as Hnm by (intros E; apply Ep; by apply s2l_inj).
    erewrite match_plus_class; [done|done|done|lia| |done].
    unfold RByte. rewrite char_unfold, bool_decide_true by done.
    rewrite match_word_value by (done || lia). by rewrite take_front.
Qed.

Lemma find_word p rest : word p -> ends rest ->
  find_re paramRegex (word_text p ++ rest) = Some ([], rest, word_caps p).
Proof.
  intros Hw He. pose proof (match_word p rest Hw He) as H. destruct (word_text p ++ rest) as [|x l] eqn:E.
  - exfalso. apply app_eq_nil in E as [E _]. destruct Hw as (_ & _ & Hv & _).
    unfold word_text, pair_String in E. case_bool_decide; rewrite ?s2l_app in E.
    + by destruct (s2l (pp_Name p)).
    + apply Hv. by apply s2l_inj.
  - unfold find_re. by rewrite H.
Qed.

(** ** The names of positions *)

Definition digit_char (c : ascii) : Prop := (48 <= nat_of_ascii c <= 57)%nat.

Lemma pretty_N_digits x : forall s, Forall digit_char (s2l s) -> Forall digit_char (s2l (pretty_N_go x s)).
Proof.
  induction (N.lt_wf_0 x) as [x _ IH]; intros s Hs.
  assert (x = 0 \/ 0 < x)%N as [->|Hx] by lia; [by rewrite pretty_N_go_0|].
  rewrite pretty_N_go_step by done. apply IH; [by apply N.div_lt|].
  cbn [s2l]. apply Forall_cons. split; [|done]. unfold digit_char, pretty_N_char. repeat case_match; vm_compute; lia.
Qed.

Lemma pretty_N_longer x : forall s, String.length s <= String.length (pretty_N_go x s).
Proof.
  induction (N.lt_wf_0 x) as [x _ IH]; intros s.
  assert (x = 0 \/ 0 < x)%N as [->|Hx] by lia; [by rewrite pretty_N_go_0|].
  rewrite pretty_N_go_step by done. etrans; [|apply IH, N.div_lt; lia]. simpl. lia.
Qed.

(** The name of a position is made of digits. *)
Lemma pretty_index i : (0 <= i)%Z ->
  pretty (i + 1)%Z <> "" /\ "="%char ∉ s2l (pretty (i + 1)%Z) /\ "000"%char ∉ s2l (pretty (i + 1)%Z).
Proof.
  intros Hi. destruct (i + 1)%Z as [|p|p] eqn:E; [lia| |lia].
  change (pretty (Z.pos p)) with (pretty (N.pos p)).
  assert (Forall digit_char (s2l (pretty (N.pos p)))) as Hd.
  { unfold pretty, pretty_N. rewrite decide_False by done. by apply pretty_N_digits. }
  assert (forall c, ~ digit_char c -> c ∉ s2l (pretty (N.pos p))) as Hno.
  { intros c Hc Hin. rewrite Forall_forall in Hd. by apply Hc, Hd. }
  split_and!.
  - intros H0. change "" with (pretty_N_go 0 "") in H0. apply (f_equal String.length) in H0.
    unfold pretty, pretty_N in H0. rewrite decide_False in H0 by done. rewrite pretty_N_go_step in H0 by done.
    pose proof (pretty_N_longer (N.pos p `div` 10) (String (pretty_N_char (N.pos p `mod` 10)) "")) as Hl.
    simpl in *. lia.
  - apply Hno. vm_compute. lia.
  - apply Hno. vm_compute. lia.
Qed.

(** ** Reading words *)

Lemma expand_none lookupEnv n l : dollar ∉ l -> expand_loop lookupEnv n l = l.
Proof.
  revert l. induction n as [|n IH]; intros l Hl; [done|]. destruct l as [|c [|c' l]]; [done|done|].
  cbn [expand_loop]. rewrite bool_decide_false by (intros ->; apply Hl; by left).
  f_equal. apply IH. intros H. apply Hl. by right.
Qed.

Lemma ExpandEnv_none lookupEnv s : dollar ∉ s2l s -> ExpandEnv lookupEnv s = s.
Proof. intros H. unfold ExpandEnv. rewrite expand_none by done. apply l2s_s2l. Qed.

Lemma word_no p c : word p -> (bare_char c = false \/ c = Pipe.backtick \/ c = dollar \/ c = "000"%char) -> c ∉ s2l (pp_Value p).
Proof.
  intros (_ & _ & _ & Hv & _) Hc Hin. rewrite Forall_forall in Hv. destruct (Hv c Hin) as (H1 & H2 & H3 & H4).
  destruct Hc as [Hc|[Hc|[Hc|Hc]]]; congruence.
Qed.

Section reading.
Context (show_map : list (any * any) -> string) (jq : string -> string -> option string).
Context (sh runCommand : env -> string -> result string) (noEval : bool).

Lemma param_of_word e p : word p -> param_of show_map sh noEval e (word_caps p) = Ok p.
Proof.
  intros Hw. assert (group (word_caps p) 1 = pp_Name p /\ group (word_caps p) 2 = pp_Value p) as [E1 E2].
  { unfold group, word_caps. rewrite lookup_insert_eq, lookup_insert_ne by done. cbn [default].
    split; [|apply l2s_s2l]. case_bool_decide as E.
    - rewrite lookup_empty. by rewrite E.
    - rewrite lookup_insert_eq. apply l2s_s2l. }
  unfold param_of. rewrite E1, E2.
  assert (forall x, x ∉ s2l (pp_Value p) -> has_prefix (pp_Value p) (l2s [x]) = false) as Hno.
  { intros x Hx. unfold has_prefix. rewrite s2l_l2s. destruct (has_prefixl _ _) eqn:E; [|done].
    apply has_prefixl_spec in E as [k Ek]. exfalso. apply Hx. rewrite Ek. by left. }
  rewrite !Hno; [|apply word_no; auto..]. simpl. by destruct p.
Qed.

(** The text of words is read back as the words. *)
Lemma words_read_back e ps : Forall word ps ->
  parseStringParams show_map sh noEval e (join (pair_String <$> ps) " ") = Ok ps.
Proof.
  intros Hw. unfold parseStringParams. set (text := join _ _).
  assert (s2l text = joinl [" "%char] (word_text <$> ps)) as Htext.
  { unfold text, join. rewrite s2l_l2s. f_equal. by rewrite <- list_fmap_compose. }
  rewrite Htext, (find_all_spaced word_text word_caps word); [|intros; by apply find_word| |done].
  - apply mapE_ok_Forall2. apply Forall2_fmap_l, Forall_Forall2_diag.
    eapply Forall_impl; [exact Hw|]. intros p. apply param_of_word.
  - rewrite <- length_s2l, Htext. apply Nat.lt_succ_r, length_spaced.
    eapply Forall_impl; [exact Hw|]. intros p (_ & _ & Hv & _) E. unfold word_text, pair_String in E.
    case_bool_decide; rewrite ?s2l_app in E; [by destruct (s2l (pp_Name p))|]. apply Hv. by apply s2l_inj.
Qed.

Lemma setenv_ok (e : env) key value :
  key <> "" -> "="%char ∉ s2l key -> "000"%char ∉ s2l key -> "000"%char ∉ s2l value ->
  Setenv e key value = Ok (<[key := value]> e).
Proof.
  intros H1 H2 H3 H4. unfold Setenv, has_byte. by rewrite !bool_decide_false by done.
Qed.

(** They are set and kept as they are. *)
Lemma words_loop ps : Forall word ps -> forall e i acc envs, (0 <= i)%Z ->
  exists e' envs', params_loop show_map noEval e i ps acc envs = (e', Ok (acc ++ ps, envs')).
Proof.
  induction 1 as [|p ps Hp Hps IH]; intros e i acc envs Hi; cbn [params_loop].
  { eexists _, _. by rewrite app_nil_r. }
  assert ((if noEval then p else mkPair (pp_Name p) (ExpandEnv (getEnv e) (pp_Value p))) = p) as ->.
  { destruct noEval; [done|]. rewrite ExpandEnv_none by (apply word_no; auto). by destruct p. }
  assert ("000"%char ∉ s2l (pp_Value p)) as H0 by (apply word_no; auto).
  destruct Hp as (Hn & Hn0 & _).
  assert ("000"%char ∉ s2l (pair_String p)) as Hs.
  { unfold pair_String. case_bool_decide; [|done]. rewrite !s2l_app, !elem_of_app. intros [?|[Hin|?]]; [done| |done].
    by apply list_elem_of_singleton in Hin. }
  rewrite setenv_ok; [|by apply pretty_index..|done].
  destruct (negb noEval && bool_decide (pp_Name p <> "")) eqn:E.
  - apply andb_true_iff in E as [_ E%bool_decide_eq_true].
    rewrite setenv_ok; [|done| |done|done].
    + destruct (IH (<[pp_Name p := pp_Value p]> (<[pretty (i + 1)%Z := pair_String p]> e)) (i + 1)%Z (acc ++ [p]) (envs ++ [pair_String p]))
        as (e' & envs' & ->); [lia|]. rewrite <- app_assoc. by eexists _, _.
    + intros Hin. rewrite Forall_forall in Hn. by apply Hn in Hin.
  - destruct (IH (<[pretty (i + 1)%Z := pair_String p]> e) (i + 1)%Z (acc ++ [p]) envs) as (e' & envs' & ->); [lia|].
    rewrite <- app_assoc. by eexists _, _.
Qed.

End reading.

(** ** Overriding twice *)

(** What overriding the defaults makes of them. *)
Definition settled (ds ps : list paramPair) : Prop :=
  length ds <= length ps /\
  (forall i d p, ds !! i = Some d -> ps !! i = Some p -> pp_Name p = "" \/ pp_Name p = pp_Name d) /\
  (forall i p, length ds <= i -> ps !! i = Some p -> pp_Name p = "" \/ pp_Name p ∉ pp_Name <$> ds).

Definition names (ds : list paramPair) : list string := filter (fun n => n <> "") (pp_Name <$> ds).

Lemma name_index_sound ds n i : name_index ds !! n = Some i -> exists d, ds !! i = Some d /\ pp_Name d = n.
Proof.
  unfold name_index. revert i. induction ds as [|d ds IH] using rev_ind; intros i; [simpl; by rewrite lookup_empty|].
  rewrite imap_app, foldl_app. cbn [imap foldl fst snd]. rewrite Nat.add_0_r. case_bool_decide as E.
  - destruct (decide (n = pp_Name d)) as [->|Hn].
    + rewrite lookup_insert_eq. intros [= <-]. exists d. split; [|done]. by apply list_lookup_middle.
    + rewrite lookup_insert_ne by done. intros (d' & Hd & Hn')%IH. exists d'. split; [|done]. by apply lookup_app_l_Some.
  - intros (d' & Hd & Hn')%IH. exists d'. split; [|done]. by apply lookup_app_l_Some.
Qed.

Lemma name_index_complete ds n : n <> "" -> n ∈ pp_Name <$> ds -> is_Some (name_index ds !! n).
Proof.
  unfold name_index. intros Hn. induction ds as [|d ds IH] using rev_ind; [by intros ?%elem_of_nil|].
  rewrite fmap_app, elem_of_app, imap_app, foldl_app. cbn [imap foldl fst snd]. intros [Hin|Hin].
  - case_bool_decide; [|by apply IH]. destruct (decide (n = pp_Name d)) as [->|Hne].
    + rewrite lookup_insert_eq. by eexists.
    + rewrite lookup_insert_ne by done. by apply IH.
  - apply list_elem_of_singleton in Hin as ->. rewrite bool_decide_true by done. rewrite lookup_insert_eq. by eexists.
Qed.

(** Overriding the defaults settles them, and what is settled is kept. *)
Lemma override_step_settled ds ps e :
  settled ds ps -> settled ds (override_step (name_index ds) ps e).
Proof.
  intros (Hl & Hin & Hout). destruct e as [i p]. unfold override_step. case_bool_decide as En.
  - destruct (i <? length ps)%nat eqn:Ei.
    + split_and!.
      * by rewrite length_insert.
      * intros j d q Hd Hq. apply list_lookup_insert_Some in Hq as [(-> & -> & _)|[_ Hq]]; [by left|by eapply Hin].
      * intros j q Hj Hq. apply list_lookup_insert_Some in Hq as [(-> & -> & _)|[_ Hq]]; [by left|by eapply Hout].
    + split_and!.
      * rewrite length_app. lia.
      * intros j d q Hd Hq. apply lookup_app_Some in Hq as [Hq|[_ Hq]]; [by eapply Hin|].
        apply list_lookup_singleton_Some in Hq as [_ <-]. by left.
      * intros j q Hj Hq. apply lookup_app_Some in Hq as [Hq|[_ Hq]]; [by eapply Hout|].
        apply list_lookup_singleton_Some in Hq as [_ <-]. by left.
  - destruct (name_index ds !! pp_Name p) as [j|] eqn:Ej.
    + apply name_index_sound in Ej as (d & Hd & Hn). split_and!.
      * by rewrite length_insert.
      * intros k d' q Hd' Hq. apply list_lookup_insert_Some in Hq as [(-> & -> & _)|[_ Hq]]; [|by eapply Hin].
        right. congruence.
      * intros k q Hk Hq. apply list_lookup_insert_Some in Hq as [(-> & -> & _)|[_ Hq]]; [|by eapply Hout].
        apply lookup_lt_Some in Hd. lia.
    + split_and!.
      * rewrite length_app. lia.
      * intros k d q Hd Hq. apply lookup_app_Some in Hq as [Hq|[Hle Hq]]; [by eapply Hin|].
        apply list_lookup_singleton_Some in Hq as [Hk <-]. apply lookup_lt_Some in Hd. lia.
      * intros k q Hk Hq. apply lookup_app_Some in Hq as [Hq|[_ Hq]]; [by eapply Hout|].
        apply list_lookup_singleton_Some in Hq as [_ <-]. right. intros Hc.
        destruct (name_index_complete ds (pp_Name p)) as [? Hs]; [done..|]. congruence.
Qed.

Lemma overrideParams_settled ds ov : settled ds (overrideParams ds ov).
Proof.
  unfold overrideParams. assert (settled ds ds) as H.
  { split_and!; [done| |].
    - intros i d p Hd Hp. right. congruence.
    - intros i p Hi Hp. apply lookup_lt_Some in Hp. lia. }
  revert H. generalize ds at 2 5 as ps. induction (imap (fun i p => (i, p)) ov) as [|e es IH]; intros ps H; [done|].
  simpl. by apply IH, override_step_settled.
Qed.

Lemma names_lookup ds i j d d' : NoDup (names ds) ->
  ds !! i = Some d -> ds !! j = Some d' -> pp_Name d = pp_Name d' -> pp_Name d <> "" -> i = j.
Proof.
  unfold names. revert i j. induction ds as [|x ds IH]; intros i j Hnd Hi Hj Hn Hne; [done|].
  rewrite fmap_cons, filter_cons in Hnd.
  assert (forall k y, ds !! k = Some y -> pp_Name y <> "" -> pp_Name y ∈ filter (fun n => n <> "") (pp_Name <$> ds)) as Hel.
  { intros k y Hy Hy'. apply list_elem_of_filter. split; [done|]. apply list_elem_of_fmap_2. by eapply list_elem_of_lookup_2. }
  destruct i as [|i], j as [|j]; simpl in Hi, Hj; simplify_eq; [done| | |].
  - rewrite decide_True in Hnd by done. apply NoDup_cons in Hnd as [Hnot _]. exfalso. apply Hnot. rewrite Hn.
    eapply Hel; [exact Hj|congruence].
  - rewrite decide_True in Hnd by congruence. apply NoDup_cons in Hnd as [Hnot _]. exfalso. apply Hnot. rewrite <- Hn.
    eapply Hel; [exact Hi|done].
  - f_equal. apply (IH i j); [|done..]. case_decide; [by apply NoDup_cons in Hnd as [_ ?]|done].
Qed.

Lemma settled_override ds ps : NoDup (names ds) -> settled ds ps -> overrideParams ds ps = ps.
Proof.
  intros Hnd (Hl & Hin & Hout). unfold overrideParams.
  enough (forall k, k <= length ps ->
    foldl (override_step (name_index ds)) ds (imap (fun i p => (i, p)) (take k ps)) = take k ps ++ drop k ds) as H.
  { specialize (H (length ps) (le_n _)). rewrite firstn_all in H. rewrite H, drop_ge by done. apply app_nil_r. }
  induction k as [|k IH]; intros Hk; [by rewrite take_0|].
  destruct (lookup_lt_is_Some_2 ps k) as [p Hp]; [lia|].
  rewrite (take_S_r ps k p Hp), imap_app, foldl_app, IH by lia. cbn [imap foldl].
  rewrite length_take_le by lia. rewrite Nat.add_0_r. unfold override_step.
  assert (length (take k ps) = k) as Hlen by (rewrite length_take; lia).
  assert (k < length ds -> exists d, ds !! k = Some d /\ drop k ds = d :: drop (S k) ds) as Hd.
  { intros Hlt. destruct (lookup_lt_is_Some_2 ds k Hlt) as [d Hd]. exists d. split; [done|]. by apply drop_S. }
  assert (k < length ds -> <[k := p]> (take k ps ++ drop k ds) = (take k ps ++ [p]) ++ drop (S k) ds) as Hset.
  { intros Hlt. destruct (Hd Hlt) as (d & _ & ->). rewrite <- Hlen at 1. rewrite insert_app_r_alt by lia.
    rewrite Nat.sub_diag. simpl. by rewrite <- app_assoc. }
  assert (length ds <= k -> (take k ps ++ drop k ds) ++ [p] = (take k ps ++ [p]) ++ drop (S k) ds) as Hadd.
  { intros Hge. rewrite !drop_ge by lia. by rewrite !app_nil_r. }
  assert (length (take k ps ++ drop k ds) = Nat.max k (length ds)) as Hmax by (rewrite length_app, Hlen, length_drop; lia).
  case_bool_decide as En.
  - destruct (k <? length (take k ps ++ drop k ds))%nat eqn:El.
    + apply Nat.ltb_lt in El. rewrite Hmax in El. apply Hset. lia.
    + apply Nat.ltb_ge in El. rewrite Hmax in El. apply Hadd. lia.
  - destruct (decide (k < length ds)) as [Hlt|Hge].
    + destruct (Hd Hlt) as (d & Hdk & _). destruct (Hin k d p Hdk Hp) as [?|Hn]; [done|].
      destruct (name_index_complete ds (pp_Name p)) as [j Hj]; [done|rewrite Hn; apply list_elem_of_fmap_2; by eapply list_elem_of_lookup_2|].
      rewrite Hj. apply name_index_sound in Hj as (d' & Hd' & Hn').
      assert (j = k) as -> by (eapply names_lookup; [done|exact Hd'|exact Hdk|congruence|congruence]). by apply Hset.
    + destruct (Hout k p) as [?|Hn]; [lia|done|done|].
      destruct (name_index ds !! pp_Name p) as [j|] eqn:Hj; [|apply Hadd; lia].
      apply name_index_sound in Hj as (d & Hd' & Hn'). exfalso. apply Hn. rewrite <- Hn'.
      apply list_elem_of_fmap_2. by eapply list_elem_of_lookup_2.
Qed.

Lemma settled_names ds ds' ps : pp_Name <$> ds' = pp_Name <$> ds -> settled ds ps -> settled ds' ps.
Proof.
  intros Hn (Hl & Hin & Hout). assert (length ds' = length ds) as Hlen by (by rewrite <- (length_fmap pp_Name ds'), Hn, length_fmap).
  split_and!; [lia| |].
  - intros i d p Hd Hp. assert ((pp_Name <$> ds) !! i = Some (pp_Name d)) as Hd' by (rewrite <- Hn, list_lookup_fmap, Hd; done).
    rewrite list_lookup_fmap in Hd'. destruct (ds !! i) as [d0|] eqn:E; [|done]. simpl in Hd'. simplify_eq.
    destruct (Hin i d0 p E Hp) as [?|?]; [by left|right; congruence].
  - intros i p Hi Hp. rewrite Hn. apply (Hout i); [lia|done].
Qed.

(** ** Running again *)

Section rerun.
Context (show_map : list (any * any) -> string) (is_print : Z -> bool).
Context (jq : string -> string -> option string) (sh runCommand : env -> string -> result string).

Abbreviation parse := (parseParams show_map jq sh runCommand false).
Abbreviation build := (buildParams show_map is_print jq sh runCommand false).

Lemma join_words ps : Forall word ps -> ps <> [] -> join (pair_String <$> ps) " " <> "".
Proof.
  intros Hw Hne E. apply (f_equal s2l) in E. unfold join in E. rewrite s2l_l2s in E.
  rewrite <- list_fmap_compose in E. apply Hne, nil_length_inv.
  pose proof (length_spaced word_text ps) as Hl. change (joinl [" "%char] (word_text <$> ps) = []) in E.
  rewrite E in Hl. simpl in Hl. apply Nat.le_0_r, Hl. eapply Forall_impl; [exact Hw|].
  intros p (_ & _ & Hv & _) Ep. unfold word_text, pair_String in Ep.
  case_bool_decide; rewrite ?s2l_app in Ep; [by destruct (s2l (pp_Name p))|]. apply Hv. by apply s2l_inj.
Qed.

(** The words of a run given to another with the same defaults. *)
Lemma build_words e params dag ds envs e0 ps :
  parse e params [] [] = (e0, Ok (ds, envs)) -> NoDup (names ds) -> settled ds ps -> Forall word ps -> DAG.Params dag = [] ->
  exists e2 dag2, build e params (join (pair_String <$> ps) " ") [] dag = (e2, (dag2, None)) /\
    DAG.Params dag2 = pair_String <$> ps.
Proof.
  intros Hp Hnd Hs Hw Hdag. unfold buildParams. rewrite Hp. rewrite (bool_decide_true ([] = [])) by done. cbn [negb].
  destruct (decide (ps = [])) as [->|Hne].
  - assert (ds = []) as -> by (destruct Hs as (Hl & _); by destruct ds; simpl in Hl; [|lia]).
    simpl. eexists _, _. split; [reflexivity|]. simpl. by rewrite Hdag.
  - rewrite bool_decide_true by (by apply join_words). cbn [override_with].
    unfold parseParams. cbn [parseParamValue]. rewrite words_read_back by done.
    destruct (words_loop show_map false ps Hw e0 0 [] []) as (e2 & envs2 & ->); [done|]. cbn [app].
    rewrite settled_override by done.
    eexists _, _. split; [reflexivity|]. cbn. by rewrite Hdag.
Qed.

Lemma override_absent v acc : override_with show_map jq sh runCommand false v false acc = acc.
Proof. by destruct acc as [? [[? ?]|?]]. Qed.

(** The parameters of a run: the defaults, overridden by what it was given. *)
Definition run_pairs (e : env) (params : any) (given : string) (givenList : list string)
    : env * result (list paramPair * list string) :=
  match parse e params [] [] with
  | (e, Err x) => (e, Err x)
  | (e, Ok defaults) =>
      override_with show_map jq sh runCommand false (VStrList givenList) (negb (bool_decide (givenList = [])))
        (override_with show_map jq sh runCommand false (VStr given) (bool_decide (given <> "")) (e, Ok defaults))
  end.

Lemma build_run_pairs e params given givenList dag e1 ps envs1 :
  run_pairs e params given givenList = (e1, Ok (ps, envs1)) ->
  exists dag1, build e params given givenList dag = (e1, (dag1, None)) /\
    DAG.Params dag1 = DAG.Params dag ++ (pair_String <$> ps).
Proof.
  unfold run_pairs, buildParams. destruct (parse e params [] []) as [e0 [[ds envs]|x]]; [|done].
  intros ->. eexists. split; [reflexivity|done].
Qed.

Lemma run_pairs_settled e params given givenList ds envs e0 e1 ps envs1 :
  parse e params [] [] = (e0, Ok (ds, envs)) -> given = "" \/ givenList = [] ->
  run_pairs e params given givenList = (e1, Ok (ps, envs1)) -> settled ds ps.
Proof.
  intros Hp Hg. unfold run_pairs. rewrite Hp.
  assert (forall v present ps envs1 e2, override_with show_map jq sh runCommand false v present (e0, Ok (ds, envs)) = (e2, Ok (ps, envs1)) -> settled ds ps) as Ho.
  { intros v [] ps' envs' e2; cbn [override_with].
    - destruct (parse e0 v [] []) as [? [[? ?]|]]; [|done]. intros [= <- <- <-]. apply overrideParams_settled.
    - intros [= <- <- <-]. apply (overrideParams_settled ds []). }
  destruct Hg as [->| ->].
  - apply Ho.
  - rewrite (bool_decide_true ([] = [])), override_absent by done. apply Ho.
Qed.

End rerun.
