(* ===== verification/StepBuild.v ===== *)
(** * Building steps: internal/digraph spec.go, builder.go, command.go, func.go, assert.go

    The records of the decoded specification and the builders of one step.  A Go
    map is the list of its entries in the order of the range; the names of
    signals and the Unicode tables are arguments. *)

From stdpp Require Import pretty.
From S2P Require Import Prelude GoStrings Utf8 Vars Digraph CmdUtil Eval Regex Params.
From Stdlib Require Import Ascii.

(** ** The specification (spec.go) *)

Module funcDef.
Record t := mk { Name : string; Params : string; Command : string }.
Definition empty : t := mk "" "" "".
End funcDef.

Module callFuncDef.
Record t := mk { Function : string; Args : list (string * any) }.
End callFuncDef.

Module continueOnDef.
Record t := mk { Failure : bool; Skipped : bool; ExitCode : any; Output : any; MarkSuccess : bool }.
End continueOnDef.

Module repeatPolicyDef.
Record t := mk { Repeat : bool; IntervalSec : Z }.
End repeatPolicyDef.

Module retryPolicyDef.
Record t := mk { Limit : any; IntervalSec : any }.
End retryPolicyDef.

Module smtpConfigDef.
Record t := mk { Host : string; Port : string; Username : string; Password : string }.
End smtpConfigDef.

Module mailConfigDef.
Record t := mk { From_ : string; To_ : string; Prefix : string; AttachLogs : bool }.
End mailConfigDef.

Module mailOnDef.
Record t := mk { Failure : bool; Success : bool }.
End mailOnDef.

Module stepDef.
Record t := mk {
  Name : string;
  Description : string;
  Dir : string;
  Executor : any;
  Command : any;
  Shell : string;
  Script : string;
  Stdout : string;
  Stderr : string;
  Output : string;
  Depends : any;
  ContinueOn : option continueOnDef.t;
  RetryPolicy : option retryPolicyDef.t;
  RepeatPolicy : option repeatPolicyDef.t;
  MailOnError : bool;
  Precondition : any;
  Preconditions : any;
  SignalOnStop : option string;
  Call : option callFuncDef.t;
  Run : string;
  Params : string
}.

Definition set_Name (d : t) (v : string) : t :=
  mk v (Description d) (Dir d) (Executor d) (Command d) (Shell d) (Script d) (Stdout d) (Stderr d)
    (Output d) (Depends d) (ContinueOn d) (RetryPolicy d) (RepeatPolicy d) (MailOnError d)
    (Precondition d) (Preconditions d) (SignalOnStop d) (Call d) (Run d) (Params d).
End stepDef.

(** ** Errors (errors.go) *)

Definition ErrExecutorConfigMustBeString : error := ENew "executor config key must be string".
Definition ErrStepNameRequired : error := ENew "step name must be specified".
Definition ErrStepCommandIsRequired : error := ENew "step command is required".
Definition ErrStepCommandIsEmpty : error := ENew "step command is empty".
Definition ErrStepCommandMustBeArrayOrString : error :=
  ENew "step command must be an array of strings or a string".
Definition ErrCallFunctionNotFound : error := ENew "call must specify a functions that exists".
Definition ErrNumberOfParamsMismatch : error :=
  ENew "the number of parameters defined in the function does not match the number of parameters given".
Definition ErrRequiredParameterNotFound : error := ENew "required parameter not found".
Definition ErrInvalidSignal : error := ENew "invalid signal".
Definition ErrArgsMustBeConvertibleToIntOrString : error :=
  ENew "args must be convertible to either int or string".
Definition ErrExecutorTypeMustBeString : error := ENew "executor.type value must be string".
Definition ErrExecutorConfigValueMustBeMap : error := ENew "executor.config value must be a map".
Definition ErrExecutorHasInvalidKey : error := ENew "executor has invalid key".
Definition ErrExecutorConfigMustBeStringOrMap : error := ENew "executor config must be string or map".
Definition ErrPreconditionMustBeArrayOrString : error :=
  ENew "precondition must be a string or an array of strings".
Definition ErrPreconditionKeyMustBeString : error := ENew "precondition key must be a string".
Definition ErrPreconditionValueMustBeString : error := ENew "precondition value must be a string".
Definition ErrPreconditionHasInvalidKey : error := ENew "precondition has invalid key".
Definition ErrContinueOnOutputMustBeStringOrArray : error :=
  ENew "continueOn.Output must be a string or an array of strings".
Definition ErrContinueOnExitCodeMustBeIntOrArray : error :=
  ENew "continueOn.ExitCode must be an int or an array of ints".
Definition ErrDependsMustBeStringOrArray : error := ENew "depends must be a string or an array of strings".

(** ** Values *)

Definition expected_got (what : string) (v : any) : error :=
  ENew (what +:+ " or array expected, got " +:+ type_name v).

Definition parseIntOrArray (v : any) : result (list Z) :=
  match v with
  | VNil => Ok []
  | VInt n => Ok [n]
  | VList l => mapE (fun x => match x with VInt n => Ok n | x => Err (expected_got "int" x) end) l
  | VStr s => match Atoi s with Some n => Ok [n] | None => Err (expected_got "int" v) end
  | v => Err (expected_got "int" v)
  end.

Definition parseStringOrArray (v : any) : result (list string) :=
  match v with
  | VNil => Ok []
  | VStr s => Ok [s]
  | VList l => mapE (fun x => match x with VStr s => Ok s | x => Err (expected_got "string" x) end) l
  | v => Err (expected_got "string" v)
  end.

Definition parseKey (v : any) : result string :=
  match v with
  | VStr s => Ok s
  | v => Err (EWrap "" ErrInvalidKeyType (": " +:+ type_name v))
  end.

(** The conversion of one value of an executor configuration: maps at every
    depth, but not inside lists, get string keys. *)
Fixpoint convert (v : any) : result any :=
  match v with
  | VMap m =>
      (fix go (l : list (any * any)) (acc : list (string * any)) : result any :=
         match l with
         | [] => Ok (VStrMap (rev acc))
         | (k, x) :: l =>
             match parseKey k with
             | Err e => Err (EWrap "" ErrExecutorConfigMustBeString (": " +:+ error_text e))
             | Ok key => match convert x with Err e => Err e | Ok x => go l ((key, x) :: acc) end
             end
         end) m []
  | v => Ok v
  end.

(** [convertMap]: the queue of the code visits the maps level by level, this one
    depth first; they differ in which of several errors is found first. *)
Definition convertMap (m : gmap string any) : result (gmap string any) :=
  match mapE (fun e => match convert (snd e) with Ok v => Ok (fst e, v) | Err x => Err x end)
             (map_to_list m) with
  | Ok l => Ok (list_to_map l)
  | Err e => Err e
  end.

(** [strings.Fields]. *)
Fixpoint fields_loop (cur : bytes) (l : list (Z * bytes)) : list bytes :=
  match l with
  | [] => match cur with [] => [] | _ => [cur] end
  | (r, b) :: l =>
      if IsSpace r then match cur with [] => fields_loop [] l | _ => cur :: fields_loop [] l end
      else fields_loop (cur ++ b) l
  end.

Definition Fields (s : string) : list string := l2s <$> fields_loop [] (decode (s2l s)).

(** The names after the dollar signs of a command. *)
Definition extractParamNames (command : string) : list string :=
  (fun w => trim_prefix w "$") <$> filter (fun w => has_prefix w "$" = true) (Fields command).

Definition assignValues (command : string) (params : list (string * string)) : string :=
  foldl (fun c e => replace_all c ("$" +:+ fst e) (snd e)) command params.

(** The first function of a name; the empty one when there is none. *)
Definition find_func (fns : list funcDef.t) (name : string) : funcDef.t :=
  default funcDef.empty (find (fun f => bool_decide (funcDef.Name f = name)) fns).

Section build.
Context (show_map : list (any * any) -> string) (is_print : Z -> bool).
(** [unix.SignalNum]: 0 for an unknown name. *)
Context (signalNum : string -> Z).
(** The order in which a range visits the arguments passed to a function. *)
Context (reorder : list (string * string) -> list (string * string)).

Abbreviation wrap := (wrapError show_map).

(** ** Conditions *)

Definition condition_entry (c : Condition.t) (e : any * any) : result Condition.t :=
  match fst e with
  | VStr key =>
      let lower := lower_key key in
      let put (f : string -> Condition.t) :=
        match snd e with
        | VStr s => Ok (f s)
        | v => Err (wrap "preconditions" v ErrPreconditionValueMustBeString)
        end in
      if bool_decide (lower = "condition") then
        put (fun s => Condition.mk (Condition.Command c) s (Condition.Expected c))
      else if bool_decide (lower = "expected") then
        put (fun s => Condition.mk (Condition.Command c) (Condition.Condition c) s)
      else if bool_decide (lower = "command") then
        put (fun s => Condition.mk s (Condition.Condition c) (Condition.Expected c))
      else Err (wrap "preconditions" (VStr key) (EWrap "" ErrPreconditionHasInvalidKey (": " +:+ key)))
  | k => Err (wrap "preconditions" k ErrPreconditionKeyMustBeString)
  end.

Fixpoint parsePrecondition (v : any) : result (list Condition.t) :=
  match v with
  | VNil => Ok []
  | VStr s => Ok [Condition.mk s "" ""]
  | VMap m =>
      match foldE condition_entry Condition.empty m with
      | Err e => Err e
      | Ok c => match Condition.Validate c with
                | Some e => Err (wrap "preconditions" v e)
                | None => Ok [c]
                end
      end
  | VList l =>
      (fix go (l : list any) : result (list Condition.t) :=
         match l with
         | [] => Ok []
         | x :: l =>
             match parsePrecondition x with
             | Err e => Err e
             | Ok cs => match go l with Err e => Err e | Ok ds => Ok (cs ++ ds) end
             end
         end) l
  | v => Err (wrap "preconditions" v ErrPreconditionMustBeArrayOrString)
  end.

(** Both fields, [preconditions] first. *)
Definition both_preconditions (preconditions precondition : any) : result (list Condition.t) :=
  match parsePrecondition preconditions with
  | Err e => Err e
  | Ok cs => match parsePrecondition precondition with Err e => Err e | Ok ds => Ok (cs ++ ds) end
  end.

(** ** The builders of a step *)

(** One entry of the executor map. *)
Definition config_entry (m : gmap string any) (e : any * any) : result (gmap string any) :=
  match fst e with
  | VStr k => Ok (<[k := snd e]> m)
  | k => Err (wrap "executor.config" k ErrExecutorConfigMustBeString)
  end.

Definition executor_entry (c : ExecutorConfig.t) (e : any * any) : result ExecutorConfig.t :=
  match fst e with
  | VStr key =>
      if bool_decide (key = "type") then
        match snd e with
        | VStr typ => Ok (ExecutorConfig.mk typ (ExecutorConfig.Config c))
        | v => Err (wrap "executor.type" v ErrExecutorTypeMustBeString)
        end
      else if bool_decide (key = "config") then
        match snd e with
        | VMap m =>
            match foldE config_entry (ExecutorConfig.Config c) m with
            | Ok m => Ok (ExecutorConfig.mk (ExecutorConfig.Type_ c) m)
            | Err x => Err x
            end
        | v => Err (wrap "executor.config" v ErrExecutorConfigValueMustBeMap)
        end
      else Err (wrap "executor.config" (VStr key) (EWrap "" ErrExecutorHasInvalidKey (": " +:+ key)))
  | k => Err (wrap "executor.config" k ErrExecutorConfigMustBeString)
  end.

Definition buildExecutor (def : stepDef.t) (step : Step.t) : result Step.t :=
  match stepDef.Executor def with
  | VNil => Ok step
  | v =>
      let config :=
        match v with
        | VStr s => Ok (ExecutorConfig.mk s (ExecutorConfig.Config (Step.ExecutorConfig step)))
        | VMap m => foldE executor_entry (Step.ExecutorConfig step) m
        | v => Err (wrap "executor" v ErrExecutorConfigMustBeStringOrMap)
        end in
      match config with
      | Err e => Err e
      | Ok c => match convertMap (ExecutorConfig.Config c) with
                | Err e => Err e
                | Ok m => Ok (Step.set_ExecutorConfig step (ExecutorConfig.mk (ExecutorConfig.Type_ c) m))
                end
      end
  end.

(** The words of a command given as a list: the first one that is not empty is
    the command. *)
Definition command_word (acc : string * list string) (v : any) : string * list string :=
  let val := show show_map v in
  if bool_decide (fst acc = "") then (val, snd acc) else (fst acc, snd acc ++ [val]).

Definition buildCommand (def : stepDef.t) (step : Step.t) : result Step.t :=
  match stepDef.Command def with
  | VNil => Ok step
  | VStr val =>
      if bool_decide (val = "") then Err (wrap "command" (VStr val) ErrStepCommandIsEmpty)
      else
        match SplitCommand val with
        | Err e => Err (wrap "command" (VStr val) (EWrap "failed to parse command: " e ""))
        | Ok (cmd, args) => Ok (Step.set_Args (Step.set_Command (Step.set_CmdWithArgs step val) cmd) args)
        end
  | VList l =>
      let '(command, args) := foldl command_word ("", []) l in
      (* the arguments the step had before *)
      let quoted := join (Quote is_print <$> Step.Args step) " " in
      let step := Step.set_Args (Step.set_Command step command) args in
      Ok (Step.set_CmdArgsSys (Step.set_CmdWithArgs step (command +:+ " " +:+ quoted))
            (JoinCommandArgs command args))
  | v => Err (wrap "command" v ErrStepCommandMustBeArrayOrString)
  end.

Definition buildDepends (def : stepDef.t) (step : Step.t) : result Step.t :=
  match parseStringOrArray (stepDef.Depends def) with
  | Err _ => Err (wrap "depends" (stepDef.Depends def) ErrDependsMustBeStringOrArray)
  | Ok deps => Ok (Step.set_Depends step deps)
  end.

Definition commandRun : string := "run".
Definition ExecutorTypeSubWorkflow : string := "subworkflow".

Definition buildSubWorkflow (def : stepDef.t) (step : Step.t) : result Step.t :=
  let name := stepDef.Run def in
  let params := stepDef.Params def in
  if bool_decide (name = "") then Ok step
  else
    let step := Step.set_SubWorkflow step (Some (SubWorkflow.mk name params)) in
    let step := Step.set_ExecutorConfig step
                  (ExecutorConfig.mk ExecutorTypeSubWorkflow (ExecutorConfig.Config (Step.ExecutorConfig step))) in
    let step := Step.set_Args (Step.set_Command step commandRun) [name; params] in
    Ok (Step.set_CmdWithArgs step (name +:+ " " +:+ params)).

Definition buildContinueOn (def : stepDef.t) (step : Step.t) : result Step.t :=
  match stepDef.ContinueOn def with
  | None => Ok step
  | Some c =>
      match parseIntOrArray (continueOnDef.ExitCode c) with
      | Err _ => Err (wrap "continueOn.exitCode" (continueOnDef.ExitCode c) ErrContinueOnExitCodeMustBeIntOrArray)
      | Ok codes =>
          match parseStringOrArray (continueOnDef.Output c) with
          | Err _ => Err (wrap "continueOn.stdout" (continueOnDef.Output c) ErrContinueOnOutputMustBeStringOrArray)
          | Ok out =>
              Ok (Step.set_ContinueOn step
                    (ContinueOn.mk (continueOnDef.Failure c) (continueOnDef.Skipped c) codes out
                       (continueOnDef.MarkSuccess c)))
          end
      end
  end.

Definition invalid_type (v : any) : error := ENew ("invalid type: " +:+ type_name v).

Definition buildRetryPolicy (def : stepDef.t) (step : Step.t) : result Step.t :=
  match stepDef.RetryPolicy def with
  | None => Ok step
  | Some r =>
      let p := Step.RetryPolicy step in
      let limit :=
        match retryPolicyDef.Limit r with
        | VInt n => Ok (RetryPolicy.mk n (RetryPolicy.Interval p) (RetryPolicy.LimitStr p) (RetryPolicy.IntervalSecStr p))
        | VStr s => Ok (RetryPolicy.mk (RetryPolicy.Limit p) (RetryPolicy.Interval p) s (RetryPolicy.IntervalSecStr p))
        | v => Err (wrap "retryPolicy.Limit" v (invalid_type v))
        end in
      match limit with
      | Err e => Err e
      | Ok p =>
          match retryPolicyDef.IntervalSec r with
          | VInt n => Ok (Step.set_RetryPolicy step
              (RetryPolicy.mk (RetryPolicy.Limit p) (seconds n) (RetryPolicy.LimitStr p) (RetryPolicy.IntervalSecStr p)))
          | VStr s => Ok (Step.set_RetryPolicy step
              (RetryPolicy.mk (RetryPolicy.Limit p) (RetryPolicy.Interval p) (RetryPolicy.LimitStr p) s))
          | v => Err (wrap "retryPolicy.IntervalSec" v (invalid_type v))
          end
      end
  end.

Definition buildRepeatPolicy (def : stepDef.t) (step : Step.t) : result Step.t :=
  match stepDef.RepeatPolicy def with
  | None => Ok step
  | Some r => Ok (Step.set_RepeatPolicy step
                    (RepeatPolicy.mk (repeatPolicyDef.Repeat r) (seconds (repeatPolicyDef.IntervalSec r))))
  end.

Definition buildSignalOnStop (def : stepDef.t) (step : Step.t) : result Step.t :=
  match stepDef.SignalOnStop def with
  | None => Ok step
  | Some s => if (signalNum s =? 0)%Z then Err (EWrap "" ErrInvalidSignal (": " +:+ s))
              else Ok (Step.set_SignalOnStop step s)
  end.

Definition buildStepPrecondition (def : stepDef.t) (step : Step.t) : result Step.t :=
  match both_preconditions (stepDef.Preconditions def) (stepDef.Precondition def) with
  | Err e => Err e
  | Ok cs => Ok (Step.set_Preconditions step cs)
  end.

Definition stepBuilderRegistry : list (string * (stepDef.t -> Step.t -> result Step.t)) := [
  ("executor", buildExecutor);
  ("command", buildCommand);
  ("depends", buildDepends);
  ("subworkflow", buildSubWorkflow);
  ("continueOn", buildContinueOn);
  ("retryPolicy", buildRetryPolicy);
  ("repeatPolicy", buildRepeatPolicy);
  ("signalOnStop", buildSignalOnStop);
  ("precondition", buildStepPrecondition) ].

(** ** Validation and function calls *)

Definition assertStepDef (def : stepDef.t) (funcs : list funcDef.t) : option error :=
  let is_nil v := match v with VNil => true | _ => false end in
  if bool_decide (stepDef.Name def = "") then Some (wrap "name" (VStr "") ErrStepNameRequired)
  else if is_nil (stepDef.Command def) && is_nil (stepDef.Executor def) &&
          bool_decide (stepDef.Script def = "") && bool_decide (stepDef.Call def = None) &&
          bool_decide (stepDef.Run def = "")
  then Some ErrStepCommandIsRequired
  else
    match stepDef.Call def with
    | None => None
    | Some call =>
        let name := callFuncDef.Function call in
        let f := find_func funcs name in
        let params := split (funcDef.Params f) " " in
        if bool_decide (funcDef.Name f = "") then Some (wrap "function" (VStr name) ErrCallFunctionNotFound)
        else if negb (length (callFuncDef.Args call) =? length params)
        then Some (wrap "function" (VStr name) ErrNumberOfParamsMismatch)
        else if forallb (fun p => bool_decide (p ∈ fst <$> callFuncDef.Args call)) params then None
        else Some (wrap "function" (VStr name) ErrRequiredParameterNotFound)
    end.

Definition call_arg (e : string * any) : result (string * string) :=
  match snd e with
  | VStr s => Ok (fst e, s)
  | VInt n => Ok (fst e, pretty n)
  | _ => Err ErrArgsMustBeConvertibleToIntOrString
  end.

Definition parseFuncCall (step : Step.t) (call : option callFuncDef.t) (funcs : list funcDef.t)
    : result Step.t :=
  match call with
  | None => Ok step
  | Some call =>
      match mapE call_arg (callFuncDef.Args call) with
      | Err e => Err e
      | Ok args =>
          let f := find_func funcs (callFuncDef.Function call) in
          let command := funcDef.Command f in
          let step := Step.set_Args step (snd <$> args) in
          let step := Step.set_Command step
                        (l2s (remove_all (S (String.length command)) paramRegex (s2l command))) in
          Ok (Step.set_CmdWithArgs step (assignValues command (reorder args)))
      end
  end.

(** ** [buildStep] *)

Definition new_step (def : stepDef.t) : Step.t :=
  Step.mk (stepDef.Name def) (stepDef.Description def) (stepDef.Shell def) None (stepDef.Dir def)
    ExecutorConfig.empty "" "" "" "" (stepDef.Script def) [] (stepDef.Stdout def) (stepDef.Stderr def)
    (stepDef.Output def) [] ContinueOn.empty RetryPolicy.empty RepeatPolicy.empty
    (stepDef.MailOnError def) [] "" None.

Definition run_builder (def : stepDef.t) (step : Step.t)
    (entry : string * (stepDef.t -> Step.t -> result Step.t)) : result Step.t :=
  match snd entry def step with
  | Ok step => Ok step
  | Err e => Err (EWrap (fst entry +:+ ": ") e "")
  end.

Definition buildStep (def : stepDef.t) (fns : list funcDef.t) : result Step.t :=
  match assertStepDef def fns with
  | Some e => Err e
  | None =>
      match parseFuncCall (new_step def) (stepDef.Call def) fns with
      | Err e => Err e
      | Ok step => foldE (run_builder def) step stepBuilderRegistry
      end
  end.

End build.
