(* ===== verification/Builder.v ===== *)
(** * Building workflows: internal/digraph builder.go, schedule.go, variables.go, assert.go, loader.go

    From the decoded specification to the workflow record.  The environment of
    the process is passed through the builders that read and set it.  YAML and
    mapstructure decoding, the cron parser, godotenv, mergo, the file system and
    Unicode tables are arguments. *)

From stdpp Require Import pretty.
From S2P Require Import Prelude GoStrings Utf8 Vars Digraph CmdUtil Eval Paths Regex Params StepBuild.
From Stdlib Require Import Ascii.

Module handlerOnDef.
Record t := mk {
  Failure : option stepDef.t;
  Success : option stepDef.t;
  Cancel : option stepDef.t;
  Exit : option stepDef.t
}.
End handlerOnDef.

Module definition.
Record t := mk {
  Name : string;
  Group : string;
  Description : string;
  Dotenv : any;
  Schedule : any;
  SkipIfSuccessful : bool;
  LogDir : string;
  Env : any;
  HandlerOn : handlerOnDef.t;
  Functions : list funcDef.t;
  Steps : any;
  SMTP : smtpConfigDef.t;
  MailOn : option mailOnDef.t;
  ErrorMail : mailConfigDef.t;
  InfoMail : mailConfigDef.t;
  TimeoutSec : Z;
  DelaySec : Z;
  RestartWaitSec : Z;
  HistRetentionDays : option Z;
  Precondition : any;
  Preconditions : any;
  MaxActiveRuns : Z;
  Params : any;
  MaxCleanUpTimeSec : option Z;
  Tags : any
}.
End definition.

(** [BuildOpts], with the file of the build context. *)
Record BuildContext := mkBuild {
  bc_file : string;
  bc_Base : string;
  bc_OnlyMetadata : bool;
  bc_Parameters : string;
  bc_ParametersList : list string;
  bc_NoEval : bool
}.

Definition ErrDuplicateFunction : error := ENew "duplicate function".
Definition ErrFuncParamsMismatch : error :=
  ENew "func params and args given to func command do not match".
Definition ErrDotenvMustBeStringOrArray : error := ENew "dotenv must be a string or an array of strings".
Definition ErrStepsMustBeArrayOrMap : error := ENew "steps must be an array or a map".

Section builder.
Context (show_map : list (any * any) -> string) (is_print : Z -> bool) (rune_lower : Z -> Z).
Context (jq : string -> string -> option string).
Context (sh runCommand : env -> string -> result string).
Context (signalNum : string -> Z).
Context (reorder : list (string * string) -> list (string * string)).
(** The cron parser. *)
Context (cron : string -> result (Z -> Z)).
(** The decoding of the steps, as a list or as a map in the order of its range. *)
Context (decode_list : list any -> result (list stepDef.t)).
Context (decode_map : list (any * any) -> result (list (string * stepDef.t))).
(** Files: existence, directories, the home directory, [godotenv.Load]. *)
Context (fileExists isDir : string -> bool) (homeDir : env -> option string).
Context (loadDotenv : string -> env -> result env).

Abbreviation wrap := (wrapError show_map).

(** ** Schedules (schedule.go) *)

Definition buildScheduler (values : list string) : result (list Schedule.t) :=
  mapE (fun v => match cron v with
                 | Ok parsed => Ok (Schedule.mk v parsed)
                 | Err e => Err (EWrap "" ErrInvalidSchedule (": " +:+ error_text e))
                 end) values.

(** The texts of a list; anything else is the error. *)
Definition schedule_strings (l : list any) : result (list string) :=
  mapE (fun s => match s with
                 | VStr s => Ok s
                 | _ => Err (wrap "schedule" (VStr "") ErrScheduleMustBeStringOrArray)
                 end) l.

Definition check_cron (v : string) : result string :=
  match cron v with
  | Ok _ => Ok v
  | Err e => Err (wrap "schedule" (VStr v) (EWrap "" ErrInvalidSchedule (": " +:+ error_text e)))
  end.

(** One entry of the schedule map, on the three lists.  For an unknown key the
    target is a nil pointer, dereferenced at the first valid value. *)
Definition schedule_entry (acc : list string * list string * list string) (e : any * any)
    : result (list string * list string * list string) :=
  match fst e with
  | VStr key =>
      let values := match snd e with
                    | VStr v => Ok [v]
                    | VList l => schedule_strings l
                    | _ => Ok []
                    end in
      match values with
      | Err x => Err x
      | Ok values =>
          let '(starts, stops, restarts) := acc in
          let known := bool_decide (key ∈ ["start"; "stop"; "restart"]) in
          match values, known with
          | v :: _, false => match check_cron v with
                             | Ok _ => Err (panic "nil pointer dereference")
                             | Err x => Err x
                             end
          | _, _ =>
              match mapE check_cron values with
              | Err x => Err x
              | Ok vs =>
                  if bool_decide (key = "start") then Ok (starts ++ vs, stops, restarts)
                  else if bool_decide (key = "stop") then Ok (starts, stops ++ vs, restarts)
                  else if bool_decide (key = "restart") then Ok (starts, stops, restarts ++ vs)
                  else Ok acc
              end
          end
      end
  | k => Err (wrap "schedule" k ErrScheduleKeyMustBeString)
  end.

Definition parseScheduleMap (m : list (any * any)) : result (list string * list string * list string) :=
  foldE schedule_entry ([], [], []) m.

(** ** Builders of the workflow: the environment, and the workflow or an error *)

Abbreviation built := (env * (DAG.t * option error))%type.
Abbreviation Builder := (BuildContext -> definition.t -> env -> DAG.t -> built).

Definition ok (e : env) (d : DAG.t) : built := (e, (d, None)).
Definition fail (e : env) (d : DAG.t) (x : error) : built := (e, (d, Some x)).

Definition schedule_texts (v : any) : result (list string * list string * list string) :=
  match v with
  | VStr s => Ok ([s], [], [])
  | VList l => match schedule_strings l with Ok ss => Ok (ss, [], []) | Err x => Err x end
  | VMap m => parseScheduleMap m
  | VNil => Ok ([], [], [])
  | v => Err (wrap "schedule" v ErrInvalidScheduleType)
  end.

Definition buildSchedule : Builder := fun _ spec e dag =>
  match schedule_texts (definition.Schedule spec) with
  | Err x => fail e dag x
  | Ok (starts, stops, restarts) =>
      match buildScheduler starts with
      | Err x => fail e (DAG.set_Schedule dag []) x
      | Ok s1 =>
          let dag := DAG.set_Schedule dag s1 in
          match buildScheduler stops with
          | Err x => fail e (DAG.set_StopSchedule dag []) x
          | Ok s2 =>
              let dag := DAG.set_StopSchedule dag s2 in
              match buildScheduler restarts with
              | Err x => fail e (DAG.set_RestartSchedule dag []) x
              | Ok s3 => ok e (DAG.set_RestartSchedule dag s3)
              end
          end
      end
  end.

(** [parseKeyValue] and [loadVariables] (variables.go). *)
Definition parseKeyValue (m : list (any * any)) : result (list (string * string)) :=
  mapE (fun e => match fst e with
                 | VStr k => Ok (k, show show_map (snd e))
                 | k => Err (wrap "env" k ErrInvalidKeyType)
                 end) m.

Definition env_pairs (v : any) : result (list (string * string)) :=
  match v with
  | VMap m => match parseKeyValue m with Ok l => Ok l | Err x => Err (wrap "env" v x) end
  | VList l =>
      concatE (fun x => match x with
                        | VMap m => match parseKeyValue m with Ok l => Ok l | Err y => Err (wrap "env" x y) end
                        | _ => Ok []
                        end) l
  | _ => Ok []
  end.

(** The variables, a map, as its list of bindings without the overwritten ones. *)
Fixpoint load_pairs (noEval : bool) (e : env) (pairs : list (string * string)) (vars : gmap string string)
    : env * result (gmap string string) :=
  match pairs with
  | [] => (e, Ok vars)
  | (k, v) :: pairs =>
      if noEval then load_pairs noEval e pairs (<[k := v]> vars)
      else
        match evalString jq runCommand e v with
        | Err _ => (e, Err (wrap "env" (VStr v) (EWrap "" ErrInvalidEnvValue (": " +:+ v))))
        | Ok value =>
            match Setenv e k value with
            | Err x => (e, Err (wrap "env" (VStr k) x))
            | Ok e => load_pairs noEval e pairs (<[k := value]> vars)
            end
        end
  end.

Definition loadVariables (noEval : bool) (e : env) (v : any) : env * result (gmap string string) :=
  match env_pairs v with
  | Err x => (e, Err x)
  | Ok pairs => load_pairs noEval e pairs ∅
  end.

(** The order in which a range visits the variables. *)
Context (range : gmap string string -> list (string * string)).

Definition buildEnvs : Builder := fun ctx spec e dag =>
  match loadVariables (bc_NoEval ctx) e (definition.Env spec) with
  | (e, Err x) => fail e dag x
  | (e, Ok vars) => ok e (DAG.set_Env dag (DAG.Env dag ++ ((fun kv => fst kv +:+ "=" +:+ snd kv) <$> range vars)))
  end.

Definition skipIfSuccessful : Builder := fun _ spec e dag =>
  ok e (DAG.set_SkipIfSuccessful dag (definition.SkipIfSuccessful spec)).

Definition build_params : Builder := fun ctx spec e dag =>
  buildParams show_map is_print jq sh runCommand (bc_NoEval ctx) e (definition.Params spec)
    (bc_Parameters ctx) (bc_ParametersList ctx) dag.

(** *** The dotenv files (resolver.go) *)

Definition getSearchPaths (e : env) (relativeTos : list string) (file : string) : list string :=
  ((fun r => if isDir r then Join [r; file] else Join [Dir r; file]) <$> relativeTos) ++
  match homeDir e with
  | Some h => if bool_decide (h = "") then [] else [Join [h; file]]
  | None => []
  end.

Definition ResolveFilePath (e : env) (relativeTos : list string) (file : string) : option string :=
  if IsAbs file then (if fileExists file then Some file else None)
  else find (fun p => fileExists p) (getSearchPaths e relativeTos file).

(** The first file that resolves is loaded; the error of an evaluation names the
    empty path the failed call returned. *)
Fixpoint load_dotenv (e : env) (relativeTos : list string) (files : list string) : env * option error :=
  match files with
  | [] => (e, None)
  | f :: files =>
      match evalString jq runCommand e f with
      | Err x => (e, Some (wrap "dotenv" (VStr "") (EWrap "failed to evaluate dotenv file path : " x "")))
      | Ok path =>
          match ResolveFilePath e relativeTos path with
          | None => load_dotenv e relativeTos files
          | Some resolved =>
              match loadDotenv resolved e with
              | Err x => (e, Some (wrap "dotenv" (VStr path)
                                     (EWrap ("failed to load dotenv file " +:+ path +:+ ": ") x "")))
              | Ok e => (e, None)
              end
          end
      end
  end.

(** The names read before an error, and the error. *)
Fixpoint dotenv_list (l : list any) : list string * option error :=
  match l with
  | [] => ([], None)
  | VStr s :: l => let '(files, err) := dotenv_list l in (s :: files, err)
  | x :: _ => ([], Some (wrap "dotenv" x ErrDotenvMustBeStringOrArray))
  end.

Definition dotenv_files (v : any) : list string * option error :=
  match v with
  | VNil => ([], None)
  | VStr s => ([s], None)
  | VList l => dotenv_list l
  | v => ([], Some (wrap "dotenv" v ErrDotenvMustBeStringOrArray))
  end.

Definition buildDotenv : Builder := fun ctx spec e dag =>
  let '(files, err) := dotenv_files (definition.Dotenv spec) in
  let dag := DAG.set_Dotenv dag (DAG.Dotenv dag ++ files) in
  match err with
  | Some x => fail e dag x
  | None =>
      if bc_NoEval ctx || match definition.Dotenv spec with VNil => true | _ => false end then ok e dag
      else
        let relativeTos := if bool_decide (bc_file ctx = "") then [] else [bc_file ctx] in
        match load_dotenv e relativeTos (DAG.Dotenv dag) with
        | (e, Some x) => fail e dag x
        | (e, None) => ok e dag
        end
  end.

Definition buildMailOn : Builder := fun _ spec e dag =>
  ok e (match definition.MailOn spec with
        | None => dag
        | Some m => DAG.set_MailOn dag (Some (MailOn.mk (mailOnDef.Failure m) (mailOnDef.Success m)))
        end).

Definition build_step := buildStep show_map is_print signalNum reorder.

(** The loop over the definitions: each step is appended as it is built. *)
Fixpoint append_steps (fns : list funcDef.t) (defs : list stepDef.t) (dag : DAG.t) : DAG.t * option error :=
  match defs with
  | [] => (dag, None)
  | d :: defs =>
      match build_step d fns with
      | Err x => (dag, Some x)
      | Ok s => append_steps fns defs (DAG.set_Steps dag (DAG.Steps dag ++ [s]))
      end
  end.

Definition buildSteps : Builder := fun _ spec e dag =>
  let fns := definition.Functions spec in
  match definition.Steps spec with
  | VNil => ok e dag
  | VList l =>
      match decode_list l with
      | Err x => fail e dag (wrap "steps" (VList l) x)
      | Ok defs => (e, append_steps fns defs dag)
      end
  | VMap m =>
      match decode_map m with
      | Err x => fail e dag (wrap "steps" (VMap m) x)
      | Ok defs => (e, append_steps fns ((fun nd => stepDef.set_Name (snd nd) (fst nd)) <$> defs) dag)
      end
  | v => fail e dag (wrap "steps" v ErrStepsMustBeArrayOrMap)
  end.

Definition buildLogDir : Builder := fun _ spec e dag => ok e (DAG.set_LogDir dag (definition.LogDir spec)).

(** One handler: its step takes the name of the handler. *)
Definition build_handler (h : HandlerType) (def : option stepDef.t) (fns : list funcDef.t)
    : result (option Step.t) :=
  match def with
  | None => Ok None
  | Some d => match build_step (stepDef.set_Name d (HandlerType_String h)) fns with
              | Ok s => Ok (Some s)
              | Err x => Err x
              end
  end.

Definition put_handler (h : HandlerType) (s : option Step.t) (on : HandlerOn.t) : HandlerOn.t :=
  match s, h with
  | None, _ => on
  | _, HandlerOnExit => HandlerOn.mk (HandlerOn.Failure on) (HandlerOn.Success on) (HandlerOn.Cancel on) s
  | _, HandlerOnSuccess => HandlerOn.mk (HandlerOn.Failure on) s (HandlerOn.Cancel on) (HandlerOn.Exit on)
  | _, HandlerOnFailure => HandlerOn.mk s (HandlerOn.Success on) (HandlerOn.Cancel on) (HandlerOn.Exit on)
  | _, HandlerOnCancel => HandlerOn.mk (HandlerOn.Failure on) (HandlerOn.Success on) s (HandlerOn.Exit on)
  end.

(** The handlers in turn, the first error ends the loop. *)
Fixpoint put_handlers (fns : list funcDef.t) (l : list (HandlerType * option stepDef.t)) (dag : DAG.t)
    : DAG.t * option error :=
  match l with
  | [] => (dag, None)
  | (h, def) :: l =>
      match build_handler h def fns with
      | Err x => (dag, Some x)
      | Ok s => put_handlers fns l (DAG.set_HandlerOn dag (put_handler h s (DAG.HandlerOn dag)))
      end
  end.

Definition buildHandlers : Builder := fun _ spec e dag =>
  let on := definition.HandlerOn spec in
  (e, put_handlers (definition.Functions spec)
        [(HandlerOnExit, handlerOnDef.Exit on); (HandlerOnSuccess, handlerOnDef.Success on);
         (HandlerOnFailure, handlerOnDef.Failure on); (HandlerOnCancel, handlerOnDef.Cancel on)] dag).

Definition buildSMTPConfig : Builder := fun _ spec e dag =>
  let s := definition.SMTP spec in
  ok e (DAG.set_SMTP dag (Some (SMTPConfig.mk (smtpConfigDef.Host s) (smtpConfigDef.Port s)
                                  (smtpConfigDef.Username s) (smtpConfigDef.Password s)))).

Definition buildMailConfig (m : mailConfigDef.t) : MailConfig.t :=
  MailConfig.mk (mailConfigDef.From_ m) (mailConfigDef.To_ m) (mailConfigDef.Prefix m)
    (mailConfigDef.AttachLogs m).

Definition buildErrMailConfig : Builder := fun _ spec e dag =>
  ok e (DAG.set_ErrorMail dag (Some (buildMailConfig (definition.ErrorMail spec)))).

Definition buildInfoMailConfig : Builder := fun _ spec e dag =>
  ok e (DAG.set_InfoMail dag (Some (buildMailConfig (definition.InfoMail spec)))).

Definition maxHistoryRetentionDays : Builder := fun _ spec e dag =>
  ok e (match definition.HistRetentionDays spec with
        | Some n => DAG.set_HistRetentionDays dag n
        | None => dag
        end).

Definition maxCleanUpTime : Builder := fun _ spec e dag =>
  ok e (match definition.MaxCleanUpTimeSec spec with
        | Some n => DAG.set_MaxCleanUpTime dag (seconds n)
        | None => dag
        end).

Definition buildPrecondition : Builder := fun _ spec e dag =>
  match both_preconditions show_map (definition.Preconditions spec) (definition.Precondition spec) with
  | Err x => fail e dag x
  | Ok cs => ok e (DAG.set_Preconditions dag cs)
  end.

Definition builderRegistry : list (bool * string * Builder) := [
  (true, "env", buildEnvs);
  (true, "schedule", buildSchedule);
  (true, "skipIfSuccessful", skipIfSuccessful);
  (true, "params", build_params);
  (false, "dotenv", buildDotenv);
  (false, "mailOn", buildMailOn);
  (false, "steps", buildSteps);
  (false, "logDir", buildLogDir);
  (false, "handlers", buildHandlers);
  (false, "smtpConfig", buildSMTPConfig);
  (false, "errMailConfig", buildErrMailConfig);
  (false, "infoMailConfig", buildInfoMailConfig);
  (false, "maxHistoryRetentionDays", maxHistoryRetentionDays);
  (false, "maxCleanUpTime", maxCleanUpTime);
  (false, "preconditions", buildPrecondition) ].

(** ** Functions (assert.go) *)

Fixpoint assert_functions (names : gset string) (fns : list funcDef.t) : option error :=
  match fns with
  | [] => None
  | f :: fns =>
      let name := funcDef.Name f in
      if bool_decide (name ∈ names) then Some (wrap "function" (VStr name) ErrDuplicateFunction)
      else if bool_decide (split (funcDef.Params f) " " = extractParamNames (funcDef.Command f))
      then assert_functions ({[name]} ∪ names) fns
      else Some (wrap "function" (VStr name) ErrFuncParamsMismatch)
  end.

Definition assertFunctions (fns : list funcDef.t) : option error := assert_functions ∅ fns.

(** ** [build] *)

Definition ToLower (s : string) : string := encode_runes (rune_lower <$> decode_runes s).
Definition tag_of (s : string) : string := ToLower (TrimSpace s).

(** Empty tags of a text are dropped, those of a list are kept. *)
Definition parseTags (v : any) : list string :=
  match v with
  | VStr s => filter (fun t => t <> "") (tag_of <$> split s ",")
  | VList l => (fun x => tag_of (show show_map x)) <$> l
  | _ => []
  end.

Definition new_dag (file : string) (spec : definition.t) : DAG.t :=
  let d := DAG.empty in
  let d := DAG.set_Location d file in
  let d := DAG.set_Name d (definition.Name spec) in
  let d := DAG.set_Group d (definition.Group spec) in
  let d := DAG.set_Description d (definition.Description spec) in
  let d := DAG.set_Timeout d (seconds (definition.TimeoutSec spec)) in
  let d := DAG.set_Delay d (seconds (definition.DelaySec spec)) in
  let d := DAG.set_RestartWait d (seconds (definition.RestartWaitSec spec)) in
  let d := DAG.set_Tags d (parseTags (definition.Tags spec)) in
  DAG.set_MaxActiveRuns d (definition.MaxActiveRuns spec).

(** One entry of the registry: a builder that fails leaves what it had set. *)
Definition run_entry (ctx : BuildContext) (spec : definition.t) (acc : env * DAG.t * list error)
    (entry : bool * string * Builder) : env * DAG.t * list error :=
  let '(e, dag, errs) := acc in
  let '(metadata, name, fn) := entry in
  if negb metadata && bc_OnlyMetadata ctx then acc
  else match fn ctx spec e dag with
       | (e, (dag, Some x)) => (e, dag, errs ++ [wrap name VNil x])
       | (e, (dag, None)) => (e, dag, errs)
       end.

Definition build (ctx : BuildContext) (spec : definition.t) (e : env) : env * (DAG.t + list error) :=
  let '(e, dag, errs) := foldl (run_entry ctx spec) (e, new_dag (bc_file ctx) spec, []) builderRegistry in
  let errs := if bc_OnlyMetadata ctx then errs
              else match assertFunctions (definition.Functions spec) with
                   | Some x => errs ++ [x]
                   | None => errs
                   end in
  (e, match errs with [] => inl dag | _ => inr errs end).

(** [ErrorList.Error]. *)
Definition ErrorList_text (errs : list error) : string := join (error_text <$> errs) "; ".

(** ** Loading (loader.go) *)

(** Reading and decoding a file, [filepath.Abs], [merge]. *)
Context (read_spec : string -> result definition.t).
Context (Abs : string -> result string).
Context (merge : DAG.t -> DAG.t -> result DAG.t).

Definition ErrFilePathRequired : error := ENew "file path is required".

Definition resolveYamlFilePath (file : string) : result string :=
  if bool_decide (file = "") then Err ErrFilePathRequired
  else Abs (if negb (has_suffix file ".yaml") && negb (has_suffix file ".yml")
            then file +:+ ".yaml" else file).

Definition defaultName (file : string) : string := trim_suffix (Base file) (Ext file).

Definition build_error (errs : list error) : error := ENew (ErrorList_text errs).

(** A base configuration that does not exist is no base configuration. *)
Definition LoadBaseConfig (ctx : BuildContext) (file : string) (e : env) : env * result (option DAG.t) :=
  if negb (fileExists file) then (e, Ok None)
  else match read_spec file with
       | Err x => (e, Err x)
       | Ok def =>
           match build (mkBuild file "" false "" [] (bc_NoEval ctx)) def e with
           | (e, inl d) => (e, Ok (Some d))
           | (e, inr errs) => (e, Err (build_error errs))
           end
       end.

Definition loadBaseConfigIfRequired (ctx : BuildContext) (e : env) : env * result DAG.t :=
  if negb (bc_OnlyMetadata ctx) && bool_decide (bc_Base ctx <> "") then
    match LoadBaseConfig ctx (bc_Base ctx) e with
    | (e, Err x) => (e, Err x)
    | (e, Ok (Some d)) => (e, Ok d)
    | (e, Ok None) => (e, Ok DAG.empty)
    end
  else (e, Ok DAG.empty).

Definition loadDAG (ctx : BuildContext) (dag : string) (e : env) : env * result DAG.t :=
  match resolveYamlFilePath dag with
  | Err x => (e, Err x)
  | Ok filePath =>
      let ctx := mkBuild filePath (bc_Base ctx) (bc_OnlyMetadata ctx) (bc_Parameters ctx)
                   (bc_ParametersList ctx) (bc_NoEval ctx) in
      match loadBaseConfigIfRequired ctx e with
      | (e, Err x) => (e, Err x)
      | (e, Ok dest) =>
          match read_spec filePath with
          | Err x => (e, Err x)
          | Ok spec =>
              match build ctx spec e with
              | (e, inr errs) => (e, Err (build_error errs))
              | (e, inl target) =>
                  match merge dest target with
                  | Err x => (e, Err x)
                  | Ok dest =>
                      let dest := if bool_decide (DAG.Name dest = "")
                                  then DAG.set_Name dest (defaultName filePath) else dest in
                      (e, Ok (DAG.setup (Dir (DAG.Location dest)) dest))
                  end
              end
          end
      end
  end.

(** *** Options *)

Record LoadOptions := mkLoadOptions {
  lo_baseConfig : string;
  lo_params : string;
  lo_paramsList : list string;
  lo_noEval : bool;
  lo_onlyMetadata : bool
}.

Definition LoadOption : Type := LoadOptions -> result LoadOptions.

Definition WithBaseConfig (baseDAG : string) : LoadOption := fun o =>
  Ok (mkLoadOptions baseDAG (lo_params o) (lo_paramsList o) (lo_noEval o) (lo_onlyMetadata o)).

Definition WithParams (params : any) : LoadOption := fun o =>
  match params with
  | VStr s => Ok (mkLoadOptions (lo_baseConfig o) s (lo_paramsList o) (lo_noEval o) (lo_onlyMetadata o))
  | VStrList l => Ok (mkLoadOptions (lo_baseConfig o) (lo_params o) l (lo_noEval o) (lo_onlyMetadata o))
  | v => Err (panic ("invalid type " +:+ type_name v +:+ " for params"))
  end.

Definition WithoutEval : LoadOption := fun o =>
  Ok (mkLoadOptions (lo_baseConfig o) (lo_params o) (lo_paramsList o) true (lo_onlyMetadata o)).

Definition OnlyMetadata : LoadOption := fun o =>
  Ok (mkLoadOptions (lo_baseConfig o) (lo_params o) (lo_paramsList o) (lo_noEval o) true).

(** The options in turn, as the context of a build without a file. *)
Definition load_context (opts : list LoadOption) : result BuildContext :=
  match foldE (fun o opt => opt o) (mkLoadOptions "" "" [] false false) opts with
  | Err x => Err x
  | Ok o => Ok (mkBuild "" (lo_baseConfig o) (lo_onlyMetadata o) (lo_params o) (lo_paramsList o) (lo_noEval o))
  end.

Definition digraph_Load (opts : list LoadOption) (dag : string) (e : env) : env * result DAG.t :=
  match load_context opts with
  | Err x => (e, Err x)
  | Ok ctx => loadDAG ctx dag e
  end.

(** Decoding of a text. *)
Context (read_yaml : string -> result definition.t).

Definition LoadYAMLWithOpts (data : string) (ctx : BuildContext) (e : env) : env * result DAG.t :=
  match read_yaml data with
  | Err x => (e, Err x)
  | Ok def =>
      match build ctx def e with
      | (e, inl d) => (e, Ok d)
      | (e, inr errs) => (e, Err (build_error errs))
      end
  end.

Definition LoadYAML (opts : list LoadOption) (data : string) (e : env) : env * result DAG.t :=
  match load_context opts with
  | Err x => (e, Err x)
  | Ok ctx => LoadYAMLWithOpts data ctx e
  end.

End builder.

(** ** Reading a file (loader.go) *)

Module loader.
Section reading.
(** [os.ReadFile], the decoder of YAML with the map of a document that has none, the
    quoting of [%q], and mapstructure's decoding with [ErrorUnused]. *)
Context (M : Type) (nil_map : M) (EOF : error) (ReadFile : string -> result string).
Context (yaml_Decode : string -> M * option error) (quote : string -> string).
Context (mapstructure_Decode : M -> definition.t * option error).

(** An empty document is a nil map. *)
Definition unmarshalData (data : string) : M * option error :=
  let '(cm, err) := yaml_Decode data in
  match err with
  | Some e => if errors_is e EOF then (cm, None) else (cm, Some e)
  | None => (cm, None)
  end.

Definition readFile (file : string) : M * option error :=
  match ReadFile file with
  | Err e => (nil_map, Some (ENew ("failed to read file " +:+ quote file +:+ ": " +:+ error_text e)))
  | Ok data => unmarshalData data
  end.

Definition decode (cm : M) : definition.t * option error := mapstructure_Decode cm.

(** Reading and decoding in turn, as [LoadBaseConfig] and [loadDAG] do with a file and
    [loadYAML] with a text. *)
Definition decoded (read : M * option error) : result definition.t :=
  match read with
  | (_, Some e) => Err e
  | (cm, None) => match decode cm with (_, Some e) => Err e | (def, None) => Ok def end
  end.

Definition read_definition (file : string) : result definition.t := decoded (readFile file).

(** A file that cannot be read, decoded or understood is an error of the loading. *)
Lemma read_definition_error file def : read_definition file = Ok def ->
  exists data, ReadFile file = Ok data /\ snd (mapstructure_Decode (fst (yaml_Decode data))) = None.
Proof.
  unfold read_definition, readFile, decoded. destruct (ReadFile file) as [data|]; [|done].
  unfold unmarshalData, decode. destruct (yaml_Decode data) as [cm [e|]] eqn:E; [destruct (errors_is e EOF); [|done]|];
    destruct (mapstructure_Decode cm) as [d [x|]] eqn:D; try done; intros _; exists data; by rewrite E; simpl; rewrite D.
Qed.

(** What the merge does with a value of a type: the mails of a workflow replace those
    of the base, even when they are all off; the rest is mergo's. *)
Definition Transformer (typ : string) : option (forall A, bool -> A -> A -> A) :=
  if bool_decide (typ = "MailOn") then Some (fun A (canSet : bool) dst src => if canSet then src else dst) else None.

Context (mergo_Merge : (string -> option (forall A, bool -> A -> A -> A)) -> DAG.t -> DAG.t -> result DAG.t).

Definition merge (dst src : DAG.t) : result DAG.t := mergo_Merge Transformer dst src.
End reading.
End loader.
