(* ===== verification/BuilderProps.v ===== *)
(** * Properties of the builder

    What a built step, schedule, condition and workflow is. *)

From stdpp Require Import pretty.
From S2P Require Import Prelude GoStrings Utf8 Vars Digraph CmdUtil Eval Paths Regex Params StepBuild Builder.
From Stdlib Require Import Ascii.

(** ** Steps: what each builder changes *)

Section steps.
Context (show_map : list (any * any) -> string) (is_print : Z -> bool) (signalNum : string -> Z).
Context (reorder : list (string * string) -> list (string * string)).

Lemma Executor_changes def s s' :
  buildExecutor show_map def s = Ok s' -> exists c, s' = Step.set_ExecutorConfig s c.
Proof.
  unfold buildExecutor. intros H. destruct (stepDef.Executor def);
    try (simplify_eq; exists (Step.ExecutorConfig s'); by destruct s');
    repeat case_match; simplify_eq; eauto.
Qed.

Lemma Command_changes def s s' :
  buildCommand show_map is_print def s = Ok s' ->
  exists c a w y, s' = Step.set_CmdArgsSys (Step.set_CmdWithArgs (Step.set_Args (Step.set_Command s c) a) w) y.
Proof.
  unfold buildCommand. intros H. destruct (stepDef.Command def); try done.
  - simplify_eq. exists (Step.Command s'), (Step.Args s'), (Step.CmdWithArgs s'), (Step.CmdArgsSys s'). by destruct s'.
  - case_bool_decide; [done|]. destruct (SplitCommand _) as [[c a]|]; [|done]. simplify_eq.
    eexists c, a, _, (Step.CmdArgsSys s). by destruct s.
  - destruct (foldl _ _ _) as [c a]. simplify_eq. by eexists c, a, _, _.
Qed.

Lemma Depends_changes def s s' :
  buildDepends show_map def s = Ok s' ->
  exists deps, parseStringOrArray (stepDef.Depends def) = Ok deps /\ s' = Step.set_Depends s deps.
Proof. unfold buildDepends. intros H. case_match; simplify_eq; eauto. Qed.

Lemma SubWorkflow_changes def s s' :
  buildSubWorkflow def s = Ok s' ->
  exists w x c a y, s' = Step.set_CmdWithArgs (Step.set_Args (Step.set_Command
    (Step.set_ExecutorConfig (Step.set_SubWorkflow s w) x) c) a) y.
Proof.
  unfold buildSubWorkflow. intros H. case_bool_decide; simplify_eq.
  - exists (Step.SubWorkflow s'), (Step.ExecutorConfig s'), (Step.Command s'), (Step.Args s'), (Step.CmdWithArgs s').
    by destruct s'.
  - by eexists _, _, _, _, _.
Qed.

Lemma ContinueOn_changes def s s' :
  buildContinueOn show_map def s = Ok s' -> exists c, s' = Step.set_ContinueOn s c.
Proof.
  unfold buildContinueOn. intros H. destruct (stepDef.ContinueOn def) as [c|].
  - repeat case_match; simplify_eq; eauto.
  - simplify_eq. exists (Step.ContinueOn s'). by destruct s'.
Qed.

Lemma RetryPolicy_changes def s s' :
  buildRetryPolicy show_map def s = Ok s' -> exists c, s' = Step.set_RetryPolicy s c.
Proof.
  unfold buildRetryPolicy. intros H. destruct (stepDef.RetryPolicy def) as [r|].
  - repeat case_match; simplify_eq; eauto.
  - simplify_eq. exists (Step.RetryPolicy s'). by destruct s'.
Qed.

Lemma RepeatPolicy_changes def s s' :
  buildRepeatPolicy def s = Ok s' -> exists c, s' = Step.set_RepeatPolicy s c.
Proof.
  unfold buildRepeatPolicy. intros H. destruct (stepDef.RepeatPolicy def) as [r|]; simplify_eq; [eauto|].
  exists (Step.RepeatPolicy s'). by destruct s'.
Qed.

Lemma SignalOnStop_changes def s s' :
  buildSignalOnStop signalNum def s = Ok s' ->
  s' = Step.set_SignalOnStop s (default (Step.SignalOnStop s) (stepDef.SignalOnStop def)) /\
  (forall sig, stepDef.SignalOnStop def = Some sig -> signalNum sig <> 0%Z).
Proof.
  unfold buildSignalOnStop. intros H. destruct (stepDef.SignalOnStop def) as [sig|].
  - destruct (signalNum sig =? 0)%Z eqn:E; [done|]. apply Z.eqb_neq in E. simplify_eq.
    split; [done|]. by intros ? [= <-].
  - simplify_eq. split; [by destruct s'|done].
Qed.

Lemma Precondition_changes def s s' :
  buildStepPrecondition show_map def s = Ok s' ->
  exists cs, both_preconditions show_map (stepDef.Preconditions def) (stepDef.Precondition def) = Ok cs /\
    s' = Step.set_Preconditions s cs.
Proof. unfold buildStepPrecondition. intros H. case_match; simplify_eq; eauto. Qed.

Lemma Call_changes s call fns s' :
  parseFuncCall reorder s call fns = Ok s' ->
  exists a c w, s' = Step.set_CmdWithArgs (Step.set_Command (Step.set_Args s a) c) w.
Proof.
  unfold parseFuncCall. intros H. destruct call as [call|].
  - case_match; simplify_eq. by eexists _, _, _.
  - simplify_eq. exists (Step.Args s'), (Step.Command s'), (Step.CmdWithArgs s'). by destruct s'.
Qed.

Lemma run_builder_ok def s name f s' :
  run_builder def s (name, f) = Ok s' -> f def s = Ok s'.
Proof. unfold run_builder. simpl. intros H. case_match; by simplify_eq. Qed.

(** The registry, run in its order. *)
Lemma registry_runs def s s' :
  foldE (run_builder def) s (stepBuilderRegistry show_map is_print signalNum) = Ok s' ->
  exists s1 s2 s3 s4 s5 s6 s7 s8,
    buildExecutor show_map def s = Ok s1 /\ buildCommand show_map is_print def s1 = Ok s2 /\
    buildDepends show_map def s2 = Ok s3 /\ buildSubWorkflow def s3 = Ok s4 /\
    buildContinueOn show_map def s4 = Ok s5 /\ buildRetryPolicy show_map def s5 = Ok s6 /\
    buildRepeatPolicy def s6 = Ok s7 /\ buildSignalOnStop signalNum def s7 = Ok s8 /\
    buildStepPrecondition show_map def s8 = Ok s'.
Proof.
  unfold stepBuilderRegistry, foldE. intros H.
  repeat match goal with
  | H : context [match run_builder ?d ?s ?e with Ok _ => _ | Err _ => _ end] |- _ =>
      let E := fresh "E" in destruct (run_builder d s e) eqn:E; [apply run_builder_ok in E|done]
  end.
  simplify_eq. by eexists _, _, _, _, _, _, _, _.
Qed.

(** Something the step can do. *)
Definition has_action (def : stepDef.t) : Prop :=
  stepDef.Command def <> VNil \/ stepDef.Executor def <> VNil \/ stepDef.Script def <> "" \/
  stepDef.Call def <> None \/ stepDef.Run def <> "".

Lemma assertStepDef_ok def fns :
  assertStepDef show_map def fns = None -> stepDef.Name def <> "" /\ has_action def.
Proof.
  unfold assertStepDef, has_action. case_bool_decide as Hn; [done|]. intros H. split; [done|].
  destruct (stepDef.Command def); try (left; discriminate). right.
  destruct (stepDef.Executor def); try (left; discriminate). right. simpl in H.
  case_bool_decide as H1; [right|by left]. case_bool_decide as H2; [right|by left].
  case_bool_decide as H3; [done|done].
Qed.

(** The words of a command given as a list, from the first one that is not empty. *)
Fixpoint from_first_word (words : list string) : list string :=
  match words with
  | [] => []
  | w :: words => if bool_decide (w = "") then from_first_word words else w :: words
  end.

(** What a step with a command runs, or, without one, what it calls. *)
Definition command_of (def : stepDef.t) (fns : list funcDef.t) (step : Step.t) : Prop :=
  match stepDef.Command def with
  | VStr val => val <> "" /\ SplitCommand val = Ok (Step.Command step, Step.Args step) /\ Step.CmdWithArgs step = val
  | VList l =>
      match from_first_word (show show_map <$> l) with
      | [] => Step.Command step = "" /\ Step.Args step = []
      | w :: words => Step.Command step = w /\ Step.Args step = words
      end /\ Step.CmdArgsSys step = JoinCommandArgs (Step.Command step) (Step.Args step)
  | VNil =>
      match stepDef.Call def with
      | None => Step.Command step = "" /\ Step.Args step = [] /\ Step.CmdWithArgs step = ""
      | Some call => exists args, mapE call_arg (callFuncDef.Args call) = Ok args /\ Step.Args step = snd <$> args /\
          Step.CmdWithArgs step =
            assignValues (funcDef.Command (find_func fns (callFuncDef.Function call))) (reorder args)
      end
  | _ => False
  end.

(** A step runs the sub-workflow of its definition, or else its command, with the
    executor of its definition. *)
Definition runs (def : stepDef.t) (fns : list funcDef.t) (step : Step.t) : Prop :=
  if decide (stepDef.Run def = "") then
    Step.SubWorkflow step = None /\ command_of def fns step /\
    match stepDef.Executor def with
    | VNil => ExecutorConfig.Type_ (Step.ExecutorConfig step) = ""
    | VStr typ => ExecutorConfig.Type_ (Step.ExecutorConfig step) = typ
    | VMap _ => True
    | _ => False
    end
  else
    Step.SubWorkflow step = Some (SubWorkflow.mk (stepDef.Run def) (stepDef.Params def)) /\
    ExecutorConfig.Type_ (Step.ExecutorConfig step) = ExecutorTypeSubWorkflow /\
    Step.Command step = commandRun /\ Step.Args step = [stepDef.Run def; stepDef.Params def] /\
    Step.CmdWithArgs step = stepDef.Run def +:+ " " +:+ stepDef.Params def.

Lemma command_words l : forall c a,
  foldl (command_word show_map) (c, a) l =
  if bool_decide (c = "") then
    match from_first_word (show show_map <$> l) with [] => ("", a) | w :: words => (w, a ++ words) end
  else (c, a ++ (show show_map <$> l)).
Proof.
  induction l as [|v l IH]; intros c a; simpl.
  - case_bool_decide; [by subst|]. by rewrite app_nil_r.
  - unfold command_word at 2. cbn [fst snd]. case_bool_decide as Hc.
    + subst. rewrite IH. by case_bool_decide as Hv.
    + rewrite IH, bool_decide_false by done. by rewrite <- app_assoc.
Qed.

(** Only these parts of a step matter for what it runs. *)
Lemma runs_ext def fns s s' :
  (Step.SubWorkflow s', Step.ExecutorConfig s', Step.Command s', Step.Args s', Step.CmdWithArgs s', Step.CmdArgsSys s') =
  (Step.SubWorkflow s, Step.ExecutorConfig s, Step.Command s, Step.Args s, Step.CmdWithArgs s, Step.CmdArgsSys s) ->
  runs def fns s -> runs def fns s'.
Proof. intros [= H1 H2 H3 H4 H5 H6]. unfold runs, command_of. by rewrite H1, H2, H3, H4, H5, H6. Qed.

(** The builders that set what a step runs, in the order of the registry. *)
Lemma builders_run def fns s s1 s2 s3 s4 :
  parseFuncCall reorder (new_step def) (stepDef.Call def) fns = Ok s ->
  buildExecutor show_map def s = Ok s1 -> buildCommand show_map is_print def s1 = Ok s2 ->
  buildDepends show_map def s2 = Ok s3 -> buildSubWorkflow def s3 = Ok s4 -> runs def fns s4.
Proof.
  intros H0 H1 H2 H3 H4. unfold runs. apply Depends_changes in H3 as (deps & _ & ->).
  unfold buildSubWorkflow in H4. destruct (decide (stepDef.Run def = "")) as [Hr|Hr];
    [rewrite bool_decide_true in H4 by done|by rewrite bool_decide_false in H4 by done; simplify_eq].
  injection H4 as <-.
  assert (Step.SubWorkflow s = None /\ ExecutorConfig.Type_ (Step.ExecutorConfig s) = "") as [Hs He].
  { apply Call_changes in H0 as (a & c & w & ->). done. }
  assert (Step.SubWorkflow s1 = None /\ Step.Command s1 = Step.Command s /\ Step.Args s1 = Step.Args s /\
          Step.CmdWithArgs s1 = Step.CmdWithArgs s) as (Hs1 & Hc1 & Ha1 & Hw1).
  { apply Executor_changes in H1 as (c & ->). done. }
  assert (ExecutorConfig.Type_ (Step.ExecutorConfig s2) = ExecutorConfig.Type_ (Step.ExecutorConfig s1) /\
          Step.SubWorkflow s2 = Step.SubWorkflow s1) as (He2 & Hs2).
  { apply Command_changes in H2 as (c & a & w & y & ->). done. }
  split; [simpl; congruence|]. split; [|simpl; rewrite He2].
  - clear H1. unfold command_of, buildCommand in *. destruct (stepDef.Command def); try done.
    + injection H2 as <-. simpl. rewrite Hc1, Ha1, Hw1. unfold parseFuncCall in H0.
      destruct (stepDef.Call def) as [call|]; [|by injection H0 as <-].
      destruct (mapE call_arg _) as [args|] eqn:Em; [|done]. injection H0 as <-. by exists args.
    + case_bool_decide; [done|]. destruct (SplitCommand _) as [[c a]|]; [|done]. injection H2 as <-. done.
    + pose proof (command_words l "" []) as Hw. rewrite bool_decide_true in Hw by done. rewrite Hw in H2.
      destruct (from_first_word _); injection H2 as <-; done.
  - clear H2. unfold buildExecutor in H1. destruct (stepDef.Executor def); try done.
    + injection H1 as <-. done.
    + destruct (convertMap _) as [m|]; [|done]. injection H1 as <-. done.
Qed.

(** ** Conditions *)

(** An empty text among the conditions of a definition. *)
Fixpoint empty_text (v : any) : bool :=
  match v with VStr s => bool_decide (s = "") | VList l => existsb empty_text l | _ => false end.

(** A condition that can be evaluated, or the one of an empty text of the definition. *)
Definition usable (v : any) (c : Condition.t) : Prop :=
  Condition.Validate c = None \/ c = Condition.empty /\ empty_text v = true.

Lemma any_ind' (P : any -> Prop) :
  P VNil -> (forall b, P (VBool b)) -> (forall n, P (VInt n)) -> (forall t, P (VFloat t)) ->
  (forall s, P (VStr s)) -> (forall l, Forall P l -> P (VList l)) ->
  (forall m, Forall (fun e => P (snd e)) m -> P (VMap m)) ->
  (forall m, P (VStrMap m)) -> (forall l, P (VStrList l)) -> forall v, P v.
Proof.
  intros H1 H2 H3 H4 H5 H6 H7 H8 H9. fix IH 1.
  intros [|b|n|t|s|l|m|m|l]; [exact H1|exact (H2 b)|exact (H3 n)|exact (H4 t)|exact (H5 s)| | |exact (H8 m)|exact (H9 l)].
  - apply H6. induction l as [|x l IHl]; constructor; [apply IH|apply IHl].
  - apply H7. induction m as [|[k x] m IHm]; constructor; [apply IH|apply IHm].
Qed.

Lemma parsePrecondition_usable v : forall cs,
  parsePrecondition show_map v = Ok cs -> Forall (usable v) cs.
Proof.
  induction v as [| | | |s|l IH|m IH| |] using any_ind'; intros cs H; simpl in H; try done.
  - simplify_eq. constructor.
  - simplify_eq. constructor; [|constructor]. unfold usable, Condition.Validate. simpl.
    destruct (decide (s = "")) as [->|Hs]; [by right|left]. by rewrite bool_decide_true.
  - revert cs H. induction IH as [|x l Hx Hl IHl]; intros cs H; [by simplify_eq|].
    destruct (parsePrecondition show_map x) as [c1|] eqn:E1; [|done]. specialize (Hx _ eq_refl).
    match type of H with context [match ?r with Ok _ => _ | Err _ => _ end] => destruct r as [c2|] eqn:E2; [|done] end.
    simplify_eq. apply Forall_app. split; [eapply Forall_impl; [exact Hx|]|eapply Forall_impl; [by apply IHl|]];
      intros c [?|[? He]]; [by left| |by left|]; right; (split; [done|]); simpl in *; rewrite He; by rewrite ?orb_true_r.
  - repeat case_match; simplify_eq. constructor; [by left|constructor].
Qed.

Lemma both_usable v w cs : both_preconditions show_map v w = Ok cs -> Forall (fun c => usable v c \/ usable w c) cs.
Proof.
  unfold both_preconditions. intros H. repeat case_match; simplify_eq.
  apply Forall_app. split; (eapply Forall_impl; [by eapply parsePrecondition_usable|]); auto.
Qed.

(** ** A built step *)

(** What a built step keeps of its definition. *)
Definition built_from (fns : list funcDef.t) (def : stepDef.t) (step : Step.t) : Prop :=
  Step.Name step = stepDef.Name def /\ Step.Name step <> "" /\ has_action def /\ runs def fns step /\
  Step.Description step = stepDef.Description def /\ Step.Dir step = stepDef.Dir def /\
  Step.Shell step = stepDef.Shell def /\ Step.Script step = stepDef.Script def /\
  Step.Stdout step = stepDef.Stdout def /\ Step.Stderr step = stepDef.Stderr def /\
  Step.Output step = stepDef.Output def /\ Step.OutputVariables step = None /\
  parseStringOrArray (stepDef.Depends def) = Ok (Step.Depends step) /\
  Step.SignalOnStop step = default "" (stepDef.SignalOnStop def) /\
  (forall sig, stepDef.SignalOnStop def = Some sig -> signalNum sig <> 0%Z) /\
  both_preconditions show_map (stepDef.Preconditions def) (stepDef.Precondition def) =
    Ok (Step.Preconditions step) /\
  Forall (fun c => usable (stepDef.Preconditions def) c \/ usable (stepDef.Precondition def) c) (Step.Preconditions step).

Lemma buildStep_runs def fns step :
  buildStep show_map is_print signalNum reorder def fns = Ok step -> runs def fns step.
Proof.
  unfold buildStep. destruct (assertStepDef show_map def fns) eqn:Ha; [done|].
  destruct (parseFuncCall _ _ _ _) as [s|] eqn:Hc; [|done]. intros H.
  apply registry_runs in H as (s1 & s2 & s3 & s4 & s5 & s6 & s7 & s8 & H1 & H2 & H3 & H4 & H5 & H6 & H7 & H8 & H9).
  pose proof (builders_run _ _ _ _ _ _ _ Hc H1 H2 H3 H4) as Hruns. clear Hc H1 H2 H3 H4.
  apply ContinueOn_changes in H5 as (z1 & ->). apply RetryPolicy_changes in H6 as (z2 & ->).
  apply RepeatPolicy_changes in H7 as (z3 & ->). apply SignalOnStop_changes in H8 as (-> & _).
  apply Precondition_changes in H9 as (cs & _ & ->).
  revert Hruns. apply runs_ext. by destruct s4.
Qed.

Lemma buildStep_built def fns step :
  buildStep show_map is_print signalNum reorder def fns = Ok step -> built_from fns def step.
Proof.
  intros Hb. pose proof (buildStep_runs _ _ _ Hb) as Hruns.
  unfold buildStep in Hb. destruct (assertStepDef show_map def fns) eqn:Ha; [done|].
  apply assertStepDef_ok in Ha as [Hname Hact].
  destruct (parseFuncCall _ _ _ _) as [s|] eqn:Hc; [|done]. rename Hb into H.
  apply Call_changes in Hc as (a & c & w & ->).
  apply registry_runs in H as (s1 & s2 & s3 & s4 & s5 & s6 & s7 & s8 & H1 & H2 & H3 & H4 & H5 & H6 & H7 & H8 & H9).
  apply Executor_changes in H1 as (x1 & ->). apply Command_changes in H2 as (x2 & x3 & x4 & x5 & ->).
  apply Depends_changes in H3 as (deps & Hd & ->). apply SubWorkflow_changes in H4 as (y1 & y2 & y3 & y4 & y5 & ->).
  apply ContinueOn_changes in H5 as (z1 & ->). apply RetryPolicy_changes in H6 as (z2 & ->).
  apply RepeatPolicy_changes in H7 as (z3 & ->). apply SignalOnStop_changes in H8 as (-> & Hsig).
  apply Precondition_changes in H9 as (cs & Hp & ->). pose proof (both_usable _ _ _ Hp) as Hu.
  unfold built_from. split_and!; (assumption || reflexivity).
Qed.

End steps.

(** ** Schedules *)

Section schedules.
Context (show_map : list (any * any) -> string) (cron : string -> result (Z -> Z)).

(** The texts an entry of the schedule map gives to a key. *)
Definition entry_texts (v : any) : list string :=
  match v with
  | VStr s => [s]
  | VList l => omap (fun x => match x with VStr s => Some s | _ => None end) l
  | _ => []
  end.

Definition texts_of (key : string) (m : list (any * any)) : list string :=
  m ≫= fun e => match fst e with VStr k => if bool_decide (k = key) then entry_texts (snd e) else [] | _ => [] end.

Lemma schedule_strings_texts l ss : schedule_strings show_map l = Ok ss -> ss = entry_texts (VList l).
Proof.
  revert ss. induction l as [|x l IH]; intros ss H; unfold schedule_strings in H; simpl in H; [by simplify_eq|].
  destruct x; try done. fold (schedule_strings show_map l) in H.
  destruct (schedule_strings show_map l) as [ss'|]; [|done]. simplify_eq.
  change (entry_texts (VList (VStr s :: l))) with (s :: entry_texts (VList l)). by rewrite (IH ss' eq_refl).
Qed.

Lemma check_cron_id vs ws : mapE (check_cron show_map cron) vs = Ok ws -> ws = vs.
Proof.
  revert ws. induction vs as [|v vs IH]; intros ws H; simpl in H; [by simplify_eq|].
  unfold check_cron at 1 in H. destruct (cron v); [|done].
  destruct (mapE (check_cron show_map cron) vs) as [us|]; [|done]. simplify_eq. by rewrite (IH us).
Qed.

Lemma schedule_entry_texts a b c e r :
  schedule_entry show_map cron (a, b, c) e = Ok r ->
  r = (a ++ texts_of "start" [e], b ++ texts_of "stop" [e], c ++ texts_of "restart" [e]).
Proof.
  destruct e as [k v]. unfold schedule_entry, texts_of. cbn [fst snd mbind list_bind]. destruct k as [| | | |key| | | |]; try done.
  assert (forall vs, match v with VStr v => Ok [v] | VList l => schedule_strings show_map l | _ => Ok [] end = Ok vs ->
    vs = entry_texts v) as Hv.
  { intros vs H. destruct v; simpl in *; simplify_eq; try done. by apply schedule_strings_texts. }
  destruct (match v with VStr v => Ok [v] | VList l => schedule_strings show_map l | _ => Ok [] end) as [vs|] eqn:E; [|done].
  rewrite <- (Hv vs eq_refl). clear Hv E. rewrite !app_nil_r.
  destruct vs as [|x vs].
  - cbn [mapE]. intros H. assert (r = (a, b, c)) as ->.
    { rewrite ?app_nil_r in H. by repeat case_bool_decide; simplify_eq. }
    repeat case_bool_decide; by rewrite ?app_nil_r.
  - destruct (decide (key ∈ ["start"; "stop"; "restart"])) as [Hk|Hk].
    + rewrite (bool_decide_true (key ∈ _) Hk).
      destruct (mapE (check_cron show_map cron) (x :: vs)) as [ws|] eqn:Em; [|done].
      apply check_cron_id in Em as ->. rewrite !elem_of_cons, elem_of_nil in Hk.
      intros H. destruct_or! Hk; subst; simpl in H; simplify_eq; by rewrite ?app_nil_r.
    + rewrite (bool_decide_false (key ∈ _) Hk). by destruct (check_cron show_map cron x).
Qed.

Lemma texts_of_cons k e m : texts_of k (e :: m) = texts_of k [e] ++ texts_of k m.
Proof. unfold texts_of. simpl. by rewrite app_nil_r. Qed.

Lemma parseScheduleMap_texts m : forall a b c r,
  foldE (schedule_entry show_map cron) (a, b, c) m = Ok r ->
  r = (a ++ texts_of "start" m, b ++ texts_of "stop" m, c ++ texts_of "restart" m).
Proof.
  induction m as [|e m IH]; intros a b c r H; simpl in H; [simplify_eq; by rewrite !app_nil_r|].
  destruct (schedule_entry show_map cron (a, b, c) e) as [r1|] eqn:E; [|done].
  apply schedule_entry_texts in E as ->. apply IH in H as ->.
  by rewrite !(texts_of_cons _ e m), !app_assoc.
Qed.

(** The texts of the three kinds of schedules in a specification. *)
Definition schedule_spec (v : any) : list string * list string * list string :=
  match v with
  | VStr s => ([s], [], [])
  | VList l => (entry_texts (VList l), [], [])
  | VMap m => (texts_of "start" m, texts_of "stop" m, texts_of "restart" m)
  | _ => ([], [], [])
  end.

Lemma schedule_texts_spec v r : schedule_texts show_map cron v = Ok r -> r = schedule_spec v.
Proof.
  destruct v as [| | | |s|l|m| |]; simpl; intros H; simplify_eq; try done.
  - destruct (schedule_strings show_map l) as [ss|] eqn:E; [|done]. apply schedule_strings_texts in E. by simplify_eq.
  - unfold parseScheduleMap in H. by apply parseScheduleMap_texts in H.
Qed.

(** A schedule parsed from its own text. *)
Definition parsed_schedule (s : Schedule.t) : Prop := cron (Schedule.Expression s) = Ok (Schedule.Parsed s).

Lemma buildScheduler_spec vs ss :
  buildScheduler cron vs = Ok ss -> Schedule.Expression <$> ss = vs /\ Forall parsed_schedule ss.
Proof.
  revert ss. induction vs as [|v vs IH]; intros ss H; unfold buildScheduler in H; simpl in H; [by simplify_eq|].
  fold (buildScheduler cron vs) in H. destruct (cron v) as [p|] eqn:Ev; [|done].
  destruct (buildScheduler cron vs) as [ss'|]; [|done]. simplify_eq. destruct (IH ss' eq_refl) as [H1 H2].
  split; [by rewrite fmap_cons, H1|by constructor].
Qed.

End schedules.

(** A workflow gets the schedules its specification names: when
    [buildSchedule] reports no error, the start, stop and restart schedules of the
    workflow have, in order, the texts under the respective keys of a map, or all
    the texts of a string or list as start schedules; each is parsed from its
    own text, and nothing else of the workflow changes. *)
Theorem buildSchedule_spec (show_map : list (any * any) -> string) (cron : string -> result (Z -> Z))
    (ctx : BuildContext) (spec : definition.t) (e e' : env) (dag dag' : DAG.t)
    (Hbuild : buildSchedule show_map cron ctx spec e dag = (e', (dag', None))) :
  exists starts stops restarts, e' = e /\
    dag' = DAG.set_RestartSchedule (DAG.set_StopSchedule (DAG.set_Schedule dag starts) stops) restarts /\
    Forall (parsed_schedule cron) (starts ++ stops ++ restarts) /\
    (Schedule.Expression <$> starts, Schedule.Expression <$> stops, Schedule.Expression <$> restarts) =
      schedule_spec (definition.Schedule spec).
Proof.
  unfold buildSchedule in Hbuild. destruct (schedule_texts _ _ _) as [[[t1 t2] t3]|] eqn:Et; [|done].
  apply schedule_texts_spec in Et.
  destruct (buildScheduler cron t1) as [s1|] eqn:E1; [|done].
  destruct (buildScheduler cron t2) as [s2|] eqn:E2; [|done].
  destruct (buildScheduler cron t3) as [s3|] eqn:E3; [|done].
  unfold ok in Hbuild. simplify_eq. apply buildScheduler_spec in E1 as [<- H1], E2 as [<- H2], E3 as [<- H3].
  exists s1, s2, s3. split_and!; [done|done| |by rewrite <- Et].
  apply Forall_app. split; [done|]. by apply Forall_app.
Qed.

Lemma append_steps_built show_map is_print signalNum reorder fns defs : forall dag dag',
  append_steps show_map is_print signalNum reorder fns defs dag = (dag', None) ->
  exists steps, dag' = DAG.set_Steps dag (DAG.Steps dag ++ steps) /\
    Forall2 (built_from show_map signalNum reorder fns) defs steps.
Proof.
  induction defs as [|d defs IH]; intros dag dag' H; simpl in H.
  - simplify_eq. exists []. split; [|constructor]. rewrite app_nil_r. by destruct dag'.
  - destruct (build_step _ _ _ _ d fns) as [s|] eqn:Es; [|done]. apply IH in H as (steps & -> & Hb).
    exists (s :: steps). apply buildStep_built in Es. split; [simpl; by rewrite <- app_assoc|by constructor].
Qed.


(** ** The properties at a concrete specification *)

Definition no_mail : mailConfigDef.t := mailConfigDef.mk "" "" "" false.

Definition sample_spec (schedule steps : any) : definition.t :=
  definition.mk "job" "" "" VNil schedule false "" VNil (handlerOnDef.mk None None None None) []
    steps (smtpConfigDef.mk "" "" "" "") None no_mail no_mail 0%Z 0%Z 0%Z None VNil VNil 0%Z VNil None VNil.

Definition sample_ctx : BuildContext := mkBuild "/dags/job.yaml" "" false "" [] true.

(** A parser of schedules that takes every text but the empty one. *)
Definition sample_cron (s : string) : result (Z -> Z) :=
  if bool_decide (s = "") then Err (ENew "empty") else Ok (fun t => (t + 60)%Z).

Lemma buildSchedule_spec_witness :
  let spec := sample_spec (VMap [(VStr "stop", VStr "0 9 * * *");
                                 (VStr "start", VList [VStr "0 8 * * *"; VStr "0 12 * * *"])]) VNil in
  let dag' := snd (buildSchedule (fun _ => "") sample_cron sample_ctx spec ∅ DAG.empty) in
  exists starts stops restarts, (∅ : env) = ∅ /\
    fst dag' = DAG.set_RestartSchedule (DAG.set_StopSchedule (DAG.set_Schedule DAG.empty starts) stops) restarts /\
    Forall (parsed_schedule sample_cron) (starts ++ stops ++ restarts) /\
    (Schedule.Expression <$> starts, Schedule.Expression <$> stops, Schedule.Expression <$> restarts) =
      (["0 8 * * *"; "0 12 * * *"], ["0 9 * * *"], []).
Proof.
  intros spec dag'.
  exact (buildSchedule_spec (fun _ => "") sample_cron sample_ctx spec ∅ ∅ DAG.empty _ eq_refl).
Defined.

(** A decoder of steps with a name and a command. *)
Definition text_at (key : string) (m : list (any * any)) : any :=
  default VNil (snd <$> find (fun e => match fst e with VStr k => bool_decide (k = key) | _ => false end) m).

Definition sample_step (name : string) (m : list (any * any)) : stepDef.t :=
  stepDef.mk name "" "" VNil (text_at "command" m) "" "" "" "" "" (text_at "depends" m) None None None false
    VNil (text_at "preconditions" m) None None "" "".

Definition sample_decode_map (m : list (any * any)) : result (list (string * stepDef.t)) :=
  mapE (fun e => match e with
                 | (VStr k, VMap d) => Ok (k, sample_step "" d)
                 | _ => Err (ENew "not a step")
                 end) m.


(** An empty list is a command, of a step with nothing to run; the condition of an
    empty text is one that cannot be evaluated. *)
Example nothing_to_run :
  let def := sample_step "a" [(VStr "command", VList []); (VStr "preconditions", VStr "")] in
  match buildStep (fun _ => "") (fun _ => true) (fun _ => 15%Z) (fun l => l) def [] with
  | Ok step => Step.Command step = "" /\ Step.Preconditions step = [Condition.empty] /\ is_Some (Condition.Validate Condition.empty)
  | Err _ => False
  end.
Proof. vm_compute. split; [done|]. split; [done|]. by eexists. Qed.
