(* ===== verification/LoadProps.v ===== *)
(** * Properties of the build and the loading of a workflow

    What the build of the metadata alone gives, and what a loaded workflow
    always has. *)

From stdpp Require Import pretty.
From S2P Require Import Prelude GoStrings Utf8 Vars Digraph CmdUtil Eval Paths Regex Params StepBuild Builder.
From Stdlib Require Import Ascii.

(** ** The registry *)

(** What the builders of the metadata set, with the fields set before them. *)
Definition summary (d : DAG.t) :=
  ((DAG.Location d, DAG.Group d, DAG.Name d, DAG.Description d, DAG.Tags d),
   (DAG.Schedule d, DAG.StopSchedule d, DAG.RestartSchedule d, DAG.SkipIfSuccessful d),
   (DAG.Env d, DAG.DefaultParams d, DAG.Params d),
   (DAG.Timeout d, DAG.Delay d, DAG.RestartWait d, DAG.MaxActiveRuns d)).

Definition only_metadata (ctx : BuildContext) : BuildContext :=
  mkBuild (bc_file ctx) (bc_Base ctx) true (bc_Parameters ctx) (bc_ParametersList ctx) (bc_NoEval ctx).

Abbreviation builder := (BuildContext -> definition.t -> env -> DAG.t -> env * (DAG.t * option error))%type.

(** A builder that leaves a part of the workflow alone, and one that does not
    look at the choice of metadata. *)
Definition keeps {A} (part : DAG.t -> A) (fn : builder) : Prop :=
  forall ctx spec e d, part (fst (snd (fn ctx spec e d))) = part d.

Definition same_for_metadata (fn : builder) : Prop :=
  forall ctx spec e d, fn (only_metadata ctx) spec e d = fn ctx spec e d.

Section registry.
Context (show_map : list (any * any) -> string) (ctx : BuildContext) (spec : definition.t).

Abbreviation run := (foldl (run_entry show_map ctx spec)).
Abbreviation run_meta := (foldl (run_entry show_map (only_metadata ctx) spec)).
Implicit Types (l : list (bool * string * builder)).

Lemma run_errors l : forall e d errs, exists more, snd (run (e, d, errs) l) = errs ++ more.
Proof.
  induction l as [|[[m n] fn] l IH]; intros e d errs; [exists []; by rewrite app_nil_r|].
  cbn [foldl]. unfold run_entry at 2. destruct (negb m && bc_OnlyMetadata ctx); [apply IH|].
  destruct (fn ctx spec e d) as [e1 [d1 [x|]]]; [|apply IH].
  destruct (IH e1 d1 (errs ++ [wrapError show_map n VNil x])) as [more ->].
  eexists. by rewrite <- app_assoc.
Qed.

Lemma run_keeps {A} (part : DAG.t -> A) l : Forall (fun x => keeps part (snd x)) l ->
  forall e d errs, part (snd (fst (run (e, d, errs) l))) = part d.
Proof.
  induction 1 as [|[[m n] fn] l Hfn Hl IH]; intros e d errs; [done|].
  cbn [foldl]. unfold run_entry at 2. destruct (negb m && bc_OnlyMetadata ctx); [apply IH|].
  specialize (Hfn ctx spec e d). simpl in Hfn.
  destruct (fn ctx spec e d) as [e1 [d1 [x|]]]; by rewrite IH.
Qed.

Lemma run_meta_skips l acc : Forall (fun x => fst (fst x) = false) l -> run_meta acc l = acc.
Proof.
  intros H. revert acc. induction H as [|[[m n] fn] l Hm Hl IH]; intros [[e d] errs]; [done|].
  cbn [foldl]. simpl in Hm. subst m. apply IH.
Qed.

Lemma run_meta_same l acc :
  Forall (fun x => fst (fst x) = true /\ same_for_metadata (snd x)) l -> run_meta acc l = run acc l.
Proof.
  intros H. revert acc. induction H as [|[[m n] fn] l [Hm Hfn] Hl IH]; intros [[e d] errs]; [done|].
  cbn [foldl]. simpl in Hm, Hfn. subst m. rewrite IH. f_equal. unfold run_entry. simpl. by rewrite Hfn.
Qed.

End registry.

(** ** What each builder keeps *)

Section builds.
Context (show_map : list (any * any) -> string) (is_print : Z -> bool) (rune_lower : Z -> Z).
Context (jq : string -> string -> option string).
Context (sh runCommand : env -> string -> result string).
Context (signalNum : string -> Z).
Context (reorder : list (string * string) -> list (string * string)).
Context (cron : string -> result (Z -> Z)).
Context (decode_list : list any -> result (list stepDef.t)).
Context (decode_map : list (any * any) -> result (list (string * stepDef.t))).
Context (fileExists isDir : string -> bool) (homeDir : env -> option string).
Context (loadDotenv : string -> env -> result env).
Context (range : gmap string string -> list (string * string)).

Abbreviation registry := (builderRegistry show_map is_print jq sh runCommand signalNum reorder cron
  decode_list decode_map fileExists isDir homeDir loadDotenv range).
Abbreviation build := (build show_map is_print rune_lower jq sh runCommand signalNum reorder cron
  decode_list decode_map fileExists isDir homeDir loadDotenv range).

Ltac solve_keeps := intros ctx spec e d; simpl; repeat (case_match; simpl); simplify_eq; done.

Lemma steps_keep {A} (part : DAG.t -> A) :
  (forall d l, part (DAG.set_Steps d l) = part d) ->
  keeps part (buildSteps show_map is_print signalNum reorder decode_list decode_map).
Proof.
  intros Hpart.
  assert (forall fns defs d, part (fst (append_steps show_map is_print signalNum reorder fns defs d)) = part d) as H.
  { intros fns defs. induction defs as [|s defs IH]; intros d; simpl; [done|].
    destruct (build_step _ _ _ _ s fns); [|done]. by rewrite IH. }
  intros ctx spec e d. unfold buildSteps, ok, fail. repeat case_match; try done; apply H.
Qed.

Lemma rest_keeps_summary : Forall (fun x => keeps summary (snd x)) (drop 4 registry).
Proof.
  simpl. repeat constructor; simpl;
    try (unfold buildDotenv, buildMailOn, buildLogDir, buildSMTPConfig, buildErrMailConfig,
         buildInfoMailConfig, maxHistoryRetentionDays, maxCleanUpTime, buildPrecondition, ok, fail; solve_keeps).
  by apply steps_keep.
Qed.

Lemma metadata_keeps_steps : Forall (fun x => keeps DAG.Steps (snd x)) (take 4 registry).
Proof.
  simpl. repeat constructor; simpl;
    unfold buildEnvs, buildSchedule, skipIfSuccessful, build_params, buildParams, ok, fail; solve_keeps.
Qed.

(** The fields no builder sets. *)
Definition identity_of (d : DAG.t) :=
  (DAG.Location d, DAG.Name d, DAG.Group d, DAG.Description d, DAG.Timeout d, DAG.MaxActiveRuns d).

Lemma metadata_keeps_identity : Forall (fun x => keeps identity_of (snd x)) (take 4 registry).
Proof.
  simpl. repeat constructor; simpl;
    unfold buildEnvs, buildSchedule, skipIfSuccessful, build_params, buildParams, ok, fail; solve_keeps.
Qed.

Lemma metadata_first :
  Forall (fun x => fst (fst x) = true /\ same_for_metadata (snd x)) (take 4 registry) /\
  Forall (fun x => fst (fst x) = false) (drop 4 registry).
Proof. simpl. split; repeat constructor. Qed.

(** C29: the metadata of a workflow is that of the workflow: when the whole build
    succeeds so does the build of the metadata alone, from the same environment;
    its workflow has the same location, names, description, tags, schedules,
    variables, parameters and times, and no steps.  The whole build moreover
    keeps the location, the names, the description and the seconds of the
    specification, and its functions are asserted. *)
Theorem metadata_agrees (ctx : BuildContext) (spec : definition.t) (e e' : env) (dag : DAG.t)
    (Hfull : bc_OnlyMetadata ctx = false) (Hbuild : build ctx spec e = (e', inl dag)) :
  (exists em dagm, build (only_metadata ctx) spec e = (em, inl dagm) /\
     summary dagm = summary dag /\ DAG.Steps dagm = []) /\
  (DAG.Location dag = bc_file ctx /\ DAG.Name dag = definition.Name spec /\
   DAG.Group dag = definition.Group spec /\ DAG.Description dag = definition.Description spec /\
   DAG.Timeout dag = seconds (definition.TimeoutSec spec) /\
   DAG.MaxActiveRuns dag = definition.MaxActiveRuns spec) /\
  assertFunctions show_map (definition.Functions spec) = None.
Proof.
  unfold build in *. rewrite Hfull in Hbuild. change (bc_file (only_metadata ctx)) with (bc_file ctx).
  change (bc_OnlyMetadata (only_metadata ctx)) with true.
  set (start := new_dag show_map rune_lower (bc_file ctx) spec) in *.
  rewrite <- (take_drop 4 registry) in Hbuild |- *. rewrite foldl_app in Hbuild |- *.
  destruct metadata_first as [Hm Hr]. rewrite (run_meta_same _ _ _ _ _ Hm), (run_meta_skips _ _ _ _ _ Hr).
  pose proof (run_keeps show_map ctx spec DAG.Steps _ metadata_keeps_steps e start []) as Hsteps.
  pose proof (run_keeps show_map ctx spec identity_of _ metadata_keeps_identity e start []) as Hid.
  destruct (foldl _ (e, start, []) (take 4 registry)) as [[em dm] errs] eqn:Em. cbn [fst snd] in Hsteps, Hid.
  pose proof (run_keeps show_map ctx spec summary _ rest_keeps_summary em dm errs) as Hsum.
  destruct (run_errors show_map ctx spec (drop 4 registry) em dm errs) as [more Hmore].
  destruct (foldl _ (em, dm, errs) (drop 4 registry)) as [[e1 d1] errs1] eqn:E1. cbn [fst snd] in Hsum, Hmore.
  subst errs1. destruct (assertFunctions show_map (definition.Functions spec)) as [x|].
  { by destruct errs, more. }
  destruct errs; [|done]. destruct more; [|done]. injection Hbuild as <- <-. split; [|split; [|done]].
  - exists em, dm. by rewrite Hsum, Hsteps.
  - unfold summary in Hsum. unfold identity_of in Hid.
    injection Hsum. injection Hid. simpl. intros. split_and!; congruence.
Qed.

End builds.

(** ** Loading *)

Lemma clean_step_parts rooted stack comp :
  Forall (fun c : bytes => c <> []) stack -> Forall (fun c => c <> []) (clean_step rooted stack comp).
Proof.
  intros H. unfold clean_step.
  destruct (decide (comp = [])) as [->|Hc]; [done|]. rewrite (bool_decide_false (comp = [])) by done. simpl.
  repeat case_bool_decide; try done; [|by constructor].
  destruct H as [|top rest Ht Hr]; [destruct rooted; by repeat constructor|].
  case_bool_decide; [by repeat constructor|done].
Qed.

(** A cleaned path is not empty. *)
Lemma cleanl_nonempty l : cleanl l <> [].
Proof.
  unfold cleanl. set (rooted := has_prefixl [slash] l).
  assert (forall comps stack, Forall (fun c : bytes => c <> []) stack ->
    Forall (fun c => c <> []) (foldl (clean_step rooted) stack comps)) as Hparts.
  { induction comps as [|c comps IH]; intros stack H; [done|]. simpl. by apply IH, clean_step_parts. }
  specialize (Hparts (splitl (S (length l)) [slash] l) [] (Forall_nil_2 _)).
  destruct (foldl _ _ _) as [|x stack]; [by destruct rooted|]. destruct rooted; [done|].
  apply Forall_reverse in Hparts. destruct (reverse (x :: stack)) as [|y ys] eqn:E.
  { apply (f_equal length) in E. by rewrite length_reverse in E. }
  apply Forall_cons_iff in Hparts as [Hy _]. destruct y; [done|]. by destruct ys.
Qed.

Lemma Dir_nonempty p : Dir p <> "".
Proof.
  unfold Dir. intros H. apply (f_equal s2l) in H. rewrite s2l_l2s in H. by apply cleanl_nonempty in H.
Qed.

(** A step or handler with a directory to run in. *)
Definition placed (s : Step.t) : Prop := Step.Dir s <> "".

Lemma setup_placed s dir : dir <> "" -> placed (Step.setup s dir).
Proof. intros H. unfold placed, Step.setup. case_bool_decide; [by destruct s|done]. Qed.

(** The handlers of a workflow. *)
Definition handlers_of (d : DAG.t) : list (option Step.t) :=
  let h := DAG.HandlerOn d in [HandlerOn.Exit h; HandlerOn.Success h; HandlerOn.Failure h; HandlerOn.Cancel h].

(** What the defaults give: everything the scheduler relies on. *)
Definition complete (d : DAG.t) : Prop :=
  DAG.HistRetentionDays d <> 0%Z /\ DAG.MaxCleanUpTime d <> 0%Z /\
  Forall placed (DAG.Steps d) /\ Forall (from_option placed True) (handlers_of d).

Lemma DAG_setup_complete dir d : dir <> "" -> complete (DAG.setup dir d).
Proof.
  intros Hdir. unfold DAG.setup, complete.
  set (d1 := if bool_decide (DAG.HistRetentionDays d = 0%Z) then _ else d).
  assert (DAG.HistRetentionDays d1 <> 0%Z) as H1 by (subst d1; by case_bool_decide).
  set (d2 := if bool_decide (DAG.MaxCleanUpTime d1 = 0%Z) then _ else d1).
  assert (DAG.MaxCleanUpTime d2 <> 0%Z) as H2 by (subst d2; by case_bool_decide).
  assert (DAG.HistRetentionDays d2 <> 0%Z) as H3 by (subst d2; by case_bool_decide).
  split_and!; [done|done| |].
  - simpl. apply Forall_fmap, Forall_true. intros s. by apply setup_placed.
  - unfold handlers_of. simpl.
    repeat constructor; match goal with |- context [?o] => destruct o as [s|]; [by apply setup_placed|done] end.
Qed.

Section loading.
Context (show_map : list (any * any) -> string) (is_print : Z -> bool) (rune_lower : Z -> Z).
Context (jq : string -> string -> option string).
Context (sh runCommand : env -> string -> result string).
Context (signalNum : string -> Z).
Context (reorder : list (string * string) -> list (string * string)).
Context (cron : string -> result (Z -> Z)).
Context (decode_list : list any -> result (list stepDef.t)).
Context (decode_map : list (any * any) -> result (list (string * stepDef.t))).
Context (fileExists isDir : string -> bool) (homeDir : env -> option string).
Context (loadDotenv : string -> env -> result env).
Context (range : gmap string string -> list (string * string)).
Context (read_spec : string -> result definition.t) (Abs : string -> result string).
Context (merge : DAG.t -> DAG.t -> result DAG.t).

Abbreviation build := (build show_map is_print rune_lower jq sh runCommand signalNum reorder cron
  decode_list decode_map fileExists isDir homeDir loadDotenv range).
Abbreviation loadDAG := (loadDAG show_map is_print rune_lower jq sh runCommand signalNum reorder cron
  decode_list decode_map fileExists isDir homeDir loadDotenv range read_spec Abs merge).

(** A workflow that loads is the one of its file over the base configuration,
    and complete: its file resolves and is built from its specification, after
    the base configuration unless only metadata is loaded or no base is given,
    the two are merged, a missing name is the name of the file, and whatever the
    merge is, the retention and clean-up times are not zero and every step and
    every handler has a directory to run in. *)
Theorem loadDAG_complete (ctx : BuildContext) (file : string) (e e' : env) (dag : DAG.t)
    (Hload : loadDAG ctx file e = (e', Ok dag)) :
  exists path spec e1 base target merged,
    resolveYamlFilePath Abs file = Ok path /\ read_spec path = Ok spec /\
    build (mkBuild path (bc_Base ctx) (bc_OnlyMetadata ctx) (bc_Parameters ctx)
             (bc_ParametersList ctx) (bc_NoEval ctx)) spec e1 = (e', inl target) /\
    merge base target = Ok merged /\
    (bc_OnlyMetadata ctx = true \/ bc_Base ctx = "" -> base = DAG.empty /\ e1 = e) /\
    DAG.Name dag = (if bool_decide (DAG.Name merged = "") then defaultName path else DAG.Name merged) /\
    Step.Name <$> DAG.Steps dag = Step.Name <$> DAG.Steps merged /\ complete dag.
Proof.
  unfold Builder.loadDAG in Hload. destruct (resolveYamlFilePath Abs file) as [path|] eqn:Ep; [|done].
  set (ctx' := mkBuild path _ _ _ _ _) in *.
  destruct (loadBaseConfigIfRequired _ _ _ _ _ _ _ _ _ _ _ _ _ _ _ _ _ ctx' e) as [e1 [base|]] eqn:Eb; [|done].
  destruct (read_spec path) as [spec|] eqn:Es; [|done].
  destruct (build ctx' spec e1) as [e2 [target|]] eqn:Et; [|done].
  destruct (merge base target) as [merged|] eqn:Em; [|done].
  injection Hload as <- <-. exists path, spec, e1, base, target, merged.
  split_and!; [done..| | | |by apply DAG_setup_complete, Dir_nonempty].
  - intros H. unfold loadBaseConfigIfRequired in Eb. subst ctx'. simpl in Eb.
    destruct (bc_OnlyMetadata ctx); [by simplify_eq/=|]. destruct H as [|H]; [done|].
    rewrite H in Eb. by simplify_eq/=.
  - unfold DAG.setup. repeat case_bool_decide; done.
  - unfold DAG.setup. simpl. rewrite <- list_fmap_compose.
    assert (forall (l : list Step.t) dir, (Step.Name ∘ (fun s => Step.setup s dir)) <$> l = Step.Name <$> l) as Hname.
    { intros l dir. apply list_fmap_ext. intros i s _. unfold Step.setup. simpl. by case_bool_decide. }
    rewrite Hname. repeat case_bool_decide; done.
Qed.

End loading.

(** ** The properties at a concrete specification *)

Definition no_mail : mailConfigDef.t := mailConfigDef.mk "" "" "" false.

Definition sample_spec : definition.t :=
  definition.mk "" "batch" "nightly" VNil (VStr "0 1 * * *") true "" (VMap [(VStr "A", VInt 1)])
    (handlerOnDef.mk None None None None) [] (VMap [(VStr "s", VNil)]) (smtpConfigDef.mk "" "" "" "") None
    no_mail no_mail 5%Z 0%Z 0%Z None VNil VNil 2%Z (VStr "x=1") None (VStr "A, b").

Definition sample_ctx (meta : bool) : BuildContext := mkBuild "/dags/job.yaml" "" meta "" [] true.

(** One step that runs a script. *)
Definition sample_steps (m : list (any * any)) : result (list (string * stepDef.t)) :=
  Ok [("s", stepDef.mk "" "" "" VNil VNil "" "true" "" "" "" VNil None None None false VNil VNil None None "" "")].

Definition sample_build := build (fun _ => "") (fun _ => true) (fun z => z) (fun _ _ => None)
  (fun _ _ => Ok "") (fun _ _ => Ok "") (fun _ => 15%Z) (fun l => l) (fun _ => Ok (fun t => (t + 60)%Z))
  (fun _ => Ok []) sample_steps (fun _ => false) (fun _ => false) (fun _ => None) (fun _ e => Ok e)
  map_to_list.

Lemma metadata_agrees_witness :
  exists em dagm e' dag,
    sample_build (sample_ctx false) sample_spec ∅ = (e', inl dag) /\
    sample_build (sample_ctx true) sample_spec ∅ = (em, inl dagm) /\
    summary dagm = summary dag /\ DAG.Steps dagm = [] /\ length (DAG.Steps dag) = 1.
Proof.
  assert (exists e' dag, sample_build (sample_ctx false) sample_spec ∅ = (e', inl dag) /\
    length (DAG.Steps dag) = 1) as (e' & dag & Hb & Hl).
  { eexists _, _. split; vm_compute; reflexivity. }
  destruct (metadata_agrees (fun _ => "") (fun _ => true) (fun z => z) (fun _ _ => None)
    (fun _ _ => Ok "") (fun _ _ => Ok "") (fun _ => 15%Z) (fun l => l) (fun _ => Ok (fun t => (t + 60)%Z))
    (fun _ => Ok []) sample_steps (fun _ => false) (fun _ => false) (fun _ => None) (fun _ e => Ok e)
    map_to_list (sample_ctx false) sample_spec ∅ e' dag eq_refl Hb) as [(em & dagm & H1 & H2 & H3) _].
  exists em, dagm, e', dag. by split_and!.
Defined.

Lemma loadDAG_complete_witness :
  exists e' dag,
    loadDAG (fun _ => "") (fun _ => true) (fun z => z) (fun _ _ => None)
      (fun _ _ => Ok "") (fun _ _ => Ok "") (fun _ => 15%Z) (fun l => l) (fun _ => Ok (fun t => (t + 60)%Z))
      (fun _ => Ok []) sample_steps (fun _ => false) (fun _ => false) (fun _ => None) (fun _ e => Ok e)
      map_to_list (fun _ => Ok sample_spec) (fun p => Ok ("/dags/" +:+ p)) (fun _ d => Ok d)
      (sample_ctx false) "job" ∅ = (e', Ok dag) /\ complete dag /\ DAG.Name dag = "job".
Proof.
  assert (exists e' dag, loadDAG (fun _ => "") (fun _ => true) (fun z => z) (fun _ _ => None)
      (fun _ _ => Ok "") (fun _ _ => Ok "") (fun _ => 15%Z) (fun l => l) (fun _ => Ok (fun t => (t + 60)%Z))
      (fun _ => Ok []) sample_steps (fun _ => false) (fun _ => false) (fun _ => None) (fun _ e => Ok e)
      map_to_list (fun _ => Ok sample_spec) (fun p => Ok ("/dags/" +:+ p)) (fun _ d => Ok d)
      (sample_ctx false) "job" ∅ = (e', Ok dag) /\ DAG.Name dag = "job") as (e' & dag & Hl & Hn).
  { eexists _, _. split; vm_compute; reflexivity. }
  exists e', dag. split; [exact Hl|]. split; [|exact Hn].
  destruct (loadDAG_complete (fun _ => "") (fun _ => true) (fun z => z) (fun _ _ => None)
      (fun _ _ => Ok "") (fun _ _ => Ok "") (fun _ => 15%Z) (fun l => l) (fun _ => Ok (fun t => (t + 60)%Z))
      (fun _ => Ok []) sample_steps (fun _ => false) (fun _ => false) (fun _ => None) (fun _ e => Ok e)
      map_to_list (fun _ => Ok sample_spec) (fun p => Ok ("/dags/" +:+ p)) (fun _ d => Ok d)
      (sample_ctx false) "job" ∅ e' dag Hl) as (path & spec & e1 & base & target & merged & H).
  by apply H.
Defined.
