(* ===== verification/FileCache.v ===== *)
(** * The file cache: internal/persistence/filecache/filecache.go

    A cache of what was read from files, checked against the size and the
    modification time of the file at every use.  A [sync.Map] is a map whose
    order of range is an argument; the counter of items is an [atomic.Int32].
    Files, the clock and the random jitter are arguments. *)

From stdpp Require Import functions.
From S2P Require Import Prelude GoStrings.

(** [int32]. *)
Definition int32 (z : Z) : Z := ((z + 2 ^ 31) mod 2 ^ 32 - 2 ^ 31)%Z.

(** What the program reads of an [os.FileInfo]; the time in nanoseconds. *)
Record FileInfo := mkInfo { fi_Size : Z; fi_ModTime : Z }.

(** [Time.Unix]. *)
Definition Unix (t : Z) : Z := (t / 1000000000)%Z.

Section cache.
(** The data and its zero value. *)
Context {T : Type} (zero : T).

Record Entry := mkEntry { Data : T; Size : Z; LastModified : Z; ExpiresAt : Z }.

Definition zero_entry : Entry := mkEntry zero 0 0 0.

Record Cache := mkCache {
  entries : gmap string Entry;
  capacity : Z;
  ttl : Z;
  items : Z
}.

Definition New (cap ttl : Z) : Cache := mkCache ∅ cap ttl 0.

Definition set_entries (c : Cache) (m : gmap string Entry) : Cache :=
  mkCache m (capacity c) (ttl c) (items c).

(** [c.items.Add]. *)
Definition add_items (c : Cache) (d : Z) : Cache :=
  mkCache (entries c) (capacity c) (ttl c) (int32 (items c + d)).

(** [newEntry]; [jitter] is [rand.Intn(60)]. *)
Definition newEntry (data : T) (size lastModified ttl now jitter : Z) : Entry :=
  mkEntry data size lastModified (now + ttl + jitter * 60000000000)%Z.

Definition Store (c : Cache) (fileName : string) (data : T) (fi : FileInfo) (now jitter : Z) : Cache :=
  let c := add_items c 1 in
  set_entries c (<[fileName := newEntry data (fi_Size fi) (Unix (fi_ModTime fi)) (ttl c) now jitter]> (entries c)).

Definition delete_entry (c : Cache) (fileName : string) : Cache :=
  set_entries c (delete fileName (entries c)).

Definition Invalidate (c : Cache) (fileName : string) : Cache := delete_entry (add_items c (-1)) fileName.

Definition get_Entry (c : Cache) (fileName : string) : Entry := default zero_entry (entries c !! fileName).

Definition Load (c : Cache) (fileName : string) : T * bool :=
  match entries c !! fileName with
  | None => (zero, false)
  | Some e => (Data e, true)
  end.

(** [IsStale]; [stat] is what [os.Stat] answers. *)
Definition IsStale (fileName : string) (stat : result FileInfo) (e : Entry) : result (bool * FileInfo) :=
  match stat with
  | Err x => Err (EWrap ("failed to stat file " +:+ fileName +:+ ": ") x "")
  | Ok fi => Ok ((LastModified e <? Unix (fi_ModTime fi))%Z || negb (Size e =? fi_Size fi)%Z, fi)
  end.

(** The second lookup of [LoadLatest]: the type assertion panics on a file that
    is no longer there. *)
Definition served (c : Cache) (filePath : string) : result T :=
  match entries c !! filePath with
  | Some e => Ok (Data e)
  | None => Err (panic "interface conversion: interface is nil")
  end.

(** [LoadLatest]; [loaded] is what the loader answers when it is called. *)
Definition LoadLatest (c : Cache) (filePath : string) (stat : result FileInfo) (loaded : result T)
    (now jitter : Z) : Cache * result T :=
  match IsStale filePath stat (get_Entry c filePath) with
  | Err x => (c, Err x)
  | Ok (true, fi) =>
      match loaded with
      | Err x => (c, Err x)
      | Ok data => (Store c filePath data fi now jitter, Ok data)
      end
  | Ok (false, _) => (c, served c filePath)
  end.

(** ** Eviction *)

(** The first range: entries past their time; a range meets every key that is
    there at that moment. *)
Definition evict_expired (now : Z) (c : Cache) (key : string) : Cache :=
  match entries c !! key with
  | Some e => if (ExpiresAt e <? now)%Z then add_items (delete_entry c key) (-1) else c
  | None => c
  end.

(** The second range: it goes on while too many items are counted. *)
Fixpoint evict_excess (keys : list string) (c : Cache) : Cache :=
  match keys with
  | [] => c
  | k :: keys =>
      match entries c !! k with
      | None => evict_excess keys c
      | Some _ =>
          let c := delete_entry (add_items c (-1)) k in
          if (capacity c <? items c)%Z then evict_excess keys c else c
      end
  end.

(** [evict]; the lists are the orders of the two ranges. *)
Definition evict (now : Z) (keys1 keys2 : list string) (c : Cache) : Cache :=
  let c := foldl (evict_expired now) c keys1 in
  if ((0 <? capacity c) && (capacity c <? items c))%Z then evict_excess keys2 c else c.

(** [StartEviction]: the goroutine evicts at every tick until its context is done
    or it is stopped. *)
Inductive eviction_event := ETick (now : Z) (keys1 keys2 : list string) | EStop.

Fixpoint eviction_loop (evs : list eviction_event) (c : Cache) : Cache :=
  match evs with
  | [] | EStop :: _ => c
  | ETick now k1 k2 :: evs => eviction_loop evs (evict now k1 k2 c)
  end.

End cache.

(** ** Properties of the file cache

    What [LoadLatest] serves is a version of the file no older than the one it
    checked; what eviction removes. *)

(** ** Files as sequences of versions *)

Section fresh.
Context {T : Type} (zero : T).
(** Each file is a sequence of versions: what [os.Stat] and the loader answer
    while a version is the current one. *)
Context (stat : string -> nat -> result FileInfo) (load : string -> nat -> result T).

(** The second of modification of a later version is later. *)
Definition clock_advances : Prop := forall f j k fi fi',
  j < k -> stat f j = Ok fi -> stat f k = Ok fi' ->
  (Unix (fi_ModTime fi) < Unix (fi_ModTime fi'))%Z.

(** No file is empty and as old as 1970. *)
Definition after_epoch : Prop := forall f k fi, stat f k = Ok fi -> (0 < Unix (fi_ModTime fi))%Z.

Abbreviation cache := (Cache (T := T)).

(** The cache, and the current version of each file. *)
Record state := mkState { st_cache : cache; st_version : string -> nat }.

(** A use of the cache or a change of a file.  While [LoadLatest] runs, the file
    is checked at a version [v] and loaded at a version [w], other processes
    writing it meanwhile. *)
Inductive step : state -> state -> Prop :=
| step_load s f w now jitter :
    st_version s f <= w ->
    step s (mkState (fst (LoadLatest zero (st_cache s) f (stat f (st_version s f)) (load f w) now jitter))
                    (<[f := w]> (st_version s)))
| step_write s f w : st_version s f <= w -> step s (mkState (st_cache s) (<[f := w]> (st_version s)))
| step_invalidate s f : step s (mkState (Invalidate (st_cache s) f) (st_version s))
| step_evict s now k1 k2 : step s (mkState (evict now k1 k2 (st_cache s)) (st_version s)).

Definition initial (cap ttl : Z) : state := mkState (New cap ttl) (fun _ => 0).

(** An entry holds the data of a version that was current at or after the check
    whose size and time it records. *)
Definition entry_ok (s : state) (f : string) (e : Entry (T := T)) : Prop :=
  exists j k fi, j <= k <= st_version s f /\ stat f j = Ok fi /\
    Size e = fi_Size fi /\ LastModified e = Unix (fi_ModTime fi) /\ load f k = Ok (Data e).

Definition cache_ok (s : state) : Prop := forall f e, entries (st_cache s) !! f = Some e -> entry_ok s f e.

(** ** What the operations leave in the cache *)

(** The entries of one cache are entries of another. *)
Definition fewer (c c' : cache) : Prop := entries c ⊆ entries c'.

#[local] Instance fewer_preorder : PreOrder fewer.
Proof. split; unfold fewer; [by intros x|intros x y z; apply transitivity]. Qed.

Lemma delete_fewer (c : cache) d k : fewer (delete_entry (add_items c d) k) c.
Proof. unfold fewer. simpl. apply delete_subseteq. Qed.

Lemma expired_fewer now (c : cache) k : fewer (evict_expired now c k) c.
Proof.
  unfold evict_expired. destruct (entries c !! k) as [e|]; [|done].
  case_match; [unfold fewer; simpl; apply delete_subseteq|done].
Qed.

Lemma excess_fewer keys (c : cache) : fewer (evict_excess keys c) c.
Proof.
  revert c. induction keys as [|k keys IH]; intros c; simpl; [done|].
  destruct (entries c !! k); [|apply IH]. case_match; [|apply delete_fewer].
  etrans; [apply IH|apply delete_fewer].
Qed.

Lemma evict_fewer now k1 k2 (c : cache) : fewer (evict now k1 k2 c) c.
Proof.
  assert (forall c, fewer (foldl (evict_expired now) c k1) c) as H.
  { induction k1 as [|k k1 IH]; intros c0; simpl; [done|]. etrans; [apply IH|apply expired_fewer]. }
  unfold evict. case_match; [|apply H]. etrans; [apply excess_fewer|apply H].
Qed.

Lemma step_version s s' f : step s s' -> st_version s f <= st_version s' f.
Proof.
  intros []; simpl; try done; destruct (decide (f = f0)) as [->|];
    rewrite ?fn_lookup_insert, ?fn_lookup_insert_ne by done; done.
Qed.

Lemma entry_ok_later s s' f e : st_version s f <= st_version s' f -> entry_ok s f e -> entry_ok s' f e.
Proof. intros Hv (j & k & fi & Hk & H). exists j, k, fi. split; [lia|done]. Qed.

Lemma step_cache_ok s s' : cache_ok s -> step s s' -> cache_ok s'.
Proof.
  intros Hok Hstep g e He. pose proof (step_version s s' g Hstep) as Hv.
  assert (entries (st_cache s) !! g = Some e -> entry_ok s' g e) as Hold.
  { intros H. by eapply entry_ok_later, Hok. }
  destruct Hstep as [s f w now jitter Hw|s f w Hw|s f|s now k1 k2]; simpl in He.
  - unfold LoadLatest, IsStale in He. destruct (stat f (st_version s f)) as [fi|] eqn:Es; [|by apply Hold].
    destruct (_ || _); [|by apply Hold]. destruct (load f w) as [data|] eqn:El; [|by apply Hold].
    simpl in He. apply lookup_insert_Some in He as [[<- <-]|[_ He]]; [|by apply Hold].
    exists (st_version s f), w, fi. simpl. rewrite fn_lookup_insert. by split_and!.
  - by apply Hold.
  - apply Hold. by eapply lookup_weaken, (delete_fewer (st_cache s) (-1) f).
  - apply Hold. by eapply lookup_weaken, evict_fewer.
Qed.

Lemma reachable_cache_ok cap ttl s : rtc step (initial cap ttl) s -> cache_ok s.
Proof.
  intros H. assert (cache_ok (initial cap ttl)) as H0 by (intros f e He; done).
  induction H as [|s s1 s2 Hs H IH]; [done|]. apply IH. by eapply step_cache_ok.
Qed.

(** What is answered is answered again for the same file, without the loader. *)
Lemma LoadLatest_again (c c' : cache) f fi loaded now jitter d :
  LoadLatest zero c f (Ok fi) loaded now jitter = (c', Ok d) ->
  forall loaded' now' jitter', LoadLatest zero c' f (Ok fi) loaded' now' jitter' = (c', Ok d).
Proof.
  unfold LoadLatest, IsStale. destruct (_ || _) eqn:E.
  - destruct loaded as [d'|]; [|done]. intros [= <- ->] loaded' now' jitter'. unfold get_Entry, served, Store. simpl.
    rewrite lookup_insert_eq. simpl. by rewrite Z.ltb_irrefl, Z.eqb_refl.
  - intros [= <- H] loaded' now' jitter'. by rewrite E, H.
Qed.

(** C31: the cache refines reading the file: in every sequence of uses,
    invalidations, evictions and writes by others, [LoadLatest] reports an error
    only when the file cannot be examined or loaded, and otherwise serves what the
    loader answers for a version no older than the one it examined and no newer
    than the current one.  When the entry is not stale the answer is in the cache
    already: it is the same whatever the loader would say, and the cache is left as
    it is; and after an answer the file as it was examined gives the same
    answer again without the loader.  Every entry still holds what its file held.
    Modification times are assumed to advance by a second with every version (see
    [same_second_is_missed]) and to be after 1970. *)
Theorem LoadLatest_fresh (cap ttl : Z) (s : state) (f : string) (w : nat) (now jitter : Z)
    (Hclock : clock_advances) (Hepoch : after_epoch)
    (Hreach : rtc step (initial cap ttl) s) (Hw : st_version s f <= w) :
  let examined := stat f (st_version s f) in
  let use loaded := LoadLatest zero (st_cache s) f examined loaded now jitter in
  let '(c', r) := use (load f w) in
  match r with
  | Ok d => exists k, st_version s f <= k <= w /\ load f k = Ok d
  | Err x => load f w = Err x \/ exists y, examined = Err y /\ x = EWrap ("failed to stat file " +:+ f +:+ ": ") y ""
  end /\
  (forall fi, IsStale f examined (get_Entry zero (st_cache s) f) = Ok (false, fi) ->
     forall loaded, use loaded = (st_cache s, r)) /\
  (forall d, r = Ok d -> forall loaded now' jitter', LoadLatest zero c' f examined loaded now' jitter' = (c', Ok d)) /\
  cache_ok (mkState c' (<[f := w]> (st_version s))).
Proof.
  intros examined use. pose proof (reachable_cache_ok _ _ _ Hreach) as Hok.
  pose proof (step_cache_ok _ _ Hok (step_load s f w now jitter Hw)) as Hok'.
  change (LoadLatest zero (st_cache s) f (stat f (st_version s f)) (load f w) now jitter) with (use (load f w)) in Hok'.
  assert (forall d, snd (use (load f w)) = Ok d -> forall loaded now' jitter',
    LoadLatest zero (fst (use (load f w))) f examined loaded now' jitter' = (fst (use (load f w)), Ok d)) as Hagain.
  { intros d Hd loaded now' jitter'. unfold use in *. destruct examined as [fi|]; [|done].
    destruct (LoadLatest zero (st_cache s) f (Ok fi) (load f w) now jitter) as [c' r] eqn:E. simpl in *. subst.
    by eapply LoadLatest_again. }
  assert (forall fi, IsStale f examined (get_Entry zero (st_cache s) f) = Ok (false, fi) ->
     forall loaded, use loaded = (st_cache s, snd (use (load f w)))) as Hfresh.
  { intros fi H loaded. unfold use, LoadLatest. by rewrite H. }
  cut (match snd (use (load f w)) with
       | Ok d => exists k, st_version s f <= k <= w /\ load f k = Ok d
       | Err x => load f w = Err x \/ exists y, examined = Err y /\ x = EWrap ("failed to stat file " +:+ f +:+ ": ") y ""
       end).
  { intros Hr. revert Hr Hagain Hfresh Hok'. generalize (use (load f w)). intros [c' r] Hr Hagain Hfresh Hok'.
    exact (conj Hr (conj Hfresh (conj Hagain Hok'))). }
  clear Hagain Hfresh Hok'. unfold use, LoadLatest, IsStale, examined.
  destruct (stat f (st_version s f)) as [fi|y] eqn:Es; [|by right; exists y].
  destruct (_ || _) eqn:Estale.
  { destruct (load f w) as [d|x] eqn:El; simpl; [exists w|left; congruence]. by split; [lia|]. }
  apply orb_false_iff in Estale as [Hm Hs]. apply Z.ltb_ge in Hm.
  unfold get_Entry in *. simpl. unfold served.
  destruct (entries (st_cache s) !! f) as [e|] eqn:He; simpl in *; [|specialize (Hepoch _ _ _ Es); lia].
  destruct (Hok f e He) as (j & k & fi' & Hjk & Ej & _ & Hlm & Hload).
  exists k. split; [|done].
  destruct (decide (j < st_version s f)) as [Hj|]; [|lia].
  specialize (Hclock f j (st_version s f) fi' fi Hj Ej Es). lia.
Qed.

End fresh.

(** ** Eviction *)

Section eviction.
Context {T : Type}.
Abbreviation cache := (Cache (T := T)).

Definition expired (now : Z) (c : cache) (k : string) : Prop :=
  exists e, entries c !! k = Some e /\ (ExpiresAt e < now)%Z.

(** No entry the first range meets outlives its time. *)
Lemma evict_removes_expired now k1 k2 (c : cache) k :
  k ∈ k1 -> ~ expired now (evict now k1 k2 c) k.
Proof.
  assert (forall c, k ∈ k1 -> ~ expired now (foldl (evict_expired now) c k1) k) as Hrange.
  { induction k1 as [|x k1 IH]; intros c0 Hin; [by apply elem_of_nil in Hin|].
    apply elem_of_cons in Hin as [<-|Hin]; [|by apply IH].
    simpl. assert (~ expired now (evict_expired now c0 k) k) as H.
    { intros (e & He & Ht). unfold evict_expired in He.
      destruct (entries c0 !! k) as [e0|] eqn:E; [|congruence].
      destruct (ExpiresAt e0 <? now)%Z eqn:Hlt; [simpl in He; by rewrite lookup_delete_eq in He|].
      rewrite E in He. simplify_eq. lia. }
    intros (e & He & Ht). apply H. exists e. split; [|done]. revert He. generalize (evict_expired now c0 k).
    clear. induction k1 as [|x k1 IH]; intros c0 He; simpl in He; [done|].
    apply IH in He. eapply lookup_weaken; [done|apply expired_fewer]. }
  intros Hin (e & He & Ht). apply (Hrange c Hin). exists e. split; [|done].
  unfold evict in He. destruct (_ && _); [|done]. eapply lookup_weaken; [done|apply excess_fewer].
Qed.

(** The counter counts more than there is: a file loaded again is counted again,
    and the eviction then empties a cache that is not full. *)
Lemma items_drift (d : T) :
  let fi := mkInfo 1 1000000000 in
  let c0 : cache := Store (New 1 0) "a" d fi 0 0 in
  let c := Store c0 "a" d (mkInfo 2 2000000000) 0 0 in
  size (entries c) = 1 /\ items c = 2%Z /\
  size (entries (evict 0 ["a"] ["a"] c)) = 0.
Proof. intros fi c0 c. by repeat split. Qed.

(** An empty file of 1970 is taken for fresh although it is not there: the type
    assertion panics. *)
Lemma empty_old_file_panics (zero d : T) :
  snd (LoadLatest zero (New 0 0) "a" (Ok (mkInfo 0 0)) (Ok d) 0 0) =
  Err (panic "interface conversion: interface is nil").
Proof. reflexivity. Qed.

(** A second version of the same size within the same second is not seen. *)
Lemma same_second_is_missed (zero d d' : T) :
  let c := fst (LoadLatest zero (New 0 0) "a" (Ok (mkInfo 7 5000000000)) (Ok d) 0 0) in
  snd (LoadLatest zero c "a" (Ok (mkInfo 7 5900000000)) (Ok d') 0 0) = Ok d.
Proof. reflexivity. Qed.

End eviction.

(** A file written once between two reads. *)
Definition sample_stat (f : string) (k : nat) : result FileInfo := Ok (mkInfo 10 (Z.of_nat (S k) * 1000000000)).
Definition sample_load (f : string) (k : nat) : result nat := Ok (100 + k).

Lemma LoadLatest_fresh_witness :
  let c1 := fst (LoadLatest 0 (New 0 0) "a" (sample_stat "a" 0) (sample_load "a" 0) 0 0) in
  let s := mkState c1 (<["a" := 1]> (<["a" := 0]> (fun _ => 0))) in
  exists k, 1 <= k <= 1 /\
    sample_load "a" k = Ok (100 + k) /\
    snd (LoadLatest 0 (st_cache s) "a" (sample_stat "a" 1) (sample_load "a" 1) 0 0) = Ok 101.
Proof.
  intros c1 s.
  assert (clock_advances sample_stat) as Hclock.
  { intros f j k fi fi' Hjk Hj Hk. unfold sample_stat in *. simplify_eq. unfold Unix. simpl.
    rewrite !Z.div_mul by lia. lia. }
  assert (after_epoch sample_stat) as Hepoch.
  { intros f k fi Hk. unfold sample_stat in *. simplify_eq. unfold Unix. simpl. rewrite Z.div_mul by lia. lia. }
  assert (rtc (step 0 sample_stat sample_load) (initial 0 0) s) as Hreach.
  { apply (rtc_l _ _ (mkState c1 (<["a" := 0]> (fun _ => 0)))).
    { exact (step_load 0 sample_stat sample_load (initial 0 0) "a" 0 0 0 (le_n 0)). }
    apply rtc_once.
    exact (step_write 0 sample_stat sample_load (mkState c1 (<["a" := 0]> (fun _ => 0))) "a" 1 (le_S _ _ (le_n 0))). }
  pose proof (LoadLatest_fresh 0 sample_stat sample_load 0 0 s "a" 1 0 0 Hclock Hepoch Hreach (le_n 1)) as H.
  cbv zeta in H. destruct (LoadLatest 0 (st_cache s) "a" _ _ 0 0) as [c' r] eqn:E.
  assert (r = Ok 101) as -> by (symmetry; exact (f_equal snd E)). destruct H as ((k & Hk & _) & _).
  exists k. split; [exact Hk|]. split; reflexivity.
Defined.
