(* ===== verification/Stores.v ===== *)
(** * The interfaces between the program and its stores: internal/persistence/interface.go

    What the client, the agent and the handlers ask of the workflow store, the
    history store and the flag store, as classes over the state [W] the stores
    live in: an operation takes that state and returns it.  A pointer that is
    returned and later written through is a value with the effect of the write. *)

From S2P Require Import Prelude GoStrings Vars Digraph NodeData Node Sched Model History.

(** A pointer into [W]: what it points to, and the effect of a write through it. *)
Record ref (W A : Type) := mkRef { r_val : A; r_put : A -> W -> W }.
Arguments mkRef {W A} r_val r_put.
Arguments r_val {W A} r.
Arguments r_put {W A} r.

Record DAGListPaginationArgs := mkListArgs { la_Page : Z; la_Limit : Z; la_Name : string; la_Tag : string }.

Record DagListPaginationResult := mkListResult {
  lr_DagList : list DAG.t;
  lr_Count : Z;
  lr_ErrorList : list string
}.

(** [grep.Match]. *)
Record Match := mkMatch { m_Line : string; m_LineNumber : Z; m_StartLine : Z }.

Record GrepResult := mkGrepResult { gr_Name : string; gr_DAG : DAG.t; gr_Matches : list Match }.

Class HistoryStore (W : Type) := mkHistoryStore {
  hs_Open : string -> Z -> string -> W -> W * option error;
  hs_Write : MStatus.t -> W -> W * option error;
  hs_Close : W -> W * option error;
  hs_Update : string -> string -> MStatus.t -> W -> W * option error;
  hs_ReadStatusRecent : string -> nat -> W -> W * list StatusFile;
  hs_ReadStatusToday : string -> W -> W * result (ref W MStatus.t);
  hs_FindByRequestID : string -> string -> W -> result StatusFile;
  hs_RemoveAll : string -> W -> W * option error;
  hs_RemoveOld : string -> Z -> W -> W * option error;
  hs_Rename : string -> string -> W -> W * option error
}.

(** The lists are the values, the texts of the errors met, and the error. *)
Class DAGStore (W : Type) := mkDAGStore {
  ds_Create : string -> string -> W -> W * result string;
  ds_Delete : string -> W -> W * option error;
  ds_List : W -> W * (list DAG.t * list string * option error);
  ds_ListPagination : DAGListPaginationArgs -> W -> W * (DagListPaginationResult * option error);
  ds_GetMetadata : string -> W -> W * result DAG.t;
  ds_GetDetails : string -> W -> W * result DAG.t;
  ds_Grep : string -> W -> W * (list GrepResult * list string * option error);
  ds_Rename : string -> string -> W -> W * option error;
  ds_GetSpec : string -> W -> result string;
  ds_UpdateSpec : string -> string -> W -> W * option error;
  ds_TagList : W -> W * result (list string * list string)
}.

Class FlagStore (W : Type) := mkFlagStore {
  fl_ToggleSuspend : string -> bool -> W -> W * option error;
  fl_IsSuspended : string -> W -> bool
}.

(** ** The stores together

    The client holds a workflow store, a history store and a flag store
    (client.go [New]).  Their states side by side are a state of all three
    interfaces: an operation of one leaves the others alone. *)

Module App.

Section sides.
Context {D H F : Type}.

Record app := mkApp { app_dags : D; app_hist : H; app_flags : F }.

Definition set_dags (w : app) (d : D) : app := mkApp d (app_hist w) (app_flags w).
Definition set_hist (w : app) (h : H) : app := mkApp (app_dags w) h (app_flags w).
Definition set_flags (w : app) (f : F) : app := mkApp (app_dags w) (app_hist w) f.

Definition on_dags {A} (op : D -> D * A) (w : app) : app * A :=
  let '(d, a) := op (app_dags w) in (set_dags w d, a).
Definition on_hist {A} (op : H -> H * A) (w : app) : app * A :=
  let '(h, a) := op (app_hist w) in (set_hist w h, a).
Definition on_flags {A} (op : F -> F * A) (w : app) : app * A :=
  let '(f, a) := op (app_flags w) in (set_flags w f, a).

(** A pointer into the history is a pointer into the whole. *)
Definition lift_ref {A} (r : ref H A) : ref app A :=
  mkRef (r_val r) (fun a w => set_hist w (r_put r a (app_hist w))).

#[export] Instance app_HistoryStore `{!HistoryStore H} : HistoryStore app := {
  hs_Open key t rid := on_hist (hs_Open key t rid);
  hs_Write st := on_hist (hs_Write st);
  hs_Close := on_hist hs_Close;
  hs_Update key rid st := on_hist (hs_Update key rid st);
  hs_ReadStatusRecent key n := on_hist (hs_ReadStatusRecent key n);
  hs_ReadStatusToday key w :=
    match on_hist (hs_ReadStatusToday key) w with
    | (w, Ok r) => (w, Ok (lift_ref r))
    | (w, Err e) => (w, Err e)
    end;
  hs_FindByRequestID key rid w := hs_FindByRequestID key rid (app_hist w);
  hs_RemoveAll key := on_hist (hs_RemoveAll key);
  hs_RemoveOld key days := on_hist (hs_RemoveOld key days);
  hs_Rename old new := on_hist (hs_Rename old new)
}.

#[export] Instance app_DAGStore `{!DAGStore D} : DAGStore app := {
  ds_Create name spec := on_dags (ds_Create name spec);
  ds_Delete name := on_dags (ds_Delete name);
  ds_List := on_dags ds_List;
  ds_ListPagination args := on_dags (ds_ListPagination args);
  ds_GetMetadata name := on_dags (ds_GetMetadata name);
  ds_GetDetails name := on_dags (ds_GetDetails name);
  ds_Grep pattern := on_dags (ds_Grep pattern);
  ds_Rename old new := on_dags (ds_Rename old new);
  ds_GetSpec name w := ds_GetSpec name (app_dags w);
  ds_UpdateSpec name spec := on_dags (ds_UpdateSpec name spec);
  ds_TagList := on_dags ds_TagList
}.

#[export] Instance app_FlagStore `{!FlagStore F} : FlagStore app := {
  fl_ToggleSuspend name suspend := on_flags (fl_ToggleSuspend name suspend);
  fl_IsSuspended name w := fl_IsSuspended name (app_flags w)
}.

End sides.
Arguments app : clear implicits.

End App.
