(* ===== verification/Client.v ===== *)
(** * The client: internal/client client.go, interface.go

    The operations behind the web interface, the daemon and the command line, on
    the stores, the socket of a running workflow and the processes it starts.
    Operations thread the state [W] that the stores, the agents and the started
    processes share. *)

From stdpp Require Import pretty.
From S2P Require Import Prelude GoStrings Utf8 Vars Digraph NodeData CmdUtil Paths Node Graph Sched Model History Stores.
From Stdlib Require Import Ascii.

(** ** Sockets (sock/client.go, digraph/dag.go) *)

Definition ErrTimeout : error := ENew "unix socket timeout".
Definition maxSocketNameLength : nat := 50.

Section client.
Context {W : Type} `{!HistoryStore W, !DAGStore W, !FlagStore W}.
(** The MD5 digest in hexadecimal. *)
Context (md5hex : string -> string).
(** [sock.Client.Request]: address, method and path. *)
Context (request : string -> string -> string -> W -> W * result string).
(** [model.StatusFromJSON]. *)
Context (StatusFromJSON : string -> result MStatus.t).
(** Running the executable with arguments until it ends; whether a file exists. *)
Context (exec : list string -> W -> W * option error) (FileExists : string -> W -> bool).
(** [Time.Format(time.RFC3339)]. *)
Context (fmt_rfc3339 : Z -> string).
(** The order in which the graph is ranged over. *)
Context (order : Z -> nat -> list Z).

(** [DAG.SockAddr]. *)
Definition SockAddr (d : DAG.t) : string :=
  let normalizedPath := replace_all (DAG.Location d) " " "_" in
  let name := trim_suffix (Base normalizedPath) (Ext (Base normalizedPath)) in
  let name := if (maxSocketNameLength <? String.length name)%nat
              then l2s (take (maxSocketNameLength - 1) (s2l name)) else name in
  Join ["/tmp"; "@dagu-" +:+ name +:+ "-" +:+ md5hex normalizedPath +:+ ".sock"].

(** ** Workflows (client.go) *)

Definition dagTemplate : string :=
  join ["steps:"; "  - name: step1"; "    command: echo hello"; ""] (l2s ["010"%char]).

Definition GetDAGSpec (id : string) (w : W) : result string := ds_GetSpec id w.

Definition CreateDAG (name : string) (w : W) : W * result string :=
  match ds_Create name dagTemplate w with
  | (w, Err e) => (w, Err (EWrap "failed to create DAG: " e ""))
  | (w, Ok id) => (w, Ok id)
  end.

Definition client_Grep (pattern : string) (w : W) : W * (list GrepResult * list string * option error) :=
  ds_Grep pattern w.

Definition client_Rename (oldID newID : string) (w : W) : W * option error :=
  match ds_GetMetadata oldID w with
  | (w, Err e) => (w, Some (EWrap ("failed to get metadata for " +:+ oldID +:+ ": ") e ""))
  | (w, Ok oldDAG) =>
      match ds_Rename oldID newID w with
      | (w, Some e) => (w, Some e)
      | (w, None) =>
          match ds_GetMetadata newID w with
          | (w, Err e) => (w, Some (EWrap ("failed to get metadata for " +:+ newID +:+ ": ") e ""))
          | (w, Ok newDAG) =>
              match hs_Rename (DAG.Location oldDAG) (DAG.Location newDAG) w with
              | (w, Some e) => (w, Some (EWrap ("failed to rename history for " +:+ oldID +:+ ": ") e ""))
              | (w, None) => (w, None)
              end
          end
      end
  end.

Definition UpdateDAG (id spec : string) (w : W) : W * option error := ds_UpdateSpec id spec w.

Definition DeleteDAG (name loc : string) (w : W) : W * option error :=
  match hs_RemoveAll loc w with
  | (w, Some e) => (w, Some e)
  | (w, None) => ds_Delete name w
  end.

Definition ToggleSuspend (id : string) (suspend : bool) (w : W) : W * option error :=
  fl_ToggleSuspend id suspend w.
Definition IsSuspended (id : string) (w : W) : bool := fl_IsSuspended id w.
Definition GetTagList (w : W) : W * result (list string * list string) := ds_TagList w.

(** ** Runs *)

Definition Stop (dag : DAG.t) (w : W) : W * option error :=
  let addr := SockAddr dag in
  if negb (FileExists addr w) then (w, None)
  else match request addr "POST" "/stop" w with
       | (w, Ok _) => (w, None)
       | (w, Err e) => (w, Some e)
       end.

(** Carriage returns and newlines become two characters. *)
Definition escapeArg (input : string) : string :=
  l2s (concat ((fun r : Z =>
    if (r =? 13)%Z then s2l "\r" else if (r =? 10)%Z then s2l "\n" else encode_rune r) <$> decode_runes input)).

Record StartOptions := mkStart { so_Params : string; so_Quiet : bool }.

Definition dq : string := l2s [Pipe.dquote].

Definition start_args (dag : DAG.t) (opts : StartOptions) : list string :=
  ["start"] ++
  (if bool_decide (so_Params opts <> "") then ["-p"; dq +:+ escapeArg (so_Params opts) +:+ dq] else []) ++
  (if so_Quiet opts then ["-q"] else []) ++ [DAG.Location dag].

Definition Start (dag : DAG.t) (opts : StartOptions) (w : W) : W * option error :=
  exec (start_args dag opts) w.

(** The error of the goroutine is logged. *)
Definition StartAsync (dag : DAG.t) (opts : StartOptions) (w : W) : W := fst (Start dag opts w).

Definition Restart (dag : DAG.t) (quiet : bool) (w : W) : W * option error :=
  exec (["restart"] ++ (if quiet then ["-q"] else []) ++ [DAG.Location dag]) w.

Definition Retry (dag : DAG.t) (requestID : string) (w : W) : W * option error :=
  exec ["retry"; "--req=" +:+ requestID; DAG.Location dag] w.

(** ** Status *)

Definition status_request (dag : DAG.t) (w : W) : W * result string :=
  request (SockAddr dag) "GET" "/status" w.

Definition GetCurrentStatus (dag : DAG.t) (w : W) : W * result MStatus.t :=
  match status_request dag w with
  | (w, Ok ret) => (w, StatusFromJSON ret)
  | (w, Err e) => if errors_is e ErrTimeout then (w, Err e) else (w, Ok (CreateDefault fmt_rfc3339 dag))
  end.

Definition GetStatusByRequestID (dag : DAG.t) (requestID : string) (w : W) : W * result MStatus.t :=
  match hs_FindByRequestID (DAG.Location dag) requestID w with
  | Err e => (w, Err e)
  | Ok sf =>
      let '(w, cur) := GetCurrentStatus dag w in
      let st := sf_Status sf in
      match cur with
      | Ok c => (w, Ok (if bool_decide (MStatus.RequestID c <> requestID) then CorrectRunningStatus st else st))
      | Err _ => (w, Ok st)
      end
  end.

Definition currentStatus (dag : DAG.t) (w : W) : W * result MStatus.t :=
  match status_request dag w with
  | (w, Ok ret) => (w, StatusFromJSON ret)
  | (w, Err e) => (w, Err (EWrap "failed to get status: " e ""))
  end.

(** The correction is written through the pointer the history store returned. *)
Definition GetLatestStatus (dag : DAG.t) (w : W) : W * (MStatus.t * option error) :=
  match currentStatus dag w with
  | (w, Ok st) => (w, (st, None))
  | (w, Err _) =>
      match hs_ReadStatusToday (DAG.Location dag) w with
      | (w, Err e) =>
          if errors_is e ErrNoStatusDataToday || errors_is e ErrNoStatusData
          then (w, (CreateDefault fmt_rfc3339 dag, None))
          else (w, (CreateDefault fmt_rfc3339 dag, Some e))
      | (w, Ok r) =>
          let st := CorrectRunningStatus (r_val r) in
          (r_put r st w, (st, None))
      end
  end.

Definition GetRecentHistory (dag : DAG.t) (n : nat) (w : W) : W * list StatusFile :=
  hs_ReadStatusRecent (DAG.Location dag) n w.

Definition errDAGIsRunning : error := ENew "the DAG is running".

Definition UpdateStatus (dag : DAG.t) (status : MStatus.t) (w : W) : W * option error :=
  let update w := hs_Update (DAG.Location dag) (MStatus.RequestID status) status w in
  match status_request dag w with
  | (w, Err e) => if errors_is e ErrTimeout then (w, Some e) else update w
  | (w, Ok res) =>
      match StatusFromJSON res with
      | Ok u => if bool_decide (MStatus.RequestID u = MStatus.RequestID status) &&
                   bool_decide (MStatus.Status u = StatusRunning)
                then (w, Some errDAGIsRunning) else update w
      | Err _ => update w
      end
  end.

(** ** Lists *)

(** [DAGStatus] (interface.go); [ErrorT] is the text of [Error]. *)
Record DAGStatus := mkDAGStatus {
  st_File : string;
  st_Dir : string;
  st_DAG : DAG.t;
  st_Status : MStatus.t;
  st_Suspended : bool;
  st_Error : option error
}.

Definition ErrorT (s : DAGStatus) : option string := error_text <$> st_Error s.

Definition newDAGStatus (dag : DAG.t) (status : MStatus.t) (suspended : bool) (err : option error) : DAGStatus :=
  mkDAGStatus (Base (DAG.Location dag)) (Dir (DAG.Location dag)) dag status suspended err.

Definition readStatus (dag : DAG.t) (w : W) : W * (DAGStatus * option error) :=
  let '(w, (latest, err)) := GetLatestStatus dag w in
  let id := trim_suffix (Base (DAG.Location dag)) (Ext (DAG.Location dag)) in
  (w, (newDAGStatus dag latest (IsSuspended id w) err, err)).

(** The loops over a list of workflows: the statuses, and the texts of errors. *)
Fixpoint read_all (dags : list DAG.t) (w : W) : W * (list DAGStatus * list string) :=
  match dags with
  | [] => (w, ([], []))
  | d :: dags =>
      let '(w, (s, err)) := readStatus d w in
      let '(w, (ss, errs)) := read_all dags w in
      (w, (s :: ss, match err with Some e => error_text e :: errs | None => errs end))
  end.

Definition GetAllStatus (w : W) : W * (list DAGStatus * list string * option error) :=
  let '(w, (dags, errs, err)) := ds_List w in
  let '(w, (ss, more)) := read_all dags w in
  (w, (ss, errs ++ more, err)).

(** Go's division truncates, and panics on zero. *)
Definition getPageCount (total limit : Z) : result Z :=
  if (limit =? 0)%Z then Err (panic "integer divide by zero") else Ok (Z.quot (total - 1) limit + 1)%Z.

(** [dags.ListDAGsParams]: the parameters of the request that are present. *)
Record ListDAGsParams := mkListParams {
  lp_Page : option Z;
  lp_Limit : option Z;
  lp_SearchName : option string;
  lp_SearchTag : option string
}.

Record PaginationSummary := mkSummary { ps_PageCount : Z; ps_ErrorList : list string }.

Definition GetAllStatusPagination (params : ListDAGsParams) (w : W)
    : W * result (list DAGStatus * PaginationSummary * option error) :=
  let page := default 1%Z (lp_Page params) in
  let limit := default 100%Z (lp_Limit params) in
  match ds_ListPagination (mkListArgs page limit (default "" (lp_SearchName params))
                             (default "" (lp_SearchTag params))) w with
  | (w, (_, Some e)) => (w, Ok ([], mkSummary 1 [], Some e))
  | (w, (r, None)) =>
      let '(w, (ss, errs)) := read_all (lr_DagList r) w in
      match getPageCount (lr_Count r) limit with
      | Err x => (w, Err x)
      | Ok n => (w, Ok (ss, mkSummary n (lr_ErrorList r ++ errs), None))
      end
  end.

(** [getDAG]: the details, or a workflow with nothing but the name for location. *)
Definition getDAG (name : string) (w : W) : W * (DAG.t * option error) :=
  match ds_GetDetails name w with
  | (w, Ok d) => (w, (d, None))
  | (w, Err e) => (w, (DAG.set_Location DAG.empty name, Some e))
  end.

(** The check of the graph; the construction always answers. *)
Definition graph_error (steps : list Step.t) : option error :=
  match snd (NewExecutionGraph order 1 steps) with
  | Some (Err e) => Some e
  | _ => None
  end.

Definition GetStatus (id : string) (w : W) : W * (DAGStatus * option error) :=
  let '(w, (dag, err)) := getDAG id w in
  let err := match err with None => graph_error (DAG.Steps dag) | e => e end in
  let '(w, (latest, _)) := GetLatestStatus dag w in
  (w, (newDAGStatus dag latest (IsSuspended id w) err, err)).

End client.
