(* ===== verification/JsonStore.v ===== *)
(** * The history store as the program uses it: internal/persistence/jsondb with its cache

    The operations of History with the optional file cache in front of the
    reads, as an instance of the interface of the history store. *)

From S2P Require Import Prelude GoStrings Vars Digraph NodeData Paths Node Sched Model History HistoryProps FileCache Stores Client.

Record hist := mkHist {
  h_writer : option writer;
  h_fs : fs;
  h_cache : option (Cache (T := MStatus.t))
}.

Definition set_fs (h : hist) (f : fs) : hist := mkHist (h_writer h) f (h_cache h).
Definition set_cache (h : hist) (c : option (Cache (T := MStatus.t))) : hist := mkHist (h_writer h) (h_fs h) c.
Definition set_db (h : hist) (s : option writer * fs) : hist := mkHist (fst s) (snd s) (h_cache h).

(** What the cache would hold for no status. *)
Definition no_status : MStatus.t :=
  MStatus.mk "" "" StatusNone "" 0 [] None None None None "" "" "" "" [].

(** [os.Stat]. *)
Definition file_info (f : fs) (path : string) : result FileInfo :=
  match f !! path with
  | None => Err ErrNotExist
  | Some fl => Ok (mkInfo (Z.of_nat (length (f_content fl))) (f_mtime fl))
  end.

(** The options of the store ([Options], [New]). *)
Module Options.
Record t := mk { FileCache : option (Cache (T := MStatus.t)); LatestStatusToday : bool }.
Definition Option_ : Type := t -> t.
Definition WithFileCache (cache : option (Cache (T := MStatus.t))) : Option_ := fun o => mk cache (LatestStatusToday o).
Definition WithLatestStatusToday (latestStatusToday : bool) : Option_ := fun o => mk (FileCache o) latestStatusToday.

Record JSONDB := mkJSONDB { baseDir : string; latestStatusToday : bool; fileCache : option (Cache (T := MStatus.t)) }.

(** Without an option the latest status is the one of today. *)
Definition New (baseDir : string) (opts : list Option_) : JSONDB :=
  let options := foldl (fun o opt => opt o) (mk None true) opts in
  mkJSONDB baseDir (LatestStatusToday options) (FileCache options).

(** The state the store starts with, on what is in its directory. *)
Definition opened (db : JSONDB) (f : fs) : hist := mkHist None f (fileCache db).
End Options.

Section store.
Context (marshal : MStatus.t -> result string) (unmarshal : string -> option MStatus.t).
Context (baseDir : string) (md5hex : string -> string) (fmt_utc : Z -> string).
Context (parse_plain parse_utc : string -> option Z).
Context (latestStatusToday : bool).
Context (o : os).
(** The random jitter of the cache; the date some days before now. *)
Context (jitter : Z) (days_ago : Z -> Z).

(** [parseStatusFile]. *)
Definition parseStatusFile (file : string) (h : hist) : hist * result MStatus.t :=
  let loaded := ParseStatusFile unmarshal (h_fs h) file in
  match h_cache h with
  | None => (h, loaded)
  | Some c =>
      let '(c, r) := LoadLatest no_status c file (file_info (h_fs h) file) loaded (os_now o) jitter in
      (set_cache h (Some c), r)
  end.

Definition invalidate (file : string) (h : hist) : hist :=
  set_cache h ((fun c => Invalidate c file) <$> h_cache h).

(** A write through the pointer to the status of a file: the cache holds the
    pointer. *)
Definition put_status (file : string) (st : MStatus.t) (h : hist) : hist :=
  set_cache h ((fun c => set_entries c (alter (fun e =>
    mkEntry st (Size e) (LastModified e) (ExpiresAt e)) file (entries c))) <$> h_cache h).

Definition cached_Update (key requestID : string) (status : MStatus.t) (h : hist) : hist * option error :=
  match FindByRequestID unmarshal baseDir md5hex (h_fs h) key requestID with
  | Err e => (h, Some e)
  | Ok sf =>
      match writer_open o (h_fs h) (newWriter (sf_File sf)) with
      | (f, (_, Some e)) => (set_fs h f, Some e)
      | (f, (w, None)) =>
          let '(f, e) := writer_write marshal o f w status in
          (invalidate (sf_File sf) (set_fs h f), e)
      end
  end.

(** The cache is told when the compaction went through. *)
Definition cached_Close (h : hist) : hist * option error :=
  match h_writer h with
  | None => (h, None)
  | Some w =>
      match Compact marshal unmarshal o (h_fs h) (w_target w) with
      | (f, Some e) => (mkHist None f (h_cache h), Some e)
      | (f, None) => (invalidate (w_target w) (mkHist None f (h_cache h)), snd (writer_close o w))
      end
  end.

Fixpoint read_files (files : list string) (h : hist) : hist * list StatusFile :=
  match files with
  | [] => (h, [])
  | file :: files =>
      let '(h, r) := parseStatusFile file h in
      let '(h, l) := read_files files h in
      (h, match r with Ok st => mkStatusFile file st :: l | Err _ => l end)
  end.

Definition cached_ReadStatusRecent (key : string) (itemLimit : nat) (h : hist) : hist * list StatusFile :=
  read_files (filterLatest parse_plain parse_utc (glob (h_fs h) (globPattern baseDir md5hex key)) itemLimit) h.

Definition cached_ReadStatusToday (key : string) (h : hist) : hist * result (ref hist MStatus.t) :=
  match latestToday baseDir md5hex parse_plain parse_utc latestStatusToday (h_fs h) key (os_now o) with
  | Err e => (h, Err e)
  | Ok file =>
      match parseStatusFile file h with
      | (h, Err e) => (h, Err e)
      | (h, Ok st) => (h, Ok (mkRef st (put_status file)))
      end
  end.

Definition lift (op : fs -> fs * option error) (h : hist) : hist * option error :=
  let '(f, e) := op (h_fs h) in (set_fs h f, e).

#[export] Instance JSONDB : HistoryStore hist := {
  hs_Open key timestamp requestID h :=
    let '(s, e) := db_Open baseDir md5hex fmt_utc o key timestamp requestID (h_writer h, h_fs h) in (set_db h s, e);
  hs_Write status h :=
    let '(s, e) := db_Write marshal o status (h_writer h, h_fs h) in (set_db h s, e);
  hs_Close := cached_Close;
  hs_Update := cached_Update;
  hs_ReadStatusRecent := cached_ReadStatusRecent;
  hs_ReadStatusToday := cached_ReadStatusToday;
  hs_FindByRequestID key requestID h := FindByRequestID unmarshal baseDir md5hex (h_fs h) key requestID;
  hs_RemoveAll key := lift (fun f => RemoveAll baseDir md5hex o f key);
  hs_RemoveOld key retentionDays :=
    lift (fun f => RemoveOld baseDir md5hex o f key retentionDays (days_ago retentionDays));
  hs_Rename oldKey newKey := lift (fun f => Rename baseDir md5hex o f oldKey newKey)
}.

End store.

(** ** Properties of the history store with its cache

    While the cache is coherent the store with it answers as the store without
    it; reads and updates keep it coherent; a correction written through a
    pointer does not. *)

Section agree.
Context (marshal : MStatus.t -> result string) (unmarshal : string -> option MStatus.t).
Context (baseDir : string) (md5hex : string -> string) (fmt_utc : Z -> string).
Context (parse_plain parse_utc : string -> option Z).
Context (latestStatusToday : bool).
Context (o : os) (jitter : Z) (days_ago : Z -> Z).

Abbreviation store := (JSONDB marshal unmarshal baseDir md5hex fmt_utc parse_plain parse_utc latestStatusToday o jitter days_ago).
Abbreviation parse := (ParseStatusFile unmarshal).
Abbreviation parse_file := (parseStatusFile unmarshal o jitter).
Abbreviation update := (cached_Update marshal unmarshal baseDir md5hex o).
Abbreviation recent := (cached_ReadStatusRecent unmarshal baseDir md5hex parse_plain parse_utc o jitter).
Abbreviation today :=
  (cached_ReadStatusToday unmarshal baseDir md5hex parse_plain parse_utc latestStatusToday o jitter).

(** The store without its cache. *)
Definition plain (h : hist) : hist := set_cache h None.

(** Files are from after 1970, and what the cache would serve for a file is what
    the file holds. *)
Definition dated (f : fs) : Prop := forall p fl, f !! p = Some fl -> (0 < Unix (f_mtime fl))%Z.

Definition fresh_in (f : fs) (e : Entry (T := MStatus.t)) (fl : file) : Prop :=
  (Unix (f_mtime fl) <= LastModified e)%Z /\ Size e = Z.of_nat (length (f_content fl)).

Definition coherent (h : hist) : Prop := forall c p e fl,
  h_cache h = Some c -> entries c !! p = Some e -> h_fs h !! p = Some fl -> fresh_in (h_fs h) e fl ->
  parse (h_fs h) p = Ok (Data e).

Definition good (h : hist) : Prop := dated (h_fs h) /\ coherent h.

(** ** Reading one file *)

(** The status in a file that is there. *)
Lemma parse_file_agrees h p :
  good h ->
  let '(h', r) := parse_file p h in
  good h' /\ h_fs h' = h_fs h /\ h_writer h' = h_writer h /\
  (forall st, r = Ok st <-> parse (h_fs h) p = Ok st).
Proof.
  intros [Hd Hc]. unfold parseStatusFile. destruct (h_cache h) as [c|] eqn:Ec; [|done].
  unfold LoadLatest, IsStale, file_info. destruct (h_fs h !! p) as [fl|] eqn:Ef.
  2:{ split_and!; try done.
      - split; [done|]. intros c' q e fl [= <-] He Hf Hfresh. by eapply Hc.
      - intros st. unfold ParseStatusFile. rewrite Ef. done. }
  cbn [fi_ModTime fi_Size]. destruct (_ || _) eqn:Estale.
  - destruct (parse (h_fs h) p) as [st|x] eqn:Ep.
    + split_and!; try done. split; [done|]. intros c' q e fl' [= <-] He Hf Hfresh. simpl in He, Hf |- *.
      apply lookup_insert_Some in He as [[<- <-]|[Hq He]]; [done|]. by eapply Hc.
    + split_and!; try done. split; [done|]. intros c' q e fl' [= <-] He Hf Hfresh. by eapply Hc.
  - apply orb_false_iff in Estale as [Hm Hs]. apply Z.ltb_ge in Hm. apply negb_false_iff, Z.eqb_eq in Hs.
    unfold get_Entry, served in *.
    destruct (entries c !! p) as [e|] eqn:He; [|specialize (Hd _ _ Ef); simpl in Hm; lia].
    simpl in Hm, Hs. assert (parse (h_fs h) p = Ok (Data e)) as Hp by (eapply Hc; done).
    split_and!; try done; [|by intros st; rewrite Hp]. split; [done|].
    intros c' q e' fl' [= <-] He' Hf Hfresh. by eapply Hc.
Qed.

Lemma read_files_agree files : forall h, good h ->
  let '(h', l) := read_files unmarshal o jitter files h in
  good h' /\ h_fs h' = h_fs h /\ h_writer h' = h_writer h /\
  l = omap (fun p => match parse (h_fs h) p with Ok st => Some (mkStatusFile p st) | Err _ => None end) files.
Proof.
  induction files as [|p files IH]; intros h Hg; [done|]. simpl.
  pose proof (parse_file_agrees h p Hg) as Hp. destruct (parse_file p h) as [h1 r].
  destruct Hp as (Hg1 & Hf1 & Hw1 & Hr). specialize (IH h1 Hg1).
  destruct (read_files _ _ _ files h1) as [h2 l]. destruct IH as (Hg2 & Hf2 & Hw2 & ->).
  rewrite Hf1 in *. split_and!; [done|by rewrite Hf2|by rewrite Hw2|].
  destruct r as [st|x]; [by rewrite (proj1 (Hr st) eq_refl)|].
  destruct (parse (h_fs h) p) as [st|y] eqn:E; [|done]. specialize (proj2 (Hr st) eq_refl). done.
Qed.

(** ** Updating *)

Lemma update_fs h key requestID st :
  h_fs (fst (update key requestID st h)) =
  fst (Update marshal unmarshal baseDir md5hex o (h_fs h) key requestID st) /\
  snd (update key requestID st h) = snd (Update marshal unmarshal baseDir md5hex o (h_fs h) key requestID st).
Proof.
  unfold cached_Update, Update. destruct (FindByRequestID _ _ _ _ key requestID) as [sf|e]; [|done].
  destruct (writer_open o (h_fs h) _) as [f1 [w [x|]]]; [done|].
  destruct (writer_write marshal o f1 w st) as [f2 er]. done.
Qed.

Lemma writer_open_target f p f1 w x : writer_open o f (newWriter p) = (f1, (w, x)) -> w_target w = p.
Proof. unfold writer_open. simpl. repeat case_match; intros; by simplify_eq/=. Qed.

(** Opening for an update creates nothing: the file was just read. *)
Lemma find_request_exists f requestID ms sf :
  find_request unmarshal f requestID ms = Some sf -> is_Some (f !! sf_File sf).
Proof.
  induction ms as [|m ms IH]; simpl; [done|]. unfold ParseStatusFile at 1.
  destruct (f !! m) as [fl|] eqn:E; [|done]. destruct (parse_content _ _); [|done].
  case_bool_decide; [|done]. intros. simplify_eq/=. by rewrite E.
Qed.

Lemma update_good h key requestID st :
  (0 < Unix (os_now o))%Z -> good h -> good (fst (update key requestID st h)).
Proof.
  intros Hnow [Hd Hc]. unfold cached_Update, FindByRequestID. case_bool_decide; [done|].
  destruct (find_request _ _ _ _) as [sf|] eqn:Ef; [|done]. apply find_request_exists in Ef as [fl Hfl].
  unfold writer_open. simpl. destruct (os_mkdir o _); [done|]. destruct (os_open o _); [done|].
  rewrite Hfl. simpl. unfold writer_write. simpl.
  destruct (marshal st) as [json|err]; simpl.
  2:{ split; [done|]. intros c p e fl' Hcache He Hf Hfresh. simpl in *.
      destruct (h_cache h) as [c0|] eqn:Ec; [|done]. simplify_eq/=.
      eapply Hc; try done. eapply lookup_weaken; [done|apply delete_subseteq]. }
  assert (exists d e', match os_write o (sf_File sf) with
      | Some (n, e) => (alter (append_bytes o (take n (s2l json ++ [nl]))) (sf_File sf) (h_fs h), Some e)
      | None => (alter (append_bytes o (s2l json ++ [nl])) (sf_File sf) (h_fs h), None)
      end = (alter (append_bytes o d) (sf_File sf) (h_fs h), e')) as (d & e' & ->)
    by (destruct (os_write _ _) as [[n x]|]; by eexists _, _).
  simpl. split.
  - intros p fl' Hp. simpl in Hp. apply lookup_alter_Some in Hp as [(_ & fl0 & _ & ->)|[_ Hp]]; [done|by eapply Hd].
  - intros c p e fl' Hcache He Hf Hfresh. simpl in *.
    destruct (h_cache h) as [c0|] eqn:Ec; [|done]. simplify_eq/=.
    apply lookup_delete_Some in He as [Hne He]. rewrite lookup_alter_ne in Hf by done.
    unfold ParseStatusFile. rewrite lookup_alter_ne by done. eapply Hc; done.
Qed.

(** ** Writing *)

(** A file is as it was, gone, or of now. *)
Definition touches (f f' : fs) : Prop := forall p fl, f' !! p = Some fl -> f !! p = Some fl \/ f_mtime fl = os_now o.

Lemma touches_trans f f1 f2 : touches f f1 -> touches f1 f2 -> touches f f2.
Proof. intros H1 H2 p fl [H|H]%H2; [by apply H1|by right]. Qed.

Lemma touches_delete f p : touches f (delete p f).
Proof. intros q fl [_ H]%lookup_delete_Some. by left. Qed.

Lemma touches_append f p d : touches f (alter (append_bytes o d) p f).
Proof. intros q fl [(_ & fl0 & _ & ->)|[_ H]]%lookup_alter_Some; [by right|by left]. Qed.

Lemma open_touches f w : touches f (fst (writer_open o f w)).
Proof.
  unfold writer_open. destruct (w_closed w); [by left|]. destruct (os_mkdir o _); [by left|]. destruct (os_open o _); [by left|]. simpl.
  destruct (f !! w_target w); [by left|]. intros p fl [[_ <-]|[_ H]]%lookup_insert_Some; [by right|by left].
Qed.

Lemma write_touches f w st : touches f (fst (writer_write marshal o f w st)).
Proof.
  unfold writer_write. destruct (w_closed w); [by left|]. destruct (w_opened w); [|by left]. simpl.
  destruct (marshal st); [|by left]. destruct (os_write _ _) as [[n e]|]; apply touches_append.
Qed.

(** What was written is of now. *)
Lemma written_now f w st f' fl :
  writer_write marshal o f w st = (f', None) -> f' !! w_target w = Some fl -> f_mtime fl = os_now o.
Proof.
  unfold writer_write. destruct (w_closed w); [done|]. destruct (w_opened w); [|done]. simpl.
  destruct (marshal st); [|done]. destruct (os_write _ _) as [[n e]|]; [done|]. intros [= <-].
  intros [(_ & fl0 & _ & ->)|[? _]]%lookup_alter_Some; done.
Qed.

Lemma remove_touches f p : touches f (fst (remove o f p)).
Proof. unfold remove. destruct (f !! p); [|by left]. destruct (os_remove o p); [by left|apply touches_delete]. Qed.

Lemma Compact_touches f target : touches f (fst (Compact marshal unmarshal o f target)).
Proof.
  unfold Compact. destruct (ParseStatusFile _ f target) as [st|e]; [|by case_bool_decide; left].
  pose proof (open_touches f (newWriter (temp_path target))) as H1.
  destruct (writer_open o f _) as [f1 [w [x|]]] eqn:Eo; [done|]. apply writer_open_target in Eo.
  pose proof (write_touches f1 w st) as H2.
  destruct (writer_write _ _ f1 w st) as [f2 [x|]] eqn:Ew; simpl in H1, H2; (assert (touches f f2) as H by (by eapply touches_trans)).
  - pose proof (remove_touches f2 (temp_path target)) as H3. destruct (remove o f2 _) as [f3 [y|]]; by eapply touches_trans.
  - pose proof (remove_touches f2 target) as H3. destruct (remove o f2 target) as [f3 [y|]] eqn:Er; simpl in H3; [by eapply touches_trans|].
    unfold rename. destruct (f3 !! temp_path target) as [fl|] eqn:Et; [|by eapply touches_trans].
    destruct (os_rename o _); [by eapply touches_trans|]. eapply touches_trans; [exact H|]. simpl.
    intros p fl' [[_ <-]|[_ [_ Hp]%lookup_delete_Some]]%lookup_insert_Some; [|by apply H3].
    right. eapply (written_now f1 w st f2); [done|]. rewrite Eo.
    unfold remove in Er. destruct (f2 !! target); [|done]. destruct (os_remove o target); [done|]. injection Er as <-.
    by apply lookup_delete_Some in Et as [_ ?].
Qed.

(** The entries of the cache are of seconds before this one. *)
Definition earlier (h : hist) : Prop := forall c p e,
  h_cache h = Some c -> entries c !! p = Some e -> (LastModified e < Unix (os_now o))%Z.

Lemma touches_good h w f' :
  (0 < Unix (os_now o))%Z -> good h -> earlier h -> touches (h_fs h) f' -> good (mkHist w f' (h_cache h)).
Proof.
  intros Hnow [Hd Hc] He Ht. split.
  - intros p fl [Hp|Hp]%Ht; [by eapply Hd|by rewrite Hp].
  - intros c p e fl Hcache Hentry Hp Hfresh. simpl in *. destruct (Ht p fl Hp) as [Hp'|Hm].
    + specialize (Hc c p e fl Hcache Hentry Hp' Hfresh). unfold ParseStatusFile in *. by rewrite Hp, Hp' in *.
    + destruct Hfresh as [Hle _]. rewrite Hm in Hle. specialize (He c p e Hcache Hentry). lia.
Qed.

Lemma invalidate_good h p : good h -> good (invalidate p h).
Proof.
  intros [Hd Hc]. split; [done|]. intros c q e fl Hcache He Hp Hfresh. simpl in *.
  destruct (h_cache h) as [c0|] eqn:Ec; [|done]. injection Hcache as <-. simpl in He.
  apply lookup_delete_Some in He as [_ He]. by apply (Hc c0 q e fl).
Qed.

Lemma close_good h : (0 < Unix (os_now o))%Z -> good h -> earlier h -> good (fst (cached_Close marshal unmarshal o h)).
Proof.
  intros Hnow Hg He. unfold cached_Close. destruct (h_writer h) as [w|]; [|done].
  pose proof (Compact_touches (h_fs h) (w_target w)) as Ht.
  destruct (Compact _ _ o (h_fs h) (w_target w)) as [f [x|]]; simpl in *; [|apply invalidate_good]; by apply touches_good.
Qed.

(** C32: the history store with its cache refines the one without: while the
    cache is coherent, the recent statuses, today's status and an update have the
    results the store without the cache has on the same files, and leave the same
    files and a coherent cache.  So do the opening of a file, the writes to it and its
    close with the compaction, when the cached files are of seconds before this one. *)
Theorem cached_store_agrees (h : hist) (key requestID : string) (n : nat) (st : MStatus.t)
    (Hnow : (0 < Unix (os_now o))%Z) (Hgood : good h) :
  (let '(h', l) := recent key n h in
   good h' /\ plain h' = plain h /\ l = snd (recent key n (plain h))) /\
  (let '(h', r) := today key h in
   good h' /\ plain h' = plain h /\
   forall s, (r_val <$> r) = Ok s <-> (r_val <$> snd (today key (plain h))) = Ok s) /\
  (let '(h', e) := update key requestID st h in
   good h' /\ h_fs h' = h_fs (fst (update key requestID st (plain h))) /\
   e = snd (update key requestID st (plain h))) /\
  (earlier h -> forall op : hist -> hist * option error,
   op = cached_Close marshal unmarshal o \/ op = @hs_Write hist store st \/ (exists t, op = @hs_Open hist store key t requestID) ->
   good (fst (op h)) /\ (plain (fst (op h)), snd (op h)) = op (plain h)).
Proof.
  assert (forall h', h_fs h' = h_fs h -> h_writer h' = h_writer h -> plain h' = plain h) as Hplain.
  { intros [] Hf Hw. unfold plain, set_cache. simpl in *. by subst. }
  assert (good (plain h)) as Hgp by (split; [apply Hgood|]; intros c p e fl Hc; done).
  split_and!.
  - unfold cached_ReadStatusRecent.
    pose proof (read_files_agree (filterLatest parse_plain parse_utc (glob (h_fs h) (globPattern baseDir md5hex key)) n) h Hgood) as H1.
    pose proof (read_files_agree (filterLatest parse_plain parse_utc (glob (h_fs h) (globPattern baseDir md5hex key)) n) (plain h) Hgp) as H2.
    change (h_fs (plain h)) with (h_fs h) in *.
    destruct (read_files _ _ _ _ h) as [h1 l1]. destruct (read_files _ _ _ _ (plain h)) as [h2 l2].
    destruct H1 as (Hg1 & Hf1 & Hw1 & ->), H2 as (_ & _ & _ & ->). split_and!; [done|by apply Hplain|done].
  - unfold cached_ReadStatusToday. change (h_fs (plain h)) with (h_fs h).
    destruct (latestToday _ _ _ _ _ _ _ _) as [p|x]; [|by split_and!].
    pose proof (parse_file_agrees h p Hgood) as H1. pose proof (parse_file_agrees (plain h) p Hgp) as H2.
    destruct (parse_file p h) as [h1 r1], (parse_file p (plain h)) as [h2 r2].
    destruct H1 as (Hg1 & Hf1 & Hw1 & H1), H2 as (_ & _ & _ & H2). change (h_fs (plain h)) with (h_fs h) in H2.
    assert (forall s, r1 = Ok s <-> r2 = Ok s) as H by (intros s; by rewrite H1, H2).
    destruct r1, r2; (split; [done|]; split; [by apply Hplain|]); exact H.
  - pose proof (update_fs h key requestID st) as [Hf1 He1].
    pose proof (update_fs (plain h) key requestID st) as [Hf2 He2]. change (h_fs (plain h)) with (h_fs h) in *.
    pose proof (update_good h key requestID st Hnow Hgood) as Hg.
    destruct (update key requestID st h) as [h1 e1]. simpl in *. split_and!; [done|congruence|congruence].
  - intros He op [->|[->|[t ->]]].
    + split; [by apply close_good|]. unfold cached_Close. change (h_writer (plain h)) with (h_writer h).
      change (h_fs (plain h)) with (h_fs h). destruct (h_writer h) as [w|]; [|done].
      by destruct (Compact _ _ o (h_fs h) (w_target w)) as [f [x|]].
    + simpl. unfold db_Write. simpl. destruct (h_writer h) as [w|] eqn:Ew; simpl.
      * pose proof (write_touches (h_fs h) w st) as Ht. destruct (writer_write _ _ _ _ _) as [f e]. split; [by apply touches_good|done].
      * split; [|done]. unfold set_db. simpl. apply touches_good; try done. by left.
    + simpl. unfold db_Open. simpl. destruct (generateFilePath _ _ _ _ _ _) as [p|x]; simpl.
      * pose proof (open_touches (h_fs h) (newWriter p)) as Ht. destruct (writer_open o _ _) as [f [w [x|]]]; (split; [by apply touches_good|done]).
      * split; [|done]. unfold set_db. simpl. apply touches_good; try done. by left.
Qed.

End agree.

(** ** A sample store *)

Definition later_calm : os :=
  mkOs 9000000000 (fun _ => true) (fun _ => None) (fun _ => None) (fun _ => None) (fun _ => None)
    (fun _ => None) (fun _ => None).

Definition sample_fs : fs := {[ sample_file := mkFile (s2l "running" ++ [nl]) 3000000000 ]}.

(** The file has been read once. *)
Definition sample_hist : hist :=
  fst (parseStatusFile sample_unmarshal later_calm 0 sample_file (mkHist None sample_fs (Some (New 0 60)))).

Definition one_timestamp (s : string) : option Z := Some 0%Z.

Lemma cached_store_agrees_witness :
  let '(h', r) := cached_ReadStatusToday sample_unmarshal "/h" (fun _ => "m") one_timestamp one_timestamp false
                    later_calm 0 "/d/k.yaml" sample_hist in
  (exists c, h_cache sample_hist = Some c /\ size (entries c) = 1) /\
  (r_val <$> r) = Ok (sample_status "r1" StatusRunning).
Proof.
  assert (good sample_unmarshal sample_hist) as Hgood.
  { split.
    - intros p fl H. change (h_fs sample_hist) with sample_fs in H. unfold sample_fs in H. apply lookup_singleton_Some in H as [_ <-]. vm_compute. reflexivity.
    - intros c p e fl Hc He Hf _. change (h_fs sample_hist) with sample_fs in Hf |- *. unfold sample_fs in Hf. apply lookup_singleton_Some in Hf as [<- <-].
      vm_compute in Hc. simplify_eq. vm_compute in He. simplify_eq. vm_compute. reflexivity. }
  destruct (cached_store_agrees sample_marshal sample_unmarshal "/h" (fun _ => "m") (fun _ => "") one_timestamp one_timestamp false
    later_calm 0 (fun _ => 0%Z) sample_hist "/d/k.yaml" "r1" 1 (sample_status "r1" StatusSuccess) eq_refl Hgood) as (_ & H & _ & _).
  revert H. destruct (cached_ReadStatusToday _ _ _ _ _ _ _ _ _ _) as [h' r]. intros (_ & _ & H).
  split; [eexists; split; vm_compute; reflexivity|]. apply H. vm_compute. reflexivity.
Defined.

(** The agent of the run does not answer in time: the client corrects the running
    status it read, through the pointer the cache holds, and the history then
    shows the run failed although its file says it is running. *)
Lemma correction_stays_in_cache :
  let I := JSONDB sample_marshal sample_unmarshal "/h" (fun _ => "m") (fun _ => "") one_timestamp one_timestamp
             false later_calm 0 (fun _ => 0%Z) in
  let dag := DAG.set_Location DAG.empty "/d/k.yaml" in
  let '(h, (st, err)) := @GetLatestStatus hist I (fun _ => "m") (fun _ _ _ w => (w, Err ErrTimeout))
                           (fun _ => Err ErrEOF) (fun _ => "") dag sample_hist in
  MStatus.Status <$> ParseStatusFile sample_unmarshal (h_fs h) sample_file = Ok StatusRunning /\
  MStatus.Status st = StatusError /\
  (MStatus.Status ∘ sf_Status) <$> snd (@hs_ReadStatusRecent hist I "/d/k.yaml" 1 h) = [StatusError].
Proof. vm_compute. done. Qed.
