(* ===== verification/ClientProps.v ===== *)
(** * Properties of the client

    Whose word a reported status is, and when a status is written. *)

From S2P Require Import Prelude GoStrings Vars Digraph NodeData Paths Node Graph Sched Model History HistoryProps FileCache Stores Client JsonStore.

Section client.
Context {W : Type} `{!HistoryStore W, !DAGStore W, !FlagStore W}.
Context (md5hex : string -> string).
Context (request : string -> string -> string -> W -> W * result string).
Context (StatusFromJSON : string -> result MStatus.t).
Context (fmt_rfc3339 : Z -> string) (order : Z -> nat -> list Z).

(** What the agent of a workflow answers when asked for its status. *)
Definition answers (dag : DAG.t) (w : W) (st : MStatus.t) : Prop :=
  exists ret, snd (status_request md5hex request dag w) = Ok ret /\ StatusFromJSON ret = Ok st.

(** No one can tell: the request timed out, or the answer cannot be read. *)
Definition undecided (dag : DAG.t) (w : W) : Prop :=
  (exists e, snd (status_request md5hex request dag w) = Err e /\ errors_is e ErrTimeout = true) \/
  (exists ret e, snd (status_request md5hex request dag w) = Ok ret /\ StatusFromJSON ret = Err e).

Lemma CorrectRunningStatus_not_running st : MStatus.Status (CorrectRunningStatus st) <> StatusRunning.
Proof. unfold CorrectRunningStatus. by case_bool_decide. Qed.

Lemma CreateDefault_not_running dag : MStatus.Status (CreateDefault fmt_rfc3339 dag) <> StatusRunning.
Proof. done. Qed.

Lemma latest_running dag w st err w' :
  GetLatestStatus md5hex request StatusFromJSON fmt_rfc3339 dag w = (w', (st, err)) ->
  MStatus.Status st = StatusRunning -> answers dag w st /\ err = None.
Proof.
  unfold GetLatestStatus, currentStatus, answers. destruct (status_request md5hex request dag w) as [w1 [ret|e]].
  - intros H Hr. destruct (StatusFromJSON ret) as [s|] eqn:E.
    + simplify_eq. eauto.
    + destruct (hs_ReadStatusToday _ _) as [w2 [r|x]].
      * simplify_eq. by destruct (CorrectRunningStatus_not_running (r_val r)).
      * destruct (_ || _); by simplify_eq.
  - intros H Hr. destruct (hs_ReadStatusToday _ _) as [w2 [r|x]].
    + simplify_eq. by destruct (CorrectRunningStatus_not_running (r_val r)).
    + destruct (_ || _); by simplify_eq.
Qed.

(** A running status is not overwritten. *)
Lemma UpdateStatus_running dag st u w :
  answers dag w u -> MStatus.RequestID u = MStatus.RequestID st -> MStatus.Status u = StatusRunning ->
  UpdateStatus md5hex request StatusFromJSON dag st w =
    (fst (status_request md5hex request dag w), Some errDAGIsRunning).
Proof.
  intros (ret & Hret & Hj) Hid Hr. unfold UpdateStatus.
  destruct (status_request md5hex request dag w) as [w1 r]. simpl in *. subst r. rewrite Hj.
  by rewrite !bool_decide_true by done.
Qed.

(** Without an answer, other than for lack of time, the history is updated. *)
Lemma UpdateStatus_stopped dag st w e :
  snd (status_request md5hex request dag w) = Err e -> errors_is e ErrTimeout = false ->
  UpdateStatus md5hex request StatusFromJSON dag st w =
    hs_Update (DAG.Location dag) (MStatus.RequestID st) st (fst (status_request md5hex request dag w)).
Proof.
  intros Hret Ht. unfold UpdateStatus. destruct (status_request md5hex request dag w) as [w1 r].
  simpl in *. subst r. by rewrite Ht.
Qed.

(** The agent says that the run of a status runs. *)
Definition says_running (dag : DAG.t) (w : W) (st : MStatus.t) : Prop :=
  exists u, answers dag w u /\ MStatus.RequestID u = MStatus.RequestID st /\ MStatus.Status u = StatusRunning.

(** It was not answered in time. *)
Definition timed_out (dag : DAG.t) (w : W) (e : error) : Prop :=
  snd (status_request md5hex request dag w) = Err e /\ errors_is e ErrTimeout = true.

Lemma UpdateStatus_others dag st w :
  ~ says_running dag w st -> (forall e, ~ timed_out dag w e) ->
  UpdateStatus md5hex request StatusFromJSON dag st w =
    hs_Update (DAG.Location dag) (MStatus.RequestID st) st (fst (status_request md5hex request dag w)).
Proof.
  intros Hs Ht. unfold UpdateStatus, says_running, timed_out, answers in *.
  destruct (status_request md5hex request dag w) as [w1 [ret|e]]; simpl in *.
  - destruct (StatusFromJSON ret) as [u|] eqn:E; [|done].
    destruct (bool_decide _ && bool_decide _) eqn:Hb; [|done]. exfalso. apply Hs.
    apply andb_true_iff in Hb as [?%bool_decide_eq_true ?%bool_decide_eq_true]. by exists u; split; [exists ret|].
  - destruct (errors_is e ErrTimeout) eqn:E; [|done]. by destruct (Ht e).
Qed.

(** C33: a workflow is reported running only on the word of its agent: the latest
    status, and the one shown in lists and details, is running only when the
    agent answered on its socket with that very status; the status of a request
    is running only when the agent answered with that request, or when nobody can
    tell because the answer did not come in time or cannot be read.  And on its word
    the history is left alone: a status is not written, and the history not asked to,
    when the agent says that its run is running, or does not answer in time; in
    every other case the status is written under its request. *)
Theorem running_is_agents_word (dag : DAG.t) (id requestID : string) (w : W) :
  (forall w' st err,
     GetLatestStatus md5hex request StatusFromJSON fmt_rfc3339 dag w = (w', (st, err)) ->
     MStatus.Status st = StatusRunning -> answers dag w st /\ err = None) /\
  (forall w' s err,
     GetStatus md5hex request StatusFromJSON fmt_rfc3339 order id w = (w', (s, err)) ->
     MStatus.Status (st_Status s) = StatusRunning ->
     answers (st_DAG s) (fst (ds_GetDetails id w)) (st_Status s)) /\
  (forall w' st,
     GetStatusByRequestID md5hex request StatusFromJSON fmt_rfc3339 dag requestID w = (w', Ok st) ->
     MStatus.Status st = StatusRunning -> requestID <> "" ->
     (exists c, answers dag w c /\ MStatus.RequestID c = requestID) \/ undecided dag w) /\
  (forall st, let asked := fst (status_request md5hex request dag w) in
     let update := UpdateStatus md5hex request StatusFromJSON dag st w in
     (says_running dag w st -> update = (asked, Some errDAGIsRunning)) /\
     (forall e, timed_out dag w e -> update = (asked, Some e)) /\
     (~ says_running dag w st -> (forall e, ~ timed_out dag w e) ->
      update = hs_Update (DAG.Location dag) (MStatus.RequestID st) st asked)).
Proof.
  split_and!.
  - intros w' st err. by apply latest_running.
  - intros w' s err H Hr. unfold GetStatus in H.
    assert (fst (getDAG id w) = fst (ds_GetDetails id w)) as <-
      by (unfold getDAG; by destruct (ds_GetDetails id w) as [w1 []]).
    destruct (getDAG id w) as [w1 [d e]].
    destruct (GetLatestStatus _ _ _ _ d w1) as [w2 [st e1]] eqn:E. simplify_eq. simpl in *.
    by eapply latest_running.
  - intros w' st H Hr Hid. unfold GetStatusByRequestID in H.
    destruct (hs_FindByRequestID _ _ _) as [sf|]; [|done].
    unfold GetCurrentStatus in H. unfold answers, undecided.
    destruct (status_request md5hex request dag w) as [w1 [ret|e]]; simpl.
    + destruct (StatusFromJSON ret) as [c|] eqn:E; [|right; right; eauto].
      case_bool_decide as Hc; injection H as <- <-; [by destruct (CorrectRunningStatus_not_running (sf_Status sf))|].
      left. exists c. split; [eauto|]. exact Hc.
    + destruct (errors_is e ErrTimeout) eqn:Et; [right; left; eauto|].
      simpl in H. rewrite bool_decide_true in H by done. simplify_eq.
      by destruct (CorrectRunningStatus_not_running (sf_Status sf)).
  - intros st asked update. split_and!.
    + intros (u & Ha & Hid & Hr). by eapply UpdateStatus_running.
    + intros e [He Ht]. unfold update, asked, UpdateStatus. destruct (status_request md5hex request dag w) as [w1 r].
      simpl in *. subst r. by rewrite Ht.
    + apply UpdateStatus_others.
Qed.

End client.

(** ** A running workflow *)

#[local] Instance no_flags : FlagStore hist := mkFlagStore hist (fun _ _ h => (h, None)) (fun _ _ => false).

Definition sample_requests (addr method path : string) (h : hist) : hist * result string := (h, Ok "running").
Definition sample_json (s : string) : result MStatus.t := Ok (sample_status "r1" StatusRunning).

#[local] Instance sample_store : HistoryStore hist :=
  JSONDB sample_marshal sample_unmarshal "/h" (fun _ => "m") (fun _ => "") (fun _ => Some 0%Z) (fun _ => Some 0%Z)
    false calm 0 (fun _ => 0%Z).

#[local] Instance no_dags : DAGStore hist :=
  mkDAGStore hist (fun _ _ h => (h, Err ErrNotExist)) (fun _ h => (h, None)) (fun h => (h, ([], [], None)))
    (fun _ h => (h, (mkListResult [] 0 [], None))) (fun _ h => (h, Err ErrNotExist)) (fun _ h => (h, Err ErrNotExist))
    (fun _ h => (h, ([], [], None))) (fun _ _ h => (h, None)) (fun _ _ => Err ErrNotExist)
    (fun _ _ h => (h, None)) (fun h => (h, Ok ([], []))).

Lemma running_is_agents_word_witness :
  let h := mkHist None (one_line "running") None in
  exists w' st err,
    GetLatestStatus (fun _ => "m") sample_requests sample_json (fun _ => "") DAG.empty h = (w', (st, err)) /\
    MStatus.Status st = StatusRunning /\ answers (fun _ => "m") sample_requests sample_json DAG.empty h st.
Proof.
  intros h.
  assert (GetLatestStatus (fun _ => "m") sample_requests sample_json (fun _ => "") DAG.empty h =
    (h, (sample_status "r1" StatusRunning, None))) as H by reflexivity.
  exists h, (sample_status "r1" StatusRunning), None. split; [exact H|]. split; [reflexivity|].
  destruct (running_is_agents_word (fun _ => "m") sample_requests sample_json (fun _ => "") (fun _ _ => [])
    DAG.empty "x" "r1" h) as (Hlatest & _).
  by apply (Hlatest _ _ _ H).
Defined.
