(* ===== verification/Grep.v ===== *)
(** * Search in texts: internal/persistence/grep/grep.go

    The lines of a text that match a pattern, each with the lines around it.
    [compile] is [regexp.Compile] with [MatchString]. *)

From S2P Require Import Prelude GoStrings Vars Digraph Matcher Model History Stores.
From Stdlib Require Import Ascii.

Definition ErrNoMatch : error := ENew "no matched".
Definition ErrEmptyPattern : error := ENew "empty pattern".
Definition ErrTooLong : error := ENew "bufio.Scanner: token too long".

Record Options := mkOptions {
  IsRegexp : bool;
  Before : Z;
  After : Z;
  opt_Matcher : option (string -> bool)
}.

Definition DefaultOptions : Options := mkOptions true 2 2 None.

Section grep.
Context (compile : string -> result (string -> bool)).

Definition defaultMatcher (pattern : string) (opts : Options) : result (string -> bool) :=
  if IsRegexp opts then compile pattern else Ok (fun line => contains line pattern).

Definition getMatcher (pattern : string) (opts : Options) : result (string -> bool) :=
  match opt_Matcher opts with
  | Some m => Ok m
  | None => defaultMatcher pattern opts
  end.

(** The indices of the lines that match, from [idx] on. *)
Fixpoint matching_from (idx : Z) (matcher : string -> bool) (lines : list string) : list Z :=
  match lines with
  | [] => []
  | l :: lines => (if matcher l then [idx] else []) ++ matching_from (idx + 1) matcher lines
  end.

Definition scanLines (dat : string) (matcher : string -> bool) : result (list string * list Z) :=
  let '(lines, failed) := scan_lines (N.to_nat 65536) dat in
  match matching_from 0 matcher lines with
  | [] => Err ErrNoMatch
  | matches => if failed : bool then Err ErrTooLong else Ok (lines, matches)
  end.

(** [lines[low:high]]. *)
Definition slice (lines : list string) (low high : Z) : result (list string) :=
  if ((0 <=? low) && (low <=? high) && (high <=? Z.of_nat (length lines)))%Z
  then Ok (take (Z.to_nat (high - low)) (drop (Z.to_nat low) lines))
  else Err (panic "slice bounds out of range").

Definition match_at (lines : list string) (opts : Options) (m : Z) : result Match :=
  let low := Z.max 0 (m - Before opts) in
  let high := Z.min (Z.of_nat (length lines)) (m + After opts + 1) in
  match slice lines low high with
  | Err e => Err e
  | Ok ls => Ok (mkMatch (join ls (l2s [newline])) (m + 1) (low + 1))
  end.

Definition buildMatches (lines : list string) (matches : list Z) (opts : Options) : result (list Match) :=
  mapE (match_at lines opts) matches.

Definition Grep (dat pattern : string) (opts : Options) : result (list Match) :=
  if bool_decide (pattern = "") then Err ErrEmptyPattern
  else match getMatcher pattern opts with
       | Err e => Err e
       | Ok matcher =>
           match scanLines dat matcher with
           | Err e => Err e
           | Ok (lines, matches) => buildMatches lines matches opts
           end
       end.

End grep.

(** ** Lemmas *)

Lemma matching_from_spec matcher lines : forall idx m,
  m ∈ matching_from idx matcher lines <->
  exists i line, lines !! i = Some line /\ matcher line = true /\ m = (idx + Z.of_nat i)%Z.
Proof.
  induction lines as [|l lines IH]; intros idx m; simpl.
  { split; [by intros ?%elem_of_nil|]. by intros (i & line & ? & _). }
  rewrite elem_of_app, IH. split.
  - intros [H|(i & line & Hi & Hm & ->)].
    + destruct (matcher l) eqn:E; [|by apply elem_of_nil in H]. apply list_elem_of_singleton in H as ->.
      exists 0, l. split_and!; [done|done|lia].
    + exists (S i), line. split_and!; [done|done|lia].
  - intros ([|i] & line & Hi & Hm & ->); simpl in Hi.
    + left. simplify_eq. rewrite Hm. apply list_elem_of_singleton. lia.
    + right. exists i, line. split_and!; [done|done|lia].
Qed.

(** Around a line of the text the slice is never out of range. *)
Lemma match_at_default lines m :
  (0 <= m < Z.of_nat (length lines))%Z ->
  match_at lines DefaultOptions m =
    Ok (mkMatch (join (take (Z.to_nat (Z.min (Z.of_nat (length lines)) (m + 3) - Z.max 0 (m - 2)))
                        (drop (Z.to_nat (Z.max 0 (m - 2))) lines)) (l2s [newline]))
          (m + 1) (Z.max 0 (m - 2) + 1)).
Proof.
  intros H. unfold match_at, slice. simpl.
  replace (m + 2 + 1)%Z with (m + 3)%Z by lia.
  assert (((0 <=? Z.max 0 (m - 2)) && (Z.max 0 (m - 2) <=? Z.min (Z.of_nat (length lines)) (m + 3)) &&
          (Z.min (Z.of_nat (length lines)) (m + 3) <=? Z.of_nat (length lines)))%Z = true) as -> by lia.
  done.
Qed.

(** With the default options: no match is the error, otherwise there is one match
    for each matching line, in order, with its number. *)
Lemma Grep_default compile dat pattern matcher lines :
  pattern <> "" -> compile pattern = Ok matcher -> scan_lines (N.to_nat 65536) dat = (lines, false) ->
  match Grep compile dat pattern DefaultOptions with
  | Err e => e = ErrNoMatch /\ Forall (fun l => matcher l = false) lines
  | Ok ms => m_LineNumber <$> ms = Z.succ <$> matching_from 0 matcher lines /\ ms <> []
  end.
Proof.
  intros Hp Hc Hl. unfold Grep. rewrite bool_decide_false by done.
  unfold getMatcher, defaultMatcher. simpl. rewrite Hc. unfold scanLines. rewrite Hl.
  destruct (matching_from 0 matcher lines) as [|z zs] eqn:E.
  - split; [done|]. apply Forall_forall. intros l Hin. apply list_elem_of_lookup in Hin as [i Hi].
    apply not_true_is_false. intros Hm.
    assert (Z.of_nat i ∈ matching_from 0 matcher lines) as Hin.
    { apply matching_from_spec. exists i, l. split_and!; [done|done|lia]. }
    rewrite E in Hin. by apply elem_of_nil in Hin.
  - rewrite <- E. assert (forall m, m ∈ matching_from 0 matcher lines -> (0 <= m < Z.of_nat (length lines))%Z) as Hin.
    { intros m (i & l & Hi & _ & ->)%matching_from_spec. apply lookup_lt_Some in Hi. lia. }
    unfold buildMatches. rewrite (mapE_all_ok _ _ _ (fun m Hm => match_at_default lines m (Hin m Hm))).
    rewrite <- list_fmap_compose. split; [|by rewrite E].
    apply list_fmap_ext. intros i m _. simpl. lia.
Qed.
