(* ===== verification/DagStore.v ===== *)
(** * The workflow store: internal/persistence/local/dag_store.go

    Workflow files under a directory, on the map of files of History.  The state
    is that map, the optional cache of metadata, and the environment of the
    process, which loading a workflow sets.  Loading is Builder's [loadDAG] and
    [LoadYAML] on the files, passed as arguments; so are the working directory,
    the walk of a directory, and Unicode case. *)

From S2P Require Import Prelude GoStrings Utf8 Vars Digraph NodeData Matcher Paths Node Sched Model History Params StepBuild Builder FileCache Stores Grep.

Abbreviation env := (gmap string string).

Record dags := mkDags {
  d_fs : fs;
  d_cache : option (Cache (T := DAG.t));
  d_env : env
}.

Definition set_d_fs (d : dags) (f : fs) : dags := mkDags f (d_cache d) (d_env d).
Definition set_d_env (d : dags) (e : env) : dags := mkDags (d_fs d) (d_cache d) e.
Definition invalidate_dag (p : string) (d : dags) : dags :=
  mkDags (d_fs d) ((fun c => Invalidate c p) <$> d_cache d) (d_env d).

(** The options of the store ([DAGStoreOptions], [NewDAGStore]). *)
Module DAGStoreOptions.
Record t := mk { FileCache : option (Cache (T := DAG.t)) }.
Definition DAGStoreOption : Type := t -> t.
Definition WithFileCache (cache : option (Cache (T := DAG.t))) : DAGStoreOption := fun _ => mk cache.

Record dagStoreImpl := mkImpl { baseDir : string; fileCache : option (Cache (T := DAG.t)) }.

Definition NewDAGStore (dir : string) (opts : list DAGStoreOption) : dagStoreImpl :=
  mkImpl dir (FileCache (foldl (fun o opt => opt o) (mk None) opts)).

(** The state it starts with, on the files and the environment there are. *)
Definition opened (d : dagStoreImpl) (f : fs) (e : env) : dags := mkDags f (fileCache d) e.
End DAGStoreOptions.

Definition errDAGFileAlreadyExists : error := ENew "the DAG file already exists".

Section store.
Context (baseDir cwd : string) (o : os) (jitter : Z).
(** [digraph.Load] and [digraph.LoadYAML] with their options, on the files. *)
Context (Load : list LoadOption -> fs -> string -> env -> env * result DAG.t).
Context (LoadYAML : list LoadOption -> string -> env -> env * result DAG.t).
(** [filepath.WalkDir]: names and whether they are directories, in its order, up
    to an error; [os.ReadDir]: names. *)
Context (walk : fs -> list (string * bool) * option error).
Context (read_dir : fs -> list string * option error).
Context (rune_lower : Z -> Z) (EqualFold : string -> string -> bool).
Context (compile : string -> result (string -> bool)).

(** ** Paths *)

Definition Abs (p : string) : string := if IsAbs p then Paths.Clean p else Join [cwd; p].

(** [os.Stat] finds a file or a directory. *)
Definition fileExists (f : fs) (p : string) : bool :=
  bool_decide (is_Some (f !! Abs p)) || os_exists o (Abs p).

Definition findDAGFile (f : fs) (name : string) : option string :=
  if bool_decide (Ext name ∈ ValidYAMLExtensions) then
    if fileExists f name then Some (Abs name) else None
  else
    match find (fun ext => fileExists f (name +:+ ext)) ValidYAMLExtensions with
    | Some ext => Some (Abs (name +:+ ext))
    | None => None
    end.

Definition not_found (name : string) : error := EWrap ("workflow " +:+ name +:+ " not found: ") ErrNotExist "".

(** The name itself when it has a slash, then the working directory, then the
    directory of the store. *)
Definition locateDAG (f : fs) (nameOrPath : string) : result string :=
  let candidates := (if contains nameOrPath "/" then [nameOrPath] else []) ++
                    [Join ["."; nameOrPath]; Join [baseDir; nameOrPath]] in
  match omap (findDAGFile f) candidates with
  | p :: _ => Ok p
  | [] => Err (not_found nameOrPath)
  end.

Definition generateFilePath (name : string) : string :=
  if contains name "/" then Abs name
  else Paths.Clean (EnsureYAMLExtension (Join [baseDir; name])).

Definition failed_to_locate (name : string) (e : error) : error :=
  EWrap ("failed to locate DAG " +:+ name +:+ ": ") e "".

(** ** Reading *)

Definition metadata_options : list LoadOption := [OnlyMetadata; WithoutEval].

Definition dag_info (f : fs) (path : string) : result FileInfo :=
  match f !! path with
  | None => Err ErrNotExist
  | Some fl => Ok (mkInfo (Z.of_nat (length (f_content fl))) (f_mtime fl))
  end.

Definition GetMetadata (name : string) (d : dags) : dags * result DAG.t :=
  match locateDAG (d_fs d) name with
  | Err e => (d, Err (failed_to_locate name e))
  | Ok p =>
      let '(e, loaded) := Load metadata_options (d_fs d) p (d_env d) in
      match d_cache d with
      | None => (set_d_env d e, loaded)
      | Some c =>
          let info := dag_info (d_fs d) p in
          let '(c', r) := LoadLatest DAG.empty c p info loaded (os_now o) jitter in
          (* the loader runs when the entry is stale *)
          let e := match IsStale p info (get_Entry DAG.empty c p) with
                   | Ok (true, _) => e
                   | _ => d_env d
                   end in
          (mkDags (d_fs d) (Some c') e, r)
      end
  end.

Definition GetDetails (name : string) (d : dags) : dags * result DAG.t :=
  match locateDAG (d_fs d) name with
  | Err e => (d, Err (failed_to_locate name e))
  | Ok p =>
      match Load [WithoutEval] (d_fs d) p (d_env d) with
      | (e, Ok dag) => (set_d_env d e, Ok dag)
      | (e, Err x) => (set_d_env d e, Err (EWrap ("failed to load DAG " +:+ name +:+ ": ") x ""))
      end
  end.

Definition GetSpec (name : string) (d : dags) : result string :=
  match locateDAG (d_fs d) name with
  | Err e => Err (failed_to_locate name e)
  | Ok p => match d_fs d !! p with
            | Some fl => Ok (l2s (f_content fl))
            | None => Err ErrNotExist
            end
  end.

(** ** Writing *)

(** [os.WriteFile]: the file is emptied, then written. *)
Definition write_file (f : fs) (p : string) (content : bytes) : fs * option error :=
  match os_open o p with
  | Some e => (f, Some e)
  | None =>
      match os_write o p with
      | Some (n, e) => (<[p := mkFile (take n content) (os_now o)]> f, Some e)
      | None => (<[p := mkFile content (os_now o)]> f, None)
      end
  end.

Definition UpdateSpec (name spec : string) (d : dags) : dags * option error :=
  match LoadYAML [WithoutEval] spec (d_env d) with
  | (e, Err x) => (set_d_env d e, Some x)
  | (e, Ok _) =>
      let d := set_d_env d e in
      match locateDAG (d_fs d) name with
      | Err x => (d, Some (failed_to_locate name x))
      | Ok p =>
          match write_file (d_fs d) p (s2l spec) with
          | (f, Some x) => (set_d_fs d f, Some x)
          | (f, None) => (invalidate_dag p (set_d_fs d f), None)
          end
      end
  end.

Definition ensureDirExist (f : fs) : option error :=
  if fileExists f baseDir then None else os_mkdir o baseDir.

Definition dag_Create (name spec : string) (d : dags) : dags * result string :=
  match ensureDirExist (d_fs d) with
  | Some e => (d, Err (EWrap ("failed to create DAGs directory " +:+ baseDir +:+ ": ") e ""))
  | None =>
      let p := generateFilePath name in
      if fileExists (d_fs d) p then (d, Err (EWrap "" errDAGFileAlreadyExists (": " +:+ p)))
      else match write_file (d_fs d) p (s2l spec) with
           | (f, Some e) => (set_d_fs d f, Err (EWrap ("failed to write DAG " +:+ name +:+ ": ") e ""))
           | (f, None) => (set_d_fs d f, Ok name)
           end
  end.

Definition Delete (name : string) (d : dags) : dags * option error :=
  match locateDAG (d_fs d) name with
  | Err e => (d, if errors_is e ErrNotExist then None else Some (failed_to_locate name e))
  | Ok p =>
      match remove o (d_fs d) p with
      | (f, Some e) => (set_d_fs d f, Some e)
      | (f, None) => (invalidate_dag p (set_d_fs d f), None)
      end
  end.

Definition dag_Rename (oldID newID : string) (d : dags) : dags * option error :=
  match locateDAG (d_fs d) oldID with
  | Err e => (d, Some (failed_to_locate oldID e))
  | Ok old =>
      let new := generateFilePath newID in
      if fileExists (d_fs d) new then (d, Some (EWrap "" errDAGFileAlreadyExists (": " +:+ new)))
      else let '(f, e) := rename o (d_fs d) old new in (set_d_fs d f, e)
  end.

(** ** Lists *)

Definition containsSearchText (text search : string) : bool :=
  contains (ToLower rune_lower text) (ToLower rune_lower search).

Definition containsTag (tags : list string) (searchTag : string) : bool :=
  existsb (fun t => EqualFold t searchTag) tags.

(** The base name is taken with the functions of [path]. *)
Definition dag_name (entry : string) : string := trim_suffix (Base entry) (Ext (Base entry)).

(** One entry of the walk of [ListPagination]. *)
Definition list_entry (params : DAGListPaginationArgs)
    (acc : dags * DagListPaginationResult) (entry : string * bool) : dags * DagListPaginationResult :=
  let '(d, r) := acc in
  let '(name, isDir) := entry in
  if isDir || negb (IsYAMLFile name) then acc
  else
    let dagName := dag_name name in
    let named := bool_decide (la_Name params = "") || containsSearchText dagName (la_Name params) in
    if bool_decide (la_Tag params = "") && negb named then acc
    else
      match GetMetadata dagName d with
      | (d, Err e) =>
          (d, mkListResult (lr_DagList r) (lr_Count r)
                (lr_ErrorList r ++ ["reading " +:+ dagName +:+ " failed: " +:+ error_text e]))
      | (d, Ok dag) =>
          if negb named then (d, r)
          else if bool_decide (la_Tag params <> "") && negb (containsTag (DAG.Tags dag) (la_Tag params))
          then (d, r)
          else
            let count := (lr_Count r + 1)%Z in
            if ((int64 (int64 (la_Page params - 1) * la_Limit params) <? count) &&
                (Z.of_nat (length (lr_DagList r)) <? la_Limit params))%Z
            then (d, mkListResult (lr_DagList r ++ [dag]) count (lr_ErrorList r))
            else (d, mkListResult (lr_DagList r) count (lr_ErrorList r))
      end.

Definition ListPagination (params : DAGListPaginationArgs) (d : dags)
    : dags * (DagListPaginationResult * option error) :=
  let '(es, err) := walk (d_fs d) in
  let '(d, r) := foldl (list_entry params) (d, mkListResult [] 0 []) es in
  match err with
  | Some e => (d, (mkListResult (lr_DagList r) (lr_Count r) (lr_ErrorList r ++ [error_text e]), Some e))
  | None => (d, (r, None))
  end.

Fixpoint list_all (names : list string) (d : dags) : dags * (list DAG.t * list string) :=
  match names with
  | [] => (d, ([], []))
  | n :: names =>
      if negb (IsYAMLFile n) then list_all names d
      else
        match GetMetadata n d with
        | (d, Ok dag) => let '(d, (l, errs)) := list_all names d in (d, (dag :: l, errs))
        | (d, Err e) =>
            let '(d, (l, errs)) := list_all names d in
            (d, (l, ("reading " +:+ n +:+ " failed: " +:+ error_text e) :: errs))
        end
  end.

Definition dag_List (d : dags) : dags * (list DAG.t * list string * option error) :=
  match ensureDirExist (d_fs d) with
  | Some e => (d, ([], [error_text e], Some e))
  | None =>
      match read_dir (d_fs d) with
      | (_, Some e) => (d, ([], [error_text e], Some e))
      | (names, None) => let '(d, (l, errs)) := list_all names d in (d, (l, errs, None))
      end
  end.

(** The tags of the workflows; a workflow that cannot be read is nil, and asking
    for its tags panics. *)
Fixpoint collect_tags (es : list (string * bool)) (tags : gset string) (d : dags)
    : dags * result (gset string) :=
  match es with
  | [] => (d, Ok tags)
  | (name, isDir) :: es =>
      if isDir || negb (IsYAMLFile name) then collect_tags es tags d
      else
        match GetMetadata name d with
        | (d, Err _) => (d, Err (panic "nil pointer dereference"))
        | (d, Ok dag) => collect_tags es (list_to_set (DAG.Tags dag) ∪ tags) d
        end
  end.

(** The order in which the set of tags is ranged over. *)
Context (range_tags : gset string -> list string).

Definition TagList (d : dags) : dags * result (list string * list string) :=
  let '(es, err) := walk (d_fs d) in
  match collect_tags es ∅ d with
  | (d, Err x) => (d, Err x)
  | (d, Ok tags) =>
      match err with
      | Some e => (d, Err e)
      | None => (d, Ok (range_tags tags, []))
      end
  end.

(** ** Search *)

Fixpoint grep_all (pattern : string) (names : list string) (d : dags) : dags * (list GrepResult * list string) :=
  match names with
  | [] => (d, ([], []))
  | n :: names =>
      let skip d := grep_all pattern names d in
      let note text d := let '(d, (l, errs)) := grep_all pattern names d in (d, (l, text :: errs)) in
      if negb (IsYAMLFile n) then skip d
      else
        let p := Join [baseDir; n] in
        match d_fs d !! p with
        | None => skip d
        | Some fl =>
            match Grep.Grep compile (l2s (f_content fl)) ("(?i)" +:+ pattern) DefaultOptions with
            | Err e => note ("grep " +:+ n +:+ " failed: " +:+ error_text e) d
            | Ok matches =>
                match Load metadata_options (d_fs d) p (d_env d) with
                | (e, Err x) => note ("check " +:+ n +:+ " failed: " +:+ error_text x) (set_d_env d e)
                | (e, Ok dag) =>
                    let '(d, (l, errs)) := skip (set_d_env d e) in
                    (d, (mkGrepResult (trim_suffix n (Ext n)) dag matches :: l, errs))
                end
            end
        end
  end.

Definition dag_Grep (pattern : string) (d : dags) : dags * (list GrepResult * list string * option error) :=
  match ensureDirExist (d_fs d) with
  | Some e => (d, ([], ["failed to create DAGs directory " +:+ baseDir], Some e))
  | None =>
      let '(d, (l, errs)) := grep_all pattern (fst (read_dir (d_fs d))) d in (d, (l, errs, None))
  end.

#[export] Instance dagStoreImpl : DAGStore dags := {
  ds_Create := dag_Create;
  ds_Delete := Delete;
  ds_List := dag_List;
  ds_ListPagination := ListPagination;
  ds_GetMetadata := GetMetadata;
  ds_GetDetails := GetDetails;
  ds_Grep := dag_Grep;
  ds_Rename := dag_Rename;
  ds_GetSpec := GetSpec;
  ds_UpdateSpec := UpdateSpec;
  ds_TagList := TagList
}.

End store.
