(* ===== verification/DagStoreProps.v ===== *)
(** * Properties of the workflow store

    What is created is found again; the pages of a list are the list. *)

From S2P Require Import Prelude GoStrings Utf8 Vars Digraph NodeData Matcher Paths Node Sched Model History Params StepBuild Builder FileCache Stores Client Grep DagStore.
Import PathProps.

Section files.
Context (baseDir cwd : string) (o : os).

Abbreviation exists_ := (fileExists cwd o).
Abbreviation find_dag := (findDAGFile cwd o).
Abbreviation locate := (locateDAG baseDir cwd o).
Abbreviation generate := (generateFilePath baseDir cwd).

Lemma fileExists_insert f p fl q : exists_ (<[p := fl]> f) q = bool_decide (p = Abs cwd q) || exists_ f q.
Proof.
  unfold fileExists. destruct (decide (p = Abs cwd q)) as [->|Hne].
  - rewrite lookup_insert_eq. rewrite !bool_decide_true by (done || by eexists). done.
  - by rewrite lookup_insert_ne, (bool_decide_false (p = _)).
Qed.

(** A new file is the only new answer. *)
Lemma findDAGFile_insert f p fl n q :
  find_dag f n = None -> find_dag (<[p := fl]> f) n = Some q -> q = p.
Proof.
  unfold findDAGFile. rewrite !fileExists_insert. destruct (bool_decide (Ext n ∈ _)).
  - destruct (exists_ f n); [done|]. rewrite orb_false_r. case_bool_decide; [intros; by simplify_eq|done].
  - simpl. rewrite !fileExists_insert.
    destruct (exists_ f (n +:+ ".yaml")); [done|]. destruct (exists_ f (n +:+ ".yml")); [done|].
    rewrite !orb_false_r. repeat case_bool_decide; intros; by simplify_eq.
Qed.

Lemma Abs_clean p : IsAbs p = true -> Abs cwd p = Paths.Clean p.
Proof. unfold Abs. by intros ->. Qed.

(** The name of a workflow in the directory of the store. *)
Definition plain_name (name : string) : Prop := name <> "" /\ contains name "/" = false.

(** The path of a new file is where the search in the directory of the store
    looks first. *)
Lemma findDAGFile_generated f name fl :
  IsAbs baseDir = true -> plain_name name ->
  find_dag (<[generate name := fl]> f) (Join [baseDir; name]) = Some (generate name).
Proof.
  intros Hb [Hn Hs]. pose proof (Join_abs baseDir name Hb Hn) as Hj.
  unfold generateFilePath. rewrite Hs. set (p := Join [baseDir; name]) in *.
  assert (p <> "") as Hp by (by intros ->).
  unfold findDAGFile, EnsureYAMLExtension. rewrite (bool_decide_false (p = "")) by done.
  destruct (decide (Ext p ∈ ValidYAMLExtensions)) as [He|He].
  - rewrite (bool_decide_true (Ext p ∈ _)) by done. unfold ValidYAMLExtensions in He.
    assert (bool_decide (Ext p = ".yml") || bool_decide (Ext p = ".yaml") = true) as ->.
    { apply orb_true_iff. rewrite !bool_decide_eq_true. set_solver. }
    rewrite fileExists_insert, Abs_clean by done. by rewrite bool_decide_true.
  - rewrite (bool_decide_false (Ext p ∈ _)) by done. unfold ValidYAMLExtensions in *.
    assert (bool_decide (Ext p = ".yml") || bool_decide (Ext p = ".yaml") = false) as ->.
    { apply orb_false_iff. rewrite !bool_decide_eq_false. set_solver. }
    simpl. rewrite fileExists_insert, Abs_clean by (by apply IsAbs_app).
    rewrite bool_decide_true by done. simpl. by rewrite Abs_clean by (by apply IsAbs_app).
Qed.

Lemma locate_generated f name fl :
  IsAbs baseDir = true -> plain_name name -> find_dag f (Join ["."; name]) = None ->
  locate (<[generate name := fl]> f) name = Ok (generate name).
Proof.
  intros Hb Hn Hwd. unfold locateDAG. destruct Hn as [Hn Hs]. rewrite Hs. cbn [app omap list_omap].
  rewrite (findDAGFile_generated _ _ _ Hb (conj Hn Hs)).
  destruct (find_dag (<[generate name := fl]> f) (Join ["."; name])) as [q|] eqn:E; [|done].
  by apply findDAGFile_insert in E as ->.
Qed.

Lemma generate_clean name : IsAbs baseDir = true -> plain_name name -> Abs cwd (generate name) = generate name.
Proof.
  intros Hb [Hn Hs]. pose proof (Join_abs baseDir name Hb Hn) as Hj. unfold generateFilePath. rewrite Hs.
  assert (IsAbs (EnsureYAMLExtension (Join [baseDir; name])) = true) as He.
  { unfold EnsureYAMLExtension. repeat case_match; [|done|by apply IsAbs_app].
    apply bool_decide_eq_true in H. by rewrite H in Hj. }
  rewrite Abs_clean by (by apply Clean_abs). by apply Clean_idempotent.
Qed.

Lemma write_file_ok f p c f' : write_file o f p c = (f', None) -> f' = <[p := mkFile c (os_now o)]> f.
Proof. unfold write_file. repeat case_match; intros; by simplify_eq. Qed.

End files.

(** A created workflow is there: when [Create] succeeds for a name without a
    slash and nothing of that name in the working directory hides it, its
    specification is read back by that name, every other file is as before, the
    name cannot be created again, and after a successful [UpdateSpec] the new
    specification is read, no stale metadata of it being cached. *)
Theorem created_workflow_is_read (baseDir cwd : string) (o : os)
    (LoadYAML : list LoadOption -> string -> env -> env * result DAG.t)
    (name spec spec' id : string) (d d1 d2 : dags)
    (Hbase : IsAbs baseDir = true) (Hname : plain_name name)
    (Hwd : findDAGFile cwd o (d_fs d) (Join ["."; name]) = None)
    (Hcreate : dag_Create baseDir cwd o name spec d = (d1, Ok id))
    (Hupdate : UpdateSpec baseDir cwd o LoadYAML name spec' d1 = (d2, None)) :
  id = name /\
  GetSpec baseDir cwd o name d1 = Ok spec /\
  (forall q, q <> generateFilePath baseDir cwd name -> d_fs d1 !! q = d_fs d !! q) /\
  (exists e, snd (dag_Create baseDir cwd o name spec d1) = Err e /\ errors_is e errDAGFileAlreadyExists = true) /\
  GetSpec baseDir cwd o name d2 = Ok spec' /\
  (forall c, d_cache d2 = Some c -> entries c !! generateFilePath baseDir cwd name = None).
Proof.
  unfold dag_Create in Hcreate. destruct (ensureDirExist baseDir cwd o (d_fs d)) eqn:Edir; [done|].
  set (p := generateFilePath baseDir cwd name) in *.
  destruct (fileExists cwd o (d_fs d) p) eqn:Eex; [done|].
  destruct (write_file o (d_fs d) p (s2l spec)) as [f [x|]] eqn:Ew; [done|].
  apply write_file_ok in Ew as ->. injection Hcreate as <- <-.
  set (d1 := set_d_fs d _) in *.
  assert (locateDAG baseDir cwd o (d_fs d1) name = Ok p) as Hloc by (by apply locate_generated).
  split; [done|]. split.
  { unfold GetSpec. rewrite Hloc. unfold d1. cbn [set_d_fs d_fs]. rewrite lookup_insert_eq. simpl. by rewrite l2s_s2l. }
  split; [intros q Hq; unfold d1; simpl; by rewrite lookup_insert_ne|]. split.
  { unfold dag_Create. fold p. unfold ensureDirExist in *. unfold d1. cbn [set_d_fs d_fs].
    rewrite !fileExists_insert. rewrite (bool_decide_true (p = Abs cwd p)) by (symmetry; by apply generate_clean).
    destruct (fileExists cwd o (d_fs d) baseDir) eqn:Eb; rewrite ?orb_true_r, ?orb_false_r, ?Edir; simpl;
      [|case_bool_decide; simpl]; eexists; (split; [done|]); by apply errors_is_wrap, errors_is_refl. }
  unfold UpdateSpec in Hupdate. destruct (LoadYAML _ spec' (d_env d1)) as [e [dag|x]]; [|done].
  cbn [set_d_env d_fs] in Hupdate. rewrite Hloc in Hupdate.
  destruct (write_file o _ p (s2l spec')) as [f2 [x|]] eqn:Ew2; [done|].
  apply write_file_ok in Ew2 as ->. injection Hupdate as <-. split.
  - unfold GetSpec. cbn [invalidate_dag set_d_fs set_d_env d_fs d1]. rewrite insert_insert_eq.
    pose proof (locate_generated baseDir cwd o (d_fs d) name (mkFile (s2l spec') (os_now o)) Hbase Hname Hwd) as H2.
    fold p in H2. rewrite H2. rewrite lookup_insert_eq. simpl. by rewrite l2s_s2l.
  - intros c Hc. simpl in Hc. destruct (d_cache d); [|done]. injection Hc as <-. simpl. apply lookup_delete_eq.
Qed.

(** ** Pages *)

(** What a list shows from the place [a] on, [limit] items at most. *)
Definition slice {A} (a limit : Z) (l : list A) : list A := take (Z.to_nat limit) (drop (Z.to_nat a) l).

Lemma slice_snoc {A} a limit (l : list A) x :
  slice a limit (l ++ [x]) =
  if ((a <? Z.of_nat (length l) + 1) && (Z.of_nat (length (slice a limit l)) <? limit))%Z
  then slice a limit l ++ [x] else slice a limit l.
Proof.
  unfold slice. rewrite length_take, length_drop.
  destruct (decide (Z.to_nat a <= length l)) as [Ha|Ha].
  - rewrite drop_app_le by done.
    assert ((a <? Z.of_nat (length l) + 1)%Z = true) as -> by (apply Z.ltb_lt; lia). rewrite andb_true_l.
    destruct (decide (length (drop (Z.to_nat a) l) < Z.to_nat limit)) as [Hl|Hl]; rewrite length_drop in Hl.
    + assert ((Z.of_nat (Z.to_nat limit `min` (length l - Z.to_nat a)) <? limit)%Z = true) as -> by (apply Z.ltb_lt; lia).
      rewrite !take_ge by (rewrite ?length_app, ?length_drop; simpl; lia). done.
    + assert ((Z.of_nat (Z.to_nat limit `min` (length l - Z.to_nat a)) <? limit)%Z = false) as -> by (apply Z.ltb_ge; lia).
      apply take_app_le. rewrite length_drop. lia.
  - assert ((a <? Z.of_nat (length l) + 1)%Z = false) as -> by (apply Z.ltb_ge; lia). rewrite andb_false_l.
    rewrite !drop_ge by (rewrite ?length_app; simpl; lia). done.
Qed.

(** A page of a list: where it starts is computed with machine integers. *)
Definition page_of {A} (page limit : Z) (l : list A) : list A := slice (int64 (int64 (page - 1) * limit)) limit l.

(** The pages in turn give the list, as long as the places do not overflow. *)
Lemma concat_pages {A} (limit : nat) (l : list A) n :
  (Z.of_nat (n - 1) * Z.of_nat limit < 2 ^ 63)%Z -> (Z.of_nat n < 2 ^ 63)%Z ->
  concat ((fun k => page_of (Z.of_nat k) (Z.of_nat limit) l) <$> seq 1 n) = take (n * limit) l.
Proof.
  induction n as [|n IH]; intros Hn Hn'; [done|].
  rewrite seq_S, fmap_app, concat_app, IH by nia. simpl. rewrite app_nil_r. unfold page_of, slice.
  rewrite (int64_id (Z.of_nat (S n) - 1)) by (unfold in_int64; lia).
  rewrite int64_id by (unfold in_int64; nia).
  replace (Z.to_nat (Z.of_nat limit)) with limit by lia.
  replace (Z.to_nat ((Z.of_nat (S n) - 1) * Z.of_nat limit)) with (n * limit) by lia.
  rewrite <- (take_drop (n * limit) (take (limit + n * limit) l)).
  rewrite take_take, skipn_firstn_comm. f_equal; f_equal; lia.
Qed.

Section pages.
Context (baseDir cwd : string) (o : os) (jitter : Z).
Context (Load : list LoadOption -> fs -> string -> env -> env * result DAG.t).
Context (walk : fs -> list (string * bool) * option error).
Context (rune_lower : Z -> Z) (EqualFold : string -> string -> bool).

Abbreviation metadata := (GetMetadata baseDir cwd o jitter Load).
Abbreviation entry := (list_entry baseDir cwd o jitter Load rune_lower EqualFold).
Abbreviation list_page := (ListPagination baseDir cwd o jitter Load walk rune_lower EqualFold).

(** What the caller of a list asks for: a part of the name of the workflow, in
    any case, and one of its tags; an empty text asks for nothing. *)
Definition named (name : string) (dag : string) : Prop :=
  name = "" \/ contains (ToLower rune_lower dag) (ToLower rune_lower name) = true.
Definition tagged (tag : string) (dag : DAG.t) : Prop :=
  tag = "" \/ Exists (fun t => EqualFold t tag = true) (DAG.Tags dag).

#[global] Instance named_dec name dag : Decision (named name dag).
Proof. unfold named. apply _. Defined.
#[global] Instance tagged_dec tag dag : Decision (tagged tag dag).
Proof. unfold tagged. apply _. Defined.

(** The workflows whose files are read: those of the walk, or, when only a name is
    asked for, those with the name. *)
Definition candidates (name tag : string) (es : list (string * bool)) : list string :=
  dag_name <$> (fst <$> filter (fun e => snd e = false /\ IsYAMLFile (fst e) = true /\
    (tag = "" -> named name (dag_name (fst e)))) es).

(** Their metadata, one after the other. *)
Fixpoint read_each (names : list string) (d : dags) : dags * list (string * result DAG.t) :=
  match names with
  | [] => (d, [])
  | n :: names => let '(d, r) := metadata n d in let '(d, rs) := read_each names d in (d, (n, r) :: rs)
  end.

(** The workflows that were read and are asked for, and the errors of the others. *)
Definition matching (name tag : string) (reads : list (string * result DAG.t)) : list DAG.t :=
  omap (fun r => match snd r with
                 | Ok dag => if decide (named name (fst r) /\ tagged tag dag) then Some dag else None
                 | Err _ => None
                 end) reads.
Definition read_errors (reads : list (string * result DAG.t)) : list string :=
  omap (fun r => match snd r with
                 | Err e => Some ("reading " +:+ fst r +:+ " failed: " +:+ error_text e)
                 | Ok _ => None
                 end) reads.

Definition page_result (page limit : Z) (l : list DAG.t) (errs : list string) : DagListPaginationResult :=
  mkListResult (page_of page limit l) (Z.of_nat (length l)) errs.

Lemma named_bool name dag :
  bool_decide (name = "") || containsSearchText rune_lower dag name = bool_decide (named name dag).
Proof. apply Bool.eq_iff_eq_true. rewrite orb_true_iff, !bool_decide_eq_true. done. Qed.

Lemma tagged_bool tag dag :
  bool_decide (tag <> "") && negb (containsTag EqualFold (DAG.Tags dag) tag) = negb (bool_decide (tagged tag dag)).
Proof.
  assert (bool_decide (tagged tag dag) = bool_decide (tag = "") || containsTag EqualFold (DAG.Tags dag) tag) as ->.
  { apply Bool.eq_iff_eq_true. unfold containsTag. rewrite orb_true_iff, existsb_exists, !bool_decide_eq_true.
    unfold tagged. rewrite Exists_exists. by setoid_rewrite list_elem_of_In. }
  rewrite bool_decide_not. by destruct (bool_decide _).
Qed.

(** An entry that is listed is one workflow more. *)
Lemma page_result_snoc page limit l errs dag :
  (if ((int64 (int64 (page - 1) * limit) <? Z.of_nat (length l) + 1) && (Z.of_nat (length (page_of page limit l)) <? limit))%Z
   then mkListResult (page_of page limit l ++ [dag]) (Z.of_nat (length l) + 1) errs
   else mkListResult (page_of page limit l) (Z.of_nat (length l) + 1) errs) = page_result page limit (l ++ [dag]) errs.
Proof.
  unfold page_result, page_of. rewrite slice_snoc, length_app.
  replace (Z.of_nat (length l + length [dag])) with (Z.of_nat (length l) + 1)%Z by (simpl; lia).
  by destruct (_ && _).
Qed.

Lemma entry_read page limit name tag n d l errs :
  IsYAMLFile n = true -> (tag = "" -> named name (dag_name n)) ->
  entry (mkListArgs page limit name tag) (d, page_result page limit l errs) (n, false) =
  let '(d1, r) := metadata (dag_name n) d in
  (d1, page_result page limit (l ++ matching name tag [(dag_name n, r)]) (errs ++ read_errors [(dag_name n, r)])).
Proof.
  intros Hy Hn. unfold list_entry. rewrite Hy. cbn [negb orb la_Name la_Tag la_Page la_Limit]. rewrite named_bool.
  rewrite (proj2 (andb_false_iff _ _))
    by (destruct (decide (tag = "")); [right; by rewrite bool_decide_true by auto|left; by apply bool_decide_false]).
  destruct (metadata (dag_name n) d) as [d1 [dag|x]]; [|by rewrite app_nil_r].
  rewrite tagged_bool. unfold matching. cbn [omap list_omap fst snd read_errors]. rewrite app_nil_r.
  destruct (decide (named name (dag_name n))) as [Hd|Hd];
    [rewrite (bool_decide_true (named _ _)) by done|by rewrite (bool_decide_false (named _ _)), decide_False, app_nil_r by naive_solver].
  destruct (decide (tagged tag dag)) as [Ht|Ht];
    [rewrite (bool_decide_true (tagged _ _)) by done|by rewrite (bool_decide_false (tagged _ _)), decide_False, app_nil_r by naive_solver].
  rewrite decide_True by done. rewrite <- page_result_snoc. cbn [negb lr_Count lr_DagList lr_ErrorList page_result].
  by destruct (_ && _).
Qed.

Lemma entry_passed page limit name tag e acc :
  ~ (snd e = false /\ IsYAMLFile (fst e) = true /\ (tag = "" -> named name (dag_name (fst e)))) ->
  entry (mkListArgs page limit name tag) acc e = acc.
Proof.
  destruct acc as [d r], e as [n isDir]. cbn [fst snd]. intros He. unfold list_entry.
  destruct isDir; [done|]. destruct (IsYAMLFile n); [|done]. cbn [negb orb la_Name la_Tag].
  rewrite named_bool. rewrite (proj2 (andb_true_iff _ _)); [done|].
  split; [|apply negb_true_iff, bool_decide_eq_false]; [apply bool_decide_eq_true|]; [|naive_solver].
  destruct (decide (tag = "")); [done|]. exfalso. naive_solver.
Qed.

Lemma entries_page page limit name tag es : forall d l errs,
  foldl (entry (mkListArgs page limit name tag)) (d, page_result page limit l errs) es =
  let '(d', reads) := read_each (candidates name tag es) d in
  (d', page_result page limit (l ++ matching name tag reads) (errs ++ read_errors reads)).
Proof.
  induction es as [|e es IH]; intros d l errs; [cbn; by rewrite !app_nil_r|].
  unfold candidates. rewrite filter_cons. cbn [foldl].
  destruct (decide _) as [He|He]; [|by rewrite entry_passed, IH].
  destruct e as [n isDir]. cbn [fst snd] in He. destruct He as (-> & Hy & Hn).
  rewrite entry_read by done. cbn [fmap list_fmap fst read_each].
  destruct (metadata (dag_name n) d) as [d1 r]. rewrite IH. unfold candidates.
  destruct (read_each _ d1) as [d2 rs]. unfold matching, read_errors.
  by rewrite <- !app_assoc, <- !omap_app.
Qed.


End pages.

(** ** A sample store *)

Definition empty_disk : os :=
  mkOs 7 (fun p => bool_decide (p = "/dags")) (fun _ => None) (fun _ => None) (fun _ => None) (fun _ => None)
    (fun _ => None) (fun _ => None).

Definition any_yaml (opts : list LoadOption) (text : string) (e : env) : env * result DAG.t := (e, Ok DAG.empty).

(** Three workflows, the ones with an [a] in the name tagged, one of which cannot
    be read, a text and a directory. *)
Definition tagged_load (opts : list LoadOption) (f : fs) (p : string) (e : env) : env * result DAG.t :=
  if bool_decide (p = "/dags/ca.yaml") then (e, Err (ENew "bad"))
  else (e, Ok (DAG.set_Tags (DAG.set_Location DAG.empty p) (if contains p "a.yaml" then ["Daily"] else []))).

Definition tagged_files : fs :=
  list_to_map ((fun n => ("/dags/" +:+ n, mkFile [] 1)) <$> ["a.yaml"; "b.yaml"; "ba.yaml"; "ca.yaml"; "notes.txt"]).

Definition tagged_walk (f : fs) : list (string * bool) * option error :=
  ([("dags", true); ("a.yaml", false); ("b.yaml", false); ("ba.yaml", false); ("ca.yaml", false); ("notes.txt", false)], None).

Definition tagged_store : dags := mkDags tagged_files None ∅.

Definition tagged_reads : dags * list (string * result DAG.t) :=
  read_each "/dags" "/work" empty_disk 0 tagged_load (candidates (fun c => c) "" "Daily" (fst (tagged_walk tagged_files))) tagged_store.


(** Far out, the place of a page wraps around: the page after [2^62] of size four
    is the first one again. *)
Example far_page_wraps :
  page_of (2 ^ 62 + 1) 4 [1; 2; 3] = page_of 1 4 [1; 2; 3].
Proof. vm_compute. done. Qed.

Lemma created_workflow_is_read_witness :
  let d := mkDags ∅ (Some (New 0 60)) ∅ in
  exists d1 d2,
    dag_Create "/dags" "/work" empty_disk "job" "steps: []" d = (d1, Ok "job") /\
    UpdateSpec "/dags" "/work" empty_disk any_yaml "job" "steps: [a]" d1 = (d2, None) /\
    GetSpec "/dags" "/work" empty_disk "job" d2 = Ok "steps: [a]".
Proof.
  intros d.
  pose (d1 := fst (dag_Create "/dags" "/work" empty_disk "job" "steps: []" d)).
  pose (d2 := fst (UpdateSpec "/dags" "/work" empty_disk any_yaml "job" "steps: [a]" d1)).
  assert (dag_Create "/dags" "/work" empty_disk "job" "steps: []" d = (d1, Ok "job")) as H1.
  { apply injective_projections; [reflexivity|vm_compute; reflexivity]. }
  assert (UpdateSpec "/dags" "/work" empty_disk any_yaml "job" "steps: [a]" d1 = (d2, None)) as H2.
  { apply injective_projections; [reflexivity|vm_compute; reflexivity]. }
  exists d1, d2. split; [exact H1|]. split; [exact H2|].
  assert (plain_name "job") as Hname by (split; [discriminate|vm_compute; reflexivity]).
  assert (findDAGFile "/work" empty_disk (d_fs d) (Join ["."; "job"]) = None) as Hwd by (vm_compute; reflexivity).
  destruct (created_workflow_is_read "/dags" "/work" empty_disk any_yaml "job" "steps: []" "steps: [a]" "job" d d1 d2
    eq_refl Hname Hwd H1 H2) as (_ & _ & _ & _ & H & _).
  exact H.
Defined.

(** One file that cannot be read is enough for the list of tags to panic: its
    workflow is nil. *)
Lemma TagList_panics baseDir cwd o jitter Load walk range_tags d e n :
  walk (d_fs d) = ([(n, false)], None) -> IsYAMLFile n = true ->
  snd (GetMetadata baseDir cwd o jitter Load n d) = Err e ->
  snd (TagList baseDir cwd o jitter Load walk range_tags d) = Err (panic "nil pointer dereference").
Proof.
  intros Hw Hy He. unfold TagList. rewrite Hw. simpl. rewrite Hy. simpl.
  destruct (GetMetadata _ _ _ _ _ n d) as [d1 r]. simpl in He. by rewrite He.
Qed.

(** A file of the same name in the working directory hides the workflow. *)
Lemma working_directory_hides :
  let f : fs := {[ "/work/job.yaml" := mkFile (s2l "other") 1 ]} in
  let '(d1, r) := dag_Create "/dags" "/work" empty_disk "job" "steps: []" (mkDags f None ∅) in
  r = Ok "job" /\ GetSpec "/dags" "/work" empty_disk "job" d1 = Ok "other".
Proof. vm_compute. done. Qed.

(** One item a page: an empty list has no page; no item a page is a division by
    zero. *)
Lemma page_count_edges :
  getPageCount 0 1 = Ok 0%Z /\ getPageCount 0 2 = Ok 1%Z /\ getPageCount 0 0 = Err (panic "integer divide by zero").
Proof. done. Qed.
