(* ===== verification/FlagStore.v ===== *)
(** * The flags of suspended workflows: internal/persistence/local flag_store.go, storage/storage.go

    A workflow is suspended while an empty file of its name is in the directory
    of the flags. *)

From S2P Require Import Prelude GoStrings Vars Digraph NodeData Paths Node Sched Model History Stores.
From Stdlib Require Import Ascii.

(** ** Storage *)

Section storage.
Context (dir : string) (o : os).

Definition storage_path (file : string) : string := Join [dir; file].

(** [os.WriteFile] of nothing: the file is emptied. *)
Definition storage_Create (file : string) (f : fs) : fs * option error :=
  let p := storage_path file in
  match os_open o p with
  | Some e => (f, Some e)
  | None => (<[p := mkFile [] (os_now o)]> f, None)
  end.

Definition storage_Exists (file : string) (f : fs) : bool := bool_decide (is_Some (f !! storage_path file)).

Definition storage_Delete (file : string) (f : fs) : fs * option error := remove o f (storage_path file).

(** ** Names *)

(** [filenameReservedRegex]. *)
Definition reserved_byte (c : ascii) : bool :=
  bool_decide (c ∈ s2l "<>:/\|?*") || bool_decide (c = "034"%char) || (nat_of_ascii c <=? 31).

Definition lower_byte (c : ascii) : ascii :=
  let n := nat_of_ascii c in if (65 <=? n) && (n <=? 90) then ascii_of_nat (n + 32) else c.

(** [filenameReservedWindowsNamesRegex], on the whole name in any case. *)
Definition windows_name (l : bytes) : bool :=
  let s := l2s (lower_byte <$> l) in
  bool_decide (s ∈ ["con"; "prn"; "aux"; "nul"]) ||
  match l with
  | [a; b; c; d] =>
      (let s := l2s (lower_byte <$> [a; b; c]) in bool_decide (s = "com") || bool_decide (s = "lpt")) &&
      (48 <=? nat_of_ascii d) && (nat_of_ascii d <=? 57)
  | _ => false
  end.

(** [normalizeFilename] with a dash. *)
Definition normalizeFilename (str : string) : string :=
  let s := (fun c => if reserved_byte c then "-"%char else c) <$> s2l str in
  let s := if windows_name s then ["-"%char] else s in
  replace_all (l2s s) " " "-".

Definition fileName (id : string) : string := normalizeFilename id +:+ ".suspend".

(** ** The store *)

Definition flag_IsSuspended (id : string) (f : fs) : bool := storage_Exists (fileName id) f.

Definition flag_ToggleSuspend (id : string) (suspend : bool) (f : fs) : fs * option error :=
  if suspend then storage_Create (fileName id) f
  else if flag_IsSuspended id f then storage_Delete (fileName id) f
  else (f, None).

#[export] Instance flagStoreImpl : FlagStore fs := {
  fl_ToggleSuspend := flag_ToggleSuspend;
  fl_IsSuspended := flag_IsSuspended
}.

(** A toggle that does not fail decides about the workflows that share the file,
    and about no others. *)
Lemma ToggleSuspend_IsSuspended id suspend f f' :
  flag_ToggleSuspend id suspend f = (f', None) ->
  forall id', flag_IsSuspended id' f' =
    if bool_decide (storage_path (fileName id') = storage_path (fileName id)) then suspend
    else flag_IsSuspended id' f.
Proof.
  unfold flag_ToggleSuspend, flag_IsSuspended, storage_Exists, storage_Create, storage_Delete.
  intros H id'.
  destruct (decide (storage_path (fileName id') = storage_path (fileName id))) as [E|E];
    [rewrite (bool_decide_true _ E), !E|rewrite (bool_decide_false _ E)]; destruct suspend.
  - destruct (os_open o _); [done|]. simplify_eq. rewrite lookup_insert_eq. apply bool_decide_true. by eexists.
  - destruct (bool_decide (is_Some (f !! storage_path (fileName id)))) eqn:Es; [|by simplify_eq].
    apply bool_decide_eq_true in Es as [fl Hfl]. unfold remove in H. rewrite Hfl in H.
    destruct (os_remove o _); [done|]. simplify_eq. rewrite lookup_delete_eq. apply bool_decide_false. by intros [].
  - destruct (os_open o _); [done|]. simplify_eq. by rewrite lookup_insert_ne.
  - destruct (bool_decide (is_Some (f !! storage_path (fileName id)))) eqn:Es; [|by simplify_eq].
    apply bool_decide_eq_true in Es as [fl Hfl]. unfold remove in H. rewrite Hfl in H.
    destruct (os_remove o _); [done|]. simplify_eq. by rewrite lookup_delete_ne.
Qed.

End storage.

(** Two names can share a flag: suspending one suspends the other. *)
Lemma flags_shared : fileName "a/b" = fileName "a b".
Proof. reflexivity. Qed.
