(* ===== verification/Poller.v ===== *)
(** * Watching a directory by polling: internal/scheduler/filenotify/poller.go

    A watch keeps the last recording of a file or directory and compares it with
    the next one at every tick.  What [os.Stat] and [Readdir] answer, and the
    order of range over a map, are arguments; the two recordings that the loop
    swaps and reuses are the fields of an item.  The lemmas after the definitions
    say which changes are reported. *)

From S2P Require Import Prelude GoStrings Paths History.

Definition errPollerClosed : error := ENew "poller is closed".
Definition errNoSuchWatch : error := ENew "watch does not exist".
Definition errWatchExists : error := ENew "watch exists".

(** What the poller reads of an [os.FileInfo]. *)
Record finfo := mkFinfo { f_IsDir : bool; f_Mode : Z; f_ModTime : Z; f_Size : Z }.

(** [fsnotify.Op] and [fsnotify.Event]. *)
Inductive Op := OpCreate | OpRemove | OpChmod | OpWrite.
#[export] Instance Op_eq_dec : EqDecision Op.
Proof. solve_decision. Defined.
#[export] Instance finfo_eq_dec : EqDecision finfo.
Proof. solve_decision. Defined.
Record Event := mkEvent { ev_Op : Op; ev_Name : string }.

Definition checkChange (fi1 fi2 : option finfo) : option Op :=
  match fi1, fi2 with
  | None, Some _ => Some OpCreate
  | Some _, None => Some OpRemove
  | None, None => None
  | Some a, Some b =>
      if f_IsDir a || f_IsDir b then None
      else if negb (f_Mode a =? f_Mode b)%Z then Some OpChmod
      else if negb (f_ModTime a =? f_ModTime b)%Z || negb (f_Size a =? f_Size b)%Z then Some OpWrite
      else None
  end.

(** ** Recordings *)

Record recording := mkRecording { rec_FileInfo : option finfo; rec_entries : gmap string finfo }.

(** What the system answers to one recording. *)
Record observation := mkObs {
  obs_Stat : result finfo;
  obs_Readdir : result (list (string * finfo))
}.

(** A recording is cleared before it is filled. *)
Definition record (o : observation) : recording * option error :=
  match obs_Stat o with
  | Err e => (mkRecording None ∅, if errors_is e ErrNotExist then None else Some e)
  | Ok fi =>
      if f_IsDir fi then
        match obs_Readdir o with
        | Err e => (mkRecording (Some fi) ∅, if errors_is e ErrNotExist then None else Some e)
        | Ok fis => (mkRecording (Some fi) (foldl (fun m p => <[fst p := snd p]> m) ∅ fis), None)
        end
      else (mkRecording (Some fi) ∅, None)
  end.

Record itemToWatch := mkItem { it_filename : string; it_left : recording; it_right : option recording }.

Definition newItemToWatch (filename : string) (o : observation) : result itemToWatch :=
  match record o with
  | (_, Some e) => Err e
  | (r, None) => Ok (mkItem filename r None)
  end.

Section poller.
(** The order in which a map is ranged over. *)
Context (order : gmap string finfo -> list string).

Definition entry_event (filename : string) (left right : gmap string finfo) (name : string) : option Event :=
  (fun op => mkEvent op (Join [filename; name])) <$> checkChange (left !! name) (right !! name).

(** The loop is over the larger of the two sets of entries, the left one of equals. *)
Definition larger (left right : gmap string finfo) : gmap string finfo :=
  if (size left <? size right)%nat then right else left.

Definition entry_events (filename : string) (left right : gmap string finfo) : list Event :=
  omap (entry_event filename left right) (order (larger left right)).

(** [checkForChanges]: the item with its new right recording, and the events. *)
Definition checkForChanges (item : itemToWatch) (o : observation) : itemToWatch * result (list Event) :=
  let '(r, err) := record o in
  let item := mkItem (it_filename item) (it_left item) (Some r) in
  match err with
  | Some e => (item, Err e)
  | None =>
      (item, Ok
        match checkChange (rec_FileInfo (it_left item)) (rec_FileInfo r) with
        | Some op => [mkEvent op (it_filename item)]
        | None =>
            if from_option f_IsDir false (rec_FileInfo (it_left item))
            then entry_events (it_filename item) (rec_entries (it_left item)) (rec_entries r)
            else []
        end)
  end.

(** The swap of the two recordings. *)
Definition swap (item : itemToWatch) : itemToWatch :=
  match it_right item with
  | Some r => mkItem (it_filename item) r (Some (it_left item))
  | None => item
  end.

(** One turn of the loop of [watch]: what is sent on the two channels. *)
Definition watch_tick (item : itemToWatch) (o : observation) : itemToWatch * (option error * list Event) :=
  let '(item, r) := checkForChanges item o in
  (swap item, match r with Err e => (Some e, []) | Ok evs => (None, evs) end).

Fixpoint watch (item : itemToWatch) (obs : list observation) : list (option error * list Event) :=
  match obs with
  | [] => []
  | o :: obs => let '(item, sent) := watch_tick item o in sent :: watch item obs
  end.

(** ** The poller: the names watched, and the goroutines *)

Record filePoller := mkPoller { watches : gset string; closed : bool; running : list itemToWatch }.

Definition Add (name : string) (o : observation) (w : filePoller) : filePoller * option error :=
  if closed w then (w, Some errPollerClosed)
  else
    match newItemToWatch name o with
    | Err e => (w, Some e)
    | Ok item =>
        match rec_FileInfo (it_left item) with
        | None => (w, Some ErrNotExist)
        | Some _ =>
            if bool_decide (name ∈ watches w) then (w, Some errWatchExists)
            else (mkPoller ({[name]} ∪ watches w) (closed w) (running w ++ [item]), None)
        end
    end.

Definition Remove (name : string) (w : filePoller) : filePoller * option error :=
  if closed w then (w, Some errPollerClosed)
  else if bool_decide (name ∈ watches w)
       then (mkPoller (watches w ∖ {[name]}) (closed w) (running w), None)
       else (w, Some errNoSuchWatch).

(** [Close]: the goroutines see the closed channel and end; the removals fail,
    for the poller is closed by then. *)
Definition Close (names : list string) (w : filePoller) : filePoller :=
  if closed w then w
  else foldl (fun w name => fst (Remove name w)) (mkPoller (watches w) true []) names.

(** A tick of the [i]th goroutine. *)
Definition poll (i : nat) (o : observation) (w : filePoller) : filePoller * (option error * list Event) :=
  match running w !! i with
  | None => (w, (None, []))
  | Some item =>
      let '(item, sent) := watch_tick item o in
      (mkPoller (watches w) (closed w) (<[i := item]> (running w)), sent)
  end.

(** ** The channels *)

(** What a goroutine sends on the channel of errors or of events. *)
Inductive message := SendErr (e : error) | SendEvent (ev : Event).

(** What a turn of the loop sends, in order: [sendErr], then [sendEvent] for each. *)
Definition messages (sent : option error * list Event) : list message :=
  match fst sent with Some e => [SendErr e] | None => [] end ++ (SendEvent <$> snd sent).

(** A goroutine of [watch], with what it has still to send of its turn, the channel
    [done], and what was received from it. *)
Record watching := mkWatching {
  wg_item : itemToWatch;
  wg_sending : list message;
  wg_ended : bool;
  wg_done : bool;
  wg_received : list message;
  wg_seen : list observation
}.

Definition newWatching (item : itemToWatch) : watching := mkWatching item [] false false [] [].

(** A tick; a message received; the end, in any select, once [done] is closed; [Close]. *)
Inductive watching_step : watching -> watching -> Prop :=
| ws_tick g o : wg_ended g = false -> wg_sending g = [] ->
    watching_step g (let '(item, sent) := watch_tick (wg_item g) o in
                     mkWatching item (messages sent) false (wg_done g) (wg_received g) (wg_seen g ++ [o]))
| ws_send g m rest : wg_ended g = false -> wg_sending g = m :: rest ->
    watching_step g (mkWatching (wg_item g) rest false (wg_done g) (wg_received g ++ [m]) (wg_seen g))
| ws_end g : wg_ended g = false -> wg_done g = true ->
    watching_step g (mkWatching (wg_item g) (wg_sending g) true true (wg_received g) (wg_seen g))
| ws_close g : watching_step g (mkWatching (wg_item g) (wg_sending g) (wg_ended g) true (wg_received g) (wg_seen g)).

(** The recording a goroutine compares with next. *)
Definition after (item : itemToWatch) (obs : list observation) : itemToWatch :=
  foldl (fun item o => fst (watch_tick item o)) item obs.

Lemma watch_snoc item obs o :
  watch item (obs ++ [o]) = watch item obs ++ [snd (watch_tick (after item obs) o)].
Proof.
  revert item. induction obs as [|x obs IH]; intros item; simpl; [by destruct (watch_tick item o)|].
  destruct (watch_tick item x) as [item' sent] eqn:E. simpl. by rewrite IH.
Qed.

Definition in_order (item : itemToWatch) (g : watching) : Prop :=
  wg_received g ++ wg_sending g = watch item (wg_seen g) ≫= messages /\ wg_item g = after item (wg_seen g).

Lemma step_in_order item g g' : watching_step g g' -> in_order item g -> in_order item g'.
Proof.
  intros Hs [H1 H2]. destruct Hs as [g o He Hp|g m rest He Hp|g He Hd|g]; [|split; simpl; [|done]..].
  - destruct (watch_tick (wg_item g) o) as [item' sent] eqn:E. rewrite Hp, app_nil_r in H1. split; simpl.
    + by rewrite watch_snoc, bind_app, <- H1, <- H2, E, bind_singleton.
    + unfold after. rewrite foldl_snoc. fold (after item (wg_seen g)). by rewrite <- H2, E.
  - by rewrite <- H1, Hp, <- app_assoc.
  - done.
  - done.
Qed.

(** What is received is what the loop reports, in order, the rest being still to send;
    a goroutine that is told can end, and nothing is received of one that ended. *)
Lemma watching_receives item g : rtc watching_step (newWatching item) g ->
  wg_received g ++ wg_sending g = watch item (wg_seen g) ≫= messages /\
  (wg_done g = true -> wg_ended g = false -> exists g', watching_step g g' /\ wg_ended g' = true) /\
  (wg_ended g = true -> forall g', watching_step g g' -> wg_received g' = wg_received g).
Proof.
  intros H. assert (forall g0 g, rtc watching_step g0 g -> in_order item g0 -> in_order item g) as Hi.
  { induction 1; [done|]. eauto using step_in_order. }
  split_and!.
  - by apply (Hi _ _ H).
  - intros Hd He. eexists. by split; [apply ws_end|].
  - intros He g' Hs. by destruct Hs; rewrite ?He in *.
Qed.

(** ** What is reported *)

(** A recording of a directory that is there and can be read. *)
Definition dir_obs (o : observation) (m : gmap string finfo) : Prop :=
  exists fi, f_IsDir fi = true /\ record o = (mkRecording (Some fi) m, None).

(** An item that has last recorded [m]. *)
Definition records (item : itemToWatch) (m : gmap string finfo) : Prop :=
  exists fi, f_IsDir fi = true /\ it_left item = mkRecording (Some fi) m.

(** A change is of a name that one of the two recordings has. *)
Lemma checkChange_dom (left right : gmap string finfo) name op :
  checkChange (left !! name) (right !! name) = Some op -> name ∈ (dom left ∪ dom right : gset string).
Proof.
  intros H. apply elem_of_union. rewrite !elem_of_dom.
  destruct (left !! name), (right !! name); simpl in H; (done || eauto).
Qed.

Lemma larger_all (left right : gmap string finfo) : dom left ⊆ dom right \/ dom right ⊆ dom left ->
  dom (larger left right) =@{gset string} dom left ∪ dom right.
Proof.
  intros Hsub. unfold larger. rewrite <- !size_dom. destruct (_ <? _)%nat eqn:E.
  - apply Nat.ltb_lt in E. destruct Hsub as [H|H%subseteq_size]; [set_solver|lia].
  - apply Nat.ltb_ge in E. destruct Hsub as [H|H]; [|set_solver].
    assert (dom left ≡ dom right) by (by apply set_subseteq_size_equiv). set_solver.
Qed.

Lemma watch_tick_dir item L o R : records item L -> dir_obs o R ->
  exists item', watch_tick item o = (item', (None, entry_events (it_filename item) L R)) /\
    it_filename item' = it_filename item /\ records item' R.
Proof.
  intros (fi & Hd & Hl) (fi' & Hd' & Hr). unfold watch_tick, checkForChanges. rewrite Hr. simpl.
  rewrite Hl. simpl. rewrite Hd. simpl. eexists. split_and!; [done|done|]. by exists fi'.
Qed.

Lemma watch_dirs ms : forall obs item L, records item L -> Forall2 dir_obs obs ms ->
  forall i, watch item obs !! i =
    match (L :: ms) !! i, ms !! i with
    | Some l, Some r => Some (None, entry_events (it_filename item) l r)
    | _, _ => None
    end.
Proof.
  induction ms as [|R ms IH]; intros obs item L HL Hobs i; inversion Hobs as [|o ? obs' ? Ho Hobs' E]; subst; simpl.
  { by destruct i as [|[]]. }
  destruct (watch_tick_dir item L o R HL Ho) as (item' & E & Hf & HR). rewrite E.
  destruct i as [|i]; [done|]. simpl. rewrite (IH obs' item' R HR Hobs' i), Hf. by destruct i.
Qed.

End poller.

(** ** What a polled directory reports

    The theorem about the watch loop of Poller, with a witness, and the changes
    it misses. *)

Section poller.
Context (order : gmap string finfo -> list string).
Hypothesis order_range : forall m, order m ≡ₚ elements (dom m).

Lemma entry_events_perm f L R :
  entry_events order f L R ≡ₚ omap (entry_event f L R) (elements (dom (larger L R))).
Proof. apply omap_Permutation, order_range. Qed.

Lemma entry_events_elem f L R ev :
  ev ∈ entry_events order f L R <->
  exists name op, ev = mkEvent op (Join [f; name]) /\ checkChange (L !! name) (R !! name) = Some op /\
    name ∈ dom (larger L R).
Proof.
  unfold entry_events. rewrite list_elem_of_omap. unfold entry_event. split.
  - intros (name & Hin & (op & Hop & ->)%fmap_Some). exists name, op. split_and!; [done|done|].
    apply elem_of_elements. by rewrite <- order_range.
  - intros (name & op & -> & Hop & Hin). exists name. rewrite order_range, elem_of_elements, Hop. done.
Qed.

(** C36: While the directory a watch was added for can be read, every tick
    compares the recording with the one of the tick before it: it sends, once
    each, the changes of the names of the larger of the two, nothing else and no
    error.  When one set of names contains the other, as when files are only
    added, only removed or only written between two ticks, that is every change. *)
Theorem watch_reports_changes f o0 item m0 obs ms :
  newItemToWatch f o0 = Ok item -> dir_obs o0 m0 -> Forall2 dir_obs obs ms ->
  length (watch order item obs) = length obs /\
  forall i L R, (m0 :: ms) !! i = Some L -> ms !! i = Some R ->
  exists evs, watch order item obs !! i = Some (None, evs) /\
    evs ≡ₚ omap (entry_event f L R) (elements (dom (larger L R))) /\
    (dom L ⊆ dom R \/ dom R ⊆ dom L ->
     forall ev, ev ∈ evs <->
       exists name op, ev = mkEvent op (Join [f; name]) /\ checkChange (L !! name) (R !! name) = Some op).
Proof.
  intros Hnew (fi & Hfi & H0) Hobs. unfold newItemToWatch in Hnew. rewrite H0 in Hnew.
  injection Hnew as <-. assert (records (mkItem f (mkRecording (Some fi) m0) None) m0) as Hrec by by exists fi.
  split.
  { clear -obs. set (it := mkItem _ _ _). clearbody it. revert it. induction obs as [|o obs IH]; intros it; [done|].
    simpl. destruct (watch_tick order it o). simpl. by rewrite IH. }
  intros i L R HL HR. exists (entry_events order f L R).
  rewrite (watch_dirs order ms obs _ m0 Hrec Hobs i), HL, HR. split_and!; [done|apply entry_events_perm|].
  intros Hsub ev. rewrite entry_events_elem. split.
  - intros (name & op & -> & Hop & _). eauto.
  - intros (name & op & -> & Hop). exists name, op. split_and!; [done|done|].
    rewrite larger_all by done. by apply (checkChange_dom L R name op).
Qed.

End poller.

(** ** On a directory *)

Definition a_dir (l : list (string * finfo)) : observation := mkObs (Ok (mkFinfo true 493 0 0)) (Ok l).
Definition some_order (m : gmap string finfo) : list string := elements (dom m).
Definition a_file (mtime : Z) : finfo := mkFinfo false 420 mtime 10.

Lemma a_dir_obs l : dir_obs (a_dir l) (foldl (fun m p => <[fst p := snd p]> m) ∅ l).
Proof. by exists (mkFinfo true 493 0 0). Qed.

Lemma watch_reports_changes_witness :
  let o0 := a_dir [("a.yaml", a_file 1)] in
  let obs := [a_dir [("b.yaml", a_file 2); ("a.yaml", a_file 1)]; a_dir [("b.yaml", a_file 3); ("a.yaml", a_file 1)]] in
  exists item, newItemToWatch "/dags" o0 = Ok item /\
  watch some_order item obs = [(None, [mkEvent OpCreate "/dags/b.yaml"]); (None, [mkEvent OpWrite "/dags/b.yaml"])] /\
  length (watch some_order item obs) = length obs.
Proof.
  intros o0 obs. eexists. split; [reflexivity|]. split; [vm_compute; reflexivity|].
  refine (proj1 (watch_reports_changes some_order _ "/dags" o0 _ _ obs [_; _] eq_refl (a_dir_obs _) _)).
  - done.
  - repeat constructor; apply a_dir_obs.
Defined.

(** ** What is missed *)

(** A file renamed between two ticks: its new name is not reported, now or later. *)
Lemma rename_missed :
  match newItemToWatch "/dags" (a_dir [("a.yaml", a_file 1)]) with
  | Ok item => watch some_order item [a_dir [("b.yaml", a_file 1)]; a_dir [("b.yaml", a_file 1)]]
  | Err _ => []
  end = [(None, [mkEvent OpRemove "/dags/a.yaml"]); (None, [])].
Proof. vm_compute. reflexivity. Qed.

(** A tick at which the directory cannot be examined: the recordings are swapped
    all the same, and the next tick reports the directory instead of its files. *)
Lemma failed_tick_hides_changes e :
  errors_is e ErrNotExist = false ->
  match newItemToWatch "/dags" (a_dir []) with
  | Ok item => watch some_order item [mkObs (Err e) (Ok []); a_dir [("b.yaml", a_file 1)]; a_dir [("b.yaml", a_file 1)]]
  | Err _ => []
  end = [(Some e, []); (None, [mkEvent OpCreate "/dags"]); (None, [])].
Proof. intros H. unfold newItemToWatch, watch, watch_tick, checkForChanges, record. simpl. rewrite H. vm_compute. reflexivity. Qed.

(** Removing a watch takes the name off the list and leaves its goroutine
    polling and sending. *)
Lemma Remove_keeps_polling name w : closed w = false -> name ∈ watches w ->
  exists w', Remove name w = (w', None) /\ running w' = running w /\
    forall order i o, snd (poll order i o w') = snd (poll order i o w).
Proof.
  intros Hc Hin. unfold Remove. rewrite Hc, bool_decide_true by done. eexists. split_and!; [done|done|].
  intros order i o. unfold poll. simpl. destruct (running w !! i); [|done]. by destruct (watch_tick order i0 o).
Qed.
