(* ===== verification/Reporter.v ===== *)
(** * Reports of a run: internal/agent/reporter.go

    Which mails a run sends, their texts, and the summary that is printed.  The
    table writer of the summary is an argument. *)

From stdpp Require Import pretty.
From S2P Require Import Prelude GoStrings Vars Digraph NodeData Node Sched Model.
From Stdlib Require Import Ascii.

(** A call of [Sender.Send]. *)
Record mail := mkMail {
  ml_From : string;
  ml_To : list string;
  ml_Subject : string;
  ml_Body : string;
  ml_Attachments : list string
}.

(** ** Texts *)

(** In the texts below a quotation mark is written as an apostrophe. *)
Definition quoted (s : string) : string :=
  l2s ((fun c => if bool_decide (c = "039"%char) then "034"%char else c) <$> s2l s).

Definition table_head : string := quoted "
	<table border='1' style='border-collapse: collapse;'>
		<thead>
			<tr>
				<th align='center' style='padding: 10px;'>Name</th>
				<th align='center' style='padding: 10px;'>Started At</th>
				<th align='center' style='padding: 10px;'>Finished At</th>
				<th align='center' style='padding: 10px;'>Status</th>
				<th align='center' style='padding: 10px;'>Error</th>
			</tr>
		</thead>
		<tbody>
	".

Definition html_cell (val : string) : string :=
  quoted "<td align='center' style='padding: 10px;'>" +:+ val +:+ "</td>".

Definition html_status (st : NodeStatus) : string :=
  let style := match st with NodeStatusError => "color: #D01117;font-weight:bold;" | _ => "" end in
  quoted "<td align='center' style='padding: 10px; " +:+ style +:+ quoted "'>" +:+ NodeStatus_String st +:+ "</td>".

Definition html_row (n : MNode.t) : string :=
  "<tr>" +:+ html_cell (Step.Name (MNode.Step n)) +:+ html_cell (MNode.StartedAt n) +:+
  html_cell (MNode.FinishedAt n) +:+ html_status (MNode.Status n) +:+ html_cell (MNode.Error n) +:+ "</tr>".

Definition renderHTML (ns : list MNode.t) : string :=
  table_head +:+ foldr (fun n s => html_row n +:+ s) "" ns +:+ "</table>".

Definition addAttachments (trigger : bool) (ns : list MNode.t) : list string :=
  if trigger then MNode.Log <$> ns else [].

(** ** Mails *)

(** The mail of a configuration; a nil one is dereferenced. *)
Definition mail_of (cfg : option MailConfig.t) (dag : DAG.t) (status : MStatus.t) : result mail :=
  match cfg with
  | None => Err (panic "nil pointer dereference")
  | Some m =>
      Ok (mkMail (MailConfig.From_ m) [MailConfig.To_ m]
            (MailConfig.Prefix m +:+ " " +:+ DAG.Name dag +:+ " (" +:+ Status_String (MStatus.Status status) +:+ ")")
            (renderHTML (MStatus.Nodes status))
            (addAttachments (MailConfig.AttachLogs m) (MStatus.Nodes status)))
  end.

(** [reportStep]: the mail it sends, if any. *)
Definition reportStep (dag : DAG.t) (status : MStatus.t) (n : Node) : result (option mail) :=
  if bool_decide (NodeState.Status (nd_State (n_data n)) = NodeStatusError) &&
     Step.MailOnError (nd_Step (n_data n))
  then match mail_of (DAG.ErrorMail dag) dag status with Ok m => Ok (Some m) | Err e => Err e end
  else Ok None.

Definition mail_on (f : MailOn.t -> bool) (dag : DAG.t) : bool :=
  match DAG.MailOn dag with Some m => f m | None => false end.

(** [send]: the mail it sends, if any. *)
Definition send (dag : DAG.t) (status : MStatus.t) (err : option error) : result (option mail) :=
  let one cfg := match mail_of cfg dag status with Ok m => Ok (Some m) | Err e => Err e end in
  if bool_decide (is_Some err) || bool_decide (MStatus.Status status = StatusError) then
    if mail_on MailOn.Failure dag then one (DAG.ErrorMail dag) else Ok None
  else if bool_decide (MStatus.Status status = StatusSuccess) then
    if mail_on MailOn.Success dag then one (DAG.InfoMail dag) else Ok None
  else Ok None.

(** ** Summary *)

Section summary.
(** [table.Writer]: the header and the rows. *)
Context (Render : list string -> list (list string) -> string).

Definition dagHeader : list string :=
  ["RequestID"; "Name"; "Started At"; "Finished At"; "Status"; "Params"; "Error"].

Definition renderDAGSummary (status : MStatus.t) (err : option error) : string :=
  Render dagHeader
    [[MStatus.RequestID status; MStatus.Name status; MStatus.StartedAt status; MStatus.FinishedAt status;
      Status_String (MStatus.Status status); MStatus.Params status;
      match err with Some e => error_text e | None => "" end]].

Definition stepHeader : list string :=
  ["#"; "Step"; "Started At"; "Finished At"; "Status"; "Command"; "Error"].

(** Arguments that are nil and arguments that are empty give the same cell. *)
Definition step_row (i : nat) (n : MNode.t) : list string :=
  [pretty (i + 1)%nat; Step.Name (MNode.Step n); MNode.StartedAt n; MNode.FinishedAt n;
   MNode.StatusText n; join (Step.Args (MNode.Step n)) " "; MNode.Error n].

Definition renderStepSummary (ns : list MNode.t) : string := Render stepHeader (imap step_row ns).

Definition newline_text : string := l2s ["010"%char].

Definition getSummary (status : MStatus.t) (err : option error) : string :=
  newline_text +:+ "Summary ->" +:+ newline_text +:+ renderDAGSummary status err +:+ newline_text +:+
  "Details ->" +:+ newline_text +:+ renderStepSummary (MStatus.Nodes status).

End summary.

(** ** Lemmas *)

(** A run reports at most one mail, to the address of errors exactly when it
    failed, to that of information exactly when it succeeded without an error. *)
Lemma send_spec dag status err m : send dag status err = Ok (Some m) ->
  ((is_Some err \/ MStatus.Status status = StatusError) /\ mail_on MailOn.Failure dag = true /\
     mail_of (DAG.ErrorMail dag) dag status = Ok m) \/
  (err = None /\ MStatus.Status status = StatusSuccess /\ mail_on MailOn.Success dag = true /\
     mail_of (DAG.InfoMail dag) dag status = Ok m).
Proof.
  unfold send. destruct (bool_decide (is_Some err) || _) eqn:E.
  - apply orb_true_iff in E. rewrite !bool_decide_eq_true in E.
    destruct (mail_on MailOn.Failure dag); [|done]. destruct (mail_of _ _ _) eqn:Em; [|done]. intros [= <-]. by left.
  - apply orb_false_iff in E as [E _]. apply bool_decide_eq_false, eq_None_not_Some in E as ->.
    case_bool_decide as Hs; [|done]. destruct (mail_on MailOn.Success dag); [|done].
    destruct (mail_of _ _ _) eqn:Em; [|done]. intros [= <-]. by right.
Qed.

(** A canceled run without an error sends no mail. *)
Lemma send_canceled dag status : MStatus.Status status = StatusCancel -> send dag status None = Ok None.
Proof. intros H. unfold send. by rewrite H. Qed.
