(* ===== verification/Agent.v ===== *)
(** * The agent: internal/agent/agent.go

    One run of a workflow.  [Run] first decides, alone, whether there is a run
    at all ([launch]); then its goroutines move one step at a time on one state
    ([astep]): the body of [Run], the scheduler with its own goroutines, the
    reader of node notifications, the delayed first write, and the requests that
    arrive on the socket.  The operations on the history are recorded in a trace
    next to the state of the history store. *)

From S2P Require Import Prelude GoStrings Vars Digraph NodeData Contexts Node Graph Sched Model History Stores Client Reporter.

(** ** Operations on the history *)

(** Who writes a status. *)
Inductive author := ByMain | ByReader | ByFirst.
#[export] Instance author_eq_dec : EqDecision author.
Proof. solve_decision. Defined.

Inductive hist_op :=
| ORemoveOld
| OOpen (timestamp : Z)
| OWrite (who : author) (st : MStatus.t)
| OClose.

(** ** HTTP *)

Definition MethodGet : string := "GET".
Definition MethodPost : string := "POST".

(** [httpError]. *)
Record httpError := mkHttpError { he_Code : Z; he_Message : string }.

(** What a request is answered: a status code and a body, or a panic; and whether
    the run is to be stopped. *)
Record response := mkResponse { rs_Code : Z; rs_Body : string }.

(** [encodeError]: an error that is not an [httpError] leaves a nil pointer,
    which is dereferenced. *)
Definition encodeError (e : option httpError) : result response :=
  match e with
  | Some h => Ok (mkResponse (he_Code h) (he_Message h +:+ l2s [nl]))
  | None => Err (panic "nil pointer dereference")
  end.

(** [statusRe] and [stopRe]. *)
Definition statusRe (path : string) : bool := bool_decide (path = "/status") || bool_decide (path = "/status/").
Definition stopRe (path : string) : bool := bool_decide (path = "/stop") || bool_decide (path = "/stop/").

Definition set_Status (s : MStatus.t) (st : Status) : MStatus.t :=
  MStatus.mk (MStatus.RequestID s) (MStatus.Name s) st (MStatus.StatusText s) (MStatus.PID s) (MStatus.Nodes s)
    (MStatus.OnExit s) (MStatus.OnSuccess s) (MStatus.OnFailure s) (MStatus.OnCancel s)
    (MStatus.StartedAt s) (MStatus.FinishedAt s) (MStatus.Log s) (MStatus.Params s) (MStatus.ParamsList s).

(** ** The state of a run *)

(** What the reader has received: a step or a handler. *)
Inductive nref := RefStep (id : Z) | RefHandler (h : HandlerType).

(** Where the body of [Run] is; [e] is what it will return. *)
Inductive apc :=
| PSchedule
| PScheduling
| PScheduled (e : option error)
| PFinalTake (e : option error) (finishedStatus : MStatus.t)
| PFinalWrite (e : option error) (finishedStatus st : MStatus.t)
| PSend (e : option error) (finishedStatus : MStatus.t)
| PFinished (e : option error)
| PCloseDone (e : option error)
| PShutdown (e : option error)
| PCloseHist (e : option error)
| PReturned (e : option error).

(** Where the reader of notifications is. *)
Inductive rpc :=
| RIdle
| RGot (n : nref)
| RWrite (n : nref) (st : MStatus.t)
| RReport (n : nref) (st : MStatus.t)
| REnd.

(** Where the goroutine of the first write is. *)
Inductive fpc := FSleep | FWrite (st : MStatus.t) | FEnd.

Record agent (W : Type) := mkAgent {
  a_sched : state;
  a_hist : W;
  a_trace : list hist_op;
  a_main : apc;
  a_reader : rpc;
  a_first : fpc;
  a_listening : bool;
  a_finished : bool;
  a_mails : list mail
}.
Arguments mkAgent {W}.
Arguments a_sched {W} a.
Arguments a_hist {W} a.
Arguments a_trace {W} a.
Arguments a_main {W} a.
Arguments a_reader {W} a.
Arguments a_first {W} a.
Arguments a_listening {W} a.
Arguments a_finished {W} a.
Arguments a_mails {W} a.

Section agent.
Context {W : Type} `{!HistoryStore W}.
(** [Options], and what [New] is given. *)
Context (dag : DAG.t) (dry : bool) (retryTarget : option MStatus.t) (requestID logDir logFile : string).
(** The order in which the graph is ranged over; [Time.Format] and parsing with
    the RFC 3339 layouts; the process identifier. *)
Context (order : Z -> nat -> list Z) (fmt_rfc3339 : Z -> string).
Context (parse_rfc3339 parse_legacy : string -> option Z) (pid : Z).
Context (md5hex : string -> string) (marshal : MStatus.t -> result string).

Definition set_a_sched (a : agent W) (s : state) : agent W :=
  mkAgent s (a_hist a) (a_trace a) (a_main a) (a_reader a) (a_first a) (a_listening a) (a_finished a) (a_mails a).
Definition set_a_main (a : agent W) (p : apc) : agent W :=
  mkAgent (a_sched a) (a_hist a) (a_trace a) p (a_reader a) (a_first a) (a_listening a) (a_finished a) (a_mails a).
Definition set_a_reader (a : agent W) (r : rpc) : agent W :=
  mkAgent (a_sched a) (a_hist a) (a_trace a) (a_main a) r (a_first a) (a_listening a) (a_finished a) (a_mails a).
Definition set_a_first (a : agent W) (f : fpc) : agent W :=
  mkAgent (a_sched a) (a_hist a) (a_trace a) (a_main a) (a_reader a) f (a_listening a) (a_finished a) (a_mails a).
Definition set_a_listening (a : agent W) (b : bool) : agent W :=
  mkAgent (a_sched a) (a_hist a) (a_trace a) (a_main a) (a_reader a) (a_first a) b (a_finished a) (a_mails a).
Definition set_a_finished (a : agent W) : agent W :=
  mkAgent (a_sched a) (a_hist a) (a_trace a) (a_main a) (a_reader a) (a_first a) (a_listening a) true (a_mails a).
Definition add_mail (a : agent W) (m : option mail) : agent W :=
  mkAgent (a_sched a) (a_hist a) (a_trace a) (a_main a) (a_reader a) (a_first a) (a_listening a) (a_finished a)
    (a_mails a ++ match m with Some m => [m] | None => [] end).

Definition hist_do (op : hist_op) (w : W) : W * option error :=
  match op with
  | ORemoveOld => hs_RemoveOld (DAG.Location dag) (DAG.HistRetentionDays dag) w
  | OOpen timestamp => hs_Open (DAG.Location dag) timestamp requestID w
  | OWrite _ st => hs_Write st w
  | OClose => hs_Close w
  end.

(** An operation on the history; its error is logged. *)
Definition do_op (op : hist_op) (a : agent W) : agent W :=
  mkAgent (a_sched a) (fst (hist_do op (a_hist a))) (a_trace a ++ [op]) (a_main a) (a_reader a) (a_first a)
    (a_listening a) (a_finished a) (a_mails a).

(** ** Setup *)

Definition newScheduler : Config :=
  mkConfig logDir (DAG.MaxActiveRuns dag) (DAG.Timeout dag) (DAG.Delay dag) dry
    (HandlerOn.Exit (DAG.HandlerOn dag)) (HandlerOn.Success (DAG.HandlerOn dag))
    (HandlerOn.Failure (DAG.HandlerOn dag)) (HandlerOn.Cancel (DAG.HandlerOn dag)) requestID.

Definition setupGraphForRetry (target : MStatus.t) : option (result ExecutionGraph) :=
  snd (CreateRetryExecutionGraph order 1 (ToNode parse_rfc3339 parse_legacy <$> MStatus.Nodes target)).

Definition setupGraph : option (result ExecutionGraph) :=
  match retryTarget with
  | Some target => setupGraphForRetry target
  | None => snd (NewExecutionGraph order 1 (DAG.Steps dag))
  end.

(** [setup]: the mailer is made first, from the settings the loader always gives. *)
Definition agent_setup : option (result ExecutionGraph) :=
  match DAG.SMTP dag with
  | None => Some (Err (panic "nil pointer dereference"))
  | Some _ => setupGraph
  end.

(** The scheduler before its loop. *)
Definition unstarted (g : ExecutionGraph) : state := mkState g false None [] [] (MReturn None) [] [].

(** The context of the run. *)
Definition run_context : ctx := NewContext (mkCtx None None) dag requestID logFile.

Definition checkPreconditions (w : world) : option error :=
  match DAG.Preconditions dag with
  | [] => None
  | conds => w_EvalConditions w run_context conds
  end.

(** The answer of the client to the question for the current status. *)
Definition checkIsAlreadyRunning (current : result MStatus.t) : option error :=
  match current with
  | Err e => Some e
  | Ok st =>
      if bool_decide (MStatus.Status st <> StatusNone)
      then Some (ENew ("the DAG is already running. status=" +:+ Status_String (MStatus.Status st) +:+
                       ", socket=" +:+ SockAddr md5hex dag))
      else None
  end.

(** ** Status *)

(** [Status]. *)
Definition agent_Status (s : state) : MStatus.t :=
  let st := SchedulerStatus s in
  let st := if bool_decide (st = StatusNone) && IsStarted (graph s) then StatusRunning else st in
  Create fmt_rfc3339 dag requestID st pid (StartAt (graph s))
    [WithFinishedAt fmt_rfc3339 (FinishAt (graph s)); WithNodes fmt_rfc3339 (NodeData_ (graph s)); WithLogFilePath logFile;
     WithOnExitNode fmt_rfc3339 (HandlerNode s HandlerOnExit); WithOnSuccessNode fmt_rfc3339 (HandlerNode s HandlerOnSuccess);
     WithOnFailureNode fmt_rfc3339 (HandlerNode s HandlerOnFailure); WithOnCancelNode fmt_rfc3339 (HandlerNode s HandlerOnCancel)].

(** [HandleHTTP]: the answer, and whether a goroutine is started that stops the
    run. *)
Definition HandleHTTP (method path : string) (s : state) : result response * bool :=
  if bool_decide (method = MethodGet) && statusRe path then
    match marshal (set_Status (agent_Status s) StatusRunning) with
    | Ok json => (Ok (mkResponse 200 json), false)
    | Err _ => (encodeError None, false)
    end
  else if bool_decide (method = MethodPost) && stopRe path then (Ok (mkResponse 200 "OK"), true)
  else (encodeError (Some (mkHttpError 404 "Not found")), false).

(** ** The start of a run *)

(** What becomes of a run before its goroutines start: it is refused before the
    history is opened, it is a dry run, its history cannot be opened, or it is
    alive. *)
Inductive launched :=
| Refused (e : error)
| DryRun (s : state)
| NoHistory (a : agent W) (e : error)
| Live (a : agent W).

(** What [Run] asks before it is alone no more: the outside, the current status
    the client reads, the time, and whether the socket can be listened on. *)
Record ask := mkAsk {
  ask_world : world;
  ask_current : result MStatus.t;
  ask_now : Z;
  ask_listen : option error
}.

(** [setupDatabase]: the error of the clean-up is logged. *)
Definition setupDatabase (now : Z) (a : agent W) : agent W * option error :=
  let a := do_op ORemoveOld a in
  (do_op (OOpen now) a, snd (hist_do (OOpen now) (a_hist a))).

(** The history and the first write, then the socket. *)
Definition open_history (k : ask) (g : ExecutionGraph) (h : W) : launched :=
  let s := unstarted g in
  match setupDatabase (ask_now k) (mkAgent s h [] PSchedule REnd FEnd false false []) with
  | (a, Some e) => NoHistory a e
  | (a, None) =>
      let a := do_op (OWrite ByMain (agent_Status s)) a in
      Live match ask_listen k with
           | Some e => set_a_main a (PShutdown (Some (EWrap "failed to start the unix socket server: " e "")))
           | None => mkAgent s (a_hist a) (a_trace a) PSchedule RIdle FSleep true false []
           end
  end.

(** [Run] up to there. *)
Definition launch (k : ask) (h : W) : launched :=
  match agent_setup with
  | None => Refused (ENew "out of fuel")
  | Some (Err e) => Refused e
  | Some (Ok g) =>
      match checkPreconditions (ask_world k) with
      | Some e => Refused e
      | None =>
          if dry then DryRun (unstarted g)
          else match checkIsAlreadyRunning (ask_current k) with
               | Some e => Refused e
               | None => open_history k g h
               end
      end
  end.

(** ** The run *)

Definition SIGTERM : Z := 15.
Definition SIGKILL : Z := 9.

(** A panic in a goroutine, which [execWithRecovery] recovers. *)
Definition panicked (e : option error) : bool :=
  match e with Some (ENew m) => has_prefix m "panic: " | _ => false end.

(** Who sends on the channel of notifications. *)
Definition sender (x : action) (s : state) : nref :=
  match x, main s with
  | AMain, MHandlers (h :: _) => RefHandler h
  | AThread i, _ => RefStep (from_option fst 0%Z (threads s !! i))
  | _, _ => RefStep 0
  end.

Definition node_of (n : nref) (s : state) : option Node :=
  match n with RefStep id => node (graph s) id | RefHandler h => HandlerNode s h end.

(** A step of the scheduler; the channel is not buffered, so that a node is sent
    only when the reader waits for one. *)
Definition sched_step (w : world) (x : action) (a : agent W) : option (agent W) :=
  let s := a_sched a in
  match act newScheduler true run_context w x s with
  | None => None
  | Some s' =>
      if (length (sent s') =? length (sent s))%nat then Some (set_a_sched a s')
      else match a_reader a with
           | RIdle => Some (set_a_reader (set_a_sched a s') (RGot (sender x s)))
           | _ => None
           end
  end.

Definition done_closed (p : apc) : bool :=
  match p with PShutdown _ | PCloseHist _ | PReturned _ => true | _ => false end.

(** The body of [Run], with its deferred calls last. *)
Definition main_step (w : world) (a : agent W) : option (agent W) :=
  let s := a_sched a in
  match a_main a with
  | PSchedule =>
      match Schedule newScheduler w (canceled s) (lastError s) (graph s) with
      | Err e => Some (set_a_main a (PScheduled (Some e)))
      | Ok s' => Some (set_a_main (set_a_sched a (set_sigs s' (sigs s))) PScheduling)
      end
  | PScheduling =>
      match main s with
      | MReturn e => Some (set_a_main a (PScheduled e))
      | _ => None
      end
  | PScheduled e => Some (set_a_main a (PFinalTake e (agent_Status s)))
  | PFinalTake e fs => Some (set_a_main a (PFinalWrite e fs (agent_Status s)))
  | PFinalWrite e fs st => Some (set_a_main (do_op (OWrite ByMain st) a) (PSend e fs))
  | PSend e fs =>
      match send dag fs e with
      | Ok m => Some (set_a_main (add_mail a m) (PFinished e))
      | Err p => Some (set_a_main a (PCloseDone (Some p)))
      end
  | PFinished e => Some (set_a_main (set_a_finished a) (PCloseDone e))
  | PCloseDone e => Some (set_a_main a (PShutdown e))
  | PShutdown e => Some (set_a_main (set_a_listening a false) (PCloseHist e))
  | PCloseHist e => Some (set_a_main (do_op OClose a) (PReturned e))
  | PReturned _ => None
  end.

(** The reader of notifications. *)
Definition reader_step (a : agent W) : option (agent W) :=
  match a_reader a with
  | RIdle => if done_closed (a_main a) then Some (set_a_reader a REnd) else None
  | RGot n => Some (set_a_reader a (RWrite n (agent_Status (a_sched a))))
  | RWrite n st =>
      let op := OWrite ByReader st in
      Some (set_a_reader (do_op op a)
              (if panicked (snd (hist_do op (a_hist a))) then REnd else RReport n st))
  | RReport n st =>
      match node_of n (a_sched a) with
      | None => None
      | Some nd =>
          match reportStep dag st nd with
          | Ok m => Some (set_a_reader (add_mail a m) RIdle)
          | Err _ => Some (set_a_reader a REnd)
          end
      end
  | REnd => None
  end.

(** The write 100 milliseconds after the start. *)
Definition first_step (a : agent W) : option (agent W) :=
  match a_first a with
  | FSleep => Some (set_a_first a (if a_finished a then FEnd else FWrite (agent_Status (a_sched a))))
  | FWrite st => Some (set_a_first (do_op (OWrite ByFirst st) a) FEnd)
  | FEnd => None
  end.

(** Who moves.  A signal of the operating system and a request to stop start
    goroutines that call [Scheduler.Signal], once or several times. *)
Inductive aaction :=
| BMain
| BReader
| BFirst
| BSched (x : action)
| BHTTP (method path : string)
| BSignal (sig : Z).

Definition aact (w : world) (b : aaction) (a : agent W) : option (agent W) :=
  match b with
  | BMain => main_step w a
  | BReader => reader_step a
  | BFirst => first_step a
  | BSched x => sched_step w x a
  | BHTTP method path =>
      if a_listening a then
        if snd (HandleHTTP method path (a_sched a)) then sched_step w (ACallSignal SIGTERM true) a else Some a
      else None
  | BSignal sig => sched_step w (ACallSignal sig false) a
  end.

(** The worlds of a run: the clock is not at the zero time. *)
Definition astep (a a' : agent W) : Prop :=
  exists w b, w_now w <> 0%Z /\ aact w b a = Some a'.

Definition areachable (a a' : agent W) : Prop := rtc astep a a'.

(** *** Dry runs ([dryRun]) *)

(** No history and no socket; the channel is closed on return. *)
Definition dry_start (s : state) (h : W) : agent W := mkAgent s h [] PSchedule RIdle FEnd false false [].

Definition dry_main_step (w : world) (a : agent W) : option (agent W) :=
  match a_main a with
  | PSchedule | PScheduling => main_step w a
  | PScheduled e => Some (set_a_main a (PReturned e))
  | _ => None
  end.

(** The reader only reports; a panic of its own would end the process. *)
Definition dry_reader_step (a : agent W) : option (agent W) :=
  match a_reader a with
  | RGot n => Some (set_a_reader a (RReport n (agent_Status (a_sched a))))
  | RIdle | RReport _ _ => reader_step a
  | _ => None
  end.

Definition dact (w : world) (b : aaction) (a : agent W) : option (agent W) :=
  match b with
  | BMain => dry_main_step w a
  | BReader => dry_reader_step a
  | BSched x => sched_step w x a
  | BSignal sig => sched_step w (ACallSignal sig false) a
  | BFirst | BHTTP _ _ => None
  end.

Definition dstep (a a' : agent W) : Prop := exists w b, dact w b a = Some a'.

Definition dreachable (a a' : agent W) : Prop := rtc dstep a a'.

(** Execute a list of moves; [None] when one of them is not enabled. *)
Fixpoint arun (a : agent W) (l : list (world * aaction)) : option (agent W) :=
  match l with
  | [] => Some a
  | (w, b) :: l => match aact w b a with Some a' => arun a' l | None => None end
  end.

End agent.

(** ** Stopping: [signal] and the calls of [Scheduler.Signal] it makes *)

(** Which call visits a node: the one in a goroutine, a repeated one, the last. *)
Inductive caller := CallFirst | CallAgain | CallKill.
#[export] Instance caller_eq_dec : EqDecision caller.
Proof. solve_decision. Defined.

(** What a visit does: nothing for a step that repeats or a node that is not
    running; else the signal sent to its command, if it has one, and the mark. *)
Inductive outcome := Spared | NotRunning | Signalled (sent : option Z).

Record visit := mkVisit { v_by : caller; v_sig : Z; v_node : Z; v_outcome : outcome }.

(** The goroutine of the first call: inside [Scheduler.Signal], looking for a
    running node, waiting to send on [done], gone. *)
Inductive waiter := WCall (p : sigpc) | WScan (todo : list Z) | WSend | WGone.
#[export] Instance sigpc_eq_dec : EqDecision sigpc.
Proof. solve_decision. Defined.
#[export] Instance waiter_eq_dec : EqDecision waiter.
Proof. solve_decision. Defined.

(** The scheduler, that goroutine, the visits so far, and how often others have
    moved. *)
Record stopping := mkStopping {
  st_sched : Sched.state;
  st_wait : waiter;
  st_visits : list visit;
  st_moves : nat
}.

Definition set_st_sched (x : stopping) (s : Sched.state) : stopping :=
  mkStopping s (st_wait x) (st_visits x) (st_moves x).
Definition set_st_wait (x : stopping) (v : waiter) : stopping :=
  mkStopping (st_sched x) v (st_visits x) (st_moves x).
Definition set_st_moves (x : stopping) (n : nat) : stopping :=
  mkStopping (st_sched x) (st_wait x) (st_visits x) n.

Definition second : Z := 1000000000.

Inductive signal_case := CDone | CTimeout | CTick.

Inductive signal_end := AllTerminated (at_ : Z) | Killed (at_ : Z).

Section signal.
Context (signalNum : string -> Z).

Definition visit_outcome (sig : Z) (allowOverride : bool) (id : Z) (g : ExecutionGraph) : outcome :=
  if repeating g id then Spared
  else if bool_decide (status_of g id = NodeStatusRunning) then
    Signalled (n ← node g id; fst (Node.Signal signalNum sig allowOverride n))
  else NotRunning.

(** One access of a call of [Scheduler.Signal]. *)
Definition call_step (who : caller) (p : sigpc) (x : stopping) : stopping * option sigpc :=
  let s := st_sched x in
  let '(flag, mark, next) := sigstep (graph s) p in
  let s1 := if flag : bool then setCanceled s else s in
  let s2 := match mark with
            | Some id => set_graph s1 (set_status_of id NodeStatusCancel (graph s1))
            | None => s1
            end in
  let seen := match p with
              | SNodes sig ov (id :: _) => [mkVisit who sig id (visit_outcome sig ov id (graph s))]
              | _ => []
              end in
  (mkStopping s2 (st_wait x) (st_visits x ++ seen) (st_moves x), next).

(** The goroutine of the first call; it cannot move while it sends. *)
Definition wait_step (x : stopping) : option stopping :=
  let g := graph (st_sched x) in
  match st_wait x with
  | WCall p =>
      let '(x1, next) := call_step CallFirst p x in
      Some (set_st_wait x1 (match next with Some p1 => WCall p1 | None => WScan (nodes g) end))
  | WScan [] => Some (set_st_wait x WSend)
  | WScan (id :: todo) =>
      Some (set_st_wait x
              (WScan (if bool_decide (status_of g id = NodeStatusRunning) then nodes g else todo)))
  | WSend | WGone => None
  end.

(** The longest time to clean up; what the others do between two accesses of the
    loop; how long its [k]-th turn sleeps or signals, and which of the cases
    that are ready it takes. *)
Context (MaxCleanUpTime start : Z) (others : nat -> stopping -> stopping).
Context (slept took : nat -> Z) (pick : nat -> nat).

Definition elapse (x : stopping) : stopping :=
  set_st_moves (others (st_moves x) x) (S (st_moves x)).

Fixpoint visit_nodes (who : caller) (sig : Z) (allowOverride : bool) (todo : list Z) (x : stopping) : stopping :=
  match todo with
  | [] => x
  | id :: rest =>
      let '(x1, next) := call_step who (SNodes sig allowOverride todo) (elapse x) in
      visit_nodes who sig allowOverride rest
        (match next with
         | Some (SMark _ _ _ _ as p) => fst (call_step who p (elapse x1))
         | _ => x1
         end)
  end.

(** [Scheduler.Signal] without a channel, called by the loop itself. *)
Definition Scheduler_Signal (who : caller) (sig : Z) (allowOverride : bool) (x : stopping) : stopping :=
  let x1 := fst (call_step who (SStart sig allowOverride) (elapse x)) in
  visit_nodes who sig allowOverride (nodes (graph (st_sched x1))) x1.

Definition ready_cases (now tick_at : Z) (x : stopping) : list signal_case :=
  (if bool_decide (st_wait x = WSend) then [CDone] else []) ++
  (if (start + MaxCleanUpTime <=? now)%Z then [CTimeout] else []) ++
  (if (tick_at <=? now)%Z then [CTick] else []).

(** The times at which the signal is sent again, the end, and the state then;
    [None] when the fuel is spent. *)
Fixpoint signal_loop (sig : Z) (fuel k : nat) (now tick_at : Z) (x0 : stopping)
    : option (list Z * signal_end * stopping) :=
  match fuel with
  | 0 => None
  | S fuel =>
      let x := elapse x0 in
      let cases := ready_cases now tick_at x in
      match cases !! (pick k mod length cases)%nat with
      | None => signal_loop sig fuel (S k) (now + slept k)%Z tick_at x
      | Some CDone => Some ([], AllTerminated now, set_st_wait x WGone)
      | Some CTimeout => Some ([], Killed now, Scheduler_Signal CallKill SIGKILL false x)
      | Some CTick =>
          let now' := (now + took k)%Z in
          match signal_loop sig fuel (S k) now' (now' + 5 * second)%Z
                  (Scheduler_Signal CallAgain sig false x) with
          | Some (again, e, y) => Some (now :: again, e, y)
          | None => None
          end
      end
  end.

(** The loop as [signal] enters it, its goroutine about to call. *)
Definition call_first (sig : Z) (allowOverride : bool) (s : Sched.state) : stopping :=
  mkStopping s (WCall (SStart sig allowOverride)) [] 0.

Definition signal (sig : Z) (allowOverride : bool) (fuel : nat) (s : Sched.state)
    : option (list Z * signal_end * stopping) :=
  signal_loop sig fuel 0 start (start + 5 * second)%Z (call_first sig allowOverride s).

End signal.

(** ** The client of sub-workflows ([dbClient]) *)

Section dbclient.
Context {W : Type} `{!HistoryStore W, !DAGStore W}.
(** The order in which the variables of a node are ranged over. *)
Context (order : SyncMap.t -> list (string * string)).

(** [digraph.Status]. *)
Record run_status := mkRunStatus { rn_Name : string; rn_Params : string; rn_Outputs : gmap string string }.

Definition dbClient_GetDAG (name : string) (w : W) : W * result DAG.t := ds_GetDetails name w.

(** The variables of one node; a text without an equal sign is left out. *)
Definition node_outputs (m : gmap string string) (n : MNode.t) : gmap string string :=
  match Step.OutputVariables (MNode.Step n) with
  | None => m
  | Some vars =>
      foldl (fun m kv => match split2 (snd kv) "=" with [k; v] => <[k := v]> m | _ => m end) m (order vars)
  end.

Definition dbClient_GetStatus (name requestID : string) (w : W) : result run_status :=
  match hs_FindByRequestID name requestID w with
  | Err e => Err e
  | Ok sf =>
      let st := sf_Status sf in
      Ok (mkRunStatus (MStatus.Name st) (MStatus.Params st) (foldl node_outputs ∅ (MStatus.Nodes st)))
  end.

(** [digraph.DBClient], and what a context asks of it (context.go). *)
Record DBClient := mkDBClient { GetDAG : string -> W -> W * result DAG.t; GetStatus : string -> string -> W -> result run_status }.

Definition newDBClient : DBClient := mkDBClient dbClient_GetDAG dbClient_GetStatus.

Definition GetDAGByName (client : DBClient) (name : string) : W -> W * result DAG.t := GetDAG client name.
Definition GetResult (client : DBClient) (name requestID : string) : W -> result run_status := GetStatus client name requestID.

End dbclient.
