(* ===== verification/AgentRun.v ===== *)
(** * The invariant of a run

    What holds of the agent at every moment of a run, whatever the interleaving:
    the state of the scheduler, the phase of the body of [Run], and the trace of
    operations on the history. *)

From S2P Require Import Prelude GoStrings Vars Digraph NodeData Contexts Node Graph Sched SchedInv SchedOrder SchedLimit SchedResult Model History Stores Client Reporter Agent.

(** ** The scheduler inside a run *)

Section sched.
Context (cfg : Config) (ctx0 : ctx).

(** Before the loop: nothing runs, and no call of [Signal] has got past the flag
    unless it is set. *)
Record pre (g : ExecutionGraph) (s : state) : Prop := mk_pre {
  pre_graph : same_graph g (graph s);
  pre_threads : threads s = [];
  pre_main : exists e, main s = MReturn e;
  pre_start : startedAt (graph s) = startedAt g;
  pre_sigs : canceled s = false -> Forall (fun p => starting p = true) (sigs s);
  pre_last : lastError s = None
}.

(** From the start of the loop on. *)
Record live (g : ExecutionGraph) (s : state) : Prop := mk_live {
  live_inv : inv g s;
  live_quiet : quiet s;
  live_done : loop_done s;
  live_started : IsStarted (graph s) = true;
  live_error : forall e, main s = MReturn (Some e) -> isError s = true;
  live_finish : forall e, main s = MReturn e -> FinishAt (graph s) <> 0%Z
}.

Lemma same_graph_mark id st g : same_graph g (set_status_of id st g).
Proof. apply same_graph_on_node. intros n _. by split. Qed.

Lemma sig_step_pre g i s s' : pre g s -> sig_step i s = Some s' -> pre g s'.
Proof.
  intros [Hg Ht (e & Hm) Hst Hs Hl]. unfold sig_step. destruct (sigs s !! i) as [p|] eqn:Hp; [|done].
  assert (canceled s = false -> starting p = true) as Hpc.
  { intros Hc. specialize (Hs Hc). rewrite Forall_forall in Hs. apply Hs. by eapply list_elem_of_lookup_2. }
  destruct (sigstep (graph s) p) as [[flag mark] next] eqn:E. intros [= <-].
  assert (canceled s = false -> flag = true) as Hflag.
  { intros Hc. specialize (Hpc Hc). by destruct p; simpl in *; simplify_eq. }
  split; simpl; destruct flag, mark; simpl; try done; try (by exists e);
    try (etrans; [exact Hg|apply same_graph_mark]);
    try (intros Hc; by specialize (Hflag Hc)).
Qed.

Lemma act_pre g w x s s' : pre g s -> act cfg true ctx0 w x s = Some s' -> pre g s'.
Proof.
  intros Hpre. pose proof Hpre as [Hg Ht (e & Hm) Hst Hs Hl]. destruct x; simpl.
  - unfold mstep. by rewrite Hm.
  - unfold thread_step. by rewrite Ht.
  - by apply sig_step_pre.
  - intros [= <-]. split; simpl; try done; [by exists e|]. intros Hc. apply Forall_app. split; [by apply Hs|by constructor].
  - intros [= <-]. split; simpl; try done; [by exists e|]. intros Hc. apply Forall_app. split; [by apply Hs|by constructor].
Qed.

(** [Schedule] starts the loop with the calls of [Signal] that were under way. *)
Lemma Schedule_live g w s s' :
  pre g s -> w_now w <> 0%Z -> Schedule cfg w (canceled s) (lastError s) (graph s) = Ok s' ->
  live (graph s) (set_sigs s' (sigs s)).
Proof.
  intros Hpre Hw Hs. pose proof (Schedule_inv _ _ _ _ _ _ Hs) as Hinv. pose proof (Schedule_quiet _ _ _ _ _ _ Hs) as [? _ ?].
  unfold Schedule in Hs. destruct (setup_error cfg w); [done|]. injection Hs as <-. split; try done.
  - apply (inv_sigs (graph s) _ false (sigs s)), Hinv.
  - split; [done|apply (pre_sigs _ _ Hpre)|done].
  - intros _. simpl. by exists [].
  - unfold IsStarted. simpl. by apply negb_true_iff, Z.eqb_neq.
Qed.

Lemma Schedule_setup_error g w s e :
  pre g s -> Schedule cfg w (canceled s) (lastError s) (graph s) = Err e -> setup_error cfg w = Some e.
Proof. intros _. unfold Schedule. by destruct (setup_error cfg w); intros [= ->]. Qed.

(** The error of the scheduler, once set, stays set. *)
Lemma step_isError w x s s' : act cfg true ctx0 w x s = Some s' -> isError s = true -> isError s' = true.
Proof.
  unfold isError. rewrite !bool_decide_eq_true. intros Ha He. destruct x; simpl in Ha; [..|by simplify_eq|by simplify_eq].
  - unfold mstep in Ha. destruct (main s); repeat case_match; simplify_eq; simpl; done || by eexists.
  - unfold thread_step in Ha. repeat case_match; try done. apply fmap_Some in Ha as (ef & _ & ->). simpl.
    by destruct (ef_last ef); [eexists|].
  - unfold sig_step in Ha. destruct (sigs s !! i) as [p|]; [|done].
    by destruct (sigstep (graph s) p) as [[[] []] ?]; simplify_eq.
Qed.

(** Only the last move of the main loop reaches the return, and it sets the time
    and takes the error. *)
Lemma step_return w x s s' e :
  act cfg true ctx0 w x s = Some s' -> main s' = MReturn e ->
  (main s = MReturn e /\ finishedAt (graph s') = finishedAt (graph s)) \/
  (lastError s' = e /\ finishedAt (graph s') = w_now w).
Proof.
  intros Ha Hm. destruct x; simpl in Ha; [|..|by simplify_eq; left|by simplify_eq; left].
  - unfold mstep in Ha. destruct (main s) eqn:E; repeat case_match; simplify_eq; simpl in *; simplify_eq; try done;
      right; done.
  - left. unfold thread_step in Ha. repeat case_match; try done. by apply fmap_Some in Ha as (ef & _ & ->).
  - left. unfold sig_step in Ha. destruct (sigs s !! i) as [p|]; [|done].
    by destruct (sigstep (graph s) p) as [[[] []] ?]; simplify_eq.
Qed.

Lemma act_live g w x s s' : good_graph g -> live g s -> w_now w <> 0%Z -> act cfg true ctx0 w x s = Some s' -> live g s'.
Proof.
  intros Hgood [Hi Hq Hd Hst He Hf] Hw Ha. assert (step cfg true ctx0 s s') as Hstep by (by exists w, x). split.
  - by eapply step_inv.
  - by eapply step_quiet.
  - by eapply step_loop_done.
  - unfold IsStarted. by rewrite (step_startedAt cfg ctx0 s s').
  - intros e Hm. destruct (step_return w x s s' _ Ha Hm) as [[Hm' _]|[Hl _]].
    + by eapply step_isError, He.
    + unfold isError. by rewrite Hl.
  - intros e Hm. destruct (step_return w x s s' _ Ha Hm) as [[Hm' Hfin]|[_ Hfin]]; unfold FinishAt; rewrite Hfin; [by eapply Hf|done].
Qed.

Lemma act_returned w x s s' e : act cfg true ctx0 w x s = Some s' -> main s = MReturn e -> main s' = MReturn e.
Proof.
  intros Ha Hm. destruct x; simpl in Ha; [|..|by simplify_eq|by simplify_eq].
  - unfold mstep in Ha. by rewrite Hm in Ha.
  - unfold thread_step in Ha. repeat case_match; try done. by apply fmap_Some in Ha as (ef & _ & ->).
  - unfold sig_step in Ha. destruct (sigs s !! i) as [p|]; [|done].
    by destruct (sigstep (graph s) p) as [[[] []] ?]; simplify_eq.
Qed.

End sched.

(** ** The run *)

Section run.
Context {W : Type} `{!HistoryStore W}.
Context (dag : DAG.t) (dry : bool) (requestID logDir logFile : string).
Context (fmt_rfc3339 : Z -> string) (pid : Z) (marshal : MStatus.t -> result string).

Abbreviation agent_Status := (agent_Status dag requestID logFile fmt_rfc3339 pid).
Abbreviation newScheduler := (newScheduler dag dry requestID logDir).
Abbreviation run_context := (run_context dag requestID logFile).
Abbreviation hist_do := (hist_do dag requestID).
Abbreviation do_op := (do_op dag requestID).
Abbreviation main_step := (main_step dag dry requestID logDir logFile fmt_rfc3339 pid).
Abbreviation reader_step := (reader_step dag requestID logFile fmt_rfc3339 pid).
Abbreviation first_step := (first_step dag requestID logFile fmt_rfc3339 pid).
Abbreviation sched_step := (sched_step dag dry requestID logDir logFile).
Abbreviation aact := (aact dag dry requestID logDir logFile fmt_rfc3339 pid marshal).
Abbreviation areachable := (areachable dag dry requestID logDir logFile fmt_rfc3339 pid marshal).

(** The graph of the run and the answers at its start. *)
Context (g : ExecutionGraph) (Hgood : good_graph g) (Hfresh : startedAt g = 0%Z).
Context (now : Z) (h0 : W).

(** The first operations on the history. *)
Definition opening : list hist_op := [ORemoveOld; OOpen now; OWrite ByMain (agent_Status (unstarted g))].

(** A write of another goroutine than that of [Run]. *)
Definition side_op (op : hist_op) : Prop :=
  exists who st, op = OWrite who st /\ who <> ByMain /\ MStatus.RequestID st = requestID.

(** What the body of [Run] writes last: never that the run is running; that it
    was not started only when it returns the error why; that it succeeded only
    when it returns none, unless sending the report panicked; and the time of the
    end with both outcomes of a run that was not canceled. *)
Definition final (e : option error) (st : MStatus.t) : Prop :=
  MStatus.RequestID st = requestID /\
  match MStatus.Status st with
  | StatusRunning => False
  | StatusNone => is_Some e
  | StatusCancel => True
  | StatusError => exists t, t <> 0%Z /\ MStatus.FinishedAt st = fmt_rfc3339 t
  | StatusSuccess => (exists t, t <> 0%Z /\ MStatus.FinishedAt st = fmt_rfc3339 t) /\ (e = None \/ panicked e = true)
  end.

(** The scheduler has returned [e]: its loop has, or it never started. *)
Definition ended (e : option error) (s : state) : Prop :=
  (exists g', good_graph g' /\ live g' s /\ main s = MReturn e) \/ (pre g s /\ is_Some e).

Definition sched_ok (p : apc) (s : state) : Prop :=
  match p with
  | PSchedule => pre g s
  | PScheduling => exists g', good_graph g' /\ live g' s
  | PScheduled e | PFinalTake e _ | PFinalWrite e _ _ => ended e s
  | _ => True
  end.

Definition writing (tr : list hist_op) : Prop :=
  exists side, tr = opening ++ side /\ Forall side_op side.

Definition written (e : option error) (tr : list hist_op) : Prop :=
  exists side st late, tr = opening ++ side ++ [OWrite ByMain st] ++ late /\
    Forall side_op side /\ Forall side_op late /\ final e st.

Definition ended_trace (e : option error) (tr : list hist_op) : Prop :=
  exists side st late dead, tr = opening ++ side ++ [OWrite ByMain st] ++ late ++ [OClose] ++ dead /\
    Forall side_op side /\ Forall side_op late /\ Forall side_op dead /\ final e st.

Definition trace_ok (p : apc) (tr : list hist_op) : Prop :=
  match p with
  | PSchedule | PScheduling | PScheduled _ | PFinalTake _ _ => writing tr
  | PFinalWrite e _ st => writing tr /\ final e st
  | PSend e _ | PFinished e | PCloseDone e | PShutdown e | PCloseHist e => written e tr
  | PReturned e => ended_trace e tr
  end.

Definition reader_ok (r : rpc) : Prop :=
  match r with RWrite _ st => MStatus.RequestID st = requestID | _ => True end.
Definition first_ok (f : fpc) : Prop :=
  match f with FWrite st => MStatus.RequestID st = requestID | _ => True end.

Definition hist_after (ops : list hist_op) (h : W) : W := foldl (fun h op => fst (hist_do op h)) h ops.

Definition socket_up (p : apc) : bool :=
  match p with PCloseHist _ | PReturned _ => false | _ => true end.

Record run_ok (a : agent W) : Prop := mk_run_ok {
  ro_sched : sched_ok (a_main a) (a_sched a);
  ro_trace : trace_ok (a_main a) (a_trace a);
  ro_reader : reader_ok (a_reader a);
  ro_first : first_ok (a_first a);
  ro_hist : a_hist a = hist_after (a_trace a) h0;
  ro_socket : a_listening a = socket_up (a_main a)
}.

Lemma Status_RequestID s : MStatus.RequestID (agent_Status s) = requestID.
Proof. done. Qed.

(** The status of a scheduler that has returned is a final one. *)
Lemma ended_final e s : ended e s -> final e (agent_Status s).
Proof.
  intros H. split; [done|].
  assert (MStatus.FinishedAt (agent_Status s) = MFormatTime fmt_rfc3339 (FinishAt (graph s))) as Hfin by done.
  assert (MStatus.Status (agent_Status s) =
    if bool_decide (SchedulerStatus s = StatusNone) && IsStarted (graph s) then StatusRunning else SchedulerStatus s) as Hst by done.
  rewrite Hfin, Hst. clear Hfin Hst. destruct H as [(g' & Hg' & Hl & Hm)|[Hp He]].
  - pose proof (live_finish _ _ Hl _ Hm) as Hf.
    assert (exists t, t <> 0%Z /\ MFormatTime fmt_rfc3339 (FinishAt (graph s)) = fmt_rfc3339 t) as Ht.
    { exists (FinishAt (graph s)). split; [done|]. unfold MFormatTime, FormatTime. by rewrite !bool_decide_false. }
    rewrite status_after_loop; [|apply (live_started _ _ Hl)|apply (live_done _ _ Hl)|by rewrite Hm].
    destruct (canceled s && _); [done|]. destruct (isError s) eqn:E; [done|]. split; [done|]. left.
    destruct e; [|done]. by rewrite (live_error _ _ Hl _ Hm) in E.
  - assert (IsStarted (graph s) = false) as Hs by (unfold IsStarted; by rewrite (pre_start _ _ Hp), Hfresh).
    rewrite Hs, andb_false_r. unfold SchedulerStatus. rewrite Hs. by destruct (canceled s && _).
Qed.

Lemma final_panic e st p : final e st -> panicked (Some p) = true -> final (Some p) st.
Proof. intros [Hid Hs] Hp. split; [done|]. destruct (MStatus.Status st); try done. destruct Hs as [? _]. split; [done|by right]. Qed.

Lemma written_panic e tr p : written e tr -> panicked (Some p) = true -> written (Some p) tr.
Proof. intros (side & st & late & -> & ? & ? & ?) Hp. exists side, st, late. split_and!; try done. by eapply final_panic. Qed.

Lemma send_panics st e p : send dag st e = Err p -> panicked (Some p) = true.
Proof.
  unfold send. assert (forall c, mail_of c dag st = Err p -> panicked (Some p) = true) as H.
  { intros [c|]; simpl; [done|]. by intros [= <-]. }
  repeat case_match; try done; intros [= <-]; by eapply H.
Qed.

(** A write of another goroutine keeps the shape of the trace. *)
Lemma trace_ok_side p tr op : side_op op -> trace_ok p tr -> trace_ok p (tr ++ [op]).
Proof.
  intros Hop. assert (writing tr -> writing (tr ++ [op])) as Hw.
  { intros (side & -> & Hs). exists (side ++ [op]). rewrite <- app_assoc. split; [done|]. apply Forall_app. by repeat constructor. }
  assert (forall e, written e tr -> written e (tr ++ [op])) as Hw'.
  { intros e (side & st & late & -> & Hs & Hl & Hf). exists side, st, (late ++ [op]). rewrite <- !app_assoc.
    split_and!; try done. apply Forall_app. by repeat constructor. }
  assert (forall e, ended_trace e tr -> ended_trace e (tr ++ [op])) as Hw''.
  { intros e (side & st & late & dead & -> & Hs & Hl & Hd & Hf). exists side, st, late, (dead ++ [op]). rewrite <- !app_assoc.
    split_and!; try done. apply Forall_app. by repeat constructor. }
  destruct p; simpl; try tauto; auto.
Qed.

Lemma hist_after_snoc ops op h : hist_after (ops ++ [op]) h = fst (hist_do op (hist_after ops h)).
Proof. unfold hist_after. by rewrite foldl_app. Qed.

(** Writing a status of the run from another goroutine keeps the invariant. *)
Lemma side_write_ok a who st (a' : agent W) :
  run_ok a -> who <> ByMain -> MStatus.RequestID st = requestID ->
  a_sched a' = a_sched a -> a_main a' = a_main a -> a_trace a' = a_trace a ++ [OWrite who st] ->
  a_hist a' = fst (hist_do (OWrite who st) (a_hist a)) -> a_listening a' = a_listening a ->
  reader_ok (a_reader a') -> first_ok (a_first a') -> run_ok a'.
Proof.
  intros [Hs Ht Hr Hf Hh Hl] Hw Hid Es Em Etr Eh El Hr' Hf'. split; rewrite ?Es, ?Em, ?Etr, ?El; try done.
  - apply trace_ok_side; [by exists who, st|done].
  - by rewrite hist_after_snoc, <- Hh, Eh.
Qed.

Lemma reader_step_ok a a' : run_ok a -> reader_step a = Some a' -> run_ok a'.
Proof.
  intros Hok. pose proof Hok as [Hs Ht Hr Hf Hh Hl]. unfold Agent.reader_step.
  destruct (a_reader a) as [|n|n st|n st|] eqn:E; [| | | |done].
  - destruct (done_closed (a_main a)); [|done]. intros [= <-]. by split.
  - intros [= <-]. by split.
  - simpl in Hr. intros [= <-]. eapply (side_write_ok a ByReader st); try done. simpl. by destruct (panicked _).
  - destruct (node_of n (a_sched a)) as [nd|]; [|done]. destruct (reportStep dag st nd); intros [= <-]; by split.
Qed.

Lemma first_step_ok a a' : run_ok a -> first_step a = Some a' -> run_ok a'.
Proof.
  intros Hok. pose proof Hok as [Hs Ht Hr Hf Hh Hl]. unfold Agent.first_step.
  destruct (a_first a) as [|st|] eqn:E; [| |done].
  - intros [= <-]. split; try done. simpl. by destruct (a_finished a).
  - simpl in Hf. intros [= <-]. by eapply (side_write_ok a ByFirst st).
Qed.

Lemma sched_ok_act p w x s s' :
  sched_ok p s -> w_now w <> 0%Z -> act newScheduler true run_context w x s = Some s' -> sched_ok p s'.
Proof.
  intros Hs Hw Ha. assert (forall g', good_graph g' -> live g' s -> live g' s') as Hlive by (intros; by eapply act_live).
  assert (pre g s -> pre g s') as Hpre by (intros; by eapply act_pre).
  assert (forall e, ended e s -> ended e s') as Hend.
  { intros e [(g' & ? & ? & Hm)|[? ?]]; [left|right; auto]. exists g'. split_and!; [done|auto|by eapply act_returned]. }
  destruct p; simpl in *; auto. destruct Hs as (g' & ? & ?). exists g'. auto.
Qed.

Lemma sched_step_ok w x a a' : run_ok a -> w_now w <> 0%Z -> sched_step w x a = Some a' -> run_ok a'.
Proof.
  intros [Hs Ht Hr Hf Hh Hl] Hw. unfold Agent.sched_step.
  destruct (act newScheduler true run_context w x (a_sched a)) as [s'|] eqn:Ha; [|done].
  pose proof (sched_ok_act _ _ _ _ _ Hs Hw Ha) as Hs'.
  destruct (_ =? _)%nat; [intros [= <-]; by split|].
  destruct (a_reader a); [|done..]. intros [= <-]. by split.
Qed.

Lemma main_step_ok w a a' : run_ok a -> w_now w <> 0%Z -> main_step w a = Some a' -> run_ok a'.
Proof.
  intros [Hs Ht Hr Hf Hh Hl] Hw. unfold Agent.main_step.
  destruct (a_main a) as [| |e|e fs|e fs st|e fs|e|e|e|e|e] eqn:E; simpl in Hs, Ht, Hl; [..|done].
  - destruct (Schedule _ w _ _ _) as [s'|e] eqn:Hsch; intros [= <-]; split; try done; simpl.
    + exists (graph (a_sched a)). split; [eapply good_same_graph; [apply (pre_graph _ _ Hs)|done]|].
      by eapply Schedule_live.
    + right. by split.
  - destruct (main (a_sched a)) eqn:Em; try done. intros [= <-]. split; try done.
    destruct Hs as (g' & ? & ?). left. by exists g'.
  - intros [= <-]. by split.
  - intros [= <-]. split; try done. split; [done|by apply ended_final].
  - destruct Ht as [(side & Htr & Hside) Hfin]. intros [= <-]. split; try done; simpl.
    + exists side, st, []. rewrite Htr, <- app_assoc. by split_and!.
    + by rewrite hist_after_snoc, <- Hh.
  - destruct (send dag fs e) as [m|p] eqn:Hsend; intros [= <-]; split; try done.
    simpl. eapply written_panic; [done|]. by eapply send_panics.
  - intros [= <-]. by split.
  - intros [= <-]. by split.
  - intros [= <-]. by split.
  - intros [= <-]. destruct Ht as (side & st & late & Htr & ? & ? & ?). split; try done; simpl.
    + exists side, st, late, []. rewrite Htr, <- !app_assoc. by split_and!.
    + by rewrite hist_after_snoc, <- Hh.
Qed.

Lemma aact_ok w b a a' : run_ok a -> w_now w <> 0%Z -> aact w b a = Some a' -> run_ok a'.
Proof.
  intros Hok Hw. destruct b; simpl.
  - by apply main_step_ok.
  - by apply reader_step_ok.
  - by apply first_step_ok.
  - by apply sched_step_ok.
  - destruct (a_listening a); [|done]. destruct (snd _); [by apply sched_step_ok|]. by intros [= <-].
  - by apply sched_step_ok.
Qed.

Lemma areachable_ok a a' : run_ok a -> areachable a a' -> run_ok a'.
Proof. intros Hok Hr. induction Hr as [|a1 a2 a3 (w & b & Hw & Hb) _ IH]; [done|]. apply IH. by eapply aact_ok. Qed.

End run.
