(* ===== verification/AgentProps.v ===== *)
(** * Properties of the agent

    What a run leaves in the history, with runs that show the hypotheses hold. *)

From stdpp Require Import pretty.
From S2P Require Import Prelude GoStrings Vars Digraph NodeData Paths Contexts Node Graph GraphProps Sched SchedInv SchedOrder SchedLimit SchedResult SchedProps Model History HistoryProps HistoryLife FileCache Stores Client JsonStore Reporter Agent AgentRun.

(** ** The graph of a run has not started *)

Section fresh.
Context (order : Z -> nat -> list Z).

Lemma foldE_inv {A S} (P : S -> Prop) (f : S -> A -> result S) l :
  (forall s x s', P s -> f s x = Ok s' -> P s') -> forall s s', P s -> foldE f s l = Ok s' -> P s'.
Proof.
  intros Hf. induction l as [|x l IH]; intros s s' Hs; simpl; [by intros [= <-]|].
  destruct (f s x) as [s1|] eqn:E; [|done]. apply IH. by eapply Hf.
Qed.

Lemma add_nodes_startedAt ns : forall next g, startedAt (snd (add_nodes next ns g)) = startedAt g.
Proof.
  induction ns as [|n ns IH]; intros next g; [done|]. simpl. destruct (Init next n) as [next' n'].
  by rewrite IH.
Qed.

Lemma setup_startedAt g g' : setup order g = Some (Ok g') -> startedAt g' = startedAt g.
Proof.
  unfold setup. destruct (link order g) as [g1|] eqn:E; [|done]. destruct (hasCycle g1) as [[]|]; [done| |done].
  intros [= <-]. unfold link in E. revert E.
  apply (foldE_inv (fun x => startedAt x = startedAt g)); [|done].
  intros s id s' Hs. unfold link_node. apply (foldE_inv (fun x => startedAt x = startedAt g)); [|done].
  intros s1 dep s1' Hs1. unfold link_dep. destruct (findStep _ _ _); [|done]. by intros [= <-].
Qed.

Lemma setupGraph_startedAt dag retryTarget p1 p2 g :
  setupGraph dag retryTarget order p1 p2 = Some (Ok g) -> startedAt g = 0%Z.
Proof.
  unfold setupGraph, setupGraphForRetry, CreateRetryExecutionGraph, NewExecutionGraph. destruct retryTarget as [t|].
  - pose proof (add_nodes_startedAt (ToNode p1 p2 <$> MStatus.Nodes t) 1 empty_graph) as H.
    destruct (add_nodes 1 _ empty_graph) as [n g0]. simpl in *.
    destruct (setup order g0) as [[g1|]|] eqn:E; try done. unfold setupRetry.
    destruct (retry_levels _ _ _ _ _) as [[r d]|]; [|done]. intros [= <-]. simpl.
    by rewrite (setup_startedAt _ _ E).
  - pose proof (add_nodes_startedAt ((fun step => NewNode step NodeState.zero) <$> DAG.Steps dag) 1 empty_graph) as H.
    destruct (add_nodes 1 _ empty_graph) as [n g0]. simpl in *. intros E. by rewrite (setup_startedAt _ _ E).
Qed.

End fresh.

Lemma agent_setup_graph order dag retryTarget p1 p2 g :
  agent_setup dag retryTarget order p1 p2 = Some (Ok g) -> setupGraph dag retryTarget order p1 p2 = Some (Ok g).
Proof. unfold agent_setup. by destruct (DAG.SMTP dag). Qed.

(** ** The history of a run *)

Section recorded.
Context (marshal : MStatus.t -> result string) (unmarshal : string -> option MStatus.t).
Context (baseDir : string) (md5hex : string -> string) (fmt_utc : Z -> string).
Context (parse_plain parse_utc : string -> option Z) (latestStatusToday : bool) (o : os).
Context (jitter : Z) (days_ago : Z -> Z).
Context (dag : DAG.t) (requestID : string).

#[local] Instance store : HistoryStore hist :=
  JSONDB marshal unmarshal baseDir md5hex fmt_utc parse_plain parse_utc latestStatusToday o jitter days_ago.

Abbreviation hist_after := (hist_after (W := hist) dag requestID).

Definition status_of_op (op : hist_op) : option MStatus.t :=
  match op with OWrite _ st => Some st | _ => None end.

Definition is_write (op : hist_op) : Prop := is_Some (status_of_op op).

Lemma hist_after_app ops1 ops2 h : hist_after (ops1 ++ ops2) h = hist_after ops2 (hist_after ops1 h).
Proof. apply foldl_app. Qed.

(** Writes go through to the files. *)
Lemma hist_after_writes ops : forall h s', Forall is_write ops ->
  db_Writes marshal o (omap status_of_op ops) (h_writer h, h_fs h) = (s', None) ->
  hist_after ops h = set_db h s'.
Proof.
  induction ops as [|op ops IH]; intros h s' Hops Hw; simpl in Hw; [destruct h; by simplify_eq|].
  apply Forall_cons in Hops as [[st Hst] Hops]. rewrite Hst in Hw. destruct op; [done|done| |done].
  simpl in Hst. injection Hst as ->. cbn [db_Writes] in Hw.
  destruct (db_Write marshal o st (h_writer h, h_fs h)) as [s1 [e|]] eqn:E; [done|].
  unfold AgentRun.hist_after. cbn [foldl]. simpl hist_do. rewrite E. simpl.
  change (hist_after ops (set_db h s1) = set_db h s'). rewrite (IH (set_db h s1) s'); [by destruct s'|done|].
  by destruct s1.
Qed.

(** After the end, with the writer gone, writes change nothing. *)
Lemma hist_after_dead ops h : Forall is_write ops -> h_writer h = None -> hist_after ops h = h.
Proof.
  intros Hops Hw. unfold AgentRun.hist_after. induction ops as [|op ops IH]; [done|].
  apply Forall_cons in Hops as [[st Hst] Hops]. destruct op; [done|done| |done]. cbn [foldl]. simpl hist_do.
  rewrite Hw. simpl. replace (set_db h (None, h_fs h)) with h; [by apply IH|].
  destruct h; simpl in *. by subst.
Qed.

Lemma cached_Close_db h : 
  let '(h', e) := cached_Close marshal unmarshal o h in
  let '(s, e') := db_Close marshal unmarshal o (h_writer h, h_fs h) in
  e = e' /\ h_writer h' = fst s /\ h_fs h' = snd s.
Proof.
  unfold cached_Close, db_Close. simpl. destruct (h_writer h) eqn:E; [|done].
  destruct (Compact _ _ _ _ _) as [f [e|]]; by split_and!.
Qed.

(** Opening, writing and closing: the last status is found. *)
Lemma recorded_trace h path now sts st ops dead :
  let key := DAG.Location dag in
  let f1 := fst (RemoveOld baseDir md5hex o (h_fs h) key (DAG.HistRetentionDays dag) (days_ago (DAG.HistRetentionDays dag))) in
  h_writer h = None ->
  generateFilePath baseDir md5hex fmt_utc key now requestID = Ok path ->
  contains (fmt_utc now) "/" = false -> contains (TruncString requestID requestIDLenSafe) "/" = false ->
  h_fs h !! path = None /\ h_fs h !! temp_path path = None /\ temp_path path <> path ->
  calm_at o path /\ calm_at o (temp_path path) ->
  (forall sf, FindByRequestID unmarshal baseDir md5hex (h_fs h) key requestID <> Ok sf) -> requestID <> "" ->
  Forall is_write ops -> Forall is_write dead -> omap status_of_op ops = sts -> last sts = Some st ->
  Forall (fun st => exists j, encodable marshal unmarshal st j) sts -> MStatus.RequestID st = requestID ->
  let h' := hist_after ([ORemoveOld; OOpen now] ++ ops ++ [OClose] ++ dead) h in
  FindByRequestID unmarshal baseDir md5hex (h_fs h') key requestID = Ok (mkStatusFile path st) /\
  (forall other, other <> requestID ->
    FindByRequestID unmarshal baseDir md5hex (h_fs h') key other = FindByRequestID unmarshal baseDir md5hex f1 key other).
Proof.
  intros key f1 Hw Hpath Htime Hid Hfree Hcalm Hnew Hne Hops Hdead Hsts Hlast Hcodec Hst h'.
  set (h1 := set_fs h f1).
  assert (hist_after [ORemoveOld] h = h1) as H1.
  { unfold h1, f1, AgentRun.hist_after. simpl. unfold lift. fold key. by destruct (RemoveOld _ _ _ _ _ _ _). }
  assert (forall p, f1 !! p = h_fs h !! p \/ f1 !! p = None) as Hsub by apply RemoveOld_sub.
  assert (forall p, h_fs h !! p = None -> f1 !! p = None) as Hgone by (intros p Hp; destruct (Hsub p) as [E|E]; by rewrite E).
  destruct Hfree as (Hp & Ht & Htp).
  destruct (recorded_run marshal unmarshal baseDir md5hex fmt_utc o f1 key requestID path now sts st)
    as (s1 & s2 & f3 & Hopen & Hwrites & Hclose & Hfind & Hother & _); try done; [by auto| |].
  { by eapply FindByRequestID_sub. }
  assert (h' = hist_after dead (hist_after [OClose] (hist_after ops (hist_after [OOpen now] h1)))) as ->.
  { unfold h'. change [ORemoveOld; OOpen now] with ([ORemoveOld] ++ [OOpen now]).
    by rewrite !hist_after_app, H1. }
  assert (hist_after [OOpen now] h1 = set_db h1 s1) as ->.
  { unfold AgentRun.hist_after. simpl. rewrite Hw. fold key. by rewrite Hopen. }
  rewrite (hist_after_writes ops (set_db h1 s1) s2); [|done|by destruct s1; subst sts].
  pose proof (cached_Close_db (set_db (set_db h1 s1) s2)) as Hc. simpl in Hc.
  assert (hist_after [OClose] (set_db (set_db h1 s1) s2) =
    fst (cached_Close marshal unmarshal o (set_db (set_db h1 s1) s2))) as -> by done.
  destruct (cached_Close marshal unmarshal o (set_db (set_db h1 s1) s2)) as [h4 e4]. simpl.
  replace (fst s2, snd s2) with s2 in Hc by by destruct s2.
  rewrite Hclose in Hc. destruct Hc as (_ & Hw4 & Hf4). simpl in *.
  rewrite hist_after_dead by done. by rewrite Hf4.
Qed.

End recorded.

(** A run that comes alive with its socket satisfies the invariant. *)
Lemma launch_ok {W} `{!HistoryStore W} dag retryTarget requestID logFile order fmt p1 p2 pid md5hex k (h : W) a g :
  agent_setup dag retryTarget order p1 p2 = Some (Ok g) ->
  launch dag false retryTarget requestID logFile order fmt p1 p2 pid md5hex k h = Live a ->
  ask_listen k = None ->
  run_ok dag requestID logFile fmt pid g (ask_now k) h a.
Proof.
  unfold launch. intros Hg. rewrite Hg. destruct (checkPreconditions _ _ _ _); [done|].
  destruct (checkIsAlreadyRunning _ _ _); [done|]. unfold open_history, setupDatabase.
  destruct (snd (hist_do _ _ _ _)); [done|]. intros [= <-] Hl. rewrite Hl. split; try done; simpl.
  - split; try done. by eexists.
  - exists []. by rewrite app_nil_r.
Qed.

(** The status that a run leaves: the last of those of its body and of the other
    goroutines after it. *)
Definition left_status (st : MStatus.t) (late : list hist_op) : MStatus.t :=
  default st (last (omap status_of_op late)).

(** C37: A run that came alive and whose body has returned [e], whatever the
    interleaving of its goroutines, the scheduler, requests and signals, and
    whatever the commands did, is in the history: its operations were the
    clean-up, the opening, writes of statuses of its own request and the closing,
    in this order, but for writes of other goroutines that came too late; the
    last status of its body says that the run succeeded only if nil is returned,
    or the report panicked, that it was not started only if an error is, never
    that it is running; and when no system call on its new file failed, the last
    status written before the closing is found by the request, that of the body
    unless another goroutine wrote after it, and every other request is found as
    after the clean-up. *)
Theorem run_is_recorded (marshal : MStatus.t -> result string) (unmarshal : string -> option MStatus.t)
    (baseDir : string) (md5hex : string -> string) (fmt_utc : Z -> string)
    (parse_plain parse_utc : string -> option Z) (latestStatusToday : bool) (o : os) (jitter : Z) (days_ago : Z -> Z)
    (dag : DAG.t) (retryTarget : option MStatus.t) (requestID logDir logFile : string)
    (order : Z -> nat -> list Z) (fmt : Z -> string) (p1 p2 : string -> option Z) (pid : Z)
    (k : ask) (h0 : hist) (a0 a : agent hist) (g : ExecutionGraph) (e : option error) (path : string) :
  let store := JSONDB marshal unmarshal baseDir md5hex fmt_utc parse_plain parse_utc latestStatusToday o jitter days_ago in
  let key := DAG.Location dag in
  let retention := DAG.HistRetentionDays dag in
  let cleaned := fst (RemoveOld baseDir md5hex o (h_fs h0) key retention (days_ago retention)) in
  agent_setup dag retryTarget order p1 p2 = Some (Ok g) -> good_graph g ->
  launch dag false retryTarget requestID logFile order fmt p1 p2 pid md5hex k h0 = Live a0 ->
  ask_listen k = None ->
  areachable dag false requestID logDir logFile fmt pid marshal a0 a -> a_main a = PReturned e ->
  exists side st late dead,
    a_trace a = opening dag requestID logFile fmt pid g (ask_now k) ++ side ++ [OWrite ByMain st] ++ late ++ [OClose] ++ dead /\
    Forall (side_op requestID) side /\ Forall (side_op requestID) late /\ Forall (side_op requestID) dead /\
    final requestID fmt e st /\
    (h_writer h0 = None ->
     generateFilePath baseDir md5hex fmt_utc key (ask_now k) requestID = Ok path ->
     contains (fmt_utc (ask_now k)) "/" = false -> contains (TruncString requestID requestIDLenSafe) "/" = false ->
     h_fs h0 !! path = None /\ h_fs h0 !! temp_path path = None /\ temp_path path <> path ->
     calm_at o path /\ calm_at o (temp_path path) ->
     (forall sf, FindByRequestID unmarshal baseDir md5hex (h_fs h0) key requestID <> Ok sf) -> requestID <> "" ->
     Forall (fun st => exists j, encodable marshal unmarshal st j) (omap status_of_op (a_trace a)) ->
     FindByRequestID unmarshal baseDir md5hex (h_fs (a_hist a)) key requestID = Ok (mkStatusFile path (left_status st late)) /\
     (forall other, other <> requestID ->
       FindByRequestID unmarshal baseDir md5hex (h_fs (a_hist a)) key other =
       FindByRequestID unmarshal baseDir md5hex cleaned key other)).
Proof.
  intros store key retention cleaned Hg Hgood Hlaunch Hlisten Hreach Hmain.
  assert (run_ok dag requestID logFile fmt pid g (ask_now k) h0 a) as [_ Htr _ _ Hh _].
  { eapply areachable_ok; [exact Hgood|by eapply setupGraph_startedAt, agent_setup_graph|by eapply launch_ok|exact Hreach]. }
  rewrite Hmain in Htr. destruct Htr as (side & st & late & dead & Htr & Hside & Hlate & Hdead & Hfin).
  exists side, st, late, dead. split_and!; try done.
  intros Hw Hpath Ht Hid Hfree Hcalm Hnew Hne Hcodec.
  assert (forall ops, Forall (side_op requestID) ops -> Forall is_write ops) as Hside_write.
  { intros ops Hops. eapply Forall_impl; [exact Hops|]. intros op (who & s & -> & _). by eexists. }
  set (st0 := agent_Status dag requestID logFile fmt pid (unstarted g)) in *.
  set (ops := [OWrite ByMain st0] ++ side ++ [OWrite ByMain st] ++ late).
  assert (a_trace a = [ORemoveOld; OOpen (ask_now k)] ++ ops ++ [OClose] ++ dead) as E.
  { rewrite Htr. unfold ops, opening. fold st0. simpl. by rewrite <- app_assoc. }
  rewrite Hh, E.
  apply (recorded_trace marshal unmarshal baseDir md5hex fmt_utc parse_plain parse_utc latestStatusToday o jitter days_ago
    dag requestID h0 path (ask_now k) (omap status_of_op ops) (left_status st late) ops dead); try done.
  - unfold ops. rewrite !Forall_app. split_and!; auto; repeat constructor; by eexists.
  - auto.
  - unfold ops, left_status. rewrite !omap_app, !last_app. by destruct (last (omap status_of_op late)).
  - rewrite E in Hcodec. rewrite !omap_app in Hcodec. rewrite !Forall_app in Hcodec. by destruct Hcodec as (_ & ? & _).
  - unfold left_status. destruct (last (omap status_of_op late)) as [x|] eqn:El; simpl; [|apply Hfin].
    apply last_Some_elem_of, list_elem_of_omap in El as (op & Hop & Hx). rewrite Forall_forall in Hlate.
    destruct (Hlate op Hop) as (who & s & -> & _ & Hs). by injection Hx as <-.
Qed.

(** ** A run of one step *)

(** Move the reader first, then the goroutines of the steps, then the loop of the
    scheduler, then the body of [Run]. *)
Definition next_move {W} (a : agent W) : aaction :=
  match a_reader a with
  | RGot _ | RWrite _ _ | RReport _ _ => BReader
  | _ => match threads (a_sched a) with
         | [] => match a_main a with PScheduling => if main (a_sched a) is MReturn _ then BMain else BSched AMain | _ => BMain end
         | _ => BSched (AThread 0)
         end
  end.

Section adrive.
Context {W : Type} `{!HistoryStore W}.
Context (dag : DAG.t) (requestID : string) (marshal : MStatus.t -> result string).

Abbreviation act := (aact dag false requestID "/logs" "/logs/run.log" pretty 7 marshal).

Fixpoint adrive (fuel : nat) (a : agent W) : agent W :=
  match fuel with
  | 0 => a
  | S fuel => match act ok_world (next_move a) a with Some a' => adrive fuel a' | None => a end
  end.

Lemma adrive_reachable fuel a : areachable dag false requestID "/logs" "/logs/run.log" pretty 7 marshal a (adrive fuel a).
Proof.
  revert a. induction fuel as [|n IH]; intros a; simpl; [apply rtc_refl|].
  destruct (act ok_world (next_move a) a) as [a'|] eqn:E; [|apply rtc_refl].
  eapply rtc_l; [|apply IH]. by exists ok_world, (next_move a).
Qed.

End adrive.

Definition one_step_dag : DAG.t :=
  DAG.set_SMTP (DAG.set_Steps (DAG.set_Name (DAG.set_Location DAG.empty "/d/k.yaml") "k") [named_step "a" []])
    (Some (SMTPConfig.mk "" "" "" "")).

Definition run_order : Z -> nat -> list Z := ascending 1 1.

(** The texts of the statuses of the run tell them apart. *)
Definition text_of (st : MStatus.t) : string :=
  Status_String (MStatus.Status st) +:+ MStatus.StartedAt st +:+ MStatus.FinishedAt st +:+
  join (NodeStatus_String <$> (MNode.Status <$> MStatus.Nodes st)) "," +:+
  join (MNode.FinishedAt <$> MStatus.Nodes st) ",".

Definition run_marshal (st : MStatus.t) : result string := Ok (text_of st).

(** A history that keeps nothing. *)
Definition NoStore : HistoryStore unit :=
  mkHistoryStore unit (fun _ _ _ w => (w, None)) (fun _ w => (w, None)) (fun w => (w, None)) (fun _ _ _ w => (w, None))
    (fun _ _ w => (w, [])) (fun _ w => (w, Err ErrNoStatusData)) (fun _ _ _ => Err ErrNoStatusData)
    (fun _ w => (w, None)) (fun _ _ w => (w, None)) (fun _ _ w => (w, None)).

Definition run_ask : ask := mkAsk ok_world (Ok (CreateDefault pretty one_step_dag)) 5 None.

Definition launched_agent {W} `{!HistoryStore W} (h : W) : agent W :=
  match launch one_step_dag false None "r1" "/logs/run.log" run_order pretty (fun _ => None) (fun _ => None) 7 (fun _ => "m") run_ask h with
  | Live a => a
  | _ => mkAgent (unstarted empty_graph) h [] (PReturned None) REnd FEnd false false []
  end.

Definition run_table : list MStatus.t :=
  omap status_of_op (a_trace (adrive (HistoryStore0 := NoStore) one_step_dag "r1" run_marshal 200 (launched_agent (HistoryStore0 := NoStore) tt))).

Definition run_unmarshal (j : string) : option MStatus.t :=
  head (filter (fun st => text_of st = j) run_table).

Definition run_store : HistoryStore hist :=
  JSONDB run_marshal run_unmarshal "/h" (fun _ => "m") (fun _ => "20240102.10:00:00.000Z") (fun _ => None) (fun _ => None)
    true calm 0 (fun _ => 0%Z).

Definition run_hist : hist := mkHist None (one_line "other") None.

Definition run_start : agent hist := launched_agent (HistoryStore0 := run_store) run_hist.
Definition run_end : agent hist := adrive (HistoryStore0 := run_store) one_step_dag "r1" run_marshal 200 run_start.

Example run_end_trace :
  a_main run_end = PReturned None /\
  (MStatus.Status <$> omap status_of_op (a_trace run_end)) = [StatusNone; StatusSuccess; StatusSuccess].
Proof. vm_compute. done. Qed.

Definition run_path : string := "/h/k-m/k.20240102.10:00:00.000Z.r1.dat".

Definition run_graph : ExecutionGraph := graph_of [named_step "a" []].

Lemma run_graph_ok : agent_setup one_step_dag None run_order (fun _ => None) (fun _ => None) = Some (Ok run_graph).
Proof. vm_compute. reflexivity. Qed.

Lemma run_graph_good : good_graph run_graph.
Proof.
  refine (proj1 (new_graph_ready run_order 1 [named_step "a" []] run_graph _ _ _ _)); [done| | |].
  - done.
  - by repeat constructor.
  - vm_compute. reflexivity.
Qed.

Lemma run_encodable :
  Forall (fun st => exists j, encodable run_marshal run_unmarshal st j) (omap status_of_op (a_trace run_end)).
Proof.
  assert (omap status_of_op (a_trace run_end) = run_table) as -> by (vm_compute; reflexivity).
  assert (Forall (fun st => run_unmarshal (text_of st) = Some st) run_table) as H1.
  { vm_compute. repeat constructor. }
  assert (Forall (fun st => nl ∉ s2l (text_of st) /\ last (s2l (text_of st)) <> Some cr /\ s2l (text_of st) <> []) run_table) as H2.
  { apply (bool_decide_unpack _). vm_compute. exact I. }
  rewrite Forall_forall in *. intros st Hst. exists (text_of st). destruct (H2 st Hst) as (? & ? & ?). split; auto.
Qed.

Lemma run_is_recorded_witness :
  a_main run_end = PReturned None /\
  exists st late, final "r1" pretty None st /\
    FindByRequestID run_unmarshal "/h" (fun _ => "m") (h_fs (a_hist run_end)) "/d/k.yaml" "r1" =
      Ok (mkStatusFile run_path (left_status st late)).
Proof.
  assert (a_main run_end = PReturned None) as Hmain by (vm_compute; reflexivity).
  split; [exact Hmain|].
  destruct (run_is_recorded run_marshal run_unmarshal "/h" (fun _ => "m") (fun _ => "20240102.10:00:00.000Z") (fun _ => None)
    (fun _ => None) true calm 0 (fun _ => 0%Z) one_step_dag None "r1" "/logs" "/logs/run.log" run_order pretty
    (fun _ => None) (fun _ => None) 7 run_ask run_hist run_start run_end run_graph None run_path
    run_graph_ok run_graph_good) as (side & st & late & dead & _ & _ & _ & _ & Hfin & Hfind).
  - vm_compute. reflexivity.
  - reflexivity.
  - apply (adrive_reachable (HistoryStore0 := run_store)).
  - exact Hmain.
  - exists st, late. split; [exact Hfin|]. apply Hfind.
    + reflexivity.
    + vm_compute. reflexivity.
    + vm_compute. reflexivity.
    + vm_compute. reflexivity.
    + split_and!; [vm_compute; reflexivity..|vm_compute; congruence].
    + split; apply calm_calm.
    + intros sf. vm_compute. congruence.
    + congruence.
    + exact run_encodable.
Defined.
