(* ===== verification/AgentStop.v ===== *)
(** * One run at a time, stopping, and dry runs

    A second run of a workflow asks the socket of the first and is refused; a stop
    request reaches the scheduler; the loop that waits for the nodes to end comes
    to an end, with the scheduler and its goroutines moving in between.  A dry run
    leaves nothing behind. *)

From stdpp Require Import pretty.
From S2P Require Import Prelude GoStrings Vars Digraph NodeData Paths Contexts Node Graph GraphProps Sched SchedInv SchedOrder SchedResult SchedProps SchedCancel Model History HistoryProps FileCache Stores Client JsonStore Reporter Agent AgentRun AgentProps.

(** ** The answers of an agent *)

Definition ErrDial : error := EWrap "dial failed: " (ENew "connect: no such file or directory") "".

Section serve.
Context {W V : Type} `{!HistoryStore W}.
Context (dag : DAG.t) (requestID logFile : string) (fmt : Z -> string) (pid : Z).
Context (md5hex : string -> string) (marshal : MStatus.t -> result string).

(** [Client.Request] to the socket of the workflow: the body, whatever the status
    code, while the agent listens. *)
Definition request_to (a : agent W) (addr method path : string) (w : V) : V * result string :=
  (w, if bool_decide (addr = SockAddr md5hex dag) && a_listening a then
        match fst (HandleHTTP dag requestID logFile fmt pid marshal method path (a_sched a)) with
        | Ok r => Ok (rs_Body r)
        | Err e => Err e
        end
      else Err ErrDial).

(** The status it answers with. *)
Definition told (a : agent W) : MStatus.t :=
  set_Status (agent_Status dag requestID logFile fmt pid (a_sched a)) StatusRunning.

Lemma request_status a j w : marshal (told a) = Ok j ->
  request_to a (SockAddr md5hex dag) "GET" "/status" w = (w, if a_listening a then Ok j else Err ErrDial).
Proof.
  intros Hj. unfold request_to. rewrite bool_decide_true by done. simpl. destruct (a_listening a); [|done].
  unfold HandleHTTP. simpl. fold (told a). by rewrite Hj.
Qed.

(** What the client makes of it. *)
Lemma current_status a j StatusFromJSON w :
  marshal (told a) = Ok j -> StatusFromJSON j = Ok (told a) ->
  snd (GetCurrentStatus md5hex (request_to a) StatusFromJSON fmt dag w) =
    if a_listening a then Ok (told a) else Ok (CreateDefault fmt dag).
Proof.
  intros Hj Hs. unfold GetCurrentStatus, status_request. rewrite (request_status a j) by done.
  destruct (a_listening a); [done|]. reflexivity.
Qed.

End serve.

(** C39: A workflow is not run twice at once: from the moment a run has its
    socket until it shuts it down, whatever has happened in between, every other
    run of the workflow that asks the client is refused before it touches the
    history, unless it is a dry run; and it is refused with the error that says so
    when its graph is sound and its preconditions hold.  Once the socket is down
    such a run goes on to open the history. *)
Theorem one_run_at_a_time {W : Type} `{!HistoryStore W} (dag : DAG.t)
    (retryA retryB : option MStatus.t) (idA idB logDir logA logB : string) (order : Z -> nat -> list Z)
    (fmt : Z -> string) (p1 p2 : string -> option Z) (pidA pidB : Z) (md5hex : string -> string)
    (marshal : MStatus.t -> result string) (StatusFromJSON : string -> result MStatus.t)
    (kA kB : ask) (h0 h : W) (a0 a : agent W) (g : ExecutionGraph) (dryB : bool) (j : string) (w : W) :
  let told := told dag idA logA fmt pidA a in
  let launchB := launch dag dryB retryB idB logB order fmt p1 p2 pidB md5hex kB h in
  agent_setup dag retryA order p1 p2 = Some (Ok g) -> good_graph g ->
  launch dag false retryA idA logA order fmt p1 p2 pidA md5hex kA h0 = Live a0 -> ask_listen kA = None ->
  areachable dag false idA logDir logA fmt pidA marshal a0 a ->
  marshal told = Ok j -> StatusFromJSON j = Ok told ->
  ask_current kB = snd (GetCurrentStatus md5hex (request_to dag idA logA fmt pidA md5hex marshal a) StatusFromJSON fmt dag w) ->
  let ready gB := agent_setup dag retryB order p1 p2 = Some (Ok gB) /\
    checkPreconditions dag idB logB (ask_world kB) = None /\ dryB = false in
  if socket_up (a_main a) then
    match launchB with
    | Refused e => forall gB, ready gB ->
        e = ENew ("the DAG is already running. status=running, socket=" +:+ SockAddr md5hex dag)
    | DryRun _ => dryB = true
    | NoHistory _ _ | Live _ => False
    end
  else forall gB, ready gB -> launchB = open_history dag idB logB fmt pidB kB gB h.
Proof.
  intros told launchB Hg Hgood HlaunchA Hlisten Hreach Hj Hs Hcur ready.
  assert (run_ok dag idA logA fmt pidA g (ask_now kA) h0 a) as Hok.
  { eapply areachable_ok; [exact Hgood|by eapply setupGraph_startedAt, agent_setup_graph|by eapply launch_ok|exact Hreach]. }
  rewrite (current_status dag idA logA fmt pidA md5hex marshal a j) in Hcur by done.
  rewrite (ro_socket _ _ _ _ _ _ _ _ _ Hok) in Hcur. unfold launchB, launch, ready.
  destruct (socket_up (a_main a)).
  - destruct (agent_setup dag retryB order p1 p2) as [[gB|e]|]; [|by intros ? [? _]..].
    destruct (checkPreconditions _ _ _ _) as [e|] eqn:Hpre; [by intros ? (_ & ? & _)|].
    destruct dryB; [done|]. unfold checkIsAlreadyRunning. rewrite Hcur. simpl. done.
  - intros gB (-> & -> & ->). unfold checkIsAlreadyRunning. rewrite Hcur. done.
Qed.

Lemma one_run_at_a_time_witness :
  let current := snd (GetCurrentStatus (fun _ => "m")
    (request_to one_step_dag "r1" "/logs/run.log" pretty 7 (fun _ => "m") run_marshal run_start)
    (fun _ => Ok (told one_step_dag "r1" "/logs/run.log" pretty 7 run_start)) pretty one_step_dag tt) in
  match launch (W := unit) (HistoryStore0 := NoStore) one_step_dag false None "r2" "/logs/other.log" run_order pretty
          (fun _ => None) (fun _ => None) 8 (fun _ => "m") (mkAsk ok_world current 6 None) tt with
  | Refused e => e = ENew "the DAG is already running. status=running, socket=/tmp/@dagu-k-m.sock"
  | _ => False
  end.
Proof.
  intros current.
  pose proof (one_run_at_a_time (HistoryStore0 := NoStore) one_step_dag None None "r1" "r2" "/logs" "/logs/run.log"
    "/logs/other.log" run_order pretty (fun _ => None) (fun _ => None) 7 8 (fun _ => "m") run_marshal
    (fun _ => Ok (told one_step_dag "r1" "/logs/run.log" pretty 7 (launched_agent (HistoryStore0 := NoStore) tt))) run_ask
    (mkAsk ok_world current 6 None) tt tt (launched_agent (HistoryStore0 := NoStore) tt)
    (launched_agent (HistoryStore0 := NoStore) tt) run_graph false
    (text_of (told one_step_dag "r1" "/logs/run.log" pretty 7 (launched_agent (HistoryStore0 := NoStore) tt))) tt
    run_graph_ok run_graph_good ltac:(vm_compute; reflexivity) eq_refl ltac:(apply rtc_refl) ltac:(reflexivity)
    ltac:(reflexivity) ltac:(vm_compute; reflexivity)) as H.
  assert (socket_up (a_main (launched_agent (HistoryStore0 := NoStore) tt)) = true) as E by (vm_compute; reflexivity).
  cbv zeta in H. rewrite E in H.
  destruct (launch one_step_dag false None "r2" _ _ _ _ _ _ _ _ _) eqn:El; [|vm_compute in El; discriminate|done|done].
  rewrite (H run_graph); [vm_compute; reflexivity|]. split_and!; [exact run_graph_ok|reflexivity|reflexivity].
Defined.

(** A request to stop starts a call of [Signal] with SIGTERM, and is answered. *)
Lemma stop_reaches_scheduler {W V} `{!HistoryStore W} dag dry requestID logDir logFile fmt pid md5hex marshal
    (a : agent W) w (v : V) exists_ :
  a_listening a = true -> exists_ (SockAddr md5hex dag) v = true ->
  Stop md5hex (request_to dag requestID logFile fmt pid md5hex marshal a) exists_ dag v = (v, None) /\
  exists a', aact dag dry requestID logDir logFile fmt pid marshal w (BHTTP "POST" "/stop") a = Some a' /\
    sigs (a_sched a') = sigs (a_sched a) ++ [SStart SIGTERM true].
Proof.
  intros Hl Hf. split.
  - unfold Stop. rewrite Hf. unfold request_to. rewrite bool_decide_true, Hl by done. reflexivity.
  - simpl. rewrite Hl. unfold HandleHTTP. simpl. unfold sched_step. simpl. rewrite Nat.eqb_refl. by eexists.
Qed.

(** ** The calls of [Scheduler.Signal] *)

Section moves.
Context (cfg : Config) (hd : bool) (ctx0 : ctx) (signalNum : string -> Z).

(** What moves besides the loop: the scheduler with its goroutines and the other
    calls of [Signal] and [Cancel], and the goroutine of the first call. *)
Definition other_step (x y : stopping) : Prop :=
  (exists s, Sched.step cfg hd ctx0 (st_sched x) s /\ y = set_st_sched x s) \/ wait_step signalNum x = Some y.

(** One step of all of it: of the others, an access of the loop's own calls, or
    its receive. *)
Definition move (x y : stopping) : Prop :=
  other_step x y \/ (exists who p, who <> CallFirst /\ y = fst (call_step signalNum who p x)) \/
  (exists n, y = set_st_moves x n) \/ (st_wait x = WSend /\ y = set_st_wait x WGone).

Abbreviation evolves := (rtc move).

Lemma act_nodes w a s s' : act cfg hd ctx0 w a s = Some s' -> nodes (graph s') = nodes (graph s).
Proof.
  intros H. destruct a as [|i|i|sig ov|]; simpl in H.
  - unfold mstep in H. repeat case_match; by simplify_eq/=.
  - unfold thread_step in H. destruct (threads s !! i) as [[id [c p]]|]; [|done].
    destruct (node (graph s) id); [|done]. destruct (gostep _ _ _ _ _ _ _ _); by simplify_eq/=.
  - unfold sig_step in H. destruct (sigs s !! i) as [p|]; [|done].
    destruct (sigstep (graph s) p) as [[[] []] next]; by simplify_eq/=.
  - by simplify_eq/=.
  - by simplify_eq/=.
Qed.

(** What no move takes back. *)
Record kept (x y : stopping) : Prop := mk_kept {
  kept_nodes : nodes (graph (st_sched y)) = nodes (graph (st_sched x));
  kept_canceled : canceled (st_sched x) = true -> canceled (st_sched y) = true;
  kept_visits : st_visits x `prefix_of` st_visits y
}.

#[local] Instance kept_preorder : PreOrder kept.
Proof.
  split; [by split|]. intros x y z [H1 H2 H3] [K1 K2 K3]. split; [congruence|auto|by etrans].
Qed.

Lemma kept_same x y :
  st_sched y = st_sched x -> st_visits y = st_visits x -> kept x y.
Proof. intros E1 E2. split; [by rewrite E1|by rewrite E1|by rewrite E2]. Qed.

Lemma call_step_kept who p x : kept x (fst (call_step signalNum who p x)).
Proof.
  unfold call_step. destruct (sigstep _ p) as [[flag mark] next]. split; simpl.
  - by destruct flag, mark.
  - by destruct flag, mark.
  - by apply prefix_app_r.
Qed.

Lemma wait_step_kept x y : wait_step signalNum x = Some y -> kept x y.
Proof.
  unfold wait_step. destruct (st_wait x) as [p|[|id todo]| |]; [|intros [= <-]; by apply kept_same..|done|done].
  pose proof (call_step_kept CallFirst p x) as Hk.
  destruct (call_step signalNum CallFirst p x) as [x1 next]. intros [= <-].
  etrans; [exact Hk|]. by apply kept_same.
Qed.

Lemma move_kept x y : move x y -> kept x y.
Proof.
  intros [[(s & (w & a & Ha) & ->)|Hw]|[(who & p & _ & ->)|[(n & ->)|(_ & ->)]]].
  - split; simpl; [by eapply act_nodes|intros Hc; by eapply canceled_step|done].
  - by apply wait_step_kept.
  - apply call_step_kept.
  - by apply kept_same.
  - by apply kept_same.
Qed.

Lemma evolves_kept x y : evolves x y -> kept x y.
Proof. induction 1 as [|x y z H _ IH]; [done|]. etrans; [by apply move_kept|exact IH]. Qed.

Lemma others_evolve x y : rtc other_step x y -> evolves x y.
Proof. apply rtc_subrel. intros u v H. by left. Qed.

Context (x0 : stopping).

(** A call has visited the node: at some moment since [x0], and with the outcome
    the node called for then. *)
Definition reached (who : caller) (sig : Z) (ov : bool) (id : Z) (x : stopping) : Prop :=
  exists y, evolves x0 y /\ evolves y x /\
    mkVisit who sig id (visit_outcome signalNum sig ov id (graph (st_sched y))) ∈ st_visits x.

(** It was seen not running, after the first call had visited it. *)
Definition seen_idle (sig : Z) (ov : bool) (id : Z) (x : stopping) : Prop :=
  exists y, evolves x0 y /\ evolves y x /\ reached CallFirst sig ov id y /\
    status_of (graph (st_sched y)) id <> NodeStatusRunning.

Lemma reached_later who sig ov id x y : evolves x y -> reached who sig ov id x -> reached who sig ov id y.
Proof.
  intros Hxy (z & H0 & Hzx & Hv). exists z. split_and!; [done|by etrans|].
  eapply elem_of_prefix; [exact Hv|apply (kept_visits _ _ (evolves_kept _ _ Hxy))].
Qed.

Lemma seen_idle_later sig ov id x y : evolves x y -> seen_idle sig ov id x -> seen_idle sig ov id y.
Proof. intros Hxy (z & H0 & Hzx & Hz). exists z. split_and!; [done|by etrans|apply Hz..]. Qed.

(** Where a call is, and what it has done: it has visited every node that is not
    left to visit. *)
Definition call_ok (who : caller) (sig : Z) (ov : bool) (p : sigpc) (x : stopping) : Prop :=
  match p with
  | SStart s o => s = sig /\ o = ov
  | SNodes s o todo | SMark s o _ todo =>
      s = sig /\ o = ov /\ canceled (st_sched x) = true /\
      forall id, id ∈ nodes (graph (st_sched x)) -> id ∈ todo \/ reached who sig ov id x
  | _ => False
  end.

Lemma call_ok_later who sig ov p x y : evolves x y -> call_ok who sig ov p x -> call_ok who sig ov p y.
Proof.
  intros Hxy. pose proof (evolves_kept _ _ Hxy) as [Hn Hc _].
  destruct p; simpl; [done|rewrite Hn|rewrite Hn|done..];
    intros (-> & -> & Hcx & Hall); (split_and!; [done|done|by apply Hc|]);
    intros id' Hid; (destruct (Hall id' Hid) as [?|Hr]; [by left|right; by eapply reached_later]).
Qed.

(** After one access the call is where [sigstep] says, or has no node left. *)
Lemma call_step_ok who sig ov p x y next z :
  call_step signalNum who p x = (y, next) -> st_sched z = st_sched y -> st_visits z = st_visits y ->
  evolves x0 x -> evolves x z -> call_ok who sig ov p x ->
  call_ok who sig ov (default (SNodes sig ov []) next) z.
Proof.
  intros Hstep Hs Hv H0 Hxz Hok. pose proof (call_ok_later who sig ov p x z Hxz Hok) as Hok'.
  pose proof (evolves_kept _ _ Hxz) as [Hn _ _].
  destruct p as [s o|s o [|id todo]|s o id todo| | |]; try done; simpl in Hok', Hok.
  - destruct Hok as [-> ->]. unfold call_step in Hstep. simpl in Hstep.
    assert (canceled (st_sched z) = true) as Hc by (rewrite Hs; by injection Hstep as <- _).
    destruct (nodes (graph (st_sched x))) as [|i l] eqn:E; injection Hstep as _ <-; simpl; rewrite Hn;
      (split_and!; [done|done|exact Hc|]); intros id' Hid; by left.
  - injection Hstep as _ <-. simpl. by destruct Hok' as (-> & -> & ? & ?).
  - destruct Hok' as (-> & -> & Hc & Hall).
    assert (reached who sig ov id z) as Hr.
    { exists x. split_and!; [done|done|]. rewrite Hv. unfold call_step in Hstep. revert Hstep. simpl.
      destruct (negb _ && _); intros [= <- _]; simpl; apply elem_of_app; right; by apply list_elem_of_singleton. }
    assert (forall id', id' ∈ nodes (graph (st_sched z)) -> id' ∈ todo \/ reached who sig ov id' z) as Hall'.
    { intros id' Hid. destruct (Hall id' Hid) as [[->|?]%elem_of_cons|Hv']; [by right|by left|by right]. }
    unfold call_step in Hstep. revert Hstep. simpl.
    destruct (negb _ && _); [|destruct todo]; intros [= _ <-]; by simpl.
  - destruct Hok' as (-> & -> & Hc & Hall). unfold call_step in Hstep. revert Hstep. simpl.
    destruct todo; intros [= _ <-]; by simpl.
Qed.

(** Where the goroutine of the first call is. *)
Definition wait_ok (sig : Z) (ov : bool) (x : stopping) : Prop :=
  let all P := forall id, id ∈ nodes (graph (st_sched x)) -> P id in
  match st_wait x with
  | WCall p => call_ok CallFirst sig ov p x
  | WScan todo => call_ok CallFirst sig ov (SNodes sig ov []) x /\ all (fun id => id ∈ todo \/ seen_idle sig ov id x)
  | WSend | WGone => canceled (st_sched x) = true /\ all (fun id => seen_idle sig ov id x)
  end.

Lemma wait_ok_later sig ov x y :
  evolves x y -> st_wait y = st_wait x -> wait_ok sig ov x -> wait_ok sig ov y.
Proof.
  intros Hxy Hw. pose proof (evolves_kept _ _ Hxy) as [Hn Hc _]. unfold wait_ok. rewrite Hw, Hn.
  destruct (st_wait x) as [p|todo| |].
  - by apply call_ok_later.
  - intros [H1 H2]. split; [by eapply call_ok_later|]. intros id Hid.
    destruct (H2 id Hid); [by left|right; by eapply seen_idle_later].
  - intros [H1 H2]. split; [by apply Hc|]. intros id Hid. eapply seen_idle_later; [done|]. by apply H2.
  - intros [H1 H2]. split; [by apply Hc|]. intros id Hid. eapply seen_idle_later; [done|]. by apply H2.
Qed.

Lemma wait_step_ok sig ov x y :
  wait_step signalNum x = Some y -> evolves x0 x -> wait_ok sig ov x -> wait_ok sig ov y.
Proof.
  intros Hstep H0 Hok. assert (evolves x y) as Hxy by (apply rtc_once; left; by right).
  revert Hstep Hok. unfold wait_step. destruct (st_wait x) as [p|todo| |] eqn:Hw; [| |done|done].
  - destruct (call_step signalNum CallFirst p x) as [x1 next] eqn:Hc. intros [= Hy].
    unfold wait_ok at 1. rewrite Hw. intros Hok.
    pose proof (call_step_ok CallFirst sig ov p x x1 next y Hc ltac:(by subst y) ltac:(by subst y) H0 Hxy Hok) as H1.
    unfold wait_ok. assert (st_wait y = _) as -> by (rewrite <- Hy; reflexivity).
    destruct next as [p'|]; simpl in H1 |- *; [exact H1|].
    split; [exact H1|]. rewrite (kept_nodes _ _ (evolves_kept _ _ Hxy)). by left.
  - unfold wait_ok at 1. rewrite Hw. intros Hstep [H1 H2].
    pose proof (call_ok_later _ _ _ _ _ _ Hxy H1) as H1'. pose proof (evolves_kept _ _ Hxy) as [Hn _ _].
    destruct todo as [|id todo]; injection Hstep as Hy; unfold wait_ok;
      (assert (st_wait y = _) as -> by (rewrite <- Hy; reflexivity)); simpl.
    + split; [apply H1'|]. rewrite Hn. intros id Hid. destruct (H2 id Hid) as [[]%elem_of_nil|?].
      by eapply seen_idle_later.
    + split; [exact H1'|]. rewrite Hn. intros id' Hid'. case_bool_decide as Hr; [by left|].
      destruct (H2 id' Hid') as [[->|?]%elem_of_cons|?]; [right|by left|right; by eapply seen_idle_later].
      eapply seen_idle_later; [exact Hxy|]. exists x. split_and!; [done|done| |done].
      destruct H1 as (_ & _ & _ & H1). by destruct (H1 id Hid') as [[]%elem_of_nil|?].
Qed.

Lemma move_wait_ok sig ov x y : move x y -> evolves x0 x -> wait_ok sig ov x -> wait_ok sig ov y.
Proof.
  intros Hm H0 Hok. pose proof (rtc_once _ _ Hm) as Hxy.
  destruct Hm as [[(s & Hs & ->)|Hw]|[(who & p & Hwho & ->)|[(n & ->)|(Hw & ->)]]].
  - by eapply wait_ok_later.
  - by eapply wait_step_ok.
  - eapply wait_ok_later; [exact Hxy| |exact Hok]. unfold call_step. by destruct (sigstep _ p) as [[? ?] ?].
  - by eapply wait_ok_later.
  - unfold wait_ok in *. rewrite Hw in Hok. destruct Hok as [H1 H2]. split; [done|]. intros id Hid.
    eapply seen_idle_later; [exact Hxy|]. by apply H2.
Qed.

Lemma evolves_wait_ok sig ov x y : evolves x y -> evolves x0 x -> wait_ok sig ov x -> wait_ok sig ov y.
Proof.
  induction 1 as [|x y z H _ IH]; [done|]. intros H0 Hok.
  apply IH; [by eapply rtc_r|]. by eapply move_wait_ok.
Qed.

(** *** The calls of the loop itself *)

Context (others : nat -> stopping -> stopping).
Hypothesis others_ok : forall k x, rtc other_step x (others k x).

Lemma elapse_evolves x : evolves x (elapse others x).
Proof.
  unfold elapse. eapply rtc_r; [apply others_evolve, others_ok|]. right. right. left. by eexists.
Qed.

Lemma own_step_evolves who p x : who <> CallFirst -> evolves x (fst (call_step signalNum who p x)).
Proof. intros H. apply rtc_once. right. left. by exists who, p. Qed.

(** One access of the loop's own call, after the others have moved. *)
Lemma own_step_ok who sig ov p x y next : who <> CallFirst -> evolves x0 x -> call_ok who sig ov p x ->
  call_step signalNum who p (elapse others x) = (y, next) ->
  evolves x y /\ call_ok who sig ov (default (SNodes sig ov []) next) y.
Proof.
  intros Hwho H0 Hok E. pose proof (elapse_evolves x) as H1.
  pose proof (own_step_evolves who p (elapse others x) Hwho) as H2. rewrite E in H2. simpl in H2.
  split; [by etrans|]. eapply (call_step_ok who sig ov p (elapse others x)); [exact E|done|done|by etrans|done|].
  by eapply call_ok_later.
Qed.

Lemma visit_nodes_ok who sig ov (Hwho : who <> CallFirst) todo : forall x,
  evolves x0 x -> call_ok who sig ov (SNodes sig ov todo) x ->
  let y := visit_nodes signalNum others who sig ov todo x in
  evolves x y /\ call_ok who sig ov (SNodes sig ov []) y.
Proof.
  induction todo as [|id todo IH]; intros x H0 Hok; [done|]. simpl.
  destruct (call_step _ who _ (elapse others x)) as [x1 next] eqn:E.
  destruct (own_step_ok who sig ov _ x x1 next Hwho H0 Hok E) as [H1 Hok1].
  assert (exists z, match next with Some (SMark _ _ _ _ as p) => fst (call_step signalNum who p (elapse others x1)) | _ => x1 end = z /\
    evolves x1 z /\ call_ok who sig ov (SNodes sig ov todo) z) as (z & -> & H2 & Hok2).
  { eexists. split; [reflexivity|].
    unfold call_step in E. revert E. simpl. destruct (negb _ && _); intros [= Ex <-].
    - destruct (call_step signalNum who (SMark sig ov id todo) (elapse others x1)) as [x2 next2] eqn:E2.
      destruct (own_step_ok who sig ov _ x1 x2 next2 Hwho ltac:(by etrans) Hok1 E2) as [H2 Hok2].
      split; [exact H2|]. unfold call_step in E2. revert E2. simpl. destruct todo; intros [= _ <-]; exact Hok2.
    - destruct todo; (split; [apply rtc_refl|exact Hok1]). }
  destruct (IH z ltac:(do 2 (etrans; [eassumption|]); done) Hok2) as [H3 Hok3].
  split; [|exact Hok3]. by do 2 (etrans; [eassumption|]).
Qed.

Lemma Scheduler_Signal_ok who sig ov x : who <> CallFirst -> evolves x0 x ->
  let y := Scheduler_Signal signalNum others who sig ov x in
  evolves x y /\ call_ok who sig ov (SNodes sig ov []) y.
Proof.
  intros Hwho H0. unfold Scheduler_Signal. cbv zeta.
  destruct (call_step signalNum who (SStart sig ov) (elapse others x)) as [x1 next] eqn:E.
  destruct (own_step_ok who sig ov (SStart sig ov) x x1 next Hwho H0 ltac:(done) E) as [H1 Hok1].
  assert (call_ok who sig ov (SNodes sig ov (nodes (graph (st_sched x1)))) x1) as Hok2.
  { unfold call_step in E. revert E. cbn [sigstep]. intros [= Ex En].
    assert (nodes (graph (st_sched x1)) = nodes (graph (st_sched (elapse others x)))) as -> by by rewrite <- Ex.
    destruct (nodes _); rewrite <- En in Hok1; exact Hok1. }
  destruct (visit_nodes_ok who sig ov Hwho _ x1 ltac:(by etrans) Hok2) as [H3 Hok3].
  split; [by etrans|exact Hok3].
Qed.

End moves.

(** ** The loop that waits for the nodes to end *)

(** The signal is sent again at these times: the first not before [lo], each five
    seconds or more after the one before. *)
Fixpoint spaced (lo : Z) (l : list Z) : Prop :=
  match l with
  | [] => True
  | t :: l => (lo <= t)%Z /\ spaced (t + 5 * second) l
  end.

Lemma spaced_le lo lo' l : (lo' <= lo)%Z -> spaced lo l -> spaced lo' l.
Proof. destruct l; simpl; [done|]. intros ? [? ?]. split; [lia|done]. Qed.

Section loop.
Context (cfg : Config) (hd : bool) (ctx0 : ctx) (signalNum : string -> Z).
Context (M start : Z) (others : nat -> stopping -> stopping) (slept took : nat -> Z) (pick : nat -> nat).
Context (sig : Z) (ov : bool) (x0 : stopping).
Hypothesis slept_ok : forall k, (3 * second <= slept k)%Z.
Hypothesis took_ok : forall k, (0 <= took k)%Z.
Hypothesis others_ok : forall k x, rtc (other_step cfg hd ctx0 signalNum) x (others k x).

Abbreviation loop := (signal_loop signalNum M start others slept took pick sig).
Abbreviation cases := (ready_cases M start).
Abbreviation evolves := (rtc (move cfg hd ctx0 signalNum)).
Abbreviation fine := (fun x => evolves x0 x /\ wait_ok cfg hd ctx0 signalNum x0 sig ov x).

(** How many sleeps are left before the time is up. *)
Definition sleeps_left (now : Z) : nat := Z.to_nat ((start + M - now + 3 * second - 1) / (3 * second)).

Lemma sleeps_left_sleep now k :
  (now < start + M)%Z -> S (sleeps_left (now + slept k)) <= sleeps_left now.
Proof.
  intros Hnow. specialize (slept_ok k). unfold sleeps_left. unfold second in *.
  assert (((start + M - (now + slept k) + 3 * 1000000000 - 1) / (3 * 1000000000) <=
           (start + M - now + 3 * 1000000000 - 1) / (3 * 1000000000) - 1)%Z) as H.
  { replace ((start + M - now + 3 * 1000000000 - 1) / (3 * 1000000000) - 1)%Z
      with ((start + M - now - 1) / (3 * 1000000000))%Z.
    - apply Z.div_le_mono; lia.
    - replace (start + M - now + 3 * 1000000000 - 1)%Z with (start + M - now - 1 + 1 * (3 * 1000000000))%Z by lia.
      rewrite Z.div_add by lia. lia. }
  assert (1 <= (start + M - now + 3 * 1000000000 - 1) / (3 * 1000000000))%Z.
  { apply Z.div_le_lower_bound; lia. }
  lia.
Qed.

Lemma sleeps_left_later now d : (0 <= d)%Z -> sleeps_left (now + d) <= sleeps_left now.
Proof.
  intros Hd. unfold sleeps_left, second.
  assert (((start + M - (now + d) + 3 * 1000000000 - 1) / (3 * 1000000000) <=
           (start + M - now + 3 * 1000000000 - 1) / (3 * 1000000000))%Z); [|lia].
  apply Z.div_le_mono; lia.
Qed.

Lemma fine_elapse x : fine x -> fine (elapse others x).
Proof.
  intros [H1 H2]. pose proof (elapse_evolves cfg hd ctx0 signalNum others others_ok x) as H.
  split; [by etrans|]. by eapply evolves_wait_ok.
Qed.

Lemma fine_call who s o x : who <> CallFirst -> fine x ->
  let y := Scheduler_Signal signalNum others who s o x in
  fine y /\ call_ok cfg hd ctx0 signalNum x0 who s o (SNodes s o []) y.
Proof.
  intros Hwho [H1 H2].
  destruct (Scheduler_Signal_ok cfg hd ctx0 signalNum x0 others others_ok who s o x Hwho H1) as [H3 H4].
  split; [split; [by etrans|by eapply evolves_wait_ok]|exact H4].
Qed.

(** The loop ended for a reason. *)
Definition reason (e : signal_end) (x : stopping) : Prop :=
  canceled (st_sched x) = true /\ evolves x0 x /\
  match e with
  | AllTerminated _ => forall id, id ∈ nodes (graph (st_sched x)) -> seen_idle cfg hd ctx0 signalNum x0 sig ov id x
  | Killed t => (start + M <= t)%Z /\
      forall id, id ∈ nodes (graph (st_sched x)) -> reached cfg hd ctx0 signalNum x0 CallKill SIGKILL false id x
  end.

Lemma case_ready now tick_at x n c : cases now tick_at x !! n = Some c ->
  match c with
  | CDone => st_wait x = WSend
  | CTimeout => (start + M <= now)%Z
  | CTick => (tick_at <= now)%Z
  end.
Proof.
  intros Hn%list_elem_of_lookup_2. unfold ready_cases in Hn. rewrite !elem_of_app in Hn.
  destruct Hn as [Hn|[Hn|Hn]]; revert Hn; case_match eqn:E;
    try (by intros ?%elem_of_nil); intros ->%list_elem_of_singleton; [by apply bool_decide_eq_true in E|lia..].
Qed.

Lemma no_case now tick_at x k :
  cases now tick_at x !! (pick k mod length (cases now tick_at x)) = None -> cases now tick_at x = [].
Proof.
  intros H. destruct (cases now tick_at x) as [|c cs] eqn:E; [done|]. exfalso.
  apply lookup_ge_None in H. pose proof (Nat.mod_upper_bound (pick k) (length (c :: cs)) ltac:(done)). lia.
Qed.

Definition turns_left (now tick_at : Z) : nat := 2 * sleeps_left now + (if (tick_at <=? now)%Z then 1 else 0).

Lemma loop_ends fuel : forall k now tick_at x, turns_left now tick_at < fuel -> fine x ->
  exists again e y, loop fuel k now tick_at x = Some (again, e, y) /\ reason e y /\ spaced tick_at again.
Proof.
  induction fuel as [|fuel IH]; intros k now tick_at x Hfuel Hx; [lia|]. cbn [signal_loop].
  apply fine_elapse in Hx.
  destruct (cases now tick_at (elapse others x) !! _) as [c|] eqn:Hc.
  - apply case_ready in Hc. destruct c.
    + exists [], (AllTerminated now), (set_st_wait (elapse others x) WGone).
      destruct Hx as [H1 H2]. assert (fine (set_st_wait (elapse others x) WGone)) as [H3 H4].
      { assert (move cfg hd ctx0 signalNum (elapse others x) (set_st_wait (elapse others x) WGone)) as Hm
          by (do 3 right; by split).
        split; [by eapply rtc_r|by eapply move_wait_ok]. }
      split_and!; [done|split; [apply H4|split; [exact H3|apply H4]]|done].
    + eexists [], (Killed now), _. split; [reflexivity|].
      destruct (fine_call CallKill SIGKILL false _ ltac:(done) Hx) as [[H1 _] (_ & _ & H3 & H4)].
      split_and!; [split; [exact H3|split; [exact H1|split; [done|]]]|done].
      intros id Hid. by destruct (H4 id Hid) as [?%elem_of_nil|?].
    + pose proof (took_ok k) as Htook. pose proof (sleeps_left_later now (took k) Htook).
      destruct (fine_call CallAgain sig false _ ltac:(done) Hx) as [Hy _].
      destruct (IH (S k) (now + took k)%Z (now + took k + 5 * second)%Z
        (Scheduler_Signal signalNum others CallAgain sig false (elapse others x)))
        as (again & e & z & -> & Hr & Hs); [|exact Hy|].
      { unfold turns_left, second in *. rewrite (proj2 (Z.leb_le _ _) Hc) in Hfuel.
        rewrite (proj2 (Z.leb_gt _ _)) by lia. lia. }
      exists (now :: again), e, z. split_and!; [done|done|]. split; [done|].
      eapply spaced_le; [|exact Hs]. lia.
  - apply no_case in Hc. assert (now < start + M)%Z as Hnow.
    { unfold ready_cases in Hc. apply app_nil in Hc as [_ Hc]. apply app_nil in Hc as [Hc _].
      destruct (start + M <=? now)%Z eqn:E; [done|lia]. }
    pose proof (sleeps_left_sleep now k Hnow). apply (IH (S k)); [|done].
    unfold turns_left in *. destruct (_ <=? now + slept k)%Z, (_ <=? now)%Z; lia.
Qed.

End loop.


(** Others that only let the goroutine of the first call go on. *)
Definition only_waiter (n : nat) (_ : nat) (x : stopping) : stopping :=
  Nat.iter n (fun y => default y (wait_step (fun _ => 0%Z) y)) x.

Lemma only_waiter_ok cfg hd ctx0 n k x : rtc (other_step cfg hd ctx0 (fun _ => 0%Z)) x (only_waiter n k x).
Proof.
  unfold only_waiter. induction n as [|n IH]; [apply rtc_refl|]. simpl. etrans; [exact IH|].
  destruct (wait_step _ _) eqn:E; [|apply rtc_refl]. apply rtc_once. by right.
Qed.

(** The process of the first step runs: of a chain, or of a step that repeats. *)
Definition executing_step (g : ExecutionGraph) : Sched.state :=
  drive sample_cfg true ok_world (12 + length (nodes g)) (start sample_cfg g).
Definition repeating_graph : ExecutionGraph :=
  graph_of [Step.set_RepeatPolicy (named_step "a" []) (RepeatPolicy.mk true 0)].

Definition stop_sample (n : nat) (g : ExecutionGraph) : option (list Z * signal_end * stopping) :=
  signal (fun _ => 0%Z) (5 * second) 0 (only_waiter n) (fun _ => 3 * second)%Z (fun _ => 0%Z) (fun _ => 1)
    SIGTERM true 6 (executing_step g).

(** What is left of a stopped run: its steps whose process is waited for, and the
    visits. *)
Definition stop_left (n : nat) (g : ExecutionGraph) : option (signal_end * list Z * list visit) :=
  match stop_sample n g with
  | Some (_, e, x) =>
      Some (e, omap (fun t => match snd (snd t) with PRun _ => Some (fst t) | _ => None end) (threads (st_sched x)), st_visits x)
  | None => None
  end.

(** The first signal marks the node as cancelled at once: the loop reports that
    all have terminated while the goroutine still waits for its process, which
    gets no other signal, and no SIGKILL. *)
Lemma ignored_signal_outlives :
  stop_left 4 chain = Some (AllTerminated 3000000000, [1%Z],
    [mkVisit CallFirst 15 1 (Signalled (Some 15%Z)); mkVisit CallFirst 15 2 NotRunning]).
Proof. vm_compute. done. Qed.

(** A step that repeats gets no signal, not even SIGKILL when the time is up. *)
Lemma repeating_step_is_spared :
  stop_left 4 repeating_graph = Some (Killed 6000000000, [1%Z],
    [mkVisit CallFirst 15 1 Spared; mkVisit CallAgain 15 1 Spared; mkVisit CallKill 9 1 Spared]).
Proof. vm_compute. done. Qed.


(** ** Moments of a run *)

(** Between two steps no node runs, and the status says success while a step has
    not been started. *)
Lemma between_steps_success :
  exists fuel, let s := drive sample_cfg true ok_world fuel (start sample_cfg chain) in
    (node_Status <$> Nodes (graph s)) = [NodeStatusSuccess; NodeStatusNone] /\ SchedulerStatus s = StatusSuccess.
Proof. exists 30. vm_compute. done. Qed.

(** The delayed first write can come after the last write of the body, with a
    status taken while a step ran. *)
Definition stale_run : agent unit :=
  let act := aact (HistoryStore0 := NoStore) one_step_dag false "r1" "/logs" "/logs/run.log" pretty 7 run_marshal ok_world in
  let go n a := adrive (HistoryStore0 := NoStore) one_step_dag "r1" run_marshal n a in
  let first a := default a (act BFirst a) in
  go 100 (first (go 25 (first (go 12 (launched_agent (HistoryStore0 := NoStore) tt))))).

Definition who_writes (op : hist_op) : option (author * Status) :=
  match op with OWrite who st => Some (who, MStatus.Status st) | _ => None end.

(** The run has succeeded, and is left in the history as running. *)
Lemma stale_status_left :
  a_main stale_run = PReturned None /\ last (a_trace stale_run) = Some OClose /\
  omap who_writes (a_trace stale_run) =
    [(ByMain, StatusNone); (ByReader, StatusSuccess); (ByMain, StatusSuccess); (ByFirst, StatusRunning)].
Proof. vm_compute. done. Qed.

(** The retry of a run whose agent was killed while a step ran: the step is still
    marked running, nothing runs, and the loop of the scheduler comes back to
    where it was. *)
Lemma retry_of_killed_run_hangs :
  let killed := NewNode (named_step "a" []) (NodeState.set_Status NodeState.zero NodeStatusRunning) in
  match snd (CreateRetryExecutionGraph run_order 1 [killed]) with
  | Some (Ok g) => let s := start sample_cfg g in threads s = [] /\ drive sample_cfg true ok_world 4 s = s
  | _ => False
  end.
Proof. vm_compute. done. Qed.

(** ** Dry runs *)

Section dry_graph.
Context (order : Z -> nat -> list Z).

Lemma setup_dict g g' : setup order g = Some (Ok g') -> dict g' = dict g.
Proof.
  unfold setup. destruct (link order g) as [g1|] eqn:E; [|done]. destruct (hasCycle g1) as [[]|]; [done| |done].
  intros [= <-]. unfold link in E. revert E.
  apply (foldE_inv (fun x => dict x = dict g)); [|done].
  intros s id s' Hs. unfold link_node. apply (foldE_inv (fun x => dict x = dict g)); [|done].
  intros s1 dep s1' Hs1. unfold link_dep. destruct (findStep _ _ _); [|done]. by intros [= <-].
Qed.

Lemma add_nodes_not_error ns : forall next g, Forall (fun n => node_Status n <> NodeStatusError) ns ->
  (forall id, status_of g id <> NodeStatusError) -> forall id, status_of (snd (add_nodes next ns g)) id <> NodeStatusError.
Proof.
  induction ns as [|n ns IH]; intros next g Hns Hg; [done|]. apply Forall_cons in Hns as [Hn Hns]. simpl.
  destruct (Init next n) as [next' n'] eqn:E. apply IH; [done|]. intros id.
  assert (node_Status n' <> NodeStatusError) as Hn'.
  { unfold Init in E. by case_match; simplify_eq. }
  unfold status_of, node in *. simpl. destruct (decide (id = n_id n')) as [->|Hne].
  - by rewrite lookup_insert_eq.
  - rewrite lookup_insert_ne by done. apply Hg.
Qed.

(** The graph of a run that is no retry: nothing has failed. *)
Lemma setupGraph_not_error dag p1 p2 g : setupGraph dag None order p1 p2 = Some (Ok g) ->
  forall id, status_of g id <> NodeStatusError.
Proof.
  unfold setupGraph, NewExecutionGraph.
  pose proof (add_nodes_not_error ((fun step => NewNode step NodeState.zero) <$> DAG.Steps dag) 1 empty_graph) as H.
  destruct (add_nodes 1 _ empty_graph) as [n g0]. simpl in *. intros E id. apply setup_dict in E.
  unfold status_of, node in *. rewrite E. apply H.
  - apply Forall_fmap, Forall_forall. done.
  - done.
Qed.
End dry_graph.

Section dry_run.
Context {W : Type} `{!HistoryStore W}.
Context (dag : DAG.t) (requestID logDir logFile : string).
Context (fmt_rfc3339 : Z -> string) (pid : Z).

Abbreviation cfg := (newScheduler dag true requestID logDir).
Abbreviation run_context := (run_context dag requestID logFile).
Abbreviation dact := (dact dag true requestID logDir logFile fmt_rfc3339 pid).
Abbreviation dreachable := (dreachable dag true requestID logDir logFile fmt_rfc3339 pid).

(** What a dry run keeps. *)
Record dry_agent (h : W) (a : agent W) : Prop := mkDryAgent {
  da_hist : a_hist a = h;
  da_trace : a_trace a = [];
  da_mails : a_mails a = [];
  da_listening : a_listening a = false;
  da_sched : dry (a_sched a);
  da_main : match a_main a with
            | PSchedule | PScheduling => True
            | PScheduled e | PReturned e => e = None
            | _ => False
            end
}.

Lemma sched_dry h w x a a' : dry_agent h a -> sched_step dag true requestID logDir logFile w x a = Some a' -> dry_agent h a'.
Proof.
  intros [H1 H2 H3 H4 H5 H6]. unfold sched_step. destruct (act _ _ _ _ _ _) as [s'|] eqn:E; [|done].
  apply (act_dry cfg true run_context eq_refl) in E; [|done].
  destruct (_ =? _)%nat; [|destruct (a_reader a)]; intros; simplify_eq; by split.
Qed.

Lemma scheduled_dry w s s' : dry s -> Schedule cfg w (canceled s) (lastError s) (graph s) = Ok s' -> dry s'.
Proof.
  intros [H1 H2 H3 H4 H5] [= <-]. split; simpl; try done. unfold setup_handlers, handler_node.
  rewrite !Forall_app. split_and!; case_match; by repeat constructor.
Qed.

Lemma set_sigs_dry s l : dry s -> dry (set_sigs s l).
Proof. intros []. by split. Qed.

Lemma dry_main_step_dry h w a a' : dry_agent h a ->
  dry_main_step dag true requestID logDir logFile fmt_rfc3339 pid w a = Some a' -> dry_agent h a'.
Proof.
  intros [H1 H2 H3 H4 H5 H6]. unfold dry_main_step, main_step. destruct (a_main a) as [| |e| | | | | | | |e] eqn:E; try done.
  - destruct (Schedule _ _ _ _ _) as [s'|] eqn:Hs; [|done]. intros [= <-].
    split; simpl; try done. by apply set_sigs_dry, (scheduled_dry _ _ _ H5 Hs).
  - destruct (main (a_sched a)) eqn:Hm; try done. intros [= <-]. split; simpl; try done. by apply (dr_main _ H5).
  - intros [= <-]. by split.
Qed.

Lemma node_of_dry s n nd : dry s -> node_of n s = Some nd -> node_Status nd <> NodeStatusError.
Proof.
  intros [H1 H2 H3 H4 H5]. destruct n as [id|ht]; simpl.
  - intros Hn. specialize (H2 id). unfold status_of in H2. by rewrite Hn in H2.
  - unfold HandlerNode. intros ([ht' n] & Hf & ->)%fmap_Some. apply find_some in Hf as [Hin _].
    rewrite Forall_forall in H3. apply list_elem_of_In in Hin. by apply (H3 _ Hin).
Qed.

Lemma dry_reader_step_dry h a a' : dry_agent h a ->
  dry_reader_step dag requestID logFile fmt_rfc3339 pid a = Some a' -> dry_agent h a'.
Proof.
  intros [H1 H2 H3 H4 H5 H6]. unfold dry_reader_step, reader_step. destruct (a_reader a) as [|n| |n st|] eqn:E; try done.
  - destruct (done_closed _); intros; simplify_eq. by split.
  - intros [= <-]. by split.
  - destruct (node_of n (a_sched a)) as [nd|] eqn:Hn; [|done]. unfold reportStep.
    rewrite bool_decide_eq_false_2 by by apply (node_of_dry _ _ _ H5 Hn). intros [= <-]. split; simpl; try done.
    by rewrite app_nil_r.
Qed.

Lemma dreachable_dry h a a' : dry_agent h a -> dreachable a a' -> dry_agent h a'.
Proof.
  intros Ha H. induction H as [|a a1 a' (w & b & H) _ IH]; [done|]. apply IH. clear IH. destruct b; simpl in H; try done.
  - by apply (dry_main_step_dry h w a).
  - by apply (dry_reader_step_dry h a).
  - by apply (sched_dry h w x a).
  - by apply (sched_dry h w _ a) in H.
Qed.

(** C19: a dry run leaves nothing behind.  Of a run that was asked to be dry and is no
    retry, whatever the interleaving and the signals: the history is as it was and no
    operation on it was done, no socket listens, no mail is sent; no step ever has a
    command or an error; two worlds that agree on the time, the conditions, the
    variables of the steps and on what continues cannot be told apart, so that neither
    the set-up, the commands nor the tear-down of a step have any part in it; and the
    run returns no error. *)
Theorem dry_run_leaves_nothing order p1 p2 md5hex (k : ask) (h : W) (s : Sched.state) (a : agent W) :
  launch dag true None requestID logFile order fmt_rfc3339 p1 p2 pid md5hex k h = DryRun s ->
  dreachable (dry_start s h) a ->
  a_hist a = h /\ a_trace a = [] /\ a_mails a = [] /\ a_listening a = false /\
  (forall i id c p cmd, threads (a_sched a) !! i = Some (id, (c, p)) -> p <> PRun cmd) /\
  (forall id, status_of (graph (a_sched a)) id <> NodeStatusError) /\
  (forall w w' x, same_questions w w' ->
     act cfg true run_context w x (a_sched a) = act cfg true run_context w' x (a_sched a)) /\
  (forall e, a_main a = PReturned e -> e = None).
Proof.
  intros Hl Hr. assert (dry_agent h (dry_start s h)) as H0.
  { unfold launch in Hl. destruct (agent_setup _ _ _ _ _) as [[g|]|] eqn:Hg; try done. apply agent_setup_graph in Hg.
    destruct (checkPreconditions _ _ _ _); [done|]. injection Hl as <-. split; simpl; try done.
    split; simpl; try done; [|by intros ? [= <-]]. by apply (setupGraph_not_error order dag p1 p2). }
  destruct (dreachable_dry h _ _ H0 Hr) as [H1 H2 H3 H4 H5 H6]. split_and!; try done.
  - intros i id c p cmd Hi. pose proof (Forall_lookup_1 _ _ _ _ (dr_threads _ H5) Hi) as Hp. by destruct p.
  - apply (dr_nodes _ H5).
  - intros w w' x Hq. by apply (act_alike cfg true run_context eq_refl).
  - intros e He. by rewrite He in H6.
Qed.
End dry_run.

(** A dry run of one step, to its end. *)
Section dry_drive.
Context (dag : DAG.t).

Fixpoint dry_drive (fuel : nat) (a : agent unit) : agent unit :=
  match fuel with
  | 0 => a
  | S fuel => match dact (HistoryStore0 := NoStore) dag true "r1" "/logs" "/logs/run.log" pretty 7 ok_world (next_move a) a with
              | Some a' => dry_drive fuel a'
              | None => a
              end
  end.

Lemma dry_drive_reachable fuel a :
  dreachable (HistoryStore0 := NoStore) dag true "r1" "/logs" "/logs/run.log" pretty 7 a (dry_drive fuel a).
Proof.
  revert a. induction fuel as [|n IH]; intros a; simpl; [apply rtc_refl|].
  destruct (dact _ _ _ _ _ _ _ _ (next_move a) a) as [a'|] eqn:E; [|apply rtc_refl].
  eapply rtc_l; [|apply IH]. by exists ok_world, (next_move a).
Qed.

Definition dry_launched : @launched unit :=
  launch (HistoryStore0 := NoStore) dag true None "r1" "/logs/run.log" run_order pretty (fun _ => None) (fun _ => None) 7 (fun _ => "m") run_ask tt.

Definition dry_launched_state : Sched.state :=
  match dry_launched with DryRun s => s | _ => unstarted empty_graph end.
Lemma dry_launched_ok : (match dry_launched with DryRun _ => true | _ => false end) = true ->
  dry_launched = DryRun dry_launched_state.
Proof. unfold dry_launched_state. by destruct dry_launched. Qed.
End dry_drive.

Definition dry_end : agent unit := dry_drive one_step_dag 200 (dry_start (dry_launched_state one_step_dag) tt).

Lemma dry_run_leaves_nothing_witness :
  (node_Status <$> Nodes (graph (a_sched dry_end))) = [NodeStatusSuccess] /\ a_main dry_end = PReturned None /\
  a_trace dry_end = [] /\ a_mails dry_end = [].
Proof.
  split; [vm_compute; reflexivity|]. split; [vm_compute; reflexivity|].
  destruct (dry_run_leaves_nothing (HistoryStore0 := NoStore) one_step_dag "r1" "/logs" "/logs/run.log" pretty 7
    run_order (fun _ => None) (fun _ => None) (fun _ => "m") run_ask tt (dry_launched_state one_step_dag) dry_end)
    as (_ & Ht & Hm & _).
  - refine (dry_launched_ok one_step_dag _). vm_compute. reflexivity.
  - apply (dry_drive_reachable one_step_dag 200).
  - exact (conj Ht Hm).
Defined.

(** The dry run of a step that repeats goes round: it comes back to the top of the
    step's loop again and again, and only a signal ends it. *)
Definition repeating_dag : DAG.t :=
  DAG.set_Steps one_step_dag [Step.set_RepeatPolicy (named_step "a" []) (RepeatPolicy.mk true 0)].

Example dry_run_repeats :
  let a n := dry_drive repeating_dag n (dry_start (dry_launched_state repeating_dag) tt) in
  let place n := (fun t => snd (snd t)) <$> threads (a_sched (a n)) in
  place 30 = place 100 /\ place 30 = place 870 /\ place 30 = [PLoop true].
Proof. vm_compute. auto. Qed.
