(* ===== verification/AgentEnds.v ===== *)
(** * A run of the agent can always return

    The agent around the scheduler: its channel of notifications is not buffered,
    so a goroutine of the scheduler waits for the reader.  From every state a run
    can reach it can return, unless the reader has died of a panic. *)

From stdpp Require Import pretty.
From S2P Require Import Prelude GoStrings Vars Digraph NodeData Contexts Node Graph GraphProps Sched SchedInv SchedOrder SchedLimit SchedResult SchedReady SchedCancel SchedProps SchedEnds Model History Stores Client JsonStore Reporter Agent AgentRun AgentProps.

(** ** The scheduler before its loop *)

(** Nothing runs, and the retries are within their limits. *)
Definition fresh (strs : list string) (L : Z) (s : state) : Prop :=
  (forall id n, node (graph s) id = Some n -> within strs L n) /\
  (forall id, status_of (graph s) id <> NodeStatusRunning).

Lemma sig_step_mild i s s' : sig_step i s = Some s' -> mild (graph s) (graph s') /\ threads s' = threads s.
Proof.
  unfold sig_step. destruct (sigs s !! i) as [p|]; [|done].
  destruct (sigstep (graph s) p) as [[flag mark] next]. intros [= <-].
  split; destruct flag, mark; simpl; first [apply mild_refl|by apply mild_status|done].
Qed.

Lemma fresh_mild strs L s s' :
  mild (graph s) (graph s') -> no_start (graph s) (graph s') -> fresh strs L s -> fresh strs L s'.
Proof.
  intros [_ Hm] [_ Hns] [Hw Hr]. split; [|intros id Hid; by apply (Hr id), Hns].
  intros id n' Hn'. destruct (Hm id n' Hn') as (n & Hn & Hsame & _). eapply within_same; [exact Hsame|by eapply Hw].
Qed.

(** Before the loop only calls of [Signal] move, and none sends. *)
Lemma act_fresh cfg ctx0 strs L g w x s s' :
  pre g s -> fresh strs L s -> act cfg true ctx0 w x s = Some s' -> fresh strs L s' /\ sent s' = sent s.
Proof.
  intros [_ Ht (e & Hm) _ _ _] Hf. destruct x; simpl.
  - unfold mstep. by rewrite Hm.
  - unfold thread_step. by rewrite Ht.
  - intros H. destruct (sig_step_mild i s s' H) as [Hmild _]. destruct (sig_step_no_start i s s' H) as [Hns _].
    split; [by eapply fresh_mild|]. unfold sig_step in H. destruct (sigs s !! i) as [p|]; [|done].
    destruct (sigstep (graph s) p) as [[flag mark] next]. injection H as <-. by destruct flag, mark.
  - by intros [= <-].
  - by intros [= <-].
Qed.

(** The loop starts on a graph it can end on. *)
Lemma Schedule_starts cfg strs L w g s s' :
  startable strs L g -> pre g s -> fresh strs L s -> Schedule cfg w (canceled s) (lastError s) (graph s) = Ok s' ->
  startable strs L (graph s) /\ sound strs L (graph s) (set_sigs s' (sigs s)).
Proof.
  intros Hg Hpre [Hw Hr] Hs. pose proof (pre_graph _ _ Hpre) as Hsame.
  assert (startable strs L (graph s)) as Hst.
  { split; [eapply good_same_graph; [exact Hsame|apply Hg]|rewrite (sg_nodes _ _ Hsame); apply Hg|done|done]. }
  split; [done|]. pose proof (Schedule_sound _ _ _ _ _ _ _ _ Hst Hs) as Hsound.
  destruct Hsound as [Hi Hq H1 H2 H3 H4 H5]. split; try done.
  - apply (inv_sigs (graph s) _ false (sigs s)), Hi.
  - destruct Hq as [? _ ?]. split; [done| |done]. simpl. intros Hc. apply (pre_sigs _ _ Hpre).
    unfold Schedule in Hs. destruct (setup_error cfg w); [done|]. by simplify_eq.
Qed.

(** ** What is sent has a node *)

Lemma HandlerNode_set s h h' n g c e ts m l st :
  is_Some (HandlerNode s h) -> is_Some (HandlerNode (mkState g c e (set_handler h' n (handlers s)) ts m l st) h).
Proof.
  unfold HandlerNode. simpl. unfold set_handler. induction (handlers s) as [|[k nd] hs IH]; simpl; [done|].
  destruct (bool_decide (k = h')) eqn:E'; simpl.
  - apply bool_decide_eq_true in E' as ->. destruct (bool_decide (h' = h)); [by eexists|exact IH].
  - destruct (bool_decide (k = h)); [by eexists|exact IH].
Qed.

Lemma act_handlers cfg ctx0 w x s s' h :
  act cfg true ctx0 w x s = Some s' -> is_Some (HandlerNode s h) -> is_Some (HandlerNode s' h).
Proof.
  intros H Hh. destruct x; simpl in H; [|..|by simplify_eq|by simplify_eq].
  - unfold mstep in H. destruct (main s); repeat case_match; simplify_eq; try exact Hh; by apply HandlerNode_set.
  - unfold thread_step in H. repeat case_match; try done. by apply fmap_Some in H as (ef & _ & ->).
  - unfold sig_step in H. destruct (sigs s !! i) as [p|]; [|done].
    by destruct (sigstep (graph s) p) as [[[] []] ?]; simplify_eq.
Qed.

Lemma inv_some g0 s s' id :
  inv g0 s -> inv g0 s' -> is_Some (node (graph s) id) -> is_Some (node (graph s') id).
Proof.
  intros H H'. unfold node. rewrite <- !elem_of_dom.
  by rewrite (sg_dom _ _ (inv_graph _ _ H)), (sg_dom _ _ (inv_graph _ _ H')).
Qed.

Lemma act_node_of cfg ctx0 g0 w x s s' n :
  inv g0 s -> inv g0 s' -> act cfg true ctx0 w x s = Some s' -> is_Some (node_of n s) -> is_Some (node_of n s').
Proof. intros H H' Ha. destruct n; simpl; [by eapply inv_some|by eapply act_handlers]. Qed.

(** A move that sends sends a node that is there. *)
Lemma act_sender cfg ctx0 w x s s' :
  act cfg true ctx0 w x s = Some s' -> length (sent s') <> length (sent s) -> is_Some (node_of (sender x s) s).
Proof.
  intros H Hl. destruct x; simpl in H; [|..|by simplify_eq|by simplify_eq].
  - unfold mstep in H. unfold sender. destruct (main s); repeat case_match; simplify_eq; first [done | by eexists].
  - unfold sender. assert (node_of (RefStep (from_option fst 0%Z (threads s !! i))) s = node (graph s) (from_option fst 0%Z (threads s !! i))) as Hn by done.
    unfold thread_step in H. destruct (threads s !! i) as [[u [c p]]|]; [|done]. simpl in *.
    destruct (node (graph s) u) as [nd|] eqn:E; [|done]. destruct (main s); simpl; rewrite ?E; by eexists.
  - unfold sig_step in H. destruct (sigs s !! i) as [p|]; [|done].
    by destruct (sigstep (graph s) p) as [[[] []] ?]; simplify_eq.
Qed.

(** ** The run *)

Section run.
Context {W : Type} `{!HistoryStore W}.
Context (dag : DAG.t) (requestID logDir logFile : string).
Context (fmt_rfc3339 : Z -> string) (pid : Z) (marshal : MStatus.t -> result string).

Abbreviation newScheduler := (newScheduler dag false requestID logDir).
Abbreviation run_context := (run_context dag requestID logFile).
Abbreviation main_step := (main_step dag false requestID logDir logFile fmt_rfc3339 pid).
Abbreviation reader_step := (reader_step dag requestID logFile fmt_rfc3339 pid).
Abbreviation first_step := (first_step dag requestID logFile fmt_rfc3339 pid).
Abbreviation sched_step := (sched_step dag false requestID logDir logFile).
Abbreviation aact := (aact dag false requestID logDir logFile fmt_rfc3339 pid marshal).
Abbreviation areachable := (areachable dag false requestID logDir logFile fmt_rfc3339 pid marshal).

(** The graph of the run: it can be started, and its limits are 64-bit integers. *)
Context (strs : list string) (L : Z) (g : ExecutionGraph).
Context (Hg : startable strs L g) (HL : (0 <= L < 2 ^ 63)%Z) (Hw : forall w, limits_under strs L w).
Context (Hclosed : closed_graph g) (Hkeyed : keyed g).

(** The node of the notification the reader has in its hands. *)
Definition reader_node (a : agent W) : Prop :=
  match a_reader a with
  | RGot n | RWrite n _ | RReport n _ => is_Some (node_of n (a_sched a))
  | RIdle | REnd => True
  end.

(** What holds while the scheduler has not returned. *)
Definition going (a : agent W) : Prop :=
  match a_main a with
  | PSchedule => pre g (a_sched a) /\ fresh strs L (a_sched a) /\ a_reader a = RIdle
  | PScheduling =>
      reader_node a /\
      exists g0, same_graph g g0 /\ startable strs L g0 /\ sound strs L g0 (a_sched a)
  | _ => True
  end.

Lemma sched_step_going w x a a' : going a -> sched_step w x a = Some a' -> going a'.
Proof.
  unfold going, sched_step. destruct (act newScheduler true run_context w x (a_sched a)) as [s'|] eqn:Ha; [|done].
  destruct (a_main a) eqn:Hm; intros Hgo.
  1:{ destruct Hgo as (Hpre & Hf & Hr). destruct (act_fresh _ _ strs L g w x _ s' Hpre Hf Ha) as [Hf' ->].
      rewrite Nat.eqb_refl. intros [= <-]. simpl. rewrite Hm. split_and!; [by eapply act_pre|done|done]. }
  1:{ destruct Hgo as (Hr & g0 & Hsame & Hst & Hs).
      destruct (act_sound newScheduler run_context strs L g0 (st_good _ _ _ Hst) (st_nodup _ _ _ Hst) HL w x _ s' (Hw w) Hs Ha) as [Hs' _].
      pose proof (fun n => act_node_of newScheduler run_context g0 w x _ s' n (so_inv _ _ _ _ Hs) (so_inv _ _ _ _ Hs') Ha) as Hn.
      destruct (Nat.eqb_spec (length (sent s')) (length (sent (a_sched a)))) as [E|E].
      - intros [= <-]. simpl. rewrite Hm. split; [|by exists g0]. unfold reader_node in *. simpl. destruct (a_reader a); auto.
      - destruct (a_reader a); try done. intros [= <-]. simpl. rewrite Hm. split; [|by exists g0].
        unfold reader_node. simpl. apply Hn. by eapply act_sender. }
  all: destruct (_ =? _)%nat; [|destruct (a_reader a); try done]; intros [= <-]; simpl; by rewrite Hm.
Qed.

Lemma main_step_going w a a' : going a -> main_step w a = Some a' -> going a'.
Proof.
  unfold going, Agent.main_step. destruct (a_main a) eqn:Hm; intros Hgo;
    try (repeat case_match; try done; intros [= <-]; done).
  destruct Hgo as (Hpre & Hf & Hr). destruct (Schedule _ _ _ _ _) as [s'|e] eqn:Hs; intros [= <-]; simpl; [|done].
  destruct (Schedule_starts _ _ _ _ _ _ _ Hg Hpre Hf Hs) as [Hst Hs'].
  split; [unfold reader_node; simpl; by rewrite Hr|]. exists (graph (a_sched a)). split; [apply Hpre|done].
Qed.

Lemma reader_step_going a a' : going a -> reader_step a = Some a' -> going a'.
Proof.
  unfold going, Agent.reader_step, reader_node. intros Hgo.
  destruct (a_reader a) eqn:Hr; try done.
  - destruct (a_main a) eqn:Hm; simpl; try done; intros [= <-]; simpl; by rewrite Hm.
  - intros [= <-]. simpl. destruct (a_main a); try done. by destruct Hgo as (_ & _ & ?).
  - intros [= <-]. simpl. destruct (a_main a); try done; [by destruct Hgo as (_ & _ & ?)|].
    destruct Hgo as [? ?]. by destruct (panicked _).
  - destruct (node_of n (a_sched a)); [|done]. destruct (reportStep dag st n0); intros [= <-]; simpl;
      (destruct (a_main a); try done; [by destruct Hgo as (_ & _ & ?)|by destruct Hgo]).
Qed.

Lemma aact_going w b a a' : going a -> aact w b a = Some a' -> going a'.
Proof.
  intros Hgo. destruct b; simpl.
  - by apply main_step_going.
  - by apply reader_step_going.
  - unfold Agent.first_step. by destruct (a_first a); intros [= <-].
  - by apply sched_step_going.
  - destruct (a_listening a); [|done]. destruct (snd _); [by apply sched_step_going|by intros [= <-]].
  - by apply sched_step_going.
Qed.

Lemma areachable_going a a' : going a -> areachable a a' -> going a'.
Proof. intros Hgo Hr. induction Hr as [|a1 a2 a3 (w & b & _ & Hb) _ IH]; [done|]. apply IH. by eapply aact_going. Qed.

(** ** Its own moves *)

(** A move of the run itself: no signal, no request, not the delayed first write. *)
Definition own_turn (b : aaction) : Prop :=
  match b with BMain | BReader | BSched AMain | BSched (AThread _) => True | _ => False end.

Context (w : world).

Definition own (a a' : agent W) : Prop := exists b, own_turn b /\ aact w b a = Some a'.

Lemma own_going a a' : going a -> rtc own a a' -> going a'.
Proof. intros Hgo Hr. induction Hr as [|a1 a2 a3 (b & _ & Hb) _ IH]; [done|]. apply IH. by eapply aact_going. Qed.

(** The reader deals with what it has, or dies. *)
Lemma reader_rests a :
  going a -> a_main a = PScheduling ->
  exists a', rtc own a a' /\ a_sched a' = a_sched a /\ a_main a' = PScheduling /\ (a_reader a' = RIdle \/ a_reader a' = REnd).
Proof.
  assert (forall n st a, a_main a = PScheduling -> a_reader a = RReport n st -> is_Some (node_of n (a_sched a)) ->
    exists a', rtc own a a' /\ a_sched a' = a_sched a /\ a_main a' = PScheduling /\ (a_reader a' = RIdle \/ a_reader a' = REnd)) as Hreport.
  { clear. intros n st a Hm Hr [nd Hn].
    assert (exists a', reader_step a = Some a' /\ a_sched a' = a_sched a /\ a_main a' = PScheduling /\ (a_reader a' = RIdle \/ a_reader a' = REnd))
      as (a' & Hs & ?).
    { unfold Agent.reader_step. rewrite Hr, Hn. destruct (reportStep dag st nd); eexists; split; try done; auto. }
    exists a'. split; [|done]. apply rtc_once. by exists BReader. }
  assert (forall n st a, a_main a = PScheduling -> a_reader a = RWrite n st -> is_Some (node_of n (a_sched a)) ->
    exists a', rtc own a a' /\ a_sched a' = a_sched a /\ a_main a' = PScheduling /\ (a_reader a' = RIdle \/ a_reader a' = REnd)) as Hwrite.
  { clear -Hreport. intros n st a Hm Hr Hn. eassert (reader_step a = Some _) as Hs by (unfold Agent.reader_step; by rewrite Hr).
    destruct (panicked _).
    - eexists. split; [apply rtc_once; by exists BReader|]. split_and!; [done|done|by right].
    - edestruct (Hreport n st) as (a' & Hr' & Hsc & ?); [| | |exists a'; split; [eapply rtc_l; [by exists BReader|exact Hr']|]]; done. }
  intros Hgo Hm. unfold going in Hgo. rewrite Hm in Hgo. destruct Hgo as (Hn & _). unfold reader_node in Hn.
  destruct (a_reader a) eqn:Hr; [by exists a; split; [apply rtc_refl|auto]| |by eapply Hwrite|by eapply Hreport|by exists a; split; [apply rtc_refl|auto]].
  eassert (reader_step a = Some _) as Hs by (unfold Agent.reader_step; by rewrite Hr).
  edestruct Hwrite as (a' & Hr' & Hsc & ?); [| | |exists a'; split; [eapply rtc_l; [by exists BReader|exact Hr']|]]; try done.
Qed.

(** The moves of the scheduler are moves of the run, with the reader in between. *)
Lemma sched_runs s s' :
  rtc (own_step newScheduler run_context w) s s' -> forall a, a_sched a = s -> going a -> a_main a = PScheduling ->
  exists a', rtc own a a' /\ going a' /\ a_main a' = PScheduling /\ (a_sched a' = s' \/ a_reader a' = REnd).
Proof.
  induction 1 as [s|s s1 s' (x & Hx & Hact) _ IH]; intros a Ha Hgo Hm.
  { exists a. split; [apply rtc_refl|]. auto. }
  destruct (reader_rests a Hgo Hm) as (a1 & Hr1 & Hs1 & Hm1 & [Hi|He]);
    [|exists a1; split; [done|]; split_and!; [by eapply own_going|done|by right]].
  assert (exists a2, sched_step w x a1 = Some a2 /\ a_sched a2 = s1 /\ a_main a2 = PScheduling) as (a2 & Hst & Hs2 & Hm2).
  { unfold Agent.sched_step. rewrite Hs1, Ha, Hact, Hi.
    destruct (_ =? _)%nat; eexists; split; done. }
  assert (own a1 a2) as Hown.
  { exists (BSched x). split; [|done]. by destruct x. }
  destruct (IH a2 Hs2) as (a' & Hr & ?); [|done|].
  - eapply own_going; [|by apply rtc_once]. by eapply own_going.
  - exists a'. split; [|done]. etrans; [exact Hr1|]. by eapply rtc_l.
Qed.

(** After the scheduler nothing blocks. *)
Definition turns_after (p : apc) : nat :=
  match p with
  | PReturned _ => 0 | PCloseHist _ => 1 | PShutdown _ => 2 | PCloseDone _ => 3 | PFinished _ => 4
  | PSend _ _ => 5 | PFinalWrite _ _ _ => 6 | PFinalTake _ _ => 7 | PScheduled _ => 8
  | PScheduling => 9 | PSchedule => 10
  end.

Lemma after_returns k : forall a, turns_after (a_main a) < k -> turns_after (a_main a) <= 8 ->
  exists a' e, rtc own a a' /\ a_main a' = PReturned e.
Proof.
  induction k as [|k IH]; intros a Hk H8; [lia|].
  assert (turns_after (a_main a) = 0 \/
    exists a1, main_step w a = Some a1 /\ turns_after (a_main a1) < turns_after (a_main a)) as [H0|(a1 & H1 & Hlt)].
  { unfold Agent.main_step. destruct (a_main a) eqn:Hm; simpl in *; try lia;
      try (right; eexists; split; [reflexivity|]; simpl; lia).
    right. destruct (send dag finishedStatus e); eexists; (split; [reflexivity|]); simpl; lia. }
  - exists a. destruct (a_main a) eqn:Hm; try done. eexists. split; [apply rtc_refl|done].
  - destruct (IH a1) as (a' & e & Hr & ?); [lia..|]. exists a', e. split; [|done].
    eapply rtc_l; [by exists BMain|done].
Qed.

(** The body of [Run] has returned, or the reader has died while it was needed. *)
Definition over (a : agent W) : Prop :=
  (exists e, a_main a = PReturned e) \/ (a_reader a = REnd /\ done_closed (a_main a) = false).

Lemma scheduling_over a :
  going a -> a_main a = PScheduling -> canceled (a_sched a) = true \/ no_repeats g ->
  exists a', rtc own a a' /\ over a'.
Proof.
  intros Hgo Hm Hends. pose proof Hgo as Hgo'. unfold going in Hgo'. rewrite Hm in Hgo'.
  destruct Hgo' as (_ & g0 & Hsame & Hst & Hs).
  assert (canceled (a_sched a) = true \/ no_repeats g0) as Hends0.
  { destruct Hends as [?|Hno]; [by left|right]. by eapply no_repeats_same. }
  assert (closed_graph g0) as Hc0 by (by eapply closed_same_graph).
  assert (keyed g0) as Hk0 by (by eapply keyed_same).
  destruct (sound_returns newScheduler run_context strs L g0 Hst HL Hc0 Hk0 w (Hw w)
    (Z.to_nat (work L (a_sched a) + 1)) (a_sched a)) as (s' & e & Hr & Hm' & _); [|done|done|].
  { pose proof (work_nonneg L (a_sched a)). lia. }
  destruct (sched_runs _ _ Hr a eq_refl Hgo Hm) as (a1 & Hr1 & Hgo1 & Hm1 & [Hs1|He]).
  - assert (main_step w a1 = Some (set_a_main a1 (PScheduled e))) as Hstep.
    { unfold Agent.main_step. by rewrite Hm1, Hs1, Hm'. }
    destruct (after_returns 9 (set_a_main a1 (PScheduled e))) as (a' & e' & Hr' & ?); [simpl; lia..|].
    exists a'. split; [|left; by eexists]. etrans; [exact Hr1|]. eapply rtc_l; [by exists BMain|done].
  - exists a1. split; [done|]. right. by rewrite Hm1.
Qed.

Lemma going_over a :
  going a -> canceled (a_sched a) = true \/ no_repeats g -> exists a', rtc own a a' /\ over a'.
Proof.
  intros Hgo Hends.
  assert (turns_after (a_main a) <= 8 \/ a_main a = PScheduling \/ a_main a = PSchedule) as [H8|[Hm|Hm]]
    by (destruct (a_main a); simpl; auto; left; lia).
  - destruct (after_returns (S (turns_after (a_main a))) a) as (a' & e & Hr & ?); [lia|done|].
    exists a'. split; [done|left; by eexists].
  - by apply scheduling_over.
  - assert (exists a1, main_step w a = Some a1 /\ canceled (a_sched a1) = canceled (a_sched a) /\
      (a_main a1 = PScheduling \/ exists e, a_main a1 = PScheduled e)) as (a1 & Hstep & Hc & Hm1).
    { unfold Agent.main_step. rewrite Hm. unfold Schedule. destruct (setup_error _ w) as [e|]; eexists;
        split; try done; split; try done; [right; by eexists|by left]. }
    assert (going a1) as Hgo1 by (by eapply main_step_going).
    destruct Hm1 as [Hm1|[e Hm1]].
    + destruct (scheduling_over a1 Hgo1 Hm1) as (a' & Hr & ?); [by rewrite Hc|].
      exists a'. split; [|done]. eapply rtc_l; [by exists BMain|done].
    + destruct (after_returns 9 a1) as (a' & e' & Hr & ?); [rewrite Hm1; simpl; lia..|].
      exists a'. split; [|left; by eexists]. eapply rtc_l; [by exists BMain|done].
Qed.

End run.

(** ** A run of a workflow *)

(** Writes to a history that was opened do not panic: the states it is in from the
    opening on, whatever they are, are kept by the writes. *)
Definition open_safe {W} `{!HistoryStore W} (dag : DAG.t) (requestID : string) : Prop :=
  exists is_open : W -> Prop,
    (forall timestamp h, snd (hs_Open (DAG.Location dag) timestamp requestID h) = None ->
       is_open (fst (hs_Open (DAG.Location dag) timestamp requestID h))) /\
    (forall st h, is_open h -> panicked (snd (hs_Write st h)) = false /\ is_open (fst (hs_Write st h))).

Section calm.
Context {W : Type} `{!HistoryStore W}.
Context (dag : DAG.t) (requestID logDir logFile : string).
Context (fmt_rfc3339 : Z -> string) (pid : Z) (marshal : MStatus.t -> result string).
Context (is_open : W -> Prop).
Context (Hwrite : forall st h, is_open h -> panicked (snd (hs_Write st h)) = false /\ is_open (fst (hs_Write st h))).
Context (Hmail : is_Some (DAG.ErrorMail dag)).

Abbreviation aact := (aact dag false requestID logDir logFile fmt_rfc3339 pid marshal).

(** The reader ends only when the channel is closed, and the history is open until
    the body returns. *)
Definition reader_alive (a : agent W) : Prop := a_reader a = REnd -> done_closed (a_main a) = true.
Definition still_open (a : agent W) : Prop := is_open (a_hist a) \/ exists e, a_main a = PReturned e.
Definition alive (a : agent W) : Prop := reader_alive a /\ still_open a.

Lemma sched_step_alive w x (a a' : agent W) :
  alive a -> sched_step dag false requestID logDir logFile w x a = Some a' -> alive a'.
Proof.
  unfold alive, reader_alive, still_open, sched_step. destruct (act _ _ _ _ _ _) as [s'|]; [|done].
  destruct (_ =? _)%nat; [by intros H [= <-]|]. by destruct (a_reader a); intros [_ H] [= <-].
Qed.

Lemma write_open who st (a : agent W) : is_open (a_hist a) -> is_open (a_hist (do_op dag requestID (OWrite who st) a)).
Proof. apply Hwrite. Qed.

Lemma main_step_alive w (a a' : agent W) : alive a -> aact w BMain a = Some a' -> alive a'.
Proof.
  intros [Ha [Ho|[e He]]]; simpl; unfold main_step.
  - unfold alive, reader_alive, still_open in *. destruct (a_main a); repeat case_match; try done; intros [= <-]; simpl in *;
      (split; [by intros Hr; specialize (Ha Hr)|]); first [by left | by right; eexists | left; exact (proj2 (Hwrite _ _ Ho))].
  - by rewrite He.
Qed.

Lemma reader_step_alive w (a a' : agent W) : alive a -> aact w BReader a = Some a' -> alive a'.
Proof.
  destruct Hmail as [m Hm]. unfold alive, reader_alive, still_open. intros [Ha Ho]. simpl. unfold reader_step.
  destruct (a_reader a) eqn:Hr; [| | | |done].
  - destruct (done_closed (a_main a)) eqn:Hd; [|done]. by intros [= <-].
  - by intros [= <-].
  - unfold hist_do. intros [= <-]. simpl. destruct Ho as [Ho|[e He]].
    + destruct (Hwrite st _ Ho) as [-> Ho']. split; [done|by left].
    + rewrite He. split; [done|right; by eexists].
  - destruct (node_of n (a_sched a)) as [nd|]; [|done]. unfold reportStep, mail_of. rewrite Hm.
    destruct (_ && _); by intros [= <-].
Qed.

Lemma aact_alive w b (a a' : agent W) : alive a -> aact w b a = Some a' -> alive a'.
Proof.
  intros Ha. destruct b.
  - by apply main_step_alive.
  - by apply reader_step_alive.
  - simpl. unfold first_step. destruct (a_first a); intros [= <-]; [exact Ha|].
    destruct Ha as [Ha [Ho|He]]; (split; [exact Ha|]); [left; by apply write_open|right; exact He].
  - by apply sched_step_alive.
  - simpl. destruct (a_listening a); [|done]. destruct (snd _); [by apply sched_step_alive|by intros [= <-]].
  - by apply sched_step_alive.
Qed.

Lemma moves_alive (R : agent W -> agent W -> Prop) a a' :
  (forall x y, R x y -> exists w b, aact w b x = Some y) -> rtc R a a' -> alive a -> alive a'.
Proof.
  intros HR. induction 1 as [|a1 a2 a3 H12 _ IH]; [done|]. intros Ha. destruct (HR _ _ H12) as (w & b & Hb).
  apply IH. by eapply aact_alive.
Qed.

(** A run that came alive has opened its history. *)
Lemma launch_alive retry order p1 p2 md5hex k h a0
    (Hopen : forall timestamp h, snd (hs_Open (DAG.Location dag) timestamp requestID h) = None ->
       is_open (fst (hs_Open (DAG.Location dag) timestamp requestID h))) :
  launch dag false retry requestID logFile order fmt_rfc3339 p1 p2 pid md5hex k h = Live a0 -> ask_listen k = None -> alive a0.
Proof.
  unfold launch. repeat case_match; try done. unfold open_history, setupDatabase. cbv zeta.
  match goal with |- context[hist_do ?d ?r ?op ?w] => destruct (snd (hist_do d r op w)) eqn:E; [done|]; pose proof (Hopen _ _ E) as Ho end.
  intros [= <-] ->. split; [done|]. left. exact (proj2 (Hwrite _ _ Ho)).
Qed.

End calm.

(** The store of the program is such a history, when neither encoding nor writing
    a file answers with a panic. *)
Lemma JSONDB_open_safe marshal unmarshal baseDir md5hex fmt_utc p1 p2 latestStatusToday o jitter days_ago dag requestID
    (Hmarshal : forall st e, marshal st = Err e -> panicked (Some e) = false)
    (Hos : forall p n e, os_write o p = Some (n, e) -> panicked (Some e) = false) :
  open_safe (HistoryStore0 := JSONDB marshal unmarshal baseDir md5hex fmt_utc p1 p2 latestStatusToday o jitter days_ago)
    dag requestID.
Proof.
  exists (fun h => is_Some (h_writer h)). split.
  - intros t h. simpl. unfold db_Open. simpl. destruct (generateFilePath _ _ _ _ _ _) as [p|x]; [|done].
    destruct (writer_open o _ _) as [f [w [x|]]]; [done|]. intros _. by eexists.
  - intros st h [w Hw]. simpl. unfold db_Write. simpl. rewrite Hw.
    assert (panicked (snd (writer_write marshal o (h_fs h) w st)) = false) as H.
    { unfold writer_write. destruct (w_closed w); [done|]. destruct (w_opened w); [|done]. simpl.
      destruct (marshal st) as [j|e] eqn:Ej; [|by eapply Hmarshal].
      destruct (os_write o _) as [[n e]|] eqn:Eo; [by eapply Hos|done]. }
    destruct (writer_write marshal o (h_fs h) w st) as [f e]. split; [exact H|]. by eexists.
Qed.

(** C22: a run of a workflow, not a retry, can always return when its socket could
    be listened on, no step both repeats and continues on failure, and the retry
    limits are 64-bit integers.  From every state that a run which came alive can
    reach, whatever the interleaving of its body, its reader of notifications, the
    first write, the scheduler with its goroutines, requests and signals, and
    whatever the commands did: when no step repeats, or the run has been cancelled,
    the body, the reader, the scheduler and the goroutines can bring [Run] to its
    return, whatever the outside answers from then on, unless the reader, which
    every send of the scheduler waits for, has died of a panic; and it never does
    when writing to an opened history does not panic, as in the store of the program
    ([JSONDB_open_safe]), and failed steps can be reported. *)
Theorem agent_run_can_return {W : Type} `{!HistoryStore W} (dag : DAG.t) (requestID logDir logFile : string)
    (order : Z -> nat -> list Z) (fmt : Z -> string) (p1 p2 : string -> option Z) (pid : Z)
    (md5hex : string -> string) (marshal : MStatus.t -> result string) (k : ask) (h : W) (a0 a : agent W) (w : world)
    (Horder : forall id i u, u ∈ order id i <-> u ∈ seqZ 1 (Z.of_nat (length (DAG.Steps dag))))
    (Hsteps : Forall (fun st =>
       RepeatPolicy.Repeat (Step.RepeatPolicy st) && ContinueOn.Failure (Step.ContinueOn st) = false /\
       (RetryPolicy.Limit (Step.RetryPolicy st) <= 2 ^ 63 - 1)%Z) (DAG.Steps dag))
    (Hlaunch : launch dag false None requestID logFile order fmt p1 p2 pid md5hex k h = Live a0)
    (Hlisten : ask_listen k = None)
    (Hreach : areachable dag false requestID logDir logFile fmt pid marshal a0 a)
    (Hends : canceled (a_sched a) = true \/ repeats_none (DAG.Steps dag)) :
  let own := own dag requestID logDir logFile fmt pid marshal w in
  (exists a', rtc own a a' /\ over a') /\
  (open_safe (W := W) dag requestID -> is_Some (DAG.ErrorMail dag) ->
   exists a' e, rtc own a a' /\ a_main a' = PReturned e).
Proof.
  intros own. assert (exists g, agent_setup dag None order p1 p2 = Some (Ok g)) as [g Hg].
  { unfold launch in Hlaunch. destruct (agent_setup _ _ _ _ _) as [[g|]|]; try done. by exists g. }
  assert (built (2 ^ 63 - 1) order 1 (DAG.Steps dag) g) as Hb.
  { split; [done|done|done|]. by apply agent_setup_graph in Hg. }
  assert (0 <= 2 ^ 63 - 1 < 2 ^ 63)%Z as HL by lia.
  pose proof (built_startable _ order 1 _ g (proj1 HL) Hb) as Hst.
  destruct (built_ready _ order 1 _ g Hb) as (_ & Hclosed & _).
  pose proof (built_keyed _ order 1 _ g Hb) as Hkeyed.
  pose proof (launch_ok dag None requestID logFile order fmt p1 p2 pid md5hex k h a0 g Hg Hlaunch Hlisten) as Hok.
  assert (a_main a0 = PSchedule /\ a_sched a0 = unstarted g /\ a_reader a0 = RIdle) as (Hm0 & Hs0 & Hr0).
  { unfold launch in Hlaunch. rewrite Hg in Hlaunch. destruct (checkPreconditions _ _ _ _); [done|].
    destruct (checkIsAlreadyRunning _ _ _); [done|]. unfold open_history in Hlaunch.
    destruct (setupDatabase _ _ _ _) as [a1 [e|]]; [done|]. injection Hlaunch as <-. by rewrite Hlisten. }
  assert (going (limit_strings (DAG.Steps dag)) (2 ^ 63 - 1) g a0) as Hgo0.
  { unfold going. rewrite Hm0. split_and!; [pose proof (ro_sched _ _ _ _ _ _ _ _ _ Hok) as Hp; by rewrite Hm0 in Hp| |done].
    rewrite Hs0. split; [apply Hst|]. intros id. apply (st_idle _ _ _ Hst). }
  assert (going (limit_strings (DAG.Steps dag)) (2 ^ 63 - 1) g a) as Hgo.
  { eapply areachable_going; [exact Hst|exact HL|exact (limits_under_int _)|exact Hgo0|exact Hreach]. }
  assert (canceled (a_sched a) = true \/ no_repeats g) as Hends0.
  { destruct Hends; [by left|right; by eapply built_no_repeats]. }
  destruct (going_over dag requestID logDir logFile fmt pid marshal _ _ g Hst HL (limits_under_int _) Hclosed Hkeyed w a Hgo Hends0)
    as (a' & Hr & Hover).
  split; [by exists a'|]. intros (is_open & Hopen & Hwrite) Hmail.
  destruct Hover as [[e He]|[He Hd]]; [by exists a', e|]. exfalso.
  pose proof (launch_alive dag requestID logFile fmt pid is_open Hwrite None order p1 p2 md5hex k h a0 Hopen Hlaunch Hlisten) as H0.
  pose proof (fun R x y => moves_alive dag requestID logDir logFile fmt pid marshal is_open Hwrite Hmail R x y) as Hmoves.
  assert (alive is_open a) as H1.
  { refine (Hmoves _ _ _ _ Hreach H0). intros x y (w1 & b1 & _ & H1). by exists w1, b1. }
  assert (alive is_open a') as [Halive _].
  { refine (Hmoves _ _ _ _ Hr H1). intros x y (b1 & _ & H2). by exists w, b1. }
  specialize (Halive He). congruence.
Qed.

(** The run of one step whose failures can be mailed, before the step executes. *)
Definition mailed_dag : DAG.t :=
  DAG.set_ErrorMail one_step_dag (Some (MailConfig.mk "" "" "" false)).

Definition mailed_launch : @launched hist :=
  launch (HistoryStore0 := run_store) mailed_dag false None "r1" "/logs/run.log" run_order pretty (fun _ => None) (fun _ => None) 7
    (fun _ => "m") run_ask run_hist.

Definition mailed_agent : agent hist :=
  match mailed_launch with
  | Live a => a
  | _ => mkAgent (unstarted empty_graph) run_hist [] (PReturned None) REnd FEnd false false []
  end.

Lemma mailed_agent_live :
  (match mailed_launch with Live _ => true | _ => false end) = true -> mailed_launch = Live mailed_agent.
Proof. unfold mailed_agent. by destruct mailed_launch. Qed.

Definition mailed_mid : agent hist := adrive (HistoryStore0 := run_store) mailed_dag "r1" run_marshal 11 mailed_agent.

Lemma agent_run_can_return_witness :
  ((fun t => snd (snd t)) <$> threads (a_sched mailed_mid)) = [PExec] /\
  exists a' e, rtc (own (HistoryStore0 := run_store) mailed_dag "r1" "/logs" "/logs/run.log" pretty 7 run_marshal ok_world)
    mailed_mid a' /\ a_main a' = PReturned e.
Proof.
  split; [vm_compute; reflexivity|].
  refine (proj2 (agent_run_can_return (HistoryStore0 := run_store) mailed_dag "r1" "/logs" "/logs/run.log" run_order pretty
    (fun _ => None) (fun _ => None) 7 (fun _ => "m") run_marshal run_ask run_hist mailed_agent mailed_mid ok_world _ _ _ _ _ _) _ _).
  - intros id i u. reflexivity.
  - repeat constructor. simpl. lia.
  - refine (mailed_agent_live _). vm_compute. reflexivity.
  - reflexivity.
  - apply (adrive_reachable (HistoryStore0 := run_store)).
  - right. by repeat constructor.
  - apply JSONDB_open_safe; done.
  - by eexists.
Defined.
