(* ===== verification/SockServer.v ===== *)
(** * The socket of a run: internal/sock server.go

    The goroutine that listens and accepts, one goroutine per connection, and
    the calls of [Shutdown], as steps on one state.  The system answers each step
    through a [sys]. *)

From S2P Require Import Prelude GoStrings Digraph Node Sched Agent.

Definition ErrServerRequestedShutdown : error := ENew "socket frontend is requested to shutdown".
Definition ErrClosed : error := ENew "use of closed network connection".

(** ** Answers (httpResponseWriter) *)

(** The writer of a connection: the status of the next answer, and the answers
    on the wire. *)
Record responseWriter := mkWriter { rw_statusCode : Z; rw_sent : list response }.

Definition newHTTPResponseWriter : responseWriter := mkWriter 200 [].
Definition WriteHeader (w : responseWriter) (statusCode : Z) : responseWriter := mkWriter statusCode (rw_sent w).

(** Every call is an answer of its own; no bytes are reported as written. *)
Definition Write (w : responseWriter) (data : string) : responseWriter * (Z * option error) :=
  (mkWriter (rw_statusCode w) (rw_sent w ++ [mkResponse (rw_statusCode w) data]), (0%Z, None)).

(** ** The state *)

Inductive listener := Absent | Open | Closed.

(** Where [Serve] is: listening, telling, accepting, with what it accepted,
    in its deferred calls, or returned. *)
Inductive serve_pc :=
| SvListen
| SvTell (e : option error)
| SvAccept
| SvAccepted (c : option string)
| SvShutdown (e : error)
| SvRemove (e : error)
| SvReturned (e : error).

(** Where the goroutine of a connection is; a request is its method and path. *)
Inductive conn_pc :=
| CnRead
| CnHandle (req : string * string)
| CnClose
| CnClosed.

Record conn := mkConn { cn_from : string; cn_pc : conn_pc; cn_writer : responseWriter }.

Record sock := mkSock {
  sk_pc : serve_pc;
  sk_quit : bool;
  sk_listener : listener;
  sk_conns : list conn;
  sk_told : list (option error);
  sk_file : bool
}.

(** [NewServer]; a socket file may be left from before. *)
Definition NewServer (file : bool) : sock := mkSock SvListen false Absent [] [] file.

Definition set_pc (s : sock) (p : serve_pc) : sock :=
  mkSock p (sk_quit s) (sk_listener s) (sk_conns s) (sk_told s) (sk_file s).
Definition set_conns (s : sock) (l : list conn) : sock :=
  mkSock (sk_pc s) (sk_quit s) (sk_listener s) l (sk_told s) (sk_file s).

(** What the system answers. *)
Record sys := mkSys {
  w_listen : option error;
  w_accept : result string;
  w_read : string -> result (string * string)
}.

Section server.
(** [handlerFunc]: what it does with the writer of a request. *)
Context (handlerFunc : string * string -> responseWriter -> responseWriter).

(** [Shutdown]; closing the listener removes its file. *)
Definition Shutdown (s : sock) : sock * option error :=
  if sk_quit s then (s, None)
  else match sk_listener s with
       | Absent => (mkSock (sk_pc s) true Absent (sk_conns s) (sk_told s) (sk_file s), None)
       | Open => (mkSock (sk_pc s) true Closed (sk_conns s) (sk_told s) false, None)
       | Closed => (mkSock (sk_pc s) true Closed (sk_conns s) (sk_told s) (sk_file s), Some ErrClosed)
       end.

(** What [Accept] answers: a closed listener has no connection. *)
Definition accept (w : sys) (s : sock) : result string :=
  match sk_listener s with Open => w_accept w | _ => Err ErrClosed end.

(** A step of [Serve].  The file of an earlier socket is removed first. *)
Definition serve_step (w : sys) (s : sock) : option sock :=
  match sk_pc s with
  | SvListen =>
      match w_listen w with
      | Some e => Some (mkSock (SvTell (Some e)) (sk_quit s) (sk_listener s) (sk_conns s) (sk_told s) false)
      | None => Some (mkSock (SvTell None) (sk_quit s) Open (sk_conns s) (sk_told s) true)
      end
  | SvTell e =>
      Some (mkSock (match e with Some e => SvReturned e | None => SvAccept end) (sk_quit s) (sk_listener s) (sk_conns s)
              (sk_told s ++ [e]) (sk_file s))
  | SvAccept => Some (set_pc s (SvAccepted (match accept w s with Ok c => Some c | Err _ => None end)))
  | SvAccepted c =>
      if sk_quit s then Some (set_pc s (SvShutdown ErrServerRequestedShutdown))
      else match c with
           | Some c => Some (set_pc (set_conns s (sk_conns s ++ [mkConn c CnRead newHTTPResponseWriter])) SvAccept)
           | None => Some (set_pc s SvAccept)
           end
  | SvShutdown e => Some (set_pc (fst (Shutdown s)) (SvRemove e))
  | SvRemove e => Some (mkSock (SvReturned e) (sk_quit s) (sk_listener s) (sk_conns s) (sk_told s) false)
  | SvReturned _ => None
  end.

(** A step of the goroutine of a connection. *)
Definition conn_go (w : sys) (c : conn) : option conn :=
  match cn_pc c with
  | CnRead =>
      match w_read w (cn_from c) with
      | Ok req => Some (mkConn (cn_from c) (CnHandle req) (cn_writer c))
      | Err _ => Some (mkConn (cn_from c) CnClose (cn_writer c))
      end
  | CnHandle req => Some (mkConn (cn_from c) CnClose (handlerFunc req (cn_writer c)))
  | CnClose => Some (mkConn (cn_from c) CnClosed (cn_writer c))
  | CnClosed => None
  end.

Inductive sock_event := EvServe | EvConn (i : nat) | EvShutdown.

Definition sock_step (w : sys) (x : sock_event) (s : sock) : option sock :=
  match x with
  | EvServe => serve_step w s
  | EvConn i => c ← sk_conns s !! i; c' ← conn_go w c; Some (set_conns s (<[i := c']> (sk_conns s)))
  | EvShutdown => Some (fst (Shutdown s))
  end.

Fixpoint sock_run (l : list (sys * sock_event)) (s : sock) : option sock :=
  match l with
  | [] => Some s
  | (w, x) :: l => match sock_step w x s with Some s => sock_run l s | None => None end
  end.

(** ** Properties *)

(** The listener is there from listening on, and open until [Shutdown]. *)
Definition listening (p : serve_pc) : bool :=
  match p with SvTell None | SvAccept | SvAccepted _ | SvShutdown _ => true | _ => false end.

(** The answers a connection has got so far. *)
Definition conn_ok (c : conn) : Prop :=
  match cn_pc c with
  | CnRead | CnHandle _ => cn_writer c = newHTTPResponseWriter
  | CnClose | CnClosed => cn_writer c = newHTTPResponseWriter \/ exists req, cn_writer c = handlerFunc req newHTTPResponseWriter
  end.

Record sock_ok (s : sock) : Prop := mk_sock_ok {
  ok_listener : listening (sk_pc s) = true -> sk_listener s = Open \/ (sk_quit s = true /\ sk_listener s = Closed);
  ok_before : sk_pc s = SvListen -> sk_listener s = Absent;
  ok_quit : forall e, sk_pc s = SvShutdown e \/ sk_pc s = SvRemove e -> sk_quit s = true /\ e = ErrServerRequestedShutdown;
  ok_conns : Forall conn_ok (sk_conns s)
}.

Lemma sock_ok_init file : sock_ok (NewServer file).
Proof. split; try done. by intros e [?|?]. Qed.

Lemma conn_go_ok w c c' : conn_go w c = Some c' -> conn_ok c -> conn_ok c'.
Proof.
  unfold conn_go, conn_ok. destruct (cn_pc c) as [|req| |]; intros H Hc; [|simplify_eq; simpl..].
  - destruct (w_read w (cn_from c)); simplify_eq; simpl; [done|by left].
  - right. exists req. by rewrite Hc.
  - done.
Qed.

Lemma Shutdown_ok s : sock_ok s -> sock_ok (fst (Shutdown s)).
Proof.
  intros Hok. pose proof Hok as [H1 H2 H3 H4]. unfold Shutdown. destruct (sk_quit s) eqn:Eq; [done|].
  destruct (sk_listener s) eqn:El; split; simpl; naive_solver.
Qed.

Lemma sock_step_ok w x s s' : sock_step w x s = Some s' -> sock_ok s -> sock_ok s'.
Proof.
  intros H Hok. destruct x as [|i|]; simpl in H.
  - pose proof Hok as [H1 H2 H3 H4]. unfold serve_step in H. destruct (sk_pc s) as [|e| |c|e|e|e] eqn:Ep; simplify_eq.
    + destruct (w_listen w); simplify_eq; split; simpl; naive_solver.
    + destruct e; split; simpl; naive_solver.
    + split; simpl; naive_solver.
    + destruct (sk_quit s) eqn:Eq; [|destruct c]; simplify_eq; split; simpl; rewrite ?Eq; try naive_solver.
      apply Forall_app. split; [done|]. by apply Forall_singleton.
    + destruct (H3 e) as [Hq ->]; [by left|]. unfold Shutdown. rewrite Hq. split; simpl; naive_solver.
    + split; simpl; naive_solver.
  - destruct (sk_conns s !! i) as [c|] eqn:Ec; [|done]. simpl in H. destruct (conn_go w c) as [c'|] eqn:Eg; [|done].
    simpl in H. simplify_eq. destruct Hok as [H1 H2 H3 H4]. split; simpl; try done.
    apply Forall_insert; [done|]. eapply conn_go_ok; [done|]. rewrite Forall_lookup in H4. by eapply H4.
  - simplify_eq. by apply Shutdown_ok.
Qed.

Lemma sock_run_ok l : forall s s', sock_run l s = Some s' -> sock_ok s -> sock_ok s'.
Proof.
  induction l as [|[w x] l IH]; simpl; intros s s' H Hok; [by simplify_eq|].
  destruct (sock_step w x s) as [s1|] eqn:E; [|done]. eapply IH; [done|]. by eapply sock_step_ok.
Qed.

(** In every run of the socket the connections that were read get the answers
    of the handler, once, and no other. *)
Theorem sock_answers l s file i c
    (Hrun : sock_run l (NewServer file) = Some s) (Hc : sk_conns s !! i = Some c) :
  match cn_pc c with
  | CnRead | CnHandle _ => rw_sent (cn_writer c) = []
  | CnClose | CnClosed => rw_sent (cn_writer c) = [] \/ exists req, cn_writer c = handlerFunc req newHTTPResponseWriter
  end.
Proof.
  pose proof (ok_conns _ (sock_run_ok _ _ _ Hrun (sock_ok_init file))) as H. rewrite Forall_lookup in H.
  specialize (H i c Hc). unfold conn_ok in H. destruct (cn_pc c); [by rewrite H..| |]; (destruct H as [->|H]; [by left|by right]).
Qed.

(** The steps [Serve] has left once it is shut down. *)
Definition left (p : serve_pc) : nat :=
  match p with SvListen => 6 | SvTell _ => 5 | SvAccept => 4 | SvAccepted _ => 3 | SvShutdown _ => 2 | SvRemove _ => 1 | SvReturned _ => 0 end.

(** Once the listener is closed [Serve] accepts nothing more and has at most
    five steps left, each of which it can take; it returns that a shutdown was
    requested, and the file is gone. *)
Theorem sock_stops l s file w
    (Hrun : sock_run l (NewServer file) = Some s) (Hquit : sk_quit s = true) (Hlisten : listening (sk_pc s) = true)
    (Hclosed : sk_listener s = Closed) :
  exists s', serve_step w s = Some s' /\ left (sk_pc s') < left (sk_pc s) /\ sk_conns s' = sk_conns s /\
    sk_quit s' = true /\ sk_listener s' = Closed /\ (listening (sk_pc s') = true \/ sk_pc s' = SvRemove ErrServerRequestedShutdown).
Proof.
  pose proof (sock_run_ok _ _ _ Hrun (sock_ok_init file)) as [H1 H2 H3 H4].
  unfold serve_step. destruct (sk_pc s) as [|[e|]| |c|e|e|e] eqn:Ep; try done.
  - eexists. split; [reflexivity|]. simpl. split_and!; [lia|done..|by left].
  - eexists. split; [reflexivity|]. simpl. split_and!; [lia|done..|by left].
  - rewrite Hquit. eexists. split; [reflexivity|]. simpl. split_and!; [lia|done..|by left].
  - destruct (H3 e) as [_ ->]; [by left|]. eexists. split; [reflexivity|]. unfold Shutdown. rewrite Hquit. simpl.
    split_and!; [lia|done..|by right].
Qed.

End server.

(** A shutdown before there is a listener leaves it open: the loop ends with the
    next connection, which is neither answered nor closed. *)
Example shutdown_before_listening :
  let w := mkSys None (Ok "client") (fun _ => Err ErrClosed) in
  let h (req : string * string) (rw : responseWriter) := rw in
  sk_listener <$> sock_run h [(w, EvShutdown); (w, EvServe); (w, EvServe); (w, EvServe); (w, EvServe); (w, EvServe); (w, EvServe)] (NewServer false) = Some Open /\
  sk_conns <$> sock_run h [(w, EvShutdown); (w, EvServe); (w, EvServe); (w, EvServe); (w, EvServe); (w, EvServe); (w, EvServe)] (NewServer false) = Some [].
Proof. by split. Qed.

(** The status of a run, asked through its socket. *)
Example status_through_socket :
  let w := mkSys None (Ok "client") (fun _ => Ok ("GET", "/status")) in
  let h (req : string * string) (rw : responseWriter) := fst (Write (WriteHeader rw 200) (fst req +:+ " " +:+ snd req)) in
  (fun s => (fun c => rw_sent (cn_writer c)) <$> sk_conns s) <$>
    sock_run h [(w, EvServe); (w, EvServe); (w, EvServe); (w, EvServe); (w, EvConn 0); (w, EvConn 0); (w, EvConn 0)] (NewServer true) =
  Some [[mkResponse 200 "GET /status"]].
Proof. reflexivity. Qed.
