(* ===== verification/ApiSpec.v ===== *)
(** * The definition of the interface: gen/restapi/embedded_spec.go

    The document the server loads: the schema of each record and the operations
    with their parameters and answers, one definition for each part of it; what it
    is for a JSON value to conform to a schema, and where one does not. *)

From stdpp Require Import pretty.
From S2P Require Import Prelude.

(** ** Values and schemas *)

Inductive json :=
| JNull
| JBool (b : bool)
| JNum (n : Z)
| JString (s : string)
| JArray (l : list json)
| JObject (fields : list (string * json)).

(** A reference is the schema it names. *)
Inductive schema :=
| SString (enum : list string)
| SInteger
| SBoolean
| SArray (items : schema)
| SObject (properties : list (string * schema)) (required : list string).

(** The first value of a key. *)
Fixpoint field (fields : list (string * json)) (key : string) : option json :=
  match fields with
  | [] => None
  | (k, v) :: fields => if bool_decide (k = key) then Some v else field fields key
  end.

(** The first element something is wrong with, with the paths in it. *)
Definition first_bad (bad : list (list (list string))) : list (list string) :=
  let fix go i bad :=
    match bad with
    | [] => []
    | [] :: bad => go (S i) bad
    | paths :: _ => (cons (pretty i)) <$> paths
    end in
  go 0 bad.

(** Where a value departs from a schema: the paths to what is missing or of another
    type, in the order of the properties; of an array, those of its first element
    that has some. *)
Fixpoint violations (s : schema) (j : json) : list (list string) :=
  match s, j with
  | SString enum, JString v => if bool_decide (enum = []) || bool_decide (v ∈ enum) then [] else [[]]
  | SInteger, JNum _ => []
  | SBoolean, JBool _ => []
  | SArray items, JArray l => first_bad (violations items <$> l)
  | SObject properties required, JObject fields =>
      concat ((fun p =>
        match field fields p.1 with
        | Some v => (cons p.1) <$> violations p.2 v
        | None => if bool_decide (p.1 ∈ required) then [[p.1]] else []
        end) <$> properties)
  | _, _ => [[]]
  end.

Definition conforms (s : schema) (j : json) : bool := bool_decide (violations s j = []).

(** ** Operations *)

Record param := mkParam { pa_name : string; pa_in : string; pa_schema : schema; pa_required : bool }.

Record operation := mkOperation {
  op_method : string;
  op_path : string;
  op_id : string;
  op_params : list param;
  op_responses : list (string * option schema)
}.

Definition basePath : string := "/api/v1".

(** ** The records *)

Definition schema_CreateDAGRequest : schema :=
  SObject [("action", SString []); ("value", SString [])]
    ["action"; "value"].

Definition schema_CreateDAGResponse : schema :=
  SObject [("DagID", SString [])]
    ["DagID"].

Definition schema_Schedule : schema :=
  SObject [("Expression", SString [])]
    ["Expression"].

Definition schema_DAG : schema :=
  SObject [("DefaultParams", SString []); ("Description", SString []); ("Group", SString []); ("Name", SString []);
   ("Params", SArray (SString [])); ("Schedule", SArray schema_Schedule); ("Tags", SArray (SString []))]
    ["Group";
   "Name"; "Schedule"; "Description"; "Params"; "DefaultParams"; "Tags"].

Definition schema_Precondition : schema :=
  SObject [("Condition", SString []); ("Expected", SString [])]
    [].

Definition schema_RepeatPolicy : schema :=
  SObject [("Interval", SInteger); ("Repeat", SBoolean)]
    [].

Definition schema_Step : schema :=
  SObject [("Args", SArray (SString [])); ("CmdWithArgs", SString []); ("Command", SString []);
   ("Depends", SArray (SString [])); ("Description", SString []); ("Dir", SString []); ("MailOnError", SBoolean);
   ("Name", SString []); ("Output", SString []); ("Params", SString []);
   ("Preconditions", SArray schema_Precondition); ("RepeatPolicy", schema_RepeatPolicy); ("Run", SString []);
   ("Script", SString []); ("Stderr", SString []); ("Stdout", SString [])]
    ["Name"; "Description"; "Dir";
   "CmdWithArgs"; "Command"; "Script"; "Stdout"; "Stderr"; "Output"; "Args"; "Depends"; "RepeatPolicy";
   "MailOnError"; "Preconditions"].

Definition schema_HandlerOn : schema :=
  SObject [("Cancel", schema_Step); ("Exit", schema_Step); ("Failure", schema_Step); ("Success", schema_Step)]
    [].

Definition schema_DAGDetails : schema :=
  SObject [("DefaultParams", SString []); ("Delay", SInteger); ("Description", SString []);
   ("Env", SArray (SString [])); ("Group", SString []); ("HandlerOn", schema_HandlerOn);
   ("HistRetentionDays", SInteger); ("Location", SString []); ("LogDir", SString []); ("MaxActiveRuns", SInteger);
   ("Name", SString []); ("Params", SArray (SString [])); ("Preconditions", SArray schema_Precondition);
   ("Schedule", SArray schema_Schedule); ("Steps", SArray schema_Step); ("Tags", SArray (SString []))]
    ["Location";
   "Group"; "Name"; "Schedule"; "Description"; "Env"; "LogDir"; "HandlerOn"; "Steps"; "Delay"; "HistRetentionDays";
   "Preconditions"; "MaxActiveRuns"; "Params"; "DefaultParams"; "Tags"].

Definition schema_DAGLogGridItem : schema :=
  SObject [("Name", SString []); ("Vals", SArray SInteger)]
    ["Name"; "Vals"].

Definition schema_Node : schema :=
  SObject [("DoneCount", SInteger); ("Error", SString []); ("FinishedAt", SString []); ("Log", SString []);
   ("RetryCount", SInteger); ("StartedAt", SString []); ("Status", SInteger); ("StatusText", SString []);
   ("Step", schema_Step)]
    ["Step"; "Log"; "StartedAt"; "FinishedAt"; "Status"; "RetryCount"; "DoneCount"; "Error";
   "StatusText"].

Definition schema_DAGStatusDetails : schema :=
  SObject [("FinishedAt", SString []); ("Log", SString []); ("Name", SString []); ("Nodes", SArray schema_Node);
   ("OnCancel", schema_Node); ("OnExit", schema_Node); ("OnFailure", schema_Node); ("OnSuccess", schema_Node);
   ("Params", SString []); ("Pid", SInteger); ("RequestId", SString []); ("StartedAt", SString []);
   ("Status", SInteger); ("StatusText", SString [])]
    ["RequestId"; "Name"; "Status"; "StatusText"; "Pid"; "Nodes";
   "OnExit"; "OnSuccess"; "OnFailure"; "OnCancel"; "StartedAt"; "FinishedAt"; "Log"; "Params"].

Definition schema_DAGLogStatusFile : schema :=
  SObject [("File", SString []); ("Status", schema_DAGStatusDetails)]
    ["File"; "Status"].

Definition schema_DAGLogData : schema :=
  SObject [("GridData", SArray schema_DAGLogGridItem); ("Logs", SArray schema_DAGLogStatusFile)]
    ["GridData";
   "Logs"].

Definition schema_DAGStatus : schema :=
  SObject [("FinishedAt", SString []); ("Log", SString []); ("Name", SString []); ("Params", SString []);
   ("Pid", SInteger); ("RequestId", SString []); ("StartedAt", SString []); ("Status", SInteger);
   ("StatusText", SString [])]
    ["RequestId"; "Name"; "Status"; "StatusText"; "Pid"; "StartedAt"; "FinishedAt";
   "Log"; "Params"].

Definition schema_DAGStatusFile : schema :=
  SObject [("DAG", schema_DAG); ("Dir", SString []); ("Error", SString []); ("File", SString []);
   ("Status", schema_DAGStatus); ("Suspended", SBoolean)]
    ["File"; "Dir"; "DAG"; "Status"; "Suspended"; "Error"].

Definition schema_DAGStatusFileDetails : schema :=
  SObject [("DAG", schema_DAGDetails); ("Dir", SString []); ("Error", SString []); ("File", SString []);
   ("Status", schema_DAGStatusDetails); ("Suspended", SBoolean)]
    ["File"; "Dir"; "DAG"; "Status"; "Suspended";
   "Error"].

Definition schema_Error : schema :=
  SObject [("code", SString ["validation_error"; "not_found"; "internal_error"; "unauthorized"; "bad_gateway"]);
   ("details", SObject []
    []); ("message", SString [])]
    ["code"; "message"].

Definition schema_SchedulerLog : schema :=
  SObject [("Content", SString []); ("LogFile", SString [])]
    ["LogFile"; "Content"].

Definition schema_StepLog : schema :=
  SObject [("Content", SString []); ("LogFile", SString []); ("Step", schema_Node)]
    ["Step"; "LogFile"; "Content"].

Definition schema_GetDAGDetailsResponse : schema :=
  SObject [("DAG", schema_DAGStatusFileDetails); ("Definition", SString []); ("Errors", SArray (SString []));
   ("Graph", SString []); ("LogData", schema_DAGLogData); ("LogUrl", SString []); ("ScLog", schema_SchedulerLog);
   ("StepLog", schema_StepLog); ("Tab", SString []); ("Title", SString [])]
    ["Title"; "DAG"; "Tab"; "Graph";
   "Definition"; "LogData"; "LogUrl"; "StepLog"; "ScLog"; "Errors"].

Definition schema_HealthResponse : schema :=
  SObject [("status", SString ["healthy"; "unhealthy"]); ("timestamp", SString []); ("uptime", SInteger);
   ("version", SString [])]
    ["status"; "version"; "uptime"; "timestamp"].

Definition schema_ListDAGsResponse : schema :=
  SObject [("DAGs", SArray schema_DAGStatusFile); ("Errors", SArray (SString [])); ("HasError", SBoolean);
   ("PageCount", SInteger)]
    ["DAGs"; "Errors"; "HasError"; "PageCount"].

Definition schema_ListTagResponse : schema :=
  SObject [("Errors", SArray (SString [])); ("Tags", SArray (SString []))]
    ["Tags"; "Errors"].

Definition schema_PostDAGActionRequest : schema :=
  SObject [("action", SString ["start"; "suspend"; "stop"; "retry"; "mark-success"; "mark-failed"; "save";
   "rename"]); ("params", SString []); ("requestId", SString []); ("step", SString []);
   ("value", SString [])]
    ["action"].

Definition schema_PostDAGActionResponse : schema :=
  SObject [("NewDagID", SString [])]
    [].

Definition schema_PythonFile : schema :=
  SObject [("content", SString []); ("name", SString [])]
    ["name"; "content"].

Definition schema_SearchDAGsMatchItem : schema :=
  SObject [("Line", SString []); ("LineNumber", SInteger); ("StartLine", SInteger)]
    [].

Definition schema_SearchDAGsResultItem : schema :=
  SObject [("DAG", schema_DAG); ("Matches", SArray schema_SearchDAGsMatchItem); ("Name", SString [])]
    [].

Definition schema_SearchDAGsResponse : schema :=
  SObject [("Errors", SArray (SString [])); ("Results", SArray schema_SearchDAGsResultItem)]
    ["Results"; "Errors"].

Definition definitions : list (string * schema) :=
  [("CreateDAGRequest", schema_CreateDAGRequest); ("CreateDAGResponse", schema_CreateDAGResponse);
   ("DAG", schema_DAG); ("DAGDetails", schema_DAGDetails); ("DAGLogData", schema_DAGLogData);
   ("DAGLogGridItem", schema_DAGLogGridItem); ("DAGLogStatusFile", schema_DAGLogStatusFile);
   ("DAGStatus", schema_DAGStatus); ("DAGStatusDetails", schema_DAGStatusDetails);
   ("DAGStatusFile", schema_DAGStatusFile); ("DAGStatusFileDetails", schema_DAGStatusFileDetails);
   ("Error", schema_Error); ("GetDAGDetailsResponse", schema_GetDAGDetailsResponse);
   ("HandlerOn", schema_HandlerOn); ("HealthResponse", schema_HealthResponse);
   ("ListDAGsResponse", schema_ListDAGsResponse); ("ListTagResponse", schema_ListTagResponse);
   ("Node", schema_Node); ("PostDAGActionRequest", schema_PostDAGActionRequest);
   ("PostDAGActionResponse", schema_PostDAGActionResponse); ("Precondition", schema_Precondition);
   ("PythonFile", schema_PythonFile); ("RepeatPolicy", schema_RepeatPolicy); ("Schedule", schema_Schedule);
   ("SchedulerLog", schema_SchedulerLog); ("SearchDAGsMatchItem", schema_SearchDAGsMatchItem);
   ("SearchDAGsResponse", schema_SearchDAGsResponse); ("SearchDAGsResultItem", schema_SearchDAGsResultItem);
   ("Step", schema_Step); ("StepLog", schema_StepLog)].

(** ** The operations served *)

Definition op_listDAGs : operation :=
  mkOperation "GET" "/dags" "listDAGs"
    [mkParam "page" "query" (SInteger) false;
     mkParam "limit" "query" (SInteger) false; mkParam "searchName" "query" (SString []) false;
     mkParam "searchTag" "query" (SString []) false]
    [("200", Some (schema_ListDAGsResponse));
     ("default", Some (schema_Error))].

Definition op_createDAG : operation :=
  mkOperation "POST" "/dags" "createDAG"
    [mkParam "body" "body" (schema_CreateDAGRequest) true]
    [("200", Some (schema_CreateDAGResponse));
     ("default", Some (schema_Error))].

Definition op_getDAGDetails : operation :=
  mkOperation "GET" "/dags/{dagId}" "getDAGDetails"
    [mkParam "dagId" "path" (SString []) true;
     mkParam "tab" "query" (SString []) false; mkParam "file" "query" (SString []) false;
     mkParam "step" "query" (SString []) false]
    [("200", Some (schema_GetDAGDetailsResponse));
     ("default", Some (schema_Error))].

Definition op_postDAGAction : operation :=
  mkOperation "POST" "/dags/{dagId}" "postDAGAction"
    [mkParam "dagId" "path" (SString []) true;
     mkParam "body" "body" (schema_PostDAGActionRequest) true]
    [("200", Some (schema_PostDAGActionResponse));
     ("default", Some (schema_Error))].

Definition op_deleteDAG : operation :=
  mkOperation "DELETE" "/dags/{dagId}" "deleteDAG"
    [mkParam "dagId" "path" (SString []) true]
    [("200", None);
     ("default", Some (schema_Error))].

Definition op_getHealth : operation :=
  mkOperation "GET" "/health" "getHealth"
    []
    [("200", Some (schema_HealthResponse));
     ("503", Some (schema_HealthResponse)); ("default", Some (schema_Error))].

Definition op_listPythonFiles : operation :=
  mkOperation "GET" "/python-files" "listPythonFiles"
    []
    [("200", Some (SArray schema_PythonFile));
     ("default", Some (schema_Error))].

Definition op_createPythonFile : operation :=
  mkOperation "POST" "/python-files" "createPythonFile"
    [mkParam "body" "body" (schema_PythonFile) true]
    [("201", Some (schema_PythonFile));
     ("default", Some (schema_Error))].

Definition op_getPythonFile : operation :=
  mkOperation "GET" "/python-files/{name}" "getPythonFile"
    [mkParam "name" "path" (SString []) true]
    [("200", Some (schema_PythonFile));
     ("default", Some (schema_Error))].

Definition op_updatePythonFile : operation :=
  mkOperation "PUT" "/python-files/{name}" "updatePythonFile"
    [mkParam "name" "path" (SString []) true;
     mkParam "body" "body" (schema_PythonFile) true]
    [("200", Some (schema_PythonFile));
     ("default", Some (schema_Error))].

Definition op_deletePythonFile : operation :=
  mkOperation "DELETE" "/python-files/{name}" "deletePythonFile"
    [mkParam "name" "path" (SString []) true]
    [("204", None);
     ("default", Some (schema_Error))].

Definition op_searchDAGs : operation :=
  mkOperation "GET" "/search" "searchDAGs"
    [mkParam "q" "query" (SString []) true]
    [("200", Some (schema_SearchDAGsResponse));
     ("default", Some (schema_Error))].

Definition op_listTags : operation :=
  mkOperation "GET" "/tags" "listTags"
    []
    [("200", Some (schema_ListTagResponse));
     ("default", Some (schema_Error))].

Definition operations : list operation :=
  [op_listDAGs; op_createDAG; op_getDAGDetails; op_postDAGAction; op_deleteDAG; op_getHealth; op_listPythonFiles;
   op_createPythonFile; op_getPythonFile; op_updatePythonFile; op_deletePythonFile; op_searchDAGs; op_listTags].
