(* ===== verification/ApiModels.v ===== *)
(** * The records of the HTTP interface: internal/frontend/gen/models

    The structs that requests are read into and responses are made of, with the
    fields of the source: a pointer is an option, and a value of any type what it is
    in JSON.  Their checks and their encoding are in [ApiValidate]. *)

From S2P Require Import Prelude ApiSpec.

Module models.

Module Schedule.
Record t := mk {
  Expression : option string
}.
End Schedule.

Module Precondition.
Record t := mk {
  Condition : string;
  Expected : string
}.
End Precondition.

Module RepeatPolicy.
Record t := mk {
  Interval : Z;
  Repeat : bool
}.
End RepeatPolicy.

Module Step.
Record t := mk {
  Args : list string;
  CmdWithArgs : option string;
  Command : option string;
  Depends : list string;
  Description : option string;
  Dir : option string;
  MailOnError : option bool;
  Name : option string;
  Output : option string;
  Params : string;
  Preconditions : list (option Precondition.t);
  RepeatPolicy : option RepeatPolicy.t;
  Run : string;
  Script : option string;
  Stderr : option string;
  Stdout : option string
}.
End Step.

Module Node.
Record t := mk {
  DoneCount : option Z;
  Error : option string;
  FinishedAt : option string;
  Log : option string;
  RetryCount : option Z;
  StartedAt : option string;
  Status : option Z;
  StatusText : option string;
  Step : option Step.t
}.
End Node.

Module HandlerOn.
Record t := mk {
  Cancel : option Step.t;
  Exit : option Step.t;
  Failure : option Step.t;
  Success : option Step.t
}.
End HandlerOn.

Module DAG.
Record t := mk {
  DefaultParams : option string;
  Description : option string;
  Group : option string;
  Name : option string;
  Params : list string;
  Schedule : list (option Schedule.t);
  Tags : list string
}.
End DAG.

Module DAGDetails.
Record t := mk {
  DefaultParams : option string;
  Delay : option Z;
  Description : option string;
  Env : list string;
  Group : option string;
  HandlerOn : option HandlerOn.t;
  HistRetentionDays : option Z;
  Location : option string;
  LogDir : option string;
  MaxActiveRuns : option Z;
  Name : option string;
  Params : list string;
  Preconditions : list (option Precondition.t);
  Schedule : list (option Schedule.t);
  Steps : list (option Step.t);
  Tags : list string
}.
End DAGDetails.

Module DAGStatus.
Record t := mk {
  FinishedAt : option string;
  Log : option string;
  Name : option string;
  Params : option string;
  Pid : option Z;
  RequestID : option string;
  StartedAt : option string;
  Status : option Z;
  StatusText : option string
}.
End DAGStatus.

Module DAGStatusDetails.
Record t := mk {
  FinishedAt : option string;
  Log : option string;
  Name : option string;
  Nodes : list (option Node.t);
  OnCancel : option Node.t;
  OnExit : option Node.t;
  OnFailure : option Node.t;
  OnSuccess : option Node.t;
  Params : option string;
  Pid : option Z;
  RequestID : option string;
  StartedAt : option string;
  Status : option Z;
  StatusText : option string
}.
End DAGStatusDetails.

Module DAGStatusFile.
Record t := mk {
  DAG : option DAG.t;
  Dir : option string;
  Error : option string;
  File : option string;
  Status : option DAGStatus.t;
  Suspended : option bool
}.
End DAGStatusFile.

Module DAGStatusFileDetails.
Record t := mk {
  DAG : option DAGDetails.t;
  Dir : option string;
  Error : option string;
  File : option string;
  Status : option DAGStatusDetails.t;
  Suspended : option bool
}.
End DAGStatusFileDetails.

Module DAGLogGridItem.
Record t := mk {
  Name : option string;
  Vals : list Z
}.
End DAGLogGridItem.

Module DAGLogStatusFile.
Record t := mk {
  File : option string;
  Status : option DAGStatusDetails.t
}.
End DAGLogStatusFile.

Module DAGLogData.
Record t := mk {
  GridData : list (option DAGLogGridItem.t);
  Logs : list (option DAGLogStatusFile.t)
}.
End DAGLogData.

Module SchedulerLog.
Record t := mk {
  Content : option string;
  LogFile : option string
}.
End SchedulerLog.

Module StepLog.
Record t := mk {
  Content : option string;
  LogFile : option string;
  Step : option Node.t
}.
End StepLog.

Module GetDAGDetailsResponse.
Record t := mk {
  DAG : option DAGStatusFileDetails.t;
  Definition_ : option string;
  Errors : list string;
  Graph : option string;
  LogData : option DAGLogData.t;
  LogURL : option string;
  ScLog : option SchedulerLog.t;
  StepLog : option StepLog.t;
  Tab : option string;
  Title : option string
}.
End GetDAGDetailsResponse.

Module ListDAGsResponse.
Record t := mk {
  DAGs : list (option DAGStatusFile.t);
  Errors : list string;
  HasError : option bool;
  PageCount : option Z
}.
End ListDAGsResponse.

Module ListTagResponse.
Record t := mk {
  Errors : list string;
  Tags : list string
}.
End ListTagResponse.

Module SearchDAGsMatchItem.
Record t := mk {
  Line : string;
  LineNumber : Z;
  StartLine : Z
}.
End SearchDAGsMatchItem.

Module SearchDAGsResultItem.
Record t := mk {
  DAG : option DAG.t;
  Matches : list (option SearchDAGsMatchItem.t);
  Name : string
}.
End SearchDAGsResultItem.

Module SearchDAGsResponse.
Record t := mk {
  Errors : list string;
  Results : list (option SearchDAGsResultItem.t)
}.
End SearchDAGsResponse.

Module CreateDAGRequest.
Record t := mk {
  Action : option string;
  Value : option string
}.
End CreateDAGRequest.

Module CreateDAGResponse.
Record t := mk {
  DagID : option string
}.
End CreateDAGResponse.

Module PostDAGActionRequest.
Record t := mk {
  Action : option string;
  Params : string;
  RequestID : string;
  Step : string;
  Value : string
}.
End PostDAGActionRequest.

Module PostDAGActionResponse.
Record t := mk {
  NewDagID : string
}.
End PostDAGActionResponse.

Module Error.
Record t := mk {
  Code : option string;
  Details : option json;
  Message : option string
}.
End Error.

Module PythonFile.
Record t := mk {
  Content : option string;
  Name : option string
}.
End PythonFile.

Module HealthResponse.
Record t := mk {
  Status : option string;
  Timestamp : option string;
  Uptime : option Z;
  Version : option string
}.
End HealthResponse.

(** ** Codes of errors (error.go) *)

Definition ErrorCodeValidationError : string := "validation_error".
Definition ErrorCodeNotFound : string := "not_found".
Definition ErrorCodeInternalError : string := "internal_error".
Definition ErrorCodeUnauthorized : string := "unauthorized".
Definition ErrorCodeBadGateway : string := "bad_gateway".

End models.
