(* ===== verification/ApiValidate.v ===== *)
(** * Validation and encoding of the records: internal/frontend/gen/models

    For each record, in a module of its name, the checks the generated code makes
    of its fields, [Validate] and [ContextValidate], and the members of its JSON
    encoding, which are what the tags of the struct say.

    The records hold slices as lists, of optional elements where the code has
    pointers: whether an empty slice is nil is an argument, an answer for the place of
    the slice, which is why the functions are told where their record is.  The errors and the elementary checks of go-openapi are
    operations of an interface. *)

From stdpp Require Import pretty.
From S2P Require Import Prelude ApiSpec ApiModels.

(** ** go-openapi *)

Inductive kind := KValidation | KComposite | KOther.

(** [Required] is [validate.Required], which is told whether the value is the zero
    value of its type, [EnumCase] is [validate.EnumCase]; the rest is of the package
    errors. *)
Class OpenAPI (E : Type) := {
  Required : string -> string -> bool -> option E;
  EnumCase : string -> string -> string -> list string -> bool -> option E;
  CompositeValidationError : list E -> E;
  kind_of : E -> kind;
  Validation_ValidateName : string -> E -> E;
  CompositeError_ValidateName : string -> E -> E
}.

Definition path : Type := list string.
Definition nilness : Type := path -> bool.

Definition nil_ptr {A} (v : option A) : bool := match v with None => true | Some _ => false end.
Definition nil_slice {A} (is_nil : nilness) (at_ : path) (name : string) (l : list A) : bool :=
  bool_decide (l = []) && is_nil (at_ ++ [name]).

(** ** The shapes of the generated checks *)

Section shapes.
Context {E : Type} `{!OpenAPI E}.

(** All errors of the fields together. *)
Definition collect (checks : list (option E)) : option E :=
  match omap id checks with
  | [] => None
  | res => Some (CompositeValidationError res)
  end.

(** The error of a record within another gets the name of the field. *)
Definition named (name : string) (r : option E) : option E :=
  match r with
  | None => None
  | Some e =>
      Some match kind_of e with
           | KValidation => Validation_ValidateName name e
           | KComposite => CompositeError_ValidateName name e
           | KOther => e
           end
  end.

Definition and_then (a b : option E) : option E := match a with Some e => Some e | None => b end.

Definition optional_model {A} (name : string) (check : A -> option E) (v : option A) : option E :=
  match v with None => None | Some a => named name (check a) end.

Definition required_model {A} (name : string) (check : A -> option E) (v : option A) : option E :=
  and_then (Required name "body" (nil_ptr v)) (optional_model name check v).

(** The loop over a slice of pointers: a nil one is passed over, the first element
    with an error ends it. *)
Fixpoint each {A} (name : string) (check : nat -> A -> option E) (i : nat) (l : list (option A)) : option E :=
  match l with
  | [] => None
  | None :: l => each name check (S i) l
  | Some a :: l => and_then (named (name +:+ "." +:+ pretty i) (check i a)) (each name check (S i) l)
  end.

Definition element_path (at_ : path) (name : string) (i : nat) : path := at_ ++ [name; pretty i].

Definition each_of {A} (at_ : path) (name : string) (check : path -> A -> option E) (l : list (option A)) : option E :=
  each name (fun i => check (element_path at_ name i)) 0 l.

Definition required_slice {A} (is_nil : nilness) (at_ : path) (name : string) (check : path -> A -> option E) (l : list (option A))
    : option E :=
  and_then (Required name "body" (nil_slice is_nil at_ name l)) (each_of at_ name check l).

Definition optional_slice {A} (is_nil : nilness) (at_ : path) (name : string) (check : path -> A -> option E) (l : list (option A))
    : option E :=
  if nil_slice is_nil at_ name l then None else each_of at_ name check l.

Definition required_enum (name : string) (enum : list string) (v : option string) : option E :=
  match v with
  | None => Required name "body" true
  | Some a => and_then (Required name "body" false) (EnumCase name "body" a enum true)
  end.

Definition context_model {A} (name : string) (check : A -> option E) (v : option A) : option E :=
  match v with None => None | Some a => named name (check a) end.

Definition context_slice {A} (name : string) (check : A -> option E) (l : list (option A)) : option E :=
  each name (fun _ => check) 0 l.

End shapes.

(** ** The shapes of the encoding *)

Definition ptr_json {A} (f : A -> json) (v : option A) : json := match v with None => JNull | Some a => f a end.

Definition slice_json {A} (is_nil : nilness) (at_ : path) (name : string) (f : path -> A -> json) (l : list A) : json :=
  if nil_slice is_nil at_ name l then JNull else JArray (imap (fun i => f (element_path at_ name i)) l).

(** The elements of a slice of pointers. *)
Definition ptr_elements {A} (f : path -> A -> json) (at_ : path) : option A -> json := ptr_json (f at_).

Definition omitempty {A} `{EqDecision A} (zero : A) (f : A -> json) (v : A) : option json :=
  if bool_decide (v = zero) then None else Some (f v).

(** The members that are there. *)
Definition present (members : list (string * option json)) : list (string * json) :=
  omap (fun m => (fun j => (m.1, j)) <$> m.2) members.

(** [swag.WriteJSON] writes the encoding; [swag.ReadJSON] answers a new record, which
    takes the place of the old one only without an error. *)
Definition marshal {A} (WriteJSON : json -> result string) (encode : A -> json) (m : option A) : result (option string) :=
  match m with
  | None => Ok None
  | Some m => match WriteJSON (encode m) with Ok b => Ok (Some b) | Err e => Err e end
  end.

Definition unmarshal {A} (ReadJSON : string -> result A) (b : string) (m : A) : A * option error :=
  match ReadJSON b with Ok res => (res, None) | Err e => (m, Some e) end.

(** ** The records *)

Module CreateDAGRequest.
Definition validateAction {E} `{!OpenAPI E} (is_nil : nilness) (at_ : path) (m : models.CreateDAGRequest.t) : option E :=
  Required "action" "body" (nil_ptr (models.CreateDAGRequest.Action m)).
Definition validateValue {E} `{!OpenAPI E} (is_nil : nilness) (at_ : path) (m : models.CreateDAGRequest.t) : option E :=
  Required "value" "body" (nil_ptr (models.CreateDAGRequest.Value m)).
Definition Validate {E} `{!OpenAPI E} (is_nil : nilness) (at_ : path) (m : models.CreateDAGRequest.t) : option E :=
  collect [validateAction is_nil at_ m; validateValue is_nil at_ m].
Definition ContextValidate {E} `{!OpenAPI E} (m : models.CreateDAGRequest.t) : option E :=
  None.
Definition members (is_nil : nilness) (at_ : path) (m : models.CreateDAGRequest.t) : list (string * option json) :=
  [("action", Some (ptr_json JString (models.CreateDAGRequest.Action m)));
   ("value", Some (ptr_json JString (models.CreateDAGRequest.Value m)))].
Definition encode (is_nil : nilness) (at_ : path) (m : models.CreateDAGRequest.t) : json :=
  JObject (present (members is_nil at_ m)).
Definition MarshalBinary (WriteJSON : json -> result string) (is_nil : nilness) : option models.CreateDAGRequest.t -> result (option string) :=
  marshal WriteJSON (encode is_nil []).
Definition UnmarshalBinary (ReadJSON : string -> result models.CreateDAGRequest.t) : string -> models.CreateDAGRequest.t -> models.CreateDAGRequest.t * option error :=
  unmarshal ReadJSON.
End CreateDAGRequest.

Module CreateDAGResponse.
Definition validateDagID {E} `{!OpenAPI E} (is_nil : nilness) (at_ : path) (m : models.CreateDAGResponse.t) : option E :=
  Required "DagID" "body" (nil_ptr (models.CreateDAGResponse.DagID m)).
Definition Validate {E} `{!OpenAPI E} (is_nil : nilness) (at_ : path) (m : models.CreateDAGResponse.t) : option E :=
  collect [validateDagID is_nil at_ m].
Definition ContextValidate {E} `{!OpenAPI E} (m : models.CreateDAGResponse.t) : option E :=
  None.
Definition members (is_nil : nilness) (at_ : path) (m : models.CreateDAGResponse.t) : list (string * option json) :=
  [("DagID", Some (ptr_json JString (models.CreateDAGResponse.DagID m)))].
Definition encode (is_nil : nilness) (at_ : path) (m : models.CreateDAGResponse.t) : json :=
  JObject (present (members is_nil at_ m)).
Definition MarshalBinary (WriteJSON : json -> result string) (is_nil : nilness) : option models.CreateDAGResponse.t -> result (option string) :=
  marshal WriteJSON (encode is_nil []).
Definition UnmarshalBinary (ReadJSON : string -> result models.CreateDAGResponse.t) : string -> models.CreateDAGResponse.t -> models.CreateDAGResponse.t * option error :=
  unmarshal ReadJSON.
End CreateDAGResponse.

Module Schedule.
Definition validateExpression {E} `{!OpenAPI E} (is_nil : nilness) (at_ : path) (m : models.Schedule.t) : option E :=
  Required "Expression" "body" (nil_ptr (models.Schedule.Expression m)).
Definition Validate {E} `{!OpenAPI E} (is_nil : nilness) (at_ : path) (m : models.Schedule.t) : option E :=
  collect [validateExpression is_nil at_ m].
Definition ContextValidate {E} `{!OpenAPI E} (m : models.Schedule.t) : option E :=
  None.
Definition members (is_nil : nilness) (at_ : path) (m : models.Schedule.t) : list (string * option json) :=
  [("Expression", Some (ptr_json JString (models.Schedule.Expression m)))].
Definition encode (is_nil : nilness) (at_ : path) (m : models.Schedule.t) : json :=
  JObject (present (members is_nil at_ m)).
Definition MarshalBinary (WriteJSON : json -> result string) (is_nil : nilness) : option models.Schedule.t -> result (option string) :=
  marshal WriteJSON (encode is_nil []).
Definition UnmarshalBinary (ReadJSON : string -> result models.Schedule.t) : string -> models.Schedule.t -> models.Schedule.t * option error :=
  unmarshal ReadJSON.
End Schedule.

Module DAG.
Definition validateDefaultParams {E} `{!OpenAPI E} (is_nil : nilness) (at_ : path) (m : models.DAG.t) : option E :=
  Required "DefaultParams" "body" (nil_ptr (models.DAG.DefaultParams m)).
Definition validateDescription {E} `{!OpenAPI E} (is_nil : nilness) (at_ : path) (m : models.DAG.t) : option E :=
  Required "Description" "body" (nil_ptr (models.DAG.Description m)).
Definition validateGroup {E} `{!OpenAPI E} (is_nil : nilness) (at_ : path) (m : models.DAG.t) : option E :=
  Required "Group" "body" (nil_ptr (models.DAG.Group m)).
Definition validateName {E} `{!OpenAPI E} (is_nil : nilness) (at_ : path) (m : models.DAG.t) : option E :=
  Required "Name" "body" (nil_ptr (models.DAG.Name m)).
Definition validateParams {E} `{!OpenAPI E} (is_nil : nilness) (at_ : path) (m : models.DAG.t) : option E :=
  Required "Params" "body" (nil_slice is_nil at_ "Params" (models.DAG.Params m)).
Definition validateSchedule {E} `{!OpenAPI E} (is_nil : nilness) (at_ : path) (m : models.DAG.t) : option E :=
  required_slice is_nil at_ "Schedule" (Schedule.Validate is_nil) (models.DAG.Schedule m).
Definition contextValidateSchedule {E} `{!OpenAPI E} (m : models.DAG.t) : option E :=
  context_slice "Schedule" Schedule.ContextValidate (models.DAG.Schedule m).
Definition validateTags {E} `{!OpenAPI E} (is_nil : nilness) (at_ : path) (m : models.DAG.t) : option E :=
  Required "Tags" "body" (nil_slice is_nil at_ "Tags" (models.DAG.Tags m)).
Definition Validate {E} `{!OpenAPI E} (is_nil : nilness) (at_ : path) (m : models.DAG.t) : option E :=
  collect [validateDefaultParams is_nil at_ m; validateDescription is_nil at_ m; validateGroup is_nil at_ m;
    validateName is_nil at_ m; validateParams is_nil at_ m; validateSchedule is_nil at_ m;
    validateTags is_nil at_ m].
Definition ContextValidate {E} `{!OpenAPI E} (m : models.DAG.t) : option E :=
  collect [contextValidateSchedule m].
Definition members (is_nil : nilness) (at_ : path) (m : models.DAG.t) : list (string * option json) :=
  [("DefaultParams", Some (ptr_json JString (models.DAG.DefaultParams m)));
   ("Description", Some (ptr_json JString (models.DAG.Description m)));
   ("Group", Some (ptr_json JString (models.DAG.Group m)));
   ("Name", Some (ptr_json JString (models.DAG.Name m)));
   ("Params", Some (slice_json is_nil at_ "Params" (fun _ => JString) (models.DAG.Params m)));
   ("Schedule", Some (slice_json is_nil at_ "Schedule" (ptr_elements (Schedule.encode is_nil)) (models.DAG.Schedule m)));
   ("Tags", Some (slice_json is_nil at_ "Tags" (fun _ => JString) (models.DAG.Tags m)))].
Definition encode (is_nil : nilness) (at_ : path) (m : models.DAG.t) : json :=
  JObject (present (members is_nil at_ m)).
Definition MarshalBinary (WriteJSON : json -> result string) (is_nil : nilness) : option models.DAG.t -> result (option string) :=
  marshal WriteJSON (encode is_nil []).
Definition UnmarshalBinary (ReadJSON : string -> result models.DAG.t) : string -> models.DAG.t -> models.DAG.t * option error :=
  unmarshal ReadJSON.
End DAG.

Module Precondition.
Definition Validate {E} `{!OpenAPI E} (is_nil : nilness) (at_ : path) (m : models.Precondition.t) : option E :=
  None.
Definition ContextValidate {E} `{!OpenAPI E} (m : models.Precondition.t) : option E :=
  None.
Definition members (is_nil : nilness) (at_ : path) (m : models.Precondition.t) : list (string * option json) :=
  [("Condition", omitempty "" JString (models.Precondition.Condition m));
   ("Expected", omitempty "" JString (models.Precondition.Expected m))].
Definition encode (is_nil : nilness) (at_ : path) (m : models.Precondition.t) : json :=
  JObject (present (members is_nil at_ m)).
Definition MarshalBinary (WriteJSON : json -> result string) (is_nil : nilness) : option models.Precondition.t -> result (option string) :=
  marshal WriteJSON (encode is_nil []).
Definition UnmarshalBinary (ReadJSON : string -> result models.Precondition.t) : string -> models.Precondition.t -> models.Precondition.t * option error :=
  unmarshal ReadJSON.
End Precondition.

Module RepeatPolicy.
Definition Validate {E} `{!OpenAPI E} (is_nil : nilness) (at_ : path) (m : models.RepeatPolicy.t) : option E :=
  None.
Definition ContextValidate {E} `{!OpenAPI E} (m : models.RepeatPolicy.t) : option E :=
  None.
Definition members (is_nil : nilness) (at_ : path) (m : models.RepeatPolicy.t) : list (string * option json) :=
  [("Interval", omitempty 0%Z JNum (models.RepeatPolicy.Interval m));
   ("Repeat", omitempty false JBool (models.RepeatPolicy.Repeat m))].
Definition encode (is_nil : nilness) (at_ : path) (m : models.RepeatPolicy.t) : json :=
  JObject (present (members is_nil at_ m)).
Definition MarshalBinary (WriteJSON : json -> result string) (is_nil : nilness) : option models.RepeatPolicy.t -> result (option string) :=
  marshal WriteJSON (encode is_nil []).
Definition UnmarshalBinary (ReadJSON : string -> result models.RepeatPolicy.t) : string -> models.RepeatPolicy.t -> models.RepeatPolicy.t * option error :=
  unmarshal ReadJSON.
End RepeatPolicy.

Module Step.
Definition validateArgs {E} `{!OpenAPI E} (is_nil : nilness) (at_ : path) (m : models.Step.t) : option E :=
  Required "Args" "body" (nil_slice is_nil at_ "Args" (models.Step.Args m)).
Definition validateCmdWithArgs {E} `{!OpenAPI E} (is_nil : nilness) (at_ : path) (m : models.Step.t) : option E :=
  Required "CmdWithArgs" "body" (nil_ptr (models.Step.CmdWithArgs m)).
Definition validateCommand {E} `{!OpenAPI E} (is_nil : nilness) (at_ : path) (m : models.Step.t) : option E :=
  Required "Command" "body" (nil_ptr (models.Step.Command m)).
Definition validateDepends {E} `{!OpenAPI E} (is_nil : nilness) (at_ : path) (m : models.Step.t) : option E :=
  Required "Depends" "body" (nil_slice is_nil at_ "Depends" (models.Step.Depends m)).
Definition validateDescription {E} `{!OpenAPI E} (is_nil : nilness) (at_ : path) (m : models.Step.t) : option E :=
  Required "Description" "body" (nil_ptr (models.Step.Description m)).
Definition validateDir {E} `{!OpenAPI E} (is_nil : nilness) (at_ : path) (m : models.Step.t) : option E :=
  Required "Dir" "body" (nil_ptr (models.Step.Dir m)).
Definition validateMailOnError {E} `{!OpenAPI E} (is_nil : nilness) (at_ : path) (m : models.Step.t) : option E :=
  Required "MailOnError" "body" (nil_ptr (models.Step.MailOnError m)).
Definition validateName {E} `{!OpenAPI E} (is_nil : nilness) (at_ : path) (m : models.Step.t) : option E :=
  Required "Name" "body" (nil_ptr (models.Step.Name m)).
Definition validateOutput {E} `{!OpenAPI E} (is_nil : nilness) (at_ : path) (m : models.Step.t) : option E :=
  Required "Output" "body" (nil_ptr (models.Step.Output m)).
Definition validatePreconditions {E} `{!OpenAPI E} (is_nil : nilness) (at_ : path) (m : models.Step.t) : option E :=
  required_slice is_nil at_ "Preconditions" (Precondition.Validate is_nil) (models.Step.Preconditions m).
Definition contextValidatePreconditions {E} `{!OpenAPI E} (m : models.Step.t) : option E :=
  context_slice "Preconditions" Precondition.ContextValidate (models.Step.Preconditions m).
Definition validateRepeatPolicy {E} `{!OpenAPI E} (is_nil : nilness) (at_ : path) (m : models.Step.t) : option E :=
  required_model "RepeatPolicy" (RepeatPolicy.Validate is_nil (at_ ++ ["RepeatPolicy"])) (models.Step.RepeatPolicy m).
Definition contextValidateRepeatPolicy {E} `{!OpenAPI E} (m : models.Step.t) : option E :=
  context_model "RepeatPolicy" RepeatPolicy.ContextValidate (models.Step.RepeatPolicy m).
Definition validateScript {E} `{!OpenAPI E} (is_nil : nilness) (at_ : path) (m : models.Step.t) : option E :=
  Required "Script" "body" (nil_ptr (models.Step.Script m)).
Definition validateStderr {E} `{!OpenAPI E} (is_nil : nilness) (at_ : path) (m : models.Step.t) : option E :=
  Required "Stderr" "body" (nil_ptr (models.Step.Stderr m)).
Definition validateStdout {E} `{!OpenAPI E} (is_nil : nilness) (at_ : path) (m : models.Step.t) : option E :=
  Required "Stdout" "body" (nil_ptr (models.Step.Stdout m)).
Definition Validate {E} `{!OpenAPI E} (is_nil : nilness) (at_ : path) (m : models.Step.t) : option E :=
  collect [validateArgs is_nil at_ m; validateCmdWithArgs is_nil at_ m; validateCommand is_nil at_ m;
    validateDepends is_nil at_ m; validateDescription is_nil at_ m; validateDir is_nil at_ m;
    validateMailOnError is_nil at_ m; validateName is_nil at_ m; validateOutput is_nil at_ m;
    validatePreconditions is_nil at_ m; validateRepeatPolicy is_nil at_ m; validateScript is_nil at_ m;
    validateStderr is_nil at_ m; validateStdout is_nil at_ m].
Definition ContextValidate {E} `{!OpenAPI E} (m : models.Step.t) : option E :=
  collect [contextValidatePreconditions m; contextValidateRepeatPolicy m].
Definition members (is_nil : nilness) (at_ : path) (m : models.Step.t) : list (string * option json) :=
  [("Args", Some (slice_json is_nil at_ "Args" (fun _ => JString) (models.Step.Args m)));
   ("CmdWithArgs", Some (ptr_json JString (models.Step.CmdWithArgs m)));
   ("Command", Some (ptr_json JString (models.Step.Command m)));
   ("Depends", Some (slice_json is_nil at_ "Depends" (fun _ => JString) (models.Step.Depends m)));
   ("Description", Some (ptr_json JString (models.Step.Description m)));
   ("Dir", Some (ptr_json JString (models.Step.Dir m)));
   ("MailOnError", Some (ptr_json JBool (models.Step.MailOnError m)));
   ("Name", Some (ptr_json JString (models.Step.Name m)));
   ("Output", Some (ptr_json JString (models.Step.Output m)));
   ("Params", omitempty "" JString (models.Step.Params m));
   ("Preconditions", Some (slice_json is_nil at_ "Preconditions" (ptr_elements (Precondition.encode is_nil)) (models.Step.Preconditions m)));
   ("RepeatPolicy", Some (ptr_json (RepeatPolicy.encode is_nil (at_ ++ ["RepeatPolicy"])) (models.Step.RepeatPolicy m)));
   ("Run", omitempty "" JString (models.Step.Run m));
   ("Script", Some (ptr_json JString (models.Step.Script m)));
   ("Stderr", Some (ptr_json JString (models.Step.Stderr m)));
   ("Stdout", Some (ptr_json JString (models.Step.Stdout m)))].
Definition encode (is_nil : nilness) (at_ : path) (m : models.Step.t) : json :=
  JObject (present (members is_nil at_ m)).
Definition MarshalBinary (WriteJSON : json -> result string) (is_nil : nilness) : option models.Step.t -> result (option string) :=
  marshal WriteJSON (encode is_nil []).
Definition UnmarshalBinary (ReadJSON : string -> result models.Step.t) : string -> models.Step.t -> models.Step.t * option error :=
  unmarshal ReadJSON.
End Step.

Module HandlerOn.
Definition validateCancel {E} `{!OpenAPI E} (is_nil : nilness) (at_ : path) (m : models.HandlerOn.t) : option E :=
  optional_model "Cancel" (Step.Validate is_nil (at_ ++ ["Cancel"])) (models.HandlerOn.Cancel m).
Definition contextValidateCancel {E} `{!OpenAPI E} (m : models.HandlerOn.t) : option E :=
  context_model "Cancel" Step.ContextValidate (models.HandlerOn.Cancel m).
Definition validateExit {E} `{!OpenAPI E} (is_nil : nilness) (at_ : path) (m : models.HandlerOn.t) : option E :=
  optional_model "Exit" (Step.Validate is_nil (at_ ++ ["Exit"])) (models.HandlerOn.Exit m).
Definition contextValidateExit {E} `{!OpenAPI E} (m : models.HandlerOn.t) : option E :=
  context_model "Exit" Step.ContextValidate (models.HandlerOn.Exit m).
Definition validateFailure {E} `{!OpenAPI E} (is_nil : nilness) (at_ : path) (m : models.HandlerOn.t) : option E :=
  optional_model "Failure" (Step.Validate is_nil (at_ ++ ["Failure"])) (models.HandlerOn.Failure m).
Definition contextValidateFailure {E} `{!OpenAPI E} (m : models.HandlerOn.t) : option E :=
  context_model "Failure" Step.ContextValidate (models.HandlerOn.Failure m).
Definition validateSuccess {E} `{!OpenAPI E} (is_nil : nilness) (at_ : path) (m : models.HandlerOn.t) : option E :=
  optional_model "Success" (Step.Validate is_nil (at_ ++ ["Success"])) (models.HandlerOn.Success m).
Definition contextValidateSuccess {E} `{!OpenAPI E} (m : models.HandlerOn.t) : option E :=
  context_model "Success" Step.ContextValidate (models.HandlerOn.Success m).
Definition Validate {E} `{!OpenAPI E} (is_nil : nilness) (at_ : path) (m : models.HandlerOn.t) : option E :=
  collect [validateCancel is_nil at_ m; validateExit is_nil at_ m; validateFailure is_nil at_ m;
    validateSuccess is_nil at_ m].
Definition ContextValidate {E} `{!OpenAPI E} (m : models.HandlerOn.t) : option E :=
  collect [contextValidateCancel m; contextValidateExit m; contextValidateFailure m; contextValidateSuccess m].
Definition members (is_nil : nilness) (at_ : path) (m : models.HandlerOn.t) : list (string * option json) :=
  [("Cancel", (Step.encode is_nil (at_ ++ ["Cancel"])) <$> models.HandlerOn.Cancel m);
   ("Exit", (Step.encode is_nil (at_ ++ ["Exit"])) <$> models.HandlerOn.Exit m);
   ("Failure", (Step.encode is_nil (at_ ++ ["Failure"])) <$> models.HandlerOn.Failure m);
   ("Success", (Step.encode is_nil (at_ ++ ["Success"])) <$> models.HandlerOn.Success m)].
Definition encode (is_nil : nilness) (at_ : path) (m : models.HandlerOn.t) : json :=
  JObject (present (members is_nil at_ m)).
Definition MarshalBinary (WriteJSON : json -> result string) (is_nil : nilness) : option models.HandlerOn.t -> result (option string) :=
  marshal WriteJSON (encode is_nil []).
Definition UnmarshalBinary (ReadJSON : string -> result models.HandlerOn.t) : string -> models.HandlerOn.t -> models.HandlerOn.t * option error :=
  unmarshal ReadJSON.
End HandlerOn.

Module DAGDetails.
Definition validateDefaultParams {E} `{!OpenAPI E} (is_nil : nilness) (at_ : path) (m : models.DAGDetails.t) : option E :=
  Required "DefaultParams" "body" (nil_ptr (models.DAGDetails.DefaultParams m)).
Definition validateDelay {E} `{!OpenAPI E} (is_nil : nilness) (at_ : path) (m : models.DAGDetails.t) : option E :=
  Required "Delay" "body" (nil_ptr (models.DAGDetails.Delay m)).
Definition validateDescription {E} `{!OpenAPI E} (is_nil : nilness) (at_ : path) (m : models.DAGDetails.t) : option E :=
  Required "Description" "body" (nil_ptr (models.DAGDetails.Description m)).
Definition validateEnv {E} `{!OpenAPI E} (is_nil : nilness) (at_ : path) (m : models.DAGDetails.t) : option E :=
  Required "Env" "body" (nil_slice is_nil at_ "Env" (models.DAGDetails.Env m)).
Definition validateGroup {E} `{!OpenAPI E} (is_nil : nilness) (at_ : path) (m : models.DAGDetails.t) : option E :=
  Required "Group" "body" (nil_ptr (models.DAGDetails.Group m)).
Definition validateHandlerOn {E} `{!OpenAPI E} (is_nil : nilness) (at_ : path) (m : models.DAGDetails.t) : option E :=
  required_model "HandlerOn" (HandlerOn.Validate is_nil (at_ ++ ["HandlerOn"])) (models.DAGDetails.HandlerOn m).
Definition contextValidateHandlerOn {E} `{!OpenAPI E} (m : models.DAGDetails.t) : option E :=
  context_model "HandlerOn" HandlerOn.ContextValidate (models.DAGDetails.HandlerOn m).
Definition validateHistRetentionDays {E} `{!OpenAPI E} (is_nil : nilness) (at_ : path) (m : models.DAGDetails.t) : option E :=
  Required "HistRetentionDays" "body" (nil_ptr (models.DAGDetails.HistRetentionDays m)).
Definition validateLocation {E} `{!OpenAPI E} (is_nil : nilness) (at_ : path) (m : models.DAGDetails.t) : option E :=
  Required "Location" "body" (nil_ptr (models.DAGDetails.Location m)).
Definition validateLogDir {E} `{!OpenAPI E} (is_nil : nilness) (at_ : path) (m : models.DAGDetails.t) : option E :=
  Required "LogDir" "body" (nil_ptr (models.DAGDetails.LogDir m)).
Definition validateMaxActiveRuns {E} `{!OpenAPI E} (is_nil : nilness) (at_ : path) (m : models.DAGDetails.t) : option E :=
  Required "MaxActiveRuns" "body" (nil_ptr (models.DAGDetails.MaxActiveRuns m)).
Definition validateName {E} `{!OpenAPI E} (is_nil : nilness) (at_ : path) (m : models.DAGDetails.t) : option E :=
  Required "Name" "body" (nil_ptr (models.DAGDetails.Name m)).
Definition validateParams {E} `{!OpenAPI E} (is_nil : nilness) (at_ : path) (m : models.DAGDetails.t) : option E :=
  Required "Params" "body" (nil_slice is_nil at_ "Params" (models.DAGDetails.Params m)).
Definition validatePreconditions {E} `{!OpenAPI E} (is_nil : nilness) (at_ : path) (m : models.DAGDetails.t) : option E :=
  required_slice is_nil at_ "Preconditions" (Precondition.Validate is_nil) (models.DAGDetails.Preconditions m).
Definition contextValidatePreconditions {E} `{!OpenAPI E} (m : models.DAGDetails.t) : option E :=
  context_slice "Preconditions" Precondition.ContextValidate (models.DAGDetails.Preconditions m).
Definition validateSchedule {E} `{!OpenAPI E} (is_nil : nilness) (at_ : path) (m : models.DAGDetails.t) : option E :=
  required_slice is_nil at_ "Schedule" (Schedule.Validate is_nil) (models.DAGDetails.Schedule m).
Definition contextValidateSchedule {E} `{!OpenAPI E} (m : models.DAGDetails.t) : option E :=
  context_slice "Schedule" Schedule.ContextValidate (models.DAGDetails.Schedule m).
Definition validateSteps {E} `{!OpenAPI E} (is_nil : nilness) (at_ : path) (m : models.DAGDetails.t) : option E :=
  required_slice is_nil at_ "Steps" (Step.Validate is_nil) (models.DAGDetails.Steps m).
Definition contextValidateSteps {E} `{!OpenAPI E} (m : models.DAGDetails.t) : option E :=
  context_slice "Steps" Step.ContextValidate (models.DAGDetails.Steps m).
Definition validateTags {E} `{!OpenAPI E} (is_nil : nilness) (at_ : path) (m : models.DAGDetails.t) : option E :=
  Required "Tags" "body" (nil_slice is_nil at_ "Tags" (models.DAGDetails.Tags m)).
Definition Validate {E} `{!OpenAPI E} (is_nil : nilness) (at_ : path) (m : models.DAGDetails.t) : option E :=
  collect [validateDefaultParams is_nil at_ m; validateDelay is_nil at_ m; validateDescription is_nil at_ m;
    validateEnv is_nil at_ m; validateGroup is_nil at_ m; validateHandlerOn is_nil at_ m;
    validateHistRetentionDays is_nil at_ m; validateLocation is_nil at_ m; validateLogDir is_nil at_ m;
    validateMaxActiveRuns is_nil at_ m; validateName is_nil at_ m; validateParams is_nil at_ m;
    validatePreconditions is_nil at_ m; validateSchedule is_nil at_ m; validateSteps is_nil at_ m;
    validateTags is_nil at_ m].
Definition ContextValidate {E} `{!OpenAPI E} (m : models.DAGDetails.t) : option E :=
  collect [contextValidateHandlerOn m; contextValidatePreconditions m; contextValidateSchedule m;
    contextValidateSteps m].
Definition members (is_nil : nilness) (at_ : path) (m : models.DAGDetails.t) : list (string * option json) :=
  [("DefaultParams", Some (ptr_json JString (models.DAGDetails.DefaultParams m)));
   ("Delay", Some (ptr_json JNum (models.DAGDetails.Delay m)));
   ("Description", Some (ptr_json JString (models.DAGDetails.Description m)));
   ("Env", Some (slice_json is_nil at_ "Env" (fun _ => JString) (models.DAGDetails.Env m)));
   ("Group", Some (ptr_json JString (models.DAGDetails.Group m)));
   ("HandlerOn", Some (ptr_json (HandlerOn.encode is_nil (at_ ++ ["HandlerOn"])) (models.DAGDetails.HandlerOn m)));
   ("HistRetentionDays", Some (ptr_json JNum (models.DAGDetails.HistRetentionDays m)));
   ("Location", Some (ptr_json JString (models.DAGDetails.Location m)));
   ("LogDir", Some (ptr_json JString (models.DAGDetails.LogDir m)));
   ("MaxActiveRuns", Some (ptr_json JNum (models.DAGDetails.MaxActiveRuns m)));
   ("Name", Some (ptr_json JString (models.DAGDetails.Name m)));
   ("Params", Some (slice_json is_nil at_ "Params" (fun _ => JString) (models.DAGDetails.Params m)));
   ("Preconditions", Some (slice_json is_nil at_ "Preconditions" (ptr_elements (Precondition.encode is_nil)) (models.DAGDetails.Preconditions m)));
   ("Schedule", Some (slice_json is_nil at_ "Schedule" (ptr_elements (Schedule.encode is_nil)) (models.DAGDetails.Schedule m)));
   ("Steps", Some (slice_json is_nil at_ "Steps" (ptr_elements (Step.encode is_nil)) (models.DAGDetails.Steps m)));
   ("Tags", Some (slice_json is_nil at_ "Tags" (fun _ => JString) (models.DAGDetails.Tags m)))].
Definition encode (is_nil : nilness) (at_ : path) (m : models.DAGDetails.t) : json :=
  JObject (present (members is_nil at_ m)).
Definition MarshalBinary (WriteJSON : json -> result string) (is_nil : nilness) : option models.DAGDetails.t -> result (option string) :=
  marshal WriteJSON (encode is_nil []).
Definition UnmarshalBinary (ReadJSON : string -> result models.DAGDetails.t) : string -> models.DAGDetails.t -> models.DAGDetails.t * option error :=
  unmarshal ReadJSON.
End DAGDetails.

Module DAGLogGridItem.
Definition validateName {E} `{!OpenAPI E} (is_nil : nilness) (at_ : path) (m : models.DAGLogGridItem.t) : option E :=
  Required "Name" "body" (nil_ptr (models.DAGLogGridItem.Name m)).
Definition validateVals {E} `{!OpenAPI E} (is_nil : nilness) (at_ : path) (m : models.DAGLogGridItem.t) : option E :=
  Required "Vals" "body" (nil_slice is_nil at_ "Vals" (models.DAGLogGridItem.Vals m)).
Definition Validate {E} `{!OpenAPI E} (is_nil : nilness) (at_ : path) (m : models.DAGLogGridItem.t) : option E :=
  collect [validateName is_nil at_ m; validateVals is_nil at_ m].
Definition ContextValidate {E} `{!OpenAPI E} (m : models.DAGLogGridItem.t) : option E :=
  None.
Definition members (is_nil : nilness) (at_ : path) (m : models.DAGLogGridItem.t) : list (string * option json) :=
  [("Name", Some (ptr_json JString (models.DAGLogGridItem.Name m)));
   ("Vals", Some (slice_json is_nil at_ "Vals" (fun _ => JNum) (models.DAGLogGridItem.Vals m)))].
Definition encode (is_nil : nilness) (at_ : path) (m : models.DAGLogGridItem.t) : json :=
  JObject (present (members is_nil at_ m)).
Definition MarshalBinary (WriteJSON : json -> result string) (is_nil : nilness) : option models.DAGLogGridItem.t -> result (option string) :=
  marshal WriteJSON (encode is_nil []).
Definition UnmarshalBinary (ReadJSON : string -> result models.DAGLogGridItem.t) : string -> models.DAGLogGridItem.t -> models.DAGLogGridItem.t * option error :=
  unmarshal ReadJSON.
End DAGLogGridItem.

Module Node.
Definition validateDoneCount {E} `{!OpenAPI E} (is_nil : nilness) (at_ : path) (m : models.Node.t) : option E :=
  Required "DoneCount" "body" (nil_ptr (models.Node.DoneCount m)).
Definition validateError {E} `{!OpenAPI E} (is_nil : nilness) (at_ : path) (m : models.Node.t) : option E :=
  Required "Error" "body" (nil_ptr (models.Node.Error m)).
Definition validateFinishedAt {E} `{!OpenAPI E} (is_nil : nilness) (at_ : path) (m : models.Node.t) : option E :=
  Required "FinishedAt" "body" (nil_ptr (models.Node.FinishedAt m)).
Definition validateLog {E} `{!OpenAPI E} (is_nil : nilness) (at_ : path) (m : models.Node.t) : option E :=
  Required "Log" "body" (nil_ptr (models.Node.Log m)).
Definition validateRetryCount {E} `{!OpenAPI E} (is_nil : nilness) (at_ : path) (m : models.Node.t) : option E :=
  Required "RetryCount" "body" (nil_ptr (models.Node.RetryCount m)).
Definition validateStartedAt {E} `{!OpenAPI E} (is_nil : nilness) (at_ : path) (m : models.Node.t) : option E :=
  Required "StartedAt" "body" (nil_ptr (models.Node.StartedAt m)).
Definition validateStatus {E} `{!OpenAPI E} (is_nil : nilness) (at_ : path) (m : models.Node.t) : option E :=
  Required "Status" "body" (nil_ptr (models.Node.Status m)).
Definition validateStatusText {E} `{!OpenAPI E} (is_nil : nilness) (at_ : path) (m : models.Node.t) : option E :=
  Required "StatusText" "body" (nil_ptr (models.Node.StatusText m)).
Definition validateStep {E} `{!OpenAPI E} (is_nil : nilness) (at_ : path) (m : models.Node.t) : option E :=
  required_model "Step" (Step.Validate is_nil (at_ ++ ["Step"])) (models.Node.Step m).
Definition contextValidateStep {E} `{!OpenAPI E} (m : models.Node.t) : option E :=
  context_model "Step" Step.ContextValidate (models.Node.Step m).
Definition Validate {E} `{!OpenAPI E} (is_nil : nilness) (at_ : path) (m : models.Node.t) : option E :=
  collect [validateDoneCount is_nil at_ m; validateError is_nil at_ m; validateFinishedAt is_nil at_ m;
    validateLog is_nil at_ m; validateRetryCount is_nil at_ m; validateStartedAt is_nil at_ m;
    validateStatus is_nil at_ m; validateStatusText is_nil at_ m; validateStep is_nil at_ m].
Definition ContextValidate {E} `{!OpenAPI E} (m : models.Node.t) : option E :=
  collect [contextValidateStep m].
Definition members (is_nil : nilness) (at_ : path) (m : models.Node.t) : list (string * option json) :=
  [("DoneCount", Some (ptr_json JNum (models.Node.DoneCount m)));
   ("Error", Some (ptr_json JString (models.Node.Error m)));
   ("FinishedAt", Some (ptr_json JString (models.Node.FinishedAt m)));
   ("Log", Some (ptr_json JString (models.Node.Log m)));
   ("RetryCount", Some (ptr_json JNum (models.Node.RetryCount m)));
   ("StartedAt", Some (ptr_json JString (models.Node.StartedAt m)));
   ("Status", Some (ptr_json JNum (models.Node.Status m)));
   ("StatusText", Some (ptr_json JString (models.Node.StatusText m)));
   ("Step", Some (ptr_json (Step.encode is_nil (at_ ++ ["Step"])) (models.Node.Step m)))].
Definition encode (is_nil : nilness) (at_ : path) (m : models.Node.t) : json :=
  JObject (present (members is_nil at_ m)).
Definition MarshalBinary (WriteJSON : json -> result string) (is_nil : nilness) : option models.Node.t -> result (option string) :=
  marshal WriteJSON (encode is_nil []).
Definition UnmarshalBinary (ReadJSON : string -> result models.Node.t) : string -> models.Node.t -> models.Node.t * option error :=
  unmarshal ReadJSON.
End Node.

Module DAGStatusDetails.
Definition validateFinishedAt {E} `{!OpenAPI E} (is_nil : nilness) (at_ : path) (m : models.DAGStatusDetails.t) : option E :=
  Required "FinishedAt" "body" (nil_ptr (models.DAGStatusDetails.FinishedAt m)).
Definition validateLog {E} `{!OpenAPI E} (is_nil : nilness) (at_ : path) (m : models.DAGStatusDetails.t) : option E :=
  Required "Log" "body" (nil_ptr (models.DAGStatusDetails.Log m)).
Definition validateName {E} `{!OpenAPI E} (is_nil : nilness) (at_ : path) (m : models.DAGStatusDetails.t) : option E :=
  Required "Name" "body" (nil_ptr (models.DAGStatusDetails.Name m)).
Definition validateNodes {E} `{!OpenAPI E} (is_nil : nilness) (at_ : path) (m : models.DAGStatusDetails.t) : option E :=
  required_slice is_nil at_ "Nodes" (Node.Validate is_nil) (models.DAGStatusDetails.Nodes m).
Definition contextValidateNodes {E} `{!OpenAPI E} (m : models.DAGStatusDetails.t) : option E :=
  context_slice "Nodes" Node.ContextValidate (models.DAGStatusDetails.Nodes m).
Definition validateOnCancel {E} `{!OpenAPI E} (is_nil : nilness) (at_ : path) (m : models.DAGStatusDetails.t) : option E :=
  required_model "OnCancel" (Node.Validate is_nil (at_ ++ ["OnCancel"])) (models.DAGStatusDetails.OnCancel m).
Definition contextValidateOnCancel {E} `{!OpenAPI E} (m : models.DAGStatusDetails.t) : option E :=
  context_model "OnCancel" Node.ContextValidate (models.DAGStatusDetails.OnCancel m).
Definition validateOnExit {E} `{!OpenAPI E} (is_nil : nilness) (at_ : path) (m : models.DAGStatusDetails.t) : option E :=
  required_model "OnExit" (Node.Validate is_nil (at_ ++ ["OnExit"])) (models.DAGStatusDetails.OnExit m).
Definition contextValidateOnExit {E} `{!OpenAPI E} (m : models.DAGStatusDetails.t) : option E :=
  context_model "OnExit" Node.ContextValidate (models.DAGStatusDetails.OnExit m).
Definition validateOnFailure {E} `{!OpenAPI E} (is_nil : nilness) (at_ : path) (m : models.DAGStatusDetails.t) : option E :=
  required_model "OnFailure" (Node.Validate is_nil (at_ ++ ["OnFailure"])) (models.DAGStatusDetails.OnFailure m).
Definition contextValidateOnFailure {E} `{!OpenAPI E} (m : models.DAGStatusDetails.t) : option E :=
  context_model "OnFailure" Node.ContextValidate (models.DAGStatusDetails.OnFailure m).
Definition validateOnSuccess {E} `{!OpenAPI E} (is_nil : nilness) (at_ : path) (m : models.DAGStatusDetails.t) : option E :=
  required_model "OnSuccess" (Node.Validate is_nil (at_ ++ ["OnSuccess"])) (models.DAGStatusDetails.OnSuccess m).
Definition contextValidateOnSuccess {E} `{!OpenAPI E} (m : models.DAGStatusDetails.t) : option E :=
  context_model "OnSuccess" Node.ContextValidate (models.DAGStatusDetails.OnSuccess m).
Definition validateParams {E} `{!OpenAPI E} (is_nil : nilness) (at_ : path) (m : models.DAGStatusDetails.t) : option E :=
  Required "Params" "body" (nil_ptr (models.DAGStatusDetails.Params m)).
Definition validatePid {E} `{!OpenAPI E} (is_nil : nilness) (at_ : path) (m : models.DAGStatusDetails.t) : option E :=
  Required "Pid" "body" (nil_ptr (models.DAGStatusDetails.Pid m)).
Definition validateRequestID {E} `{!OpenAPI E} (is_nil : nilness) (at_ : path) (m : models.DAGStatusDetails.t) : option E :=
  Required "RequestId" "body" (nil_ptr (models.DAGStatusDetails.RequestID m)).
Definition validateStartedAt {E} `{!OpenAPI E} (is_nil : nilness) (at_ : path) (m : models.DAGStatusDetails.t) : option E :=
  Required "StartedAt" "body" (nil_ptr (models.DAGStatusDetails.StartedAt m)).
Definition validateStatus {E} `{!OpenAPI E} (is_nil : nilness) (at_ : path) (m : models.DAGStatusDetails.t) : option E :=
  Required "Status" "body" (nil_ptr (models.DAGStatusDetails.Status m)).
Definition validateStatusText {E} `{!OpenAPI E} (is_nil : nilness) (at_ : path) (m : models.DAGStatusDetails.t) : option E :=
  Required "StatusText" "body" (nil_ptr (models.DAGStatusDetails.StatusText m)).
Definition Validate {E} `{!OpenAPI E} (is_nil : nilness) (at_ : path) (m : models.DAGStatusDetails.t) : option E :=
  collect [validateFinishedAt is_nil at_ m; validateLog is_nil at_ m; validateName is_nil at_ m;
    validateNodes is_nil at_ m; validateOnCancel is_nil at_ m; validateOnExit is_nil at_ m;
    validateOnFailure is_nil at_ m; validateOnSuccess is_nil at_ m; validateParams is_nil at_ m;
    validatePid is_nil at_ m; validateRequestID is_nil at_ m; validateStartedAt is_nil at_ m;
    validateStatus is_nil at_ m; validateStatusText is_nil at_ m].
Definition ContextValidate {E} `{!OpenAPI E} (m : models.DAGStatusDetails.t) : option E :=
  collect [contextValidateNodes m; contextValidateOnCancel m; contextValidateOnExit m; contextValidateOnFailure m;
    contextValidateOnSuccess m].
Definition members (is_nil : nilness) (at_ : path) (m : models.DAGStatusDetails.t) : list (string * option json) :=
  [("FinishedAt", Some (ptr_json JString (models.DAGStatusDetails.FinishedAt m)));
   ("Log", Some (ptr_json JString (models.DAGStatusDetails.Log m)));
   ("Name", Some (ptr_json JString (models.DAGStatusDetails.Name m)));
   ("Nodes", Some (slice_json is_nil at_ "Nodes" (ptr_elements (Node.encode is_nil)) (models.DAGStatusDetails.Nodes m)));
   ("OnCancel", Some (ptr_json (Node.encode is_nil (at_ ++ ["OnCancel"])) (models.DAGStatusDetails.OnCancel m)));
   ("OnExit", Some (ptr_json (Node.encode is_nil (at_ ++ ["OnExit"])) (models.DAGStatusDetails.OnExit m)));
   ("OnFailure", Some (ptr_json (Node.encode is_nil (at_ ++ ["OnFailure"])) (models.DAGStatusDetails.OnFailure m)));
   ("OnSuccess", Some (ptr_json (Node.encode is_nil (at_ ++ ["OnSuccess"])) (models.DAGStatusDetails.OnSuccess m)));
   ("Params", Some (ptr_json JString (models.DAGStatusDetails.Params m)));
   ("Pid", Some (ptr_json JNum (models.DAGStatusDetails.Pid m)));
   ("RequestId", Some (ptr_json JString (models.DAGStatusDetails.RequestID m)));
   ("StartedAt", Some (ptr_json JString (models.DAGStatusDetails.StartedAt m)));
   ("Status", Some (ptr_json JNum (models.DAGStatusDetails.Status m)));
   ("StatusText", Some (ptr_json JString (models.DAGStatusDetails.StatusText m)))].
Definition encode (is_nil : nilness) (at_ : path) (m : models.DAGStatusDetails.t) : json :=
  JObject (present (members is_nil at_ m)).
Definition MarshalBinary (WriteJSON : json -> result string) (is_nil : nilness) : option models.DAGStatusDetails.t -> result (option string) :=
  marshal WriteJSON (encode is_nil []).
Definition UnmarshalBinary (ReadJSON : string -> result models.DAGStatusDetails.t) : string -> models.DAGStatusDetails.t -> models.DAGStatusDetails.t * option error :=
  unmarshal ReadJSON.
End DAGStatusDetails.

Module DAGLogStatusFile.
Definition validateFile {E} `{!OpenAPI E} (is_nil : nilness) (at_ : path) (m : models.DAGLogStatusFile.t) : option E :=
  Required "File" "body" (nil_ptr (models.DAGLogStatusFile.File m)).
Definition validateStatus {E} `{!OpenAPI E} (is_nil : nilness) (at_ : path) (m : models.DAGLogStatusFile.t) : option E :=
  required_model "Status" (DAGStatusDetails.Validate is_nil (at_ ++ ["Status"])) (models.DAGLogStatusFile.Status m).
Definition contextValidateStatus {E} `{!OpenAPI E} (m : models.DAGLogStatusFile.t) : option E :=
  context_model "Status" DAGStatusDetails.ContextValidate (models.DAGLogStatusFile.Status m).
Definition Validate {E} `{!OpenAPI E} (is_nil : nilness) (at_ : path) (m : models.DAGLogStatusFile.t) : option E :=
  collect [validateFile is_nil at_ m; validateStatus is_nil at_ m].
Definition ContextValidate {E} `{!OpenAPI E} (m : models.DAGLogStatusFile.t) : option E :=
  collect [contextValidateStatus m].
Definition members (is_nil : nilness) (at_ : path) (m : models.DAGLogStatusFile.t) : list (string * option json) :=
  [("File", Some (ptr_json JString (models.DAGLogStatusFile.File m)));
   ("Status", Some (ptr_json (DAGStatusDetails.encode is_nil (at_ ++ ["Status"])) (models.DAGLogStatusFile.Status m)))].
Definition encode (is_nil : nilness) (at_ : path) (m : models.DAGLogStatusFile.t) : json :=
  JObject (present (members is_nil at_ m)).
Definition MarshalBinary (WriteJSON : json -> result string) (is_nil : nilness) : option models.DAGLogStatusFile.t -> result (option string) :=
  marshal WriteJSON (encode is_nil []).
Definition UnmarshalBinary (ReadJSON : string -> result models.DAGLogStatusFile.t) : string -> models.DAGLogStatusFile.t -> models.DAGLogStatusFile.t * option error :=
  unmarshal ReadJSON.
End DAGLogStatusFile.

Module DAGLogData.
Definition validateGridData {E} `{!OpenAPI E} (is_nil : nilness) (at_ : path) (m : models.DAGLogData.t) : option E :=
  required_slice is_nil at_ "GridData" (DAGLogGridItem.Validate is_nil) (models.DAGLogData.GridData m).
Definition contextValidateGridData {E} `{!OpenAPI E} (m : models.DAGLogData.t) : option E :=
  context_slice "GridData" DAGLogGridItem.ContextValidate (models.DAGLogData.GridData m).
Definition validateLogs {E} `{!OpenAPI E} (is_nil : nilness) (at_ : path) (m : models.DAGLogData.t) : option E :=
  required_slice is_nil at_ "Logs" (DAGLogStatusFile.Validate is_nil) (models.DAGLogData.Logs m).
Definition contextValidateLogs {E} `{!OpenAPI E} (m : models.DAGLogData.t) : option E :=
  context_slice "Logs" DAGLogStatusFile.ContextValidate (models.DAGLogData.Logs m).
Definition Validate {E} `{!OpenAPI E} (is_nil : nilness) (at_ : path) (m : models.DAGLogData.t) : option E :=
  collect [validateGridData is_nil at_ m; validateLogs is_nil at_ m].
Definition ContextValidate {E} `{!OpenAPI E} (m : models.DAGLogData.t) : option E :=
  collect [contextValidateGridData m; contextValidateLogs m].
Definition members (is_nil : nilness) (at_ : path) (m : models.DAGLogData.t) : list (string * option json) :=
  [("GridData", Some (slice_json is_nil at_ "GridData" (ptr_elements (DAGLogGridItem.encode is_nil)) (models.DAGLogData.GridData m)));
   ("Logs", Some (slice_json is_nil at_ "Logs" (ptr_elements (DAGLogStatusFile.encode is_nil)) (models.DAGLogData.Logs m)))].
Definition encode (is_nil : nilness) (at_ : path) (m : models.DAGLogData.t) : json :=
  JObject (present (members is_nil at_ m)).
Definition MarshalBinary (WriteJSON : json -> result string) (is_nil : nilness) : option models.DAGLogData.t -> result (option string) :=
  marshal WriteJSON (encode is_nil []).
Definition UnmarshalBinary (ReadJSON : string -> result models.DAGLogData.t) : string -> models.DAGLogData.t -> models.DAGLogData.t * option error :=
  unmarshal ReadJSON.
End DAGLogData.

Module DAGStatus.
Definition validateFinishedAt {E} `{!OpenAPI E} (is_nil : nilness) (at_ : path) (m : models.DAGStatus.t) : option E :=
  Required "FinishedAt" "body" (nil_ptr (models.DAGStatus.FinishedAt m)).
Definition validateLog {E} `{!OpenAPI E} (is_nil : nilness) (at_ : path) (m : models.DAGStatus.t) : option E :=
  Required "Log" "body" (nil_ptr (models.DAGStatus.Log m)).
Definition validateName {E} `{!OpenAPI E} (is_nil : nilness) (at_ : path) (m : models.DAGStatus.t) : option E :=
  Required "Name" "body" (nil_ptr (models.DAGStatus.Name m)).
Definition validateParams {E} `{!OpenAPI E} (is_nil : nilness) (at_ : path) (m : models.DAGStatus.t) : option E :=
  Required "Params" "body" (nil_ptr (models.DAGStatus.Params m)).
Definition validatePid {E} `{!OpenAPI E} (is_nil : nilness) (at_ : path) (m : models.DAGStatus.t) : option E :=
  Required "Pid" "body" (nil_ptr (models.DAGStatus.Pid m)).
Definition validateRequestID {E} `{!OpenAPI E} (is_nil : nilness) (at_ : path) (m : models.DAGStatus.t) : option E :=
  Required "RequestId" "body" (nil_ptr (models.DAGStatus.RequestID m)).
Definition validateStartedAt {E} `{!OpenAPI E} (is_nil : nilness) (at_ : path) (m : models.DAGStatus.t) : option E :=
  Required "StartedAt" "body" (nil_ptr (models.DAGStatus.StartedAt m)).
Definition validateStatus {E} `{!OpenAPI E} (is_nil : nilness) (at_ : path) (m : models.DAGStatus.t) : option E :=
  Required "Status" "body" (nil_ptr (models.DAGStatus.Status m)).
Definition validateStatusText {E} `{!OpenAPI E} (is_nil : nilness) (at_ : path) (m : models.DAGStatus.t) : option E :=
  Required "StatusText" "body" (nil_ptr (models.DAGStatus.StatusText m)).
Definition Validate {E} `{!OpenAPI E} (is_nil : nilness) (at_ : path) (m : models.DAGStatus.t) : option E :=
  collect [validateFinishedAt is_nil at_ m; validateLog is_nil at_ m; validateName is_nil at_ m;
    validateParams is_nil at_ m; validatePid is_nil at_ m; validateRequestID is_nil at_ m;
    validateStartedAt is_nil at_ m; validateStatus is_nil at_ m; validateStatusText is_nil at_ m].
Definition ContextValidate {E} `{!OpenAPI E} (m : models.DAGStatus.t) : option E :=
  None.
Definition members (is_nil : nilness) (at_ : path) (m : models.DAGStatus.t) : list (string * option json) :=
  [("FinishedAt", Some (ptr_json JString (models.DAGStatus.FinishedAt m)));
   ("Log", Some (ptr_json JString (models.DAGStatus.Log m)));
   ("Name", Some (ptr_json JString (models.DAGStatus.Name m)));
   ("Params", Some (ptr_json JString (models.DAGStatus.Params m)));
   ("Pid", Some (ptr_json JNum (models.DAGStatus.Pid m)));
   ("RequestId", Some (ptr_json JString (models.DAGStatus.RequestID m)));
   ("StartedAt", Some (ptr_json JString (models.DAGStatus.StartedAt m)));
   ("Status", Some (ptr_json JNum (models.DAGStatus.Status m)));
   ("StatusText", Some (ptr_json JString (models.DAGStatus.StatusText m)))].
Definition encode (is_nil : nilness) (at_ : path) (m : models.DAGStatus.t) : json :=
  JObject (present (members is_nil at_ m)).
Definition MarshalBinary (WriteJSON : json -> result string) (is_nil : nilness) : option models.DAGStatus.t -> result (option string) :=
  marshal WriteJSON (encode is_nil []).
Definition UnmarshalBinary (ReadJSON : string -> result models.DAGStatus.t) : string -> models.DAGStatus.t -> models.DAGStatus.t * option error :=
  unmarshal ReadJSON.
End DAGStatus.

Module DAGStatusFile.
Definition validateDAG {E} `{!OpenAPI E} (is_nil : nilness) (at_ : path) (m : models.DAGStatusFile.t) : option E :=
  required_model "DAG" (DAG.Validate is_nil (at_ ++ ["DAG"])) (models.DAGStatusFile.DAG m).
Definition contextValidateDAG {E} `{!OpenAPI E} (m : models.DAGStatusFile.t) : option E :=
  context_model "DAG" DAG.ContextValidate (models.DAGStatusFile.DAG m).
Definition validateDir {E} `{!OpenAPI E} (is_nil : nilness) (at_ : path) (m : models.DAGStatusFile.t) : option E :=
  Required "Dir" "body" (nil_ptr (models.DAGStatusFile.Dir m)).
Definition validateError {E} `{!OpenAPI E} (is_nil : nilness) (at_ : path) (m : models.DAGStatusFile.t) : option E :=
  Required "Error" "body" (nil_ptr (models.DAGStatusFile.Error m)).
Definition validateFile {E} `{!OpenAPI E} (is_nil : nilness) (at_ : path) (m : models.DAGStatusFile.t) : option E :=
  Required "File" "body" (nil_ptr (models.DAGStatusFile.File m)).
Definition validateStatus {E} `{!OpenAPI E} (is_nil : nilness) (at_ : path) (m : models.DAGStatusFile.t) : option E :=
  required_model "Status" (DAGStatus.Validate is_nil (at_ ++ ["Status"])) (models.DAGStatusFile.Status m).
Definition contextValidateStatus {E} `{!OpenAPI E} (m : models.DAGStatusFile.t) : option E :=
  context_model "Status" DAGStatus.ContextValidate (models.DAGStatusFile.Status m).
Definition validateSuspended {E} `{!OpenAPI E} (is_nil : nilness) (at_ : path) (m : models.DAGStatusFile.t) : option E :=
  Required "Suspended" "body" (nil_ptr (models.DAGStatusFile.Suspended m)).
Definition Validate {E} `{!OpenAPI E} (is_nil : nilness) (at_ : path) (m : models.DAGStatusFile.t) : option E :=
  collect [validateDAG is_nil at_ m; validateDir is_nil at_ m; validateError is_nil at_ m;
    validateFile is_nil at_ m; validateStatus is_nil at_ m; validateSuspended is_nil at_ m].
Definition ContextValidate {E} `{!OpenAPI E} (m : models.DAGStatusFile.t) : option E :=
  collect [contextValidateDAG m; contextValidateStatus m].
Definition members (is_nil : nilness) (at_ : path) (m : models.DAGStatusFile.t) : list (string * option json) :=
  [("DAG", Some (ptr_json (DAG.encode is_nil (at_ ++ ["DAG"])) (models.DAGStatusFile.DAG m)));
   ("Dir", Some (ptr_json JString (models.DAGStatusFile.Dir m)));
   ("Error", Some (ptr_json JString (models.DAGStatusFile.Error m)));
   ("File", Some (ptr_json JString (models.DAGStatusFile.File m)));
   ("Status", Some (ptr_json (DAGStatus.encode is_nil (at_ ++ ["Status"])) (models.DAGStatusFile.Status m)));
   ("Suspended", Some (ptr_json JBool (models.DAGStatusFile.Suspended m)))].
Definition encode (is_nil : nilness) (at_ : path) (m : models.DAGStatusFile.t) : json :=
  JObject (present (members is_nil at_ m)).
Definition MarshalBinary (WriteJSON : json -> result string) (is_nil : nilness) : option models.DAGStatusFile.t -> result (option string) :=
  marshal WriteJSON (encode is_nil []).
Definition UnmarshalBinary (ReadJSON : string -> result models.DAGStatusFile.t) : string -> models.DAGStatusFile.t -> models.DAGStatusFile.t * option error :=
  unmarshal ReadJSON.
End DAGStatusFile.

Module DAGStatusFileDetails.
Definition validateDAG {E} `{!OpenAPI E} (is_nil : nilness) (at_ : path) (m : models.DAGStatusFileDetails.t) : option E :=
  required_model "DAG" (DAGDetails.Validate is_nil (at_ ++ ["DAG"])) (models.DAGStatusFileDetails.DAG m).
Definition contextValidateDAG {E} `{!OpenAPI E} (m : models.DAGStatusFileDetails.t) : option E :=
  context_model "DAG" DAGDetails.ContextValidate (models.DAGStatusFileDetails.DAG m).
Definition validateDir {E} `{!OpenAPI E} (is_nil : nilness) (at_ : path) (m : models.DAGStatusFileDetails.t) : option E :=
  Required "Dir" "body" (nil_ptr (models.DAGStatusFileDetails.Dir m)).
Definition validateError {E} `{!OpenAPI E} (is_nil : nilness) (at_ : path) (m : models.DAGStatusFileDetails.t) : option E :=
  Required "Error" "body" (nil_ptr (models.DAGStatusFileDetails.Error m)).
Definition validateFile {E} `{!OpenAPI E} (is_nil : nilness) (at_ : path) (m : models.DAGStatusFileDetails.t) : option E :=
  Required "File" "body" (nil_ptr (models.DAGStatusFileDetails.File m)).
Definition validateStatus {E} `{!OpenAPI E} (is_nil : nilness) (at_ : path) (m : models.DAGStatusFileDetails.t) : option E :=
  required_model "Status" (DAGStatusDetails.Validate is_nil (at_ ++ ["Status"])) (models.DAGStatusFileDetails.Status m).
Definition contextValidateStatus {E} `{!OpenAPI E} (m : models.DAGStatusFileDetails.t) : option E :=
  context_model "Status" DAGStatusDetails.ContextValidate (models.DAGStatusFileDetails.Status m).
Definition validateSuspended {E} `{!OpenAPI E} (is_nil : nilness) (at_ : path) (m : models.DAGStatusFileDetails.t) : option E :=
  Required "Suspended" "body" (nil_ptr (models.DAGStatusFileDetails.Suspended m)).
Definition Validate {E} `{!OpenAPI E} (is_nil : nilness) (at_ : path) (m : models.DAGStatusFileDetails.t) : option E :=
  collect [validateDAG is_nil at_ m; validateDir is_nil at_ m; validateError is_nil at_ m;
    validateFile is_nil at_ m; validateStatus is_nil at_ m; validateSuspended is_nil at_ m].
Definition ContextValidate {E} `{!OpenAPI E} (m : models.DAGStatusFileDetails.t) : option E :=
  collect [contextValidateDAG m; contextValidateStatus m].
Definition members (is_nil : nilness) (at_ : path) (m : models.DAGStatusFileDetails.t) : list (string * option json) :=
  [("DAG", Some (ptr_json (DAGDetails.encode is_nil (at_ ++ ["DAG"])) (models.DAGStatusFileDetails.DAG m)));
   ("Dir", Some (ptr_json JString (models.DAGStatusFileDetails.Dir m)));
   ("Error", Some (ptr_json JString (models.DAGStatusFileDetails.Error m)));
   ("File", Some (ptr_json JString (models.DAGStatusFileDetails.File m)));
   ("Status", Some (ptr_json (DAGStatusDetails.encode is_nil (at_ ++ ["Status"])) (models.DAGStatusFileDetails.Status m)));
   ("Suspended", Some (ptr_json JBool (models.DAGStatusFileDetails.Suspended m)))].
Definition encode (is_nil : nilness) (at_ : path) (m : models.DAGStatusFileDetails.t) : json :=
  JObject (present (members is_nil at_ m)).
Definition MarshalBinary (WriteJSON : json -> result string) (is_nil : nilness) : option models.DAGStatusFileDetails.t -> result (option string) :=
  marshal WriteJSON (encode is_nil []).
Definition UnmarshalBinary (ReadJSON : string -> result models.DAGStatusFileDetails.t) : string -> models.DAGStatusFileDetails.t -> models.DAGStatusFileDetails.t * option error :=
  unmarshal ReadJSON.
End DAGStatusFileDetails.

Module Error.
Definition errorTypeCodePropEnum : list string :=
  ["validation_error"; "not_found"; "internal_error"; "unauthorized"; "bad_gateway"].
Definition validateCode {E} `{!OpenAPI E} (is_nil : nilness) (at_ : path) (m : models.Error.t) : option E :=
  required_enum "code" errorTypeCodePropEnum (models.Error.Code m).
Definition validateMessage {E} `{!OpenAPI E} (is_nil : nilness) (at_ : path) (m : models.Error.t) : option E :=
  Required "message" "body" (nil_ptr (models.Error.Message m)).
Definition Validate {E} `{!OpenAPI E} (is_nil : nilness) (at_ : path) (m : models.Error.t) : option E :=
  collect [validateCode is_nil at_ m; validateMessage is_nil at_ m].
Definition ContextValidate {E} `{!OpenAPI E} (m : models.Error.t) : option E :=
  None.
Definition members (is_nil : nilness) (at_ : path) (m : models.Error.t) : list (string * option json) :=
  [("code", Some (ptr_json JString (models.Error.Code m)));
   ("details", models.Error.Details m);
   ("message", Some (ptr_json JString (models.Error.Message m)))].
Definition encode (is_nil : nilness) (at_ : path) (m : models.Error.t) : json :=
  JObject (present (members is_nil at_ m)).
Definition MarshalBinary (WriteJSON : json -> result string) (is_nil : nilness) : option models.Error.t -> result (option string) :=
  marshal WriteJSON (encode is_nil []).
Definition UnmarshalBinary (ReadJSON : string -> result models.Error.t) : string -> models.Error.t -> models.Error.t * option error :=
  unmarshal ReadJSON.
End Error.

Module SchedulerLog.
Definition validateContent {E} `{!OpenAPI E} (is_nil : nilness) (at_ : path) (m : models.SchedulerLog.t) : option E :=
  Required "Content" "body" (nil_ptr (models.SchedulerLog.Content m)).
Definition validateLogFile {E} `{!OpenAPI E} (is_nil : nilness) (at_ : path) (m : models.SchedulerLog.t) : option E :=
  Required "LogFile" "body" (nil_ptr (models.SchedulerLog.LogFile m)).
Definition Validate {E} `{!OpenAPI E} (is_nil : nilness) (at_ : path) (m : models.SchedulerLog.t) : option E :=
  collect [validateContent is_nil at_ m; validateLogFile is_nil at_ m].
Definition ContextValidate {E} `{!OpenAPI E} (m : models.SchedulerLog.t) : option E :=
  None.
Definition members (is_nil : nilness) (at_ : path) (m : models.SchedulerLog.t) : list (string * option json) :=
  [("Content", Some (ptr_json JString (models.SchedulerLog.Content m)));
   ("LogFile", Some (ptr_json JString (models.SchedulerLog.LogFile m)))].
Definition encode (is_nil : nilness) (at_ : path) (m : models.SchedulerLog.t) : json :=
  JObject (present (members is_nil at_ m)).
Definition MarshalBinary (WriteJSON : json -> result string) (is_nil : nilness) : option models.SchedulerLog.t -> result (option string) :=
  marshal WriteJSON (encode is_nil []).
Definition UnmarshalBinary (ReadJSON : string -> result models.SchedulerLog.t) : string -> models.SchedulerLog.t -> models.SchedulerLog.t * option error :=
  unmarshal ReadJSON.
End SchedulerLog.

Module StepLog.
Definition validateContent {E} `{!OpenAPI E} (is_nil : nilness) (at_ : path) (m : models.StepLog.t) : option E :=
  Required "Content" "body" (nil_ptr (models.StepLog.Content m)).
Definition validateLogFile {E} `{!OpenAPI E} (is_nil : nilness) (at_ : path) (m : models.StepLog.t) : option E :=
  Required "LogFile" "body" (nil_ptr (models.StepLog.LogFile m)).
Definition validateStep {E} `{!OpenAPI E} (is_nil : nilness) (at_ : path) (m : models.StepLog.t) : option E :=
  required_model "Step" (Node.Validate is_nil (at_ ++ ["Step"])) (models.StepLog.Step m).
Definition contextValidateStep {E} `{!OpenAPI E} (m : models.StepLog.t) : option E :=
  context_model "Step" Node.ContextValidate (models.StepLog.Step m).
Definition Validate {E} `{!OpenAPI E} (is_nil : nilness) (at_ : path) (m : models.StepLog.t) : option E :=
  collect [validateContent is_nil at_ m; validateLogFile is_nil at_ m; validateStep is_nil at_ m].
Definition ContextValidate {E} `{!OpenAPI E} (m : models.StepLog.t) : option E :=
  collect [contextValidateStep m].
Definition members (is_nil : nilness) (at_ : path) (m : models.StepLog.t) : list (string * option json) :=
  [("Content", Some (ptr_json JString (models.StepLog.Content m)));
   ("LogFile", Some (ptr_json JString (models.StepLog.LogFile m)));
   ("Step", Some (ptr_json (Node.encode is_nil (at_ ++ ["Step"])) (models.StepLog.Step m)))].
Definition encode (is_nil : nilness) (at_ : path) (m : models.StepLog.t) : json :=
  JObject (present (members is_nil at_ m)).
Definition MarshalBinary (WriteJSON : json -> result string) (is_nil : nilness) : option models.StepLog.t -> result (option string) :=
  marshal WriteJSON (encode is_nil []).
Definition UnmarshalBinary (ReadJSON : string -> result models.StepLog.t) : string -> models.StepLog.t -> models.StepLog.t * option error :=
  unmarshal ReadJSON.
End StepLog.

Module GetDAGDetailsResponse.
Definition validateDAG {E} `{!OpenAPI E} (is_nil : nilness) (at_ : path) (m : models.GetDAGDetailsResponse.t) : option E :=
  required_model "DAG" (DAGStatusFileDetails.Validate is_nil (at_ ++ ["DAG"])) (models.GetDAGDetailsResponse.DAG m).
Definition contextValidateDAG {E} `{!OpenAPI E} (m : models.GetDAGDetailsResponse.t) : option E :=
  context_model "DAG" DAGStatusFileDetails.ContextValidate (models.GetDAGDetailsResponse.DAG m).
Definition validateDefinition {E} `{!OpenAPI E} (is_nil : nilness) (at_ : path) (m : models.GetDAGDetailsResponse.t) : option E :=
  Required "Definition" "body" (nil_ptr (models.GetDAGDetailsResponse.Definition_ m)).
Definition validateErrors {E} `{!OpenAPI E} (is_nil : nilness) (at_ : path) (m : models.GetDAGDetailsResponse.t) : option E :=
  Required "Errors" "body" (nil_slice is_nil at_ "Errors" (models.GetDAGDetailsResponse.Errors m)).
Definition validateGraph {E} `{!OpenAPI E} (is_nil : nilness) (at_ : path) (m : models.GetDAGDetailsResponse.t) : option E :=
  Required "Graph" "body" (nil_ptr (models.GetDAGDetailsResponse.Graph m)).
Definition validateLogData {E} `{!OpenAPI E} (is_nil : nilness) (at_ : path) (m : models.GetDAGDetailsResponse.t) : option E :=
  required_model "LogData" (DAGLogData.Validate is_nil (at_ ++ ["LogData"])) (models.GetDAGDetailsResponse.LogData m).
Definition contextValidateLogData {E} `{!OpenAPI E} (m : models.GetDAGDetailsResponse.t) : option E :=
  context_model "LogData" DAGLogData.ContextValidate (models.GetDAGDetailsResponse.LogData m).
Definition validateLogURL {E} `{!OpenAPI E} (is_nil : nilness) (at_ : path) (m : models.GetDAGDetailsResponse.t) : option E :=
  Required "LogUrl" "body" (nil_ptr (models.GetDAGDetailsResponse.LogURL m)).
Definition validateScLog {E} `{!OpenAPI E} (is_nil : nilness) (at_ : path) (m : models.GetDAGDetailsResponse.t) : option E :=
  required_model "ScLog" (SchedulerLog.Validate is_nil (at_ ++ ["ScLog"])) (models.GetDAGDetailsResponse.ScLog m).
Definition contextValidateScLog {E} `{!OpenAPI E} (m : models.GetDAGDetailsResponse.t) : option E :=
  context_model "ScLog" SchedulerLog.ContextValidate (models.GetDAGDetailsResponse.ScLog m).
Definition validateStepLog {E} `{!OpenAPI E} (is_nil : nilness) (at_ : path) (m : models.GetDAGDetailsResponse.t) : option E :=
  required_model "StepLog" (StepLog.Validate is_nil (at_ ++ ["StepLog"])) (models.GetDAGDetailsResponse.StepLog m).
Definition contextValidateStepLog {E} `{!OpenAPI E} (m : models.GetDAGDetailsResponse.t) : option E :=
  context_model "StepLog" StepLog.ContextValidate (models.GetDAGDetailsResponse.StepLog m).
Definition validateTab {E} `{!OpenAPI E} (is_nil : nilness) (at_ : path) (m : models.GetDAGDetailsResponse.t) : option E :=
  Required "Tab" "body" (nil_ptr (models.GetDAGDetailsResponse.Tab m)).
Definition validateTitle {E} `{!OpenAPI E} (is_nil : nilness) (at_ : path) (m : models.GetDAGDetailsResponse.t) : option E :=
  Required "Title" "body" (nil_ptr (models.GetDAGDetailsResponse.Title m)).
Definition Validate {E} `{!OpenAPI E} (is_nil : nilness) (at_ : path) (m : models.GetDAGDetailsResponse.t) : option E :=
  collect [validateDAG is_nil at_ m; validateDefinition is_nil at_ m; validateErrors is_nil at_ m;
    validateGraph is_nil at_ m; validateLogData is_nil at_ m; validateLogURL is_nil at_ m;
    validateScLog is_nil at_ m; validateStepLog is_nil at_ m; validateTab is_nil at_ m; validateTitle is_nil at_ m].
Definition ContextValidate {E} `{!OpenAPI E} (m : models.GetDAGDetailsResponse.t) : option E :=
  collect [contextValidateDAG m; contextValidateLogData m; contextValidateScLog m; contextValidateStepLog m].
Definition members (is_nil : nilness) (at_ : path) (m : models.GetDAGDetailsResponse.t) : list (string * option json) :=
  [("DAG", Some (ptr_json (DAGStatusFileDetails.encode is_nil (at_ ++ ["DAG"])) (models.GetDAGDetailsResponse.DAG m)));
   ("Definition", Some (ptr_json JString (models.GetDAGDetailsResponse.Definition_ m)));
   ("Errors", Some (slice_json is_nil at_ "Errors" (fun _ => JString) (models.GetDAGDetailsResponse.Errors m)));
   ("Graph", Some (ptr_json JString (models.GetDAGDetailsResponse.Graph m)));
   ("LogData", Some (ptr_json (DAGLogData.encode is_nil (at_ ++ ["LogData"])) (models.GetDAGDetailsResponse.LogData m)));
   ("LogUrl", Some (ptr_json JString (models.GetDAGDetailsResponse.LogURL m)));
   ("ScLog", Some (ptr_json (SchedulerLog.encode is_nil (at_ ++ ["ScLog"])) (models.GetDAGDetailsResponse.ScLog m)));
   ("StepLog", Some (ptr_json (StepLog.encode is_nil (at_ ++ ["StepLog"])) (models.GetDAGDetailsResponse.StepLog m)));
   ("Tab", Some (ptr_json JString (models.GetDAGDetailsResponse.Tab m)));
   ("Title", Some (ptr_json JString (models.GetDAGDetailsResponse.Title m)))].
Definition encode (is_nil : nilness) (at_ : path) (m : models.GetDAGDetailsResponse.t) : json :=
  JObject (present (members is_nil at_ m)).
Definition MarshalBinary (WriteJSON : json -> result string) (is_nil : nilness) : option models.GetDAGDetailsResponse.t -> result (option string) :=
  marshal WriteJSON (encode is_nil []).
Definition UnmarshalBinary (ReadJSON : string -> result models.GetDAGDetailsResponse.t) : string -> models.GetDAGDetailsResponse.t -> models.GetDAGDetailsResponse.t * option error :=
  unmarshal ReadJSON.
End GetDAGDetailsResponse.

Module HealthResponse.
Definition healthResponseTypeStatusPropEnum : list string :=
  ["healthy"; "unhealthy"].
Definition validateStatus {E} `{!OpenAPI E} (is_nil : nilness) (at_ : path) (m : models.HealthResponse.t) : option E :=
  required_enum "status" healthResponseTypeStatusPropEnum (models.HealthResponse.Status m).
Definition validateTimestamp {E} `{!OpenAPI E} (is_nil : nilness) (at_ : path) (m : models.HealthResponse.t) : option E :=
  Required "timestamp" "body" (nil_ptr (models.HealthResponse.Timestamp m)).
Definition validateUptime {E} `{!OpenAPI E} (is_nil : nilness) (at_ : path) (m : models.HealthResponse.t) : option E :=
  Required "uptime" "body" (nil_ptr (models.HealthResponse.Uptime m)).
Definition validateVersion {E} `{!OpenAPI E} (is_nil : nilness) (at_ : path) (m : models.HealthResponse.t) : option E :=
  Required "version" "body" (nil_ptr (models.HealthResponse.Version m)).
Definition Validate {E} `{!OpenAPI E} (is_nil : nilness) (at_ : path) (m : models.HealthResponse.t) : option E :=
  collect [validateStatus is_nil at_ m; validateTimestamp is_nil at_ m; validateUptime is_nil at_ m;
    validateVersion is_nil at_ m].
Definition ContextValidate {E} `{!OpenAPI E} (m : models.HealthResponse.t) : option E :=
  None.
Definition members (is_nil : nilness) (at_ : path) (m : models.HealthResponse.t) : list (string * option json) :=
  [("status", Some (ptr_json JString (models.HealthResponse.Status m)));
   ("timestamp", Some (ptr_json JString (models.HealthResponse.Timestamp m)));
   ("uptime", Some (ptr_json JNum (models.HealthResponse.Uptime m)));
   ("version", Some (ptr_json JString (models.HealthResponse.Version m)))].
Definition encode (is_nil : nilness) (at_ : path) (m : models.HealthResponse.t) : json :=
  JObject (present (members is_nil at_ m)).
Definition MarshalBinary (WriteJSON : json -> result string) (is_nil : nilness) : option models.HealthResponse.t -> result (option string) :=
  marshal WriteJSON (encode is_nil []).
Definition UnmarshalBinary (ReadJSON : string -> result models.HealthResponse.t) : string -> models.HealthResponse.t -> models.HealthResponse.t * option error :=
  unmarshal ReadJSON.
End HealthResponse.

Module ListDAGsResponse.
Definition validateDAGs {E} `{!OpenAPI E} (is_nil : nilness) (at_ : path) (m : models.ListDAGsResponse.t) : option E :=
  required_slice is_nil at_ "DAGs" (DAGStatusFile.Validate is_nil) (models.ListDAGsResponse.DAGs m).
Definition contextValidateDAGs {E} `{!OpenAPI E} (m : models.ListDAGsResponse.t) : option E :=
  context_slice "DAGs" DAGStatusFile.ContextValidate (models.ListDAGsResponse.DAGs m).
Definition validateErrors {E} `{!OpenAPI E} (is_nil : nilness) (at_ : path) (m : models.ListDAGsResponse.t) : option E :=
  Required "Errors" "body" (nil_slice is_nil at_ "Errors" (models.ListDAGsResponse.Errors m)).
Definition validateHasError {E} `{!OpenAPI E} (is_nil : nilness) (at_ : path) (m : models.ListDAGsResponse.t) : option E :=
  Required "HasError" "body" (nil_ptr (models.ListDAGsResponse.HasError m)).
Definition validatePageCount {E} `{!OpenAPI E} (is_nil : nilness) (at_ : path) (m : models.ListDAGsResponse.t) : option E :=
  Required "PageCount" "body" (nil_ptr (models.ListDAGsResponse.PageCount m)).
Definition Validate {E} `{!OpenAPI E} (is_nil : nilness) (at_ : path) (m : models.ListDAGsResponse.t) : option E :=
  collect [validateDAGs is_nil at_ m; validateErrors is_nil at_ m; validateHasError is_nil at_ m;
    validatePageCount is_nil at_ m].
Definition ContextValidate {E} `{!OpenAPI E} (m : models.ListDAGsResponse.t) : option E :=
  collect [contextValidateDAGs m].
Definition members (is_nil : nilness) (at_ : path) (m : models.ListDAGsResponse.t) : list (string * option json) :=
  [("DAGs", Some (slice_json is_nil at_ "DAGs" (ptr_elements (DAGStatusFile.encode is_nil)) (models.ListDAGsResponse.DAGs m)));
   ("Errors", Some (slice_json is_nil at_ "Errors" (fun _ => JString) (models.ListDAGsResponse.Errors m)));
   ("HasError", Some (ptr_json JBool (models.ListDAGsResponse.HasError m)));
   ("PageCount", Some (ptr_json JNum (models.ListDAGsResponse.PageCount m)))].
Definition encode (is_nil : nilness) (at_ : path) (m : models.ListDAGsResponse.t) : json :=
  JObject (present (members is_nil at_ m)).
Definition MarshalBinary (WriteJSON : json -> result string) (is_nil : nilness) : option models.ListDAGsResponse.t -> result (option string) :=
  marshal WriteJSON (encode is_nil []).
Definition UnmarshalBinary (ReadJSON : string -> result models.ListDAGsResponse.t) : string -> models.ListDAGsResponse.t -> models.ListDAGsResponse.t * option error :=
  unmarshal ReadJSON.
End ListDAGsResponse.

Module ListTagResponse.
Definition validateErrors {E} `{!OpenAPI E} (is_nil : nilness) (at_ : path) (m : models.ListTagResponse.t) : option E :=
  Required "Errors" "body" (nil_slice is_nil at_ "Errors" (models.ListTagResponse.Errors m)).
Definition validateTags {E} `{!OpenAPI E} (is_nil : nilness) (at_ : path) (m : models.ListTagResponse.t) : option E :=
  Required "Tags" "body" (nil_slice is_nil at_ "Tags" (models.ListTagResponse.Tags m)).
Definition Validate {E} `{!OpenAPI E} (is_nil : nilness) (at_ : path) (m : models.ListTagResponse.t) : option E :=
  collect [validateErrors is_nil at_ m; validateTags is_nil at_ m].
Definition ContextValidate {E} `{!OpenAPI E} (m : models.ListTagResponse.t) : option E :=
  None.
Definition members (is_nil : nilness) (at_ : path) (m : models.ListTagResponse.t) : list (string * option json) :=
  [("Errors", Some (slice_json is_nil at_ "Errors" (fun _ => JString) (models.ListTagResponse.Errors m)));
   ("Tags", Some (slice_json is_nil at_ "Tags" (fun _ => JString) (models.ListTagResponse.Tags m)))].
Definition encode (is_nil : nilness) (at_ : path) (m : models.ListTagResponse.t) : json :=
  JObject (present (members is_nil at_ m)).
Definition MarshalBinary (WriteJSON : json -> result string) (is_nil : nilness) : option models.ListTagResponse.t -> result (option string) :=
  marshal WriteJSON (encode is_nil []).
Definition UnmarshalBinary (ReadJSON : string -> result models.ListTagResponse.t) : string -> models.ListTagResponse.t -> models.ListTagResponse.t * option error :=
  unmarshal ReadJSON.
End ListTagResponse.

Module PostDAGActionRequest.
Definition postDAGActionRequestTypeActionPropEnum : list string :=
  ["start"; "suspend"; "stop"; "retry"; "mark-success"; "mark-failed"; "save"; "rename"].
Definition validateAction {E} `{!OpenAPI E} (is_nil : nilness) (at_ : path) (m : models.PostDAGActionRequest.t) : option E :=
  required_enum "action" postDAGActionRequestTypeActionPropEnum (models.PostDAGActionRequest.Action m).
Definition Validate {E} `{!OpenAPI E} (is_nil : nilness) (at_ : path) (m : models.PostDAGActionRequest.t) : option E :=
  collect [validateAction is_nil at_ m].
Definition ContextValidate {E} `{!OpenAPI E} (m : models.PostDAGActionRequest.t) : option E :=
  None.
Definition members (is_nil : nilness) (at_ : path) (m : models.PostDAGActionRequest.t) : list (string * option json) :=
  [("action", Some (ptr_json JString (models.PostDAGActionRequest.Action m)));
   ("params", omitempty "" JString (models.PostDAGActionRequest.Params m));
   ("requestId", omitempty "" JString (models.PostDAGActionRequest.RequestID m));
   ("step", omitempty "" JString (models.PostDAGActionRequest.Step m));
   ("value", omitempty "" JString (models.PostDAGActionRequest.Value m))].
Definition encode (is_nil : nilness) (at_ : path) (m : models.PostDAGActionRequest.t) : json :=
  JObject (present (members is_nil at_ m)).
Definition MarshalBinary (WriteJSON : json -> result string) (is_nil : nilness) : option models.PostDAGActionRequest.t -> result (option string) :=
  marshal WriteJSON (encode is_nil []).
Definition UnmarshalBinary (ReadJSON : string -> result models.PostDAGActionRequest.t) : string -> models.PostDAGActionRequest.t -> models.PostDAGActionRequest.t * option error :=
  unmarshal ReadJSON.
End PostDAGActionRequest.

Module PostDAGActionResponse.
Definition Validate {E} `{!OpenAPI E} (is_nil : nilness) (at_ : path) (m : models.PostDAGActionResponse.t) : option E :=
  None.
Definition ContextValidate {E} `{!OpenAPI E} (m : models.PostDAGActionResponse.t) : option E :=
  None.
Definition members (is_nil : nilness) (at_ : path) (m : models.PostDAGActionResponse.t) : list (string * option json) :=
  [("NewDagID", omitempty "" JString (models.PostDAGActionResponse.NewDagID m))].
Definition encode (is_nil : nilness) (at_ : path) (m : models.PostDAGActionResponse.t) : json :=
  JObject (present (members is_nil at_ m)).
Definition MarshalBinary (WriteJSON : json -> result string) (is_nil : nilness) : option models.PostDAGActionResponse.t -> result (option string) :=
  marshal WriteJSON (encode is_nil []).
Definition UnmarshalBinary (ReadJSON : string -> result models.PostDAGActionResponse.t) : string -> models.PostDAGActionResponse.t -> models.PostDAGActionResponse.t * option error :=
  unmarshal ReadJSON.
End PostDAGActionResponse.

Module PythonFile.
Definition validateContent {E} `{!OpenAPI E} (is_nil : nilness) (at_ : path) (m : models.PythonFile.t) : option E :=
  Required "content" "body" (nil_ptr (models.PythonFile.Content m)).
Definition validateName {E} `{!OpenAPI E} (is_nil : nilness) (at_ : path) (m : models.PythonFile.t) : option E :=
  Required "name" "body" (nil_ptr (models.PythonFile.Name m)).
Definition Validate {E} `{!OpenAPI E} (is_nil : nilness) (at_ : path) (m : models.PythonFile.t) : option E :=
  collect [validateContent is_nil at_ m; validateName is_nil at_ m].
Definition ContextValidate {E} `{!OpenAPI E} (m : models.PythonFile.t) : option E :=
  None.
Definition members (is_nil : nilness) (at_ : path) (m : models.PythonFile.t) : list (string * option json) :=
  [("content", Some (ptr_json JString (models.PythonFile.Content m)));
   ("name", Some (ptr_json JString (models.PythonFile.Name m)))].
Definition encode (is_nil : nilness) (at_ : path) (m : models.PythonFile.t) : json :=
  JObject (present (members is_nil at_ m)).
Definition MarshalBinary (WriteJSON : json -> result string) (is_nil : nilness) : option models.PythonFile.t -> result (option string) :=
  marshal WriteJSON (encode is_nil []).
Definition UnmarshalBinary (ReadJSON : string -> result models.PythonFile.t) : string -> models.PythonFile.t -> models.PythonFile.t * option error :=
  unmarshal ReadJSON.
End PythonFile.

Module SearchDAGsMatchItem.
Definition Validate {E} `{!OpenAPI E} (is_nil : nilness) (at_ : path) (m : models.SearchDAGsMatchItem.t) : option E :=
  None.
Definition ContextValidate {E} `{!OpenAPI E} (m : models.SearchDAGsMatchItem.t) : option E :=
  None.
Definition members (is_nil : nilness) (at_ : path) (m : models.SearchDAGsMatchItem.t) : list (string * option json) :=
  [("Line", omitempty "" JString (models.SearchDAGsMatchItem.Line m));
   ("LineNumber", omitempty 0%Z JNum (models.SearchDAGsMatchItem.LineNumber m));
   ("StartLine", omitempty 0%Z JNum (models.SearchDAGsMatchItem.StartLine m))].
Definition encode (is_nil : nilness) (at_ : path) (m : models.SearchDAGsMatchItem.t) : json :=
  JObject (present (members is_nil at_ m)).
Definition MarshalBinary (WriteJSON : json -> result string) (is_nil : nilness) : option models.SearchDAGsMatchItem.t -> result (option string) :=
  marshal WriteJSON (encode is_nil []).
Definition UnmarshalBinary (ReadJSON : string -> result models.SearchDAGsMatchItem.t) : string -> models.SearchDAGsMatchItem.t -> models.SearchDAGsMatchItem.t * option error :=
  unmarshal ReadJSON.
End SearchDAGsMatchItem.

Module SearchDAGsResultItem.
Definition validateDAG {E} `{!OpenAPI E} (is_nil : nilness) (at_ : path) (m : models.SearchDAGsResultItem.t) : option E :=
  optional_model "DAG" (DAG.Validate is_nil (at_ ++ ["DAG"])) (models.SearchDAGsResultItem.DAG m).
Definition contextValidateDAG {E} `{!OpenAPI E} (m : models.SearchDAGsResultItem.t) : option E :=
  context_model "DAG" DAG.ContextValidate (models.SearchDAGsResultItem.DAG m).
Definition validateMatches {E} `{!OpenAPI E} (is_nil : nilness) (at_ : path) (m : models.SearchDAGsResultItem.t) : option E :=
  optional_slice is_nil at_ "Matches" (SearchDAGsMatchItem.Validate is_nil) (models.SearchDAGsResultItem.Matches m).
Definition contextValidateMatches {E} `{!OpenAPI E} (m : models.SearchDAGsResultItem.t) : option E :=
  context_slice "Matches" SearchDAGsMatchItem.ContextValidate (models.SearchDAGsResultItem.Matches m).
Definition Validate {E} `{!OpenAPI E} (is_nil : nilness) (at_ : path) (m : models.SearchDAGsResultItem.t) : option E :=
  collect [validateDAG is_nil at_ m; validateMatches is_nil at_ m].
Definition ContextValidate {E} `{!OpenAPI E} (m : models.SearchDAGsResultItem.t) : option E :=
  collect [contextValidateDAG m; contextValidateMatches m].
Definition members (is_nil : nilness) (at_ : path) (m : models.SearchDAGsResultItem.t) : list (string * option json) :=
  [("DAG", (DAG.encode is_nil (at_ ++ ["DAG"])) <$> models.SearchDAGsResultItem.DAG m);
   ("Matches", Some (slice_json is_nil at_ "Matches" (ptr_elements (SearchDAGsMatchItem.encode is_nil)) (models.SearchDAGsResultItem.Matches m)));
   ("Name", omitempty "" JString (models.SearchDAGsResultItem.Name m))].
Definition encode (is_nil : nilness) (at_ : path) (m : models.SearchDAGsResultItem.t) : json :=
  JObject (present (members is_nil at_ m)).
Definition MarshalBinary (WriteJSON : json -> result string) (is_nil : nilness) : option models.SearchDAGsResultItem.t -> result (option string) :=
  marshal WriteJSON (encode is_nil []).
Definition UnmarshalBinary (ReadJSON : string -> result models.SearchDAGsResultItem.t) : string -> models.SearchDAGsResultItem.t -> models.SearchDAGsResultItem.t * option error :=
  unmarshal ReadJSON.
End SearchDAGsResultItem.

Module SearchDAGsResponse.
Definition validateErrors {E} `{!OpenAPI E} (is_nil : nilness) (at_ : path) (m : models.SearchDAGsResponse.t) : option E :=
  Required "Errors" "body" (nil_slice is_nil at_ "Errors" (models.SearchDAGsResponse.Errors m)).
Definition validateResults {E} `{!OpenAPI E} (is_nil : nilness) (at_ : path) (m : models.SearchDAGsResponse.t) : option E :=
  required_slice is_nil at_ "Results" (SearchDAGsResultItem.Validate is_nil) (models.SearchDAGsResponse.Results m).
Definition contextValidateResults {E} `{!OpenAPI E} (m : models.SearchDAGsResponse.t) : option E :=
  context_slice "Results" SearchDAGsResultItem.ContextValidate (models.SearchDAGsResponse.Results m).
Definition Validate {E} `{!OpenAPI E} (is_nil : nilness) (at_ : path) (m : models.SearchDAGsResponse.t) : option E :=
  collect [validateErrors is_nil at_ m; validateResults is_nil at_ m].
Definition ContextValidate {E} `{!OpenAPI E} (m : models.SearchDAGsResponse.t) : option E :=
  collect [contextValidateResults m].
Definition members (is_nil : nilness) (at_ : path) (m : models.SearchDAGsResponse.t) : list (string * option json) :=
  [("Errors", Some (slice_json is_nil at_ "Errors" (fun _ => JString) (models.SearchDAGsResponse.Errors m)));
   ("Results", Some (slice_json is_nil at_ "Results" (ptr_elements (SearchDAGsResultItem.encode is_nil)) (models.SearchDAGsResponse.Results m)))].
Definition encode (is_nil : nilness) (at_ : path) (m : models.SearchDAGsResponse.t) : json :=
  JObject (present (members is_nil at_ m)).
Definition MarshalBinary (WriteJSON : json -> result string) (is_nil : nilness) : option models.SearchDAGsResponse.t -> result (option string) :=
  marshal WriteJSON (encode is_nil []).
Definition UnmarshalBinary (ReadJSON : string -> result models.SearchDAGsResponse.t) : string -> models.SearchDAGsResponse.t -> models.SearchDAGsResponse.t * option error :=
  unmarshal ReadJSON.
End SearchDAGsResponse.
