(* ===== verification/Handlers.v ===== *)
(** * The handlers of the HTTP interface: internal/frontend/handlers

    Each handler asks the client and answers a record of the interface or an error
    with its code (dag.go, convert.go, error.go, system.go).  Reading log files
    and history files by name, decoding, and the transport to another node are
    arguments. *)

From stdpp Require Import pretty.
From S2P Require Import Prelude GoStrings Utf8 Vars Digraph NodeData Paths Node Graph Sched Model History Builder Stores Client ApiModels.
From Stdlib Require Import Ascii.

(** ** Errors (error.go) *)

(** [Message] is [None] for a remote error without one. *)
Record codedError := mkCoded { ce_HTTPCode : Z; ce_Code : string; ce_Message : option string }.

Definition newInternalError (e : error) : codedError := mkCoded 500 models.ErrorCodeInternalError (Some (error_text e)).
Definition newNotFoundError (e : error) : codedError := mkCoded 404 models.ErrorCodeNotFound (Some (error_text e)).
Definition newBadRequestError (e : error) : codedError := mkCoded 400 models.ErrorCodeValidationError (Some (error_text e)).
Definition newError (httpCode : Z) (code : string) (message : option string) : codedError :=
  mkCoded httpCode code message.

(** An answer or an error. *)
Inductive answer (A : Type) := Answer (a : A) | Coded (e : codedError) | Panic (e : error).
Arguments Answer {A} a.
Arguments Coded {A} e.
Arguments Panic {A} e.

(** ** Quoted texts ([%q]) *)

Section quote.
Context (is_print : Z -> bool).

Definition hex_digit (n : Z) : ascii := z_byte (if (n <? 10)%Z then 48 + n else 87 + n)%Z.

Fixpoint hex (width : nat) (n : Z) : bytes :=
  match width with
  | 0 => []
  | S w => hex w (n / 16)%Z ++ [hex_digit (n mod 16)%Z]
  end.

Definition quote_rune (c : Z * bytes) : bytes :=
  let '(r, b) := c in
  let esc (l : string) := s2l l in
  if (r =? RuneError)%Z && (length b =? 1)%nat then esc "\x" ++ hex 2 (from_option byte_z 0%Z (head b))
  else if (r =? 34)%Z || (r =? 92)%Z then esc "\" ++ b
  else if is_print r then b
  else if (r =? 7)%Z then esc "\a" else if (r =? 8)%Z then esc "\b" else if (r =? 12)%Z then esc "\f"
  else if (r =? 10)%Z then esc "\n" else if (r =? 13)%Z then esc "\r" else if (r =? 9)%Z then esc "\t"
  else if (r =? 11)%Z then esc "\v"
  else if (r <? 32)%Z || (r =? 127)%Z then esc "\x" ++ hex 2 r
  else if (r <? 65536)%Z then esc "\u" ++ hex 4 r else esc "\U" ++ hex 8 r.

Definition Quote (s : string) : string := dq +:+ l2s (concat (quote_rune <$> decode (s2l s))) +:+ dq.

End quote.

(** ** Conversions (convert.go) *)

Definition Status_int (s : Sched.Status) : Z :=
  match s with StatusNone => 0 | StatusRunning => 1 | StatusError => 2 | StatusCancel => 3 | StatusSuccess => 4 end.

Definition convert_schedule (s : Digraph.Schedule.t) : models.Schedule.t :=
  models.Schedule.mk (Some (Digraph.Schedule.Expression s)).

Definition convertToDAG (dag : Digraph.DAG.t) : models.DAG.t :=
  models.DAG.mk (Some (Digraph.DAG.DefaultParams dag)) (Some (Digraph.DAG.Description dag)) (Some (Digraph.DAG.Group dag))
    (Some (Digraph.DAG.Name dag)) (Digraph.DAG.Params dag) (Some <$> (convert_schedule <$> Digraph.DAG.Schedule dag))
    (Digraph.DAG.Tags dag).

Definition convert_condition (c : Digraph.Condition.t) : models.Precondition.t :=
  models.Precondition.mk (Digraph.Condition.Condition c) (Digraph.Condition.Expected c).

(** The texts of standard output and error are not filled in. *)
Definition convertToStepObject (step : Digraph.Step.t) : models.Step.t :=
  let sub := Digraph.Step.SubWorkflow step in
  models.Step.mk (Digraph.Step.Args step) (Some (Digraph.Step.CmdWithArgs step)) (Some (Digraph.Step.Command step))
    (Digraph.Step.Depends step) (Some (Digraph.Step.Description step)) (Some (Digraph.Step.Dir step))
    (Some (Digraph.Step.MailOnError step)) (Some (Digraph.Step.Name step)) (Some (Digraph.Step.Output step))
    (match sub with Some w => Digraph.SubWorkflow.Params w | None => "" end)
    (Some <$> (convert_condition <$> Digraph.Step.Preconditions step))
    (Some (models.RepeatPolicy.mk (Digraph.RepeatPolicy.Interval (Digraph.Step.RepeatPolicy step))
                                  (Digraph.RepeatPolicy.Repeat (Digraph.Step.RepeatPolicy step))))
    (match sub with Some w => Digraph.SubWorkflow.Name w | None => "" end)
    (Some (Digraph.Step.Script step)) None None.

Definition convertToNode (n : MNode.t) : models.Node.t :=
  models.Node.mk (Some (MNode.DoneCount n)) (Some (MNode.Error n)) (Some (MNode.FinishedAt n)) (Some (MNode.Log n))
    (Some (MNode.RetryCount n)) (Some (MNode.StartedAt n)) (Some (NodeStatus_int (MNode.Status n)))
    (Some (MNode.StatusText n)) (Some (convertToStepObject (MNode.Step n))).

Definition convertToStatusDetails (s : MStatus.t) : models.DAGStatusDetails.t :=
  models.DAGStatusDetails.mk (Some (MStatus.FinishedAt s)) (Some (MStatus.Log s)) (Some (MStatus.Name s))
    (Some <$> (convertToNode <$> MStatus.Nodes s)) (convertToNode <$> MStatus.OnCancel s) (convertToNode <$> MStatus.OnExit s)
    (convertToNode <$> MStatus.OnFailure s) (convertToNode <$> MStatus.OnSuccess s) (Some (MStatus.Params s))
    (Some (MStatus.PID s)) (Some (MStatus.RequestID s)) (Some (MStatus.StartedAt s))
    (Some (Status_int (MStatus.Status s))) (Some (MStatus.StatusText s)).

Section handlers.
Context {W : Type} `{!HistoryStore W, !DAGStore W, !FlagStore W}.
(** The outside of the client. *)
Context (md5hex : string -> string) (request : string -> string -> string -> W -> W * result string).
Context (StatusFromJSON : string -> result MStatus.t) (exec : list string -> W -> W * option error).
Context (FileExists : string -> W -> bool) (fmt_rfc3339 : Z -> string) (order : Z -> nat -> list Z).
(** [unicode.IsPrint], and lower case. *)
Context (is_print : Z -> bool) (rune_lower : Z -> Z).
(** [jsondb.ParseStatusFile] and [os.ReadFile]; reading through the decoder for
    EUC-JP; the character set of the logs. *)
Context (ParseStatusFile : string -> W -> result MStatus.t) (ReadFile : string -> W -> result string).
Context (read_eucjp : string -> W -> result string) (logEncodingCharset : string).

Abbreviation GetStatus := (GetStatus md5hex request StatusFromJSON fmt_rfc3339 order).
Abbreviation GetLatestStatus := (GetLatestStatus md5hex request StatusFromJSON fmt_rfc3339).
Abbreviation q := (Quote is_print).

(** ** Creation and deletion *)

Definition handle_createDAG (body : models.CreateDAGRequest.t) (w : W) : W * answer models.CreateDAGResponse.t :=
  match models.CreateDAGRequest.Action body, models.CreateDAGRequest.Value body with
  | Some action, Some name =>
      if bool_decide (action = "new") then
        match CreateDAG name w with
        | (w, Ok id) => (w, Answer (models.CreateDAGResponse.mk (Some id)))
        | (w, Err e) => (w, Coded (newInternalError e))
        end
      else (w, Coded (newBadRequestError (ENew ("invalid action: " +:+ action))))
  | _, _ => (w, Coded (newBadRequestError (ENew "missing required parameters: action and value")))
  end.

Definition handle_deleteDAG (dagID : string) (w : W) : W * option codedError :=
  match GetStatus dagID w with
  | (w, (_, Some e)) => (w, Some (newNotFoundError e))
  | (w, (s, None)) =>
      match DeleteDAG dagID (Digraph.DAG.Location (st_DAG s)) w with
      | (w, Some e) => (w, Some (newInternalError e))
      | (w, None) => (w, None)
      end
  end.

(** ** Lists *)

Definition list_item (d : DAGStatus) : models.DAGStatusFile.t :=
  let s := st_Status d in
  models.DAGStatusFile.mk (Some (convertToDAG (st_DAG d))) (Some (st_Dir d)) (ErrorT d) (Some (st_File d))
    (Some (models.DAGStatus.mk (Some (MStatus.FinishedAt s)) (Some (MStatus.Log s)) (Some (MStatus.Name s))
       (Some (MStatus.Params s)) (Some (MStatus.PID s)) (Some (MStatus.RequestID s)) (Some (MStatus.StartedAt s))
       (Some (Status_int (MStatus.Status s))) (Some (MStatus.StatusText s))))
    (Some (st_Suspended d)).

Definition getList (params : ListDAGsParams) (w : W) : W * answer models.ListDAGsResponse.t :=
  match GetAllStatusPagination md5hex request StatusFromJSON fmt_rfc3339 params w with
  | (w, Err p) => (w, Panic p)
  | (w, Ok (_, _, Some e)) => (w, Coded (newInternalError e))
  | (w, Ok (dgs, r, None)) =>
      let hasErr := bool_decide (ps_ErrorList r <> []) || existsb (fun d => bool_decide (is_Some (st_Error d))) dgs in
      (w, Answer (models.ListDAGsResponse.mk (Some <$> (list_item <$> dgs)) (ps_ErrorList r) (Some hasErr) (Some (ps_PageCount r))))
  end.

Definition getTagList (w : W) : W * answer models.ListTagResponse.t :=
  match GetTagList w with
  | (w, Ok (tags, errs)) => (w, Answer (models.ListTagResponse.mk errs tags))
  | (w, Err e) => (w, Coded (newInternalError e))
  end.

Definition search_item (r : GrepResult) : models.SearchDAGsResultItem.t :=
  models.SearchDAGsResultItem.mk (Some (convertToDAG (gr_DAG r)))
    (Some <$> ((fun m => models.SearchDAGsMatchItem.mk (m_Line m) (m_LineNumber m) (m_StartLine m)) <$> gr_Matches r)) (gr_Name r).

Definition searchDAGs (query : string) (w : W) : W * answer models.SearchDAGsResponse.t :=
  if bool_decide (query = "") then (w, Coded (newBadRequestError (ENew "missing required parameter: q")))
  else match client_Grep query w with
       | (w, (_, _, Some e)) => (w, Coded (newInternalError e))
       | (w, (ret, errs, None)) => (w, Answer (models.SearchDAGsResponse.mk errs (Some <$> (search_item <$> ret))))
       end.

(** ** Details *)

Definition dagTabTypeStatus : string := "status".
Definition dagTabTypeSpec : string := "spec".
Definition dagTabTypeHistory : string := "history".
Definition dagTabTypeStepLog : string := "log".
Definition dagTabTypeSchedulerLog : string := "scheduler-log".

Definition defaultHistoryLimit : nat := 30.

(** [dags.GetDAGDetailsParams]. *)
Record DetailsParams := mkDetails {
  dp_DagID : string;
  dp_File : option string;
  dp_Step : option string;
  dp_Tab : option string
}.

Definition set_Definition (r : models.GetDAGDetailsResponse.t) (d : string) : models.GetDAGDetailsResponse.t :=
  let '(models.GetDAGDetailsResponse.mk dag _ errs g l u sc st tab title) := r in
  models.GetDAGDetailsResponse.mk dag (Some d) errs g l u sc st tab title.
Definition set_LogData (r : models.GetDAGDetailsResponse.t) (d : models.DAGLogData.t) : models.GetDAGDetailsResponse.t :=
  let '(models.GetDAGDetailsResponse.mk dag def errs g _ u sc st tab title) := r in
  models.GetDAGDetailsResponse.mk dag def errs g (Some d) u sc st tab title.
Definition set_ScLog (r : models.GetDAGDetailsResponse.t) (d : models.SchedulerLog.t) : models.GetDAGDetailsResponse.t :=
  let '(models.GetDAGDetailsResponse.mk dag def errs g l u _ st tab title) := r in
  models.GetDAGDetailsResponse.mk dag def errs g l u (Some d) st tab title.
Definition set_StepLog (r : models.GetDAGDetailsResponse.t) (d : models.StepLog.t) : models.GetDAGDetailsResponse.t :=
  let '(models.GetDAGDetailsResponse.mk dag def errs g l u sc _ tab title) := r in
  models.GetDAGDetailsResponse.mk dag def errs g l u sc (Some d) tab title.

(** A status file named in the request is read without asking where it is. *)
Definition file_status (file : option string) (w : W) : option (result MStatus.t) :=
  (fun f => ParseStatusFile f w) <$> file.

Definition processSchedulerLogRequest (dag : Digraph.DAG.t) (p : DetailsParams) (resp : models.GetDAGDetailsResponse.t) (w : W)
    : W * answer models.GetDAGDetailsResponse.t :=
  let read logFile w :=
    (w, match ReadFile logFile w with
        | Err e => Coded (newInternalError e)
        | Ok content => Answer (set_ScLog resp (models.SchedulerLog.mk (Some content) (Some logFile)))
        end) in
  let latest w :=
    match GetLatestStatus dag w with
    | (w, (_, Some e)) => (w, Coded (newInternalError e))
    | (w, (st, None)) => read (MStatus.Log st) w
    end in
  match file_status (dp_File p) w with
  | Some (Err e) => (w, Coded (newBadRequestError e))
  | Some (Ok st) => if bool_decide (MStatus.Log st = "") then latest w else read (MStatus.Log st) w
  | None => latest w
  end.

(** The node of a step: the last one of the name, or else a handler, the last in
    the order success, failure, cancel, exit. *)
Definition find_node (name : string) (st : MStatus.t) : option MNode.t :=
  let named n := bool_decide (Digraph.Step.Name (MNode.Step n) = name) in
  match last (List.filter named (MStatus.Nodes st)) with
  | Some n => Some n
  | None =>
      last (List.filter named (omap id [MStatus.OnSuccess st; MStatus.OnFailure st; MStatus.OnCancel st; MStatus.OnExit st]))
  end.

Definition readFileContent (f : string) (eucjp : bool) (w : W) : result string :=
  if eucjp then read_eucjp f w else ReadFile f w.

Definition processStepLogRequest (dag : Digraph.DAG.t) (p : DetailsParams) (resp : models.GetDAGDetailsResponse.t) (w : W)
    : W * answer models.GetDAGDetailsResponse.t :=
  match dp_Step p with
  | None => (w, Coded (newBadRequestError (ENew "missing required parameter: step")))
  | Some step =>
      let show st w :=
        (w, match find_node step st with
            | None => Coded (newNotFoundError (ENew ("step not found: " +:+ step)))
            | Some n =>
                match readFileContent (MNode.Log n) (bool_decide (ToLower rune_lower logEncodingCharset = "euc-jp")) w with
                | Err e => Coded (newInternalError e)
                | Ok content =>
                    Answer (set_StepLog resp (models.StepLog.mk (Some content) (Some (MNode.Log n)) (Some (convertToNode n))))
                end
            end) in
      match file_status (dp_File p) w with
      | Some (Err e) => (w, Coded (newBadRequestError e))
      | Some (Ok st) => show st w
      | None =>
          match GetLatestStatus dag w with
          | (w, (_, Some e)) => (w, Coded (newInternalError e))
          | (w, (st, None)) => show st w
          end
      end
  end.

Definition processSpecRequest (dagID : string) (resp : models.GetDAGDetailsResponse.t) (w : W)
    : W * answer models.GetDAGDetailsResponse.t :=
  (w, match GetDAGSpec dagID w with
      | Err e => Coded (newNotFoundError e)
      | Ok d => Answer (set_Definition resp d)
      end).

(** [addNodeStatus]: the row of a name has a column for each run. *)
Definition addNodeStatus (logLen logIdx : nat) (nodeName : string) (st : NodeStatus)
    (data : gmap string (list NodeStatus)) : gmap string (list NodeStatus) :=
  <[nodeName := <[logIdx := st]> (default (replicate logLen NodeStatusNone) (data !! nodeName))]> data.

Definition add_node (logLen logIdx : nat) (data : gmap string (list NodeStatus)) (n : MNode.t) : gmap string (list NodeStatus) :=
  addNodeStatus logLen logIdx (Digraph.Step.Name (MNode.Step n)) (MNode.Status n) data.

Definition add_log (nodes_of : MStatus.t -> list MNode.t) (logLen : nat) (data : gmap string (list NodeStatus))
    (log : nat * StatusFile) : gmap string (list NodeStatus) :=
  foldl (add_node logLen (fst log)) data (nodes_of (sf_Status (snd log))).

Definition handler_nodes (st : MStatus.t) : list MNode.t :=
  omap id [MStatus.OnSuccess st; MStatus.OnFailure st; MStatus.OnCancel st; MStatus.OnExit st].

Definition status_table (nodes_of : MStatus.t -> list MNode.t) (logs : list StatusFile) : gmap string (list NodeStatus) :=
  foldl (add_log nodes_of (length logs)) ∅ (imap pair logs).

Definition grid_item (name : string) (l : list NodeStatus) : models.DAGLogGridItem.t :=
  models.DAGLogGridItem.mk (Some name) (NodeStatus_int <$> l).

(** The rows of the steps sorted by name, then those of the handlers. *)
Definition log_grid (logs : list StatusFile) : list models.DAGLogGridItem.t :=
  let steps := status_table MStatus.Nodes logs in
  let handlers := status_table handler_nodes logs in
  ((fun name => grid_item name (default [] (steps !! name))) <$> merge_sort String.le (fst <$> map_to_list steps)) ++
  omap (fun h => grid_item (HandlerType_String h) <$> handlers !! HandlerType_String h)
    [HandlerOnSuccess; HandlerOnFailure; HandlerOnCancel; HandlerOnExit].

Definition processLogRequest (dag : Digraph.DAG.t) (resp : models.GetDAGDetailsResponse.t) (w : W)
    : W * answer models.GetDAGDetailsResponse.t :=
  let '(w, logs) := GetRecentHistory dag defaultHistoryLimit w in
  let files := (fun l => models.DAGLogStatusFile.mk (Some (sf_File l)) (Some (convertToStatusDetails (sf_Status l)))) <$> logs in
  (w, Answer (set_LogData resp (models.DAGLogData.mk (Some <$> log_grid logs) (Some <$> reverse files)))).

Definition dag_details (dag : Digraph.DAG.t) : models.DAGDetails.t :=
  let h := Digraph.DAG.HandlerOn dag in
  models.DAGDetails.mk (Some (Digraph.DAG.DefaultParams dag)) (Some (Digraph.DAG.Delay dag)) (Some (Digraph.DAG.Description dag))
    (Digraph.DAG.Env dag) (Some (Digraph.DAG.Group dag))
    (Some (models.HandlerOn.mk (convertToStepObject <$> Digraph.HandlerOn.Cancel h) (convertToStepObject <$> Digraph.HandlerOn.Exit h)
                               (convertToStepObject <$> Digraph.HandlerOn.Failure h) (convertToStepObject <$> Digraph.HandlerOn.Success h)))
    (Some (Digraph.DAG.HistRetentionDays dag)) (Some (Digraph.DAG.Location dag)) (Some (Digraph.DAG.LogDir dag))
    (Some (Digraph.DAG.MaxActiveRuns dag)) (Some (Digraph.DAG.Name dag)) (Digraph.DAG.Params dag)
    (Some <$> (convert_condition <$> Digraph.DAG.Preconditions dag)) (Some <$> (convert_schedule <$> Digraph.DAG.Schedule dag))
    (Some <$> (convertToStepObject <$> Digraph.DAG.Steps dag)) (Digraph.DAG.Tags dag).

Definition detail_response (tab : string) (s : DAGStatus) (err : option error) : models.GetDAGDetailsResponse.t :=
  models.GetDAGDetailsResponse.mk
    (Some (models.DAGStatusFileDetails.mk (Some (dag_details (st_DAG s))) (Some (st_Dir s)) (ErrorT s) (Some (st_File s))
             (Some (convertToStatusDetails (st_Status s))) (Some (st_Suspended s))))
    (Some "") (match err with Some e => [error_text e] | None => [] end) None None None None None
    (Some tab) (Some (Digraph.DAG.Name (st_DAG s))).

Definition getDetail (p : DetailsParams) (w : W) : W * answer models.GetDAGDetailsResponse.t :=
  let tab := default dagTabTypeStatus (dp_Tab p) in
  let '(w, (s, err)) := GetStatus (dp_DagID p) w in
  let resp := detail_response tab s err in
  if bool_decide (tab = dagTabTypeStatus) then (w, Answer resp)
  else if bool_decide (tab = dagTabTypeSpec) then processSpecRequest (dp_DagID p) resp w
  else if bool_decide (tab = dagTabTypeHistory) then processLogRequest (st_DAG s) resp w
  else if bool_decide (tab = dagTabTypeStepLog) then processStepLogRequest (st_DAG s) p resp w
  else if bool_decide (tab = dagTabTypeSchedulerLog) then processSchedulerLogRequest (st_DAG s) p resp w
  else (w, Coded (newBadRequestError (ENew ("invalid tab type: " +:+ tab)))).

(** ** Actions *)

(** [processUpdateStatus] looks for the step and takes the last index. *)
Definition find_step (name : string) (ns : list MNode.t) : option nat :=
  last (omap (fun p => if bool_decide (Digraph.Step.Name (MNode.Step (snd p)) = name) then Some (fst p) else None)
             (imap pair ns)).

Definition set_MNode_Status (to : NodeStatus) (n : MNode.t) : MNode.t :=
  MNode.mk (MNode.Step n) (MNode.Log n) (MNode.StartedAt n) (MNode.FinishedAt n) to (MNode.RetriedAt n)
    (MNode.RetryCount n) (MNode.DoneCount n) (MNode.Error n) (NodeStatus_String to).

Definition set_Nodes (s : MStatus.t) (ns : list MNode.t) : MStatus.t :=
  MStatus.mk (MStatus.RequestID s) (MStatus.Name s) (MStatus.Status s) (MStatus.StatusText s) (MStatus.PID s) ns
    (MStatus.OnExit s) (MStatus.OnSuccess s) (MStatus.OnFailure s) (MStatus.OnCancel s)
    (MStatus.StartedAt s) (MStatus.FinishedAt s) (MStatus.Log s) (MStatus.Params s) (MStatus.ParamsList s).

Definition bad {A} (text : string) : answer A := Coded (newBadRequestError (ENew text)).

Definition done_action : answer models.PostDAGActionResponse.t := Answer (models.PostDAGActionResponse.mk "").

Definition processUpdateStatus (body : models.PostDAGActionRequest.t) (s : DAGStatus) (to : NodeStatus) (w : W)
    : W * answer models.PostDAGActionResponse.t :=
  let requestID := models.PostDAGActionRequest.RequestID body in
  let step := models.PostDAGActionRequest.Step body in
  if bool_decide (requestID = "") then (w, bad "request-id is required")
  else if bool_decide (step = "") then (w, bad "step name is required")
  else if bool_decide (MStatus.Status (st_Status s) = StatusRunning)
  then (w, bad ("the DAG " +:+ q (Digraph.DAG.Name (st_DAG s)) +:+ " is still running"))
  else
    match GetStatusByRequestID md5hex request StatusFromJSON fmt_rfc3339 (st_DAG s) requestID w with
    | (w, Err e) => (w, Coded (newInternalError e))
    | (w, Ok st) =>
        match find_step step (MStatus.Nodes st) with
        | None => (w, bad ("step " +:+ q step +:+ " not found"))
        | Some i =>
            let st := set_Nodes st (alter (set_MNode_Status to) i (MStatus.Nodes st)) in
            match UpdateStatus md5hex request StatusFromJSON (st_DAG s) st w with
            | (w, Some e) => (w, Coded (newInternalError e))
            | (w, None) => (w, done_action)
            end
        end
    end.

(** The actions on a workflow whose status could be asked. *)
Definition act_on (action dagID : string) (body : models.PostDAGActionRequest.t) (s : DAGStatus) (w : W)
    : W * answer models.PostDAGActionResponse.t :=
  let running := bool_decide (MStatus.Status (st_Status s) = StatusRunning) in
  let value := models.PostDAGActionRequest.Value body in
  if bool_decide (action = "start") then
    if running then (w, bad ("the DAG " +:+ q dagID +:+ " is already running"))
    else (StartAsync exec (st_DAG s) (mkStart (models.PostDAGActionRequest.Params body) false) w, done_action)
  else if bool_decide (action = "suspend") then
    (fst (ToggleSuspend dagID (bool_decide (value = "true")) w), done_action)
  else if bool_decide (action = "stop") then
    if negb running then (w, bad ("the DAG " +:+ q dagID +:+ " is not running"))
    else match Stop md5hex request FileExists (st_DAG s) w with
         | (w, Some e) => (w, Coded (newBadRequestError (EWrap "error trying to stop the DAG: " e "")))
         | (w, None) => (w, done_action)
         end
  else if bool_decide (action = "retry") then
    let requestID := models.PostDAGActionRequest.RequestID body in
    if bool_decide (requestID = "") then (w, bad "request-id is required")
    else match Retry exec (st_DAG s) requestID w with
         | (w, Some e) => (w, Coded (newInternalError (EWrap "error trying to retry the DAG: " e "")))
         | (w, None) => (w, done_action)
         end
  else if bool_decide (action = "mark-success") then processUpdateStatus body s NodeStatusSuccess w
  else if bool_decide (action = "mark-failed") then processUpdateStatus body s NodeStatusError w
  else if bool_decide (action = "rename") then
    if bool_decide (value = "") then (w, bad "the value (new name) is required")
    else match client_Rename dagID value w with
         | (w, Some e) => (w, Coded (newInternalError e))
         | (w, None) => (w, Answer (models.PostDAGActionResponse.mk value))
         end
  else (w, bad ("invalid action: " +:+ action)).

Definition postAction (dagID : string) (body : models.PostDAGActionRequest.t) (w : W)
    : W * answer models.PostDAGActionResponse.t :=
  match models.PostDAGActionRequest.Action body with
  | None => (w, bad "missing required parameter: action")
  | Some action =>
      if bool_decide (action = "save") then
        match UpdateDAG dagID (models.PostDAGActionRequest.Value body) w with
        | (w, Some e) => (w, Coded (newInternalError e))
        | (w, None) => (w, done_action)
        end
      else
        match GetStatus dagID w with
        | (w, (_, Some e)) => (w, Coded (newBadRequestError e))
        | (w, (s, None)) => act_on action dagID body s w
        end
  end.

End handlers.

(** ** Requests for another node *)

(** [config.RemoteNode]. *)
Module RemoteNode.
Record t := mk {
  Name : string;
  APIBaseURL : string;
  IsBasicAuth : bool;
  BasicAuthUsername : string;
  BasicAuthPassword : string;
  IsAuthToken : bool;
  AuthToken : string;
  SkipTLSVerify : bool
}.
End RemoteNode.

(** What is used of an [http.Request]; the values of a query parameter are in
    order. *)
Record incoming := mkIncoming {
  in_Method : string;
  in_Path : string;
  in_Query : gmap string (list string);
  in_Header : list (string * list string)
}.

(** How the forwarded request is authorized. *)
Inductive authorization := NoAuthorization | BasicAuth (user password : string) | Bearer (token : string).

Record outgoing := mkOutgoing {
  out_Method : string;
  out_URL : string;
  out_Body : option string;
  out_Auth : authorization;
  out_Header : list (string * string);
  out_InsecureSkipVerify : bool
}.

(** What the middleware is told: to go on here, to refuse, an error, or the
    answer of the other node. *)
Inductive proxied := HandleLocally | Refuse (code : Z) | ProxyError (e : codedError) | Relay (code : Z) (data : string).

(** [url.QueryEscape]. *)
Definition unreserved (c : ascii) : bool :=
  let n := nat_of_ascii c in
  ((48 <=? n) && (n <=? 57)) || ((65 <=? n) && (n <=? 90)) || ((97 <=? n) && (n <=? 122)) ||
  bool_decide (c ∈ s2l "-_.~").

Definition upper_hex (n : Z) : ascii := z_byte (if (n <? 10)%Z then 48 + n else 55 + n)%Z.

Definition QueryEscape (s : string) : string :=
  l2s (concat ((fun c => if unreserved c then [c] else if bool_decide (c = " "%char) then ["+"%char]
    else ["%"%char; upper_hex (byte_z c / 16); upper_hex (byte_z c mod 16)]) <$> s2l s)).

(** [url.Values.Encode]: sorted by name. *)
Definition Encode (v : gmap string (list string)) : string :=
  join (concat ((fun k => (fun x => QueryEscape k +:+ "=" +:+ QueryEscape x) <$> default [] (v !! k)) <$>
    merge_sort String.le (fst <$> map_to_list v))) "&".

Section proxy.
Context (remoteNodes : gmap string RemoteNode.t) (apiBasePath : string).
(** [http.NewRequest] on a URL; [client.Do], with the body as far as it could be
    read; the error of a body that is one. *)
Context (valid_url : string -> option error) (Do : outgoing -> result (Z * result string)).
Context (remote_error : string -> option (option string * option string)).

Definition coded_relay (code : Z) (data : string) : proxied :=
  let generic := ProxyError (newError code models.ErrorCodeBadGateway (Some ("remote node responded with status " +:+ pretty code))) in
  if bool_decide (data = "") then generic
  else match remote_error data with
       | Some (c, Some m) => ProxyError (newError code (default "" c) (Some m))
       | _ => generic
       end.

Definition bad_gateway (text : string) (e : error) : proxied :=
  ProxyError (newError 502 models.ErrorCodeBadGateway (Some (text +:+ error_text e))).
Definition internal (text : string) (e : error) : proxied :=
  ProxyError (newError 500 models.ErrorCodeInternalError (Some (text +:+ error_text e))).

(** The request another node is sent: its own credentials, and the headers of
    the original one but for its authorization. *)
Definition remote_request (body : option (result string)) (r : incoming) (n : RemoteNode.t) (url : string) : outgoing :=
  let auth := if RemoteNode.IsBasicAuth n then BasicAuth (RemoteNode.BasicAuthUsername n) (RemoteNode.BasicAuthPassword n)
              else if RemoteNode.IsAuthToken n then Bearer (RemoteNode.AuthToken n) else NoAuthorization in
  let header := concat ((fun kv => if bool_decide (fst kv = "Authorization") then [] else (fun v => (fst kv, v)) <$> snd kv) <$> in_Header r) in
  mkOutgoing (in_Method r) url (match body with Some (Ok j) => Some j | _ => None end) auth header (RemoteNode.SkipTLSVerify n).

(** [body] is the body as JSON, or the error of encoding it. *)
Definition doRemoteProxy (body : option (result string)) (r : incoming) (n : RemoteNode.t) : proxied :=
  match split (in_Path r) apiBasePath with
  | _ :: rest :: _ =>
      let url := trim_suffix (RemoteNode.APIBaseURL n) "/" +:+ rest +:+ "?" +:+ Encode (delete "remoteNode" (in_Query r)) in
      match body with
      | Some (Err e) => internal "failed to marshal request body: " e
      | _ =>
          match valid_url url with
          | Some e => internal "failed to create request to remote node: " e
          | None =>
              match Do (remote_request body r n url) with
              | Err e => bad_gateway "failed to send request to remote node: " e
              | Ok (_, Err e) => bad_gateway "failed to read response from remote node: " e
              | Ok (code, Ok data) => if ((code <? 200) || (299 <? code))%Z then coded_relay code data else Relay code data
              end
          end
      end
  | _ => ProxyError (newBadRequestError (ENew "invalid API path"))
  end.

Definition handleRemoteNodeProxy (body : option (result string)) (r : incoming) : proxied :=
  let name := default "" (head (default [] (in_Query r !! "remoteNode"))) in
  if bool_decide (name = "") || bool_decide (name = "local") then HandleLocally
  else match remoteNodes !! name with
       | None => Refuse 400
       | Some n => doRemoteProxy body r n
       end.

End proxy.

(** [NewDAG]: of nodes of one name the last is kept. *)
Definition remote_nodes (ns : list RemoteNode.t) : gmap string RemoteNode.t :=
  foldl (fun m n => <[RemoteNode.Name n := n]> m) ∅ ns.

(** ** Health (system.go) *)

Definition HealthResponseStatusHealthy : string := "healthy".

Definition GetHealth (fmt_rfc3339 : Z -> string) (version : string) (uptime now : Z) : models.HealthResponse.t :=
  models.HealthResponse.mk (Some HealthResponseStatusHealthy) (Some (FormatTime fmt_rfc3339 now)) (Some uptime) (Some version).
