(* ===== verification/HandlersProps.v ===== *)
(** * Properties of the handlers

    Marking a step from the web interface, through the handler, the client and the
    history store. *)

From stdpp Require Import pretty.
From S2P Require Import Prelude GoStrings Utf8 Vars Digraph NodeData Paths Node Graph GraphProps Sched SchedProps Model History HistoryProps HistoryLife Builder FileCache Stores Client JsonStore ApiModels Handlers.
Import App.

Lemma alter_at {A} (f : A -> A) (l : list A) : forall i x, l !! i = Some x -> alter f i l = <[i := f x]> l.
Proof.
  induction l as [|y l IH]; intros [|i] x; simpl; [done..|by intros [= ->]|].
  intros H. unfold alter, insert in IH. by rewrite (IH i x H).
Qed.

Section handlers.
Context {D F : Type} `{!DAGStore D, !FlagStore F}.
Context (marshal : MStatus.t -> result string) (unmarshal : string -> option MStatus.t).
Context (baseDir : string) (md5hex : string -> string) (fmt_utc : Z -> string).
Context (parse_plain parse_utc : string -> option Z) (latestStatusToday : bool) (o : os).
Context (jitter : Z) (days_ago : Z -> Z).
(** What the agents answer, the same to every question of one request. *)
Context (reply : string -> string -> string -> result string) (StatusFromJSON : string -> result MStatus.t).
Context (exec : list string -> app D hist F -> app D hist F * option error).
Context (FileExists : string -> app D hist F -> bool) (fmt_rfc3339 : Z -> string) (order : Z -> nat -> list Z).
Context (is_print : Z -> bool).

#[local] Instance db : HistoryStore hist :=
  JSONDB marshal unmarshal baseDir md5hex fmt_utc parse_plain parse_utc latestStatusToday o jitter days_ago.

Definition ask_agent (addr method path : string) (w : app D hist F) : app D hist F * result string :=
  (w, reply addr method path).

Abbreviation GetLatestStatus := (GetLatestStatus md5hex ask_agent StatusFromJSON fmt_rfc3339).
Abbreviation GetStatus := (GetStatus md5hex ask_agent StatusFromJSON fmt_rfc3339 order).
Abbreviation find_in := (FindByRequestID unmarshal baseDir md5hex).

(** The states agree but for what the caches hold. *)
Definition same_files (w w' : app D hist F) : Prop :=
  h_fs (app_hist w') = h_fs (app_hist w) /\ app_dags w' = app_dags w /\ app_flags w' = app_flags w.

Lemma same_files_refl w : same_files w w.
Proof. done. Qed.

Lemma parse_files file h : h_fs (fst (parseStatusFile unmarshal o jitter file h)) = h_fs h.
Proof.
  unfold parseStatusFile. destruct (h_cache h); [|done]. by destruct (LoadLatest _ _ _ _ _ _ _).
Qed.

Lemma latest_files dag w : same_files w (fst (GetLatestStatus dag w)).
Proof.
  unfold Client.GetLatestStatus, currentStatus, status_request, ask_agent.
  assert (forall w', w' = w -> same_files w (fst
    match hs_ReadStatusToday (Digraph.DAG.Location dag) w' with
    | (w, Err e) => if errors_is e ErrNoStatusDataToday || errors_is e ErrNoStatusData
                    then (w, (CreateDefault fmt_rfc3339 dag, None)) else (w, (CreateDefault fmt_rfc3339 dag, Some e))
    | (w, Ok r) => let st := CorrectRunningStatus (r_val r) in (r_put r st w, (st, None))
    end)) as Hread.
  { intros w' ->. simpl. unfold on_hist. simpl. unfold cached_ReadStatusToday.
    destruct (latestToday _ _ _ _ _ _ _ _) as [file|e]; simpl; [|by destruct (_ || _)].
    pose proof (parse_files file (app_hist w)) as Hp.
    destruct (parseStatusFile unmarshal o jitter file (app_hist w)) as [h1 [st|e]]; simpl in *; [|by destruct (_ || _)].
    by split_and!. }
  destruct (reply _ _ _) as [ret|e]; simpl; [|by apply Hread].
  destruct (StatusFromJSON ret) as [st|e]; [done|by apply Hread].
Qed.

Lemma latest_told dag w ret c :
  reply (SockAddr md5hex dag) "GET" "/status" = Ok ret -> StatusFromJSON ret = Ok c ->
  GetLatestStatus dag w = (w, (c, None)).
Proof. intros Hr Hc. unfold Client.GetLatestStatus, currentStatus, status_request, ask_agent. by rewrite Hr, Hc. Qed.

(** What the client makes of the status in the history: a run it finds running is
    failed when the agent answers for another request, or nobody listens. *)
Definition corrected (dag : Digraph.DAG.t) (requestID : string) (st : MStatus.t) : MStatus.t :=
  match reply (SockAddr md5hex dag) "GET" "/status" with
  | Ok ret =>
      match StatusFromJSON ret with
      | Ok c => if bool_decide (MStatus.RequestID c <> requestID) then CorrectRunningStatus st else st
      | Err _ => st
      end
  | Err e => if errors_is e ErrTimeout || bool_decide (requestID = "") then st else CorrectRunningStatus st
  end.

Lemma by_request dag requestID w :
  GetStatusByRequestID md5hex ask_agent StatusFromJSON fmt_rfc3339 dag requestID w =
  (w, match find_in (h_fs (app_hist w)) (Digraph.DAG.Location dag) requestID with
      | Ok sf => Ok (corrected dag requestID (sf_Status sf))
      | Err e => Err e
      end).
Proof.
  unfold GetStatusByRequestID, corrected. simpl. destruct (find_in _ _ _) as [sf|e]; [|done].
  unfold GetCurrentStatus, status_request, ask_agent. destruct (reply _ _ _) as [ret|e].
  - by destruct (StatusFromJSON ret).
  - destruct (errors_is e ErrTimeout); [done|]. simpl. by destruct requestID.
Qed.

Lemma CorrectRunningStatus_fields st :
  MStatus.RequestID (CorrectRunningStatus st) = MStatus.RequestID st /\ MStatus.Nodes (CorrectRunningStatus st) = MStatus.Nodes st.
Proof. unfold CorrectRunningStatus. by case_bool_decide. Qed.

Lemma corrected_fields dag requestID st :
  MStatus.RequestID (corrected dag requestID st) = MStatus.RequestID st /\
  MStatus.Nodes (corrected dag requestID st) = MStatus.Nodes st.
Proof. unfold corrected. repeat case_match; first [apply CorrectRunningStatus_fields | done]. Qed.

Lemma GetStatus_files dagID w :
  let w' := fst (GetStatus dagID w) in
  h_fs (app_hist w') = h_fs (app_hist w) /\ app_dags w' = fst (ds_GetDetails dagID (app_dags w)) /\ app_flags w' = app_flags w.
Proof.
  unfold Client.GetStatus, getDAG. simpl. unfold on_dags. destruct (ds_GetDetails dagID (app_dags w)) as [d [dag|e]]; simpl.
  - destruct (latest_files dag (set_dags w d)) as (Hf & Hd & Hg).
    destruct (GetLatestStatus dag (set_dags w d)) as [w1 [st e1]]. simpl in *. split_and!; done.
  - destruct (latest_files (Digraph.DAG.set_Location Digraph.DAG.empty dagID) (set_dags w d)) as (Hf & Hd & Hg).
    destruct (GetLatestStatus _ (set_dags w d)) as [w1 [st e1]]. simpl in *. split_and!; done.
Qed.

(** Without an error the workflow is the one that was read, and when its agent
    answered, the status is the answer. *)
Lemma GetStatus_ok dagID w s : snd (GetStatus dagID w) = (s, None) ->
  snd (ds_GetDetails dagID (app_dags w)) = Ok (st_DAG s) /\
  (forall ret c, reply (SockAddr md5hex (st_DAG s)) "GET" "/status" = Ok ret -> StatusFromJSON ret = Ok c -> st_Status s = c).
Proof.
  unfold Client.GetStatus, getDAG. simpl. unfold on_dags. destruct (ds_GetDetails dagID (app_dags w)) as [d [dag|e]]; simpl.
  - pose proof (latest_told dag (set_dags w d)) as Ht.
    destruct (GetLatestStatus dag (set_dags w d)) as [w1 [st e1]]. simpl. intros H.
    assert (s = newDAGStatus dag st (fl_IsSuspended dagID (app_flags w1)) None) as ->
      by (by destruct (graph_error order (Digraph.DAG.Steps dag)); [|injection H as <-]).
    simpl. split; [done|]. intros ret c Hr Hc. by injection (Ht ret c Hr Hc) as _ ->.
  - by destruct (GetLatestStatus _ _) as [w1 [st e1]].
Qed.

Lemma find_step_named name ns i : find_step name ns = Some i ->
  exists n, ns !! i = Some n /\ Digraph.Step.Name (MNode.Step n) = name.
Proof.
  unfold find_step. intros (l & H)%last_Some.
  assert (i ∈ omap (fun p => if bool_decide (Digraph.Step.Name (MNode.Step (snd p)) = name) then Some (fst p) else None)
                (imap pair ns)) as Hi by (rewrite H; set_solver).
  apply list_elem_of_omap in Hi as ((k & n) & Hk & Hn). simpl in Hn. case_bool_decide; [|done].
  injection Hn as ->. apply list_elem_of_lookup in Hk as (k & Hk).
  rewrite list_lookup_imap in Hk. destruct (ns !! k) eqn:E; [|done]. injection Hk as -> ->. by eexists.
Qed.

(** An update that fails though the system calls do not leaves the files. *)
Lemma Update_refused key requestID st f
    (Hcalm : forall p, os_mkdir o p = None /\ os_open o p = None /\ os_write o p = None) :
  is_Some (snd (Update marshal unmarshal baseDir md5hex o f key requestID st)) ->
  fst (Update marshal unmarshal baseDir md5hex o f key requestID st) = f.
Proof.
  unfold Update, FindByRequestID. case_bool_decide; [done|].
  destruct (find_request _ _ _ _) as [sf|] eqn:Ef; [|done]. apply find_request_exists in Ef as [fl Hfl].
  destruct (Hcalm (sf_File sf)) as (_ & Ho & Hw). destruct (Hcalm (Dir (sf_File sf))) as (Hm & _).
  unfold writer_open. simpl. rewrite Hm, Ho, Hfl. unfold writer_write. simpl. rewrite Hw.
  destruct (marshal st); simpl; [by intros [? ?]|done].
Qed.

(** What the update asks of the agent and does. *)
Lemma UpdateStatus_cases dag st w :
  let r := UpdateStatus md5hex ask_agent StatusFromJSON dag st w in
  (fst r = w /\ is_Some (snd r)) \/
  r = hs_Update (Digraph.DAG.Location dag) (MStatus.RequestID st) st w.
Proof.
  unfold UpdateStatus, status_request, ask_agent. destruct (reply _ _ _) as [ret|e].
  - destruct (StatusFromJSON ret); [|by right]. destruct (_ && _); [left; by split|by right].
  - destruct (errors_is e ErrTimeout); [left; by split|by right].
Qed.

(** The status after a step of a run was marked. *)
Definition marked (st : MStatus.t) (i : nat) (n : MNode.t) (to : NodeStatus) : MStatus.t :=
  set_Nodes st (<[i := set_MNode_Status to n]> (MStatus.Nodes st)).

(** What marking a step of a request does to the files: nothing with an error, or
    one new status for the request. *)
Definition marks (dag : Digraph.DAG.t) (requestID step : string) (to : NodeStatus) (w w' : app D hist F) : Prop :=
  exists file st i n,
    let new := marked (corrected dag requestID st) i n to in
    find_in (h_fs (app_hist w)) (Digraph.DAG.Location dag) requestID = Ok (mkStatusFile file st) /\
    MStatus.Nodes st !! i = Some n /\ Digraph.Step.Name (MNode.Step n) = step /\
    (forall j, encodable marshal unmarshal new j ->
       (forall fl, h_fs (app_hist w) !! file = Some fl -> whole (f_content fl)) ->
       find_in (h_fs (app_hist w')) (Digraph.DAG.Location dag) requestID = Ok (mkStatusFile file new) /\
       (forall other, other <> requestID ->
          find_in (h_fs (app_hist w')) (Digraph.DAG.Location dag) other =
          find_in (h_fs (app_hist w)) (Digraph.DAG.Location dag) other)).

Lemma find_in_request f key requestID sf : find_in f key requestID = Ok sf -> MStatus.RequestID (sf_Status sf) = requestID.
Proof.
  unfold FindByRequestID. intros H. case_bool_decide; [done|]. destruct (find_request _ _ _ _) eqn:E; [|done].
  injection H as <-. by destruct (find_request_ok _ _ _ _ _ E).
Qed.

Lemma update_marks body s to w
    (Hcalm : forall p, os_mkdir o p = None /\ os_open o p = None /\ os_write o p = None) :
  let '(w', r) := processUpdateStatus md5hex ask_agent StatusFromJSON fmt_rfc3339 is_print body s to w in
  app_dags w' = app_dags w /\ app_flags w' = app_flags w /\
  match r with
  | Panic _ => False
  | Coded _ => h_fs (app_hist w') = h_fs (app_hist w)
  | Answer _ =>
      MStatus.Status (st_Status s) <> StatusRunning /\
      marks (st_DAG s) (models.PostDAGActionRequest.RequestID body) (models.PostDAGActionRequest.Step body) to w w'
  end.
Proof.
  set (rid := models.PostDAGActionRequest.RequestID body). set (step := models.PostDAGActionRequest.Step body).
  unfold processUpdateStatus. fold rid step.
  do 3 (case_bool_decide; [by split_and!|]). rewrite by_request.
  destruct (find_in _ _ rid) as [[file st]|e] eqn:Hfind; [|done]. simpl.
  pose proof (find_in_request _ _ _ _ Hfind) as Hrid. simpl in Hrid.
  destruct (corrected_fields (st_DAG s) rid st) as [Hrid' Hnodes].
  rewrite Hnodes. destruct (find_step step (MStatus.Nodes st)) as [i|] eqn:Hi; [|done].
  destruct (find_step_named _ _ _ Hi) as (n & Hn & Hname).
  replace (alter _ i (MStatus.Nodes st)) with (<[i := set_MNode_Status to n]> (MStatus.Nodes st))
    by (by rewrite (alter_at _ _ _ _ Hn)).
  set (new := set_Nodes _ _).
  assert (MStatus.RequestID new = rid) as Hnew by (unfold new; simpl; congruence).
  pose proof (UpdateStatus_cases (st_DAG s) new w) as Hu.
  destruct (UpdateStatus _ _ _ _ new w) as [w' e]. destruct Hu as [[Hw He]|Hu]; simpl in *.
  { subst w'. destruct e; [done|]. by destruct He. }
  rewrite Hnew in Hu. unfold on_hist in Hu.
  pose proof (update_fs marshal unmarshal baseDir md5hex o (app_hist w) (Digraph.DAG.Location (st_DAG s)) rid new) as [Hf He].
  destruct (cached_Update _ _ _ _ _ _ _ _ _) as [h' e'] in Hu, Hf, He. simpl in *. injection Hu as -> ->.
  destruct e' as [x|]; simpl.
  - split_and!; [done..|]. rewrite Hf. apply Update_refused; [done|]. rewrite <- He. by eexists.
  - split_and!; [done..|]. exists file, st, i, n. split_and!; [done..|].
    unfold marked. rewrite Hnodes. fold new. intros j Hj Hwhole.
    destruct (Hcalm file) as (_ & Ho & Hw), (Hcalm (Dir file)) as (Hm & _).
    pose proof (updated_status marshal unmarshal baseDir md5hex o _ _ rid file st new j Hfind Hnew Hj Hwhole Hm Ho Hw) as H3.
    simpl. rewrite Hf. destruct (Update _ _ _ _ _ _ _ _ _) as [f' e3]. simpl in *. tauto.
Qed.

(** C40: marking a step of an earlier run as succeeded or failed from the web
    interface, through the handler, the client and the history store, when no
    system call fails and the agent's answer does not change meanwhile.  When the
    request is answered, the agent did not report the workflow running, and the
    request was in the history with a node of that step.  What is written is the
    status found there, as failed if it was left running and the agent answers
    for another request or nobody listens ([corrected]), with the status of that
    node changed; if it can be encoded and the file is one of whole lines it is
    found afterwards in the same file, and every other request as before.  When
    the request is refused the history files are left as they were; flags are
    never touched and workflows only read. *)
Theorem mark_step (dagID action : string) (to : NodeStatus) (body : models.PostDAGActionRequest.t) (w : app D hist F)
    (Haction : models.PostDAGActionRequest.Action body = Some action)
    (Hto : (action, to) ∈ [("mark-success", NodeStatusSuccess); ("mark-failed", NodeStatusError)])
    (Hcalm : forall p, os_mkdir o p = None /\ os_open o p = None /\ os_write o p = None) :
  let '(w', r) := postAction md5hex ask_agent StatusFromJSON exec FileExists fmt_rfc3339 order is_print dagID body w in
  app_dags w' = fst (ds_GetDetails dagID (app_dags w)) /\ app_flags w' = app_flags w /\
  match r with
  | Panic _ => False
  | Coded _ => h_fs (app_hist w') = h_fs (app_hist w)
  | Answer _ => exists dag,
      snd (ds_GetDetails dagID (app_dags w)) = Ok dag /\
      (forall ret c, reply (SockAddr md5hex dag) "GET" "/status" = Ok ret -> StatusFromJSON ret = Ok c ->
         MStatus.Status c <> StatusRunning) /\
      marks dag (models.PostDAGActionRequest.RequestID body) (models.PostDAGActionRequest.Step body) to w w'
  end.
Proof.
  unfold postAction. rewrite Haction. rewrite bool_decide_false by (set_unfold; naive_solver).
  destruct (GetStatus_files dagID w) as (Hf & Hd & Hg). pose proof (GetStatus_ok dagID w) as Hok.
  destruct (GetStatus dagID w) as [w1 [s [e|]]]; simpl in *; [done|]. destruct (Hok s eq_refl) as [Hdag Hst].
  assert (act_on md5hex ask_agent StatusFromJSON exec FileExists fmt_rfc3339 is_print action dagID body s w1 =
    processUpdateStatus md5hex ask_agent StatusFromJSON fmt_rfc3339 is_print body s to w1) as ->.
  { assert ((action, to) = ("mark-success", NodeStatusSuccess) \/ (action, to) = ("mark-failed", NodeStatusError)) as [H|H]
      by set_solver; by injection H as -> ->. }
  pose proof (update_marks body s to w1 Hcalm) as H.
  destruct (processUpdateStatus _ _ _ _ _ _ _ _ _) as [w' r]. destruct H as (H1 & H2 & H3).
  rewrite H1, H2. split_and!; [done..|]. destruct r as [a|x|x]; [|by rewrite H3|done].
  destruct H3 as (Hnr & file & st & i & n & H3). exists (st_DAG s). split; [done|]. split.
  - intros ret c Hr Hc. by rewrite <- (Hst ret c Hr Hc).
  - exists file, st, i, n. by rewrite Hf in H3.
Qed.

End handlers.

(** ** A run with a failed step *)

Definition failed_run (st : NodeStatus) : MStatus.t :=
  MStatus.mk "r1" "job" StatusError (Status_String StatusError) pidNotRunning
    [MNode.mk (named_step "a" []) "" "-" "-" st "-" 0 0 "" (NodeStatus_String st)] None None None None "-" "-" "" "" [].

Definition run_marshal (st : MStatus.t) : result string :=
  Ok (if bool_decide (MNode.Status <$> MStatus.Nodes st = [NodeStatusSuccess]) then "success" else "failed").

Definition run_unmarshal (s : string) : option MStatus.t :=
  if bool_decide (s = "failed") then Some (failed_run NodeStatusError)
  else if bool_decide (s = "success") then Some (failed_run NodeStatusSuccess)
  else None.

#[local] Instance one_dag : DAGStore unit :=
  mkDAGStore unit (fun _ _ h => (h, Err ErrNotExist)) (fun _ h => (h, None)) (fun h => (h, ([], [], None)))
    (fun _ h => (h, (mkListResult [] 0 [], None))) (fun _ h => (h, Err ErrNotExist))
    (fun _ h => (h, Ok (Digraph.DAG.set_Location Digraph.DAG.empty "/d/k.yaml")))
    (fun _ h => (h, ([], [], None))) (fun _ _ h => (h, None)) (fun _ _ => Err ErrNotExist)
    (fun _ _ h => (h, None)) (fun h => (h, Ok ([], []))).

#[local] Instance no_suspension : FlagStore unit := mkFlagStore unit (fun _ _ h => (h, None)) (fun _ _ => false).

Definition failed_app : app unit hist unit := mkApp tt (mkHist None (one_line "failed") None) tt.

Definition mark_a : models.PostDAGActionRequest.t := models.PostDAGActionRequest.mk (Some "mark-success") "" "r1" "a" "".

Definition post_mark : app unit hist unit * answer models.PostDAGActionResponse.t :=
  @postAction (app unit hist unit)
    (@app_HistoryStore unit hist unit (db run_marshal run_unmarshal "/h" (fun _ => "m") (fun _ => "") (fun _ => Some 0%Z)
       (fun _ => Some 0%Z) false calm 0 (fun _ => 0%Z))) app_DAGStore app_FlagStore
    (fun _ => "m") (ask_agent (fun _ _ _ => Err ErrNotExist)) (fun _ => Err ErrEOF) (fun _ w => (w, None)) (fun _ _ => false)
    (fun _ => "") (fun _ _ => []) (fun _ => true) "k" mark_a failed_app.

Lemma mark_step_witness :
  snd post_mark = done_action /\
  FindByRequestID run_unmarshal "/h" (fun _ => "m") (h_fs (app_hist (fst post_mark))) "/d/k.yaml" "r1" =
    Ok (mkStatusFile sample_file (failed_run NodeStatusSuccess)).
Proof.
  assert (snd post_mark = done_action) as Hr by (vm_compute; reflexivity).
  split; [exact Hr|].
  pose proof (mark_step run_marshal run_unmarshal "/h" (fun _ => "m") (fun _ => "") (fun _ => Some 0%Z) (fun _ => Some 0%Z)
    false calm 0 (fun _ => 0%Z) (fun _ _ _ => Err ErrNotExist) (fun _ => Err ErrEOF) (fun _ w => (w, None)) (fun _ _ => false)
    (fun _ => "") (fun _ _ => []) (fun _ => true) "k" "mark-success" NodeStatusSuccess mark_a failed_app eq_refl
    (list_elem_of_here _ _) (fun _ => conj eq_refl (conj eq_refl eq_refl))) as H.
  unfold post_mark in Hr |- *. destruct (postAction _ _ _ _ _ _ _ _ _ _ _) as [w' r]. simpl in Hr. subst r.
  destruct H as (_ & _ & dag & Hdag & _ & file & st & i & n & Hfind & Hn & Hname & H).
  injection Hdag as <-.
  assert (FindByRequestID run_unmarshal "/h" (fun _ => "m") (one_line "failed") "/d/k.yaml" "r1" =
    Ok (mkStatusFile sample_file (failed_run NodeStatusError))) as Hf by (vm_compute; reflexivity).
  assert (Ok (mkStatusFile file st) = Ok (mkStatusFile sample_file (failed_run NodeStatusError))) as E
    by (rewrite <- Hfind; exact Hf).
  injection E as -> ->. destruct i as [|[|i]]; [|discriminate Hn..]. injection Hn as <-.
  apply (H "success").
  - split; [vm_compute; reflexivity|by apply (bool_decide_unpack _)|vm_compute; congruence|done|vm_compute; reflexivity].
  - intros fl. apply one_line_whole. by apply (bool_decide_unpack _).
Defined.
