(* ===== verification/ApiValidateProps.v ===== *)
(** * What the generated checks decide

    The checks of a record report exactly the places where its JSON encoding departs
    from the schema of the embedded document, under the names a client knows them by,
    but for null elements of arrays, which they pass over; the checks that depend on
    the context never report anything. *)

From stdpp Require Import pretty.
From S2P Require Import Prelude GoStrings Utf8 Vars Digraph NodeData Paths Node Graph Sched Model History Builder Stores Client ApiSpec ApiModels ApiValidate Handlers.

(** ** What is relied on of go-openapi *)

Definition prefixed (name field : string) : string := if bool_decide (field = "") then name else name +:+ "." +:+ field.

(** [names] are the names an error carries; [ValidateName] puts the one it is given
    in front of each. *)
Class OpenAPILaws (E : Type) `{!OpenAPI E} (names : E -> list string) : Prop := {
  Required_set p i : Required p i false = None;
  Required_zero p i : exists e, Required p i true = Some e /\ kind_of e = KValidation /\ names e = [p];
  EnumCase_in p i v enum : v ∈ enum -> EnumCase p i v enum true = None;
  EnumCase_out p i v enum :
    v ∉ enum -> exists e, EnumCase p i v enum true = Some e /\ kind_of e = KValidation /\ names e = [p];
  Composite_kind es : kind_of (CompositeValidationError es) = KComposite;
  Composite_names es : names (CompositeValidationError es) = concat (names <$> es);
  Validation_named n e : kind_of e = KValidation ->
    kind_of (Validation_ValidateName n e) = KValidation /\ names (Validation_ValidateName n e) = prefixed n <$> names e;
  Composite_named n e : kind_of e = KComposite ->
    kind_of (CompositeError_ValidateName n e) = KComposite /\ names (CompositeError_ValidateName n e) = prefixed n <$> names e
}.

(** The name of a path: its parts with dots between them. *)
Fixpoint dotted (p : list string) : string :=
  match p with [] => "" | n :: p => prefixed n (dotted p) end.

Lemma pretty_nat_nonempty (n : nat) : pretty n <> "".
Proof.
  unfold pretty, pretty_nat, pretty, pretty_N. case_decide; [done|].
  rewrite pretty_N_go_step by lia. generalize (N.of_nat n `div` 10)%N. intros m.
  assert (forall k s, s <> "" -> pretty_N_go k s <> "") as Hgo; [|by apply Hgo].
  intros k. induction (N.lt_wf_0 k) as [k _ IH]. intros s Hs.
  destruct (decide (k = 0)%N) as [->|Hk]; [by rewrite pretty_N_go_0|].
  rewrite pretty_N_go_step by lia. apply IH; [|done]. apply N.div_lt; lia.
Qed.

Lemma prefixed_element n i f : prefixed (n +:+ "." +:+ pretty (i : nat)) f = prefixed n (prefixed (pretty i) f).
Proof.
  unfold prefixed. case_bool_decide as E; subst.
  - case_bool_decide as E; [|done]. by apply pretty_nat_nonempty in E.
  - case_bool_decide as E'; [|by rewrite <- !append_assoc].
    exfalso. destruct (pretty i) eqn:Ep; [by apply pretty_nat_nonempty in Ep|done].
Qed.

(** ** Null elements *)

Definition is_null (j : json) : bool := match j with JNull => true | _ => false end.

(** Where a value departs from a schema, a null element of an array let pass. *)
Fixpoint tolerated (s : schema) (j : json) : list (list string) :=
  match s, j with
  | SString enum, JString v => if bool_decide (enum = []) || bool_decide (v ∈ enum) then [] else [[]]
  | SInteger, JNum _ => []
  | SBoolean, JBool _ => []
  | SArray items, JArray l => first_bad ((fun v => if is_null v then [] else tolerated items v) <$> l)
  | SObject properties required, JObject fields =>
      concat ((fun p =>
        match field fields p.1 with
        | Some v => (cons p.1) <$> tolerated p.2 v
        | None => if bool_decide (p.1 ∈ required) then [[p.1]] else []
        end) <$> properties)
  | _, _ => [[]]
  end.

(** No array anywhere in the value has a null element. *)
Fixpoint no_null_elements (j : json) : bool :=
  match j with
  | JArray l => forallb (fun v => negb (is_null v) && no_null_elements v) l
  | JObject fields => forallb (fun p => no_null_elements p.2) fields
  | _ => true
  end.

Lemma field_no_null fields key v :
  forallb (fun p => no_null_elements p.2) fields = true -> field fields key = Some v -> no_null_elements v = true.
Proof.
  induction fields as [|[k w] fields IH]; [done|]. simpl. intros [H1 H2]%andb_true_iff.
  case_bool_decide; [by intros [= <-]|by apply IH].
Qed.

Lemma tolerated_whole : forall s j, no_null_elements j = true -> tolerated s j = violations s j.
Proof.
  fix IH 1. intros [enum| | |items|props req] j; [by destruct j..| |].
  - destruct j as [| | | |l|]; try done. intros Hl. cbn [tolerated violations]. f_equal. simpl in Hl.
    induction l as [|v l IHl]; [done|]. apply andb_true_iff in Hl as [[Hv Hw]%andb_true_iff Hl]. cbn [fmap list_fmap].
    rewrite (IHl Hl), (IH items v Hw). by destruct (is_null v).
  - destruct j as [| | | | |fields]; try done. intros Hf. cbn [tolerated violations]. f_equal. simpl in Hf.
    induction props as [|[n s] props IHp]; [done|]. cbn [fmap list_fmap fst snd]. rewrite IHp. f_equal.
    destruct (field fields n) as [v|] eqn:E; [|done]. by rewrite (IH s v (field_no_null _ _ _ Hf E)).
Qed.

(** What is silent about a list of paths that says nothing. *)
Lemma first_bad_nil bad : first_bad bad = [] <-> Forall (fun ps => ps = []) bad.
Proof.
  unfold first_bad. generalize 0 as i. induction bad as [|[|p ps] bad IH]; intros i.
  - by split.
  - rewrite Forall_cons. simpl. rewrite IH. tauto.
  - rewrite Forall_cons. simpl. split; [done|by intros [? _]].
Qed.

Lemma concat_nil {A} (ls : list (list A)) : concat ls = [] <-> Forall (fun l => l = []) ls.
Proof.
  induction ls as [|l ls IH]; [by split|]. simpl. rewrite app_nil, Forall_cons. by rewrite IH.
Qed.

Lemma tolerated_lenient : forall s j, violations s j = [] -> tolerated s j = [].
Proof.
  fix IH 1. intros [enum| | |items|props req] j; [by destruct j..| |].
  - destruct j as [| | | |l|]; try done. cbn [tolerated violations]. rewrite !first_bad_nil.
    induction l as [|v l IHl]; [constructor|]. cbn [fmap list_fmap]. intros [Hv Hl]%Forall_cons.
    constructor; [by destruct (is_null v); [|apply IH]|by apply IHl].
  - destruct j as [| | | | |fields]; try done. cbn [tolerated violations]. rewrite !concat_nil.
    induction props as [|[n s] props IHp]; [constructor|]. cbn [fmap list_fmap fst snd]. intros [Hv Hl]%Forall_cons.
    constructor; [|by apply IHp]. destruct (field fields n) as [v|]; [|done].
    apply fmap_nil_inv in Hv. by rewrite (IH s v Hv).
Qed.

(** ** What a check reports *)

Create HintDb api.

Section reports.
Context {E : Type} `{!OpenAPI E} (names : E -> list string) `{!OpenAPILaws E names}.
Context (is_nil : nilness).

(** A check reports paths: it names each of them, in this order, and is silent when
    there are none. *)
Definition reports (r : option E) (ps : list (list string)) : Prop :=
  match r with
  | None => ps = []
  | Some e => ps <> [] /\ kind_of e <> KOther /\ names e = dotted <$> ps
  end.

Lemma reports_nil : reports None [].
Proof. done. Qed.

Lemma reports_required p i z : reports (Required p i z) (if z then [[p]] else []).
Proof.
  destruct z; [|by rewrite Required_set].
  destruct (Required_zero p i) as (e & -> & Hk & Hn). simpl. rewrite Hk, Hn.
  unfold prefixed. by rewrite bool_decide_true.
Qed.

Lemma reports_and_then a b p q : reports a p -> (p = [] -> reports b q) -> (p <> [] -> q = p) -> reports (and_then a b) q.
Proof.
  destruct a as [e|]; simpl.
  - intros (Hp & ? & ?) _ Hq. by rewrite Hq.
  - intros -> Hb _. by apply Hb.
Qed.

Lemma names_prefixed n (ps : list (list string)) : prefixed n <$> (dotted <$> ps) = dotted <$> (cons n <$> ps).
Proof. by rewrite <- !list_fmap_compose. Qed.

Lemma reports_named n r ps : reports r ps -> reports (named n r) (cons n <$> ps).
Proof.
  destruct r as [e|]; [|by intros ->]. intros (Hp & Hk & Hn). simpl.
  assert (cons n <$> ps <> []) as Hne by (by destruct ps).
  destruct (kind_of e) eqn:Ek; [| |done].
  - destruct (Validation_named n e Ek) as [-> ->]. split_and!; [done..|]. by rewrite Hn, names_prefixed.
  - destruct (Composite_named n e Ek) as [-> ->]. split_and!; [done..|]. by rewrite Hn, names_prefixed.
Qed.

Lemma reports_collect cs pss : Forall2 reports cs pss -> reports (collect cs) (concat pss).
Proof.
  intros H. assert (concat (names <$> omap id cs) = dotted <$> concat pss /\ (omap id cs = [] <-> concat pss = [])) as [Hn He].
  { induction H as [|c p cs pss Hc _ [IH1 IH2]]; [done|]. destruct c as [e|]; simpl in *.
    - destruct Hc as (Hp & _ & Hn). rewrite Hn, fmap_app. split; [f_equal; exact IH1|].
      split; [done|]. intros [? _]%app_eq_nil. done.
    - by subst p. }
  unfold collect. destruct (omap id cs) as [|e es] eqn:Eo; simpl; [by apply He|].
  split_and!.
  - intros Hc. by apply He in Hc.
  - by rewrite Composite_kind.
  - by rewrite Composite_names.
Qed.

(** ** Fields *)

(** What a schema says of a member that is there or not, by what is said of values. *)
Definition paths_of (says : schema -> json -> list (list string)) (req : list string) (p : string * schema)
    (m : string * option json) : list (list string) :=
  match m.2 with
  | Some v => cons p.1 <$> says p.2 v
  | None => if bool_decide (p.1 ∈ req) then [[p.1]] else []
  end.

Abbreviation member_paths := (paths_of tolerated).

Lemma field_present (members : list (string * option json)) m :
  NoDup members.*1 -> m ∈ members -> field (present members) m.1 = m.2.
Proof.
  induction members as [|[k o] members IH]; intros Hd Hin; [by apply elem_of_nil in Hin|].
  apply NoDup_cons in Hd as [Hk Hd].
  assert (forall k', k' ∉ members.*1 -> field (present members) k' = None) as Hnone.
  { clear. intros k' Hk'. induction members as [|[k o] members IH]; [done|].
    cbn [fmap list_fmap fst] in Hk'. apply not_elem_of_cons in Hk' as [Hne Hk'].
    destruct o; simpl; [rewrite bool_decide_false by done|]; by apply IH. }
  apply elem_of_cons in Hin as [->|Hin].
  - destruct o as [v|]; simpl; [by rewrite bool_decide_true|by apply Hnone].
  - assert (k <> m.1) as Hne.
    { intros ->. apply Hk. exact (list_elem_of_fmap_2 fst members m Hin). }
    destruct o as [v|]; simpl; [rewrite bool_decide_false by done|]; by apply IH.
Qed.

Lemma object_paths says props req members :
  members.*1 = props.*1 -> NoDup props.*1 ->
  concat ((fun p =>
    match field (present members) p.1 with
    | Some v => (cons p.1) <$> says p.2 v
    | None => if bool_decide (p.1 ∈ req) then [[p.1]] else []
    end) <$> props) = concat (zip_with (paths_of says req) props members).
Proof.
  intros Hk Hd. rewrite <- Hk in Hd. f_equal.
  assert (forall m, m ∈ members -> field (present members) m.1 = m.2) as Hf by (intros; by apply field_present).
  revert Hf. generalize (field (present members)) as get. clear Hd. revert members Hk.
  induction props as [|p props IH]; intros [|m members] Hk get Hf; [done..|].
  cbn [fmap list_fmap] in Hk. injection Hk as Hp Hk. simpl. f_equal.
  - unfold paths_of. by rewrite <- Hp, Hf by (by left).
  - apply IH; [done|]. intros m' Hm'. apply Hf. by right.
Qed.

Lemma tolerated_object props req members :
  members.*1 = props.*1 -> NoDup props.*1 ->
  tolerated (SObject props req) (JObject (present members)) = concat (zip_with (member_paths req) props members).
Proof. exact (object_paths tolerated props req members). Qed.

Lemma violations_object props req members :
  members.*1 = props.*1 -> NoDup props.*1 ->
  violations (SObject props req) (JObject (present members)) = concat (zip_with (paths_of violations req) props members).
Proof. exact (object_paths violations props req members). Qed.

(** A record reports what departs from its schema when each field does. *)
Lemma reports_object props req cs members :
  members.*1 = props.*1 -> NoDup props.*1 ->
  Forall2 reports cs (zip_with (member_paths req) props members) ->
  reports (collect cs) (tolerated (SObject props req) (JObject (present members))).
Proof. intros Hk Hd H. rewrite tolerated_object by done. by apply reports_collect. Qed.

Lemma reports_ptr {A} req n (f : A -> json) s v :
  (forall a, tolerated s (f a) = []) -> tolerated s JNull = [[]] ->
  reports (Required n "body" (nil_ptr v)) (member_paths req (n, s) (n, Some (ptr_json f v))).
Proof.
  intros Ha Hn. pose proof (reports_required n "body" (nil_ptr v)) as H.
  destruct v; unfold paths_of; simpl in *; [by rewrite Ha|by rewrite Hn].
Qed.

Lemma reports_unchecked {A} `{EqDecision A} req n (zero : A) f s v :
  n ∉ req -> (forall a, tolerated s (f a) = []) ->
  reports None (member_paths req (n, s) (n, omitempty zero f v)).
Proof.
  intros Hn Ha. unfold paths_of, omitempty. simpl. case_bool_decide; simpl; [by rewrite bool_decide_false|by rewrite Ha].
Qed.

Lemma reports_enum req n enum v :
  enum <> [] -> reports (required_enum n enum v) (member_paths req (n, SString enum) (n, Some (ptr_json JString v))).
Proof.
  intros He. unfold paths_of, required_enum. destruct v as [a|]; simpl; [|apply (reports_required n "body" true)].
  rewrite Required_set. simpl. rewrite (bool_decide_false (enum = [])) by done. simpl. case_bool_decide as Ha; simpl.
  - by rewrite EnumCase_in.
  - destruct (EnumCase_out n "body" a enum Ha) as (e & -> & Hk & Hn). simpl. rewrite Hk, Hn.
    unfold prefixed. by rewrite bool_decide_true.
Qed.

Lemma reports_optional_model {A} req n (check : A -> option E) enc s v :
  n ∉ req -> (forall a, reports (check a) (tolerated s (enc a))) ->
  reports (optional_model n check v) (member_paths req (n, s) (n, enc <$> v)).
Proof.
  intros Hn H. unfold paths_of, optional_model. destruct v as [a|]; simpl.
  - by apply reports_named.
  - by rewrite bool_decide_false.
Qed.

Lemma reports_required_model {A} req n (check : A -> option E) enc s v :
  tolerated s JNull = [[]] -> (forall a, reports (check a) (tolerated s (enc a))) ->
  reports (required_model n check v) (member_paths req (n, s) (n, Some (ptr_json enc v))).
Proof.
  intros Hnull H. unfold paths_of, required_model, optional_model. destruct v as [a|]; simpl.
  - rewrite Required_set. simpl. by apply reports_named.
  - rewrite Hnull. pose proof (reports_required n "body" true) as Hr. by destruct (Required n "body" true).
Qed.

Fixpoint bad_from (i : nat) (bad : list (list (list string))) : list (list string) :=
  match bad with
  | [] => []
  | [] :: bad => bad_from (S i) bad
  | paths :: _ => (cons (pretty i)) <$> paths
  end.

Abbreviation element_paths s := (fun v => if is_null v then [] else tolerated s v).

Lemma reports_each {A} n (check : nat -> A -> option E) (enc : nat -> A -> json) s l : forall i,
  (forall i a, is_null (enc i a) = false) ->
  (forall i a, reports (check i a) (tolerated s (enc i a))) ->
  reports (each n check i l) (cons n <$> bad_from i (element_paths s <$> imap (fun k => ptr_json (enc (i + k))) l)).
Proof.
  induction l as [|o l IH]; intros i H0 H; [done|]. cbn [each imap fmap list_fmap bad_from]. rewrite Nat.add_0_r.
  assert (imap ((fun k => ptr_json (enc (i + k))) ∘ S) l = imap (fun k => ptr_json (enc (S i + k))) l) as El.
  { apply imap_ext. intros k ? _. simpl. by rewrite Nat.add_succ_r. }
  destruct o as [a|]; cbn [ptr_json]; [|simpl; rewrite El; apply (IH (S i) H0 H)].
  pose proof (H i a) as Ha. cbv beta. rewrite H0. destruct (check i a) as [e|] eqn:Ec; simpl in Ha.
  - destruct Ha as (Hp & Hk & Hn). destruct (tolerated s (enc i a)) as [|p ps] eqn:Ev; [done|].
    assert (reports (named (n +:+ "." +:+ pretty i) (Some e)) (cons (n +:+ "." +:+ pretty i) <$> p :: ps)) as Hr.
    { by apply reports_named. }
    simpl in Hr |- *. destruct Hr as (_ & Hr & Hm). split_and!; [done|done|]. rewrite Hm. f_equal.
    + apply prefixed_element.
    + rewrite <- !list_fmap_compose. apply list_fmap_ext. intros ? q _. apply prefixed_element.
  - rewrite Ha. simpl. rewrite El. apply (IH (S i) H0 H).
Qed.

Lemma reports_each_of {A} n (at_ : path) (check : path -> A -> option E) (enc : path -> A -> json) s l :
  (forall at_ a, is_null (enc at_ a) = false) ->
  (forall at_ a, reports (check at_ a) (tolerated s (enc at_ a))) ->
  reports (each_of at_ n check l)
    (cons n <$> tolerated (SArray s) (JArray (imap (fun i => ptr_elements enc (element_path at_ n i)) l))).
Proof. intros H0 H. by apply (reports_each n _ (fun i => enc (element_path at_ n i)) s l 0). Qed.

Lemma reports_required_slice {A} req n at_ (check : path -> A -> option E) enc s l :
  (forall at_ a, is_null (enc at_ a) = false) ->
  (forall at_ a, reports (check at_ a) (tolerated s (enc at_ a))) ->
  reports (required_slice is_nil at_ n check l)
    (member_paths req (n, SArray s) (n, Some (slice_json is_nil at_ n (ptr_elements enc) l))).
Proof.
  intros H0 H. unfold required_slice, slice_json, paths_of. cbn [fst snd].
  destruct (nil_slice is_nil at_ n l) eqn:En.
  - pose proof (reports_required n "body" true) as Hr. by destruct (Required n "body" true).
  - rewrite Required_set. by apply reports_each_of.
Qed.

(** A slice of simple values: the checks look only at whether it is nil. *)
Lemma reports_leaf_slice {A} req n at_ (f : A -> json) s l :
  (forall a, tolerated s (f a) = []) ->
  reports (Required n "body" (nil_slice is_nil at_ n l))
    (member_paths req (n, SArray s) (n, Some (slice_json is_nil at_ n (fun _ => f) l))).
Proof.
  intros H. unfold slice_json, paths_of. cbn [fst snd]. pose proof (reports_required n "body" (nil_slice is_nil at_ n l)) as Hr.
  destruct (nil_slice is_nil at_ n l); [done|].
  assert (tolerated (SArray s) (JArray (imap (fun _ => f) l)) = []) as ->; [|done].
  cbn [tolerated]. apply first_bad_nil, Forall_fmap, Forall_forall. intros v Hv.
  apply elem_of_lookup_imap in Hv as (i & a & -> & _). simpl. rewrite H. by destruct (is_null _).
Qed.

Lemma reports_optional_slice {A} req n at_ (check : path -> A -> option E) enc s l :
  nil_slice is_nil at_ n l = false -> (forall at_ a, is_null (enc at_ a) = false) ->
  (forall at_ a, reports (check at_ a) (tolerated s (enc at_ a))) ->
  reports (optional_slice is_nil at_ n check l)
    (member_paths req (n, SArray s) (n, Some (slice_json is_nil at_ n (ptr_elements enc) l))).
Proof.
  intros Hn H0 H. unfold optional_slice, slice_json, paths_of. cbn [fst snd]. rewrite Hn. by apply reports_each_of.
Qed.

(** A check that reports nothing for a context. *)
Lemma collect_none cs : Forall (fun c : option E => c = None) cs -> collect cs = None.
Proof. intros H. unfold collect. assert (omap id cs = []) as ->; [|done]. induction H as [|? ? ->]; done. Qed.

Lemma context_model_none {A} n (check : A -> option E) v : (forall a, check a = None) -> context_model n check v = None.
Proof. intros H. destruct v as [a|]; [|done]. unfold context_model, named. by rewrite H. Qed.

Lemma context_slice_none {A} n (check : A -> option E) l : (forall a, check a = None) -> context_slice n check l = None.
Proof.
  intros H. unfold context_slice. generalize 0. induction l as [|[a|] l IH]; intros i; simpl; [done|rewrite H; apply IH|apply IH].
Qed.

(** ** The records *)

Ltac not_listed := apply (bool_decide_unpack _); vm_compute; exact I.

Ltac check_field :=
  first
    [ solve [apply reports_ptr; done]
    | solve [apply reports_leaf_slice; done]
    | solve [apply reports_unchecked; [not_listed|done]]
    | solve [apply reports_enum; done]
    | solve [apply reports_required_model; [done|auto with api]]
    | solve [apply reports_optional_model; [not_listed|auto with api]]
    | solve [apply reports_required_slice; [done|auto with api]]
    | idtac ].

(** The checks of a record, with [None] for a field that has none. *)
Ltac record_reports cs :=
  apply (reports_object _ _ cs); [reflexivity|not_listed|];
  repeat (apply Forall2_cons_2; [check_field|]); try apply Forall2_nil_2.


Lemma CreateDAGRequest_reports at_ m :
  reports (CreateDAGRequest.Validate is_nil at_ m) (tolerated schema_CreateDAGRequest (CreateDAGRequest.encode is_nil at_ m)).
Proof.
  record_reports [CreateDAGRequest.validateAction is_nil at_ m;
    CreateDAGRequest.validateValue is_nil at_ m].
Qed.
#[local] Hint Resolve CreateDAGRequest_reports : api.

Lemma CreateDAGResponse_reports at_ m :
  reports (CreateDAGResponse.Validate is_nil at_ m) (tolerated schema_CreateDAGResponse (CreateDAGResponse.encode is_nil at_ m)).
Proof.
  record_reports [CreateDAGResponse.validateDagID is_nil at_ m].
Qed.
#[local] Hint Resolve CreateDAGResponse_reports : api.

Lemma Schedule_reports at_ m :
  reports (Schedule.Validate is_nil at_ m) (tolerated schema_Schedule (Schedule.encode is_nil at_ m)).
Proof.
  record_reports [Schedule.validateExpression is_nil at_ m].
Qed.
#[local] Hint Resolve Schedule_reports : api.

Lemma DAG_reports at_ m :
  reports (DAG.Validate is_nil at_ m) (tolerated schema_DAG (DAG.encode is_nil at_ m)).
Proof.
  record_reports [DAG.validateDefaultParams is_nil at_ m;
    DAG.validateDescription is_nil at_ m;
    DAG.validateGroup is_nil at_ m;
    DAG.validateName is_nil at_ m;
    DAG.validateParams is_nil at_ m;
    DAG.validateSchedule is_nil at_ m;
    DAG.validateTags is_nil at_ m].
Qed.
#[local] Hint Resolve DAG_reports : api.

Lemma Precondition_reports at_ m :
  reports (Precondition.Validate is_nil at_ m) (tolerated schema_Precondition (Precondition.encode is_nil at_ m)).
Proof.
  record_reports (replicate 2 None : list (option E)).
Qed.
#[local] Hint Resolve Precondition_reports : api.

Lemma RepeatPolicy_reports at_ m :
  reports (RepeatPolicy.Validate is_nil at_ m) (tolerated schema_RepeatPolicy (RepeatPolicy.encode is_nil at_ m)).
Proof.
  record_reports (replicate 2 None : list (option E)).
Qed.
#[local] Hint Resolve RepeatPolicy_reports : api.

Lemma Step_reports at_ m :
  reports (Step.Validate is_nil at_ m) (tolerated schema_Step (Step.encode is_nil at_ m)).
Proof.
  record_reports [Step.validateArgs is_nil at_ m;
    Step.validateCmdWithArgs is_nil at_ m;
    Step.validateCommand is_nil at_ m;
    Step.validateDepends is_nil at_ m;
    Step.validateDescription is_nil at_ m;
    Step.validateDir is_nil at_ m;
    Step.validateMailOnError is_nil at_ m;
    Step.validateName is_nil at_ m;
    Step.validateOutput is_nil at_ m;
    None;
    Step.validatePreconditions is_nil at_ m;
    Step.validateRepeatPolicy is_nil at_ m;
    None;
    Step.validateScript is_nil at_ m;
    Step.validateStderr is_nil at_ m;
    Step.validateStdout is_nil at_ m].
Qed.
#[local] Hint Resolve Step_reports : api.

Lemma HandlerOn_reports at_ m :
  reports (HandlerOn.Validate is_nil at_ m) (tolerated schema_HandlerOn (HandlerOn.encode is_nil at_ m)).
Proof.
  record_reports [HandlerOn.validateCancel is_nil at_ m;
    HandlerOn.validateExit is_nil at_ m;
    HandlerOn.validateFailure is_nil at_ m;
    HandlerOn.validateSuccess is_nil at_ m].
Qed.
#[local] Hint Resolve HandlerOn_reports : api.

Lemma DAGDetails_reports at_ m :
  reports (DAGDetails.Validate is_nil at_ m) (tolerated schema_DAGDetails (DAGDetails.encode is_nil at_ m)).
Proof.
  record_reports [DAGDetails.validateDefaultParams is_nil at_ m;
    DAGDetails.validateDelay is_nil at_ m;
    DAGDetails.validateDescription is_nil at_ m;
    DAGDetails.validateEnv is_nil at_ m;
    DAGDetails.validateGroup is_nil at_ m;
    DAGDetails.validateHandlerOn is_nil at_ m;
    DAGDetails.validateHistRetentionDays is_nil at_ m;
    DAGDetails.validateLocation is_nil at_ m;
    DAGDetails.validateLogDir is_nil at_ m;
    DAGDetails.validateMaxActiveRuns is_nil at_ m;
    DAGDetails.validateName is_nil at_ m;
    DAGDetails.validateParams is_nil at_ m;
    DAGDetails.validatePreconditions is_nil at_ m;
    DAGDetails.validateSchedule is_nil at_ m;
    DAGDetails.validateSteps is_nil at_ m;
    DAGDetails.validateTags is_nil at_ m].
Qed.
#[local] Hint Resolve DAGDetails_reports : api.

Lemma DAGLogGridItem_reports at_ m :
  reports (DAGLogGridItem.Validate is_nil at_ m) (tolerated schema_DAGLogGridItem (DAGLogGridItem.encode is_nil at_ m)).
Proof.
  record_reports [DAGLogGridItem.validateName is_nil at_ m;
    DAGLogGridItem.validateVals is_nil at_ m].
Qed.
#[local] Hint Resolve DAGLogGridItem_reports : api.

Lemma Node_reports at_ m :
  reports (Node.Validate is_nil at_ m) (tolerated schema_Node (Node.encode is_nil at_ m)).
Proof.
  record_reports [Node.validateDoneCount is_nil at_ m;
    Node.validateError is_nil at_ m;
    Node.validateFinishedAt is_nil at_ m;
    Node.validateLog is_nil at_ m;
    Node.validateRetryCount is_nil at_ m;
    Node.validateStartedAt is_nil at_ m;
    Node.validateStatus is_nil at_ m;
    Node.validateStatusText is_nil at_ m;
    Node.validateStep is_nil at_ m].
Qed.
#[local] Hint Resolve Node_reports : api.

Lemma DAGStatusDetails_reports at_ m :
  reports (DAGStatusDetails.Validate is_nil at_ m) (tolerated schema_DAGStatusDetails (DAGStatusDetails.encode is_nil at_ m)).
Proof.
  record_reports [DAGStatusDetails.validateFinishedAt is_nil at_ m;
    DAGStatusDetails.validateLog is_nil at_ m;
    DAGStatusDetails.validateName is_nil at_ m;
    DAGStatusDetails.validateNodes is_nil at_ m;
    DAGStatusDetails.validateOnCancel is_nil at_ m;
    DAGStatusDetails.validateOnExit is_nil at_ m;
    DAGStatusDetails.validateOnFailure is_nil at_ m;
    DAGStatusDetails.validateOnSuccess is_nil at_ m;
    DAGStatusDetails.validateParams is_nil at_ m;
    DAGStatusDetails.validatePid is_nil at_ m;
    DAGStatusDetails.validateRequestID is_nil at_ m;
    DAGStatusDetails.validateStartedAt is_nil at_ m;
    DAGStatusDetails.validateStatus is_nil at_ m;
    DAGStatusDetails.validateStatusText is_nil at_ m].
Qed.
#[local] Hint Resolve DAGStatusDetails_reports : api.

Lemma DAGLogStatusFile_reports at_ m :
  reports (DAGLogStatusFile.Validate is_nil at_ m) (tolerated schema_DAGLogStatusFile (DAGLogStatusFile.encode is_nil at_ m)).
Proof.
  record_reports [DAGLogStatusFile.validateFile is_nil at_ m;
    DAGLogStatusFile.validateStatus is_nil at_ m].
Qed.
#[local] Hint Resolve DAGLogStatusFile_reports : api.

Lemma DAGLogData_reports at_ m :
  reports (DAGLogData.Validate is_nil at_ m) (tolerated schema_DAGLogData (DAGLogData.encode is_nil at_ m)).
Proof.
  record_reports [DAGLogData.validateGridData is_nil at_ m;
    DAGLogData.validateLogs is_nil at_ m].
Qed.
#[local] Hint Resolve DAGLogData_reports : api.

Lemma DAGStatus_reports at_ m :
  reports (DAGStatus.Validate is_nil at_ m) (tolerated schema_DAGStatus (DAGStatus.encode is_nil at_ m)).
Proof.
  record_reports [DAGStatus.validateFinishedAt is_nil at_ m;
    DAGStatus.validateLog is_nil at_ m;
    DAGStatus.validateName is_nil at_ m;
    DAGStatus.validateParams is_nil at_ m;
    DAGStatus.validatePid is_nil at_ m;
    DAGStatus.validateRequestID is_nil at_ m;
    DAGStatus.validateStartedAt is_nil at_ m;
    DAGStatus.validateStatus is_nil at_ m;
    DAGStatus.validateStatusText is_nil at_ m].
Qed.
#[local] Hint Resolve DAGStatus_reports : api.

Lemma DAGStatusFile_reports at_ m :
  reports (DAGStatusFile.Validate is_nil at_ m) (tolerated schema_DAGStatusFile (DAGStatusFile.encode is_nil at_ m)).
Proof.
  record_reports [DAGStatusFile.validateDAG is_nil at_ m;
    DAGStatusFile.validateDir is_nil at_ m;
    DAGStatusFile.validateError is_nil at_ m;
    DAGStatusFile.validateFile is_nil at_ m;
    DAGStatusFile.validateStatus is_nil at_ m;
    DAGStatusFile.validateSuspended is_nil at_ m].
Qed.
#[local] Hint Resolve DAGStatusFile_reports : api.

Lemma DAGStatusFileDetails_reports at_ m :
  reports (DAGStatusFileDetails.Validate is_nil at_ m) (tolerated schema_DAGStatusFileDetails (DAGStatusFileDetails.encode is_nil at_ m)).
Proof.
  record_reports [DAGStatusFileDetails.validateDAG is_nil at_ m;
    DAGStatusFileDetails.validateDir is_nil at_ m;
    DAGStatusFileDetails.validateError is_nil at_ m;
    DAGStatusFileDetails.validateFile is_nil at_ m;
    DAGStatusFileDetails.validateStatus is_nil at_ m;
    DAGStatusFileDetails.validateSuspended is_nil at_ m].
Qed.
#[local] Hint Resolve DAGStatusFileDetails_reports : api.

Lemma Error_reports at_ m :
  (forall j, models.Error.Details m = Some j -> exists fields, j = JObject fields) ->
  reports (Error.Validate is_nil at_ m) (tolerated schema_Error (Error.encode is_nil at_ m)).
Proof.
  intros Hd. record_reports [Error.validateCode is_nil at_ m;
    None;
    Error.validateMessage is_nil at_ m].
  unfold paths_of. cbn [fst snd]. destruct (models.Error.Details m) as [j|]; [|done].
  by destruct (Hd j eq_refl) as [fields ->].
Qed.

Lemma SchedulerLog_reports at_ m :
  reports (SchedulerLog.Validate is_nil at_ m) (tolerated schema_SchedulerLog (SchedulerLog.encode is_nil at_ m)).
Proof.
  record_reports [SchedulerLog.validateContent is_nil at_ m;
    SchedulerLog.validateLogFile is_nil at_ m].
Qed.
#[local] Hint Resolve SchedulerLog_reports : api.

Lemma StepLog_reports at_ m :
  reports (StepLog.Validate is_nil at_ m) (tolerated schema_StepLog (StepLog.encode is_nil at_ m)).
Proof.
  record_reports [StepLog.validateContent is_nil at_ m;
    StepLog.validateLogFile is_nil at_ m;
    StepLog.validateStep is_nil at_ m].
Qed.
#[local] Hint Resolve StepLog_reports : api.

Lemma GetDAGDetailsResponse_reports at_ m :
  reports (GetDAGDetailsResponse.Validate is_nil at_ m) (tolerated schema_GetDAGDetailsResponse (GetDAGDetailsResponse.encode is_nil at_ m)).
Proof.
  record_reports [GetDAGDetailsResponse.validateDAG is_nil at_ m;
    GetDAGDetailsResponse.validateDefinition is_nil at_ m;
    GetDAGDetailsResponse.validateErrors is_nil at_ m;
    GetDAGDetailsResponse.validateGraph is_nil at_ m;
    GetDAGDetailsResponse.validateLogData is_nil at_ m;
    GetDAGDetailsResponse.validateLogURL is_nil at_ m;
    GetDAGDetailsResponse.validateScLog is_nil at_ m;
    GetDAGDetailsResponse.validateStepLog is_nil at_ m;
    GetDAGDetailsResponse.validateTab is_nil at_ m;
    GetDAGDetailsResponse.validateTitle is_nil at_ m].
Qed.
#[local] Hint Resolve GetDAGDetailsResponse_reports : api.

Lemma HealthResponse_reports at_ m :
  reports (HealthResponse.Validate is_nil at_ m) (tolerated schema_HealthResponse (HealthResponse.encode is_nil at_ m)).
Proof.
  record_reports [HealthResponse.validateStatus is_nil at_ m;
    HealthResponse.validateTimestamp is_nil at_ m;
    HealthResponse.validateUptime is_nil at_ m;
    HealthResponse.validateVersion is_nil at_ m].
Qed.
#[local] Hint Resolve HealthResponse_reports : api.

Lemma ListDAGsResponse_reports at_ m :
  reports (ListDAGsResponse.Validate is_nil at_ m) (tolerated schema_ListDAGsResponse (ListDAGsResponse.encode is_nil at_ m)).
Proof.
  record_reports [ListDAGsResponse.validateDAGs is_nil at_ m;
    ListDAGsResponse.validateErrors is_nil at_ m;
    ListDAGsResponse.validateHasError is_nil at_ m;
    ListDAGsResponse.validatePageCount is_nil at_ m].
Qed.
#[local] Hint Resolve ListDAGsResponse_reports : api.

Lemma ListTagResponse_reports at_ m :
  reports (ListTagResponse.Validate is_nil at_ m) (tolerated schema_ListTagResponse (ListTagResponse.encode is_nil at_ m)).
Proof.
  record_reports [ListTagResponse.validateErrors is_nil at_ m;
    ListTagResponse.validateTags is_nil at_ m].
Qed.
#[local] Hint Resolve ListTagResponse_reports : api.

Lemma PostDAGActionRequest_reports at_ m :
  reports (PostDAGActionRequest.Validate is_nil at_ m) (tolerated schema_PostDAGActionRequest (PostDAGActionRequest.encode is_nil at_ m)).
Proof.
  record_reports [PostDAGActionRequest.validateAction is_nil at_ m;
    None;
    None;
    None;
    None].
Qed.
#[local] Hint Resolve PostDAGActionRequest_reports : api.

Lemma PostDAGActionResponse_reports at_ m :
  reports (PostDAGActionResponse.Validate is_nil at_ m) (tolerated schema_PostDAGActionResponse (PostDAGActionResponse.encode is_nil at_ m)).
Proof.
  record_reports (replicate 1 None : list (option E)).
Qed.
#[local] Hint Resolve PostDAGActionResponse_reports : api.

Lemma PythonFile_reports at_ m :
  reports (PythonFile.Validate is_nil at_ m) (tolerated schema_PythonFile (PythonFile.encode is_nil at_ m)).
Proof.
  record_reports [PythonFile.validateContent is_nil at_ m;
    PythonFile.validateName is_nil at_ m].
Qed.
#[local] Hint Resolve PythonFile_reports : api.

Lemma SearchDAGsMatchItem_reports at_ m :
  reports (SearchDAGsMatchItem.Validate is_nil at_ m) (tolerated schema_SearchDAGsMatchItem (SearchDAGsMatchItem.encode is_nil at_ m)).
Proof.
  record_reports (replicate 3 None : list (option E)).
Qed.
#[local] Hint Resolve SearchDAGsMatchItem_reports : api.

Lemma SearchDAGsResultItem_reports at_ m :
  nil_slice is_nil at_ "Matches" (models.SearchDAGsResultItem.Matches m) = false ->
  reports (SearchDAGsResultItem.Validate is_nil at_ m) (tolerated schema_SearchDAGsResultItem (SearchDAGsResultItem.encode is_nil at_ m)).
Proof.
  intros Hn. record_reports [SearchDAGsResultItem.validateDAG is_nil at_ m;
    SearchDAGsResultItem.validateMatches is_nil at_ m;
    None].
  apply reports_optional_slice; [done|done|auto with api].
Qed.

Lemma SearchDAGsResponse_reports at_ m :
  (forall at_, is_nil at_ = false) ->
  reports (SearchDAGsResponse.Validate is_nil at_ m) (tolerated schema_SearchDAGsResponse (SearchDAGsResponse.encode is_nil at_ m)).
Proof.
  intros Hn. record_reports [SearchDAGsResponse.validateErrors is_nil at_ m;
    SearchDAGsResponse.validateResults is_nil at_ m].
  apply reports_required_slice; [done|]. intros a r. apply SearchDAGsResultItem_reports. unfold nil_slice. by rewrite Hn, andb_false_r.
Qed.

(** Nothing is checked that depends on the context. *)
Ltac context_silent := apply collect_none; repeat constructor;
  first [apply context_model_none|apply context_slice_none]; auto with api.


Lemma CreateDAGRequest_context m : CreateDAGRequest.ContextValidate m = None.
Proof. done. Qed.
#[local] Hint Resolve CreateDAGRequest_context : api.

Lemma CreateDAGResponse_context m : CreateDAGResponse.ContextValidate m = None.
Proof. done. Qed.
#[local] Hint Resolve CreateDAGResponse_context : api.

Lemma Schedule_context m : Schedule.ContextValidate m = None.
Proof. done. Qed.
#[local] Hint Resolve Schedule_context : api.

Lemma DAG_context m : DAG.ContextValidate m = None.
Proof. context_silent. Qed.
#[local] Hint Resolve DAG_context : api.

Lemma Precondition_context m : Precondition.ContextValidate m = None.
Proof. done. Qed.
#[local] Hint Resolve Precondition_context : api.

Lemma RepeatPolicy_context m : RepeatPolicy.ContextValidate m = None.
Proof. done. Qed.
#[local] Hint Resolve RepeatPolicy_context : api.

Lemma Step_context m : Step.ContextValidate m = None.
Proof. context_silent. Qed.
#[local] Hint Resolve Step_context : api.

Lemma HandlerOn_context m : HandlerOn.ContextValidate m = None.
Proof. context_silent. Qed.
#[local] Hint Resolve HandlerOn_context : api.

Lemma DAGDetails_context m : DAGDetails.ContextValidate m = None.
Proof. context_silent. Qed.
#[local] Hint Resolve DAGDetails_context : api.

Lemma DAGLogGridItem_context m : DAGLogGridItem.ContextValidate m = None.
Proof. done. Qed.
#[local] Hint Resolve DAGLogGridItem_context : api.

Lemma Node_context m : Node.ContextValidate m = None.
Proof. context_silent. Qed.
#[local] Hint Resolve Node_context : api.

Lemma DAGStatusDetails_context m : DAGStatusDetails.ContextValidate m = None.
Proof. context_silent. Qed.
#[local] Hint Resolve DAGStatusDetails_context : api.

Lemma DAGLogStatusFile_context m : DAGLogStatusFile.ContextValidate m = None.
Proof. context_silent. Qed.
#[local] Hint Resolve DAGLogStatusFile_context : api.

Lemma DAGLogData_context m : DAGLogData.ContextValidate m = None.
Proof. context_silent. Qed.
#[local] Hint Resolve DAGLogData_context : api.

Lemma DAGStatus_context m : DAGStatus.ContextValidate m = None.
Proof. done. Qed.
#[local] Hint Resolve DAGStatus_context : api.

Lemma DAGStatusFile_context m : DAGStatusFile.ContextValidate m = None.
Proof. context_silent. Qed.
#[local] Hint Resolve DAGStatusFile_context : api.

Lemma DAGStatusFileDetails_context m : DAGStatusFileDetails.ContextValidate m = None.
Proof. context_silent. Qed.
#[local] Hint Resolve DAGStatusFileDetails_context : api.

Lemma Error_context m : Error.ContextValidate m = None.
Proof. done. Qed.
#[local] Hint Resolve Error_context : api.

Lemma SchedulerLog_context m : SchedulerLog.ContextValidate m = None.
Proof. done. Qed.
#[local] Hint Resolve SchedulerLog_context : api.

Lemma StepLog_context m : StepLog.ContextValidate m = None.
Proof. context_silent. Qed.
#[local] Hint Resolve StepLog_context : api.

Lemma GetDAGDetailsResponse_context m : GetDAGDetailsResponse.ContextValidate m = None.
Proof. context_silent. Qed.
#[local] Hint Resolve GetDAGDetailsResponse_context : api.

Lemma HealthResponse_context m : HealthResponse.ContextValidate m = None.
Proof. done. Qed.
#[local] Hint Resolve HealthResponse_context : api.

Lemma ListDAGsResponse_context m : ListDAGsResponse.ContextValidate m = None.
Proof. context_silent. Qed.
#[local] Hint Resolve ListDAGsResponse_context : api.

Lemma ListTagResponse_context m : ListTagResponse.ContextValidate m = None.
Proof. done. Qed.
#[local] Hint Resolve ListTagResponse_context : api.

Lemma PostDAGActionRequest_context m : PostDAGActionRequest.ContextValidate m = None.
Proof. done. Qed.
#[local] Hint Resolve PostDAGActionRequest_context : api.

Lemma PostDAGActionResponse_context m : PostDAGActionResponse.ContextValidate m = None.
Proof. done. Qed.
#[local] Hint Resolve PostDAGActionResponse_context : api.

Lemma PythonFile_context m : PythonFile.ContextValidate m = None.
Proof. done. Qed.
#[local] Hint Resolve PythonFile_context : api.

Lemma SearchDAGsMatchItem_context m : SearchDAGsMatchItem.ContextValidate m = None.
Proof. done. Qed.
#[local] Hint Resolve SearchDAGsMatchItem_context : api.

Lemma SearchDAGsResultItem_context m : SearchDAGsResultItem.ContextValidate m = None.
Proof. context_silent. Qed.
#[local] Hint Resolve SearchDAGsResultItem_context : api.

Lemma SearchDAGsResponse_context m : SearchDAGsResponse.ContextValidate m = None.
Proof. context_silent. Qed.
#[local] Hint Resolve SearchDAGsResponse_context : api.

End reports.

(** ** Validation and conformance *)

(** The answer of a check is that of the schema, but for null elements of arrays: no
    error exactly when nothing else departs from it, and otherwise the names of the
    places where something does; so it has none for a value that conforms, and only
    for such a value when no array has a null element. *)
Definition agrees {E} (names : E -> list string) (r : option E) (s : schema) (j : json) : Prop :=
  (r = None <-> tolerated s j = []) /\ (forall e, r = Some e -> names e = dotted <$> tolerated s j) /\
  (conforms s j = true -> r = None) /\
  (no_null_elements j = true ->
     (r = None -> conforms s j = true) /\ forall e, r = Some e -> names e = dotted <$> violations s j).

Lemma agrees_reports {E} `{!OpenAPI E} (names : E -> list string) r s j :
  reports names r (tolerated s j) -> agrees names r s j.
Proof.
  intros H. assert (r = None <-> tolerated s j = []) as Hr.
  { destruct r as [e|]; simpl in H; [|by rewrite H]. by destruct H as (Hv & _ & _). }
  assert (forall e, r = Some e -> names e = dotted <$> tolerated s j) as He.
  { intros e ->. apply H. }
  split_and!; [done|done| |].
  - intros Hc%bool_decide_eq_true. by apply Hr, tolerated_lenient.
  - intros Hn. rewrite <- tolerated_whole by done. split; [|done]. intros Hr'. unfold conforms.
    rewrite <- tolerated_whole by done. apply bool_decide_eq_true. by apply Hr.
Qed.

(** C20: The generated checks and the embedded document say the same, but for null
    elements of arrays, which the checks pass over and the document does not allow:
    for the details, the list and the body of an action the checks have no error
    exactly for a record whose encoding departs from its schema nowhere else, and an
    error names, in order, the places where it does (of an array, those of the first
    element that has some).  So there is no error for a record whose encoding
    conforms, and, when no array of it has a null element, only for such a one. *)
Theorem validation_is_conformance {E} `{!OpenAPI E} (names : E -> list string) (Hlaws : OpenAPILaws E names)
    (is_nil : nilness) (d : models.GetDAGDetailsResponse.t) (l : models.ListDAGsResponse.t)
    (a : models.PostDAGActionRequest.t) :
  agrees names (GetDAGDetailsResponse.Validate is_nil [] d) schema_GetDAGDetailsResponse
    (GetDAGDetailsResponse.encode is_nil [] d) /\
  agrees names (ListDAGsResponse.Validate is_nil [] l) schema_ListDAGsResponse (ListDAGsResponse.encode is_nil [] l) /\
  agrees names (PostDAGActionRequest.Validate is_nil [] a) schema_PostDAGActionRequest
    (PostDAGActionRequest.encode is_nil [] a).
Proof.
  split_and!; apply agrees_reports.
  - by apply GetDAGDetailsResponse_reports.
  - by apply ListDAGsResponse_reports.
  - by apply PostDAGActionRequest_reports.
Qed.

(** ** Errors as go-openapi has them *)

Inductive verror := VError (name : string) | CError (errors : list verror).

Fixpoint verror_names (e : verror) : list string :=
  match e with
  | VError name => [name]
  | CError es => concat (verror_names <$> es)
  end.

Fixpoint verror_prefix (n : string) (e : verror) : verror :=
  match e with
  | VError name => VError (prefixed n name)
  | CError es => CError (verror_prefix n <$> es)
  end.

#[export] Instance verror_openapi : OpenAPI verror := {
  Required p _ zero := if zero then Some (VError p) else None;
  EnumCase p _ v enum _ := if bool_decide (v ∈ enum) then None else Some (VError p);
  CompositeValidationError := CError;
  kind_of e := match e with VError _ => KValidation | CError _ => KComposite end;
  Validation_ValidateName := verror_prefix;
  CompositeError_ValidateName := verror_prefix
}.

Lemma verror_prefix_names n : forall e, verror_names (verror_prefix n e) = prefixed n <$> verror_names e.
Proof.
  fix IH 1. intros [name|es]; [done|]. cbn [verror_prefix verror_names].
  induction es as [|e es IHes]; [done|]. cbn [fmap list_fmap concat]. rewrite fmap_app. f_equal; [apply IH|apply IHes].
Qed.

#[export] Instance verror_laws : OpenAPILaws verror verror_names.
Proof.
  split; try done.
  - intros p i. by eexists.
  - intros p i v enum H. simpl. by rewrite bool_decide_true.
  - intros p i v enum H. simpl. rewrite bool_decide_false by done. by eexists.
  - intros n e He. split; [by destruct e|apply verror_prefix_names].
  - intros n e He. split; [by destruct e|apply verror_prefix_names].
Qed.

(** An answer with a node whose step lacks a text, and that has no error text. *)
Definition sample_step : models.Step.t :=
  models.Step.mk [] (Some "") (Some "") [] (Some "") (Some "") (Some false) (Some "s") (Some "") "" []
    (Some (models.RepeatPolicy.mk 0 false)) "" (Some "") None (Some "").
Definition sample_details : models.GetDAGDetailsResponse.t :=
  models.GetDAGDetailsResponse.mk None (Some "") [] (Some "")
    (Some (models.DAGLogData.mk [] []))
    (Some "") (Some (models.SchedulerLog.mk (Some "") (Some "")))
    (Some (models.StepLog.mk (Some "") (Some "")
       (Some (models.Node.mk (Some 0%Z) None (Some "") (Some "") (Some 0%Z) (Some "") (Some 0%Z) (Some "") (Some sample_step)))))
    (Some "") (Some "").

Lemma validation_is_conformance_witness :
  verror_names <$> GetDAGDetailsResponse.Validate (fun _ => false) [] sample_details =
    Some ["DAG"; "StepLog.Step.Error"; "StepLog.Step.Step.Stderr"] /\
  conforms schema_GetDAGDetailsResponse (GetDAGDetailsResponse.encode (fun _ => false) [] sample_details) = false /\
  agrees verror_names (GetDAGDetailsResponse.Validate (fun _ => false) [] sample_details) schema_GetDAGDetailsResponse
    (GetDAGDetailsResponse.encode (fun _ => false) [] sample_details).
Proof.
  split; [vm_compute; reflexivity|]. split; [vm_compute; reflexivity|].
  exact (proj1 (validation_is_conformance verror_names verror_laws (fun _ => false) sample_details
    (models.ListDAGsResponse.mk [] [] (Some false) (Some 1%Z))
    (models.PostDAGActionRequest.mk (Some "start") "" "" "" ""))).
Defined.

(** A list with a nil element passes, and does not conform. *)
Example nil_element_accepted :
  let l := models.ListDAGsResponse.mk [None] [] (Some false) (Some 1%Z) in
  ListDAGsResponse.Validate (E := verror) (fun _ => false) [] l = None /\
  violations schema_ListDAGsResponse (ListDAGsResponse.encode (fun _ => false) [] l) = [["DAGs"; "0"]].
Proof. split; vm_compute; reflexivity. Qed.

(** The matches of a search may be nil: the check accepts an item the document does
    not describe. *)
Example nil_matches_accepted (is_nil : nilness) (Hnil : is_nil ["Matches"] = true) :
  let m := models.SearchDAGsResultItem.mk None [] "x" in
  SearchDAGsResultItem.Validate (E := verror) is_nil [] m = None /\
  violations schema_SearchDAGsResultItem (SearchDAGsResultItem.encode is_nil [] m) = [["Matches"]].
Proof.
  unfold SearchDAGsResultItem.encode, SearchDAGsResultItem.members, SearchDAGsResultItem.Validate,
    SearchDAGsResultItem.validateMatches, optional_slice, slice_json, nil_slice. cbn. by rewrite Hnil.
Qed.

(** ** The answers of the handlers and the embedded document

    Which answers of the handlers are what the document the server publishes says
    they are: those of lists, searches and tags, and none of the details. *)

(** No slice of the answer is nil. *)
Abbreviation none_nil := (fun _ : path => false).

Lemma nil_slice_none {A} at_ n (l : list A) : nil_slice none_nil at_ n l = false.
Proof. apply andb_false_r. Qed.

Lemma collect_silent (cs : list (option verror)) : Forall (fun c => c = None) cs -> collect cs = None.
Proof. apply collect_none. Qed.

Lemma collect_all_silent (cs : list (option verror)) : collect cs = None -> Forall (fun c => c = None) cs.
Proof.
  unfold collect. intros H. assert (omap id cs = []) as Ho by (by destruct (omap id cs)). clear H.
  induction cs as [|[e|] cs IH]; [done|done|]. constructor; [done|]. by apply IH.
Qed.

Lemma each_silent {A} n (check : nat -> A -> option verror) l : forall i,
  Forall (fun a => forall i, check i a = None) l -> each n check i (Some <$> l) = None.
Proof. intros i H. revert i. induction H as [|a l Ha _ IH]; intros i; [done|]. simpl. rewrite Ha. simpl. apply IH. Qed.

Lemma required_slice_silent {A} at_ n (check : path -> A -> option verror) l :
  Forall (fun a => forall at_, check at_ a = None) l -> required_slice none_nil at_ n check (Some <$> l) = None.
Proof.
  intros H. unfold required_slice. rewrite nil_slice_none. simpl. apply each_silent.
  eapply Forall_impl; [exact H|]. intros a Ha i. apply Ha.
Qed.

(** A loop without an error asked about every element. *)
Lemma each_all_silent {A} n (check : nat -> A -> option verror) l : forall i,
  each n check i (Some <$> l) = None -> Forall (fun a => exists i, check i a = None) l.
Proof.
  induction l as [|a l IH]; intros i; [done|]. cbn [fmap list_fmap each]. destruct (check i a) eqn:E; [done|]. simpl. intros H.
  constructor; [by exists i|by apply (IH (S i))].
Qed.

Lemma required_slice_all_silent {A} at_ n (check : path -> A -> option verror) l :
  required_slice none_nil at_ n check (Some <$> l) = None -> Forall (fun a => exists at_, check at_ a = None) l.
Proof.
  unfold required_slice. rewrite nil_slice_none. simpl. intros H. apply each_all_silent in H.
  eapply Forall_impl; [exact H|]. intros a [i Hi]. by eexists.
Qed.

Lemma optional_slice_silent {A} at_ n (check : path -> A -> option verror) l :
  Forall (fun a => forall at_, check at_ a = None) l -> optional_slice none_nil at_ n check (Some <$> l) = None.
Proof.
  intros H. unfold optional_slice. rewrite nil_slice_none. apply each_silent.
  eapply Forall_impl; [exact H|]. intros a Ha i. apply Ha.
Qed.

Lemma required_model_silent {A} n (check : A -> option verror) a : check a = None -> required_model n check (Some a) = None.
Proof. intros H. unfold required_model, optional_model. simpl. by rewrite H. Qed.

Lemma optional_model_silent {A} n (check : A -> option verror) v :
  (forall a, v = Some a -> check a = None) -> optional_model n check v = None.
Proof. intros H. destruct v as [a|]; [|done]. unfold optional_model. by rewrite H. Qed.

Lemma leaf_slice_silent {A} at_ n (l : list A) : Required (E := verror) n "body" (nil_slice none_nil at_ n l) = None.
Proof. by rewrite nil_slice_none. Qed.

Ltac silent :=
  apply collect_silent; repeat (apply Forall_cons_2; [first [reflexivity|apply leaf_slice_silent|idtac]|]); try apply Forall_nil_2.

(** *** Values without null elements *)

Lemma whole_object (members : list (string * option json)) :
  Forall (fun m => from_option no_null_elements true m.2 = true) members ->
  no_null_elements (JObject (present members)) = true.
Proof.
  intros H. simpl. induction H as [|[k [v|]] members Hv _ IH]; simpl in *; [done| |exact IH]. by rewrite Hv.
Qed.

Lemma whole_array l : Forall (fun v => is_null v = false /\ no_null_elements v = true) l -> no_null_elements (JArray l) = true.
Proof. intros H. simpl. induction H as [|v l [Hn Hw] _ IH]; [done|]. simpl. by rewrite Hn, Hw. Qed.

(** Slices of simple values, and of records of which none is nil. *)
Lemma whole_leaves {A} at_ n (f : A -> json) l :
  (forall a, is_null (f a) = false /\ no_null_elements (f a) = true) ->
  no_null_elements (slice_json none_nil at_ n (fun _ => f) l) = true.
Proof.
  intros H. unfold slice_json. rewrite nil_slice_none. apply whole_array, Forall_forall. intros v Hv.
  apply elem_of_lookup_imap in Hv as (i & a & -> & _). apply H.
Qed.

Lemma whole_slice {A} at_ n (f : path -> A -> json) l :
  (forall at_ a, is_null (f at_ a) = false) -> Forall (fun a => forall at_, no_null_elements (f at_ a) = true) l ->
  no_null_elements (slice_json none_nil at_ n (ptr_elements f) (Some <$> l)) = true.
Proof.
  intros H0 H. unfold slice_json. rewrite nil_slice_none. apply whole_array, Forall_forall. intros v Hv.
  apply elem_of_lookup_imap in Hv as (i & o & -> & Ho). rewrite list_lookup_fmap in Ho.
  destruct (l !! i) as [a|] eqn:Ei; [|done]. injection Ho as <-. simpl. split; [apply H0|].
  rewrite Forall_forall in H. apply H. by eapply list_elem_of_lookup_2.
Qed.

Lemma whole_ptr {A} (f : A -> json) v : (forall a, no_null_elements (f a) = true) -> no_null_elements (ptr_json f v) = true.
Proof. intros H. destruct v as [a|]; [apply H|done]. Qed.

Lemma whole_omitempty {A} `{EqDecision A} (zero : A) f v :
  (forall a, no_null_elements (f a) = true) -> from_option no_null_elements true (omitempty zero f v) = true.
Proof. intros H. unfold omitempty. case_bool_decide; [done|apply H]. Qed.

(** The members of a record one by one. *)
Ltac whole :=
  apply whole_object; repeat (apply Forall_cons_2;
    [cbn [snd from_option];
     first [solve [apply whole_leaves; done] | solve [apply whole_ptr; done] | solve [apply whole_omitempty; done] | idtac]|]);
  try apply Forall_nil_2.

(** ** Lists *)

Lemma convert_schedule_valid s at_ : Schedule.Validate (E := verror) none_nil at_ (convert_schedule s) = None.
Proof. done. Qed.

Lemma Forall_fmap_all {A B} (f : A -> B) (P : B -> Prop) l : (forall a, P (f a)) -> Forall P (f <$> l).
Proof. intros H. apply Forall_fmap, Forall_true. intros a. apply H. Qed.

Lemma convertToDAG_valid dag at_ : DAG.Validate (E := verror) none_nil at_ (convertToDAG dag) = None.
Proof. unfold DAG.Validate. silent. apply required_slice_silent, Forall_fmap_all. done. Qed.

Lemma list_item_valid d at_ : is_Some (ErrorT d) -> DAGStatusFile.Validate (E := verror) none_nil at_ (list_item d) = None.
Proof.
  intros [e He]. unfold DAGStatusFile.Validate. silent.
  - apply required_model_silent, convertToDAG_valid.
  - unfold DAGStatusFile.validateError. cbn [list_item models.DAGStatusFile.Error]. by rewrite He.
Qed.

(** One without an error text lacks it. *)
Lemma list_item_invalid d at_ :
  ErrorT d = None -> DAGStatusFile.Validate (E := verror) none_nil at_ (list_item d) <> None.
Proof.
  intros He H. apply collect_all_silent in H. pose proof (Forall_lookup_1 _ _ 2 _ H eq_refl) as Hr.
  unfold DAGStatusFile.validateError in Hr. cbn [list_item models.DAGStatusFile.Error] in Hr. by rewrite He in Hr.
Qed.

Lemma DAG_whole dag at_ : no_null_elements (DAG.encode none_nil at_ (convertToDAG dag)) = true.
Proof. whole. apply whole_slice; [done|]. apply Forall_fmap_all. intros s at_'. by whole. Qed.

Lemma list_item_whole d at_ : no_null_elements (DAGStatusFile.encode none_nil at_ (list_item d)) = true.
Proof. whole; [apply DAG_whole|by whole]. Qed.

Lemma list_whole (items : list DAGStatus) errors e c :
  no_null_elements (ListDAGsResponse.encode none_nil []
    (models.ListDAGsResponse.mk (Some <$> (list_item <$> items)) errors (Some e) (Some c))) = true.
Proof. whole. apply whole_slice; [done|]. apply Forall_fmap_all. intros d at_. apply list_item_whole. Qed.

(** A member that is null is missed. *)
Lemma missed_member props req members i n s :
  members.*1 = props.*1 -> NoDup props.*1 -> props !! i = Some (n, s) -> members !! i = Some (n, Some JNull) ->
  violations s JNull = [[]] -> [n] ∈ violations (SObject props req) (JObject (present members)).
Proof.
  intros Hk Hd Hp Hm Hv. rewrite violations_object by done. apply list_elem_of_In, in_concat. exists [[n]]. split; [|by left].
  apply list_elem_of_In. apply list_elem_of_lookup_2 with i, lookup_zip_with_Some. exists (n, s), (n, Some JNull).
  split; [|done]. unfold paths_of. simpl. by rewrite Hv.
Qed.

(** ** The answers *)

Section handlers.
Context {W : Type} `{!HistoryStore W, !DAGStore W, !FlagStore W}.
Context (md5hex : string -> string) (request : string -> string -> string -> W -> W * result string).
Context (StatusFromJSON : string -> result MStatus.t) (fmt_rfc3339 : Z -> string) (order : Z -> nat -> list Z).
Context (rune_lower : Z -> Z) (ParseStatusFile : string -> W -> result MStatus.t).
Context (ReadFile read_eucjp : string -> W -> result string) (logEncodingCharset : string).

(** Of the list only workflows with an error are described as the document says:
    the others have a null where it requires the text of an error. *)
Theorem list_conforms_on_errors params w w' l :
  getList md5hex request StatusFromJSON fmt_rfc3339 params w = (w', Answer l) ->
  exists items, models.ListDAGsResponse.DAGs l = Some <$> (list_item <$> items) /\
    (conforms schema_ListDAGsResponse (ListDAGsResponse.encode none_nil [] l) = true <->
     Forall (fun d => is_Some (st_Error d)) items).
Proof.
  unfold getList. destruct (GetAllStatusPagination _ _ _ _ _ _) as [w1 [[[items r] [e|]]|p]]; [done| |done].
  intros [= _ <-]. exists items. split; [done|].
  match goal with |- conforms _ (ListDAGsResponse.encode _ _ ?l) = _ <-> _ => set (a := l) end.
  pose proof (ListDAGsResponse_reports verror_names none_nil [] a) as Hr.
  destruct (agrees_reports _ _ _ _ Hr) as (_ & _ & Hsilent & Hwhole). split.
  - intros H%Hsilent. apply collect_all_silent in H. pose proof (Forall_lookup_1 _ _ 0 _ H eq_refl) as Hd.
    change (required_slice none_nil [] "DAGs" (DAGStatusFile.Validate none_nil) (Some <$> (list_item <$> items)) = None) in Hd.
    apply required_slice_all_silent in Hd.
    rewrite Forall_fmap in Hd. eapply Forall_impl; [exact Hd|]. intros d [at_ Hv].
    destruct (st_Error d) as [e|] eqn:Ee; [by eexists|].
    exfalso. by apply (list_item_invalid d at_); [unfold ErrorT; rewrite Ee|].
  - intros H. apply (Hwhole (list_whole _ _ _ _)). unfold ListDAGsResponse.Validate. silent. apply required_slice_silent. cbn [a models.ListDAGsResponse.DAGs].
    apply Forall_fmap. eapply Forall_impl; [exact H|]. intros d [e He] at_. apply list_item_valid.
    unfold ErrorT. rewrite He. by eexists.
Qed.


(** What every answer with details has in common. *)
Lemma getDetail_fields p w w' d :
  getDetail md5hex request StatusFromJSON fmt_rfc3339 order rune_lower ParseStatusFile ReadFile read_eucjp logEncodingCharset
    p w = (w', Answer d) ->
  models.GetDAGDetailsResponse.Graph d = None /\ models.GetDAGDetailsResponse.LogURL d = None.
Proof.
  unfold getDetail. destruct (GetStatus _ _ _ _ _ _ _) as [w1 [s err]].
  repeat case_bool_decide; [by intros [= _ <-]| | | | |done].
  - unfold processSpecRequest. destruct (GetDAGSpec _ _); [|done]. by intros [= _ <-].
  - unfold processLogRequest. destruct (GetRecentHistory _ _ _) as [w2 logs]. by intros [= _ <-].
  - unfold processStepLogRequest. repeat case_match; try done; by intros [= _ <-]; simplify_eq.
  - unfold processSchedulerLogRequest. repeat case_match; try done; by intros [= _ <-]; simplify_eq.
Qed.

(** No answer with details is what the document says: a graph and the address of a
    log are required and never given. *)
Theorem details_never_conform p w w' d :
  getDetail md5hex request StatusFromJSON fmt_rfc3339 order rune_lower ParseStatusFile ReadFile read_eucjp logEncodingCharset
    p w = (w', Answer d) ->
  let missed := violations schema_GetDAGDetailsResponse (GetDAGDetailsResponse.encode none_nil [] d) in
  ["Graph"] ∈ missed /\ ["LogUrl"] ∈ missed.
Proof.
  intros [Hg Hl]%getDetail_fields. cbv zeta.
  assert (NoDup (match schema_GetDAGDetailsResponse with SObject props _ => props.*1 | _ => [] end)) as Hd
    by (apply (bool_decide_unpack _); vm_compute; exact I).
  split; [apply (missed_member _ _ _ 3 "Graph" (SString []))|apply (missed_member _ _ _ 5 "LogUrl" (SString []))]; try done.
  - cbn. by rewrite Hg.
  - cbn. by rewrite Hl.
Qed.

End handlers.

(** ** Steps *)

Lemma leaf_slice_member {A} req n at_ (f : A -> json) s l :
  (forall a, tolerated s (f a) = []) ->
  paths_of tolerated req (n, SArray s) (n, Some (slice_json none_nil at_ n (fun _ => f) l)) = [].
Proof.
  intros H. pose proof (reports_leaf_slice verror_names none_nil req n at_ f s l H) as Hr. by rewrite leaf_slice_silent in Hr.
Qed.

Lemma preconditions_member req at_ l :
  paths_of tolerated req ("Preconditions", SArray schema_Precondition)
    ("Preconditions", Some (slice_json none_nil at_ "Preconditions" (ptr_elements (Precondition.encode none_nil)) (Some <$> (convert_condition <$> l)))) = [].
Proof.
  pose proof (reports_required_slice verror_names none_nil req "Preconditions" at_ (Precondition.Validate none_nil)
    (Precondition.encode none_nil) schema_Precondition (Some <$> (convert_condition <$> l)) ltac:(done) (Precondition_reports verror_names none_nil)) as Hr.
  rewrite required_slice_silent in Hr; [exact Hr|]. by apply Forall_true.
Qed.

Lemma omitted_member {A} `{EqDecision A} req n (zero : A) f s v :
  n ∉ req -> (forall a, tolerated s (f a) = []) -> paths_of tolerated req (n, s) (n, omitempty zero f v) = [].
Proof. exact (reports_unchecked verror_names req n zero f s v). Qed.

Lemma repeat_policy_tolerated r at_ : tolerated schema_RepeatPolicy (RepeatPolicy.encode none_nil at_ r) = [].
Proof. exact (RepeatPolicy_reports verror_names none_nil at_ r). Qed.

Lemma step_record_whole s at_ : no_null_elements (Step.encode none_nil at_ (convertToStepObject s)) = true.
Proof.
  whole.
  - apply whole_slice; [done|]. apply Forall_fmap_all. intros c at_'. by whole.
  - by whole.
Qed.

(** A step of an answer, wherever it is, lacks the names of its output and error
    files, which the document requires. *)
Theorem step_departs s at_ :
  violations schema_Step (Step.encode none_nil at_ (convertToStepObject s)) = [["Stderr"]; ["Stdout"]].
Proof.
  rewrite <- tolerated_whole by apply step_record_whole. unfold schema_Step, Step.encode.
  rewrite tolerated_object; [|reflexivity|apply (bool_decide_unpack _); vm_compute; exact I].
  unfold Step.members. cbn [zip_with convertToStepObject models.Step.Args models.Step.Depends models.Step.Preconditions].
  rewrite !leaf_slice_member by done. rewrite preconditions_member, !omitted_member by first [done|apply (bool_decide_unpack _); vm_compute; exact I].
  unfold paths_of. cbn [fst snd ptr_json convertToStepObject models.Step.RepeatPolicy]. by rewrite repeat_policy_tolerated.
Qed.
