(* ===== verification/Base64.v ===== *)
(** * Base64: [base64.StdEncoding]

    The encoding of encoding/base64 with padding, used for the credentials of a
    request and for mails, with its round trip. *)

From S2P Require Import Prelude GoStrings Utf8.
From Stdlib Require Import Ascii.

Definition alphabet : bytes := s2l "ABCDEFGHIJKLMNOPQRSTUVWXYZabcdefghijklmnopqrstuvwxyz0123456789+/".
Definition pad : ascii := "="%char.

Definition sextet (v : Z) : ascii := nth (Z.to_nat v) alphabet pad.

Fixpoint b64_encode (l : bytes) : bytes :=
  match l with
  | [] => []
  | [x] => let a := byte_z x in [sextet (a / 4); sextet (a mod 4 * 16); pad; pad]
  | [x; y] =>
      let a := byte_z x in let b := byte_z y in
      [sextet (a / 4); sextet (a mod 4 * 16 + b / 16); sextet (b mod 16 * 4); pad]
  | x :: y :: z :: l =>
      let a := byte_z x in let b := byte_z y in let c := byte_z z in
      sextet (a / 4) :: sextet (a mod 4 * 16 + b / 16) :: sextet (b mod 16 * 4 + c / 64) :: sextet (c mod 64) ::
      b64_encode l
  end.

Definition value (c : ascii) : option Z := Z.of_nat <$> (fst <$> list_find (fun d => d = c) alphabet).

(** Four characters at a time; the bits a padded quantum leaves over are not
    looked at. *)
Fixpoint quanta (l : bytes) : option bytes :=
  match l with
  | [] => Some []
  | [a; b; c; d] =>
      va ← value a; vb ← value b;
      let x := z_byte (va * 4 + vb / 16) in
      if bool_decide (c = pad) then (if bool_decide (d = pad) then Some [x] else None)
      else
        vc ← value c;
        let y := z_byte (vb mod 16 * 16 + vc / 4) in
        if bool_decide (d = pad) then Some [x; y]
        else vd ← value d; Some [x; y; z_byte (vc mod 4 * 64 + vd)]
  | a :: b :: c :: d :: l =>
      va ← value a; vb ← value b; vc ← value c; vd ← value d;
      rest ← quanta l;
      Some (z_byte (va * 4 + vb / 16) :: z_byte (vb mod 16 * 16 + vc / 4) :: z_byte (vc mod 4 * 64 + vd) :: rest)
  | _ => None
  end.

(** Line breaks are skipped. *)
Definition b64_decode (l : bytes) : option bytes :=
  quanta (List.filter (fun c => negb (bool_decide (c = "010"%char \/ c = "013"%char))) l).

Definition EncodeToString (s : string) : string := l2s (b64_encode (s2l s)).
Definition DecodeString (s : string) : option string := l2s <$> b64_decode (s2l s).

(** ** Round trip *)

Lemma value_sextet v : (0 <= v < 64)%Z -> value (sextet v) = Some v.
Proof.
  intros Hv.
  assert (Forall (fun n => value (sextet (Z.of_nat n)) = Some (Z.of_nat n)) (seq 0 64)) as H
    by (apply (bool_decide_unpack _); vm_compute; exact I).
  rewrite Forall_forall in H. specialize (H (Z.to_nat v)). rewrite Z2Nat.id in H by lia. apply H.
  apply list_elem_of_In, in_seq. lia.
Qed.

Definition plain_char (c : ascii) : bool := negb (bool_decide (c = "010"%char \/ c = "013"%char)).

Lemma sextet_chars v : (0 <= v < 64)%Z -> sextet v <> pad /\ plain_char (sextet v) = true.
Proof.
  intros Hv.
  assert (Forall (fun n => sextet (Z.of_nat n) <> pad /\ plain_char (sextet (Z.of_nat n)) = true) (seq 0 64)) as H
    by (apply (bool_decide_unpack _); vm_compute; exact I).
  rewrite Forall_forall in H. specialize (H (Z.to_nat v)). rewrite Z2Nat.id in H by lia. apply H.
  apply list_elem_of_In, in_seq. lia.
Qed.

Lemma byte_z_range c : (0 <= byte_z c < 256)%Z.
Proof. unfold byte_z. pose proof (nat_ascii_bounded c). lia. Qed.

(** The encoding has no line break. *)
Lemma encode_plain l : Forall (fun c => plain_char c = true) (b64_encode l).
Proof.
  assert (forall v, (0 <= v < 64)%Z -> plain_char (sextet v) = true) as Hp by (intros; by apply sextet_chars).
  revert l. fix IH 1. intros [|x [|y [|z l]]]; simpl; [constructor|..];
    repeat match goal with c : ascii |- _ => pose proof (byte_z_range c); generalize dependent (byte_z c); clear c; intros end;
    repeat first [constructor; [first [done|apply Hp; split; Z.div_mod_to_equations; lia]|]]; first [constructor|apply IH].
Qed.

(** A whole quantum in front. *)
Lemma quanta_cons a b c d l r : (0 <= a < 64)%Z -> (0 <= b < 64)%Z -> (0 <= c < 64)%Z -> (0 <= d < 64)%Z ->
  quanta l = Some r ->
  quanta (sextet a :: sextet b :: sextet c :: sextet d :: l) =
    Some (z_byte (a * 4 + b / 16) :: z_byte (b mod 16 * 16 + c / 4) :: z_byte (c mod 4 * 64 + d) :: r).
Proof.
  intros Ha Hb Hc Hd Hl. destruct l as [|e l].
  - injection Hl as <-. unfold quanta. rewrite !value_sextet by done. simpl.
    rewrite !bool_decide_false by (by apply sextet_chars). done.
  - change (quanta (sextet a :: sextet b :: sextet c :: sextet d :: e :: l)) with
      (va ← value (sextet a); vb ← value (sextet b); vc ← value (sextet c); vd ← value (sextet d);
       rest ← quanta (e :: l);
       Some (z_byte (va * 4 + vb / 16) :: z_byte (vb mod 16 * 16 + vc / 4) :: z_byte (vc mod 4 * 64 + vd) :: rest)).
    by rewrite !value_sextet, Hl by done.
Qed.

Lemma first_byte x r : (0 <= r < 16)%Z -> z_byte (byte_z x / 4 * 4 + (byte_z x mod 4 * 16 + r) / 16) = x.
Proof.
  intros Hr. pose proof (byte_z_range x). rewrite <- (z_byte_z x) at 3. f_equal. Z.div_mod_to_equations. lia.
Qed.

Lemma second_byte h y r : (0 <= r < 4)%Z ->
  z_byte ((h * 16 + byte_z y / 16) mod 16 * 16 + (byte_z y mod 16 * 4 + r) / 4) = y.
Proof.
  intros Hr. pose proof (byte_z_range y). rewrite <- (z_byte_z y) at 3. f_equal. Z.div_mod_to_equations. lia.
Qed.

Lemma third_byte h z : z_byte ((h * 4 + byte_z z / 64) mod 4 * 64 + byte_z z mod 64) = z.
Proof. pose proof (byte_z_range z). rewrite <- (z_byte_z z) at 3. f_equal. Z.div_mod_to_equations. lia. Qed.

Lemma quanta_encode l : quanta (b64_encode l) = Some l.
Proof.
  revert l. fix IH 1. intros [|x [|y [|z l]]]; [done|..]; cbn [b64_encode].
  - pose proof (byte_z_range x). unfold quanta. rewrite !value_sextet by (Z.div_mod_to_equations; lia). simpl.
    rewrite <- (Z.add_0_r (byte_z x mod 4 * 16)). by rewrite first_byte.
  - pose proof (byte_z_range x). pose proof (byte_z_range y). unfold quanta.
    rewrite !value_sextet by (Z.div_mod_to_equations; lia). simpl.
    rewrite bool_decide_false by (apply sextet_chars; Z.div_mod_to_equations; lia).
    rewrite first_byte by (Z.div_mod_to_equations; lia).
    rewrite <- (Z.add_0_r (byte_z y mod 16 * 4)). by rewrite second_byte.
  - pose proof (byte_z_range x). pose proof (byte_z_range y). pose proof (byte_z_range z).
    rewrite (quanta_cons _ _ _ _ _ l) by (apply IH || (Z.div_mod_to_equations; lia)).
    rewrite first_byte by (Z.div_mod_to_equations; lia). rewrite second_byte by (Z.div_mod_to_equations; lia).
    by rewrite third_byte.
Qed.

Lemma b64_round_trip l : b64_decode (b64_encode l) = Some l.
Proof.
  unfold b64_decode. rewrite <- (quanta_encode l). f_equal.
  assert (Forall (fun c => plain_char c = true) (b64_encode l)) as H by apply encode_plain.
  induction H as [|c k Hc _ IH]; [done|]. unfold plain_char in Hc. simpl. rewrite Hc. by rewrite IH.
Qed.

Lemma Decode_Encode s : DecodeString (EncodeToString s) = Some s.
Proof.
  unfold DecodeString, EncodeToString. rewrite s2l_l2s, b64_round_trip. simpl. by rewrite l2s_s2l.
Qed.

Example encoded : EncodeToString "user:pa" = "dXNlcjpwYQ==".
Proof. reflexivity. Qed.
