(* ===== verification/Middleware.v ===== *)
(** * The middleware of the web server: internal/frontend/middleware

    Basic authentication, bearer tokens, the base path and the headers for other
    origins, and the chain they form around the interface (middleware.go,
    basic_auth.go, token_auth.go, logging.go).  The middleware of the chi library
    is an argument. *)

From S2P Require Import Prelude GoStrings Utf8 Client Handlers Base64.
From Stdlib Require Import Ascii.

(** What is looked at of a request: [Authorization] is the first value of the
    header, empty without one; [authenticated] is the value in the context. *)
Record Request := mkRequest {
  rq_Method : string;
  rq_Path : string;
  rq_RawPath : string;
  rq_Authorization : string;
  rq_authenticated : bool
}.

Record Response := mkResponse {
  rs_Status : Z;
  rs_Header : list (string * string);
  rs_Body : string
}.

Record AuthBasic := mkAuthBasic { ab_Username : string; ab_Password : string }.
Record AuthToken := mkAuthToken { at_Token : string }.

(** ** Credentials *)

(** [Request.BasicAuth]. *)
Definition fold_byte (c : ascii) : ascii := if (65 <=? byte_z c)%Z && (byte_z c <=? 90)%Z then z_byte (byte_z c + 32) else c.

Definition basic_credentials (auth : string) : option (string * string) :=
  if bool_decide (fold_byte <$> take 6 (s2l auth) = s2l "basic ") then
    match DecodeString (l2s (drop 6 (s2l auth))) with
    | None => None
    | Some c => (fun p => (l2s (fst p), l2s (snd p))) <$> cutl [":"%char] (s2l c)
    end
  else None.

Section middleware.
Context {W : Type}.

Abbreviation handler := (Request -> W -> W * Response).

(** Headers added before the handler writes its answer. *)
Definition with_headers (hs : list (string * string)) (r : W * Response) : W * Response :=
  (fst r, mkResponse (rs_Status (snd r)) (hs ++ rs_Header (snd r)) (rs_Body (snd r))).

Definition challenge (scheme realm : string) : string := scheme +:+ " realm=" +:+ dq +:+ realm +:+ dq.

Definition failed (scheme realm : string) (w : W) : W * Response :=
  (w, mkResponse 401 [("WWW-Authenticate", challenge scheme realm)] "").

Definition basicAuthFailed := failed "Basic".
Definition tokenAuthFailed := failed "Bearer".

Definition skipBasicAuth (authToken : option AuthToken) (authHeader : list string) : bool :=
  bool_decide (is_Some authToken) && (2 <=? length authHeader) && bool_decide (head authHeader = Some "Bearer").

Definition withAuthenticated (r : Request) : Request :=
  mkRequest (rq_Method r) (rq_Path r) (rq_RawPath r) (rq_Authorization r) true.

Definition BasicAuth (authToken : option AuthToken) (realm : string) (creds : gmap string string) (next : handler) : handler :=
  fun r w =>
    let authHeader := split (rq_Authorization r) " " in
    if skipBasicAuth authToken authHeader then next r w
    else match basic_credentials (rq_Authorization r) with
         | None => basicAuthFailed realm w
         | Some (user, pass) =>
             match creds !! user with
             | None => basicAuthFailed realm w
             | Some credPass =>
                 if bool_decide (pass = credPass) then next (withAuthenticated r) w else basicAuthFailed realm w
             end
         end.

Definition skipTokenAuth (r : Request) : bool := rq_authenticated r.

Definition TokenAuth (realm token : string) (next : handler) : handler :=
  fun r w =>
    if skipTokenAuth r then next r w
    else match split (rq_Authorization r) " " with
         | _ :: bearer :: _ =>
             if bool_decide (bearer = "") then tokenAuthFailed realm w
             else if bool_decide (bearer = token) then next r w
             else tokenAuthFailed realm w
         | _ => tokenAuthFailed realm w
         end.

(** ** Paths and origins *)

Definition set_Path (r : Request) (p rp : string) : Request :=
  mkRequest (rq_Method r) p rp (rq_Authorization r) (rq_authenticated r).

(** [http.StripPrefix]. *)
Definition StripPrefix (prefix : string) (h : handler) : handler :=
  fun r w =>
    if bool_decide (prefix = "") then h r w
    else
      let p := trim_prefix (rq_Path r) prefix in
      let rp := trim_prefix (rq_RawPath r) prefix in
      if (String.length p <? String.length (rq_Path r)) &&
         (bool_decide (rq_RawPath r = "") || (String.length rp <? String.length (rq_RawPath r)))
      then h (set_Path r p rp) w
      else (w, mkResponse 404 [("Content-Type", "text/plain; charset=utf-8"); ("X-Content-Type-Options", "nosniff")]
                 (l2s (s2l "404 page not found" ++ ["010"%char]))).

(** [http.Redirect] answers with the place to go to and a link to it. *)
Context (Redirect : Request -> string -> Z -> Response).

Definition prefixChecker (basePath : string) (defaultHandler next : handler) : handler :=
  fun r w =>
    if negb (bool_decide (basePath = "")) && bool_decide (rq_Path r = "/") then (w, Redirect r basePath 303)
    else StripPrefix basePath (fun r w => if has_prefix (rq_Path r) "/api" then next r w else defaultHandler r w) r w.

Definition cors (h : handler) : handler :=
  fun r w =>
    with_headers [("Access-Control-Allow-Origin", "*"); ("Access-Control-Allow-Methods", "*");
                  ("Access-Control-Allow-Headers", "*")]
      (if bool_decide (rq_Method r = "OPTIONS") then (w, mkResponse 200 [] "") else h r w).

(** [Infof] of the logger. *)
Definition logging (Infof : string -> W -> W) (next : handler) : handler :=
  fun r w => next r (Infof ("Request: " +:+ rq_Method r +:+ " " +:+ rq_Path r) w).

(** ** The chain *)

Record Options := mkOptions {
  op_Handler : handler;
  op_AuthBasic : option AuthBasic;
  op_AuthToken : option AuthToken;
  op_Logger : option (string -> W -> W);
  op_BasePath : string
}.

(** The middleware of chi. *)
Context (RequestID Logger Recoverer : handler -> handler).

(** What stands inside the authentication. *)
Definition inner_chain (opts : Options) (h : handler) : handler :=
  let next := RequestID (cors h) in
  Recoverer (match op_Logger opts with Some Infof => logging Infof next | None => Logger next end).

Definition token_layer (opts : Options) (next : handler) : handler :=
  match op_AuthToken opts with Some t => TokenAuth "restricted" (at_Token t) next | None => next end.

Definition basic_layer (opts : Options) (next : handler) : handler :=
  match op_AuthBasic opts with
  | Some b => BasicAuth (op_AuthToken opts) "restricted" {[ ab_Username b := ab_Password b ]} next
  | None => next
  end.

Definition SetupGlobalMiddleware (opts : Options) (h : handler) : handler :=
  prefixChecker (op_BasePath opts) (op_Handler opts) (basic_layer opts (token_layer opts (inner_chain opts h))).

End middleware.
Arguments Options : clear implicits.

(** ** Properties of the middleware

    Who reaches the interface, and that a node which forwards a request with the
    credentials of another is let in. *)

(** ** Headers *)

Lemma splitl_head n sep l x rest : splitl n sep l = x :: rest -> exists t, l = x ++ t.
Proof.
  destruct n as [|n]; simpl; [intros [= -> _]; exists []; by rewrite app_nil_r|].
  destruct (cutl sep l) as [[a b]|] eqn:E; intros [= -> _]; [|exists []; by rewrite app_nil_r].
  apply cutl_sound in E as ->. by eexists.
Qed.

Lemma split_head s sep x : head (split s sep) = Some x -> exists t, s2l s = s2l x ++ t.
Proof.
  unfold split. destruct (splitl _ _ _) as [|y rest] eqn:E; [done|]. intros [= <-]. rewrite s2l_l2s.
  by eapply splitl_head.
Qed.

(** Basic credentials are never under the scheme [Bearer]. *)
Lemma credentials_not_bearer auth c : basic_credentials auth = Some c -> head (split auth " ") <> Some "Bearer".
Proof.
  intros Hc (t & Ht)%split_head. unfold basic_credentials in Hc. rewrite Ht in Hc.
  rewrite bool_decide_false in Hc; [done|]. vm_compute. done.
Qed.

(** The credentials a client writes are the ones that are read. *)
Lemma credentials_written user pass : ":"%char ∉ s2l user ->
  basic_credentials ("Basic " +:+ EncodeToString (user +:+ ":" +:+ pass)) = Some (user, pass).
Proof.
  intros Hu. unfold basic_credentials. rewrite s2l_app.
  rewrite (take_app_length' (s2l "Basic ")), (drop_app_length' (s2l "Basic ")) by done.
  rewrite bool_decide_true by (vm_compute; done). rewrite l2s_s2l, Decode_Encode, !s2l_app.
  change (s2l ":") with [":"%char].
  rewrite (cutl_app [":"%char]); [simpl; by rewrite !l2s_s2l|done|done|by apply cutl_char].
Qed.

(** A token without spaces after its scheme. *)
Lemma bearer_split token : " "%char ∉ s2l token -> split ("Bearer " +:+ token) " " = ["Bearer"; token].
Proof.
  intros Ht. replace ("Bearer " +:+ token) with (join ["Bearer"; token] " ").
  - apply split_join; [done..|]. repeat constructor. apply contains_false_cutl. by apply cutl_char.
  - unfold join. cbn -[s2l l2s]. rewrite !l2s_app, !l2s_s2l. by apply s2l_inj.
Qed.

Section guarded.
Context {W : Type} (Redirect : Request -> string -> Z -> Response).
Context (RequestID Logger Recoverer : (Request -> W -> W * Response) -> Request -> W -> W * Response).

Abbreviation serve := (SetupGlobalMiddleware Redirect RequestID Logger Recoverer).

(** What a request has to present. *)
Definition knows (b : AuthBasic) (r : Request) : Prop :=
  basic_credentials (rq_Authorization r) = Some (ab_Username b, ab_Password b).

Definition bears (t : AuthToken) (r : Request) : Prop :=
  at_Token t <> "" /\ split (rq_Authorization r) " " !! 1 = Some (at_Token t).

Definition authorized (opts : Options W) (r : Request) : Prop :=
  match op_AuthBasic opts, op_AuthToken opts with
  | None, None => True
  | Some b, None => knows b r
  | None, Some t => bears t r
  | Some b, Some t => knows b r \/ (head (split (rq_Authorization r) " ") = Some "Bearer" /\ bears t r)
  end.

(** The path inside the base path, when there is one. *)
Definition inside (opts : Options W) (r : Request) : option Request :=
  let base := op_BasePath opts in
  if bool_decide (base = "") then Some r
  else if bool_decide (rq_Path r = "/") then None
  else if (String.length (trim_prefix (rq_Path r) base) <? String.length (rq_Path r)) &&
          (bool_decide (rq_RawPath r = "") ||
           (String.length (trim_prefix (rq_RawPath r) base) <? String.length (rq_RawPath r)))
       then Some (set_Path r (trim_prefix (rq_Path r) base) (trim_prefix (rq_RawPath r) base))
       else None.

Definition is_api (r : Request) : bool := has_prefix (rq_Path r) "/api".

Definition unauthorized (res : W * Response) (w : W) : Prop :=
  fst res = w /\ rs_Status (snd res) = 401%Z /\ rs_Body (snd res) = "".

(** ** The layers *)

Lemma token_layer_cases (opts : Options W) next r w : rq_authenticated r = false ->
  match op_AuthToken opts with
  | None => token_layer opts next r w = next r w
  | Some t => (bears t r /\ token_layer opts next r w = next r w) \/
              (~ bears t r /\ unauthorized (token_layer opts next r w) w)
  end.
Proof.
  intros Hr. unfold token_layer. destruct (op_AuthToken opts) as [t|]; [|done].
  unfold TokenAuth, skipTokenAuth, bears. rewrite Hr.
  destruct (split (rq_Authorization r) " ") as [|x [|bearer rest]]; simpl;
    [right; by split_and!; [intros []|..]..|].
  case_bool_decide as He; [right; split; [naive_solver|done]|].
  case_bool_decide as Ht; [left; naive_solver|right; split; [naive_solver|done]].
Qed.

Lemma token_layer_skip (opts : Options W) next r w : rq_authenticated r = true -> token_layer opts next r w = next r w.
Proof. intros Hr. unfold token_layer. destruct (op_AuthToken opts); [|done]. unfold TokenAuth, skipTokenAuth. by rewrite Hr. Qed.

(** The request as the handler gets it. *)
Definition admitted (r r' : Request) : Prop :=
  rq_Method r' = rq_Method r /\ rq_Path r' = rq_Path r /\ rq_Authorization r' = rq_Authorization r.

Lemma layers_cases (opts : Options W) next r w : rq_authenticated r = false ->
  (authorized opts r /\ exists r', admitted r r' /\ basic_layer opts (token_layer opts next) r w = next r' w) \/
  (~ authorized opts r /\ unauthorized (basic_layer opts (token_layer opts next) r w) w).
Proof.
  intros Hr. pose proof (token_layer_cases opts next r w Hr) as Ht. unfold authorized, basic_layer.
  destruct (op_AuthBasic opts) as [b|].
  2:{ destruct (op_AuthToken opts) as [t|]; [|left; by split; [|exists r]].
      destruct Ht as [[Hb ->]|Ht]; [left; by split; [|exists r]|by right]. }
  unfold BasicAuth, skipBasicAuth.
  destruct (op_AuthToken opts) as [t|] eqn:Et.
  - destruct (bool_decide (is_Some (Some t)) && _ && _) eqn:Eskip.
    + apply andb_true_iff in Eskip as [_ Hhead%bool_decide_eq_true].
      destruct Ht as [[Hb ->]|[Hb Ht]]; [left; split; [by right|by exists r]|right; split; [|done]].
      intros [Hk|[_ Hk]]; [|done]. by apply credentials_not_bearer in Hk.
    + assert (~ (head (split (rq_Authorization r) " ") = Some "Bearer" /\ bears t r)) as Hno.
      { intros [Hh [_ Hb]]. apply lookup_lt_Some in Hb.
        rewrite bool_decide_true in Eskip by done. rewrite (bool_decide_true (head _ = _)) in Eskip by done.
        rewrite andb_true_r, andb_true_l in Eskip. apply Nat.leb_gt in Eskip. lia. }
      clear Eskip.
      unfold knows. destruct (basic_credentials _) as [[user pass]|]; [|right; split; [by intros [|]|done]].
      destruct ({[ab_Username b := ab_Password b]} !! user) as [p|] eqn:Eu.
      * apply lookup_singleton_Some in Eu as [<- <-]. case_bool_decide as Hp; [subst|].
        -- left. split; [by left|]. exists (withAuthenticated r). by rewrite token_layer_skip.
        -- right. split; [|done]. intros [H|H]; [by simplify_eq|done].
      * right. split; [|done]. intros [H|H]; [|done]. simplify_eq. by rewrite lookup_singleton_eq in Eu.
  - simpl. unfold knows. destruct (basic_credentials _) as [[user pass]|]; [|by right].
    destruct ({[ab_Username b := ab_Password b]} !! user) as [p|] eqn:Eu.
    + apply lookup_singleton_Some in Eu as [<- <-]. case_bool_decide as Hp; [subst|].
      * left. split; [done|]. exists (withAuthenticated r). by rewrite token_layer_skip.
      * right. split; [naive_solver|done].
    + right. split; [|done]. intros H. simplify_eq. by rewrite lookup_singleton_eq in Eu.
Qed.

Lemma authorized_set_Path (opts : Options W) r p rp : authorized opts (set_Path r p rp) <-> authorized opts r.
Proof. done. Qed.

Lemma serve_inside (opts : Options W) h r w :
  serve opts h r w =
  match inside opts r with
  | Some p => if is_api p
              then basic_layer opts (token_layer opts (inner_chain RequestID Logger Recoverer opts h)) p w
              else op_Handler opts p w
  | None => (w, snd (serve opts h r w))
  end.
Proof.
  unfold SetupGlobalMiddleware, prefixChecker, StripPrefix, inside.
  destruct (bool_decide (op_BasePath opts = "")) eqn:Eb; simpl; [done|].
  destruct (bool_decide (rq_Path r = "/")); simpl; [done|].
  by destruct (_ && _).
Qed.

(** C16: nobody reaches the interface without the credentials that were set up:
    a request inside the base path whose path is one of the interface is passed
    on to it when it presents the user and password, or the token, that are
    required (either one when both are), and is otherwise answered 401 with
    nothing changed; every other request goes to the pages or is answered
    without the interface. *)
Theorem api_guarded (opts : Options W) (h : Request -> W -> W * Response) (r : Request) (w : W)
    (Hfresh : rq_authenticated r = false) :
  let res := serve opts h r w in
  match inside opts r with
  | None => fst res = w
  | Some p =>
      if is_api p then
        (authorized opts r -> exists r', admitted p r' /\ res = inner_chain RequestID Logger Recoverer opts h r' w) /\
        (~ authorized opts r -> unauthorized res w)
      else res = op_Handler opts p w
  end.
Proof.
  cbv zeta. rewrite serve_inside. destruct (inside opts r) as [p|] eqn:Ep; [|done].
  destruct (is_api p); [|done].
  assert (rq_authenticated p = false /\ (authorized opts p <-> authorized opts r)) as [Hp <-].
  { unfold inside in Ep. repeat case_match; simplify_eq; (split; [done|]); [done|apply authorized_set_Path]. }
  destruct (layers_cases opts (inner_chain RequestID Logger Recoverer opts h) p w Hp) as [[Ha (r' & Hr & ->)]|[Ha Hu]].
  - split; [|done]. intros _. by exists r'.
  - split; [done|]. by intros _.
Qed.

(** ** Between two nodes *)

(** The header of the forwarded request. *)
Definition header_value (a : authorization) : string :=
  match a with
  | NoAuthorization => ""
  | Handlers.BasicAuth user pass => "Basic " +:+ EncodeToString (user +:+ ":" +:+ pass)
  | Bearer token => "Bearer " +:+ token
  end.

Definition received (req : outgoing) (path raw : string) : Request :=
  mkRequest (out_Method req) path raw (header_value (out_Auth req)) false.

(** The credentials of the node are the ones its own configuration asks for. *)
Definition credentials_match (n : RemoteNode.t) (opts : Options W) : Prop :=
  (RemoteNode.IsBasicAuth n = true /\ ":"%char ∉ s2l (RemoteNode.BasicAuthUsername n) /\
   op_AuthBasic opts = Some (mkAuthBasic (RemoteNode.BasicAuthUsername n) (RemoteNode.BasicAuthPassword n))) \/
  (RemoteNode.IsBasicAuth n = false /\ RemoteNode.IsAuthToken n = true /\ RemoteNode.AuthToken n <> "" /\
   " "%char ∉ s2l (RemoteNode.AuthToken n) /\ op_AuthToken opts = Some (mkAuthToken (RemoteNode.AuthToken n))) \/
  (op_AuthBasic opts = None /\ op_AuthToken opts = None).

(** A request forwarded to another node is let in there: when the
    credentials configured for the node are the ones the node asks for, the
    request the handler builds, whatever headers the original one had, reaches
    the interface of that node. *)
Theorem forwarded_request_admitted (opts : Options W) (h : Request -> W -> W * Response)
    (body : option (result string)) (r : incoming) (n : RemoteNode.t) (url path raw : string) (p : Request) (w : W)
    (Hcred : credentials_match n opts)
    (Hpath : inside opts (received (remote_request body r n url) path raw) = Some p) (Hapi : is_api p = true) :
  exists r', admitted p r' /\
    serve opts h (received (remote_request body r n url) path raw) w = inner_chain RequestID Logger Recoverer opts h r' w.
Proof.
  set (req := received _ path raw) in *.
  assert (authorized opts req) as Ha.
  { unfold authorized, knows, bears, req, received, remote_request. cbn [out_Auth rq_Authorization].
    destruct Hcred as [(-> & Hu & ->)|[(-> & -> & Ht & Hs & ->)|[-> ->]]];
      cbn [header_value ab_Username ab_Password at_Token]; [| |done].
    - rewrite credentials_written by done. destruct (op_AuthToken opts); [by left|done].
    - rewrite bearer_split by done. destruct (op_AuthBasic opts); [by right|done]. }
  rewrite serve_inside, Hpath, Hapi.
  assert (rq_authenticated p = false /\ authorized opts p) as [Hp Hap].
  { unfold inside in Hpath. repeat case_match; simplify_eq; done. }
  destruct (layers_cases opts (inner_chain RequestID Logger Recoverer opts h) p w Hp) as [[_ H]|[H _]]; [done|by destruct H].
Qed.

End guarded.

(** ** A guarded server *)

Definition guarded : Options (list string) :=
  mkOptions (fun _ w => (w, mkResponse 200 [] "page")) (Some (mkAuthBasic "admin" "secret")) (Some (mkAuthToken "t0ken"))
    None "/dagu".

Definition answer_api (r : Request) (w : list string) : list string * Response := (rq_Path r :: w, mkResponse 200 [] "api").

Definition same_handler (h : Request -> list string -> list string * Response) := h.

Lemma api_guarded_witness :
  let serve := SetupGlobalMiddleware (fun _ _ c => mkResponse c [] "") same_handler same_handler same_handler guarded answer_api in
  let ask auth := mkRequest "GET" "/dagu/api/v1/dags" "" auth false in
  unauthorized (serve (ask "Bearer guess") []) [] /\
  fst (serve (ask "Bearer t0ken") []) = ["/api/v1/dags"] /\
  fst (serve (mkRequest "GET" "/dagu/" "" "" false) []) = [].
Proof.
  pose proof (api_guarded (fun _ _ c => mkResponse c [] "") same_handler same_handler same_handler guarded answer_api) as H.
  split; [|split].
  - destruct (H (mkRequest "GET" "/dagu/api/v1/dags" "" "Bearer guess" false) [] eq_refl) as [_ H1]. apply H1.
    intros [Hk|[_ [_ Hb]]]; [vm_compute in Hk|vm_compute in Hb]; discriminate.
  - destruct (H (mkRequest "GET" "/dagu/api/v1/dags" "" "Bearer t0ken" false) [] eq_refl) as [H1 _].
    destruct H1 as (r' & Hr & ->).
    + right. split; [vm_compute; reflexivity|]. split; [discriminate|vm_compute; reflexivity].
    + destruct Hr as (Hm & Hp & _). destruct r'. simpl in *. subst. reflexivity.
  - pose proof (H (mkRequest "GET" "/dagu/" "" "" false) [] eq_refl) as H1. exact (f_equal fst H1).
Defined.

Definition other_node : RemoteNode.t := RemoteNode.mk "b" "http://b/dagu/api/v1" true "admin" "secret" false "" false.

Lemma forwarded_request_admitted_witness :
  let req := remote_request None (mkIncoming "GET" "/api/v1/dags" ∅ [("Authorization", ["Basic other"])]) other_node "http://b/dagu/api/v1/dags?" in
  fst (SetupGlobalMiddleware (fun _ _ c => mkResponse c [] "") same_handler same_handler same_handler guarded answer_api
         (received req "/dagu/api/v1/dags" "") []) = ["/api/v1/dags"].
Proof.
  destruct (forwarded_request_admitted (fun _ _ c => mkResponse c [] "") same_handler same_handler same_handler guarded answer_api
    None (mkIncoming "GET" "/api/v1/dags" ∅ [("Authorization", ["Basic other"])]) other_node "http://b/dagu/api/v1/dags?"
    "/dagu/api/v1/dags" "" (mkRequest "GET" "/api/v1/dags" "" (header_value (Handlers.BasicAuth "admin" "secret")) false) [])
    as (r' & Hr & H).
  - left. split; [reflexivity|]. split; [by apply (bool_decide_unpack _)|reflexivity].
  - reflexivity.
  - reflexivity.
  - cbv zeta. rewrite H. destruct Hr as (Hm & Hp & _). destruct r'. simpl in *. subst. reflexivity.
Defined.
