(* ===== verification/Routes.v ===== *)
(** * The operations of the interface, from the request to the answer

    Binding and validation of the parameters (gen/restapi/operations,
    gen/models), the dispatch of each operation to another node or to its handler
    (handlers/dag.go [Configure]), and the files of Python code
    (handlers/python_files.go, internal/persistence/python_files.go). *)

From S2P Require Import Prelude GoStrings Utf8 Vars Digraph NodeData Paths Node Sched Model History Stores Client DagStore ApiModels Handlers.

(** ** Parameters *)

(** What is wrong with a parameter; a request is refused with all of them. *)
Inductive param_error := Required (name : string) | InvalidType (name : string) | InvalidEnum (name : string) | ParseError (name : string).

Definition bound (A : Type) : Type := list param_error + A.

(** The last value given counts. *)
Definition raw_value (data : list string) : string := default "" (last data).

Definition bind_path (data : list string) : string := raw_value data.

Definition bind_query (data : list string) : option string :=
  if bool_decide (raw_value data = "") then None else Some (raw_value data).

(** The body: absent, not decoded, or decoded and validated. *)
Definition bind_body {A} (Validate : A -> list param_error) (body : option (option A)) : list param_error + A :=
  match body with
  | None => inl [Required "body"]
  | Some None => inl [ParseError "body"]
  | Some (Some b) => if bool_decide (length (Validate b) = 0) then inr b else inl (Validate b)
  end.

Definition required {A} (name : string) (v : option A) : list param_error :=
  match v with None => [Required name] | Some _ => [] end.

Definition postDAGActionRequestTypeActionPropEnum : list string :=
  ["start"; "suspend"; "stop"; "retry"; "mark-success"; "mark-failed"; "save"; "rename"].

Definition Validate_PostDAGActionRequest (m : models.PostDAGActionRequest.t) : list param_error :=
  match models.PostDAGActionRequest.Action m with
  | None => [Required "action"]
  | Some a => if bool_decide (a ∈ postDAGActionRequestTypeActionPropEnum) then [] else [InvalidEnum "action"]
  end.

Definition Validate_CreateDAGRequest (m : models.CreateDAGRequest.t) : list param_error :=
  required "action" (models.CreateDAGRequest.Action m) ++ required "value" (models.CreateDAGRequest.Value m).

Definition Validate_PythonFile (m : models.PythonFile.t) : list param_error :=
  required "content" (models.PythonFile.Content m) ++ required "name" (models.PythonFile.Name m).

Section binding.
(** [swag.ConvertInt64]. *)
Context (ConvertInt64 : string -> option Z).

Definition values (q : gmap string (list string)) (name : string) : list string := default [] (q !! name).

Definition bind_int64 (name : string) (data : list string) : bound (option Z) :=
  if bool_decide (raw_value data = "") then inr None
  else match ConvertInt64 (raw_value data) with
       | None => inl [InvalidType name]
       | Some n => inr (Some n)
       end.

Definition BindRequest_ListDAGs (q : gmap string (list string)) : bound ListDAGsParams :=
  match bind_int64 "limit" (values q "limit"), bind_int64 "page" (values q "page") with
  | inr limit, inr page => inr (mkListParams page limit (bind_query (values q "searchName")) (bind_query (values q "searchTag")))
  | inl a, inl b => inl (a ++ b)
  | inl a, inr _ => inl a
  | inr _, inl b => inl b
  end.

End binding.

Definition BindRequest_GetDAGDetails (dagId : list string) (q : gmap string (list string)) : bound DetailsParams :=
  inr (mkDetails (bind_path dagId) (bind_query (values q "file")) (bind_query (values q "step")) (bind_query (values q "tab"))).

Definition BindRequest_SearchDAGs (q : gmap string (list string)) : bound string :=
  match q !! "q" with
  | None => inl [Required "q"]
  | Some data => if bool_decide (raw_value data = "") then inl [Required "q"] else inr (raw_value data)
  end.

Definition BindRequest_PostDAGAction (body : option (option models.PostDAGActionRequest.t)) (dagId : list string)
    : bound (models.PostDAGActionRequest.t * string) :=
  match bind_body Validate_PostDAGActionRequest body with inl e => inl e | inr b => inr (b, bind_path dagId) end.

Definition BindRequest_CreateDAG (body : option (option models.CreateDAGRequest.t)) : bound models.CreateDAGRequest.t :=
  bind_body Validate_CreateDAGRequest body.

Definition BindRequest_DeleteDAG (dagId : list string) : bound string := inr (bind_path dagId).

(** The operations on Python files: creation, update (the name of the path is
    bound and not used), reading and deletion by name. *)
Definition BindRequest_CreatePythonFile (body : option (option models.PythonFile.t)) : bound models.PythonFile.t :=
  bind_body Validate_PythonFile body.

Definition BindRequest_UpdatePythonFile (body : option (option models.PythonFile.t)) (name : list string)
    : bound (models.PythonFile.t * string) :=
  match bind_body Validate_PythonFile body with inl e => inl e | inr b => inr (b, bind_path name) end.

Definition BindRequest_GetPythonFile (name : list string) : bound string := inr (bind_path name).
Definition BindRequest_DeletePythonFile (name : list string) : bound string := inr (bind_path name).

(** ** Answers *)

Inductive responder (A : Type) :=
| Responded (code : Z) (payload : option A)
| DefaultError (code : Z) (payload : option models.Error.t)
| Forwarded (code : Z) (data : string)
| Panicked (e : error).
Arguments Responded {A} code payload.
Arguments DefaultError {A} code payload.
Arguments Forwarded {A} code data.
Arguments Panicked {A} e.

Definition APIError (e : codedError) : models.Error.t := models.Error.mk (Some (ce_Code e)) None (ce_Message e).

(** [responderWithCodedError]. *)
Definition responderWithCodedError {A} (e : codedError) : responder A := DefaultError (ce_HTTPCode e) (Some (APIError e)).

(** Another node first, then the handler. *)
Definition respond {W A} (proxy : proxied) (handle : W -> W * answer A) (w : W) : W * responder A :=
  match proxy with
  | HandleLocally =>
      match handle w with
      | (w, Answer a) => (w, Responded 200 (Some a))
      | (w, Coded e) => (w, responderWithCodedError e)
      | (w, Panic e) => (w, Panicked e)
      end
  | Refuse code => (w, DefaultError code None)
  | ProxyError e => (w, responderWithCodedError e)
  | Relay code data => (w, Forwarded code data)
  end.

Section dag_routes.
Context {W : Type} `{!HistoryStore W, !DAGStore W, !FlagStore W}.
Context (md5hex : string -> string) (request : string -> string -> string -> W -> W * result string).
Context (StatusFromJSON : string -> result MStatus.t) (exec : list string -> W -> W * option error).
Context (FileExists : string -> W -> bool) (fmt_rfc3339 : Z -> string) (order : Z -> nat -> list Z).
Context (is_print : Z -> bool) (rune_lower : Z -> Z).
Context (ParseStatusFile : string -> W -> result MStatus.t) (ReadFile : string -> W -> result string).
Context (read_eucjp : string -> W -> result string) (logEncodingCharset : string).
(** The question for another node, as [handleRemoteNodeProxy] answers it for the
    request and the body it is given. *)
Context (proxy_of : option (result string) -> incoming -> proxied) (marshal_create : models.CreateDAGRequest.t -> result string).
Context (marshal_action : models.PostDAGActionRequest.t -> result string).

Definition route_ListDAGs (r : incoming) (params : ListDAGsParams) (w : W) :=
  respond (proxy_of None r) (getList md5hex request StatusFromJSON fmt_rfc3339 params) w.

Definition route_GetDAGDetails (r : incoming) (params : DetailsParams) (w : W) :=
  respond (proxy_of None r)
    (getDetail md5hex request StatusFromJSON fmt_rfc3339 order rune_lower ParseStatusFile ReadFile read_eucjp logEncodingCharset params) w.

Definition route_PostDAGAction (r : incoming) (params : models.PostDAGActionRequest.t * string) (w : W) :=
  respond (proxy_of (Some (marshal_action (fst params))) r)
    (postAction md5hex request StatusFromJSON exec FileExists fmt_rfc3339 order is_print (snd params) (fst params)) w.

Definition route_CreateDAG (r : incoming) (body : models.CreateDAGRequest.t) (w : W) :=
  respond (proxy_of (Some (marshal_create body)) r) (handle_createDAG body) w.

(** Nothing is sent with the answer to a deletion. *)
Definition route_DeleteDAG (r : incoming) (dagID : string) (w : W) : W * responder unit :=
  match respond (proxy_of None r)
          (fun w => match handle_deleteDAG md5hex request StatusFromJSON fmt_rfc3339 order dagID w with
                    | (w, None) => (w, Answer tt)
                    | (w, Some e) => (w, Coded e)
                    end) w with
  | (w, Responded code _) => (w, Responded code None)
  | other => other
  end.

Definition route_SearchDAGs (r : incoming) (query : string) (w : W) :=
  respond (proxy_of None r) (searchDAGs query) w.

Definition route_ListTags (r : incoming) (w : W) :=
  respond (proxy_of None r) getTagList w.

End dag_routes.

(** ** Python files *)

Record PythonFile := mkPython { py_Name : string; py_Content : string }.

Definition pythonFilesDir : string := "python_files".

Definition python_path (name : string) : string := Join [pythonFilesDir; name].

Section python.
Context (o : os).
(** [os.ReadDir]: names and whether they are directories. *)
Context (ReadDir : fs -> string -> result (list (string * bool))).

Definition ListPythonFiles (f : fs) : result (list string) :=
  match ReadDir f pythonFilesDir with
  | Err e => Err e
  | Ok entries => Ok (fst <$> List.filter (fun en => negb (snd en) && has_suffix (fst en) ".py") entries)
  end.

(** [os.ReadFile]. *)
Definition read_path (f : fs) (p : string) : result string :=
  match f !! p with
  | None => Err ErrNotExist
  | Some fl => match os_open o p with Some e => Err e | None => Ok (l2s (f_content fl)) end
  end.

Definition GetPythonFile (name : string) (f : fs) : result PythonFile :=
  match read_path f (python_path name) with
  | Err e => Err e
  | Ok content => Ok (mkPython name content)
  end.

(** The name gets its extension also in the caller's record. *)
Definition python_name (name : string) : string := if has_suffix name ".py" then name else name +:+ ".py".

Definition SavePythonFile (file : PythonFile) (f : fs) : fs * option error :=
  write_file o f (python_path (python_name (py_Name file))) (s2l (py_Content file)).

Definition DeletePythonFile (name : string) (f : fs) : fs * option error := remove o f (python_path name).

Definition python_error {A} (e : error) : responder A :=
  DefaultError 500 (Some (models.Error.mk (Some models.ErrorCodeInternalError) None (Some (error_text e)))).

Definition route_ListPythonFiles (f : fs) : fs * responder (list models.PythonFile.t) :=
  (f, match ListPythonFiles f with
      | Err e => python_error e
      | Ok files => Responded 200 (Some ((fun name => models.PythonFile.mk None (Some name)) <$> files))
      end).

Definition route_GetPythonFile (name : string) (f : fs) : fs * responder models.PythonFile.t :=
  (f, match GetPythonFile name f with
      | Err e => python_error e
      | Ok file => Responded 200 (Some (models.PythonFile.mk (Some (py_Content file)) (Some (py_Name file))))
      end).

(** A body without a name or content would be dereferenced; validation keeps it
    out. *)
Definition save_body (code : Z) (body : models.PythonFile.t) (f : fs) : fs * responder models.PythonFile.t :=
  match models.PythonFile.Name body, models.PythonFile.Content body with
  | Some name, Some content =>
      match SavePythonFile (mkPython name content) f with
      | (f, Some e) => (f, python_error e)
      | (f, None) => (f, Responded code (Some body))
      end
  | _, _ => (f, Panicked (panic "nil dereference"))
  end.

Definition route_CreatePythonFile (body : models.PythonFile.t) (f : fs) := save_body 201 body f.
Definition route_UpdatePythonFile (params : models.PythonFile.t * string) (f : fs) := save_body 200 (fst params) f.

Definition route_DeletePythonFile (name : string) (f : fs) : fs * responder models.PythonFile.t :=
  match DeletePythonFile name f with
  | (f, Some e) => (f, python_error e)
  | (f, None) => (f, Responded 204 None)
  end.

End python.

(** ** Lemmas *)

(** A body that was bound is complete: it is not dereferenced to nothing. *)
Lemma bound_python_file_saved o (body : option (option models.PythonFile.t)) (b : models.PythonFile.t) code f :
  BindRequest_CreatePythonFile body = inr b ->
  exists name content, b = models.PythonFile.mk (Some content) (Some name) /\
    save_body o code b f =
    match SavePythonFile o (mkPython name content) f with
    | (f, Some e) => (f, python_error e)
    | (f, None) => (f, Responded code (Some b))
    end.
Proof.
  unfold BindRequest_CreatePythonFile, bind_body. destruct body as [[[[content|] [name|]]|]|]; simpl; try done.
  intros [= <-]. by exists name, content.
Qed.

(** A file that was saved is read back by the name it got. *)
Lemma saved_python_file o name content f f' :
  SavePythonFile o (mkPython name content) f = (f', None) ->
  GetPythonFile o (python_name name) f' = Ok (mkPython (python_name name) content).
Proof.
  unfold SavePythonFile, write_file, GetPythonFile, read_path. simpl.
  destruct (os_open o _); [done|]. destruct (os_write o _) as [[n e]|]; [done|].
  intros [= <-]. rewrite lookup_insert_eq. simpl. by rewrite l2s_s2l.
Qed.

(** A name can lead out of the directory: any file can be read, written and
    removed. *)
Example python_name_escapes : python_path "../../etc/passwd" = "../etc/passwd".
Proof. reflexivity. Qed.
