(* ===== verification/ApiUrls.v ===== *)
(** * Addresses of operations: gen/restapi/operations, the url builders

    What the builders use of net/url (escaping, query strings, [URL.String]), one
    module per builder with its fields, [Build], [BuildFull] and their texts, and the
    way back: the query string of an address is read as the parameters it was built
    from. *)

From S2P Require Import Prelude GoStrings Utf8 Digraph Paths History Client DagStore ApiSpec Handlers Routes.
Import PathProps.
From Stdlib Require Import Ascii DecimalString DecimalZ.

(** ** net/url *)

Inductive encoding := encodePath | encodeHost | encodeQueryComponent.

Definition alnum (c : ascii) : bool :=
  let z := byte_z c in
  ((97 <=? z) && (z <=? 122) || (65 <=? z) && (z <=? 90) || (48 <=? z) && (z <=? 57))%Z.

(** Whether [escape] leaves a byte as it is. *)
Definition shouldEscape (c : ascii) (mode : encoding) : bool :=
  if alnum c then false
  else if match mode with encodeHost => bool_decide (c ∈ s2l "!$&'()*+,;=:[]<>" ++ s2l dq) | _ => false end then false
  else if bool_decide (c ∈ s2l "-_.~") then false
  else match mode with
       | encodePath => negb (bool_decide (c ∈ s2l "$&+,/:;=@"))
       | _ => true
       end.

Definition upperhex (n : Z) : ascii := z_byte (if (n <? 10)%Z then 48 + n else 55 + n)%Z.

Definition escape_byte (mode : encoding) (c : ascii) : bytes :=
  if shouldEscape c mode then
    match mode with
    | encodeQueryComponent =>
        if bool_decide (c = " "%char) then ["+"%char]
        else ["%"%char; upperhex (byte_z c / 16); upperhex (byte_z c mod 16)]
    | _ => ["%"%char; upperhex (byte_z c / 16); upperhex (byte_z c mod 16)]
    end
  else [c].

Definition escape (mode : encoding) (s : string) : string := l2s (s2l s ≫= escape_byte mode).
Definition QueryEscape (s : string) : string := escape encodeQueryComponent s.

Definition unhex (c : ascii) : option Z :=
  let z := byte_z c in
  (if (48 <=? z) && (z <=? 57) then Some (z - 48)
   else if (97 <=? z) && (z <=? 102) then Some (z - 87)
   else if (65 <=? z) && (z <=? 70) then Some (z - 55) else None)%Z.

Fixpoint unescape_query (l : bytes) : option bytes :=
  match l with
  | [] => Some []
  | c :: l =>
      if bool_decide (c = "%"%char) then
        match l with
        | a :: b :: l =>
            match unhex a, unhex b with
            | Some x, Some y => cons (z_byte (x * 16 + y)%Z) <$> unescape_query l
            | _, _ => None
            end
        | _ => None
        end
      else cons (if bool_decide (c = "+"%char) then " "%char else c) <$> unescape_query l
  end.

Definition QueryUnescape (s : string) : option string := l2s <$> unescape_query (s2l s).

(** [url.PathUnescape]: a plus is a plus. *)
Fixpoint unescape_path (l : bytes) : option bytes :=
  match l with
  | [] => Some []
  | c :: l =>
      if bool_decide (c = "%"%char) then
        match l with
        | a :: b :: l =>
            match unhex a, unhex b with
            | Some x, Some y => cons (z_byte (x * 16 + y)%Z) <$> unescape_path l
            | _, _ => None
            end
        | _ => None
        end
      else cons c <$> unescape_path l
  end.

Definition PathUnescape (s : string) : option string := l2s <$> unescape_path (s2l s).

(** [url.Values]. *)
Abbreviation Values := (gmap string (list string)).

Definition set_value (key value : string) (v : Values) : Values := <[key := [value]]> v.
Definition add_value (key value : string) (v : Values) : Values := <[key := default [] (v !! key) ++ [value]]> v.

(** [Values.Encode]: sorted by key. *)
Definition pairs_of (v : Values) : list (string * string) :=
  merge_sort String.le (fst <$> map_to_list v) ≫= (fun k => pair k <$> default [] (v !! k)).

Definition Encode (v : Values) : string :=
  join ((fun p => QueryEscape (fst p) +:+ "=" +:+ QueryEscape (snd p)) <$> pairs_of v) "&".

(** One setting of a query string: what [ParseQuery] adds for it. *)
Definition parse_setting (v : Values) (setting : string) : Values :=
  if contains setting ";" || bool_decide (setting = "") then v
  else
    let '(k, x) := match cutl (s2l "=") (s2l setting) with
                   | Some (a, b) => (l2s a, l2s b)
                   | None => (setting, "")
                   end in
    match QueryUnescape k, QueryUnescape x with
    | Some k, Some x => add_value k x v
    | _, _ => v
    end.

(** [URL.Query]: what cannot be read is left out. *)
Definition Query (rawQuery : string) : Values := foldl parse_setting ∅ (split rawQuery "&").

Record URL := mkURL { url_Scheme : string; url_Host : string; url_Path : string; url_RawQuery : string }.

(** [URL.EscapedPath] of an address without a raw path. *)
Definition EscapedPath (u : URL) : string := if bool_decide (url_Path u = "*") then "*" else escape encodePath (url_Path u).

Definition first_segment (p : string) : string := match cutl (s2l "/") (s2l p) with Some (a, _) => l2s a | None => p end.

(** [URL.String] without user, fragment and raw path. *)
Definition URL_String (u : URL) : string :=
  let head :=
    (if bool_decide (url_Scheme u <> "") then url_Scheme u +:+ ":" else "") +:+
    (if (bool_decide (url_Scheme u <> "") || bool_decide (url_Host u <> "")) &&
        (bool_decide (url_Host u <> "") || bool_decide (url_Path u <> ""))
     then "//" +:+ (if bool_decide (url_Host u <> "") then escape encodeHost (url_Host u) else "") else "") in
  let path := EscapedPath u in
  head +:+
  (if bool_decide (path <> "") && negb (has_prefix path "/") && bool_decide (url_Host u <> "") then "/" else "") +:+
  (if bool_decide (head = "") && contains (first_segment path) ":" then "./" else "") +:+ path +:+
  (if bool_decide (url_RawQuery u <> "") then "?" +:+ url_RawQuery u else "").

(** ** The shapes of the builders *)

Definition base_or (bp : string) : string := if bool_decide (bp = "") then basePath else bp.

(** The value of a parameter in the path; it must not be empty. *)
Definition path_value (urlname name value pattern : string) : result string :=
  if bool_decide (value = "") then Err (ENew (name +:+ " is required on " +:+ urlname))
  else Ok (replace_all pattern ("{" +:+ name +:+ "}") value).

Definition set_query (key value : string) (qs : Values) : Values := if bool_decide (value = "") then qs else set_value key value qs.

Definition build_path (bp path rawQuery : string) : URL := mkURL "" "" (Join [base_or bp; path]) rawQuery.

Definition build_full (urlname : string) (build : result URL) (scheme host : string) : result URL :=
  if bool_decide (scheme = "") then Err (ENew ("scheme is required for a full url on " +:+ urlname))
  else if bool_decide (host = "") then Err (ENew ("host is required for a full url on " +:+ urlname))
  else match build with
       | Err e => Err e
       | Ok base => Ok (mkURL scheme host (url_Path base) (url_RawQuery base))
       end.

(** [Must]: a panic with the error. *)
Definition must (u : result URL) : result URL := match u with Ok u => Ok u | Err e => Err (panic (error_text e)) end.
Definition text_of (u : result URL) : result string := match must u with Ok u => Ok (URL_String u) | Err e => Err e end.

(** ** The builders *)

Module CreateDAGURL.
Record t := mk { _basePath : string }.
Definition SetBasePath (o : t) (bp : string) : t := mk bp.
Definition WithBasePath (o : t) (bp : string) : t := SetBasePath o bp.
Definition Build (o : t) : result URL :=
  Ok (build_path (_basePath o) "/dags" "").
Definition Must (u : result URL) : result URL := must u.
Definition String_ (o : t) : result string := text_of (Build o).
Definition BuildFull (o : t) (scheme host : string) : result URL := build_full "CreateDAGURL" (Build o) scheme host.
Definition StringFull (o : t) (scheme host : string) : result string := text_of (BuildFull o scheme host).
End CreateDAGURL.

Module DeleteDAGURL.
Record t := mk { DagID : string; _basePath : string }.
Definition SetBasePath (o : t) (bp : string) : t := mk (DagID o) bp.
Definition WithBasePath (o : t) (bp : string) : t := SetBasePath o bp.
Definition Build (o : t) : result URL :=
  match path_value "DeleteDAGURL" "dagId" (DagID o) "/dags/{dagId}" with
  | Err e => Err e
  | Ok path => Ok (build_path (_basePath o) path "")
  end.
Definition Must (u : result URL) : result URL := must u.
Definition String_ (o : t) : result string := text_of (Build o).
Definition BuildFull (o : t) (scheme host : string) : result URL := build_full "DeleteDAGURL" (Build o) scheme host.
Definition StringFull (o : t) (scheme host : string) : result string := text_of (BuildFull o scheme host).
End DeleteDAGURL.

Module GetDAGDetailsURL.
Record t := mk { DagID : string; File : option string; Step : option string; Tab : option string; _basePath : string }.
Definition SetBasePath (o : t) (bp : string) : t := mk (DagID o) (File o) (Step o) (Tab o) bp.
Definition WithBasePath (o : t) (bp : string) : t := SetBasePath o bp.
Definition Build (o : t) : result URL :=
  match path_value "GetDAGDetailsURL" "dagId" (DagID o) "/dags/{dagId}" with
  | Err e => Err e
  | Ok path => Ok (build_path (_basePath o) path (Encode (set_query "tab" (default "" (Tab o)) (set_query "step" (default "" (Step o)) (set_query "file" (default "" (File o)) (∅ : Values))))))
  end.
Definition Must (u : result URL) : result URL := must u.
Definition String_ (o : t) : result string := text_of (Build o).
Definition BuildFull (o : t) (scheme host : string) : result URL := build_full "GetDAGDetailsURL" (Build o) scheme host.
Definition StringFull (o : t) (scheme host : string) : result string := text_of (BuildFull o scheme host).
End GetDAGDetailsURL.

(** [Limit] and [Page] hold values of type [int64], see [typed]. *)
Module ListDAGsURL.
Record t := mk { Limit : option Z; Page : option Z; SearchName : option string; SearchTag : option string; _basePath : string }.
Definition SetBasePath (o : t) (bp : string) : t := mk (Limit o) (Page o) (SearchName o) (SearchTag o) bp.
Definition WithBasePath (o : t) (bp : string) : t := SetBasePath o bp.
Definition Build (FormatInt64 : Z -> string) (o : t) : result URL :=
  Ok (build_path (_basePath o) "/dags" (Encode (set_query "searchTag" (default "" (SearchTag o)) (set_query "searchName" (default "" (SearchName o)) (set_query "page" (default "" (FormatInt64 <$> Page o)) (set_query "limit" (default "" (FormatInt64 <$> Limit o)) (∅ : Values))))))).
Definition Must (u : result URL) : result URL := must u.
Definition String_ (FormatInt64 : Z -> string) (o : t) : result string := text_of (Build FormatInt64 o).
Definition BuildFull (FormatInt64 : Z -> string) (o : t) (scheme host : string) : result URL := build_full "ListDAGsURL" (Build FormatInt64 o) scheme host.
Definition StringFull (FormatInt64 : Z -> string) (o : t) (scheme host : string) : result string := text_of (BuildFull FormatInt64 o scheme host).
End ListDAGsURL.

Module ListTagsURL.
Record t := mk { _basePath : string }.
Definition SetBasePath (o : t) (bp : string) : t := mk bp.
Definition WithBasePath (o : t) (bp : string) : t := SetBasePath o bp.
Definition Build (o : t) : result URL :=
  Ok (build_path (_basePath o) "/tags" "").
Definition Must (u : result URL) : result URL := must u.
Definition String_ (o : t) : result string := text_of (Build o).
Definition BuildFull (o : t) (scheme host : string) : result URL := build_full "ListTagsURL" (Build o) scheme host.
Definition StringFull (o : t) (scheme host : string) : result string := text_of (BuildFull o scheme host).
End ListTagsURL.

Module PostDAGActionURL.
Record t := mk { DagID : string; _basePath : string }.
Definition SetBasePath (o : t) (bp : string) : t := mk (DagID o) bp.
Definition WithBasePath (o : t) (bp : string) : t := SetBasePath o bp.
Definition Build (o : t) : result URL :=
  match path_value "PostDAGActionURL" "dagId" (DagID o) "/dags/{dagId}" with
  | Err e => Err e
  | Ok path => Ok (build_path (_basePath o) path "")
  end.
Definition Must (u : result URL) : result URL := must u.
Definition String_ (o : t) : result string := text_of (Build o).
Definition BuildFull (o : t) (scheme host : string) : result URL := build_full "PostDAGActionURL" (Build o) scheme host.
Definition StringFull (o : t) (scheme host : string) : result string := text_of (BuildFull o scheme host).
End PostDAGActionURL.

Module SearchDAGsURL.
Record t := mk { Q : string; _basePath : string }.
Definition SetBasePath (o : t) (bp : string) : t := mk (Q o) bp.
Definition WithBasePath (o : t) (bp : string) : t := SetBasePath o bp.
Definition Build (o : t) : result URL :=
  Ok (build_path (_basePath o) "/search" (Encode (set_query "q" (Q o) (∅ : Values)))).
Definition Must (u : result URL) : result URL := must u.
Definition String_ (o : t) : result string := text_of (Build o).
Definition BuildFull (o : t) (scheme host : string) : result URL := build_full "SearchDAGsURL" (Build o) scheme host.
Definition StringFull (o : t) (scheme host : string) : result string := text_of (BuildFull o scheme host).
End SearchDAGsURL.

Module CreatePythonFileURL.
Record t := mk { _basePath : string }.
Definition SetBasePath (o : t) (bp : string) : t := mk bp.
Definition WithBasePath (o : t) (bp : string) : t := SetBasePath o bp.
Definition Build (o : t) : result URL :=
  Ok (build_path (_basePath o) "/python-files" "").
Definition Must (u : result URL) : result URL := must u.
Definition String_ (o : t) : result string := text_of (Build o).
Definition BuildFull (o : t) (scheme host : string) : result URL := build_full "CreatePythonFileURL" (Build o) scheme host.
Definition StringFull (o : t) (scheme host : string) : result string := text_of (BuildFull o scheme host).
End CreatePythonFileURL.

Module DeletePythonFileURL.
Record t := mk { Name : string; _basePath : string }.
Definition SetBasePath (o : t) (bp : string) : t := mk (Name o) bp.
Definition WithBasePath (o : t) (bp : string) : t := SetBasePath o bp.
Definition Build (o : t) : result URL :=
  match path_value "DeletePythonFileURL" "name" (Name o) "/python-files/{name}" with
  | Err e => Err e
  | Ok path => Ok (build_path (_basePath o) path "")
  end.
Definition Must (u : result URL) : result URL := must u.
Definition String_ (o : t) : result string := text_of (Build o).
Definition BuildFull (o : t) (scheme host : string) : result URL := build_full "DeletePythonFileURL" (Build o) scheme host.
Definition StringFull (o : t) (scheme host : string) : result string := text_of (BuildFull o scheme host).
End DeletePythonFileURL.

Module GetPythonFileURL.
Record t := mk { Name : string; _basePath : string }.
Definition SetBasePath (o : t) (bp : string) : t := mk (Name o) bp.
Definition WithBasePath (o : t) (bp : string) : t := SetBasePath o bp.
Definition Build (o : t) : result URL :=
  match path_value "GetPythonFileURL" "name" (Name o) "/python-files/{name}" with
  | Err e => Err e
  | Ok path => Ok (build_path (_basePath o) path "")
  end.
Definition Must (u : result URL) : result URL := must u.
Definition String_ (o : t) : result string := text_of (Build o).
Definition BuildFull (o : t) (scheme host : string) : result URL := build_full "GetPythonFileURL" (Build o) scheme host.
Definition StringFull (o : t) (scheme host : string) : result string := text_of (BuildFull o scheme host).
End GetPythonFileURL.

Module ListPythonFilesURL.
Record t := mk { _basePath : string }.
Definition SetBasePath (o : t) (bp : string) : t := mk bp.
Definition WithBasePath (o : t) (bp : string) : t := SetBasePath o bp.
Definition Build (o : t) : result URL :=
  Ok (build_path (_basePath o) "/python-files" "").
Definition Must (u : result URL) : result URL := must u.
Definition String_ (o : t) : result string := text_of (Build o).
Definition BuildFull (o : t) (scheme host : string) : result URL := build_full "ListPythonFilesURL" (Build o) scheme host.
Definition StringFull (o : t) (scheme host : string) : result string := text_of (BuildFull o scheme host).
End ListPythonFilesURL.

Module UpdatePythonFileURL.
Record t := mk { Name : string; _basePath : string }.
Definition SetBasePath (o : t) (bp : string) : t := mk (Name o) bp.
Definition WithBasePath (o : t) (bp : string) : t := SetBasePath o bp.
Definition Build (o : t) : result URL :=
  match path_value "UpdatePythonFileURL" "name" (Name o) "/python-files/{name}" with
  | Err e => Err e
  | Ok path => Ok (build_path (_basePath o) path "")
  end.
Definition Must (u : result URL) : result URL := must u.
Definition String_ (o : t) : result string := text_of (Build o).
Definition BuildFull (o : t) (scheme host : string) : result URL := build_full "UpdatePythonFileURL" (Build o) scheme host.
Definition StringFull (o : t) (scheme host : string) : result string := text_of (BuildFull o scheme host).
End UpdatePythonFileURL.

Module GetHealthURL.
Record t := mk { _basePath : string }.
Definition SetBasePath (o : t) (bp : string) : t := mk bp.
Definition WithBasePath (o : t) (bp : string) : t := SetBasePath o bp.
Definition Build (o : t) : result URL :=
  Ok (build_path (_basePath o) "/health" "").
Definition Must (u : result URL) : result URL := must u.
Definition String_ (o : t) : result string := text_of (Build o).
Definition BuildFull (o : t) (scheme host : string) : result URL := build_full "GetHealthURL" (Build o) scheme host.
Definition StringFull (o : t) (scheme host : string) : result string := text_of (BuildFull o scheme host).
End GetHealthURL.

(** ** Lemmas *)

Lemma unescape_byte c l : unescape_query (escape_byte encodeQueryComponent c ++ l) = cons c <$> unescape_query l.
Proof. destruct c as [[] [] [] [] [] [] [] []]; reflexivity. Qed.

(** Query components are read back. *)
Lemma QueryUnescape_QueryEscape s : QueryUnescape (QueryEscape s) = Some s.
Proof.
  unfold QueryUnescape, QueryEscape, escape. rewrite s2l_l2s.
  assert (unescape_query (s2l s ≫= escape_byte encodeQueryComponent) = Some (s2l s)) as ->; [|simpl; by rewrite l2s_s2l].
  induction (s2l s) as [|c l IH]; [done|]. cbn [mbind list_bind]. by rewrite unescape_byte, IH.
Qed.

(** They hold no separator. *)
Definition separators : bytes := s2l "&=;".

Lemma escape_byte_safe c : Forall (fun b => b ∉ separators) (escape_byte encodeQueryComponent c).
Proof.
  assert (forall c, forallb (fun b => negb (bool_decide (b ∈ separators))) (escape_byte encodeQueryComponent c) = true) as H
    by (clear; intros [[] [] [] [] [] [] [] []]; reflexivity).
  apply Forall_forall. intros b Hb Hin. specialize (H c). rewrite forallb_forall in H.
  rewrite list_elem_of_In in Hb. apply H in Hb. by rewrite bool_decide_true in Hb.
Qed.

Lemma QueryEscape_safe s c : c ∈ separators -> c ∉ s2l (QueryEscape s).
Proof.
  intros Hc. unfold QueryEscape, escape. rewrite s2l_l2s. intros Hin. apply list_elem_of_bind in Hin as (b & Hb & _).
  pose proof (escape_byte_safe b) as H. rewrite Forall_forall in H. by apply (H c).
Qed.

Definition setting_of (p : string * string) : string := QueryEscape (fst p) +:+ "=" +:+ QueryEscape (snd p).

Lemma setting_without p c : c ∈ separators -> c <> "="%char -> c ∉ s2l (setting_of p).
Proof.
  intros Hc Hne. unfold setting_of. rewrite !s2l_app, !not_elem_of_app. split_and!.
  - exact (QueryEscape_safe _ _ Hc).
  - change (c ∉ ["="%char]). by rewrite list_elem_of_singleton.
  - exact (QueryEscape_safe _ _ Hc).
Qed.

Lemma contains_char s c : contains s (String.String c String.EmptyString) = false <-> c ∉ s2l s.
Proof. rewrite contains_false_cutl. apply cutl_char. Qed.

Lemma parse_setting_of v p : parse_setting v (setting_of p) = add_value (fst p) (snd p) v.
Proof.
  unfold parse_setting. destruct p as [k x]. cbn [fst snd].
  assert (contains (setting_of (k, x)) ";" = false) as ->.
  { apply contains_char. apply setting_without; [|done]. unfold separators. cbn. set_solver. }
  rewrite bool_decide_false; [cbn [orb]|].
  - unfold setting_of. cbn [fst snd]. rewrite !s2l_app. rewrite cutl_app; [| done | done |].
    + by rewrite !l2s_s2l, !QueryUnescape_QueryEscape.
    + apply cutl_char, QueryEscape_safe. unfold separators. cbn. set_solver.
  - intros H. apply (f_equal s2l) in H. unfold setting_of in H. rewrite !s2l_app in H.
    apply (f_equal length) in H. rewrite !length_app in H. change (length (s2l "=")) with 1 in H. simpl in H. lia.
Qed.

Definition add_pair (v : Values) (p : string * string) : Values := add_value (fst p) (snd p) v.

Lemma Query_settings ps : Query (join (setting_of <$> ps) "&") = foldl add_pair ∅ ps.
Proof.
  unfold Query. destruct ps as [|p ps]; [done|].
  rewrite split_join; [|done|done|done|].
  - generalize (∅ : Values). induction (p :: ps) as [|q qs IH]; intros v; [done|]. cbn [fmap list_fmap foldl]. by rewrite parse_setting_of, IH.
  - apply Forall_fmap, Forall_true. intros q. apply contains_char, setting_without; [|done]. unfold separators. cbn. set_solver.
Qed.

Lemma lookup_add_pairs ps : forall v k,
  foldl add_pair v ps !! k =
  match v !! k, snd <$> filter (fun p : string * string => fst p = k) ps with
  | None, [] => None
  | o, xs => Some (default [] o ++ xs)
  end.
Proof.
  induction ps as [|[k' x] ps IH]; intros v k.
  - simpl. destruct (v !! k); simpl; [by rewrite app_nil_r|done].
  - cbn [foldl]. rewrite IH. unfold add_pair, add_value. cbn [fst snd]. rewrite filter_cons. case_decide as E; cbn [fst] in E.
    + subst k'. rewrite lookup_insert_eq. cbn [fmap list_fmap snd default]. destruct (v !! k); simpl; [by rewrite <- app_assoc|done].
    + by rewrite lookup_insert_ne.
Qed.

Lemma pairs_of_key v k : snd <$> filter (fun p : string * string => fst p = k) (pairs_of v) = default [] (v !! k).
Proof.
  unfold pairs_of. set (ks := merge_sort String.le (fst <$> map_to_list v)).
  assert (NoDup ks /\ (k ∈ ks <-> is_Some (v !! k))) as [Hd Hk].
  { assert (ks ≡ₚ fst <$> map_to_list v) as Hp by apply merge_sort_Permutation.
    split; [rewrite Hp; apply NoDup_fst_map_to_list|]. rewrite Hp, list_elem_of_fmap. split.
    - intros ([k' x] & -> & Hin%elem_of_map_to_list). by exists x.
    - intros [x Hx]. exists (k, x). split; [done|]. by apply elem_of_map_to_list. }
  assert (forall l, NoDup l -> snd <$> filter (fun p : string * string => fst p = k) (l ≫= (fun k => pair k <$> default [] (v !! k))) =
    if bool_decide (k ∈ l) then default [] (v !! k) else []) as H.
  { clear. intros l. induction l as [|k' l IH]; intros Hd; [done|]. apply NoDup_cons in Hd as [Hk Hd].
    cbn [mbind list_bind]. rewrite filter_app, fmap_app, IH by done.
    assert (forall xs : list string, snd <$> filter (fun p : string * string => fst p = k) (pair k' <$> xs) = if decide (k' = k) then xs else []) as Hp.
    { intros xs. induction xs as [|x xs IHx]; [by destruct (decide (k' = k))|]. cbn [fmap list_fmap]. rewrite filter_cons. cbn [fst].
      destruct (decide (k' = k)); [|exact IHx]. cbn [fmap list_fmap snd]. f_equal. exact IHx. }
    rewrite Hp. destruct (decide (k' = k)) as [->|Hne].
    - rewrite (bool_decide_true (k ∈ k :: l)) by (by left). rewrite (bool_decide_false (k ∈ l)) by done. by rewrite app_nil_r.
    - rewrite (bool_decide_ext (k ∈ k' :: l) (k ∈ l)); [done|]. rewrite elem_of_cons. naive_solver. }
  rewrite H by done. case_bool_decide as Hin; [done|]. destruct (v !! k) eqn:E; [|done]. exfalso. apply Hin, Hk. by eexists.
Qed.

(** A query string is read as the settings it was made of. *)
Lemma Query_Encode v : map_Forall (fun _ xs => xs <> []) v -> Query (Encode v) = v.
Proof.
  intros Hv. unfold Encode. change (Query (join (setting_of <$> pairs_of v) "&") = v). rewrite Query_settings.
  apply map_eq. intros k. rewrite lookup_add_pairs, pairs_of_key, lookup_empty.
  destruct (v !! k) as [xs|] eqn:E; [|done]. apply Hv in E. cbn [default]. by destruct xs.
Qed.

(** What a parameter is after the way: an empty one is not sent. *)
Definition given (v : option string) : option string := match v with Some s => if bool_decide (s = "") then None else Some s | None => None end.

Lemma raw_values_set_ne key key' value v : key <> key' -> values (set_query key value v) key' = values v key'.
Proof.
  intros Hne. unfold values, set_query, set_value. case_bool_decide; [done|]. by rewrite lookup_insert_ne.
Qed.

Lemma values_set key value v :
  v !! key = None -> values (set_query key value v) key = if bool_decide (value = "") then [] else [value].
Proof.
  intros Hv. unfold values, set_query, set_value. case_bool_decide; [by rewrite Hv|]. by rewrite lookup_insert_eq.
Qed.

Lemma set_query_nonempty key value v :
  map_Forall (fun _ xs => xs <> []) v -> map_Forall (fun _ (xs : list string) => xs <> []) (set_query key value v).
Proof. intros H. unfold set_query, set_value. case_bool_decide; [done|]. by apply map_Forall_insert_2. Qed.

Lemma set_query_fresh key key' value v : key <> key' -> v !! key' = None -> set_query key value v !! key' = None.
Proof. intros Hne Hv. unfold set_query, set_value. case_bool_decide; [done|]. by rewrite lookup_insert_ne. Qed.

Lemma bind_query_set value : bind_query (if bool_decide (value = "") then [] else [value]) = if bool_decide (value = "") then None else Some value.
Proof. unfold bind_query, raw_value. by repeat case_bool_decide. Qed.

Lemma bind_given v : (if bool_decide (default "" v = "") then None else Some (default "" v)) = given v.
Proof. by destruct v as [s|]. Qed.

(** The numbers of an address are of the type [int64]. *)
Definition typed (n : option Z) : Prop := from_option in_int64 True n.

Lemma bind_int64_format (FormatInt64 : Z -> string) ConvertInt64
    (Hint : forall n, in_int64 n -> FormatInt64 n <> "" /\ ConvertInt64 (FormatInt64 n) = Some n) name (n : option Z) (Hn : typed n) :
  let value := default "" (FormatInt64 <$> n) in
  bind_int64 ConvertInt64 name (if bool_decide (value = "") then [] else [value]) = inr n.
Proof.
  cbv zeta. destruct n as [n|]; [|done]. cbn [fmap option_fmap option_map default id]. destruct (Hint n Hn) as [Hn' Hc].
  rewrite bool_decide_false by done. unfold bind_int64, raw_value. cbn [last default id].
  by rewrite bool_decide_false, Hc.
Qed.

Ltac read_query :=
  repeat first
    [ rewrite raw_values_set_ne by done
    | rewrite values_set by (repeat apply set_query_fresh; done) ];
  rewrite ?bind_query_set, ?bind_given.

(** The path of an operation on one thing, under the base path of the document. *)
Lemma default_path seg value rawQuery :
  rooted_part (s2l seg) -> rooted_part (s2l value) ->
  url_Path (build_path "" ("/" +:+ seg +:+ "/" +:+ value) rawQuery) = basePath +:+ "/" +:+ seg +:+ "/" +:+ value.
Proof.
  intros Hs Hv. cbn [build_path url_Path]. change (base_or "") with basePath. unfold Join.
  assert ("/" +:+ seg +:+ "/" +:+ value <> "") as Hne by done.
  rewrite !filter_cons_True, filter_nil by done. unfold Clean. apply s2l_inj. rewrite s2l_l2s.
  set (cs := [s2l "api"; s2l "v1"; []; s2l seg; s2l value]).
  assert (s2l (join [basePath; "/" +:+ seg +:+ "/" +:+ value] "/") = slash :: joinl [slash] cs) as ->.
  { unfold join. rewrite s2l_l2s. cbn [fmap list_fmap joinl cs]. by rewrite !s2l_app. }
  rewrite cleanl_rooted by done. unfold clean_parts.
  assert (forall x, splitl (S (length (slash :: x))) [slash] (slash :: x) = [] :: splitl (S (length x)) [slash] x) as -> by done.
  rewrite splitl_joinl; [|done|done|done| |by apply length_joinl_count].
  - assert (foldl (clean_step true) [] ([] :: cs) = foldl (clean_step true) [s2l "v1"; s2l "api"] [s2l seg; s2l value]) as -> by done.
    rewrite (foldl_parts [s2l seg; s2l value]) by (apply Forall_cons_2; [done|]; apply Forall_cons_2; [done|constructor]). cbn [reverse rev_append app joinl]. by rewrite !s2l_app.
  - repeat constructor; by (apply Hs || apply Hv).
Qed.

Lemma replace_pattern value : replace_all "/dags/{dagId}" "{dagId}" value = "/dags/" +:+ value.
Proof.
  unfold replace_all. change (split "/dags/{dagId}" "{dagId}") with ["/dags/"; ""]. apply s2l_inj.
  unfold join. rewrite s2l_l2s, s2l_app. cbn [fmap list_fmap joinl]. by rewrite app_nil_r.
Qed.

(** A part of a path, escaped, is read back and has no slash. *)
Lemma unescape_path_byte c l : c <> "/"%char -> unescape_path (escape_byte encodePath c ++ l) = cons c <$> unescape_path l.
Proof. destruct c as [[] [] [] [] [] [] [] []]; reflexivity. Qed.

Lemma escape_path_byte_slash c : c <> "/"%char -> "/"%char ∉ escape_byte encodePath c.
Proof.
  assert (forallb (fun c => bool_decide (c = "/"%char) || negb (bool_decide ("/"%char ∈ escape_byte encodePath c)))
    (ascii_of_nat <$> seq 0 256) = true) as H by (vm_compute; reflexivity).
  intros Hc. rewrite forallb_forall in H. specialize (H c). rewrite <- list_elem_of_In, list_elem_of_fmap in H.
  rewrite (bool_decide_false (c = _)) in H by done. apply negb_true_iff, bool_decide_eq_false in H; [done|].
  exists (nat_of_ascii c). split; [by rewrite ascii_nat_embedding|]. apply elem_of_seq. pose proof (nat_ascii_bounded c). lia.
Qed.

Lemma PathUnescape_escape s : "/"%char ∉ s2l s -> PathUnescape (escape encodePath s) = Some s.
Proof.
  intros Hs. unfold PathUnescape, escape. rewrite s2l_l2s.
  assert (unescape_path (s2l s ≫= escape_byte encodePath) = Some (s2l s)) as ->; [|simpl; by rewrite l2s_s2l].
  induction (s2l s) as [|c l IH]; [done|]. apply not_elem_of_cons in Hs as [Hc Hs].
  cbn [mbind list_bind]. by rewrite unescape_path_byte, IH.
Qed.

Lemma escape_path_slash s : "/"%char ∉ s2l s -> "/"%char ∉ s2l (escape encodePath s).
Proof.
  intros Hs. unfold escape. rewrite s2l_l2s. intros (c & Hc & Hin)%list_elem_of_bind.
  apply (escape_path_byte_slash c); [|done]. intros ->. by apply Hs.
Qed.

Lemma escape_app mode s t : escape mode (s +:+ t) = escape mode s +:+ escape mode t.
Proof. unfold escape. apply s2l_inj. rewrite !s2l_app, !s2l_l2s. apply bind_app. Qed.

(** What the router of the runtime gives for the path of the details of a workflow:
    the part after the fixed ones, unescaped. *)
Definition routes_details (path_params : string -> gmap string (list string)) : Prop :=
  forall part value, part <> "" -> "/"%char ∉ s2l part -> PathUnescape part = Some value ->
    path_params (basePath +:+ "/dags/" +:+ part) = {[ "dagId" := [value] ]}.

(** C30: An address leads back to what it was built from.  The address of the details
    of a workflow whose name is one part of a path, under the base path of the
    document, is the path of the document with the name in it, and from it, as it is
    written in a request, the router and the binder get the parameters the address
    was built from; and from the query string of the address of a list the binder gets
    the parameters of that one; empty texts excepted, which are not sent.  Of the
    numbers, which are of type int64, it is relied on that they are read as they are
    written, and of the router that it unescapes the part of the path that stands
    for the name. *)
Theorem addresses_are_read (FormatInt64 : Z -> string) (ConvertInt64 : string -> option Z)
    (path_params : string -> gmap string (list string))
    (Hint : forall n, in_int64 n -> FormatInt64 n <> "" /\ ConvertInt64 (FormatInt64 n) = Some n)
    (Hroute : routes_details path_params) (d : GetDAGDetailsURL.t) (l : ListDAGsURL.t) (u v : URL)
    (Hd : GetDAGDetailsURL.Build d = Ok u) (Hl : ListDAGsURL.Build FormatInt64 l = Ok v)
    (Hbase : GetDAGDetailsURL._basePath d = "") (Hname : rooted_part (s2l (GetDAGDetailsURL.DagID d)))
    (Htyped : typed (ListDAGsURL.Limit l) /\ typed (ListDAGsURL.Page l)) :
  url_Path u = basePath +:+ "/dags/" +:+ GetDAGDetailsURL.DagID d /\
  BindRequest_GetDAGDetails (values (path_params (EscapedPath u)) "dagId") (Query (url_RawQuery u)) =
    inr (mkDetails (GetDAGDetailsURL.DagID d) (given (GetDAGDetailsURL.File d)) (given (GetDAGDetailsURL.Step d))
                   (given (GetDAGDetailsURL.Tab d))) /\
  BindRequest_ListDAGs ConvertInt64 (Query (url_RawQuery v)) =
    inr (mkListParams (ListDAGsURL.Page l) (ListDAGsURL.Limit l) (given (ListDAGsURL.SearchName l))
                      (given (ListDAGsURL.SearchTag l))).
Proof.
  unfold GetDAGDetailsURL.Build, path_value in Hd. case_bool_decide as Hid; [done|].
  injection Hd as <-. injection Hl as <-. change ("{" +:+ "dagId" +:+ "}") with "{dagId}".
  set (name := GetDAGDetailsURL.DagID d) in *.
  match goal with |- context [build_path _ _ ?q] => assert (url_Path (build_path (GetDAGDetailsURL._basePath d)
    (replace_all "/dags/{dagId}" "{dagId}" name) q) = basePath +:+ "/dags/" +:+ name) as Hp end.
  { rewrite replace_pattern, Hbase. apply (default_path "dags" _ _); [|done]. by split; [split_and!|]. }
  assert ("/"%char ∉ s2l name) as Hslash by (exact (proj1 (cutl_char _ _) (proj2 (proj2 (proj1 Hname))))).
  split; [exact Hp|]. split.
  - unfold EscapedPath. rewrite Hp, (bool_decide_false (_ = "*")) by done.
    rewrite !escape_app. change (escape encodePath basePath) with basePath.
    change (escape encodePath "/dags/") with "/dags/".
    rewrite (Hroute _ name); [| |by apply escape_path_slash|by apply PathUnescape_escape].
    + cbn [url_RawQuery build_path]. rewrite Query_Encode by (repeat apply set_query_nonempty; apply map_Forall_empty).
      unfold BindRequest_GetDAGDetails. read_query. done.
    + intros He. apply Hid. pose proof (PathUnescape_escape name Hslash) as Hu. rewrite He in Hu. by injection Hu.
  - cbn [url_RawQuery build_path]. rewrite Query_Encode by (repeat apply set_query_nonempty; apply map_Forall_empty).
    unfold BindRequest_ListDAGs. read_query. by rewrite !(bind_int64_format FormatInt64) by apply Htyped || apply Hint.
Qed.

(** Numbers as decimal texts. *)
Definition decimal (n : Z) : string := DecimalString.NilEmpty.string_of_int (Z.to_int n).
Definition of_decimal (s : string) : option Z :=
  n ← Z.of_int <$> DecimalString.NilEmpty.int_of_string s;
  if ((- 2 ^ 63 <=? n) && (n <? 2 ^ 63))%Z then Some n else None.

Lemma decimal_read n : in_int64 n -> decimal n <> "" /\ of_decimal (decimal n) = Some n.
Proof.
  intros [H1 H2]. unfold decimal, of_decimal. pose proof (DecimalString.NilEmpty.isi (Z.to_int n)) as H. split.
  - intros He. rewrite He in H. injection H as H. pose proof (DecimalZ.of_to n) as Hz. rewrite <- H in Hz.
    change (Z.of_int (Decimal.Pos Decimal.Nil)) with 0%Z in Hz. by subst n.
  - rewrite H. cbn [fmap option_fmap option_map mbind option_bind]. rewrite DecimalZ.of_to.
    by rewrite (proj2 (Z.leb_le _ _) H1), (proj2 (Z.ltb_lt _ _) H2).
Qed.

(** A router with the one route. *)
Definition sample_router (p : string) : gmap string (list string) :=
  let fixed := basePath +:+ "/dags/" in
  if has_prefix p fixed && negb (contains (trim_prefix p fixed) "/") then
    match PathUnescape (trim_prefix p fixed) with Some v => {[ "dagId" := [v] ]} | None => ∅ end
  else ∅.

Lemma sample_router_routes : routes_details sample_router.
Proof.
  intros part value Hne Hs Hu. unfold sample_router.
  change (basePath +:+ "/dags/" +:+ part) with (String.append (basePath +:+ "/dags/") part).
  rewrite has_prefix_app, trim_prefix_app, (proj2 (contains_char _ _) Hs). simpl. by rewrite Hu.
Qed.

Definition sample_details_url : GetDAGDetailsURL.t := GetDAGDetailsURL.mk "my dag" None (Some "a=b & c") (Some "log") "".
Definition sample_list_url : ListDAGsURL.t := ListDAGsURL.mk (Some 20%Z) None (Some "50% off;") (Some "") "".

Lemma addresses_are_read_witness :
  text_of (GetDAGDetailsURL.Build sample_details_url) = Ok "/api/v1/dags/my%20dag?step=a%3Db+%26+c&tab=log" /\
  BindRequest_GetDAGDetails (values (sample_router "/api/v1/dags/my%20dag") "dagId") (Query "step=a%3Db+%26+c&tab=log") =
    inr (mkDetails "my dag" None (Some "a=b & c") (Some "log")) /\
  BindRequest_ListDAGs of_decimal (Query "limit=20&searchName=50%25+off%3B") =
    inr (mkListParams None (Some 20%Z) (Some "50% off;") None).
Proof.
  split; [vm_compute; reflexivity|].
  destruct (addresses_are_read decimal of_decimal sample_router decimal_read sample_router_routes sample_details_url sample_list_url
    (mkURL "" "" "/api/v1/dags/my dag" "step=a%3Db+%26+c&tab=log") (mkURL "" "" "/api/v1/dags" "limit=20&searchName=50%25+off%3B"))
    as (_ & H1 & H2).
  - vm_compute. reflexivity.
  - vm_compute. reflexivity.
  - reflexivity.
  - split; [split; [discriminate|split; [discriminate|vm_compute; reflexivity]]|discriminate].
  - split; [split; vm_compute; [discriminate|reflexivity]|exact I].
  - split; [exact H1|exact H2].
Defined.

(** A name with a slash leads elsewhere. *)
Example slash_in_name : url_Path <$> GetDAGDetailsURL.Build (GetDAGDetailsURL.mk "../tags" None None None "") = Ok "/api/v1/tags".
Proof. reflexivity. Qed.
