(* ===== verification/ApiOperations.v ===== *)
(** * Operations and their registration: gen/restapi/operations, configure_dagu.go

    The answers of each operation and how they are written, one module per
    operation; what an operation does with a request; the registry of operations
    ([DaguAPI], operations/dagu_api.go), its configuration (configure_dagu.go), and
    the server's use of it (server.go).  Routing, binding and responding by the
    runtime of go-openapi are arguments. *)

From stdpp Require Import pretty.
From S2P Require Import Prelude GoStrings Utf8 ApiSpec ApiModels Handlers Routes.

(** ** Writing an answer *)

Record response_writer := mkWriter { w_header : gmap string (list string); w_code : option Z; w_body : string }.

(** The first code counts. *)
Definition WriteHeader (code : Z) (rw : response_writer) : response_writer :=
  match w_code rw with Some _ => rw | None => mkWriter (w_header rw) (Some code) (w_body rw) end.

Definition Header_Del (key : string) (rw : response_writer) : response_writer :=
  mkWriter (delete key (w_header rw)) (w_code rw) (w_body rw).

Definition HeaderContentType : string := "Content-Type".

(** What a [runtime.Producer] does with a value. *)
Definition producer (A : Type) : Type := A -> response_writer -> response_writer * option error.

Definition produce {A} (Produce : producer A) (a : A) (rw : response_writer) : result response_writer :=
  match Produce a rw with (rw, None) => Ok rw | (_, Some e) => Err (panic (error_text e)) end.

Definition write_payload {A} (Produce : producer A) (code : Z) (payload : option A) (rw : response_writer) : result response_writer :=
  let rw := WriteHeader code rw in
  match payload with None => Ok rw | Some p => produce Produce p rw end.

(** A list is written also when it is nil. *)
Definition write_list {A} (Produce : producer (list A)) (code : Z) (payload : option (list A)) (rw : response_writer)
    : result response_writer :=
  produce Produce (default [] payload) (WriteHeader code rw).

Definition write_empty (code : Z) (rw : response_writer) : result response_writer :=
  Ok (WriteHeader code (Header_Del HeaderContentType rw)).

(** ** The answers of the operations *)

Module CreateDAG.
Definition OKCode : Z := 200.
Record OK := mkOK { OK_Payload : option (models.CreateDAGResponse.t) }.
Definition NewOK : OK := mkOK None.
Definition OK_WithPayload (o : OK) (payload : option (models.CreateDAGResponse.t)) : OK := mkOK payload.
Definition OK_SetPayload (o : OK) (payload : option (models.CreateDAGResponse.t)) : OK := OK_WithPayload o payload.
Definition OK_WriteResponse (Produce : producer (models.CreateDAGResponse.t)) (o : OK) : response_writer -> result response_writer :=
  write_payload Produce OKCode (OK_Payload o).
Record Default := mkDefault { _statusCode : Z; Default_Payload : option models.Error.t }.
Definition NewDefault (code : Z) : Default := mkDefault (if (code <=? 0)%Z then 500 else code) None.
Definition Default_WithStatusCode (o : Default) (code : Z) : Default := mkDefault code (Default_Payload o).
Definition Default_SetStatusCode (o : Default) (code : Z) : Default := Default_WithStatusCode o code.
Definition Default_WithPayload (o : Default) (payload : option models.Error.t) : Default := mkDefault (_statusCode o) payload.
Definition Default_SetPayload (o : Default) (payload : option models.Error.t) : Default := Default_WithPayload o payload.
Definition Default_WriteResponse (Produce : producer models.Error.t) (o : Default) : response_writer -> result response_writer :=
  write_payload Produce (_statusCode o) (Default_Payload o).
End CreateDAG.

Module DeleteDAG.
Definition OKCode : Z := 200.
Record OK := mkOK {}.
Definition NewOK : OK := mkOK.
Definition OK_WriteResponse (o : OK) : response_writer -> result response_writer := write_empty OKCode.
Record Default := mkDefault { _statusCode : Z; Default_Payload : option models.Error.t }.
Definition NewDefault (code : Z) : Default := mkDefault (if (code <=? 0)%Z then 500 else code) None.
Definition Default_WithStatusCode (o : Default) (code : Z) : Default := mkDefault code (Default_Payload o).
Definition Default_SetStatusCode (o : Default) (code : Z) : Default := Default_WithStatusCode o code.
Definition Default_WithPayload (o : Default) (payload : option models.Error.t) : Default := mkDefault (_statusCode o) payload.
Definition Default_SetPayload (o : Default) (payload : option models.Error.t) : Default := Default_WithPayload o payload.
Definition Default_WriteResponse (Produce : producer models.Error.t) (o : Default) : response_writer -> result response_writer :=
  write_payload Produce (_statusCode o) (Default_Payload o).
End DeleteDAG.

Module GetDAGDetails.
Definition OKCode : Z := 200.
Record OK := mkOK { OK_Payload : option (models.GetDAGDetailsResponse.t) }.
Definition NewOK : OK := mkOK None.
Definition OK_WithPayload (o : OK) (payload : option (models.GetDAGDetailsResponse.t)) : OK := mkOK payload.
Definition OK_SetPayload (o : OK) (payload : option (models.GetDAGDetailsResponse.t)) : OK := OK_WithPayload o payload.
Definition OK_WriteResponse (Produce : producer (models.GetDAGDetailsResponse.t)) (o : OK) : response_writer -> result response_writer :=
  write_payload Produce OKCode (OK_Payload o).
Record Default := mkDefault { _statusCode : Z; Default_Payload : option models.Error.t }.
Definition NewDefault (code : Z) : Default := mkDefault (if (code <=? 0)%Z then 500 else code) None.
Definition Default_WithStatusCode (o : Default) (code : Z) : Default := mkDefault code (Default_Payload o).
Definition Default_SetStatusCode (o : Default) (code : Z) : Default := Default_WithStatusCode o code.
Definition Default_WithPayload (o : Default) (payload : option models.Error.t) : Default := mkDefault (_statusCode o) payload.
Definition Default_SetPayload (o : Default) (payload : option models.Error.t) : Default := Default_WithPayload o payload.
Definition Default_WriteResponse (Produce : producer models.Error.t) (o : Default) : response_writer -> result response_writer :=
  write_payload Produce (_statusCode o) (Default_Payload o).
End GetDAGDetails.

Module ListDAGs.
Definition OKCode : Z := 200.
Record OK := mkOK { OK_Payload : option (models.ListDAGsResponse.t) }.
Definition NewOK : OK := mkOK None.
Definition OK_WithPayload (o : OK) (payload : option (models.ListDAGsResponse.t)) : OK := mkOK payload.
Definition OK_SetPayload (o : OK) (payload : option (models.ListDAGsResponse.t)) : OK := OK_WithPayload o payload.
Definition OK_WriteResponse (Produce : producer (models.ListDAGsResponse.t)) (o : OK) : response_writer -> result response_writer :=
  write_payload Produce OKCode (OK_Payload o).
Record Default := mkDefault { _statusCode : Z; Default_Payload : option models.Error.t }.
Definition NewDefault (code : Z) : Default := mkDefault (if (code <=? 0)%Z then 500 else code) None.
Definition Default_WithStatusCode (o : Default) (code : Z) : Default := mkDefault code (Default_Payload o).
Definition Default_SetStatusCode (o : Default) (code : Z) : Default := Default_WithStatusCode o code.
Definition Default_WithPayload (o : Default) (payload : option models.Error.t) : Default := mkDefault (_statusCode o) payload.
Definition Default_SetPayload (o : Default) (payload : option models.Error.t) : Default := Default_WithPayload o payload.
Definition Default_WriteResponse (Produce : producer models.Error.t) (o : Default) : response_writer -> result response_writer :=
  write_payload Produce (_statusCode o) (Default_Payload o).
End ListDAGs.

Module ListTags.
Definition OKCode : Z := 200.
Record OK := mkOK { OK_Payload : option (models.ListTagResponse.t) }.
Definition NewOK : OK := mkOK None.
Definition OK_WithPayload (o : OK) (payload : option (models.ListTagResponse.t)) : OK := mkOK payload.
Definition OK_SetPayload (o : OK) (payload : option (models.ListTagResponse.t)) : OK := OK_WithPayload o payload.
Definition OK_WriteResponse (Produce : producer (models.ListTagResponse.t)) (o : OK) : response_writer -> result response_writer :=
  write_payload Produce OKCode (OK_Payload o).
Record Default := mkDefault { _statusCode : Z; Default_Payload : option models.Error.t }.
Definition NewDefault (code : Z) : Default := mkDefault (if (code <=? 0)%Z then 500 else code) None.
Definition Default_WithStatusCode (o : Default) (code : Z) : Default := mkDefault code (Default_Payload o).
Definition Default_SetStatusCode (o : Default) (code : Z) : Default := Default_WithStatusCode o code.
Definition Default_WithPayload (o : Default) (payload : option models.Error.t) : Default := mkDefault (_statusCode o) payload.
Definition Default_SetPayload (o : Default) (payload : option models.Error.t) : Default := Default_WithPayload o payload.
Definition Default_WriteResponse (Produce : producer models.Error.t) (o : Default) : response_writer -> result response_writer :=
  write_payload Produce (_statusCode o) (Default_Payload o).
End ListTags.

Module PostDAGAction.
Definition OKCode : Z := 200.
Record OK := mkOK { OK_Payload : option (models.PostDAGActionResponse.t) }.
Definition NewOK : OK := mkOK None.
Definition OK_WithPayload (o : OK) (payload : option (models.PostDAGActionResponse.t)) : OK := mkOK payload.
Definition OK_SetPayload (o : OK) (payload : option (models.PostDAGActionResponse.t)) : OK := OK_WithPayload o payload.
Definition OK_WriteResponse (Produce : producer (models.PostDAGActionResponse.t)) (o : OK) : response_writer -> result response_writer :=
  write_payload Produce OKCode (OK_Payload o).
Record Default := mkDefault { _statusCode : Z; Default_Payload : option models.Error.t }.
Definition NewDefault (code : Z) : Default := mkDefault (if (code <=? 0)%Z then 500 else code) None.
Definition Default_WithStatusCode (o : Default) (code : Z) : Default := mkDefault code (Default_Payload o).
Definition Default_SetStatusCode (o : Default) (code : Z) : Default := Default_WithStatusCode o code.
Definition Default_WithPayload (o : Default) (payload : option models.Error.t) : Default := mkDefault (_statusCode o) payload.
Definition Default_SetPayload (o : Default) (payload : option models.Error.t) : Default := Default_WithPayload o payload.
Definition Default_WriteResponse (Produce : producer models.Error.t) (o : Default) : response_writer -> result response_writer :=
  write_payload Produce (_statusCode o) (Default_Payload o).
End PostDAGAction.

Module SearchDAGs.
Definition OKCode : Z := 200.
Record OK := mkOK { OK_Payload : option (models.SearchDAGsResponse.t) }.
Definition NewOK : OK := mkOK None.
Definition OK_WithPayload (o : OK) (payload : option (models.SearchDAGsResponse.t)) : OK := mkOK payload.
Definition OK_SetPayload (o : OK) (payload : option (models.SearchDAGsResponse.t)) : OK := OK_WithPayload o payload.
Definition OK_WriteResponse (Produce : producer (models.SearchDAGsResponse.t)) (o : OK) : response_writer -> result response_writer :=
  write_payload Produce OKCode (OK_Payload o).
Record Default := mkDefault { _statusCode : Z; Default_Payload : option models.Error.t }.
Definition NewDefault (code : Z) : Default := mkDefault (if (code <=? 0)%Z then 500 else code) None.
Definition Default_WithStatusCode (o : Default) (code : Z) : Default := mkDefault code (Default_Payload o).
Definition Default_SetStatusCode (o : Default) (code : Z) : Default := Default_WithStatusCode o code.
Definition Default_WithPayload (o : Default) (payload : option models.Error.t) : Default := mkDefault (_statusCode o) payload.
Definition Default_SetPayload (o : Default) (payload : option models.Error.t) : Default := Default_WithPayload o payload.
Definition Default_WriteResponse (Produce : producer models.Error.t) (o : Default) : response_writer -> result response_writer :=
  write_payload Produce (_statusCode o) (Default_Payload o).
End SearchDAGs.

Module CreatePythonFile.
Definition CreatedCode : Z := 201.
Record Created := mkCreated { Created_Payload : option (models.PythonFile.t) }.
Definition NewCreated : Created := mkCreated None.
Definition Created_WithPayload (o : Created) (payload : option (models.PythonFile.t)) : Created := mkCreated payload.
Definition Created_SetPayload (o : Created) (payload : option (models.PythonFile.t)) : Created := Created_WithPayload o payload.
Definition Created_WriteResponse (Produce : producer (models.PythonFile.t)) (o : Created) : response_writer -> result response_writer :=
  write_payload Produce CreatedCode (Created_Payload o).
Record Default := mkDefault { _statusCode : Z; Default_Payload : option models.Error.t }.
Definition NewDefault (code : Z) : Default := mkDefault (if (code <=? 0)%Z then 500 else code) None.
Definition Default_WithStatusCode (o : Default) (code : Z) : Default := mkDefault code (Default_Payload o).
Definition Default_SetStatusCode (o : Default) (code : Z) : Default := Default_WithStatusCode o code.
Definition Default_WithPayload (o : Default) (payload : option models.Error.t) : Default := mkDefault (_statusCode o) payload.
Definition Default_SetPayload (o : Default) (payload : option models.Error.t) : Default := Default_WithPayload o payload.
Definition Default_WriteResponse (Produce : producer models.Error.t) (o : Default) : response_writer -> result response_writer :=
  write_payload Produce (_statusCode o) (Default_Payload o).
End CreatePythonFile.

Module DeletePythonFile.
Definition NoContentCode : Z := 204.
Record NoContent := mkNoContent {}.
Definition NewNoContent : NoContent := mkNoContent.
Definition NoContent_WriteResponse (o : NoContent) : response_writer -> result response_writer := write_empty NoContentCode.
Record Default := mkDefault { _statusCode : Z; Default_Payload : option models.Error.t }.
Definition NewDefault (code : Z) : Default := mkDefault (if (code <=? 0)%Z then 500 else code) None.
Definition Default_WithStatusCode (o : Default) (code : Z) : Default := mkDefault code (Default_Payload o).
Definition Default_SetStatusCode (o : Default) (code : Z) : Default := Default_WithStatusCode o code.
Definition Default_WithPayload (o : Default) (payload : option models.Error.t) : Default := mkDefault (_statusCode o) payload.
Definition Default_SetPayload (o : Default) (payload : option models.Error.t) : Default := Default_WithPayload o payload.
Definition Default_WriteResponse (Produce : producer models.Error.t) (o : Default) : response_writer -> result response_writer :=
  write_payload Produce (_statusCode o) (Default_Payload o).
End DeletePythonFile.

Module GetPythonFile.
Definition OKCode : Z := 200.
Record OK := mkOK { OK_Payload : option (models.PythonFile.t) }.
Definition NewOK : OK := mkOK None.
Definition OK_WithPayload (o : OK) (payload : option (models.PythonFile.t)) : OK := mkOK payload.
Definition OK_SetPayload (o : OK) (payload : option (models.PythonFile.t)) : OK := OK_WithPayload o payload.
Definition OK_WriteResponse (Produce : producer (models.PythonFile.t)) (o : OK) : response_writer -> result response_writer :=
  write_payload Produce OKCode (OK_Payload o).
Record Default := mkDefault { _statusCode : Z; Default_Payload : option models.Error.t }.
Definition NewDefault (code : Z) : Default := mkDefault (if (code <=? 0)%Z then 500 else code) None.
Definition Default_WithStatusCode (o : Default) (code : Z) : Default := mkDefault code (Default_Payload o).
Definition Default_SetStatusCode (o : Default) (code : Z) : Default := Default_WithStatusCode o code.
Definition Default_WithPayload (o : Default) (payload : option models.Error.t) : Default := mkDefault (_statusCode o) payload.
Definition Default_SetPayload (o : Default) (payload : option models.Error.t) : Default := Default_WithPayload o payload.
Definition Default_WriteResponse (Produce : producer models.Error.t) (o : Default) : response_writer -> result response_writer :=
  write_payload Produce (_statusCode o) (Default_Payload o).
End GetPythonFile.

Module ListPythonFiles.
Definition OKCode : Z := 200.
Record OK := mkOK { OK_Payload : option (list models.PythonFile.t) }.
Definition NewOK : OK := mkOK None.
Definition OK_WithPayload (o : OK) (payload : option (list models.PythonFile.t)) : OK := mkOK payload.
Definition OK_SetPayload (o : OK) (payload : option (list models.PythonFile.t)) : OK := OK_WithPayload o payload.
Definition OK_WriteResponse (Produce : producer (list models.PythonFile.t)) (o : OK) : response_writer -> result response_writer :=
  write_list Produce OKCode (OK_Payload o).
Record Default := mkDefault { _statusCode : Z; Default_Payload : option models.Error.t }.
Definition NewDefault (code : Z) : Default := mkDefault (if (code <=? 0)%Z then 500 else code) None.
Definition Default_WithStatusCode (o : Default) (code : Z) : Default := mkDefault code (Default_Payload o).
Definition Default_SetStatusCode (o : Default) (code : Z) : Default := Default_WithStatusCode o code.
Definition Default_WithPayload (o : Default) (payload : option models.Error.t) : Default := mkDefault (_statusCode o) payload.
Definition Default_SetPayload (o : Default) (payload : option models.Error.t) : Default := Default_WithPayload o payload.
Definition Default_WriteResponse (Produce : producer models.Error.t) (o : Default) : response_writer -> result response_writer :=
  write_payload Produce (_statusCode o) (Default_Payload o).
End ListPythonFiles.

Module UpdatePythonFile.
Definition OKCode : Z := 200.
Record OK := mkOK { OK_Payload : option (models.PythonFile.t) }.
Definition NewOK : OK := mkOK None.
Definition OK_WithPayload (o : OK) (payload : option (models.PythonFile.t)) : OK := mkOK payload.
Definition OK_SetPayload (o : OK) (payload : option (models.PythonFile.t)) : OK := OK_WithPayload o payload.
Definition OK_WriteResponse (Produce : producer (models.PythonFile.t)) (o : OK) : response_writer -> result response_writer :=
  write_payload Produce OKCode (OK_Payload o).
Record Default := mkDefault { _statusCode : Z; Default_Payload : option models.Error.t }.
Definition NewDefault (code : Z) : Default := mkDefault (if (code <=? 0)%Z then 500 else code) None.
Definition Default_WithStatusCode (o : Default) (code : Z) : Default := mkDefault code (Default_Payload o).
Definition Default_SetStatusCode (o : Default) (code : Z) : Default := Default_WithStatusCode o code.
Definition Default_WithPayload (o : Default) (payload : option models.Error.t) : Default := mkDefault (_statusCode o) payload.
Definition Default_SetPayload (o : Default) (payload : option models.Error.t) : Default := Default_WithPayload o payload.
Definition Default_WriteResponse (Produce : producer models.Error.t) (o : Default) : response_writer -> result response_writer :=
  write_payload Produce (_statusCode o) (Default_Payload o).
End UpdatePythonFile.

Module GetHealth.
Definition OKCode : Z := 200.
Record OK := mkOK { OK_Payload : option (models.HealthResponse.t) }.
Definition NewOK : OK := mkOK None.
Definition OK_WithPayload (o : OK) (payload : option (models.HealthResponse.t)) : OK := mkOK payload.
Definition OK_SetPayload (o : OK) (payload : option (models.HealthResponse.t)) : OK := OK_WithPayload o payload.
Definition OK_WriteResponse (Produce : producer (models.HealthResponse.t)) (o : OK) : response_writer -> result response_writer :=
  write_payload Produce OKCode (OK_Payload o).
Definition ServiceUnavailableCode : Z := 503.
Record ServiceUnavailable := mkServiceUnavailable { ServiceUnavailable_Payload : option (models.HealthResponse.t) }.
Definition NewServiceUnavailable : ServiceUnavailable := mkServiceUnavailable None.
Definition ServiceUnavailable_WithPayload (o : ServiceUnavailable) (payload : option (models.HealthResponse.t)) : ServiceUnavailable := mkServiceUnavailable payload.
Definition ServiceUnavailable_SetPayload (o : ServiceUnavailable) (payload : option (models.HealthResponse.t)) : ServiceUnavailable := ServiceUnavailable_WithPayload o payload.
Definition ServiceUnavailable_WriteResponse (Produce : producer (models.HealthResponse.t)) (o : ServiceUnavailable) : response_writer -> result response_writer :=
  write_payload Produce ServiceUnavailableCode (ServiceUnavailable_Payload o).
Record Default := mkDefault { _statusCode : Z; Default_Payload : option models.Error.t }.
Definition NewDefault (code : Z) : Default := mkDefault (if (code <=? 0)%Z then 500 else code) None.
Definition Default_WithStatusCode (o : Default) (code : Z) : Default := mkDefault code (Default_Payload o).
Definition Default_SetStatusCode (o : Default) (code : Z) : Default := Default_WithStatusCode o code.
Definition Default_WithPayload (o : Default) (payload : option models.Error.t) : Default := mkDefault (_statusCode o) payload.
Definition Default_SetPayload (o : Default) (payload : option models.Error.t) : Default := Default_WithPayload o payload.
Definition Default_WriteResponse (Produce : producer models.Error.t) (o : Default) : response_writer -> result response_writer :=
  write_payload Produce (_statusCode o) (Default_Payload o).
End GetHealth.

(** ** A request for an operation *)

Section serve.
Context {Req Route Responder W : Type}.
(** The runtime's [Context]: the matched route and the request with it in its
    context, binding and validation, and the answer for an error or a result. *)
Context (RouteInfo : Req -> option Route * option Req).
Context (BindValidRequest : forall P, (Req -> Route -> bound P) -> Req -> option Route -> error + P).
Context (Produces : Route -> list string).
Context (Respond : response_writer -> Req -> list string -> Route -> error + Responder -> result response_writer).

(** [ServeHTTP] of each operation: a request that does not bind does not reach the
    handler. *)
Definition ServeHTTP {P} (BindRequest : Req -> Route -> bound P) (Handle : P -> W -> W * Responder) (rw : response_writer)
    (r : Req) (w : W) : W * result response_writer :=
  let '(route, rCtx) := RouteInfo r in
  let r := default r rCtx in
  let respond w res :=
    (w, match route with
        | None => Err (panic "nil dereference")
        | Some route => Respond rw r (Produces route) route res
        end) in
  match BindValidRequest P BindRequest r route with
  | inl err => respond w (inl err)
  | inr params => let '(w, res) := Handle params w in respond w (inr res)
  end.

(** ** The operations *)

(** The query string, the parameters in the path, and the body: absent, not decoded,
    or decoded. *)
Context (ConvertInt64 : string -> option Z) (query : Req -> gmap string (list string)).
Context (path_param : Route -> string -> list string).
Context (create_body : Req -> option (option models.CreateDAGRequest.t)).
Context (action_body : Req -> option (option models.PostDAGActionRequest.t)).
Context (python_body : Req -> option (option models.PythonFile.t)).

(** The requests without parameters. *)
Definition BindRequest_ListTags (_ : Req) (_ : Route) : bound unit := inr tt.
Definition BindRequest_GetHealth (_ : Req) (_ : Route) : bound unit := inr tt.
Definition BindRequest_ListPythonFiles (_ : Req) (_ : Route) : bound unit := inr tt.

Definition ListDAGs_ServeHTTP := ServeHTTP (fun r _ => BindRequest_ListDAGs ConvertInt64 (query r)).
Definition CreateDAG_ServeHTTP := ServeHTTP (fun r _ => BindRequest_CreateDAG (create_body r)).
Definition GetDAGDetails_ServeHTTP := ServeHTTP (fun r m => BindRequest_GetDAGDetails (path_param m "dagId") (query r)).
Definition PostDAGAction_ServeHTTP := ServeHTTP (fun r m => BindRequest_PostDAGAction (action_body r) (path_param m "dagId")).
Definition DeleteDAG_ServeHTTP := ServeHTTP (fun _ m => BindRequest_DeleteDAG (path_param m "dagId")).
Definition SearchDAGs_ServeHTTP := ServeHTTP (fun r _ => BindRequest_SearchDAGs (query r)).
Definition ListTags_ServeHTTP := ServeHTTP BindRequest_ListTags.
Definition GetHealth_ServeHTTP := ServeHTTP BindRequest_GetHealth.
Definition ListPythonFiles_ServeHTTP := ServeHTTP BindRequest_ListPythonFiles.
Definition CreatePythonFile_ServeHTTP := ServeHTTP (fun r _ => BindRequest_CreatePythonFile (python_body r)).
Definition GetPythonFile_ServeHTTP := ServeHTTP (fun _ m => BindRequest_GetPythonFile (path_param m "name")).
Definition UpdatePythonFile_ServeHTTP := ServeHTTP (fun r m => BindRequest_UpdatePythonFile (python_body r) (path_param m "name")).
Definition DeletePythonFile_ServeHTTP := ServeHTTP (fun _ m => BindRequest_DeletePythonFile (path_param m "name")).

End serve.

(** ** The registry of operations (dagu_api.go) *)

Inductive op :=
| DagsCreateDAG | PythonFilesCreatePythonFile | DagsDeleteDAG | PythonFilesDeletePythonFile | DagsGetDAGDetails
| SystemGetHealth | PythonFilesGetPythonFile | DagsListDAGs | PythonFilesListPythonFiles | DagsListTags
| DagsPostDAGAction | DagsSearchDAGs | PythonFilesUpdatePythonFile.

#[export] Instance op_eq_dec : EqDecision op.
Proof. solve_decision. Defined.

(** In the order of the fields. *)
Definition ops : list op :=
  [DagsCreateDAG; PythonFilesCreatePythonFile; DagsDeleteDAG; PythonFilesDeletePythonFile; DagsGetDAGDetails;
   SystemGetHealth; PythonFilesGetPythonFile; DagsListDAGs; PythonFilesListPythonFiles; DagsListTags;
   DagsPostDAGAction; DagsSearchDAGs; PythonFilesUpdatePythonFile].

Definition op_name (o : op) : string :=
  match o with
  | DagsCreateDAG => "dags.CreateDAG" | PythonFilesCreatePythonFile => "python_files.CreatePythonFile"
  | DagsDeleteDAG => "dags.DeleteDAG" | PythonFilesDeletePythonFile => "python_files.DeletePythonFile"
  | DagsGetDAGDetails => "dags.GetDAGDetails" | SystemGetHealth => "system.GetHealth"
  | PythonFilesGetPythonFile => "python_files.GetPythonFile" | DagsListDAGs => "dags.ListDAGs"
  | PythonFilesListPythonFiles => "python_files.ListPythonFiles" | DagsListTags => "dags.ListTags"
  | DagsPostDAGAction => "dags.PostDAGAction" | DagsSearchDAGs => "dags.SearchDAGs"
  | PythonFilesUpdatePythonFile => "python_files.UpdatePythonFile"
  end.

(** A handler of an operation: what was set, or the answer of a missing
    implementation with its text. *)
Inductive op_handler (H : Type) := Set_ (h : H) | NotImplemented (text : string).
Arguments Set_ {H} h.
Arguments NotImplemented {H} text.

Definition not_implemented {H} (o : op) : op_handler H :=
  NotImplemented ("operation " +:+ op_name o +:+ " has not yet been implemented").

Section api.
(** Handlers of operations, [http.Handler], consumers, producers, the document, the
    runtime's context. *)
Context {H HTTP Consumer Producer Spec Ctx : Type}.
(** [middleware.NewRoutableContext], and the constructors of the operations' http
    handlers, [dags.NewCreateDAG] and the others. *)
Context (NewOperation : op -> option Ctx -> option (op_handler H) -> HTTP).
(** The consumer and the producer of JSON. *)
Context (JSONConsumer_ : Consumer) (JSONProducer_ : Producer).
Context (rune_upper : Z -> Z).

Definition ToUpper (s : string) : string := encode_runes (rune_upper <$> decode_runes s).

Definition Builder : Type := HTTP -> HTTP.

Record DaguAPI := mkAPI {
  spec : Spec;
  context : option Ctx;
  handlers : gmap string (gmap string HTTP);
  defaultConsumes : string;
  defaultProduces : string;
  customConsumers : gmap string Consumer;
  customProducers : gmap string Producer;
  Middleware : option ((HTTP -> HTTP) -> HTTP);
  useSwaggerUI : bool;
  JSONConsumer : option Consumer;
  JSONProducer : option Producer;
  slots : op -> option (op_handler H)
}.

Definition NewDaguAPI (spec : Spec) : DaguAPI :=
  mkAPI spec None ∅ "application/json" "application/json" ∅ ∅ None false (Some JSONConsumer_) (Some JSONProducer_)
    (fun o => Some (not_implemented o)).

Definition set_handlers (a : DaguAPI) (h : gmap string (gmap string HTTP)) : DaguAPI :=
  mkAPI (spec a) (context a) h (defaultConsumes a) (defaultProduces a) (customConsumers a) (customProducers a)
    (Middleware a) (useSwaggerUI a) (JSONConsumer a) (JSONProducer a) (slots a).
Definition set_context (a : DaguAPI) (c : Ctx) : DaguAPI :=
  mkAPI (spec a) (Some c) (handlers a) (defaultConsumes a) (defaultProduces a) (customConsumers a) (customProducers a)
    (Middleware a) (useSwaggerUI a) (JSONConsumer a) (JSONProducer a) (slots a).
Definition set_swagger (a : DaguAPI) (b : bool) : DaguAPI :=
  mkAPI (spec a) (context a) (handlers a) (defaultConsumes a) (defaultProduces a) (customConsumers a) (customProducers a)
    (Middleware a) b (JSONConsumer a) (JSONProducer a) (slots a).
Definition set_json (a : DaguAPI) (c : option Consumer) (p : option Producer) : DaguAPI :=
  mkAPI (spec a) (context a) (handlers a) (defaultConsumes a) (defaultProduces a) (customConsumers a) (customProducers a)
    (Middleware a) (useSwaggerUI a) c p (slots a).
Definition set_slots (a : DaguAPI) (s : op -> option (op_handler H)) : DaguAPI :=
  mkAPI (spec a) (context a) (handlers a) (defaultConsumes a) (defaultProduces a) (customConsumers a) (customProducers a)
    (Middleware a) (useSwaggerUI a) (JSONConsumer a) (JSONProducer a) s.
Definition set_defaults (a : DaguAPI) (consumes produces : string) : DaguAPI :=
  mkAPI (spec a) (context a) (handlers a) consumes produces (customConsumers a) (customProducers a)
    (Middleware a) (useSwaggerUI a) (JSONConsumer a) (JSONProducer a) (slots a).
Definition set_custom (a : DaguAPI) (c : gmap string Consumer) (p : gmap string Producer) : DaguAPI :=
  mkAPI (spec a) (context a) (handlers a) (defaultConsumes a) (defaultProduces a) c p
    (Middleware a) (useSwaggerUI a) (JSONConsumer a) (JSONProducer a) (slots a).

Definition UseRedoc (a : DaguAPI) : DaguAPI := set_swagger a false.
Definition UseSwaggerUI (a : DaguAPI) : DaguAPI := set_swagger a true.
Definition SetDefaultProduces (a : DaguAPI) (mediaType : string) : DaguAPI := set_defaults a (defaultConsumes a) mediaType.
Definition SetDefaultConsumes (a : DaguAPI) (mediaType : string) : DaguAPI := set_defaults a mediaType (defaultProduces a).
Definition SetSpec (a : DaguAPI) (s : Spec) : DaguAPI :=
  mkAPI s (context a) (handlers a) (defaultConsumes a) (defaultProduces a) (customConsumers a) (customProducers a)
    (Middleware a) (useSwaggerUI a) (JSONConsumer a) (JSONProducer a) (slots a).
Definition DefaultProduces (a : DaguAPI) : string := defaultProduces a.
Definition DefaultConsumes (a : DaguAPI) : string := defaultConsumes a.
Definition RegisterConsumer (a : DaguAPI) (mediaType : string) (c : Consumer) : DaguAPI :=
  set_custom a (<[mediaType := c]> (customConsumers a)) (customProducers a).
Definition RegisterProducer (a : DaguAPI) (mediaType : string) (p : Producer) : DaguAPI :=
  set_custom a (customConsumers a) (<[mediaType := p]> (customProducers a)).

(** [api.DagsCreateDAGHandler = h] and the others. *)
Definition set_slot (a : DaguAPI) (o : op) (h : H) : DaguAPI :=
  set_slots a (fun o' => if bool_decide (o' = o) then Some (Set_ h) else slots a o').

(** What is not registered, in order. *)
Definition unregistered (a : DaguAPI) : list string :=
  (if JSONConsumer a then [] else ["JSONConsumer"]) ++ (if JSONProducer a then [] else ["JSONProducer"]) ++
  omap (fun o => if slots a o then None else Some (op_name o +:+ "Handler")) ops.

Definition Validate (a : DaguAPI) : option error :=
  match unregistered a with
  | [] => None
  | names => Some (ENew ("missing registration: " +:+ join names ", "))
  end.

(** [ConsumersFor], [ProducersFor]: the one of JSON, then the custom one; [None] is
    a nil one. *)
Definition media_for {A} (json : option A) (custom : gmap string A) (mediaTypes : list string) : gmap string (option A) :=
  foldl (fun result mt =>
    let result := if bool_decide (mt = "application/json") then <["application/json" := json]> result else result in
    match custom !! mt with Some c => <[mt := Some c]> result | None => result end) ∅ mediaTypes.

Definition ConsumersFor (a : DaguAPI) := media_for (JSONConsumer a) (customConsumers a).
Definition ProducersFor (a : DaguAPI) := media_for (JSONProducer a) (customProducers a).

Definition root_path (path : string) : string := if bool_decide (path = "/") then "" else path.

Definition HandlerFor (a : DaguAPI) (method path : string) : option HTTP :=
  match handlers a !! ToUpper method with
  | None => None
  | Some m => m !! root_path path
  end.

Section init.
Context (NewRoutableContext : Spec -> DaguAPI -> Ctx).

Definition Context_ (a : DaguAPI) : DaguAPI :=
  match context a with None => set_context a (NewRoutableContext (spec a) a) | Some _ => a end.

(** The operations as they are entered, with their methods and paths. *)
Definition entries : list (string * string * op) :=
  [("POST", "/dags", DagsCreateDAG); ("POST", "/python-files", PythonFilesCreatePythonFile);
   ("DELETE", "/dags/{dagId}", DagsDeleteDAG); ("DELETE", "/python-files/{name}", PythonFilesDeletePythonFile);
   ("GET", "/dags/{dagId}", DagsGetDAGDetails); ("GET", "/health", SystemGetHealth);
   ("GET", "/python-files/{name}", PythonFilesGetPythonFile); ("GET", "/dags", DagsListDAGs);
   ("GET", "/python-files", PythonFilesListPythonFiles); ("GET", "/tags", DagsListTags);
   ("POST", "/dags/{dagId}", DagsPostDAGAction); ("GET", "/search", DagsSearchDAGs);
   ("PUT", "/python-files/{name}", PythonFilesUpdatePythonFile)].

Definition enter (a : DaguAPI) (h : gmap string (gmap string HTTP)) (e : string * string * op) : gmap string (gmap string HTTP) :=
  let '(method, path, o) := e in
  <[method := <[path := NewOperation o (context a) (slots a o)]> (default ∅ (h !! method))]> h.

Definition initHandlerCache (a : DaguAPI) : DaguAPI :=
  let a := Context_ a in
  set_handlers a (foldl (enter a) (handlers a) entries).

Definition Init (a : DaguAPI) : DaguAPI := if bool_decide (handlers a = ∅) then initHandlerCache a else a.

Definition AddMiddlewareFor (a : DaguAPI) (method path : string) (builder : Builder) : DaguAPI :=
  let um := ToUpper method in
  let path := root_path path in
  let a := Init a in
  match handlers a !! um with
  | None => a
  | Some m =>
      match m !! path with
      | None => a
      | Some h => set_handlers a (<[um := <[path := builder h]> m]> (handlers a))
      end
  end.

Section serving.
Context (APIHandler APIHandlerSwaggerUI : option Ctx -> Builder -> HTTP).

Definition Serve (a : DaguAPI) (builder : Builder) : DaguAPI * HTTP :=
  let a := Init a in
  (a, match Middleware a with
      | Some middleware => middleware builder
      | None => if useSwaggerUI a then APIHandlerSwaggerUI (context a) builder else APIHandler (context a) builder
      end).

(** ** Configuration (configure_dagu.go) *)

Context (SetupGlobalMiddleware : HTTP -> HTTP).

Definition setupMiddlewares (h : HTTP) : HTTP := h.
Definition setupGlobalMiddleware (h : HTTP) : HTTP := SetupGlobalMiddleware h.

Definition configureAPI (a : DaguAPI) : DaguAPI * HTTP :=
  let a := UseSwaggerUI a in
  let a := set_json a (Some JSONConsumer_) (Some JSONProducer_) in
  let a := set_slots a (fun o => match slots a o with None => Some (not_implemented o) | s => s end) in
  let '(a, h) := Serve a setupMiddlewares in
  (a, setupGlobalMiddleware h).

(** ** The server's interface and handler (server.go) *)

Record api_server := mkApiServer { sv_api : option DaguAPI; sv_handler : option HTTP }.

Definition ConfigureAPI (s : api_server) : api_server :=
  match sv_api s with
  | None => s
  | Some a => let '(a, h) := configureAPI a in mkApiServer (Some a) (Some h)
  end.

Definition SetAPI (s : api_server) (api : option DaguAPI) : api_server :=
  match api with
  | None => mkApiServer None None
  | Some a => let '(a, h) := configureAPI a in mkApiServer (Some a) (Some h)
  end.

Definition GetHandler (s : api_server) : option HTTP := sv_handler s.
Definition SetHandler (s : api_server) (h : option HTTP) : api_server := mkApiServer (sv_api s) h.

End serving.
End init.
End api.

Arguments DaguAPI H HTTP Consumer Producer Spec Ctx : clear implicits.

(** ** Lemmas *)

Section lemmas.
Context {H HTTP Consumer Producer Spec Ctx : Type}.
Context (NewOperation : op -> option Ctx -> option (op_handler H) -> HTTP).
Context (JSONConsumer_ : Consumer) (JSONProducer_ : Producer) (rune_upper : Z -> Z).

Abbreviation api := (DaguAPI H HTTP Consumer Producer Spec Ctx).

Context (NewRoutableContext : Spec -> api -> Ctx).
Implicit Types a : api.

(** What is entered last for a method and a path is found under them. *)
Lemma entered a l : forall h m p,
  (foldl (enter NewOperation a) h l) !! m ≫= (fun t => t !! p) =
  match last (filter (fun e => fst e = (m, p)) l) with
  | Some (_, o) => Some (NewOperation o (context a) (slots a o))
  | None => h !! m ≫= (fun t => t !! p)
  end.
Proof.
  induction l as [|[[m' p'] o] l IH]; intros h m p; [done|]. cbn [foldl]. rewrite IH, filter_cons. cbn [fst].
  unfold enter. case_decide as E.
  - injection E as -> ->. destruct (filter _ l) as [|e es] eqn:Ef.
    + cbn [last]. rewrite lookup_insert_eq. cbn. by rewrite lookup_insert_eq.
    + rewrite last_cons_cons. destruct (last (e :: es)) as [[? ?]|] eqn:El; [done|]. by apply last_None in El.
  - destruct (last _) as [[e o']|]; [done|]. destruct (decide (m' = m)) as [->|Hm].
    + rewrite lookup_insert_eq. cbn. rewrite lookup_insert_ne by congruence. by destruct (h !! m).
    + by rewrite lookup_insert_ne.
Qed.

Lemma slots_Context a : slots (Context_ NewRoutableContext a) = slots a.
Proof. unfold Context_. by destruct (context a). Qed.
Lemma handlers_Context a : handlers (Context_ NewRoutableContext a) = handlers a.
Proof. unfold Context_. by destruct (context a). Qed.

(** The identifier the document has for an operation. *)
Definition operation_id (o : op) : string :=
  match o with
  | DagsCreateDAG => "createDAG" | PythonFilesCreatePythonFile => "createPythonFile" | DagsDeleteDAG => "deleteDAG"
  | PythonFilesDeletePythonFile => "deletePythonFile" | DagsGetDAGDetails => "getDAGDetails" | SystemGetHealth => "getHealth"
  | PythonFilesGetPythonFile => "getPythonFile" | DagsListDAGs => "listDAGs" | PythonFilesListPythonFiles => "listPythonFiles"
  | DagsListTags => "listTags" | DagsPostDAGAction => "postDAGAction" | DagsSearchDAGs => "searchDAGs"
  | PythonFilesUpdatePythonFile => "updatePythonFile"
  end.

(** The entry of an operation of the document, and the other way. *)
Definition describes (d : operation) (e : string * string * op) : Prop :=
  fst e = (op_method d, op_path d) /\ operation_id (snd e) = op_id d.

#[local] Instance describes_dec d e : Decision (describes d e).
Proof. unfold describes. apply _. Defined.

Lemma entries_described : Forall (fun e => Exists (fun d => describes d e) operations) entries.
Proof. apply (bool_decide_unpack _). vm_compute. exact I. Qed.

Lemma operations_entered : Forall (fun d => Exists (describes d) entries) operations.
Proof. apply (bool_decide_unpack _). vm_compute. exact I. Qed.

Lemma entries_NoDup : NoDup (fst <$> entries).
Proof. apply (bool_decide_unpack _). vm_compute. exact I. Qed.

Lemma operation_id_inj o o' : operation_id o = operation_id o' -> o = o'.
Proof. by destruct o, o'. Qed.

(** In a list without two entries for one key the last one is the one. *)
Lemma last_of_key (l : list (string * string * op)) k o :
  NoDup (fst <$> l) -> last (filter (fun e => fst e = k) l) = Some (k, o) <-> (k, o) ∈ l.
Proof.
  intros Hd. assert (forall o', (k, o) ∈ l -> (k, o') ∈ l -> o = o') as Huniq.
  { intros o' H1 H2. apply list_elem_of_lookup in H1 as [i Hi], H2 as [j Hj].
    assert (i = j) as <- by (eapply (NoDup_lookup _ i j k Hd); rewrite list_lookup_fmap; [by rewrite Hi|by rewrite Hj]).
    congruence. }
  split.
  - intros Hl%last_Some_elem_of. by apply list_elem_of_filter in Hl as [_ Hl].
  - intros Hl. destruct (last (filter (fun e => fst e = k) l)) as [[k' o']|] eqn:E.
    + pose proof (last_Some_elem_of _ _ E) as Hin. apply list_elem_of_filter in Hin as [Hk Hin]. cbn in Hk. subst k'.
      by rewrite (Huniq o').
    + apply last_None in E. assert ((k, o) ∈ filter (fun e => fst e = k) l) as Hin by (by apply list_elem_of_filter).
      rewrite E in Hin. by apply elem_of_nil in Hin.
Qed.

(** C27: The interface serves what its document declares and nothing else: after
    initialisation a request's method and path have a handler exactly when the
    document has an operation with them, and it is the one of that operation. *)
Theorem served_operations (a : api) (method path : string) (h : HTTP) (Hfresh : handlers a = ∅) :
  HandlerFor rune_upper (Init NewOperation NewRoutableContext a) method path = Some h <->
  exists o, h = NewOperation o (context (Context_ NewRoutableContext a)) (slots a o) /\
    exists d, d ∈ operations /\ op_method d = ToUpper rune_upper method /\ op_path d = root_path path /\
              op_id d = operation_id o.
Proof.
  unfold Init. rewrite bool_decide_true by done. unfold HandlerFor, initHandlerCache. cbn [set_handlers handlers].
  set (c := Context_ NewRoutableContext a). set (m := ToUpper rune_upper method). set (p := root_path path).
  assert (forall t : gmap string (gmap string HTTP),
    match t !! m with None => None | Some t => t !! p end = t !! m ≫= (fun t => t !! p)) as Hb by (intros t; by destruct (t !! m)).
  rewrite Hb, entered. unfold c at 3. rewrite handlers_Context, Hfresh, lookup_empty. cbn [mbind option_bind].
  unfold c at 2. rewrite slots_Context. fold c. split.
  - destruct (last _) as [[k o]|] eqn:E; [|done]. intros [= <-]. exists o. split; [done|].
    pose proof (last_Some_elem_of _ _ E) as Hin. apply list_elem_of_filter in Hin as [Hk Hin]. cbn in Hk. subst k.
    pose proof entries_described as Hd. rewrite Forall_forall in Hd. apply Hd, Exists_exists in Hin as (d & Hin & Hk & Hi).
    cbn in Hk, Hi. injection Hk as -> ->. by exists d.
  - intros (o & -> & d & Hin & Hm & Hp & Hi). pose proof operations_entered as Ho. rewrite Forall_forall in Ho.
    apply Ho, Exists_exists in Hin as ([k o'] & Hin & Hk & Hi'). cbn in Hk, Hi'. subst k.
    assert (o' = o) as -> by (apply operation_id_inj; congruence). rewrite Hm, Hp in Hin.
    by rewrite (proj2 (last_of_key entries (m, p) o entries_NoDup) Hin).
Qed.

(** A configured registry lacks nothing, and keeps the handlers that were set. *)
Theorem configured_complete APIHandler APIHandlerSwaggerUI Global (a : api) o h :
  let a' := fst (configureAPI NewOperation JSONConsumer_ JSONProducer_ NewRoutableContext APIHandler APIHandlerSwaggerUI Global a) in
  Validate a' = None /\ (slots a o = Some (Set_ h) -> slots a' o = Some (Set_ h)).
Proof.
  cbv zeta. unfold configureAPI, Serve. cbn [fst].
  set (b := set_slots _ _).
  assert (slots (Init NewOperation NewRoutableContext b) = slots b /\ JSONConsumer (Init NewOperation NewRoutableContext b) = JSONConsumer b /\
          JSONProducer (Init NewOperation NewRoutableContext b) = JSONProducer b) as (Hs & Hc & Hp).
  { unfold Init. case_bool_decide; [|done]. unfold initHandlerCache, Context_. by destruct (context b). }
  split.
  - unfold Validate, unregistered. rewrite Hs, Hc, Hp. cbn [b set_slots JSONConsumer JSONProducer set_json slots app].
    assert (forall l, omap (fun o => if (match slots a o with None => Some (not_implemented o) | s => s end)
                                     then None else Some (op_name o +:+ "Handler")) l = []) as Ho.
    { induction l as [|o' l IH]; [done|]. simpl. by destruct (slots a o'). }
    by rewrite Ho.
  - rewrite Hs. intros Hso. unfold b. cbn. by rewrite Hso.
Qed.

End lemmas.

(** A request that does not bind does not reach the handler. *)
Lemma unbound_not_handled {Req Route Responder W P} RouteInfo (BindValidRequest : forall P, (Req -> Route -> bound P) -> Req -> option Route -> error + P)
    Produces Respond BindRequest (Handle Handle' : P -> W -> W * Responder) rw r w e :
  BindValidRequest P BindRequest (default r (snd (RouteInfo r))) (fst (RouteInfo r)) = inl e ->
  ServeHTTP RouteInfo BindValidRequest Produces Respond BindRequest Handle rw r w =
  ServeHTTP RouteInfo BindValidRequest Produces Respond BindRequest Handle' rw r w /\
  fst (ServeHTTP RouteInfo BindValidRequest Produces Respond BindRequest Handle rw r w) = w.
Proof. unfold ServeHTTP. destruct (RouteInfo r) as [route rCtx]. simpl. by intros ->. Qed.

(** The codes of the answers are those of the document. *)
Example codes_documented :
  (fun o => (op_id o, filter (fun c => c <> "default") (fst <$> op_responses o))) <$> operations =
  (fun p => (fst p, (fun c : Z => pretty c) <$> snd p)) <$>
  [("listDAGs", [ListDAGs.OKCode]); ("createDAG", [CreateDAG.OKCode]); ("getDAGDetails", [GetDAGDetails.OKCode]);
   ("postDAGAction", [PostDAGAction.OKCode]); ("deleteDAG", [DeleteDAG.OKCode]);
   ("getHealth", [GetHealth.OKCode; GetHealth.ServiceUnavailableCode]); ("listPythonFiles", [ListPythonFiles.OKCode]);
   ("createPythonFile", [CreatePythonFile.CreatedCode]); ("getPythonFile", [GetPythonFile.OKCode]);
   ("updatePythonFile", [UpdatePythonFile.OKCode]); ("deletePythonFile", [DeletePythonFile.NoContentCode]);
   ("searchDAGs", [SearchDAGs.OKCode]); ("listTags", [ListTags.OKCode])].
Proof. vm_compute. reflexivity. Qed.

(** The operations themselves for handlers, and the capitals of ASCII. *)
Definition new_operation (o : op) (_ : option unit) (_ : option (op_handler string)) : op := o.
Definition ascii_upper (r : Z) : Z := if (97 <=? r)%Z && (r <=? 122)%Z then (r - 32)%Z else r.
Definition fresh_api : DaguAPI string op unit unit unit unit := NewDaguAPI tt tt tt.

Lemma served_operations_witness :
  HandlerFor ascii_upper (Init new_operation (fun _ _ => tt) fresh_api) "post" "/dags/{dagId}" = Some DagsPostDAGAction /\
  HandlerFor ascii_upper (Init new_operation (fun _ _ => tt) fresh_api) "PUT" "/dags/{dagId}" <> Some DagsPostDAGAction.
Proof.
  split.
  - apply (served_operations new_operation ascii_upper (fun _ _ => tt) fresh_api "post" "/dags/{dagId}" DagsPostDAGAction eq_refl).
    exists DagsPostDAGAction. split; [reflexivity|]. exists op_postDAGAction.
    split; [|vm_compute; split_and!; reflexivity]. apply (list_elem_of_lookup_2 _ 3). reflexivity.
  - intros He.
    apply (served_operations new_operation ascii_upper (fun _ _ => tt) fresh_api "PUT" "/dags/{dagId}" DagsPostDAGAction eq_refl) in He.
    destruct He as (o & Ho & d & Hin & Hm & Hp & Hi). vm_compute in Ho. subst o.
    apply list_elem_of_lookup in Hin as [i Hd].
    change (ToUpper ascii_upper "PUT") with "PUT" in Hm.
    do 13 (destruct i as [|i]; [injection Hd as <-; discriminate|]). discriminate.
Defined.
