(* ===== verification/Configuration.v ===== *)
(** * The configuration: internal/config config.go, loader.go, resolver.go

    What the server, the daemon and the command line are told: where files are,
    what the server listens on and whom it admits.  The viper library, which
    reads the file and the environment and decodes them, the operating system
    and the time zone database are arguments; what the program tells viper is a
    record. *)

From stdpp Require Import pretty.
From S2P Require Import Prelude GoStrings Digraph Eval Paths Params Handlers.

(** ** The configuration (config.go) *)

Module AuthBasic.
Record t := mk {
  Enabled : bool;
  Username : string;
  Password : string
}.
End AuthBasic.

Module AuthToken.
Record t := mk {
  Enabled : bool;
  Value : string
}.
End AuthToken.

Module Auth.
Record t := mk {
  Basic : AuthBasic.t;
  Token : AuthToken.t
}.

Definition set_Basic (a : t) (v : AuthBasic.t) : t :=
    mk v (Token a).
Definition set_Token (a : t) (v : AuthToken.t) : t :=
    mk (Basic a) v.
End Auth.

Module PathsConfig.
Record t := mk {
  DAGsDir : string;
  Executable : string;
  LogDir : string;
  DataDir : string;
  SuspendFlagsDir : string;
  AdminLogsDir : string;
  BaseConfig : string
}.

Definition set_DAGsDir (p : t) (v : string) : t :=
    mk v (Executable p) (LogDir p) (DataDir p) (SuspendFlagsDir p) (AdminLogsDir p)
    (BaseConfig p).
Definition set_Executable (p : t) (v : string) : t :=
    mk (DAGsDir p) v (LogDir p) (DataDir p) (SuspendFlagsDir p) (AdminLogsDir p) (BaseConfig
    p).
Definition set_LogDir (p : t) (v : string) : t :=
    mk (DAGsDir p) (Executable p) v (DataDir p) (SuspendFlagsDir p) (AdminLogsDir p)
    (BaseConfig p).
Definition set_DataDir (p : t) (v : string) : t :=
    mk (DAGsDir p) (Executable p) (LogDir p) v (SuspendFlagsDir p) (AdminLogsDir p)
    (BaseConfig p).
Definition set_SuspendFlagsDir (p : t) (v : string) : t :=
    mk (DAGsDir p) (Executable p) (LogDir p) (DataDir p) v (AdminLogsDir p) (BaseConfig p).
Definition set_AdminLogsDir (p : t) (v : string) : t :=
    mk (DAGsDir p) (Executable p) (LogDir p) (DataDir p) (SuspendFlagsDir p) v (BaseConfig
    p).
Definition set_BaseConfig (p : t) (v : string) : t :=
    mk (DAGsDir p) (Executable p) (LogDir p) (DataDir p) (SuspendFlagsDir p) (AdminLogsDir
    p) v.
End PathsConfig.

Module UI.
Record t := mk {
  LogEncodingCharset : string;
  NavbarColor : string;
  NavbarTitle : string;
  MaxDashboardPageLimit : Z
}.

Definition set_LogEncodingCharset (u : t) (v : string) : t :=
    mk v (NavbarColor u) (NavbarTitle u) (MaxDashboardPageLimit u).
Definition set_NavbarColor (u : t) (v : string) : t :=
    mk (LogEncodingCharset u) v (NavbarTitle u) (MaxDashboardPageLimit u).
Definition set_NavbarTitle (u : t) (v : string) : t :=
    mk (LogEncodingCharset u) (NavbarColor u) v (MaxDashboardPageLimit u).
Definition set_MaxDashboardPageLimit (u : t) (v : Z) : t :=
    mk (LogEncodingCharset u) (NavbarColor u) (NavbarTitle u) v.
End UI.

Module TLSConfig.
Record t := mk {
  CertFile : string;
  KeyFile : string
}.
End TLSConfig.

(** [time.Location]. *)
Inductive Location := Local | Loaded (name : string).

(** [Config]: the entries of [Env] in the order of its range; no location is a nil pointer. *)
Module Config.
Record t := mk {
  Host : string;
  Port : Z;
  Debug : bool;
  BasePath : string;
  APIBasePath : string;
  APIBaseURL : string;
  WorkDir : string;
  Headless : bool;
  Auth : Auth.t;
  Paths : PathsConfig.t;
  DAGs : string;
  Executable : string;
  LogDir : string;
  DataDir : string;
  SuspendFlagsDir : string;
  AdminLogsDir : string;
  BaseConfig : string;
  IsBasicAuth : bool;
  BasicAuthUsername : string;
  BasicAuthPassword : string;
  IsAuthToken : bool;
  AuthToken : string;
  LogEncodingCharset : string;
  NavbarColor : string;
  NavbarTitle : string;
  MaxDashboardPageLimit : Z;
  LogFormat : string;
  LatestStatusToday : bool;
  TZ : string;
  Location_ : option Location;
  Env : list (string * string);
  UI : UI.t;
  RemoteNodes : list RemoteNode.t;
  TLS : option TLSConfig.t
}.

Definition set_Host (c : t) (v : string) : t :=
    mk v (Port c) (Debug c) (BasePath c) (APIBasePath c) (APIBaseURL c) (WorkDir c)
    (Headless c) (Auth c) (Paths c) (DAGs c) (Executable c) (LogDir c) (DataDir c)
    (SuspendFlagsDir c) (AdminLogsDir c) (BaseConfig c) (IsBasicAuth c) (BasicAuthUsername
    c) (BasicAuthPassword c) (IsAuthToken c) (AuthToken c) (LogEncodingCharset c)
    (NavbarColor c) (NavbarTitle c) (MaxDashboardPageLimit c) (LogFormat c)
    (LatestStatusToday c) (TZ c) (Location_ c) (Env c) (UI c) (RemoteNodes c) (TLS c).
Definition set_Port (c : t) (v : Z) : t :=
    mk (Host c) v (Debug c) (BasePath c) (APIBasePath c) (APIBaseURL c) (WorkDir c)
    (Headless c) (Auth c) (Paths c) (DAGs c) (Executable c) (LogDir c) (DataDir c)
    (SuspendFlagsDir c) (AdminLogsDir c) (BaseConfig c) (IsBasicAuth c) (BasicAuthUsername
    c) (BasicAuthPassword c) (IsAuthToken c) (AuthToken c) (LogEncodingCharset c)
    (NavbarColor c) (NavbarTitle c) (MaxDashboardPageLimit c) (LogFormat c)
    (LatestStatusToday c) (TZ c) (Location_ c) (Env c) (UI c) (RemoteNodes c) (TLS c).
Definition set_BasePath (c : t) (v : string) : t :=
    mk (Host c) (Port c) (Debug c) v (APIBasePath c) (APIBaseURL c) (WorkDir c) (Headless c)
    (Auth c) (Paths c) (DAGs c) (Executable c) (LogDir c) (DataDir c) (SuspendFlagsDir c)
    (AdminLogsDir c) (BaseConfig c) (IsBasicAuth c) (BasicAuthUsername c) (BasicAuthPassword
    c) (IsAuthToken c) (AuthToken c) (LogEncodingCharset c) (NavbarColor c) (NavbarTitle c)
    (MaxDashboardPageLimit c) (LogFormat c) (LatestStatusToday c) (TZ c) (Location_ c) (Env
    c) (UI c) (RemoteNodes c) (TLS c).
Definition set_APIBasePath (c : t) (v : string) : t :=
    mk (Host c) (Port c) (Debug c) (BasePath c) v (APIBaseURL c) (WorkDir c) (Headless c)
    (Auth c) (Paths c) (DAGs c) (Executable c) (LogDir c) (DataDir c) (SuspendFlagsDir c)
    (AdminLogsDir c) (BaseConfig c) (IsBasicAuth c) (BasicAuthUsername c) (BasicAuthPassword
    c) (IsAuthToken c) (AuthToken c) (LogEncodingCharset c) (NavbarColor c) (NavbarTitle c)
    (MaxDashboardPageLimit c) (LogFormat c) (LatestStatusToday c) (TZ c) (Location_ c) (Env
    c) (UI c) (RemoteNodes c) (TLS c).
Definition set_Auth (c : t) (v : Auth.t) : t :=
    mk (Host c) (Port c) (Debug c) (BasePath c) (APIBasePath c) (APIBaseURL c) (WorkDir c)
    (Headless c) v (Paths c) (DAGs c) (Executable c) (LogDir c) (DataDir c) (SuspendFlagsDir
    c) (AdminLogsDir c) (BaseConfig c) (IsBasicAuth c) (BasicAuthUsername c)
    (BasicAuthPassword c) (IsAuthToken c) (AuthToken c) (LogEncodingCharset c) (NavbarColor
    c) (NavbarTitle c) (MaxDashboardPageLimit c) (LogFormat c) (LatestStatusToday c) (TZ c)
    (Location_ c) (Env c) (UI c) (RemoteNodes c) (TLS c).
Definition set_Paths (c : t) (v : PathsConfig.t) : t :=
    mk (Host c) (Port c) (Debug c) (BasePath c) (APIBasePath c) (APIBaseURL c) (WorkDir c)
    (Headless c) (Auth c) v (DAGs c) (Executable c) (LogDir c) (DataDir c) (SuspendFlagsDir
    c) (AdminLogsDir c) (BaseConfig c) (IsBasicAuth c) (BasicAuthUsername c)
    (BasicAuthPassword c) (IsAuthToken c) (AuthToken c) (LogEncodingCharset c) (NavbarColor
    c) (NavbarTitle c) (MaxDashboardPageLimit c) (LogFormat c) (LatestStatusToday c) (TZ c)
    (Location_ c) (Env c) (UI c) (RemoteNodes c) (TLS c).
Definition set_TZ (c : t) (v : string) : t :=
    mk (Host c) (Port c) (Debug c) (BasePath c) (APIBasePath c) (APIBaseURL c) (WorkDir c)
    (Headless c) (Auth c) (Paths c) (DAGs c) (Executable c) (LogDir c) (DataDir c)
    (SuspendFlagsDir c) (AdminLogsDir c) (BaseConfig c) (IsBasicAuth c) (BasicAuthUsername
    c) (BasicAuthPassword c) (IsAuthToken c) (AuthToken c) (LogEncodingCharset c)
    (NavbarColor c) (NavbarTitle c) (MaxDashboardPageLimit c) (LogFormat c)
    (LatestStatusToday c) v (Location_ c) (Env c) (UI c) (RemoteNodes c) (TLS c).
Definition set_Location_ (c : t) (v : option Location) : t :=
    mk (Host c) (Port c) (Debug c) (BasePath c) (APIBasePath c) (APIBaseURL c) (WorkDir c)
    (Headless c) (Auth c) (Paths c) (DAGs c) (Executable c) (LogDir c) (DataDir c)
    (SuspendFlagsDir c) (AdminLogsDir c) (BaseConfig c) (IsBasicAuth c) (BasicAuthUsername
    c) (BasicAuthPassword c) (IsAuthToken c) (AuthToken c) (LogEncodingCharset c)
    (NavbarColor c) (NavbarTitle c) (MaxDashboardPageLimit c) (LogFormat c)
    (LatestStatusToday c) (TZ c) v (Env c) (UI c) (RemoteNodes c) (TLS c).
Definition set_UI (c : t) (v : UI.t) : t :=
    mk (Host c) (Port c) (Debug c) (BasePath c) (APIBasePath c) (APIBaseURL c) (WorkDir c)
    (Headless c) (Auth c) (Paths c) (DAGs c) (Executable c) (LogDir c) (DataDir c)
    (SuspendFlagsDir c) (AdminLogsDir c) (BaseConfig c) (IsBasicAuth c) (BasicAuthUsername
    c) (BasicAuthPassword c) (IsAuthToken c) (AuthToken c) (LogEncodingCharset c)
    (NavbarColor c) (NavbarTitle c) (MaxDashboardPageLimit c) (LogFormat c)
    (LatestStatusToday c) (TZ c) (Location_ c) (Env c) v (RemoteNodes c) (TLS c).

(** [var cfg Config]. *)
Definition zero : t :=
  mk "" 0%Z false "" "" "" "" false (Auth.mk (AuthBasic.mk false "" "") (AuthToken.mk false ""))
    (PathsConfig.mk "" "" "" "" "" "" "") "" "" "" "" "" "" "" false "" "" false "" "" "" "" 0%Z ""
    false "" None [] (UI.mk "" "" "" 0%Z) [] None.
End Config.

Import Config.

(** *** Older fields *)

(** A setting that is not empty replaces another. *)
Definition if_set (v : string) (set : string -> t -> t) (c : t) : t :=
  if bool_decide (v <> "") then set v c else c.

Definition in_paths (set : PathsConfig.t -> string -> PathsConfig.t) (v : string) (c : t) : t :=
  set_Paths c (set (Paths c) v).
Definition in_ui (set : UI.t -> string -> UI.t) (v : string) (c : t) : t := set_UI c (set (UI c) v).

Definition migrateServerSettings (c : t) : t := if_set (APIBaseURL c) (fun v c => set_APIBasePath c v) c.

Definition migrateAuthSettings (c : t) : t :=
  let c := if IsBasicAuth c
           then set_Auth c (Auth.set_Basic (Auth c) (AuthBasic.mk (IsBasicAuth c) (BasicAuthUsername c) (BasicAuthPassword c)))
           else c in
  if IsAuthToken c then set_Auth c (Auth.set_Token (Auth c) (AuthToken.mk (IsAuthToken c) (AuthToken c))) else c.

Definition migratePaths (c : t) : t :=
  let c := if_set (DAGs c) (in_paths PathsConfig.set_DAGsDir) c in
  let c := if_set (Executable c) (in_paths PathsConfig.set_Executable) c in
  let c := if_set (LogDir c) (in_paths PathsConfig.set_LogDir) c in
  let c := if_set (DataDir c) (in_paths PathsConfig.set_DataDir) c in
  let c := if_set (SuspendFlagsDir c) (in_paths PathsConfig.set_SuspendFlagsDir) c in
  let c := if_set (AdminLogsDir c) (in_paths PathsConfig.set_AdminLogsDir) c in
  if_set (BaseConfig c) (in_paths PathsConfig.set_BaseConfig) c.

Definition migrateUISettings (c : t) : t :=
  let c := if_set (LogEncodingCharset c) (in_ui UI.set_LogEncodingCharset) c in
  let c := if_set (NavbarColor c) (in_ui UI.set_NavbarColor) c in
  let c := if_set (NavbarTitle c) (in_ui UI.set_NavbarTitle) c in
  if (0 <? MaxDashboardPageLimit c)%Z
  then set_UI c (UI.set_MaxDashboardPageLimit (UI c) (MaxDashboardPageLimit c)) else c.

Definition clean_base (p : string) : string :=
  let p := Clean p in
  let p := if IsAbs p then p else Join ["/"; p] in
  if bool_decide (p = "/") then "" else p.

Definition cleanBasePath (c : t) : t :=
  if bool_decide (BasePath c <> "") then set_BasePath c (clean_base (BasePath c)) else c.

Definition MigrateLegacyConfig (c : t) : t :=
  cleanBasePath (migrateUISettings (migratePaths (migrateAuthSettings (migrateServerSettings c)))).

(** A variable that cannot be set is printed. *)
Definition setEnvVariables (c : t) (e : env) : env :=
  foldl (fun e kv => match Setenv e (fst kv) (snd kv) with Ok e => e | Err _ => e end) e (Env c).

(** ** Where files are (resolver.go) *)

(** [build.Slug], [build.AppName]. *)
Definition AppName : string := "Dagu".
Definition Slug : string := "dagu".
(** [strings.ToUpper(build.Slug)]. *)
Definition env_prefix : string := "DAGU".

Record XDGConfig := mkXDG { DataHome : string; ConfigHome : string }.

Record PathResolver := mkResolver {
  pr_ConfigDir : string;
  pr_DAGsDir : string;
  pr_SuspendFlagsDir : string;
  pr_DataDir : string;
  pr_LogsDir : string;
  pr_AdminLogsDir : string;
  pr_BaseConfigFile : string
}.

Definition setXDGPaths (configDir : string) (x : XDGConfig) : PathResolver :=
  mkResolver configDir (Join [ConfigHome x; Slug; "dags"]) (Join [DataHome x; Slug; "suspend"])
    (Join [DataHome x; Slug; "history"]) (Join [DataHome x; Slug; "logs"])
    (Join [DataHome x; Slug; "logs"; "admin"]) (Join [ConfigHome x; Slug; "base.yaml"]).

Definition setLegacyPaths (configDir : string) : PathResolver :=
  mkResolver configDir (Join [configDir; "dags"]) (Join [configDir; "suspend"]) (Join [configDir; "data"])
    (Join [configDir; "logs"]) (Join [configDir; "logs"; "admin"]) (Join [configDir; "base.yaml"]).

Definition Getenv (e : env) (key : string) : string := default "" (e !! key).

Definition newResolver (FileExists : string -> bool) (e : env) (appHomeEnv legacyPath : string) (x : XDGConfig) : PathResolver :=
  if bool_decide (Getenv e appHomeEnv <> "") then setLegacyPaths (Getenv e appHomeEnv)
  else if FileExists legacyPath then setLegacyPaths legacyPath
  else setXDGPaths (Join [ConfigHome x; Slug]) x.

(** ** Loading (loader.go) *)

(** What viper is told. *)
Record viper := mkViper {
  vp_path : list string;
  vp_name : string;
  vp_file : string;
  vp_type : string;
  vp_prefix : string;
  vp_replacer : list (string * string);
  vp_automatic : bool;
  vp_env : list (string * string);
  vp_defaults : list (string * any)
}.

Definition new_viper : viper := mkViper [] "" "" "" "" [] false [] [].

Definition SetConfigName (v : viper) (name : string) : viper :=
  mkViper (vp_path v) name (vp_file v) (vp_type v) (vp_prefix v) (vp_replacer v) (vp_automatic v) (vp_env v) (vp_defaults v).
Definition SetDefault (key : string) (x : any) (v : viper) : viper :=
  mkViper (vp_path v) (vp_name v) (vp_file v) (vp_type v) (vp_prefix v) (vp_replacer v) (vp_automatic v) (vp_env v)
    (vp_defaults v ++ [(key, x)]).

Definition bindEnv (v : viper) (b : string * string) : viper :=
  mkViper (vp_path v) (vp_name v) (vp_file v) (vp_type v) (vp_prefix v) (vp_replacer v) (vp_automatic v)
    (vp_env v ++ [(fst b, env_prefix +:+ "_" +:+ snd b)]) (vp_defaults v).

Definition environment_bindings : list (string * string) :=
  [("logFormat", "LOG_FORMAT"); ("basePath", "BASE_PATH"); ("apiBaseURL", "API_BASE_URL"); ("tz", "TZ");
   ("host", "HOST"); ("port", "PORT"); ("debug", "DEBUG"); ("headless", "HEADLESS");
   ("ui.maxDashboardPageLimit", "UI_MAX_DASHBOARD_PAGE_LIMIT"); ("ui.logEncodingCharset", "UI_LOG_ENCODING_CHARSET");
   ("ui.navbarColor", "UI_NAVBAR_COLOR"); ("ui.navbarTitle", "UI_NAVBAR_TITLE");
   ("ui.maxDashboardPageLimit", "MAX_DASHBOARD_PAGE_LIMIT"); ("ui.logEncodingCharset", "LOG_ENCODING_CHARSET");
   ("ui.navbarColor", "NAVBAR_COLOR"); ("ui.navbarTitle", "NAVBAR_TITLE");
   ("auth.basic.enabled", "AUTH_BASIC_ENABLED"); ("auth.basic.username", "AUTH_BASIC_USERNAME");
   ("auth.basic.password", "AUTH_BASIC_PASSWORD"); ("auth.token.enabled", "AUTH_TOKEN_ENABLED");
   ("auth.token.value", "AUTH_TOKEN");
   ("auth.basic.enabled", "IS_BASICAUTH"); ("auth.basic.username", "BASICAUTH_USERNAME");
   ("auth.basic.password", "BASICAUTH_PASSWORD"); ("auth.token.enabled", "IS_AUTHTOKEN"); ("auth.token.value", "AUTHTOKEN");
   ("tls.certFile", "CERT_FILE"); ("tls.keyFile", "KEY_FILE");
   ("dags", "DAGS"); ("dags", "DAGS_DIR"); ("workDir", "WORK_DIR"); ("baseConfig", "BASE_CONFIG"); ("logDir", "LOG_DIR");
   ("dataDir", "DATA_DIR"); ("suspendFlagsDir", "SUSPEND_FLAGS_DIR"); ("adminLogsDir", "ADMIN_LOG_DIR");
   ("executable", "EXECUTABLE"); ("latestStatusToday", "LATEST_STATUS_TODAY")].

Definition bindEnvironmentVariables (v : viper) : viper := foldl bindEnv v environment_bindings.

Definition default_values (r : PathResolver) : list (string * any) :=
  [("workDir", VStr ""); ("paths.dagsDir", VStr (pr_DAGsDir r)); ("paths.suspendFlagsDir", VStr (pr_SuspendFlagsDir r));
   ("paths.dataDir", VStr (pr_DataDir r)); ("paths.logDir", VStr (pr_LogsDir r));
   ("paths.adminLogsDir", VStr (pr_AdminLogsDir r)); ("paths.baseConfig", VStr (pr_BaseConfigFile r));
   ("host", VStr "127.0.0.1"); ("port", VInt 8080); ("debug", VBool false); ("basePath", VStr "");
   ("apiBaseURL", VStr "/api/v1"); ("latestStatusToday", VBool false);
   ("ui.navbarTitle", VStr AppName); ("ui.maxDashboardPageLimit", VInt 100); ("ui.logEncodingCharset", VStr "utf-8");
   ("logFormat", VStr "text")].

Definition setDefaultValues (r : PathResolver) (v : viper) : viper :=
  foldl (fun v kx => SetDefault (fst kx) (snd kx) v) v (default_values r).

Definition configureViper (configFile : string) (r : PathResolver) (v : viper) : viper :=
  let v := if bool_decide (configFile = "")
           then mkViper (vp_path v ++ [pr_ConfigDir r]) "config" (vp_file v) (vp_type v) (vp_prefix v) (vp_replacer v) (vp_automatic v) (vp_env v) (vp_defaults v)
           else mkViper (vp_path v) (vp_name v) configFile (vp_type v) (vp_prefix v) (vp_replacer v) (vp_automatic v) (vp_env v) (vp_defaults v) in
  mkViper (vp_path v) (vp_name v) (vp_file v) "yaml" env_prefix [("-", "_")] true (vp_env v) (vp_defaults v).

(** [viper.ReadInConfig] and [MergeInConfig]: no file, or another error. *)
Inductive read_error := ConfigFileNotFoundError | OtherReadError (e : error).

(** The outside, as the loader asks it. *)
Record outside := mkOutside {
  out_env : env;
  out_home : result string;
  out_data_home : string;
  out_FileExists : string -> bool;
  out_Executable : result string;
  out_LoadLocation : string -> option error;
  out_zone_offset : Z
}.

(** ** Checks *)

Definition validateConfig (c : t) : option error :=
  if (Port c <? 0)%Z || (65535 <? Port c)%Z then Some (ENew ("invalid port number: " +:+ pretty (Port c)))
  else if AuthBasic.Enabled (Auth.Basic (Auth c)) &&
          (bool_decide (AuthBasic.Username (Auth.Basic (Auth c)) = "") || bool_decide (AuthBasic.Password (Auth.Basic (Auth c)) = ""))
  then Some (ENew "basic auth enabled but username or password is not set")
  else if AuthToken.Enabled (Auth.Token (Auth c)) && bool_decide (AuthToken.Value (Auth.Token (Auth c)) = "")
  then Some (ENew "auth token enabled but token is not set")
  else if match TLS c with
          | Some tls => bool_decide (TLSConfig.CertFile tls = "") || bool_decide (TLSConfig.KeyFile tls = "")
          | None => false
          end
  then Some (ENew "TLS configuration incomplete: both cert and key files are required")
  else if (Port c <? 0)%Z || (65535 <? Port c)%Z then Some (ENew ("invalid port number: " +:+ pretty (Port c)))
  else if (UI.MaxDashboardPageLimit (UI c) <? 1)%Z
  then Some (ENew ("invalid max dashboard page limit: " +:+ pretty (UI.MaxDashboardPageLimit (UI c))))
  else None.

(** [fmt.Sprintf("%+d", n)]. *)
Definition signed (n : Z) : string := (if (n <? 0)%Z then "" else "+") +:+ pretty n.

Definition setTimezone (o : outside) (c : t) (e : env) : env * result t :=
  if bool_decide (TZ c <> "") then
    match out_LoadLocation o (TZ c) with
    | Some x => (e, Err (EWrap "failed to load timezone: " x ""))
    | None =>
        (match Setenv e "TZ" (TZ c) with Ok e => e | Err _ => e end, Ok (set_Location_ c (Some (Loaded (TZ c)))))
    end
  else
    let tz := if (out_zone_offset o =? 0)%Z then "UTC" else "UTC" +:+ signed (Z.quot (out_zone_offset o) 3600) in
    (e, Ok (set_Location_ (set_TZ c tz) (Some Local))).

Definition setExecutable (o : outside) (c : t) : result t :=
  if bool_decide (PathsConfig.Executable (Paths c) = "") then
    match out_Executable o with
    | Err x => Err (EWrap "failed to get executable path: " x "")
    | Ok exe => Ok (in_paths PathsConfig.set_Executable exe c)
    end
  else Ok c.

Definition setExecutableDefault (o : outside) (v : viper) : result viper :=
  match out_Executable o with
  | Err x => Err (EWrap "failed to get executable path: " x "")
  | Ok exe => Ok (SetDefault "executable" (VStr exe) v)
  end.

Definition getHomeDir (o : outside) : result string :=
  match out_home o with
  | Err x => Err (EWrap "could not determine home directory: " x "")
  | Ok dir => Ok dir
  end.

Definition getXDGConfig (o : outside) (homeDir : string) : XDGConfig := mkXDG (out_data_home o) (Join [homeDir; ".config"]).

Definition setupViper (configFile : string) (o : outside) (v : viper) : result viper :=
  match getHomeDir o with
  | Err x => Err x
  | Ok homeDir =>
      let r := newResolver (out_FileExists o) (out_env o) "DAGU_HOME" (Join [homeDir; ".dagu"]) (getXDGConfig o homeDir) in
      setExecutableDefault o (setDefaultValues r (bindEnvironmentVariables (configureViper configFile r v)))
  end.

(** *** Older variables of the environment *)

(** The older variable, the newer one, and what it sets. *)
Definition legacyEnvs : list (string * (string * (t -> string -> t))) :=
  [("DAGU__ADMIN_NAVBAR_COLOR", ("DAGU_NAVBAR_COLOR", fun c v => in_ui UI.set_NavbarColor v c));
   ("DAGU__ADMIN_NAVBAR_TITLE", ("DAGU_NAVBAR_TITLE", fun c v => in_ui UI.set_NavbarTitle v c));
   ("DAGU__ADMIN_PORT", ("DAGU_PORT", fun c v => match Atoi v with Some i => set_Port c i | None => c end));
   ("DAGU__ADMIN_HOST", ("DAGU_HOST", fun c v => set_Host c v));
   ("DAGU__DATA", ("DAGU_DATA_DIR", fun c v => in_paths PathsConfig.set_DataDir v c));
   ("DAGU__SUSPEND_FLAGS_DIR", ("DAGU_SUSPEND_FLAGS_DIR", fun c v => in_paths PathsConfig.set_SuspendFlagsDir v c));
   ("DAGU__ADMIN_LOGS_DIR", ("DAGU_ADMIN_LOG_DIR", fun c v => in_paths PathsConfig.set_AdminLogsDir v c))].

Definition legacy_env (e : env) (c : t) (m : string * (string * (t -> string -> t))) : t :=
  let value := Getenv e (fst m) in
  if bool_decide (value <> "") then snd (snd m) c value else c.

(** The order in which the map is ranged over. *)
Definition LoadLegacyEnv (order : list (string * (string * (t -> string -> t)))) (e : env) (c : t) : t :=
  foldl (legacy_env e) c order.

Section loader.
(** What viper has read; decoding. *)
Context {C : Type}.
Context (ReadInConfig MergeInConfig : viper -> C -> C * option read_error).
Context (Unmarshal : viper -> C -> result t).

Definition tolerated (r : C * option read_error) (text : string) : result C :=
  match r with
  | (_, Some (OtherReadError x)) => Err (EWrap text x "")
  | (s, _) => Ok s
  end.

(** [ConfigLoader.Load]. *)
Definition loader_Load (configFile : string) (o : outside) (v : viper) (s : C) : env * result t :=
  let e := out_env o in
  match setupViper configFile o v with
  | Err x => (e, Err (EWrap "viper setup failed: " x ""))
  | Ok v =>
      match tolerated (ReadInConfig v s) "failed to read config: " with
      | Err x => (e, Err x)
      | Ok s =>
          let v := SetConfigName v "admin" in
          match tolerated (MergeInConfig v s) "failed to read admin config: " with
          | Err x => (e, Err x)
          | Ok s =>
              match Unmarshal v s with
              | Err x => (e, Err (EWrap "failed to unmarshal config: " x ""))
              | Ok cfg =>
                  match setExecutable o cfg with
                  | Err x => (e, Err (EWrap "failed to set executable: " x ""))
                  | Ok cfg =>
                      match setTimezone o cfg e with
                      | (e, Err x) => (e, Err (EWrap "failed to set timezone: " x ""))
                      | (e, Ok cfg) =>
                          match validateConfig cfg with
                          | Some x => (e, Err (EWrap "invalid configuration: " x ""))
                          | None => (e, Ok cfg)
                          end
                      end
                  end
              end
          end
      end
  end.

(** [Load]. *)
Definition Load (configFile : string) (order : list (string * (string * (t -> string -> t)))) (o : outside) (v : viper) (s : C)
    : env * result t :=
  match loader_Load configFile o v s with
  | (e, Err x) => (e, Err (EWrap "failed to load config: " x ""))
  | (e, Ok cfg) =>
      let cfg := MigrateLegacyConfig (LoadLegacyEnv order e cfg) in
      (setEnvVariables cfg e, Ok cfg)
  end.

End loader.
