(* ===== verification/Logger.v ===== *)
(** * Logging: internal/logger logger.go, context.go

    How a logger is made from its options, what each of its operations does to the
    destinations, as a sequence of acquisitions, writes and releases, and the logger of
    a context; the loggers of the commands (cmd/setup.go).  The text of a record and
    the fan-out to several handlers are arguments. *)

From S2P Require Import Prelude GoStrings Digraph Configuration.
From Stdlib Require Import Ascii.

(** ** log/slog *)

Definition LevelDebug : Z := -4.
Definition LevelInfo : Z := 0.
Definition LevelWarn : Z := 4.
Definition LevelError : Z := 8.

Record Record_ := mkRecord { rc_Level : Z; rc_Message : string; rc_Tags : list any }.
Record HandlerOptions := mkHandlerOptions { ho_Level : Z; ho_AddSource : bool }.

(** What was added to a handler. *)
Inductive extra := Attrs (tags : list any) | Group (name : string).

Inductive dest := Stderr | Stdout | File (name : string).

#[export] Instance dest_eq_dec : EqDecision dest.
Proof. solve_decision. Defined.

Inductive format := TextFormat | JSONFormat.

(** A handler of slog, or the guarded one of the program, whose mutex has an identity. *)
Inductive handler :=
| Slog (w : dest) (f : format) (opts : HandlerOptions) (extras : list extra)
| Guarded (h : handler) (writer : dest) (mu : nat).

(** What a goroutine does, in order. *)
Inductive action := ALock (mu : nat) | AUnlock (mu : nat) | AWrite (w : dest) (text : string).

(** ** The guarded handler *)

Definition newGuardedHandler (h : handler) (writer : dest) (mu : nat) : handler := Guarded h writer mu.

Fixpoint Enabled (h : handler) (level : Z) : bool :=
  match h with
  | Slog _ _ opts _ => (ho_Level opts <=? level)%Z
  | Guarded h _ _ => Enabled h level
  end.

Section handle.
(** The text of a record with what was added to the handler, the time and the place. *)
Context (render : format -> HandlerOptions -> list extra -> Record_ -> string).

Fixpoint Handle (h : handler) (r : Record_) : list action :=
  match h with
  | Slog w f opts extras => [AWrite w (render f opts extras r)]
  | Guarded h _ mu => ALock mu :: Handle h r ++ [AUnlock mu]
  end.

(** [WithAttrs] and [WithGroup]: a guarded handler gets a mutex of its own. *)
Fixpoint with_extra (e : extra) (h : handler) (next : nat) : nat * handler :=
  match h with
  | Slog w f opts extras => (next, Slog w f opts (extras ++ [e]))
  | Guarded h w _ => let '(next, h) := with_extra e h next in (S next, Guarded h w next)
  end.

Definition WithAttrs (h : handler) (tags : list any) (next : nat) : nat * handler := with_extra (Attrs tags) h next.
Definition handler_WithGroup (h : handler) (name : string) (next : nat) : nat * handler := with_extra (Group name) h next.

(** ** Options *)

Record LogConfig := mkLogConfig { lc_debug : bool; lc_format : string; lc_writer : option dest; lc_quiet : bool }.

Definition Option_ : Type := LogConfig -> LogConfig.

Definition WithDebug : Option_ := fun o => mkLogConfig true (lc_format o) (lc_writer o) (lc_quiet o).
Definition WithFormat (f : string) : Option_ := fun o => mkLogConfig (lc_debug o) f (lc_writer o) (lc_quiet o).
Definition WithWriter (w : dest) : Option_ := fun o => mkLogConfig (lc_debug o) (lc_format o) (Some w) (lc_quiet o).
Definition WithQuiet : Option_ := fun o => mkLogConfig (lc_debug o) (lc_format o) (lc_writer o) true.

Definition newHandler (w : dest) (f : string) (opts : HandlerOptions) : handler :=
  Slog w (if bool_decide (f = "text") then TextFormat else JSONFormat) opts [].

(** ** Loggers *)

(** The handlers of the fan-out; the guarded handler is kept for [Write]. *)
Record appLogger := mkLogger { al_handlers : list handler; al_guarded : option (dest * nat); al_quiet : bool }.

Definition handler_options (cfg : LogConfig) : HandlerOptions :=
  mkHandlerOptions (if lc_debug cfg then LevelDebug else LevelInfo) (lc_debug cfg).

Definition settings (opts : list Option_) : LogConfig := foldl (fun c o => o c) (mkLogConfig false "" None false) opts.

(** [next] is the identity of the next mutex. *)
Definition NewLogger (opts : list Option_) (next : nat) : nat * appLogger :=
  let cfg := settings opts in
  let stderr := if lc_quiet cfg then [] else [newHandler Stderr (lc_format cfg) (handler_options cfg)] in
  match lc_writer cfg with
  | None => (next, mkLogger stderr None (lc_quiet cfg))
  | Some w =>
      (S next, mkLogger (stderr ++ [newGuardedHandler (newHandler w (lc_format cfg) (handler_options cfg)) w next])
                 (Some (w, next)) (lc_quiet cfg))
  end.

Definition defaultLogger : appLogger := snd (NewLogger [WithFormat "text"] 0).

(** [slogmulti.Fanout]: the handlers it passes a record to, told which are enabled
    for the level. *)
Context (Fanout : list bool -> list nat).

(** [slog.Logger.Log]: nothing when no handler is enabled. *)
Definition log (l : appLogger) (level : Z) (msg : string) (tags : list any) : list action :=
  let enabled := (fun h => Enabled h level) <$> al_handlers l in
  if existsb id enabled then
    Fanout enabled ≫= (fun i => match al_handlers l !! i with
                                | Some h => Handle h (mkRecord level msg tags)
                                | None => []
                                end)
  else [].

(** What an operation does, and whether the program exits after it. *)
Definition effect : Type := list action * bool.

Definition Debug (l : appLogger) (msg : string) (tags : list any) : effect := (log l LevelDebug msg tags, false).
Definition Info (l : appLogger) (msg : string) (tags : list any) : effect := (log l LevelInfo msg tags, false).
Definition Warn (l : appLogger) (msg : string) (tags : list any) : effect := (log l LevelWarn msg tags, false).
Definition Error (l : appLogger) (msg : string) (tags : list any) : effect := (log l LevelError msg tags, false).
Definition Fatal (l : appLogger) (msg : string) (tags : list any) : effect := (log l LevelError msg tags, true).

Section formatted.
(** [fmt.Sprintf]. *)
Context (Sprintf : string -> list any -> string).
Definition Debugf (l : appLogger) (f : string) (v : list any) : effect := Debug l (Sprintf f v) [].
Definition Infof (l : appLogger) (f : string) (v : list any) : effect := Info l (Sprintf f v) [].
Definition Warnf (l : appLogger) (f : string) (v : list any) : effect := Warn l (Sprintf f v) [].
Definition Errorf (l : appLogger) (f : string) (v : list any) : effect := Error l (Sprintf f v) [].
Definition Fatalf (l : appLogger) (f : string) (v : list any) : effect := Fatal l (Sprintf f v) [].
End formatted.

(** Every handler of the fan-out with something added. *)
Fixpoint extend_all (e : extra) (hs : list handler) (next : nat) : nat * list handler :=
  match hs with
  | [] => (next, [])
  | h :: hs =>
      let '(next, h) := with_extra e h next in
      let '(next, hs) := extend_all e hs next in (next, h :: hs)
  end.

(** A logger derived from another: the guarded handler is that of the other, and
    [quiet] is not kept.  Without attributes or a name the handlers stay. *)
Definition With (l : appLogger) (tags : list any) (next : nat) : nat * appLogger :=
  match tags with
  | [] => (next, mkLogger (al_handlers l) (al_guarded l) false)
  | _ => let '(next, hs) := extend_all (Attrs tags) (al_handlers l) next in (next, mkLogger hs (al_guarded l) false)
  end.

Definition WithGroup (l : appLogger) (name : string) (next : nat) : nat * appLogger :=
  if bool_decide (name = "") then (next, mkLogger (al_handlers l) (al_guarded l) false)
  else let '(next, hs) := extend_all (Group name) (al_handlers l) next in (next, mkLogger hs (al_guarded l) false).

Definition line (msg : string) : string := msg +:+ l2s ["010"%char].

Definition Write (l : appLogger) (msg : string) : list action :=
  (if al_quiet l then [] else [AWrite Stdout (line msg)]) ++
  match al_guarded l with
  | None => []
  | Some (w, mu) => [ALock mu; AWrite w (line msg); AUnlock mu]
  end.

(** ** The logger of a context (context.go) *)

Record log_context := mkLogContext { cx_fixed : option appLogger; cx_logger : option appLogger }.

Definition WithLogger (c : log_context) (l : appLogger) : log_context := mkLogContext (cx_fixed c) (Some l).
Definition WithFixedLogger (c : log_context) (l : appLogger) : log_context := mkLogContext (Some l) (cx_logger c).

Definition FromContext (c : log_context) : appLogger :=
  match cx_fixed c with
  | Some l => l
  | None => match cx_logger c with None => defaultLogger | Some l => l end
  end.

Section of_context.
Context (c : log_context).
Definition ctx_Debug := Debug (FromContext c).
Definition ctx_Info := Info (FromContext c).
Definition ctx_Warn := Warn (FromContext c).
Definition ctx_Error := Error (FromContext c).
Definition ctx_Fatal := Fatal (FromContext c).
Definition ctx_Write := Write (FromContext c).
Context (Sprintf : string -> list any -> string).
Definition ctx_Debugf := Debugf Sprintf (FromContext c).
Definition ctx_Infof := Infof Sprintf (FromContext c).
Definition ctx_Warnf := Warnf Sprintf (FromContext c).
Definition ctx_Errorf := Errorf Sprintf (FromContext c).
Definition ctx_Fatalf := Fatalf Sprintf (FromContext c).
End of_context.

(** ** The loggers of the commands (setup.go) *)

Definition loggerContext (cfg : Config.t) (quiet : bool) (c : log_context) (next : nat) : nat * log_context :=
  let opts := (if Config.Debug cfg then [WithDebug] else []) ++ (if quiet then [WithQuiet] else []) ++
    (if bool_decide (Config.LogFormat cfg <> "") then [WithFormat (Config.LogFormat cfg)] else []) in
  let '(next, l) := NewLogger opts next in (next, WithLogger c l).

(** The settings of the configuration are not looked at. *)
Definition loggerContextWithFile (quiet : bool) (f : option dest) (c : log_context) (next : nat) : nat * log_context :=
  let opts := (if quiet then [WithQuiet] else []) ++ match f with Some w => [WithWriter w] | None => [] end in
  let '(next, l) := NewLogger opts next in (next, WithLogger c l).

End handle.

(** ** Goroutines that log *)

(** The mutexes held, what was written where, in order, and what each goroutine has
    still to do.  A write may be done in several parts. *)
Record log_state := mkLogState { ls_held : list nat; ls_out : list (dest * string); ls_gos : list (list action) }.

Inductive log_step : log_state -> log_state -> Prop :=
| step_lock s i mu rest : ls_gos s !! i = Some (ALock mu :: rest) -> mu ∉ ls_held s ->
    log_step s (mkLogState (mu :: ls_held s) (ls_out s) (<[i := rest]> (ls_gos s)))
| step_unlock s i mu rest : ls_gos s !! i = Some (AUnlock mu :: rest) ->
    log_step s (mkLogState (filter (fun m => m <> mu) (ls_held s)) (ls_out s) (<[i := rest]> (ls_gos s)))
| step_write s i w text rest : ls_gos s !! i = Some (AWrite w text :: rest) ->
    log_step s (mkLogState (ls_held s) (ls_out s ++ [(w, text)]) (<[i := rest]> (ls_gos s)))
| step_part s i w part text rest : part <> "" -> ls_gos s !! i = Some (AWrite w (part +:+ text) :: rest) ->
    log_step s (mkLogState (ls_held s) (ls_out s ++ [(w, part)]) (<[i := AWrite w text :: rest]> (ls_gos s))).

(** The step of a goroutine, a write being done whole or in part. *)
Definition act (s : log_state) (who : nat * option string) : option log_state :=
  let '(i, part) := who in
  match ls_gos s !! i with
  | Some (ALock mu :: rest) =>
      if bool_decide (mu ∈ ls_held s) then None else Some (mkLogState (mu :: ls_held s) (ls_out s) (<[i := rest]> (ls_gos s)))
  | Some (AUnlock mu :: rest) => Some (mkLogState (filter (fun m => m <> mu) (ls_held s)) (ls_out s) (<[i := rest]> (ls_gos s)))
  | Some (AWrite w text :: rest) =>
      match part with
      | None => Some (mkLogState (ls_held s) (ls_out s ++ [(w, text)]) (<[i := rest]> (ls_gos s)))
      | Some p =>
          if bool_decide (p <> "") && bool_decide (text = p +:+ String.substring (String.length p) (String.length text) text)
          then Some (mkLogState (ls_held s) (ls_out s ++ [(w, p)])
                 (<[i := AWrite w (String.substring (String.length p) (String.length text) text) :: rest]> (ls_gos s)))
          else None
      end
  | _ => None
  end.

Definition perform (sched : list (nat * option string)) (s : log_state) : option log_state :=
  foldl (fun s who => s ≫= (fun s => act s who)) (Some s) sched.

(** What a destination has received. *)
Definition content (w : dest) (out : list (dest * string)) : bytes :=
  out ≫= (fun o => if bool_decide (fst o = w) then s2l (snd o) else []).

(** An order that keeps the order of each list. *)
Inductive interleaved {A} : list (list A) -> list A -> Prop :=
| interleaved_nil n : interleaved (replicate n []) []
| interleaved_snoc ds order i d x : interleaved ds order -> ds !! i = Some d ->
    interleaved (<[i := d ++ [x]]> ds) (order ++ [x]).

(** What a goroutine asks of a logger. *)
Inductive request := Log (level : Z) (msg : string) (tags : list any) | Free (msg : string).

Definition request_actions (render : format -> HandlerOptions -> list extra -> Record_ -> string)
    (Fanout : list bool -> list nat) (l : appLogger) (r : request) : list action :=
  match r with Log level msg tags => log render Fanout l level msg tags | Free msg => Write l msg end.

(** The lines a request is to leave in the file. *)
Definition request_lines (render : format -> HandlerOptions -> list extra -> Record_ -> string)
    (cfg : LogConfig) (r : request) : list string :=
  match r with
  | Log level msg tags =>
      if (ho_Level (handler_options cfg) <=? level)%Z
      then [render (if bool_decide (lc_format cfg = "text") then TextFormat else JSONFormat) (handler_options cfg) []
              (mkRecord level msg tags)]
      else []
  | Free msg => [line msg]
  end.

(** The documented behaviour of the fan-out: each enabled handler, in order. *)
Definition fanout_law (Fanout : list bool -> list nat) : Prop :=
  forall enabled, Fanout enabled = filter (fun i => enabled !! i = Some true) (seq 0 (length enabled)).

Section whole_lines.
Context (w : dest) (mu : nat).

(** Actions that write to [w] only whole lines under the mutex, with these lines. *)
Inductive guarded : list action -> list string -> Prop :=
| guarded_nil : guarded [] []
| guarded_other w' text rest ls : w' <> w -> guarded rest ls -> guarded (AWrite w' text :: rest) ls
| guarded_line l rest ls : guarded rest ls -> guarded (ALock mu :: AWrite w l :: AUnlock mu :: rest) (l :: ls).

Lemma guarded_app a b ls ls' : guarded a ls -> guarded b ls' -> guarded (a ++ b) (ls ++ ls').
Proof. induction 1; intros Hb; simpl; [done|constructor; auto..]. Qed.

Lemma guarded_concat acts ls : Forall2 guarded acts ls -> guarded (concat acts) (concat ls).
Proof. induction 1; simpl; [constructor|by apply guarded_app]. Qed.

(** Where a goroutine is: outside, writing a line of which a part is written, or
    before the release; with the lines it has left. *)
Inductive place : list action -> option string -> list string -> Prop :=
| place_out rest ls : guarded rest ls -> place rest None ls
| place_writing part l rest ls : guarded rest ls -> place (AWrite w l :: AUnlock mu :: rest) (Some part) ((part +:+ l) :: ls)
| place_written rest ls : guarded rest ls -> place (AUnlock mu :: rest) (Some "") ls.

Record ghost := mkGhost { g_inside : option string; g_done : list string; g_left : list string }.

Definition follows (acts : list action) (lns : list string) (g : ghost) : Prop :=
  place acts (g_inside g) (g_left g) /\ lns = g_done g ++ g_left g.

(** What is written of the line a goroutine is at. *)
Definition parts (gs : list ghost) : bytes := gs ≫= (fun g => s2l (default "" (g_inside g))).

Inductive whole (lines : list (list string)) (s : log_state) : Prop :=
| whole_intro gs order :
    Forall3 follows (ls_gos s) lines gs ->
    (forall i j g h, gs !! i = Some g -> gs !! j = Some h -> is_Some (g_inside g) -> is_Some (g_inside h) -> i = j) ->
    (mu ∈ ls_held s <-> exists i g, gs !! i = Some g /\ is_Some (g_inside g)) ->
    interleaved (g_done <$> gs) order ->
    content w (ls_out s) = (order ≫= s2l) ++ parts gs ->
    whole lines s.
Lemma Forall3_replace {A B C} (P : A -> B -> C -> Prop) l k k' i x z y :
  Forall3 P l k k' -> k !! i = Some y -> P x y z -> Forall3 P (<[i := x]> l) k (<[i := z]> k').
Proof.
  intros HP. revert i. induction HP as [|a b c l k k' ? HP IH]; intros [|i] Hy Hx; simpl in *; simplify_eq; constructor; auto.
Qed.

Lemma content_snoc out w' text :
  content w (out ++ [(w', text)]) = content w out ++ (if bool_decide (w' = w) then s2l text else []).
Proof. unfold content. rewrite bind_app. simpl. by rewrite app_nil_r. Qed.

(** Only one goroutine is inside, so only it has a part. *)
Lemma parts_at gs i g : gs !! i = Some g ->
  (forall j h, gs !! j = Some h -> is_Some (g_inside h) -> j = i) -> parts gs = s2l (default "" (g_inside g)).
Proof.
  unfold parts. revert i. induction gs as [|h gs IH]; intros i Hi Hone; [done|].
  rewrite bind_cons. destruct i as [|i]; simpl in Hi; simplify_eq.
  - assert (Hnil : (gs ≫= (fun g => s2l (default "" (g_inside g)))) = []).
    { clear IH. assert (Hn : forall h, h ∈ gs -> g_inside h = None).
      { intros h [j Hj]%list_elem_of_lookup. destruct (g_inside h) eqn:E; [|done].
        specialize (Hone (S j) h Hj). rewrite E in Hone. discriminate Hone. by eexists. }
      clear Hone. induction gs as [|h gs IH]; [done|]. rewrite bind_cons, (Hn h) by (left; done). apply IH.
      intros h' Hh'. apply Hn. by right. }
    by rewrite Hnil, app_nil_r.
  - destruct (g_inside h) eqn:E.
    { specialize (Hone 0 h eq_refl). rewrite E in Hone. discriminate Hone. by eexists. }
    simpl. apply (IH i); [done|]. intros j h' Hj Hs. by injection (Hone (S j) h' Hj Hs).
Qed.

(** The goroutine at [i] enters, stays inside or stays outside. *)
Definition alone (gs : list ghost) (i : nat) : Prop :=
  forall j h, gs !! j = Some h -> is_Some (g_inside h) -> j = i.

Lemma alone_insert gs i g : alone gs i -> alone (<[i := g]> gs) i.
Proof.
  intros Ha j h Hj Hs. destruct (decide (j = i)) as [->|Hne]; [done|].
  rewrite list_lookup_insert_ne in Hj by done. by apply (Ha j h).
Qed.

Lemma alone_one gs i : alone gs i ->
  forall j k g h, gs !! j = Some g -> gs !! k = Some h -> is_Some (g_inside g) -> is_Some (g_inside h) -> j = k.
Proof. intros Ha j k g h Hj Hk Hg Hh. transitivity i; [by apply (Ha j g)|symmetry; by apply (Ha k h)]. Qed.

Lemma inside_insert gs i g g' : gs !! i = Some g' -> alone gs i ->
  (exists j h, <[i := g]> gs !! j = Some h /\ is_Some (g_inside h)) <-> is_Some (g_inside g).
Proof.
  intros Hi Ha. assert (Hl : <[i := g]> gs !! i = Some g) by (apply list_lookup_insert_eq; by eapply lookup_lt_Some).
  split; [|by exists i, g]. intros (j & h & Hj & Hs).
  destruct (decide (j = i)) as [->|Hne]; [by simplify_eq|].
  rewrite list_lookup_insert_ne in Hj by done. by destruct Hne; apply (Ha j h).
Qed.
(** A goroutine moves: what is to be shown of its new place, when no other is inside. *)
Lemma whole_move lines gos gs i g g' acts order' held' out' :
  Forall3 follows gos lines gs -> gs !! i = Some g -> alone gs i ->
  place acts (g_inside g') (g_left g') -> g_done g' ++ g_left g' = g_done g ++ g_left g ->
  (mu ∈ held' <-> is_Some (g_inside g')) -> interleaved (<[i := g_done g']> (g_done <$> gs)) order' ->
  content w out' = (order' ≫= s2l) ++ s2l (default "" (g_inside g')) ->
  whole lines (mkLogState held' out' (<[i := acts]> gos)).
Proof.
  intros HF Hi Ha Hp Hl Hh Ho Hc.
  destruct (Forall3_lookup_r _ _ _ _ _ _ HF Hi) as (acts0 & lns & Hg & Hln & _ & Heq).
  pose proof (alone_insert gs i g' Ha) as Ha'.
  assert (Hi' : <[i := g']> gs !! i = Some g') by (apply list_lookup_insert_eq; by eapply lookup_lt_Some).
  apply whole_intro with (gs := <[i := g']> gs) (order := order').
  - apply (Forall3_replace _ _ _ _ _ _ _ lns HF Hln). split; [done|]. by rewrite Hl.
  - by apply (alone_one _ i).
  - simpl. rewrite Hh. symmetry. by apply (inside_insert gs i g' g).
  - by rewrite list_fmap_insert.
  - simpl. by rewrite (parts_at _ i g' Hi' Ha').
Qed.

Lemma inside_alone gs i g :
  (forall i j g h, gs !! i = Some g -> gs !! j = Some h -> is_Some (g_inside g) -> is_Some (g_inside h) -> i = j) ->
  gs !! i = Some g -> is_Some (g_inside g) -> alone gs i.
Proof. intros H1 Hi Hs j h Hj Hh. by apply (H1 j i h g). Qed.

(** The place of the goroutine that moves, with what surrounds it. *)
Lemma whole_inv lines s i acts : whole lines s -> ls_gos s !! i = Some acts ->
  exists gs order g lns, Forall3 follows (ls_gos s) lines gs /\ lines !! i = Some lns /\ gs !! i = Some g /\
    place acts (g_inside g) (g_left g) /\ lns = g_done g ++ g_left g /\
    (forall i j g h, gs !! i = Some g -> gs !! j = Some h -> is_Some (g_inside g) -> is_Some (g_inside h) -> i = j) /\
    (mu ∈ ls_held s <-> exists i g, gs !! i = Some g /\ is_Some (g_inside g)) /\
    interleaved (g_done <$> gs) order /\ content w (ls_out s) = (order ≫= s2l) ++ parts gs.
Proof.
  intros [gs order HF H1 Hh Ho Hc] Hgo.
  destruct (Forall3_lookup_l _ _ _ _ _ _ HF Hgo) as (lns & g & Hln & Hi & Hp & Heq). by exists gs, order, g, lns.
Qed.

Lemma lock_whole lines s i m rest : whole lines s -> ls_gos s !! i = Some (ALock m :: rest) -> m ∉ ls_held s ->
  whole lines (mkLogState (m :: ls_held s) (ls_out s) (<[i := rest]> (ls_gos s))).
Proof.
  intros Hw Hgo Hm. destruct (whole_inv _ _ _ _ Hw Hgo) as (gs & order & g & lns & HF & Hln & Hi & Hp & Heq & H1 & Hh & Ho & Hc).
  destruct g as [ins dn lf]. simpl in *. inversion Hp as [? ? Hg| |]; subst. inversion Hg as [| |l rest' ls Hg']; subst.
  assert (Hnone : forall j h, gs !! j = Some h -> g_inside h = None).
  { intros j h Hj. destruct (g_inside h) eqn:E; [|done]. destruct Hm. apply Hh. exists j, h. by rewrite E. }
  assert (Ha : alone gs i) by (intros j h Hj [? Hs]; by rewrite (Hnone j h Hj) in Hs).
  apply (whole_move _ _ gs i _ (mkGhost (Some "") dn (l :: ls)) _ order _ _ HF Hi Ha); simpl; [..|].
  - apply (place_writing "" l). done.
  - done.
  - split; [by eexists|intros _; left; done].
  - rewrite list_insert_id; [done|]. by rewrite list_lookup_fmap, Hi.
  - by rewrite Hc, (parts_at gs i _ Hi Ha).
Qed.

Lemma unlock_whole lines s i m rest : whole lines s -> ls_gos s !! i = Some (AUnlock m :: rest) ->
  whole lines (mkLogState (filter (fun k => k <> m) (ls_held s)) (ls_out s) (<[i := rest]> (ls_gos s))).
Proof.
  intros Hw Hgo. destruct (whole_inv _ _ _ _ Hw Hgo) as (gs & order & g & lns & HF & Hln & Hi & Hp & Heq & H1 & Hh & Ho & Hc).
  destruct g as [ins dn lf]. simpl in *. inversion Hp as [? ? Hg| |? ? Hg]; subst; [inversion Hg|].
  pose proof (inside_alone gs i _ H1 Hi ltac:(by eexists)) as Ha.
  apply (whole_move _ _ gs i _ (mkGhost None dn lf) _ order _ _ HF Hi Ha); simpl; [..|].
  - by apply place_out.
  - done.
  - rewrite list_elem_of_filter. split; [by intros [? _]|by intros [? ?]].
  - rewrite list_insert_id; [done|]. by rewrite list_lookup_fmap, Hi.
  - by rewrite Hc, (parts_at gs i _ Hi Ha).
Qed.

(** A write of a text, whole ([rest] follows) or in part. *)
Lemma write_whole lines s i w' text rest : whole lines s -> ls_gos s !! i = Some (AWrite w' text :: rest) ->
  whole lines (mkLogState (ls_held s) (ls_out s ++ [(w', text)]) (<[i := rest]> (ls_gos s))).
Proof.
  intros Hw Hgo. destruct (whole_inv _ _ _ _ Hw Hgo) as (gs & order & g & lns & HF & Hln & Hi & Hp & Heq & H1 & Hh & Ho & Hc).
  destruct g as [ins dn lf]. simpl in *. inversion Hp as [? ? Hg|pt l rest' ls Hg|]; subst.
  - inversion Hg as [|? ? ? ? Hne Hg'|]; subst. apply whole_intro with (gs := gs) (order := order); try done.
    + rewrite <- (list_insert_id gs i _ Hi). apply (Forall3_replace _ _ _ _ _ _ _ _ HF Hln).
      split; [by apply place_out|done].
    + simpl. by rewrite content_snoc, bool_decide_eq_false_2, app_nil_r.
  - pose proof (inside_alone gs i _ H1 Hi ltac:(by eexists)) as Ha.
    assert (Hd : (g_done <$> gs) !! i = Some dn) by (by rewrite list_lookup_fmap, Hi).
    apply (whole_move _ _ gs i _ (mkGhost (Some "") (dn ++ [pt +:+ text]) ls) _ (order ++ [pt +:+ text]) _ _ HF Hi Ha); simpl; [..|].
    + by apply place_written.
    + by rewrite <- app_assoc.
    + rewrite Hh. split; [by eexists|]. intros _. eexists i, _. split; [done|by eexists].
    + by apply interleaved_snoc.
    + rewrite content_snoc, bool_decide_eq_true_2, Hc, (parts_at gs i _ Hi Ha), bind_app by done. simpl.
      by rewrite s2l_app, !app_nil_r, <- app_assoc.
Qed.

Lemma part_whole lines s i w' part text rest : whole lines s -> ls_gos s !! i = Some (AWrite w' (part +:+ text) :: rest) ->
  whole lines (mkLogState (ls_held s) (ls_out s ++ [(w', part)]) (<[i := AWrite w' text :: rest]> (ls_gos s))).
Proof.
  intros Hw Hgo. destruct (whole_inv _ _ _ _ Hw Hgo) as (gs & order & g & lns & HF & Hln & Hi & Hp & Heq & H1 & Hh & Ho & Hc).
  destruct g as [ins dn lf]. simpl in *. inversion Hp as [? ? Hg|pt l rest' ls Hg|]; subst.
  - inversion Hg as [|? ? ? ? Hne Hg'|]; subst. apply whole_intro with (gs := gs) (order := order); try done.
    + rewrite <- (list_insert_id gs i _ Hi). apply (Forall3_replace _ _ _ _ _ _ _ _ HF Hln).
      split; [by apply place_out, guarded_other|done].
    + simpl. by rewrite content_snoc, bool_decide_eq_false_2, app_nil_r.
  - pose proof (inside_alone gs i _ H1 Hi ltac:(by eexists)) as Ha.
    apply (whole_move _ _ gs i _ (mkGhost (Some (pt +:+ part)) dn ((pt +:+ part +:+ text) :: ls)) _ order _ _ HF Hi Ha); simpl; [..|].
    + replace (pt +:+ part +:+ text) with ((pt +:+ part) +:+ text) by (apply s2l_inj; by rewrite !s2l_app, <- app_assoc).
      by apply place_writing.
    + done.
    + rewrite Hh. split; [by eexists|]. intros _. eexists i, _. split; [done|by eexists].
    + rewrite list_insert_id; [done|]. by rewrite list_lookup_fmap, Hi.
    + rewrite content_snoc, bool_decide_eq_true_2, Hc, (parts_at gs i _ Hi Ha) by done. simpl.
      by rewrite s2l_app, <- app_assoc.
Qed.

Lemma step_whole lines s s' : whole lines s -> log_step s s' -> whole lines s'.
Proof. intros Hw Hst. destruct Hst; [by apply lock_whole|by apply unlock_whole|by eapply write_whole|by eapply part_whole]. Qed.

Lemma steps_whole lines s s' : rtc log_step s s' -> whole lines s -> whole lines s'.
Proof. induction 1; [done|]. eauto using step_whole. Qed.

(** Nobody waits for ever: some goroutine can go on until all are done. *)
Lemma whole_progress lines s : whole lines s -> Forall (fun acts => acts = []) (ls_gos s) \/ exists s', log_step s s'.
Proof.
  intros Hw. destruct (decide (Forall (fun acts => acts = []) (ls_gos s))) as [|Hn]; [by left|right].
  apply not_Forall_Exists, Exists_exists in Hn as (acts & [i Hi]%list_elem_of_lookup & Hne); [|solve_decision].
  destruct (whole_inv _ _ _ _ Hw Hi) as (gs & order & g & lns & HF & _ & _ & Hp & _ & _ & Hh & _ & _).
  destruct acts as [|[m|m|w' text] rest]; [by destruct Hne| |eexists; by apply (step_unlock s i m rest)|eexists; by apply (step_write s i w' text rest)].
  destruct (decide (m ∈ ls_held s)) as [Hm|]; [|eexists; by apply (step_lock s i m rest)].
  assert (m = mu) as -> by (inversion Hp as [? ? Hg| |]; by inversion Hg).
  apply Hh in Hm as (j & h & Hj & [p Hs]).
  destruct (Forall3_lookup_r _ _ _ _ _ _ HF Hj) as (actsj & ? & Hgj & _ & Hpj & _). rewrite Hs in Hpj.
  inversion Hpj; subst; [eexists; by eapply (step_write s j)|eexists; by eapply (step_unlock s j)].
Qed.

Lemma whole_done lines s : whole lines s -> Forall (fun acts => acts = []) (ls_gos s) ->
  exists order, interleaved lines order /\ content w (ls_out s) = order ≫= s2l.
Proof.
  intros [gs order HF _ _ Ho Hc] Hall. exists order.
  assert (HG : Forall2 (fun lns g => lns = g_done g /\ g_inside g = None) lines gs).
  { clear Ho Hc. induction HF as [|acts lns g gos' ls' gs' [Hp Heq] HF IH]; [constructor|].
    apply Forall_cons in Hall as [-> Hall]. constructor; [|by apply IH].
    destruct g as [ins dn lf]; simpl in *. inversion Hp as [? ? Hg| |]; subst. inversion Hg; subst. by rewrite app_nil_r. }
  clear HF Hall. assert (lines = g_done <$> gs /\ parts gs = []) as [-> Hp].
  { clear Ho Hc. induction HG as [|lns g ls' gs' [-> Hi] HG [-> IH]]; [done|].
    split; [done|]. unfold parts. rewrite bind_cons, Hi. exact IH. }
  by rewrite Hc, Hp, app_nil_r.
Qed.

Lemma start_whole gos lines : Forall2 guarded gos lines -> whole lines (mkLogState [] [] gos).
Proof.
  intros HF. apply whole_intro with (gs := mkGhost None [] <$> lines) (order := []); simpl.
  - induction HF; constructor; [split; [by apply place_out|done]|done].
  - intros i j g h [? [-> _]]%list_lookup_fmap_Some_1 _ [? [=]].
  - split; [by intros ?%elem_of_nil|]. by intros (i & g & [? [-> _]]%list_lookup_fmap_Some_1 & [? [=]]).
  - replace (g_done <$> (mkGhost None [] <$> lines)) with (replicate (length lines) (@nil string)); [constructor|].
    clear HF. induction lines as [|ln lines' IH]; [done|]. simpl. by f_equal.
  - clear HF. induction lines; [done|]. unfold parts. by rewrite fmap_cons, bind_cons.
Qed.
End whole_lines.

(** ** The requests of a logger with a file *)

Lemma fanout_indices Fanout (Hf : fanout_law Fanout) :
  Fanout [true] = [0] /\ Fanout [false] = [] /\ Fanout [true; true] = [0; 1] /\ Fanout [false; false] = [].
Proof. rewrite !Hf. done. Qed.

Lemma request_guarded render Fanout opts next next' l name r : fanout_law Fanout ->
  lc_writer (settings opts) = Some (File name) -> NewLogger opts next = (next', l) ->
  guarded (File name) next (request_actions render Fanout l r) (request_lines render (settings opts) r).
Proof.
  intros Hf Hw. unfold NewLogger. rewrite Hw. intros [= <- <-].
  destruct (fanout_indices Fanout Hf) as (H1 & H2 & H3 & H4).
  destruct r as [level msg tags|msg]; simpl.
  - unfold log. cbn [al_handlers]. destruct (lc_quiet (settings opts)); simpl;
      destruct (_ <=? level)%Z; simpl; rewrite ?H1, ?H2, ?H3, ?H4; simpl; repeat constructor; done.
  - unfold Write. simpl. destruct (lc_quiet (settings opts)); simpl; repeat constructor; done.
Qed.

(** C34: the lines of a log file stay whole.  Of a logger made with a file, quiet or
    not, text or JSON, with any level, let several goroutines ask for any records and
    free lines, their actions running in any order and a write being done in any
    number of parts.  In every state that can be reached some goroutine can go on, or
    the file holds exactly the lines of all the requests, each in one piece, those of
    each goroutine in its order. *)
Theorem lines_stay_whole render Fanout opts next next' l name (gos : list (list request)) s :
  fanout_law Fanout -> lc_writer (settings opts) = Some (File name) -> NewLogger opts next = (next', l) ->
  rtc log_step (mkLogState [] [] ((fun rs => rs ≫= request_actions render Fanout l) <$> gos)) s ->
  (exists s', log_step s s') \/
  exists order, interleaved ((fun rs => rs ≫= request_lines render (settings opts)) <$> gos) order /\
    content (File name) (ls_out s) = order ≫= s2l.
Proof.
  intros Hf Hw Hl Hs.
  assert (H : whole (File name) next ((fun rs => rs ≫= request_lines render (settings opts)) <$> gos) s).
  { apply (steps_whole _ _ _ _ _ Hs), start_whole, Forall2_fmap_2, Forall_Forall2_diag, Forall_forall.
    intros rs _. induction rs as [|r rs IH]; [constructor|]. rewrite !bind_cons.
    by apply guarded_app; [eapply request_guarded|]. }
  destruct (whole_progress _ _ _ _ H) as [Hd|]; [right|by left]. by apply (whole_done _ _ _ _ H).
Qed.

Definition demo_render (f : format) (o : HandlerOptions) (es : list extra) (r : Record_) : string := line (rc_Message r).
Definition demo_fanout (enabled : list bool) : list nat := filter (fun i => enabled !! i = Some true) (seq 0 (length enabled)).


Lemma act_step s who s' : act s who = Some s' -> log_step s s'.
Proof.
  destruct who as [i part]. unfold act. destruct (ls_gos s !! i) as [[|[m|m|w text] rest]|] eqn:Hi; try done.
  - case_bool_decide; [done|]. intros [= <-]. by apply step_lock.
  - intros [= <-]. by apply step_unlock.
  - destruct part as [p|]; [|intros [= <-]; by apply step_write].
    destruct (bool_decide (p <> "")) eqn:Hp; [|done]. apply bool_decide_eq_true in Hp.
    simpl. case_bool_decide as Ht; [|done]. intros [= <-]. apply step_part; [done|]. by rewrite <- Ht.
Qed.

Lemma perform_steps sched s s' : perform sched s = Some s' -> rtc log_step s s'.
Proof.
  revert s. induction sched as [|who sched IH]; intros s; [intros [= <-]; done|].
  unfold perform. simpl. destruct (act s who) as [s1|] eqn:E.
  - intros H. eapply rtc_l; [by apply (act_step _ who)|]. by apply IH.
  - intros H. exfalso. clear IH. revert H. induction sched as [|? ? IH]; [done|exact IH].
Qed.

Definition demo_opts : list Option_ := [WithQuiet; WithFormat "text"; WithWriter (File "a.log")].
Definition demo_logger : appLogger := snd (NewLogger demo_opts 0).

Lemma lines_stay_whole_witness :
  fanout_law demo_fanout /\ lc_writer (settings demo_opts) = Some (File "a.log") /\
  exists s, perform [(0, None); (0, Some "o"); (0, None); (0, None); (1, None); (1, None); (1, None)]
      (mkLogState [] [] ((fun rs => rs ≫= request_actions demo_render demo_fanout demo_logger) <$>
         [[Log LevelInfo "one" []]; [Free "two"]])) = Some s /\
    ((exists s', log_step s s') \/
     exists order, interleaved [[line "one"]; [line "two"]] order /\ content (File "a.log") (ls_out s) = order ≫= s2l).
Proof.
  split; [intros ?; reflexivity|]. split; [reflexivity|].
  eexists. split; [vm_compute; reflexivity|].
  apply (lines_stay_whole demo_render demo_fanout demo_opts 0 1 demo_logger "a.log" [[Log LevelInfo "one" []]; [Free "two"]]).
  - intros ?; reflexivity.
  - reflexivity.
  - reflexivity.
  - apply (perform_steps [(0, None); (0, Some "o"); (0, None); (0, None); (1, None); (1, None); (1, None)]).
    vm_compute. reflexivity.
Defined.

(** ** What is lost by a logger that is derived *)

(** It has a mutex of its own for records and the other's for free lines, which can
    then be written in the middle of a record. *)
Example derived_lines_mix :
  let derived := snd (With demo_logger [VStr "k"; VStr "v"] 1) in
  exists s, rtc log_step (mkLogState [] [] [request_actions demo_render demo_fanout derived (Log LevelInfo "one" []);
      request_actions demo_render demo_fanout derived (Free "two")]) s /\
    content (File "a.log") (ls_out s) = s2l "o" ++ s2l (line "two") ++ s2l (line "ne").
Proof.
  eexists. split; [apply (perform_steps [(0, None); (0, Some "o"); (1, None); (1, None); (1, None); (0, None); (0, None)]);
    vm_compute; reflexivity|]. vm_compute. reflexivity.
Qed.

(** It is not quiet any more. *)
Example derived_not_quiet :
  Write demo_logger "x" = [ALock 0; AWrite (File "a.log") (line "x"); AUnlock 0] /\
  Write (snd (With demo_logger [] 1)) "x" =
    [AWrite Stdout (line "x"); ALock 0; AWrite (File "a.log") (line "x"); AUnlock 0] /\
  al_quiet (snd (WithGroup demo_logger "g" 1)) = false.
Proof. vm_compute. auto. Qed.

(** The logger of a command with a file does not depend on the configuration: records
    of debug level are dropped and the format is JSON. *)
Lemma file_logger_ignores_configuration (quiet : bool) (f : option dest) c next :
  lc_debug (settings ((if quiet then [WithQuiet] else []) ++ match f with Some w => [WithWriter w] | None => [] end)) = false /\
  al_guarded (FromContext (snd (loggerContextWithFile quiet f (mkLogContext None c) next))) = (fun w => (w, next)) <$> f.
Proof. destruct quiet, f; done. Qed.

(** A fixed logger is not replaced. *)
Lemma fixed_logger_kept c l l' : FromContext (WithLogger (WithFixedLogger c l) l') = l.
Proof. done. Qed.
