(* ===== verification/Daemon.v ===== *)
(** * The life of the daemon: internal/scheduler scheduler.go, manager.go

    [Start], the loop of ticks, the goroutine that waits for a signal, [Stop], the
    watching of the directory and the goroutines of the jobs, as one step relation.
    What a tick starts and what an event changes is in JobSched; the directory, the
    loader, the flags and the statuses are asked at the time of the clock. *)

From S2P Require Import Prelude GoStrings Vars Digraph NodeData Paths Node Sched Model JobSched JobProps Configuration.

(** ** The scheduler and the manager *)

Record Scheduler := mkScheduler { sc_logDir : string; sc_location : Location }.

(** [New] of the scheduler. *)
Definition New (cfg : Config.t) : Scheduler :=
  mkScheduler (PathsConfig.LogDir (Config.Paths cfg)) (default Local (Config.Location_ cfg)).

Record dagJobManager := mkManager { mg_targetDir : string; mg_registry : registry; mg_executable : string; mg_workDir : string }.

Definition NewDAGJobManager (dir executable workDir : string) : dagJobManager := mkManager dir ∅ executable workDir.

(** [now] and the fixed time of the tests. *)
Definition setFixedTime (t : option Z) (fixed : option Z) : option Z := t.
Definition now (fixed : option Z) (clock : Z) : Z := default clock fixed.

(** [filenotify.New]: the watcher of the system, or the one that polls; never an error. *)
Inductive watcher_kind := EventWatcher | PollingWatcher (interval : Z).

Definition filenotify_New (interval : Z) (newEventWatcher : option error) : result watcher_kind :=
  match newEventWatcher with
  | None => Ok EventWatcher
  | Some _ => Ok (PollingWatcher interval)
  end.

(** ** The state *)

(** Where [Start] is: at the manager, at [signal.Notify], before the goroutine, at the
    clock of [start], before [running] is set, in the loop with the next tick, or
    returned. *)
Inductive main_pc := MManager | MNotify | MGo | MClock | MStore (t : Z) | MLoop (t : Z) | MReturned (e : option error).

(** Where the goroutine of [Start] is: not yet there, in its select, in [Stop] before
    it reads [running], before it closes the channel, before it clears [running], or
    gone. *)
Inductive stop_pc := SAbsent | SSelect | SLoad | SClose | SClear | SGone.

(** Where [watchDags] is. *)
Inductive watch_pc := WAbsent | WNew | WSelect (k : watcher_kind) | WGone.

(** [d_timer] is when the timer is due, [d_sig] a signal in its channel; [d_runs] the
    jobs started at each tick, [d_waiting] those whose goroutine has not asked yet and
    [d_calls] what the others did. *)
Record daemon := mkDaemon {
  d_main : main_pc;
  d_stop : stop_pc;
  d_watcher : watch_pc;
  d_running : bool;
  d_stopChan : bool;
  d_panicked : bool;
  d_done : bool;
  d_timer : option Z;
  d_sig : bool;
  d_canceled : bool;
  d_now : Z;
  d_registry : registry;
  d_runs : list (Z * list ScheduledJob);
  d_waiting : list ScheduledJob;
  d_calls : list (ScheduledJob * result client_call)
}.

Definition set_d_main (x : main_pc) (d : daemon) : daemon :=
    mkDaemon x (d_stop d) (d_watcher d) (d_running d) (d_stopChan d) (d_panicked d) (d_done d) (d_timer
    d) (d_sig d) (d_canceled d) (d_now d) (d_registry d) (d_runs d) (d_waiting d) (d_calls d).
Definition set_d_stop (x : stop_pc) (d : daemon) : daemon :=
    mkDaemon (d_main d) x (d_watcher d) (d_running d) (d_stopChan d) (d_panicked d) (d_done d) (d_timer
    d) (d_sig d) (d_canceled d) (d_now d) (d_registry d) (d_runs d) (d_waiting d) (d_calls d).
Definition set_d_watcher (x : watch_pc) (d : daemon) : daemon :=
    mkDaemon (d_main d) (d_stop d) x (d_running d) (d_stopChan d) (d_panicked d) (d_done d) (d_timer d)
    (d_sig d) (d_canceled d) (d_now d) (d_registry d) (d_runs d) (d_waiting d) (d_calls d).
Definition set_d_running (x : bool) (d : daemon) : daemon :=
    mkDaemon (d_main d) (d_stop d) (d_watcher d) x (d_stopChan d) (d_panicked d) (d_done d) (d_timer d)
    (d_sig d) (d_canceled d) (d_now d) (d_registry d) (d_runs d) (d_waiting d) (d_calls d).
Definition set_d_stopChan (x : bool) (d : daemon) : daemon :=
    mkDaemon (d_main d) (d_stop d) (d_watcher d) (d_running d) x (d_panicked d) (d_done d) (d_timer d)
    (d_sig d) (d_canceled d) (d_now d) (d_registry d) (d_runs d) (d_waiting d) (d_calls d).
Definition set_d_panicked (x : bool) (d : daemon) : daemon :=
    mkDaemon (d_main d) (d_stop d) (d_watcher d) (d_running d) (d_stopChan d) x (d_done d) (d_timer d)
    (d_sig d) (d_canceled d) (d_now d) (d_registry d) (d_runs d) (d_waiting d) (d_calls d).
Definition set_d_done (x : bool) (d : daemon) : daemon :=
    mkDaemon (d_main d) (d_stop d) (d_watcher d) (d_running d) (d_stopChan d) (d_panicked d) x (d_timer
    d) (d_sig d) (d_canceled d) (d_now d) (d_registry d) (d_runs d) (d_waiting d) (d_calls d).
Definition set_d_timer (x : option Z) (d : daemon) : daemon :=
    mkDaemon (d_main d) (d_stop d) (d_watcher d) (d_running d) (d_stopChan d) (d_panicked d) (d_done d)
    x (d_sig d) (d_canceled d) (d_now d) (d_registry d) (d_runs d) (d_waiting d) (d_calls d).
Definition set_d_sig (x : bool) (d : daemon) : daemon :=
    mkDaemon (d_main d) (d_stop d) (d_watcher d) (d_running d) (d_stopChan d) (d_panicked d) (d_done d)
    (d_timer d) x (d_canceled d) (d_now d) (d_registry d) (d_runs d) (d_waiting d) (d_calls d).
Definition set_d_canceled (x : bool) (d : daemon) : daemon :=
    mkDaemon (d_main d) (d_stop d) (d_watcher d) (d_running d) (d_stopChan d) (d_panicked d) (d_done d)
    (d_timer d) (d_sig d) x (d_now d) (d_registry d) (d_runs d) (d_waiting d) (d_calls d).
Definition set_d_now (x : Z) (d : daemon) : daemon :=
    mkDaemon (d_main d) (d_stop d) (d_watcher d) (d_running d) (d_stopChan d) (d_panicked d) (d_done d)
    (d_timer d) (d_sig d) (d_canceled d) x (d_registry d) (d_runs d) (d_waiting d) (d_calls d).
Definition set_d_registry (x : registry) (d : daemon) : daemon :=
    mkDaemon (d_main d) (d_stop d) (d_watcher d) (d_running d) (d_stopChan d) (d_panicked d) (d_done d)
    (d_timer d) (d_sig d) (d_canceled d) (d_now d) x (d_runs d) (d_waiting d) (d_calls d).
Definition set_d_runs (x : list (Z * list ScheduledJob)) (d : daemon) : daemon :=
    mkDaemon (d_main d) (d_stop d) (d_watcher d) (d_running d) (d_stopChan d) (d_panicked d) (d_done d)
    (d_timer d) (d_sig d) (d_canceled d) (d_now d) (d_registry d) x (d_waiting d) (d_calls d).
Definition set_d_waiting (x : list ScheduledJob) (d : daemon) : daemon :=
    mkDaemon (d_main d) (d_stop d) (d_watcher d) (d_running d) (d_stopChan d) (d_panicked d) (d_done d)
    (d_timer d) (d_sig d) (d_canceled d) (d_now d) (d_registry d) (d_runs d) x (d_calls d).
Definition set_d_calls (x : list (ScheduledJob * result client_call)) (d : daemon) : daemon :=
    mkDaemon (d_main d) (d_stop d) (d_watcher d) (d_running d) (d_stopChan d) (d_panicked d) (d_done d)
    (d_timer d) (d_sig d) (d_canceled d) (d_now d) (d_registry d) (d_runs d) (d_waiting d) x.

Definition daemon_start (clock : Z) : daemon :=
  mkDaemon MManager SAbsent WAbsent false false false false None false false clock ∅ [] [] [].

(** What the world answers at a time. *)
Record outside := mkOutside {
  o_readDir : Z -> result (list string);
  o_load : Z -> string -> result DAG.t;
  o_suspended : Z -> string -> bool;
  o_latest : Z -> ScheduledJob -> result MStatus.t;
  o_newEventWatcher : option error
}.

(** What a watcher delivers: an event, an error, or the end of its channels. *)
Inductive delivery := DEvent (name : string) (op : Z) | DError (e : error) | DClosed.

Section daemon.
Context (parse_rfc3339 parse_legacy : string -> option Z) (o : outside) (fixed : option Z).

(** [Start] returns: the deferred close. *)
Definition returned (e : option error) (d : daemon) : daemon := set_d_done true (set_d_main (MReturned e) d).

(** [manager.Start]. *)
Definition manager_Start (d : daemon) : daemon :=
  match o_readDir o (d_now d) with
  | Err e => returned (Some (EWrap "failed to start manager: " (EWrap "failed to initialize DAGs: " e "") "")) d
  | Ok entries =>
      set_d_main MNotify (set_d_watcher WNew
        (set_d_registry (initialize (o_load o (d_now d)) entries (d_registry d)) d))
  end.

(** A tick; [dags] are the workflows of the registry in the order of the range. *)
Definition tick (t : Z) (dags : list DAG.t) (d : daemon) : daemon :=
  let jobs := run_jobs (o_suspended o (d_now d)) dags t in
  let t' := nextTick t in
  set_d_main (MLoop t') (set_d_timer (Some (d_now d + (t' - now fixed (d_now d))))%Z
    (set_d_runs (d_runs d ++ [(t, jobs)]) (set_d_waiting (d_waiting d ++ jobs) d))).

(** The rest of the goroutine of a job. *)
Definition job_goes (i : nat) (j : ScheduledJob) (d : daemon) : daemon :=
  set_d_calls (d_calls d ++ [(j, invoke parse_rfc3339 parse_legacy (o_latest o (d_now d) j) j)])
    (set_d_waiting (delete i (d_waiting d)) d).

(** What [watchDags] does with a delivery. *)
Definition watch_delivery (x : delivery) (d : daemon) : daemon :=
  match x with
  | DEvent name op => set_d_registry (on_event (o_load o (d_now d)) (d_registry d) (name, op)) d
  | DError _ => d
  | DClosed => set_d_watcher WGone d
  end.

(** [Stop], in the goroutine: closing a closed channel panics. *)
Definition close_stopChan (d : daemon) : daemon :=
  if d_stopChan d then set_d_panicked true d else set_d_stop SClear (set_d_stopChan true d).

Inductive daemon_step : daemon -> daemon -> Prop :=
| st_manager d : d_main d = MManager -> daemon_step d (manager_Start d)
| st_notify d : d_main d = MNotify -> daemon_step d (set_d_main MGo d)
| st_go d : d_main d = MGo -> daemon_step d (set_d_main MClock (set_d_stop SSelect d))
| st_clock d : d_main d = MClock ->
    daemon_step d (set_d_main (MStore (Truncate minute_ns (now fixed (d_now d)))) (set_d_timer (Some (d_now d)) d))
| st_store d t : d_main d = MStore t -> daemon_step d (set_d_main (MLoop t) (set_d_running true d))
| st_tick d t at_ dags : d_main d = MLoop t -> d_timer d = Some at_ -> (at_ <= d_now d)%Z ->
    Permutation dags (snd <$> map_to_list (d_registry d)) -> daemon_step d (tick t dags d)
| st_end d t : d_main d = MLoop t -> d_stopChan d = true -> daemon_step d (returned None (set_d_timer None d))
| st_job d i j : d_waiting d !! i = Some j -> daemon_step d (job_goes i j d)
| st_select_done d : d_stop d = SSelect -> d_done d = true -> daemon_step d (set_d_stop SGone d)
| st_select_sig d : d_stop d = SSelect -> d_sig d = true -> daemon_step d (set_d_stop SLoad (set_d_sig false d))
| st_select_ctx d : d_stop d = SSelect -> d_canceled d = true -> daemon_step d (set_d_stop SLoad d)
| st_load d : d_stop d = SLoad -> daemon_step d (set_d_stop (if d_running d then SClose else SGone) d)
| st_close d : d_stop d = SClose -> daemon_step d (close_stopChan d)
| st_clear d : d_stop d = SClear -> daemon_step d (set_d_stop SGone (set_d_running false d))
| st_watch_new d : d_watcher d = WNew ->
    daemon_step d (set_d_watcher (match filenotify_New minute_ns (o_newEventWatcher o) with
                                  | Ok k => WSelect k | Err _ => WGone end) d)
| st_watch d k x : d_watcher d = WSelect k -> daemon_step d (watch_delivery x d)
| st_watch_done d k : d_watcher d = WSelect k -> d_done d = true -> daemon_step d (set_d_watcher WGone d)
(** The world: a signal after [signal.Notify] (the channel holds one), the end of the
    context, time. *)
| st_signal d : d_main d <> MManager -> d_main d <> MNotify -> daemon_step d (set_d_sig true d)
| st_cancel d : daemon_step d (set_d_canceled true d)
| st_time d t : (d_now d <= t)%Z -> daemon_step d (set_d_now t d).

End daemon.

(** ** What holds in every state *)

Definition is_returned (m : main_pc) : bool := match m with MReturned _ => true | _ => false end.

(** Where [Start] and its goroutine can be together, with [running], [stopChan] and
    whether the timer is set. *)
Definition together (m : main_pc) (st : stop_pc) (running stopChan timer : bool) : bool :=
  match m, st with
  | (MManager | MNotify | MGo | MReturned (Some _)), SAbsent => negb running && negb stopChan
  | MClock, (SSelect | SLoad | SGone) => negb running && negb stopChan
  | MStore _, (SSelect | SLoad | SGone) => timer && negb running && negb stopChan
  | MLoop _, (SSelect | SLoad | SClose) => timer && running && negb stopChan
  | MLoop _, SClear => timer && running && stopChan
  | MLoop _, SGone => timer && xorb running stopChan
  | MReturned None, SClear => running && stopChan
  | MReturned None, SGone => negb running && stopChan
  | _, _ => false
  end.

Record control (d : daemon) : Prop := mkControl {
  ct_panicked : d_panicked d = false;
  ct_done : d_done d = is_returned (d_main d);
  ct_together : together (d_main d) (d_stop d) (d_running d) (d_stopChan d) (bool_decide (is_Some (d_timer d))) = true
}.

Section life.
#[local] Opaque on_event run_jobs nextTick Truncate.
Context (parse_rfc3339 parse_legacy : string -> option Z) (o : outside) (fixed : option Z).
Abbreviation step := (daemon_step parse_rfc3339 parse_legacy o fixed).

(** The states the daemon went through on its way. *)
Definition through (clock : Z) (d1 d : daemon) : Prop := rtc step (daemon_start clock) d1 /\ rtc step d1 d.

Lemma through_step clock d1 d d' : through clock d1 d -> step d d' -> through clock d1 d'.
Proof. intros [H1 H2] Hs. split; [done|]. by eapply rtc_r. Qed.

(** The time read by [start]. *)
Definition started (clock c : Z) (d : daemon) : Prop :=
  exists d0, through clock d0 d /\ d_main d0 = MClock /\ c = now fixed (d_now d0).

Lemma started_step clock c d d' : started clock c d -> step d d' -> started clock c d'.
Proof. intros (d0 & H & ?) Hs. exists d0. split; [by eapply through_step|done]. Qed.

(** A tick: what it started was due at its minute, of the registry and the flags
    at the time it ran, which was not before the timer. *)
Definition ticked (clock : Z) (d : daemon) (i : nat) (t : Z) (jobs : list ScheduledJob) : Prop :=
  exists d1 at_ dags, through clock d1 d /\ d_main d1 = MLoop t /\ length (d_runs d1) = i /\
    d_timer d1 = Some at_ /\ (at_ <= d_now d1)%Z /\
    Permutation dags (snd <$> map_to_list (d_registry d1)) /\
    jobs = run_jobs (o_suspended o (d_now d1)) dags t.

Lemma ticked_step clock d d' i t jobs : ticked clock d i t jobs -> step d d' -> ticked clock d' i t jobs.
Proof.
  intros (d1 & at_ & dags & H & ?) Hs. exists d1, at_, dags. split; [by eapply through_step|done].
Qed.

(** The ticks follow each other, and each started job is with one goroutine. *)
Record paced (clock : Z) (d : daemon) : Prop := mkPaced {
  pc_ticks : match d_main d with
             | MStore t => d_runs d = [] /\ exists c, started clock c d /\ t = Truncate minute_ns c
             | MLoop t => exists c, started clock c d /\ (d_runs d).*1 ++ [t] = start_ticks c (S (length (d_runs d)))
             | MReturned None => exists c, started clock c d /\ (d_runs d).*1 = start_ticks c (length (d_runs d))
             | _ => d_runs d = []
             end;
  pc_jobs : forall i t jobs, d_runs d !! i = Some (t, jobs) -> ticked clock d i t jobs;
  pc_goroutines : Permutation (d_waiting d ++ (d_calls d).*1) (concat (d_runs d).*2)
}.

Lemma start_control clock : control (daemon_start clock).
Proof. by split. Qed.

Lemma manager_control d : d_main d = MManager -> control d -> control (manager_Start o d).
Proof.
  intros Hm [H1 H2 H3]. unfold manager_Start, returned. rewrite Hm in *.
  destruct (o_readDir o (d_now d)); split; try done; simpl; destruct (d_stop d); done.
Qed.

(** All the places and flags. *)
Ltac control_cases :=
  match goal with H : control _ |- _ => destruct H as [C1 C2 C3] end;
  cbn [d_main d_stop d_running d_stopChan d_timer d_panicked d_done] in *; simplify_eq;
  match goal with C : together ?m ?s ?r ?c (bool_decide (is_Some ?a)) = true |- _ =>
    try (is_var a; destruct a); try (is_var r; destruct r); try (is_var c; destruct c);
    try (is_var s; destruct s); try (is_var m; destruct m as [| | | | | |[]]);
    simpl in C; try discriminate C
  end; split; simpl in *; done.

Lemma step_control d d' : step d d' -> control d -> control d'.
Proof.
  intros Hs Hc. destruct Hs as [d Hm|d Hm|d Hm|d Hm|d t Hm|d t at_ dags Hm Ht Ha Hp|d t Hm Hst|d i j Hj|d Hst Hd|d Hst Hd|d Hst Hd
    |d Hst|d Hst|d Hst|d Hw|d k x Hw|d k Hw Hd|d Hm Hm'|d|d t Ht]; [by apply manager_control|..];
    unfold returned, tick, job_goes, close_stopChan, watch_delivery in *; try destruct x;
    destruct d as [m st w r sc p dn ti sg cn nw rg rs wt cl]; cbn [d_main d_stop d_timer d_running d_stopChan d_done] in *; simplify_eq;
    try (control_cases; fail).
Qed.

Lemma ticks_snoc n t l u : ticks t (S n) = l ++ [u] -> ticks t (S (S n)) = (l ++ [u]) ++ [nextTick u] /\ ticks t n = l.
Proof.
  revert t l. induction n as [|n IH]; intros t l H.
  - destruct l as [|x l]; simpl in H; [by simplify_eq|]. destruct l; discriminate H.
  - destruct l as [|x l]; [discriminate H|].
    assert (ticks (nextTick t) (S n) = l ++ [u] /\ x = t) as [H' ->] by (by injection H).
    destruct (IH _ _ H') as [IH1 IH2]. split; [exact (f_equal (cons t) IH1)|exact (f_equal (cons t) IH2)].
Qed.

(** Only a tick runs anything. *)
Lemma step_runs d d' : step d d' ->
  (d_runs d' = d_runs d /\ d_waiting d' ++ (d_calls d').*1 ≡ₚ d_waiting d ++ (d_calls d).*1) \/
  exists t at_ dags, d_main d = MLoop t /\ d_timer d = Some at_ /\ (at_ <= d_now d)%Z /\
    Permutation dags (snd <$> map_to_list (d_registry d)) /\ d' = tick o fixed t dags d.
Proof.
  intros Hs. destruct Hs as [d Hm|d Hm|d Hm|d Hm|d t Hm|d t at_ dags Hm Ht Ha Hq|d t Hm Hst|d i j Hj|d Hst Hd|d Hst Hd|d Hst Hd
    |d Hst|d Hst|d Hst|d Hw|d k x Hw|d k Hw Hd|d Hm Hm'|d|d t Ht]; try (left; split; done).
  - left. unfold manager_Start, returned. by destruct (o_readDir o (d_now d)).
  - right. by exists t, at_, dags.
  - left. split; [done|]. simpl. rewrite fmap_app. simpl.
    pose proof (delete_Permutation _ _ _ Hj) as Hq. revert Hq. generalize (delete i (d_waiting d)). intros l ->. solve_Permutation.
  - left. unfold close_stopChan. by destruct (d_stopChan d).
  - left. unfold watch_delivery. by destruct x.
Qed.

Lemma step_jobs clock d d' : rtc step (daemon_start clock) d -> step d d' ->
  (forall i t jobs, d_runs d !! i = Some (t, jobs) -> ticked clock d i t jobs) ->
  forall i t jobs, d_runs d' !! i = Some (t, jobs) -> ticked clock d' i t jobs.
Proof.
  intros Hr Hs Hd i t jobs Hi. destruct (step_runs d d' Hs) as [[He _]|(t1 & at_ & dags & Hm & Ht & Ha & Hq & ->)].
  - rewrite He in Hi. eauto using ticked_step.
  - simpl in Hi. apply lookup_snoc_Some in Hi as [[_ Hi]|[-> E]]; [eauto using ticked_step|].
    injection E as <- <-. exists d, at_, dags. split_and!; try done. split; [done|by apply rtc_once].
Qed.

Lemma step_goroutines d d' : step d d' ->
  Permutation (d_waiting d ++ (d_calls d).*1) (concat (d_runs d).*2) ->
  Permutation (d_waiting d' ++ (d_calls d').*1) (concat (d_runs d').*2).
Proof.
  intros Hs H. destruct (step_runs d d' Hs) as [[-> ->]|(t & at_ & dags & _ & _ & _ & _ & ->)]; [done|].
  simpl. rewrite fmap_app, concat_app, <- H. simpl. rewrite app_nil_r. solve_Permutation.
Qed.

Lemma step_ticks clock d d' : rtc step (daemon_start clock) d -> step d d' -> paced clock d -> paced clock d'.
Proof.
  intros Hr Hs [H1 H2 H3]. split; [|by eapply step_jobs|by eapply step_goroutines].
  clear H2 H3. pose proof (fun c H => started_step clock c d d' H Hs) as Hc.
  destruct Hs as [d Hm|d Hm|d Hm|d Hm|d t Hm|d t at_ dags Hm Ht Ha Hq|d t Hm Hst|d i j Hj|d Hst Hd|d Hst Hd|d Hst Hd
    |d Hst|d Hst|d Hst|d Hw|d k x Hw|d k Hw Hd|d Hm Hm'|d|d t Ht]; rewrite ?Hm in H1; simpl.
  8-20: unfold close_stopChan, watch_delivery in *; try (match goal with |- context [if ?b then _ else _] => destruct b end);
    try (match goal with x : delivery |- _ => destruct x end);
    simpl; destruct (d_main d) as [| | | |t'|t'|[e'|]]; naive_solver.
  - unfold manager_Start, returned. by destruct (o_readDir o (d_now d)).
  - done.
  - done.
  - split; [done|]. exists (now fixed (d_now d)). split; [|done]. apply Hc. exists d. split; [|done]. by split.
  - destruct H1 as [Hn (c & H & ->)]. exists c. split; [by apply Hc|]. by rewrite Hn.
  - destruct H1 as (c & H & E). exists c. split; [by apply Hc|]. unfold start_ticks in *.
    rewrite length_app, Nat.add_1_r, fmap_app. symmetry in E. by apply ticks_snoc in E as [-> _].
  - destruct H1 as (c & H & E). exists c. split; [by apply Hc|]. unfold start_ticks in *.
    symmetry in E. by apply ticks_snoc in E as [_ ->].
Qed.

Lemma reachable_invariants clock d : rtc step (daemon_start clock) d -> control d /\ paced clock d.
Proof.
  revert d. apply rtc_ind_r; [|intros d d' Hr Hs [Hc Hp]].
  - split; [apply start_control|]. by split.
  - split; [by eapply step_control|by eapply step_ticks].
Qed.

(** A goroutine that is gone without having closed the channel: nothing ends the loop. *)
Definition lost (d : daemon) : Prop :=
  d_stop d = SGone /\ d_stopChan d = false /\ is_returned (d_main d) = false.

Lemma step_lost d d' : step d d' -> control d -> lost d -> lost d'.
Proof.
  intros Hs Hc (L1 & L2 & L3). pose proof (ct_together d Hc) as Ht.
  destruct Hs; unfold lost, returned, tick, job_goes, watch_delivery in *; simpl; try done;
    try congruence; try (destruct x; done).
  all: by rewrite H, L1 in Ht.
Qed.

Lemma steps_lost d d' : rtc step d d' -> control d -> lost d -> lost d'.
Proof. induction 1; [done|]. eauto using step_control, step_lost. Qed.

(** *** Stopping *)

(** The loop is there and its end is on the way: the goroutine has something to
    hear, has heard it, or has told the loop. *)
Definition heard (d : daemon) : Prop :=
  (exists t, d_main d = MLoop t) /\
  match d_stop d with
  | SAbsent => False
  | SSelect => d_sig d || d_canceled d = true
  | SLoad | SClose | SClear => True
  | SGone => d_stopChan d = true
  end.

(** The daemon has ended, or its end is on the way. *)
Definition stopping (d : daemon) : Prop := d_main d = MReturned None \/ heard d.

Lemma step_returned d d' : step d d' -> d_main d = MReturned None -> d_main d' = MReturned None.
Proof.
  intros Hs Hm. destruct Hs; unfold close_stopChan, watch_delivery; try (destruct (d_stopChan d)); try (destruct x); simpl; congruence.
Qed.

Lemma step_heard d d' : step d d' -> control d -> heard d -> d_main d' = MReturned None \/ heard d'.
Proof.
  intros Hs Hc [[t Hm] Hd]. pose proof (ct_together d Hc) as C3. pose proof (ct_done d Hc) as C2.
  rewrite Hm in C2, C3. simpl in C2. unfold heard.
  destruct Hs as [d Hm1|d Hm1|d Hm1|d Hm1|d t1 Hm1|d t1 at_ dags Hm1 Ht Ha Hq|d t1 Hm1 Hst|d i j Hj|d Hst Hd1|d Hst Hd1|d Hst Hd1
    |d Hst|d Hst|d Hst|d Hw|d k x Hw|d k Hw Hd1|d Hm1 Hm'|d|d t1 Ht]; try congruence; try (by left); right;
    unfold close_stopChan, watch_delivery; try (destruct x); simpl; try (split; [by eexists|done]);
    split; try (by eexists).
  - rewrite Hst in C3. simpl in C3. by destruct (d_running d), (bool_decide _).
  - rewrite Hst in C3. simpl in C3. destruct (d_stopChan d); [by destruct (d_running d), (bool_decide _)|by eexists].
  - rewrite Hst in C3. simpl in C3. destruct (d_stopChan d); [by destruct (d_running d), (bool_decide _)|done].
  - rewrite Hst in C3. simpl in C3. by destruct (d_stopChan d), (d_running d), (bool_decide _).
  - by destruct (d_stop d).
  - destruct (d_stop d); try done. by rewrite orb_true_r.
Qed.

Lemma step_stopping d d' : step d d' -> control d -> stopping d -> stopping d'.
Proof. intros Hs Hc [Hd|Hd]; [left; by eapply step_returned|by eapply step_heard]. Qed.

(** The daemon ends in so many steps of its own, and runs nothing more in them. *)
Definition ends (n : nat) (d : daemon) : Prop :=
  exists d', nsteps step n d d' /\ d_main d' = MReturned None /\ d_runs d' = d_runs d.

Lemma ends_l n d d1 : step d d1 -> d_runs d1 = d_runs d -> ends n d1 -> ends (S n) d.
Proof. intros Hs He (d' & Hn & Hm & Hr). exists d'. split; [by eapply nsteps_l|]. by rewrite Hr. Qed.

Lemma told_ends d t : d_main d = MLoop t -> d_stopChan d = true -> ends 1 d.
Proof. intros Hm Hc. exists (returned None (set_d_timer None d)). split; [by eapply nsteps_once, st_end|done]. Qed.

Lemma close_ends d t : d_main d = MLoop t -> d_stop d = SClose -> d_stopChan d = false -> ends 2 d.
Proof.
  intros Hm Hs Hc. eapply ends_l; [by apply st_close|by unfold close_stopChan; rewrite Hc|].
  apply (told_ends _ t); unfold close_stopChan; by rewrite Hc.
Qed.

Lemma load_ends d t : d_main d = MLoop t -> d_stop d = SLoad -> d_running d = true -> d_stopChan d = false -> ends 3 d.
Proof.
  intros Hm Hs Hr Hc. eapply ends_l; [by apply st_load|done|].
  apply (close_ends _ t); simpl; rewrite ?Hr; done.
Qed.

Lemma stopping_ends d : control d -> stopping d -> d_main d = MReturned None \/ exists n, n <= 4 /\ ends n d.
Proof.
  intros Hc [|[[t Hm] Hd]]; [by left|right]. pose proof (ct_together d Hc) as C3. rewrite Hm in C3.
  destruct (d_stop d) eqn:Hs; simpl in C3; [done|..].
  - assert (d_running d = true /\ d_stopChan d = false) as [Hr Hch] by (by destruct (d_running d), (d_stopChan d), (bool_decide _)).
    exists 4. split; [lia|]. destruct (d_sig d) eqn:Hsig.
    + eapply ends_l; [by apply st_select_sig|done|]. by apply (load_ends _ t).
    + eapply ends_l; [by apply st_select_ctx|done|]. by apply (load_ends _ t).
  - exists 3. split; [lia|]. apply (load_ends _ t); try done; by destruct (d_running d), (d_stopChan d), (bool_decide _).
  - exists 2. split; [lia|]. apply (close_ends _ t); try done; by destruct (d_running d), (d_stopChan d), (bool_decide _).
  - exists 1. split; [lia|]. apply (told_ends _ t); try done; by destruct (d_running d), (d_stopChan d), (bool_decide _).
  - exists 1. split; [lia|]. by apply (told_ends _ t).
Qed.

Lemma steps_stopping d d' : rtc step d d' -> control d -> stopping d -> control d' /\ stopping d'.
Proof. induction 1; [done|]. eauto using step_control, step_stopping. Qed.

(** Until the clock is at the timer nothing is run. *)
Lemma step_clock d d' : step d d' -> (d_now d <= d_now d')%Z.
Proof.
  destruct 1; simpl; try lia.
  - unfold manager_Start, returned. destruct (o_readDir _ _); simpl; lia.
  - unfold close_stopChan. destruct (d_stopChan d); simpl; lia.
  - unfold watch_delivery. destruct x; simpl; lia.
Qed.

Lemma steps_clock d d' : rtc step d d' -> (d_now d <= d_now d')%Z.
Proof. induction 1 as [|d d1 d' Hs _ IH]; [lia|]. pose proof (step_clock _ _ Hs). lia. Qed.

Definition sleeping (at_ : Z) (d : daemon) : Prop :=
  is_returned (d_main d) = true \/ (exists t, d_main d = MLoop t) /\ d_timer d = Some at_.

Lemma step_sleeping at_ d d' : step d d' -> (d_now d < at_)%Z -> sleeping at_ d -> sleeping at_ d' /\ d_runs d' = d_runs d.
Proof.
  intros Hs Ha Hd. split; [|destruct (step_runs d d' Hs) as [[-> _]|(t & at' & dags & Hm & Ht & Ha' & _)]; [done|]].
  - destruct Hd as [Hd|[[t Hm] Ht]].
    + left. destruct Hs; unfold close_stopChan, watch_delivery; try (destruct (d_stopChan d)); try (destruct x); simpl;
        try done; by simplify_eq; rewrite H in Hd.
    + destruct Hs; unfold close_stopChan, watch_delivery; try (destruct (d_stopChan d)); try (destruct x); simpl;
        try congruence; try (by left); try (right; split; [by eexists|done]).
      all: exfalso; assert (at_0 = at_) by congruence; lia.
  - exfalso. destruct Hd as [Hd|[_ Hd]]; [by rewrite Hm in Hd|]. assert (at' = at_) as -> by congruence. lia.
Qed.

Lemma steps_sleeping at_ d d' : rtc step d d' -> (d_now d' < at_)%Z -> sleeping at_ d -> d_runs d' = d_runs d.
Proof.
  induction 1 as [|d d1 d' Hs Hr IH]; intros Ha Hd; [done|].
  pose proof (step_clock _ _ Hs). pose proof (steps_clock _ _ Hr).
  destruct (step_sleeping at_ d d1 Hs ltac:(lia) Hd) as [Hd1 <-]. by apply IH.
Qed.

(** *** The theorems *)

(** C13: the daemon works as its loop says, whatever the interleaving.  In every state
    that can be reached, the minutes run are the consecutive ones from that of the
    clock [start] read on its way there, each once and in order, however late; the
    jobs started at each are those due at it, of the workflows in the registry
    and of the suspensions at the moment the tick ran, which was not before its timer;
    and each of them is with exactly one goroutine, which asks the client at most
    once. *)
Theorem daemon_ticks clock d : rtc step (daemon_start clock) d ->
  (d_runs d = [] \/ exists c, started clock c d /\ (d_runs d).*1 = start_ticks c (length (d_runs d))) /\
  (forall i t jobs, d_runs d !! i = Some (t, jobs) -> ticked clock d i t jobs) /\
  Permutation (d_waiting d ++ (d_calls d).*1) (concat (d_runs d).*2).
Proof.
  intros H. apply reachable_invariants in H as [_ [H1 H2 H3]]. split; [|done].
  destruct (d_main d) as [| | | |t|t|[e|]]; try (by left); try (by right).
  - left. by destruct H1.
  - right. destruct H1 as (c & H & E). exists c. split; [done|]. unfold start_ticks in *.
    symmetry in E. by apply ticks_snoc in E as [_ ->].
Qed.

(** C14: stopping the daemon.  In every state that can be reached nothing has panicked.
    When the loop is there and a signal or the end of the context waits for the
    goroutine, or has been taken by it, then from then on, whatever happens, the
    daemon has ended without an error or its end is at most four of its own steps
    away, in which nothing is run; and nothing is run in any case until the clock is
    at the timer of the next tick, which may come first.  When the goroutine that waits
    is gone while the daemon has not ended, either the loop has been told and the
    same holds, or it has not, and then the daemon never ends, whatever signals come. *)
Theorem daemon_stops clock d : rtc step (daemon_start clock) d ->
  d_panicked d = false /\
  (heard d -> forall d', rtc step d d' ->
     (d_main d' = MReturned None \/ exists n, n <= 4 /\ ends n d') /\
     (forall at_, d_timer d = Some at_ -> (d_now d' < at_)%Z -> d_runs d' = d_runs d)) /\
  (d_stop d = SGone -> is_returned (d_main d) = false ->
     heard d \/ (forall d', rtc step d d' -> is_returned (d_main d') = false)).
Proof.
  intros H. apply reachable_invariants in H as [Hc _]. split; [by apply ct_panicked|]. split.
  - intros Hd d' Hr. destruct (steps_stopping d d' Hr Hc (or_intror Hd)) as [Hc' Hd'].
    split; [by apply stopping_ends|]. intros at_ Ht Ha. eapply steps_sleeping; [done|done|]. right. by destruct Hd.
  - intros Hs Hm. pose proof (ct_together d Hc) as C3. rewrite Hs in C3. destruct (d_stopChan d) eqn:Hch.
    + left. split; [|by rewrite Hs].
      destruct (d_main d) as [| | | |t|t|[e|]] eqn:Hmd; try done; simpl in C3; [..|by eexists];
        by destruct (d_running d); try destruct (bool_decide _).
    + right. intros d' Hd. by apply (steps_lost d d' Hd Hc).
Qed.
End life.

(** ** A daemon with one workflow, of every minute *)

Definition demo_outside : outside :=
  mkOutside (fun _ => Ok ["a.yaml"; "notes.txt"]) (fun _ _ => Ok cron_dag) (fun _ _ => false) (fun _ _ => Err (ENew "no status")) None.

Definition no_time (s : string) : option Z := None.

(** Started at 3:20, the first two ticks, the second one late. *)
Definition demo_daemon : daemon :=
  let d := set_d_main MClock (set_d_stop SSelect (set_d_main MGo (manager_Start demo_outside (daemon_start 200000000000)))) in
  let d := set_d_timer (Some 200000000000%Z) d in
  let d := set_d_main (MLoop 180000000000) (set_d_running true (set_d_main (MStore 180000000000) d)) in
  tick demo_outside None 240000000000 [cron_dag] (set_d_now 250000000000 (tick demo_outside None 180000000000 [cron_dag] d)).

Lemma demo_registry clock :
  d_registry (manager_Start demo_outside (daemon_start clock)) = {["a.yaml" := cron_dag]}.
Proof.
  change (register (fun _ => Ok cron_dag) (register (fun _ => Ok cron_dag) ∅ "a.yaml") "notes.txt" = {["a.yaml" := cron_dag]}).
  unfold register. replace (IsYAMLFile "a.yaml") with true by (vm_compute; reflexivity).
  replace (IsYAMLFile "notes.txt") with false by (vm_compute; reflexivity). apply insert_empty.
Qed.

Lemma demo_range clock d : d_registry d = d_registry (manager_Start demo_outside (daemon_start clock)) ->
  Permutation [cron_dag] (snd <$> map_to_list (d_registry d)).
Proof. intros ->. by rewrite demo_registry, map_to_list_singleton. Qed.

Lemma demo_daemon_reached : rtc (daemon_step no_time no_time demo_outside None) (daemon_start 200000000000) demo_daemon.
Proof.
  eapply rtc_l; [by apply st_manager|]. eapply rtc_l; [by apply st_notify|]. eapply rtc_l; [by apply st_go|].
  eapply rtc_l; [by apply st_clock|]. eapply rtc_l; [by apply (st_store _ _ _ _ _ 180000000000)|].
  eapply rtc_l; [apply (st_tick _ _ _ _ _ 180000000000 200000000000 [cron_dag]); [done|done|by apply Z.leb_le|]|].
  { by apply (demo_range 200000000000). }
  eapply rtc_l; [apply (st_time _ _ _ _ _ 250000000000); by apply Z.leb_le|].
  eapply rtc_l; [apply (st_tick _ _ _ _ _ 240000000000 240000000000 [cron_dag]); [done|done|by apply Z.leb_le|]|].
  { by apply (demo_range 200000000000). }
  reflexivity.
Qed.

Lemma daemon_ticks_witness :
  (d_runs demo_daemon).*1 = [180000000000; 240000000000]%Z /\ length (d_waiting demo_daemon) = 2 /\
  (exists c, started no_time no_time demo_outside None 200000000000 c demo_daemon /\
     (d_runs demo_daemon).*1 = start_ticks c (length (d_runs demo_daemon))).
Proof.
  split; [vm_compute; reflexivity|]. split; [vm_compute; reflexivity|].
  destruct (daemon_ticks no_time no_time demo_outside None 200000000000 demo_daemon demo_daemon_reached) as [[H|H] _].
  - apply (f_equal length) in H. vm_compute in H. discriminate.
  - exact H.
Defined.

Definition signaled_daemon : daemon := set_d_sig true demo_daemon.

Lemma daemon_stops_witness :
  exists n, n <= 4 /\ ends no_time no_time demo_outside None n signaled_daemon.
Proof.
  destruct (daemon_stops no_time no_time demo_outside None 200000000000 signaled_daemon) as (_ & H & _).
  - eapply rtc_r; [exact demo_daemon_reached|by apply st_signal].
  - destruct (H (conj (ex_intro _ 300000000000%Z eq_refl) eq_refl) signaled_daemon) as [[E|E] _].
    + reflexivity.
    + vm_compute in E. discriminate.
    + exact E.
Defined.

(** A signal that comes before the loop has begun is taken by the goroutine and lost:
    the daemon runs, and no signal ends it any more. *)
Example early_signal_lost :
  exists d, rtc (daemon_step no_time no_time demo_outside None) (daemon_start 200000000000) d /\ d_main d = MLoop 180000000000 /\
    forall d', rtc (daemon_step no_time no_time demo_outside None) d d' -> is_returned (d_main d') = false.
Proof.
  eexists. match goal with |- ?G => assert (Hx : forall d, rtc (daemon_step no_time no_time demo_outside None) (daemon_start 200000000000) d ->
    d_main d = MLoop 180000000000 -> lost d -> d_main d = MLoop 180000000000 /\
    forall d', rtc (daemon_step no_time no_time demo_outside None) d d' -> is_returned (d_main d') = false) end.
  { intros d Hr Hm Hl. split; [done|]. intros d' Hd.
    by apply (steps_lost _ _ _ _ d d' Hd (proj1 (reachable_invariants _ _ _ _ _ d Hr)) Hl). }
  split; [|apply Hx; clear Hx].
  - eapply rtc_l; [by apply st_manager|]. eapply rtc_l; [by apply st_notify|]. eapply rtc_l; [by apply st_go|].
    eapply rtc_l; [by apply st_signal|]. eapply rtc_l; [by apply st_select_sig|]. eapply rtc_l; [by apply st_load|].
    eapply rtc_l; [by apply st_clock|]. apply rtc_once. by apply (st_store _ _ _ _ _ 180000000000).
  - eapply rtc_l; [by apply st_manager|]. eapply rtc_l; [by apply st_notify|]. eapply rtc_l; [by apply st_go|].
    eapply rtc_l; [by apply st_signal|]. eapply rtc_l; [by apply st_select_sig|]. eapply rtc_l; [by apply st_load|].
    eapply rtc_l; [by apply st_clock|]. apply rtc_once. by apply (st_store _ _ _ _ _ 180000000000).
  - done.
  - done.
Qed.

(** A directory that cannot be read ends the daemon with an error. *)
Example unreadable_directory e :
  manager_Start (mkOutside (fun _ => Err e) (fun _ _ => Ok cron_dag) (fun _ _ => false) (fun _ _ => Err e) None) (daemon_start 0) =
  returned (Some (EWrap "failed to start manager: " (EWrap "failed to initialize DAGs: " e "") "")) (daemon_start 0).
Proof. reflexivity. Qed.
