(* ===== verification/WebServer.v ===== *)
(** * The web server: internal/frontend frontend.go, server, metrics

    What is made of the configuration: the handlers of the interface, the pages,
    and the options of the middleware (frontend.go, server/server.go New,
    routes.go, templates.go); and the life of the server: listening, serving and
    stopping (server.go Serve, gen/restapi/server.go). *)

From stdpp Require Import pretty.
From S2P Require Import Prelude GoStrings Digraph Paths History Client Handlers Middleware Configuration.

(** ** The server (server.go) *)

Record BasicAuth := mkBasicAuth { sb_Username : string; sb_Password : string }.
Record AuthToken := mkAuthToken_ { st_Token : string }.

(** The handlers of the interface, with what they are given beside the client. *)
Inductive api_handler :=
| DAGHandler (logEncodingCharset : string) (remoteNodes : gmap string RemoteNode.t) (apiBasePath : string)
| SystemHandler
| PythonFilesHandler.

Record funcsConfig := mkFuncs {
  fc_NavbarColor : string;
  fc_NavbarTitle : string;
  fc_BasePath : string;
  fc_APIBaseURL : string;
  fc_TZ : string;
  fc_MaxDashboardPageLimit : Z;
  fc_RemoteNodes : list string
}.

Record NewServerArgs := mkServerArgs {
  sa_Host : string;
  sa_Port : Z;
  sa_BasicAuth : option BasicAuth;
  sa_AuthToken : option AuthToken;
  sa_TLS : option TLSConfig.t;
  sa_Handlers : list api_handler;
  sa_Headless : bool;
  sa_NavbarColor : string;
  sa_NavbarTitle : string;
  sa_BasePath : string;
  sa_APIBaseURL : string;
  sa_TimeZone : string;
  sa_MaxDashboardPageLimit : Z;
  sa_RemoteNodes : list string
}.

Record Server := mkServer {
  sv_funcsConfig : funcsConfig;
  sv_host : string;
  sv_port : Z;
  sv_basicAuth : option BasicAuth;
  sv_authToken : option AuthToken;
  sv_tls : option TLSConfig.t;
  sv_handlers : list api_handler;
  sv_headless : bool
}.

Definition server_New (p : NewServerArgs) : Server :=
  mkServer
    (mkFuncs (sa_NavbarColor p) (sa_NavbarTitle p) (sa_BasePath p) (sa_APIBaseURL p) (sa_TimeZone p)
       (sa_MaxDashboardPageLimit p) (sa_RemoteNodes p))
    (sa_Host p) (sa_Port p) (sa_BasicAuth p) (sa_AuthToken p) (sa_TLS p) (sa_Handlers p) (sa_Headless p).

(** ** From the configuration (frontend.go) *)

Definition frontend_args (cfg : Config.t) : NewServerArgs :=
  mkServerArgs (Config.Host cfg) (Config.Port cfg)
    (if AuthBasic.Enabled (Auth.Basic (Config.Auth cfg))
     then Some (mkBasicAuth (AuthBasic.Username (Auth.Basic (Config.Auth cfg))) (AuthBasic.Password (Auth.Basic (Config.Auth cfg))))
     else None)
    (if AuthToken.Enabled (Auth.Token (Config.Auth cfg))
     then Some (mkAuthToken_ (AuthToken.Value (Auth.Token (Config.Auth cfg)))) else None)
    (Config.TLS cfg)
    [DAGHandler (UI.LogEncodingCharset (Config.UI cfg)) (remote_nodes (Config.RemoteNodes cfg)) (Config.APIBaseURL cfg);
     SystemHandler; PythonFilesHandler]
    (Config.Headless cfg) (UI.NavbarColor (Config.UI cfg)) (UI.NavbarTitle (Config.UI cfg)) (Config.BasePath cfg)
    (Config.APIBaseURL cfg) (Config.TZ cfg) (UI.MaxDashboardPageLimit (Config.UI cfg))
    (RemoteNode.Name <$> Config.RemoteNodes cfg).

Definition frontend_New (cfg : Config.t) : Server := server_New (frontend_args cfg).

(** ** Pages (routes.go, templates.go) *)

(** What the pages ask of the configuration, but for the title and the version. *)
Definition defaultFunctions (cfg : funcsConfig) : list (string * any) :=
  [("navbarColor", VStr (fc_NavbarColor cfg)); ("navbarTitle", VStr (fc_NavbarTitle cfg));
   ("basePath", VStr (fc_BasePath cfg)); ("apiURL", VStr (Join [fc_BasePath cfg; fc_APIBaseURL cfg]));
   ("tz", VStr (fc_TZ cfg)); ("maxDashboardPageLimit", VInt (fc_MaxDashboardPageLimit cfg));
   ("remoteNodes", VStr (join (fc_RemoteNodes cfg) ","))].

Definition defTitle (ip : any) : string := match ip with VStr v => v | _ => "" end.

Definition templatePath : string := "templates/".
Definition baseTemplates : list string := (fun t => Join [templatePath; t]) <$> ["base.gohtml"].

(** [http.Error]. *)
Definition http_Error (text : string) (code : Z) : Response :=
  mkResponse code [("Content-Type", "text/plain; charset=utf-8"); ("X-Content-Type-Options", "nosniff")]
    (text +:+ l2s [nl]).

Section pages.
Context {W : Type}.
(** A page from the functions, the files and the name: the error of parsing
    them, or the page or the error of making it. *)
Context (render : list (string * any) -> list string -> string -> result (result string)).
(** [http.FileServer] over the assets. *)
Context (FileServer : Request -> W -> W * Response).
(** The router of chi, on the patterns that are routed under GET. *)
Context (chi : list (string * (Request -> W -> W * Response)) -> Request -> W -> W * Response).

Definition useTemplate (svr : Server) (layout name : string) : result Response :=
  if sv_headless svr then Ok (http_Error "Web UI is disabled in headless mode" 403)
  else match render (defaultFunctions (sv_funcsConfig svr)) (baseTemplates ++ [Join [templatePath; layout]]) name with
       | Err e => Err (panic (error_text e))
       | Ok (Err e) => Ok (http_Error (error_text e) 500)
       | Ok (Ok page) => Ok (mkResponse 200 [] page)
       end.

Definition handleRequest (svr : Server) : result (Request -> W -> W * Response) :=
  match useTemplate svr "index.gohtml" "index" with
  | Ok page => Ok (fun _ w => (w, page))
  | Err e => Err e
  end.

Definition handleGetAssets : Request -> W -> W * Response :=
  fun r w => with_headers [("Cache-Control", "max-age=86400")] (FileServer r w).

Definition defaultRoutes (svr : Server) : result (Request -> W -> W * Response) :=
  if sv_headless svr then Ok (chi [])
  else match handleRequest svr with
       | Ok page => Ok (chi [("/assets/*", handleGetAssets); ("/*", page)])
       | Err e => Err e
       end.

(** The options [Serve] sets the middleware up with. *)
Definition middleware_options (svr : Server) (pages : Request -> W -> W * Response) (Infof : string -> W -> W) : Options W :=
  mkOptions pages
    ((fun b => mkAuthBasic (sb_Username b) (sb_Password b)) <$> sv_basicAuth svr)
    ((fun t => mkAuthToken (st_Token t)) <$> sv_authToken svr)
    (Some Infof) (fc_BasePath (sv_funcsConfig svr)).

End pages.

(** ** Listening (gen/restapi/server.go) *)

Definition schemeHTTP : string := "http".
Definition schemeHTTPS : string := "https".
Definition schemeUnix : string := "unix".
Definition defaultSchemes : list string := [schemeHTTP].

(** Limits of a listener: outstanding requests, and nanoseconds. *)
Record limits := mkLimits { li_Listen : Z; li_KeepAlive : Z; li_Read : Z; li_Write : Z }.
Definition no_limits : limits := mkLimits 0 0 0 0.

Record restapi := mkRestapi {
  ra_EnabledListeners : list string;
  ra_CleanupTimeout : Z;
  ra_GracefulTimeout : Z;
  ra_MaxHeaderSize : Z;
  ra_SocketPath : string;
  ra_Host : string;
  ra_Port : Z;
  ra_limits : limits;
  ra_TLSHost : string;
  ra_TLSPort : Z;
  ra_TLSCertificate : string;
  ra_TLSCertificateKey : string;
  ra_TLSCACertificate : string;
  ra_TLSlimits : limits;
  ra_listeners : option (list (string * string))
}.

(** [NewServer]: every field is as in a new structure; the defaults in the tags
    are for a parser of flags, which is not used. *)
Definition restapi_NewServer : restapi := mkRestapi [] 0 0 0 "" "" 0 no_limits "" 0 "" "" "" no_limits None.

Definition hasScheme (s : restapi) (scheme : string) : bool :=
  bool_decide (scheme ∈ match ra_EnabledListeners s with [] => defaultSchemes | l => l end).

(** What the structure of the server is told by [Serve]. *)
Definition configured (svr : Server) : restapi :=
  let s := restapi_NewServer in
  match sv_tls svr with
  | None =>
      mkRestapi [] (ra_CleanupTimeout s) (ra_GracefulTimeout s) (ra_MaxHeaderSize s) (ra_SocketPath s)
        (sv_host svr) (sv_port svr) (ra_limits s) (ra_TLSHost s) (ra_TLSPort s) (ra_TLSCertificate s)
        (ra_TLSCertificateKey s) (ra_TLSCACertificate s) (ra_TLSlimits s) (ra_listeners s)
  | Some tls =>
      mkRestapi [schemeHTTPS] (ra_CleanupTimeout s) (ra_GracefulTimeout s) (ra_MaxHeaderSize s) (ra_SocketPath s)
        (sv_host svr) (sv_port svr) (ra_limits s) (sv_host svr) (sv_port svr) (TLSConfig.CertFile tls)
        (TLSConfig.KeyFile tls) (ra_TLSCACertificate s) (ra_TLSlimits s) (ra_listeners s)
  end.

Definition or_else (v other : Z) : Z := if (v =? 0)%Z then other else v.

(** The settings of https that are not given are those of http. *)
Definition default_TLS (s : restapi) : restapi :=
  let h := ra_limits s in
  let t := ra_TLSlimits s in
  mkRestapi (ra_EnabledListeners s) (ra_CleanupTimeout s) (ra_GracefulTimeout s) (ra_MaxHeaderSize s) (ra_SocketPath s)
    (ra_Host s) (ra_Port s) h (if bool_decide (ra_TLSHost s = "") then ra_Host s else ra_TLSHost s) (ra_TLSPort s)
    (ra_TLSCertificate s) (ra_TLSCertificateKey s) (ra_TLSCACertificate s)
    (mkLimits (or_else (li_Listen t) (li_Listen h)) (or_else (li_KeepAlive t) (li_KeepAlive h))
       (or_else (li_Read t) (li_Read h)) (or_else (li_Write t) (li_Write h)))
    (ra_listeners s).

(** A server of the standard library: its scheme, and its settings. *)
Record http_server := mkHttpServer {
  ht_scheme : string;
  ht_MaxHeaderBytes : Z;
  ht_ReadTimeout : Z;
  ht_WriteTimeout : Z;
  ht_KeepAlives : bool;
  ht_ListenLimit : option Z;
  ht_IdleTimeout : Z;
  ht_ClientCA : bool
}.

(** What serving comes to: an error, the end of the process, or servers. *)
Inductive started := Failed_ (e : error) | Fatal (text : string) | Started (servers : list http_server).

Section listen.
(** [net.JoinHostPort]; listening on a network and an address; the certificate
    and its key; the certificates of clients, read and parsed. *)
Context (JoinHostPort : string -> Z -> string) (net_Listen : string -> string -> option error).
Context (LoadX509KeyPair : string -> string -> option error) (client_CAs : string -> option error).

Definition addresses (s : restapi) : list (string * string) :=
  (if hasScheme s schemeUnix then [("unix", ra_SocketPath s)] else []) ++
  (if hasScheme s schemeHTTP then [("tcp", JoinHostPort (ra_Host s) (ra_Port s))] else []) ++
  (if hasScheme s schemeHTTPS then [("tcp", JoinHostPort (ra_TLSHost s) (ra_TLSPort s))] else []).

(** The listeners in turn; the ones before an error stay open.  The host and
    port become those of the listener. *)
Definition Listen (s : restapi) : result restapi :=
  match ra_listeners s with
  | Some _ => Ok s
  | None =>
      let s := if hasScheme s schemeHTTPS then default_TLS s else s in
      match foldE (fun _ a => match net_Listen (fst a) (snd a) with Some e => Err e | None => Ok tt end) tt (addresses s) with
      | Err e => Err e
      | Ok _ =>
          Ok (mkRestapi (ra_EnabledListeners s) (ra_CleanupTimeout s) (ra_GracefulTimeout s) (ra_MaxHeaderSize s) (ra_SocketPath s)
                (ra_Host s) (ra_Port s) (ra_limits s) (ra_TLSHost s) (ra_TLSPort s) (ra_TLSCertificate s)
                (ra_TLSCertificateKey s) (ra_TLSCACertificate s) (ra_TLSlimits s) (Some (addresses s)))
      end
  end.

Definition idle_timeout (s : restapi) : Z := if (0 <? ra_CleanupTimeout s)%Z then ra_CleanupTimeout s else 0.

Definition tcp_server (s : restapi) (scheme : string) (l : limits) (ca : bool) : http_server :=
  mkHttpServer scheme (ra_MaxHeaderSize s) (li_Read l) (li_Write l) (0 <? li_KeepAlive l)%Z
    (if (0 <? li_Listen l)%Z then Some (li_Listen l) else None) (idle_timeout s) ca.

(** Keep-alives are on unless they are turned off. *)
Definition unix_server (s : restapi) : http_server :=
  mkHttpServer schemeUnix (ra_MaxHeaderSize s) 0 0 true None (idle_timeout s) false.

(** The certificates of https. *)
Definition https_server (s : restapi) : started :=
  let both := bool_decide (ra_TLSCertificate s <> "") && bool_decide (ra_TLSCertificateKey s <> "") in
  match (if both then LoadX509KeyPair (ra_TLSCertificate s) (ra_TLSCertificateKey s) else None) with
  | Some e => Failed_ e
  | None =>
      match (if bool_decide (ra_TLSCACertificate s <> "") then client_CAs (ra_TLSCACertificate s) else None) with
      | Some e => Failed_ e
      | None =>
          if both then Started [tcp_server s schemeHTTPS (ra_TLSlimits s) (bool_decide (ra_TLSCACertificate s <> ""))]
          else if bool_decide (ra_TLSCertificate s = "") then
            if bool_decide (ra_TLSCertificateKey s = "")
            then Fatal "the required flags `--tls-certificate` and `--tls-key` were not specified"
            else Fatal "the required flag `--tls-certificate` was not specified"
          else Fatal "the required flag `--tls-key` was not specified"
      end
  end.

(** [restapi.Server.Serve], up to waiting for the servers. *)
Definition restapi_Serve (s : restapi) : started :=
  match Listen s with
  | Err e => Failed_ e
  | Ok s =>
      let first := (if hasScheme s schemeUnix then [unix_server s] else []) ++
                   (if hasScheme s schemeHTTP then [tcp_server s schemeHTTP (ra_limits s) false] else []) in
      if hasScheme s schemeHTTPS then
        match https_server s with
        | Started l => Started (first ++ l)
        | r => r
        end
      else Started first
  end.

(** The listeners on their own, listening first when it was not done. *)
Definition listener_of (network : string) (wanted : restapi -> list (string * string)) (s : restapi) : result (restapi * option (string * string)) :=
  match Listen s with
  | Err e => Err e
  | Ok s => Ok (s, head (filter (fun a => fst a = network) (wanted s)))
  end.
Definition UnixListener : restapi -> result (restapi * option (string * string)) :=
  listener_of "unix" (fun s => if hasScheme s schemeUnix then default [] (ra_listeners s) else []).
Definition HTTPListener : restapi -> result (restapi * option (string * string)) :=
  listener_of "tcp" (fun s => if hasScheme s schemeHTTP then default [] (ra_listeners s) else []).
Definition TLSListener : restapi -> result (restapi * option (string * string)) :=
  listener_of "tcp" (fun s => if hasScheme s schemeHTTPS then rev (default [] (ra_listeners s)) else []).

(** [handleShutdown]: whether the hook after the end is called: when every
    server has shut down in the time that is given. *)
Definition handleShutdown (s : restapi) (Shutdown : http_server -> Z -> bool) (servers : list http_server) : bool :=
  forallb (fun x => Shutdown x (ra_GracefulTimeout s)) servers.

End listen.

(** *** Shutting down *)

(** [shuttingDown], [interrupted], and how often the channel was closed. *)
Record stopping := mkStopping { sp_shuttingDown : bool; sp_interrupted : bool; sp_closed : nat }.

Definition not_stopping : stopping := mkStopping false false 0.

(** [Shutdown]: the flag is compared and set at once. *)
Definition restapi_Shutdown (s : stopping) : stopping :=
  if sp_shuttingDown s then s else mkStopping true (sp_interrupted s) (S (sp_closed s)).

(** [handleInterrupt]: only the first signal counts. *)
Fixpoint handleInterrupt (signals : nat) (s : stopping) : stopping :=
  match signals with
  | 0 => s
  | S signals =>
      handleInterrupt signals
        (if sp_interrupted s then s else restapi_Shutdown (mkStopping (sp_shuttingDown s) true (sp_closed s)))
  end.

(** Calls of [Shutdown] and signals, in any order. *)
Inductive stop_request := CallShutdown | Signals (n : nat).

Definition stop_with (s : stopping) (r : stop_request) : stopping :=
  match r with CallShutdown => restapi_Shutdown s | Signals n => handleInterrupt n s end.

Definition closed_as_told (s : stopping) : Prop := sp_closed s = if sp_shuttingDown s then 1 else 0.

Lemma Shutdown_closed s : closed_as_told s -> closed_as_told (restapi_Shutdown s).
Proof. unfold closed_as_told, restapi_Shutdown. destruct (sp_shuttingDown s) eqn:E; simpl; [by rewrite E|]. by intros ->. Qed.

Lemma handleInterrupt_closed n s : closed_as_told s -> closed_as_told (handleInterrupt n s).
Proof.
  revert s. induction n as [|n IH]; intros s Hs; [done|]. simpl. apply IH.
  destruct (sp_interrupted s); [done|]. by apply Shutdown_closed.
Qed.

(** The channel is closed at most once, whatever is asked and however often. *)
Lemma stopped_once rs : sp_closed (foldl stop_with not_stopping rs) <= 1.
Proof.
  assert (closed_as_told (foldl stop_with not_stopping rs)) as ->.
  { assert (forall s, closed_as_told s -> closed_as_told (foldl stop_with s rs)) as H; [|by apply H].
    induction rs as [|r rs IH]; intros s Hs; [done|]. simpl. apply IH.
    destruct r; [by apply Shutdown_closed|by apply handleInterrupt_closed]. }
  case_match; lia.
Qed.

(** [Logf] and [Fatalf]: the logger of the interface, or the one of the library; and
    whether the process ends. *)
Inductive log_call := ToUser (text : string) | ToLibrary (text : string).
Definition Logf (has_Logger : bool) (text : string) : log_call * bool :=
  (if has_Logger then ToUser text else ToLibrary text, false).
Definition Fatalf (has_Logger : bool) (text : string) : log_call * bool :=
  (if has_Logger then ToUser text else ToLibrary text, true).

(** ** The life of the server *)

(** Where [Serve] is: serving, waiting for its context, or returned.  [listen]
    is the error of listening. *)
Inductive serve_pc := Serving | Waiting | Returned.

(** The goroutine of [Serve] that waits for a signal, and then shuts down. *)
Inductive watch_pc := WWatch | WShutdown | WEnd.

Record life := mkLife {
  lf_serve : serve_pc;
  lf_watch : watch_pc;
  lf_done : bool;
  lf_shutdown : bool;
  lf_logged : list string
}.

Definition life_start : life := mkLife Serving WWatch false false [].

(** What happens: a signal, the context of the caller ends, or one of the two
    goroutines moves. *)
Inductive life_event := Signalled | CallerDone | ServeMoves | WatchMoves.

Definition ErrServerClosed : error := ENew "http: Server closed".

Definition life_step (listen : option error) (l : life) (x : life_event) : option life :=
  match x with
  | Signalled =>
      match lf_watch l with
      | WWatch => Some (mkLife (lf_serve l) WShutdown true (lf_shutdown l) (lf_logged l))
      | _ => None
      end
  | CallerDone => Some (mkLife (lf_serve l) (lf_watch l) true (lf_shutdown l) (lf_logged l))
  | WatchMoves =>
      match lf_watch l with
      | WWatch => if lf_done l then Some (mkLife (lf_serve l) WShutdown (lf_done l) (lf_shutdown l) (lf_logged l)) else None
      | WShutdown => Some (mkLife (lf_serve l) WEnd (lf_done l) true (lf_logged l))
      | WEnd => None
      end
  | ServeMoves =>
      match lf_serve l with
      | Serving =>
          match listen with
          | Some e =>
              Some (mkLife Waiting (lf_watch l) (lf_done l) (lf_shutdown l)
                      (lf_logged l ++ (if errors_is e ErrServerClosed then [] else ["Server error"])))
          | None => if lf_shutdown l then Some (mkLife Waiting (lf_watch l) (lf_done l) (lf_shutdown l) (lf_logged l)) else None
          end
      | Waiting =>
          if lf_done l then Some (mkLife Returned (lf_watch l) (lf_done l) true (lf_logged l ++ ["Server stopped"])) else None
      | Returned => None
      end
  end.

(** What [Serve] returns once it has. *)
Definition serve_result (spec : option error) (l : life) : option (option error) :=
  match spec with
  | Some e => Some (Some e)
  | None => match lf_serve l with Returned => Some None | _ => None end
  end.

Fixpoint life_run (listen : option error) (l : life) (xs : list life_event) : option life :=
  match xs with
  | [] => Some l
  | x :: xs => match life_step listen l x with Some l => life_run listen l xs | None => None end
  end.

(** ** Uptime (metrics) *)

(** The seconds, from nanoseconds. *)
Definition uptime (elapsed : Z) : Z := Z.quot (Z.quot elapsed 1000000) 1000.
