(* ===== verification/WebServerProps.v ===== *)
(** * Properties of the configuration and of the server made from it

    Whom a configured server admits, where its interface is reached, what a
    configuration that loads promises, and when the server stops. *)

From S2P Require Import Prelude GoStrings Digraph Paths Params Client Handlers Middleware Configuration WebServer.
Import PathProps.
From Stdlib Require Import Ascii.

Import Config.

(** ** Loading *)

(** The credentials a configuration asks for: the older fields come first. *)
Definition basic_required (c : t) : option Middleware.AuthBasic :=
  if IsBasicAuth c then Some (mkAuthBasic (BasicAuthUsername c) (BasicAuthPassword c))
  else if AuthBasic.Enabled (Auth.Basic (Auth c))
       then Some (mkAuthBasic (AuthBasic.Username (Auth.Basic (Auth c))) (AuthBasic.Password (Auth.Basic (Auth c))))
       else None.

Definition token_required (c : t) : option Middleware.AuthToken :=
  if IsAuthToken c then Some (mkAuthToken (AuthToken c))
  else if AuthToken.Enabled (Auth.Token (Auth c)) then Some (mkAuthToken (AuthToken.Value (Auth.Token (Auth c)))) else None.

(** What the older variables of the environment leave as it is. *)
Definition same_access (c c' : t) : Prop :=
  Auth c' = Auth c /\ IsBasicAuth c' = IsBasicAuth c /\ BasicAuthUsername c' = BasicAuthUsername c /\
  BasicAuthPassword c' = BasicAuthPassword c /\ IsAuthToken c' = IsAuthToken c /\ AuthToken c' = AuthToken c /\
  BasePath c' = BasePath c.

Lemma legacy_env_access e c m : m ∈ legacyEnvs -> same_access c (legacy_env e c m).
Proof.
  intros Hm. unfold legacy_env. case_bool_decide; [|by repeat split].
  unfold legacyEnvs in Hm. rewrite !elem_of_cons, elem_of_nil in Hm.
  destruct Hm as [->|[->|[->|[->|[->|[->|[->|[]]]]]]]]; cbn [fst snd]; try (by repeat split).
  destruct (Eval.Atoi _); by repeat split.
Qed.

Lemma LoadLegacyEnv_access order e c : order ⊆ legacyEnvs -> same_access c (LoadLegacyEnv order e c).
Proof.
  unfold LoadLegacyEnv. revert c. induction order as [|m order IH]; intros c Hsub; [by repeat split|]. simpl.
  destruct (legacy_env_access e c m) as (H1 & H2 & H3 & H4 & H5 & H6 & H7); [apply Hsub, list_elem_of_here|].
  destruct (IH (legacy_env e c m)) as (I1 & I2 & I3 & I4 & I5 & I6 & I7).
  { intros x Hx. apply Hsub. by apply elem_of_cons; right. }
  unfold same_access. split_and!; congruence.
Qed.

(** The order in which the older variables are looked at does not matter. *)
Lemma legacy_env_comm e c m1 m2 : m1 ∈ legacyEnvs -> m2 ∈ legacyEnvs ->
  legacy_env e (legacy_env e c m1) m2 = legacy_env e (legacy_env e c m2) m1.
Proof.
  intros H1 H2. unfold legacy_env. destruct (bool_decide (Getenv e m1.1 <> "")), (bool_decide (Getenv e m2.1 <> "")); try done.
  unfold legacyEnvs in H1, H2. rewrite !elem_of_cons, elem_of_nil in H1, H2.
  destruct H1 as [->|[->|[->|[->|[->|[->|[->|[]]]]]]]], H2 as [->|[->|[->|[->|[->|[->|[->|[]]]]]]]];
    cbn [fst snd]; try reflexivity; try (destruct (Eval.Atoi _); reflexivity).
Qed.

Lemma foldl_permute {A B} (f : B -> A -> B) l1 l2 : Permutation l1 l2 ->
  (forall x y b, x ∈ l1 -> y ∈ l1 -> f (f b x) y = f (f b y) x) -> forall b, foldl f b l1 = foldl f b l2.
Proof.
  induction 1 as [|x l1 l2 Hp IH|x y l|l1 l2 l3 Hp1 IH1 Hp2 IH2]; intros Hc b; simpl.
  - done.
  - apply IH. intros y z b' Hy Hz. apply Hc; by right.
  - by rewrite Hc by set_solver.
  - rewrite IH1 by done. apply IH2. intros x y b' Hx Hy. apply Hc; by rewrite Hp1.
Qed.

Lemma LoadLegacyEnv_order order e c : Permutation order legacyEnvs -> LoadLegacyEnv order e c = LoadLegacyEnv legacyEnvs e c.
Proof.
  intros Hp. apply foldl_permute; [done|]. intros x y b Hx Hy. by apply legacy_env_comm; rewrite <- Hp.
Qed.

Lemma if_set_auth v set c : (forall v c, Auth (set v c) = Auth c) -> Auth (if_set v set c) = Auth c.
Proof. intros H. unfold if_set. by case_bool_decide; rewrite ?H. Qed.

Lemma auth_migratePaths c : Auth (migratePaths c) = Auth c.
Proof. unfold migratePaths. by repeat (rewrite if_set_auth; [|intros; reflexivity]). Qed.

Lemma auth_migrateUISettings c : Auth (migrateUISettings c) = Auth c.
Proof.
  unfold migrateUISettings. cbv zeta. set (c' := if_set _ _ (if_set _ _ _)).
  transitivity (Auth c'); [by destruct (0 <? _)%Z|]. unfold c'. by repeat (rewrite if_set_auth; [|intros; reflexivity]).
Qed.

Lemma auth_cleanBasePath c : Auth (cleanBasePath c) = Auth c.
Proof. unfold cleanBasePath. by destruct (bool_decide _). Qed.

(** What the older fields make of the access. *)
Lemma auth_migrateAuthSettings c :
  Auth (migrateAuthSettings c) =
  Auth.mk (if IsBasicAuth c then AuthBasic.mk true (BasicAuthUsername c) (BasicAuthPassword c) else Auth.Basic (Auth c))
          (if IsAuthToken c then AuthToken.mk true (AuthToken c) else Auth.Token (Auth c)).
Proof.
  unfold migrateAuthSettings. cbv zeta. destruct (IsBasicAuth c) eqn:Eb.
  - cbn [IsAuthToken set_Auth AuthToken Auth]. destruct (IsAuthToken c); reflexivity.
  - destruct (IsAuthToken c); [reflexivity|]. by destruct (Auth c).
Qed.

Lemma migrate_auth c : Auth (MigrateLegacyConfig c) = Auth (migrateAuthSettings c).
Proof.
  unfold MigrateLegacyConfig. rewrite auth_cleanBasePath, auth_migrateUISettings, auth_migratePaths, !auth_migrateAuthSettings.
  unfold migrateServerSettings, if_set. by destruct (bool_decide _).
Qed.

(** *** Paths *)

Definition prefer (older newer : string) : string := if bool_decide (older <> "") then older else newer.

Lemma paths_in_paths f v c : Paths (if_set v (in_paths f) c) = if bool_decide (v <> "") then f (Paths c) v else Paths c.
Proof. unfold if_set, in_paths. by case_bool_decide. Qed.

Lemma older_in_paths {A} (field : t -> A) f v c :
  (forall c q, field (set_Paths c q) = field c) -> field (if_set v (in_paths f) c) = field c.
Proof. intros H. unfold if_set, in_paths. case_bool_decide; by rewrite ?H. Qed.

(** Every older setting of a path wins over the newer one. *)
Lemma migratePaths_spec c :
  Paths (migratePaths c) =
  PathsConfig.mk (prefer (DAGs c) (PathsConfig.DAGsDir (Paths c))) (prefer (Executable c) (PathsConfig.Executable (Paths c)))
    (prefer (LogDir c) (PathsConfig.LogDir (Paths c))) (prefer (DataDir c) (PathsConfig.DataDir (Paths c)))
    (prefer (SuspendFlagsDir c) (PathsConfig.SuspendFlagsDir (Paths c)))
    (prefer (AdminLogsDir c) (PathsConfig.AdminLogsDir (Paths c))) (prefer (BaseConfig c) (PathsConfig.BaseConfig (Paths c))).
Proof.
  unfold migratePaths. cbv zeta. rewrite !paths_in_paths.
  rewrite !(older_in_paths Executable), !(older_in_paths LogDir), !(older_in_paths DataDir),
    !(older_in_paths SuspendFlagsDir), !(older_in_paths AdminLogsDir), !(older_in_paths BaseConfig) by done.
  unfold prefer. destruct (Paths c). repeat case_bool_decide; reflexivity.
Qed.

(** The executable always has an older setting, its default, so that a newer
    one is never used. *)
Lemma executable_setting_ignored c :
  Executable c <> "" -> PathsConfig.Executable (Paths (migratePaths c)) = Executable c.
Proof. intros H. rewrite migratePaths_spec. cbn [PathsConfig.Executable]. unfold prefer. by rewrite bool_decide_true. Qed.

(** *** The base path *)

Lemma if_set_base v set c : (forall v c, BasePath (set v c) = BasePath c) -> BasePath (if_set v set c) = BasePath c.
Proof. intros H. unfold if_set. by case_bool_decide; rewrite ?H. Qed.

Lemma base_migrate c : BasePath (MigrateLegacyConfig c) = if bool_decide (BasePath c = "") then "" else clean_base (BasePath c).
Proof.
  assert (forall c', BasePath (cleanBasePath c') = if bool_decide (BasePath c' = "") then "" else clean_base (BasePath c')) as Hc.
  { intros c'. unfold cleanBasePath. case_bool_decide as E; case_bool_decide as E'; done. }
  unfold MigrateLegacyConfig. rewrite Hc. set (c1 := migrateServerSettings c).
  assert (BasePath c1 = BasePath c) as <- by (unfold c1, migrateServerSettings; by rewrite if_set_base).
  enough (BasePath (migrateUISettings (migratePaths (migrateAuthSettings c1))) = BasePath c1) as -> by done.
  transitivity (BasePath (migratePaths (migrateAuthSettings c1))).
  - unfold migrateUISettings. cbv zeta. set (c' := if_set _ _ (if_set _ _ _)).
    transitivity (BasePath c'); [by destruct (0 <? _)%Z|]. unfold c'.
    by repeat (rewrite if_set_base; [|intros; reflexivity]).
  - transitivity (BasePath (migrateAuthSettings c1)).
    + unfold migratePaths. by repeat (rewrite if_set_base; [|intros; reflexivity]).
    + unfold migrateAuthSettings. cbv zeta. destruct (IsBasicAuth c1).
      * cbn [IsAuthToken set_Auth]. by destruct (IsAuthToken c1).
      * by destruct (IsAuthToken c1).
Qed.

(** A cleaned base path is rooted, and not the root. *)
Lemma clean_base_spec p : exists cs, Forall rooted_part cs /\
  clean_base p = if bool_decide (cs = []) then "" else l2s (slash :: joinl [slash] cs).
Proof.
  assert (forall q, IsAbs q = true -> exists cs, Forall rooted_part cs /\
    (if bool_decide (Clean q = "/") then "" else Clean q) = if bool_decide (cs = []) then "" else l2s (slash :: joinl [slash] cs)) as H.
  { intros q Hq. destruct (Clean_rooted q Hq) as (cs & Hcs & ->). exists cs. split; [done|].
    destruct Hcs as [|c cs Hc Hcs]; [done|]. rewrite (bool_decide_false (c :: cs = [])) by done.
    rewrite bool_decide_false; [done|]. intros E.
    apply (f_equal s2l) in E. rewrite s2l_l2s in E. destruct Hc as [[Hc _] _].
    destruct c; [done|]. destruct cs; simpl in E; discriminate E. }
  unfold clean_base. cbv zeta. destruct (IsAbs (Clean p)) eqn:Ea.
  - apply H. destruct (IsAbs p) eqn:Ep; [done|]. by rewrite Clean_relative in Ea.
  - assert (Clean p <> "") as Hne by apply Clean_nonempty.
    unfold Join. rewrite !filter_cons_True, filter_nil by done. apply H.
    unfold join. by apply IsAbs_s2l.
Qed.

(** ** The server *)

Section server.
Context {W : Type} (Redirect : Request -> string -> Z -> Response).
Context (RequestID Logger Recoverer : (Request -> W -> W * Response) -> Request -> W -> W * Response).
Context (pages : Request -> W -> W * Response) (Infof : string -> W -> W).

Abbreviation serve := (SetupGlobalMiddleware Redirect RequestID Logger Recoverer).

(** The options of the server of a configuration, once it is loaded. *)
Definition options_of (order : list (string * (string * (t -> string -> t)))) (e : env) (c : t) : Options W :=
  middleware_options (frontend_New (MigrateLegacyConfig (LoadLegacyEnv order e c))) pages Infof.

Lemma options_credentials order e c : order ⊆ legacyEnvs ->
  op_AuthBasic (options_of order e c) = basic_required c /\ op_AuthToken (options_of order e c) = token_required c.
Proof.
  intros Hsub. destruct (LoadLegacyEnv_access order e c Hsub) as (H1 & H2 & H3 & H4 & H5 & H6 & _).
  unfold options_of, middleware_options, frontend_New, server_New, frontend_args.
  cbn [op_AuthBasic op_AuthToken sv_basicAuth sv_authToken sa_BasicAuth sa_AuthToken].
  rewrite migrate_auth, auth_migrateAuthSettings. unfold basic_required, token_required.
  cbn [Auth.Basic Auth.Token]. rewrite H1, H2, H3, H4, H5, H6.
  split; [destruct (IsBasicAuth c); [done|by destruct (AuthBasic.Enabled _)]|
          destruct (IsAuthToken c); [done|by destruct (AuthToken.Enabled _)]].
Qed.

Lemma valid_basic c b : validateConfig c = None -> IsBasicAuth c = false -> basic_required c = Some b ->
  ab_Username b <> "" /\ ab_Password b <> "".
Proof.
  unfold validateConfig, basic_required. intros Hv ->. destruct (_ || _)%Z; [done|].
  destruct (AuthBasic.Enabled _); [|done]. intros [= <-]. simpl in *.
  destruct (bool_decide _) eqn:E1; [done|]. destruct (bool_decide (AuthBasic.Password _ = _)) eqn:E2; [done|].
  by apply bool_decide_eq_false in E1, E2.
Qed.

Lemma valid_token c tk : validateConfig c = None -> IsAuthToken c = false -> token_required c = Some tk -> at_Token tk <> "".
Proof.
  unfold validateConfig, token_required. intros Hv ->. destruct (_ || _)%Z; [done|]. destruct (_ && _); [done|].
  destruct (AuthToken.Enabled _); [|done]. intros [= <-]. simpl in *.
  destruct (bool_decide _) eqn:E1; [done|]. by apply bool_decide_eq_false in E1.
Qed.

(** What a request presents for what the configuration asks. *)
Definition presents (c : t) (r : Request) : Prop :=
  match basic_required c, token_required c with
  | None, None => True
  | Some b, None => knows b r
  | None, Some tk => bears tk r
  | Some b, Some tk => knows b r \/ (head (split (rq_Authorization r) " ") = Some "Bearer" /\ bears tk r)
  end.

Lemma options_base order e c : order ⊆ legacyEnvs ->
  op_BasePath (options_of order e c) = if bool_decide (BasePath c = "") then "" else clean_base (BasePath c).
Proof.
  intros Hsub. destruct (LoadLegacyEnv_access order e c Hsub) as (_ & _ & _ & _ & _ & _ & H).
  unfold options_of, middleware_options. cbn [op_BasePath sv_funcsConfig frontend_New server_New fc_BasePath frontend_args sa_BasePath].
  rewrite base_migrate, H. done.
Qed.

Lemma inside_base (opts : Options W) r rest :
  op_BasePath opts = "" \/ (exists cs, cs <> [] /\ Forall rooted_part cs /\ op_BasePath opts = l2s (slash :: joinl [slash] cs)) ->
  IsAbs rest = true -> rq_RawPath r = "" -> rq_Path r = op_BasePath opts +:+ rest ->
  exists p, inside opts r = Some p /\ rq_Path p = rest /\ rq_Authorization p = rq_Authorization r.
Proof.
  intros [Hb|(cs & Hne & Hcs & Hb)] Hrest Hraw Hpath; unfold inside.
  - rewrite bool_decide_true by done. exists r. by rewrite Hpath, Hb.
  - apply IsAbs_s2l, has_prefixl_spec in Hrest as [k Hk].
    assert (rest = l2s (slash :: k)) as -> by (rewrite <- (l2s_s2l rest), Hk; done).
    rewrite (bool_decide_false (op_BasePath opts = "")) by (rewrite Hb; discriminate).
    rewrite (bool_decide_false (rq_Path r = "/")).
    2:{ rewrite Hpath, Hb. destruct Hcs as [|x cs [[Hx _] _] Hcs]; [done|]. destruct x; [done|]. by destruct cs. }
    rewrite Hraw, (bool_decide_true ("" = "")) by done.
    assert (trim_prefix (rq_Path r) (op_BasePath opts) = l2s (slash :: k)) as ->.
    { rewrite Hpath. apply trim_prefix_app. }
    rewrite Hpath, Hb. rewrite <- !length_s2l, s2l_app, length_app, !s2l_l2s. simpl.
    destruct (_ <? _)%nat eqn:El; [by eexists|]. apply Nat.ltb_ge in El. simpl in El. lia.
Qed.

(** With the credentials of a configuration the middleware asks for them. *)
Lemma access_cases (opts : Options W) c (h : Request -> W -> W * Response) r w p :
  op_AuthBasic opts = basic_required c -> op_AuthToken opts = token_required c ->
  rq_authenticated r = false -> inside opts r = Some p -> is_api p = true ->
  (~ presents c r -> unauthorized (serve opts h r w) w) /\
  (presents c r -> exists r', admitted p r' /\ serve opts h r w = inner_chain RequestID Logger Recoverer opts h r' w).
Proof.
  intros Hb Ht Hfresh Hin Hapi.
  assert (presents c r <-> authorized opts p) as Hp.
  { unfold presents, authorized. rewrite Hb, Ht.
    assert (rq_Authorization p = rq_Authorization r) as Hq
      by (unfold inside in Hin; repeat case_match; by simplify_eq).
    unfold knows, bears. by rewrite Hq. }
  assert (rq_authenticated p = false) as Hp' by (unfold inside in Hin; repeat case_match; by simplify_eq).
  rewrite serve_inside, Hin, Hapi.
  destruct (layers_cases Redirect RequestID Logger Recoverer opts (inner_chain RequestID Logger Recoverer opts h) p w Hp')
    as [[Ha (r' & Hr & ->)]|[Ha Hu]]; split_and!.
  - intros Hn. by destruct (Hn (proj2 Hp Ha)).
  - intros _. by exists r'.
  - done.
  - intros Hn. by destruct (Ha (proj1 Hp Hn)).
Qed.

(** C26: whom a configured server admits.  With authentication asked for in the
    configuration, by the older or the newer settings, and whatever the older
    variables of the environment say, a request of the interface that does not
    present the user and password or the token of the configuration is answered
    401 and changes nothing, and one that does reaches the interface; without
    the older settings the user, the password and the token are not empty. *)
Theorem configured_access order e c (h : Request -> W -> W * Response) r w p
    (Hsub : order ⊆ legacyEnvs) (Hvalid : validateConfig c = None) (Hfresh : rq_authenticated r = false)
    (Hin : inside (options_of order e c) r = Some p) (Hapi : is_api p = true) :
  let res := serve (options_of order e c) h r w in
  (~ presents c r -> unauthorized res w) /\
  (presents c r -> exists r', admitted p r' /\ res = inner_chain RequestID Logger Recoverer (options_of order e c) h r' w) /\
  (IsBasicAuth c = false -> forall b, basic_required c = Some b -> ab_Username b <> "" /\ ab_Password b <> "") /\
  (IsAuthToken c = false -> forall tk, token_required c = Some tk -> at_Token tk <> "").
Proof.
  cbv zeta. destruct (options_credentials order e c Hsub) as [Hb Ht].
  destruct (access_cases _ c h r w p Hb Ht Hfresh Hin Hapi) as [H1 H2].
  split; [exact H1|]. split; [exact H2|].
  split; [intros Hl b; by apply valid_basic|intros Hl tk; by apply valid_token].
Qed.

(** The interface is under the base path, however it was written. *)
Theorem base_path_reached order e c r rest
    (Hsub : order ⊆ legacyEnvs) (Hrest : IsAbs rest = true) (Hraw : rq_RawPath r = "")
    (Hpath : rq_Path r = op_BasePath (options_of order e c) +:+ rest) :
  exists p, inside (options_of order e c) r = Some p /\ rq_Path p = rest /\ rq_Authorization p = rq_Authorization r.
Proof.
  apply inside_base; [|done..]. rewrite options_base by done. case_bool_decide; [by left|].
  destruct (clean_base_spec (BasePath c)) as (cs & Hcs & ->). case_bool_decide; [by left|].
  right. by eexists.
Qed.

End server.

(** ** The life of the server *)

Definition is_move (x : life_event) : bool := match x with ServeMoves | WatchMoves => true | _ => false end.

(** The moves the two goroutines have left. *)
Definition rank (l : life) : nat :=
  match lf_serve l with Serving => 2 | Waiting => 1 | Returned => 0 end +
  match lf_watch l with WWatch => 2 | WShutdown => 1 | WEnd => 0 end.

Record life_ok (l : life) : Prop := mk_life_ok {
  ok_returned : lf_serve l = Returned -> lf_done l = true;
  ok_watch : lf_watch l <> WWatch -> lf_done l = true;
  ok_shutdown : lf_watch l = WEnd -> lf_shutdown l = true
}.

Lemma life_step_ok listen l x l' : life_step listen l x = Some l' -> life_ok l ->
  life_ok l' /\ (if is_move x then S (rank l') <= rank l else rank l' <= rank l) /\
  (lf_done l' = true -> lf_done l = true \/ x = Signalled \/ x = CallerDone).
Proof.
  intros H [H1 H2 H3]. destruct l as [s w d sh lg]. unfold rank. simpl in *.
  destruct x; simpl in *; repeat case_match; simplify_eq; simpl in *;
    (split; [constructor; simpl; first [done|tauto|intros; by apply H2|intros; by apply H1|intros; by apply H3]|split; [lia|tauto]]).
Qed.

Lemma life_run_ok listen xs : forall l l', life_run listen l xs = Some l' -> life_ok l ->
  life_ok l' /\ length (filter (fun x => is_move x = true) xs) + rank l' <= rank l /\
  (lf_done l' = true -> lf_done l = true \/ Signalled ∈ xs \/ CallerDone ∈ xs).
Proof.
  induction xs as [|x xs IH]; simpl; intros l l' H Hok.
  { simplify_eq. split_and!; [done|done|by left]. }
  destruct (life_step listen l x) as [l1|] eqn:E; [|done].
  destruct (life_step_ok _ _ _ _ E Hok) as (Hok1 & Hr & Hd). destruct (IH _ _ H Hok1) as (Hok' & Hr' & Hd').
  split_and!; [done| |].
  - rewrite filter_cons. destruct (is_move x) eqn:Em; [rewrite decide_True by done|rewrite decide_False by done]; simpl; lia.
  - intros Hf. destruct (Hd' Hf) as [Hl|[Hl|Hl]]; [|right; left; by right|right; right; by right].
    destruct (Hd Hl) as [?|[->| ->]]; [by left|right; left; by left|right; right; by left].
Qed.

(** The server stops when it is told to and only then.  Whatever the
    interleaving of its two goroutines, [Serve] has returned only after a signal
    or the end of its context, even when it could not listen; after that the two
    goroutines make at most four moves, and when neither can move it has
    returned and the listeners are shut down. *)
Theorem serve_life listen xs l (H : life_run listen life_start xs = Some l) :
  (lf_serve l = Returned -> Signalled ∈ xs \/ CallerDone ∈ xs) /\
  length (filter (fun x => is_move x = true) xs) <= 4 /\
  (lf_done l = true -> life_step listen l ServeMoves = None -> life_step listen l WatchMoves = None ->
   lf_serve l = Returned /\ lf_watch l = WEnd /\ lf_shutdown l = true).
Proof.
  destruct (life_run_ok _ _ _ _ H) as ([H1 H2 H3] & Hr & Hd); [by constructor|]. change (rank life_start) with 4 in Hr.
  split_and!; [|lia|].
  - intros Hret. by destruct (Hd (H1 Hret)) as [?|?].
  - intros Hdone Hs Hw. destruct l as [s w d sh lg]. simpl in *. subst d.
    destruct w; [done|done|]. rewrite H3 in * by done.
    destruct s; [by destruct listen|done|by split_and!].
Qed.

(** A server that could not listen stays until it is told to stop. *)
Example serve_without_listener :
  let listen := Some (ENew "address already in use") in
  lf_logged <$> life_run listen life_start [ServeMoves] = Some ["Server error"] /\
  (life_run listen life_start [ServeMoves] ≫= fun l => life_step listen l ServeMoves) = None /\
  (life_run listen life_start [ServeMoves] ≫= fun l => life_step listen l WatchMoves) = None.
Proof. by split_and!. Qed.

(** ** Two configurations *)

Definition guarded_config : t :=
  set_UI (set_Auth (set_BasePath zero "dagu/") (Auth.mk (AuthBasic.mk true "admin" "secret") (AuthToken.mk false "")))
    (UI.mk "utf-8" "" "Dagu" 100).

Definition no_page : Request -> list string -> list string * Response := fun _ w => (w, http_Error "404 page not found" 404).
Definition no_log : string -> list string -> list string := fun _ w => w.

Lemma configured_access_witness :
  let opts := options_of no_page no_log legacyEnvs {[ "DAGU__ADMIN_PORT" := "9000" ]} guarded_config in
  let serve := SetupGlobalMiddleware (fun _ _ c => mkResponse c [] "") same_handler same_handler same_handler opts answer_api in
  let ask auth := mkRequest "GET" "/dagu/api/v1/dags" "" auth false in
  unauthorized (serve (ask "Basic Og==") []) [] /\
  fst (serve (ask ("Basic " +:+ Base64.EncodeToString "admin:secret")) []) = ["/api/v1/dags"].
Proof.
  pose proof (configured_access (fun _ _ c => mkResponse c [] "") same_handler same_handler same_handler no_page no_log
    legacyEnvs {[ "DAGU__ADMIN_PORT" := "9000" ]} guarded_config answer_api) as H.
  split.
  - destruct (H (mkRequest "GET" "/dagu/api/v1/dags" "" "Basic Og==" false) []
      (mkRequest "GET" "/api/v1/dags" "" "Basic Og==" false)
      ltac:(set_solver) eq_refl eq_refl ltac:(vm_compute; reflexivity) eq_refl) as (H1 & _).
    apply H1. intros Hp. vm_compute in Hp. discriminate Hp.
  - set (auth := "Basic " +:+ Base64.EncodeToString "admin:secret").
    destruct (H (mkRequest "GET" "/dagu/api/v1/dags" "" auth false) []
      (mkRequest "GET" "/api/v1/dags" "" auth false)
      ltac:(set_solver) eq_refl eq_refl ltac:(vm_compute; reflexivity) eq_refl) as (_ & H2 & _).
    destruct H2 as (r' & Hr & E); [vm_compute; reflexivity|].
    destruct Hr as (Hm & Hp & _). rewrite E. destruct r'. simpl in *. subst. reflexivity.
Defined.

(** The older settings are not checked: with the switch alone, or with the user
    and the password in the newer variables of the environment, the empty user
    and password are let in. *)
Definition switch_only : t :=
  Config.mk "127.0.0.1" 8080 false "" "" "/api/v1" "" false (Auth.mk (AuthBasic.mk false "admin" "secret") (AuthToken.mk false ""))
    (PathsConfig.mk "" "" "" "" "" "" "") "" "" "" "" "" "" "" true "" "" false "" "" "" "" 0 "text" false "UTC" None []
    (UI.mk "utf-8" "" "Dagu" 100) [] None.

Example empty_credentials_admitted :
  validateConfig switch_only = None /\
  fst (SetupGlobalMiddleware (fun _ _ c => mkResponse c [] "") same_handler same_handler same_handler
         (options_of no_page no_log legacyEnvs ∅ switch_only) answer_api
         (mkRequest "GET" "/api/v1/dags" "" "Basic Og==" false) []) = ["/api/v1/dags"].
Proof. by vm_compute. Qed.

(** ** What is served *)

Lemma https_server_ok LoadX509KeyPair client_CAs s :
  ra_TLSCertificate s <> "" -> ra_TLSCertificateKey s <> "" -> ra_TLSCACertificate s = "" ->
  LoadX509KeyPair (ra_TLSCertificate s) (ra_TLSCertificateKey s) = None ->
  https_server LoadX509KeyPair client_CAs s = Started [tcp_server s schemeHTTPS (ra_TLSlimits s) false].
Proof.
  intros H1 H2 H3 H4. unfold https_server. rewrite H3, !(bool_decide_true (_ <> "")) by done. cbn [andb]. rewrite H4. done.
Qed.

Ltac schemes :=
  repeat match goal with |- context [hasScheme ?s ?x] => first [change (hasScheme s x) with true|change (hasScheme s x) with false] end.

(** A configured server listens once, on the host and port of the
    configuration, with https exactly when certificates are configured; it has
    no timeouts, keeps no connection alive and gives requests no time to end
    when it stops. *)
Lemma configured_server JoinHostPort net_Listen LoadX509KeyPair client_CAs c :
  (forall tls, TLS c = Some tls -> TLSConfig.CertFile tls <> "" /\ TLSConfig.KeyFile tls <> "" /\
    LoadX509KeyPair (TLSConfig.CertFile tls) (TLSConfig.KeyFile tls) = None) ->
  let s := configured (frontend_New c) in
  restapi_Serve JoinHostPort net_Listen LoadX509KeyPair client_CAs s =
  match net_Listen "tcp" (JoinHostPort (Host c) (Port c)) with
  | Some e => Failed_ e
  | None => Started [mkHttpServer (if TLS c then schemeHTTPS else schemeHTTP) 0 0 0 false None 0 false]
  end /\ ra_GracefulTimeout s = 0%Z.
Proof.
  intros Htls. cbv zeta. unfold configured, frontend_New, server_New, frontend_args. cbn [sv_tls sa_TLS sv_host sv_port sa_Host sa_Port].
  destruct (TLS c) as [tls|] eqn:E; (split; [|reflexivity]); unfold restapi_Serve, Listen, addresses;
    cbn [ra_listeners ra_EnabledListeners restapi_NewServer].
  - destruct (Htls tls eq_refl) as (H1 & H2 & H3).
    schemes.
    cbn [app foldE fst snd default_TLS ra_TLSHost ra_TLSPort ra_Host].
    replace (if bool_decide (Host c = "") then Host c else Host c) with (Host c) by (by case_bool_decide).
    destruct (net_Listen _ _); [done|].
    schemes.
    by rewrite https_server_ok by done.
  - schemes.
    cbn [app foldE fst snd ra_Host ra_Port]. by destruct (net_Listen _ _).
Qed.
