(* ===== verification/Commands.v ===== *)
(** * The command line: cmd

    What each command does with its arguments and flags: it loads the
    configuration and the workflow, opens a log, and runs an agent or asks the
    client.  Parsing of the command line is the cobra library's; the agent's run,
    whose interleavings Agent models, answers through [agent_Run]; logging is
    left out. *)

From S2P Require Import Prelude GoStrings Utf8 Digraph NodeData CmdUtil Eval Paths Node Sched Model History Params StepBuild Builder Stores Client Configuration WebServer.
From Stdlib Require Import Ascii.

(** ** Flags (config.go) *)

Record commandLineFlag := mkFlag {
  fl_name : string;
  fl_shorthand : string;
  fl_defaultValue : string;
  fl_usage : string;
  fl_required : bool
}.

Definition defaultHost : string := "localhost".
Definition defaultPort : string := "8080".

Definition configFlag := mkFlag "config" "c" "" "config file (default is $HOME/.config/dagu/config.yaml)" false.
Definition dagsFlag := mkFlag "dags" "d" "" "location of DAG files (default is $HOME/.config/dagu/dags)" false.
Definition hostFlag := mkFlag "host" "s" defaultHost "server host" false.
Definition portFlag := mkFlag "port" "p" defaultPort "server port" false.
Definition paramsFlag := mkFlag "params" "p" "" "parameters to pass to the DAG" false.
Definition requestIDFlag := mkFlag "req" "r" "" "request ID" false.

Definition withRequired (f : commandLineFlag) : commandLineFlag :=
  mkFlag (fl_name f) (fl_shorthand f) (fl_defaultValue f) (fl_usage f +:+ " (required)") true.
Definition withUsage (f : commandLineFlag) (usage : string) : commandLineFlag :=
  mkFlag (fl_name f) (fl_shorthand f) (fl_defaultValue f) usage (fl_required f).

(** The flags of text of a command, and the ones that switch something on. *)
Record flag_set := mkFlagSet { fs_text : list commandLineFlag; fs_bool : list string }.

Definition initCommonFlags (addFlags : list commandLineFlag) : flag_set := mkFlagSet (addFlags ++ [configFlag]) [].
Definition with_quiet (f : flag_set) : flag_set := mkFlagSet (fs_text f) (fs_bool f ++ ["quiet"]).

(** The flags of each command. *)
Definition startFlags : flag_set :=
  with_quiet (initCommonFlags [paramsFlag; withUsage requestIDFlag "request ID for the DAG execution"]).
Definition retryFlags : flag_set := with_quiet (initCommonFlags [withRequired requestIDFlag]).
Definition restartFlags : flag_set := with_quiet (initCommonFlags []).
Definition stopFlags : flag_set := initCommonFlags [].
Definition statusFlags : flag_set := initCommonFlags [].
Definition dryFlags : flag_set := initCommonFlags [paramsFlag].
Definition schedulerFlags : flag_set := initCommonFlags [dagsFlag].
Definition serverFlags : flag_set :=
  initCommonFlags [mkFlag "dags" "d" "" "location of DAG files (default is $HOME/.config/dagu/dags)" false;
                   mkFlag "host" "s" defaultHost "server host" false; mkFlag "port" "p" defaultPort "server port" false].
Definition startAllFlags : flag_set := initCommonFlags [dagsFlag; hostFlag; portFlag].

(** [bindCommonFlags]: the flags viper is told of; one that is not defined is an
    error. *)
Definition bindCommonFlags (defined : flag_set) (addFlags : list string) : result (list string) :=
  foldE (fun bound flag =>
    if bool_decide (flag ∈ fl_name <$> fs_text defined) then Ok (bound ++ [flag])
    else Err (EWrap ("failed to bind flag " +:+ flag +:+ ": ") (ENew ("flag for " +:+ flag +:+ " is nil")) ""))
    [] ("config" :: addFlags).

(** An invocation, as cobra has parsed it. *)
Record command := mkCommand {
  cmd_flags : flag_set;
  cmd_set : gmap string string;
  cmd_on : list string;
  cmd_args : list string;
  cmd_ArgsLenAtDash : option nat
}.

Definition not_defined (name : string) : error := ENew ("flag accessed but not defined: " +:+ name).

Definition GetString (c : command) (name : string) : result string :=
  match list_find (fun f => fl_name f = name) (fs_text (cmd_flags c)) with
  | Some (_, f) => Ok (default (fl_defaultValue f) (cmd_set c !! name))
  | None => Err (not_defined name)
  end.

Definition GetBool (c : command) (name : string) : result bool :=
  if bool_decide (name ∈ fs_bool (cmd_flags c)) then Ok (bool_decide (name ∈ cmd_on c)) else Err (not_defined name).

(** ** Parameters (start.go) *)

(** [removeQuotes]. *)
Definition removeQuotes (s : string) : string :=
  let l := s2l s in
  if (2 <=? length l)%nat && bool_decide (head l = Some Pipe.dquote) && bool_decide (last l = Some Pipe.dquote)
  then l2s (take (length l - 2) (drop 1 l)) else s.

(** The options a workflow is loaded with: the arguments after the dash, or the
    flag. *)
Definition param_option (c : command) : result LoadOption :=
  match cmd_ArgsLenAtDash c with
  | Some n => Ok (WithParams (VStrList (drop n (cmd_args c))))
  | None =>
      match GetString c "params" with
      | Err e => Err (EWrap "failed to get parameters: " e "")
      | Ok params => Ok (WithParams (VStr (removeQuotes params)))
      end
  end.

(** The parameters of an earlier run. *)
Definition previous_params (st : MStatus.t) : LoadOption :=
  if bool_decide (MStatus.Params st <> "") then WithParams (VStr (MStatus.Params st))
  else WithParams (VStrList (MStatus.ParamsList st)).

(** ** Logs (setup.go) *)

Record logFileSettings := mkLogSettings {
  lg_Prefix : string;
  lg_LogDir : string;
  lg_DAGLogDir : string;
  lg_DAGName : string;
  lg_RequestID : string
}.

Definition validateSettings (c : logFileSettings) : option error :=
  if bool_decide (lg_DAGName c = "") then Some (ENew "DAGName cannot be empty")
  else if bool_decide (lg_LogDir c = "") && bool_decide (lg_DAGLogDir c = "")
  then Some (ENew "either LogDir or DAGLogDir must be specified")
  else None.

(** ** The setup (setup.go) *)

Record setup := mkSetup { su_cfg : Config.t }.

(** How the stores and the client are made. *)
Record store_conf := mkStoreConf { sc_dir : string; sc_latestStatusToday : bool; sc_cached : bool }.
Record client_conf := mkClientConf {
  cl_dags : store_conf;
  cl_history : store_conf;
  cl_flagsDir : string;
  cl_executable : string;
  cl_workDir : string
}.

(** What is given to [agent.New]. *)
Record agent_args := mkAgentArgs {
  ag_requestID : string;
  ag_dag : DAG.t;
  ag_logDir : string;
  ag_logFile : string;
  ag_client : client_conf;
  ag_dagStore : store_conf;
  ag_historyStore : store_conf;
  ag_Dry : bool;
  ag_RetryTarget : option MStatus.t
}.

(** What a command ends with: a return, or [os.Exit]. *)
Inductive outcome := Return (e : option error) | Exit (code : Z).

(** [wrapRunE]: the error is printed. *)
Definition wrapRunE (o : outcome) : outcome :=
  match o with Return (Some _) => Exit 1 | o => o end.

(** [listenSignals]: the signal that is passed on. *)
Inductive notified := CtxDone | Received (sig : Z).
Definition SIGINT : Z := 2.
Definition listened (n : notified) : Z := match n with CtxDone => SIGINT | Received sig => sig end.

Definition failed_to (what : string) (e : error) : option error := Some (EWrap ("failed to " +:+ what +:+ ": ") e "").

Section commands.
Context {W : Type} `{!HistoryStore W}.
(** The arguments of SafeName. *)
Context (rune_lower : Z -> Z) (is_print : Z -> bool).
(** The sockets, as the client uses them. *)
Context (md5hex : string -> string) (request : string -> string -> string -> W -> W * result string).
Context (StatusFromJSON : string -> result MStatus.t) (fmt_rfc3339 : Z -> string) (FileExists : string -> W -> bool).
(** [createSetup]: the configuration of the process, or its error. *)
Context (config_Load : string -> W -> W * result Config.t) (config_flag : string).
(** [digraph.Load] in the environment of the process. *)
Context (digraph_Load : list LoadOption -> string -> W -> W * result DAG.t).
(** [cmdutil.EvalString] there. *)
Context (EvalString : string -> W -> result string).
Context (IsNotExist : string -> W -> bool) (MkdirAll OpenFile : string -> W -> W * option error).
(** [time.Now] in the format of log files; a new UUID; [filepath.Abs]. *)
Context (timestamp : W -> string) (NewRandom : W -> W * result string) (Abs : string -> result string).
(** [Agent.Run]. *)
Context (agent_Run : agent_args -> W -> W * option error).
(** Time that passes, in which others act. *)
Context (Sleep : Z -> W -> W).

Definition createSetup (w : W) : W * result setup :=
  match config_Load config_flag w with
  | (w, Err e) => (w, Err (EWrap "failed to load config: " e ""))
  | (w, Ok cfg) => (w, Ok (mkSetup cfg))
  end.

Definition historyStore (s : setup) : store_conf :=
  mkStoreConf (PathsConfig.DataDir (Config.Paths (su_cfg s))) (Config.LatestStatusToday (su_cfg s)) false.
Definition historyStoreWithCache (s : setup) : store_conf :=
  mkStoreConf (PathsConfig.DataDir (Config.Paths (su_cfg s))) (Config.LatestStatusToday (su_cfg s)) true.

Definition dagStore (s : setup) (w : W) : W * result store_conf :=
  let baseDir := PathsConfig.DAGsDir (Config.Paths (su_cfg s)) in
  let store := mkStoreConf baseDir false false in
  if IsNotExist baseDir w then
    match MkdirAll baseDir w with
    | (w, Some e) => (w, Err (EWrap ("failed to initialize directory " +:+ baseDir +:+ ": ") e ""))
    | (w, None) => (w, Ok store)
    end
  else (w, Ok store).

Definition dagStoreWithCache (s : setup) : store_conf :=
  mkStoreConf (PathsConfig.DAGsDir (Config.Paths (su_cfg s))) false true.

Definition client_of (s : setup) (dags history : store_conf) : client_conf :=
  mkClientConf dags history (PathsConfig.SuspendFlagsDir (Config.Paths (su_cfg s)))
    (PathsConfig.Executable (Config.Paths (su_cfg s))) (Config.WorkDir (su_cfg s)).

(** [setup.client]; the directory of the flags is made, whatever comes of it. *)
Definition setup_client (s : setup) (dags history : option store_conf) (w : W) : W * result client_conf :=
  match match dags with Some d => (w, Ok d) | None => dagStore s w end with
  | (w, Err e) => (w, Err (EWrap "failed to initialize DAG store: " e ""))
  | (w, Ok d) =>
      let w := fst (MkdirAll (PathsConfig.SuspendFlagsDir (Config.Paths (su_cfg s))) w) in
      (w, Ok (client_of s d (default (historyStore s) history)))
  end.

Definition setup_server (s : setup) (w : W) : W * result (client_conf * Server) :=
  match setup_client s (Some (dagStoreWithCache s)) (Some (historyStoreWithCache s)) w with
  | (w, Err e) => (w, Err (EWrap "failed to initialize client: " e ""))
  | (w, Ok cli) => (w, Ok (cli, frontend_New (su_cfg s)))
  end.

(** What the daemon is given (setup.go [scheduler], scheduler.go [New]). *)
Record scheduler_conf := mkSchedulerConf {
  sd_dagsDir : string;
  sd_client : client_conf;
  sd_executable : string;
  sd_workDir : string;
  sd_logDir : string;
  sd_location : Location
}.

Definition setup_scheduler (s : setup) (w : W) : W * result scheduler_conf :=
  match setup_client s None None w with
  | (w, Err e) => (w, Err (EWrap "failed to initialize client: " e ""))
  | (w, Ok cli) =>
      let p := Config.Paths (su_cfg s) in
      (w, Ok (mkSchedulerConf (PathsConfig.DAGsDir p) cli (PathsConfig.Executable p) (Config.WorkDir (su_cfg s))
                (PathsConfig.LogDir p) (default Local (Config.Location_ (su_cfg s)))))
  end.

(** *** Log files *)

Definition log_base (c : logFileSettings) : string :=
  if bool_decide (lg_DAGLogDir c <> "") then lg_DAGLogDir c else lg_LogDir c.

Definition setupLogDirectory (c : logFileSettings) (w : W) : W * result string :=
  let logDir := Join [log_base c; SafeName rune_lower is_print (lg_DAGName c)] in
  match MkdirAll logDir w with
  | (w, Some e) => (w, Err (EWrap ("failed to initialize directory " +:+ logDir +:+ ": ") e ""))
  | (w, None) => (w, Ok logDir)
  end.

Definition buildLogFilename (c : logFileSettings) (now : string) : string :=
  lg_Prefix c +:+ SafeName rune_lower is_print (lg_DAGName c) +:+ "." +:+ now +:+ "." +:+ TruncString (lg_RequestID c) 8 +:+ ".log".

Definition createLogFile (path : string) (w : W) : W * result string :=
  match OpenFile path w with
  | (w, Some e) => (w, Err (EWrap ("failed to create/open log file " +:+ path +:+ ": ") e ""))
  | (w, None) => (w, Ok path)
  end.

Definition openLogFile (s : setup) (prefix : string) (dag : DAG.t) (requestID : string) (w : W) : W * result string :=
  match EvalString (PathsConfig.LogDir (Config.Paths (su_cfg s))) w with
  | Err e => (w, Err (EWrap "failed to expand log directory: " e ""))
  | Ok logDir =>
      let c := mkLogSettings prefix logDir (DAG.LogDir dag) (DAG.Name dag) requestID in
      match validateSettings c with
      | Some e => (w, Err (EWrap "invalid log settings: " e ""))
      | None =>
          match setupLogDirectory c w with
          | (w, Err e) => (w, Err (EWrap "failed to setup log directory: " e ""))
          | (w, Ok outputDir) => createLogFile (Join [outputDir; buildLogFilename c (timestamp w)]) w
          end
      end
  end.

Definition base_option (s : setup) : LoadOption := WithBaseConfig (PathsConfig.BaseConfig (Config.Paths (su_cfg s))).

(** ** Running an agent *)

(** The error of a run: a quiet command exits without a word. *)
Definition after_run (quiet : bool) (what : string) (r : W * option error) : W * outcome :=
  match r with
  | (w, None) => (w, Return None)
  | (w, Some e) => (w, if quiet then Exit 1 else Return (Some (EWrap (what +:+ ": ") e "")))
  end.

(** The stores and the client, then the agent on the log file. *)
Definition run_agent (s : setup) (requestID : string) (dag : DAG.t) (logFile : string) (dry : bool)
    (target : option MStatus.t) (w : W) : W * (option error * option (option error)) :=
  match dagStore s w with
  | (w, Err e) => (w, (failed_to "initialize DAG store" e, None))
  | (w, Ok store) =>
      match setup_client s None None w with
      | (w, Err e) => (w, (failed_to "initialize client" e, None))
      | (w, Ok cli) =>
          let '(w, e) := agent_Run (mkAgentArgs requestID dag (Dir logFile) logFile cli store (historyStore s) dry target) w in
          (w, (None, Some e))
      end
  end.

Definition run_failed (dag : DAG.t) (requestID : string) : string :=
  "failed to execute DAG " +:+ DAG.Name dag +:+ " (requestID: " +:+ requestID +:+ ")".

Definition finish (quiet : bool) (what : string) (r : W * (option error * option (option error))) : W * outcome :=
  match r with
  | (w, (e, None)) => (w, Return e)
  | (w, (_, Some e)) => after_run quiet what (w, e)
  end.

Definition generateRequestID (w : W) : W * result string := NewRandom w.

(** *** start (start.go) *)

Definition executeDag (s : setup) (specPath : string) (opts : list LoadOption) (quiet : bool) (requestID : string) (w : W)
    : W * outcome :=
  match digraph_Load opts specPath w with
  | (w, Err e) => (w, Return (failed_to ("load DAG from " +:+ specPath) e))
  | (w, Ok dag) =>
      match (if bool_decide (requestID = "") then generateRequestID w else (w, Ok requestID)) with
      | (w, Err e) => (w, Return (failed_to "generate request ID" e))
      | (w, Ok requestID) =>
          match openLogFile s "start_" dag requestID w with
          | (w, Err e) => (w, Return (failed_to ("initialize log file for DAG " +:+ DAG.Name dag) e))
          | (w, Ok logFile) => finish quiet (run_failed dag requestID) (run_agent s requestID dag logFile false None w)
          end
      end
  end.

Definition with_setup (f : setup -> W -> W * outcome) (w : W) : W * outcome :=
  match createSetup w with
  | (w, Err e) => (w, Return (failed_to "create setup" e))
  | (w, Ok s) => f s w
  end.

(** An argument that cobra has made sure of. *)
Definition arg0 (c : command) : result string :=
  match cmd_args c with a :: _ => Ok a | [] => Err (panic "index out of range") end.

Definition runStart (c : command) (w : W) : W * outcome :=
  with_setup (fun s w =>
    match GetBool c "quiet" with
    | Err e => (w, Return (failed_to "get quiet flag" e))
    | Ok quiet =>
        match GetString c "req" with
        | Err e => (w, Return (failed_to "get request ID" e))
        | Ok requestID =>
            match param_option c with
            | Err e => (w, Return (Some e))
            | Ok opt =>
                match arg0 c with
                | Err e => (w, Return (Some e))
                | Ok spec => executeDag s spec [base_option s; opt] quiet requestID w
                end
            end
        end
    end) w.

(** *** dry (dry.go) *)

Definition runDry (c : command) (w : W) : W * outcome :=
  with_setup (fun s w =>
    match param_option c with
    | Err e => (w, Return (Some e))
    | Ok opt =>
        match arg0 c with
        | Err e => (w, Return (Some e))
        | Ok spec =>
            match digraph_Load [base_option s; opt] spec w with
            | (w, Err e) => (w, Return (failed_to ("load DAG from " +:+ spec) e))
            | (w, Ok dag) =>
                match generateRequestID w with
                | (w, Err e) => (w, Return (failed_to "generate request ID" e))
                | (w, Ok requestID) =>
                    match openLogFile s "dry_" dag requestID w with
                    | (w, Err e) => (w, Return (failed_to ("initialize log file for DAG " +:+ DAG.Name dag) e))
                    | (w, Ok logFile) => finish false (run_failed dag requestID) (run_agent s requestID dag logFile true None w)
                    end
                end
            end
        end
    end) w.

(** *** retry (retry.go) *)

Definition executeRetry (dag : DAG.t) (s : setup) (original : StatusFile) (quiet : bool) (w : W) : W * outcome :=
  match generateRequestID w with
  | (w, Err e) => (w, Return (failed_to "generate new request ID" e))
  | (w, Ok newRequestID) =>
      match openLogFile s "retry_" dag newRequestID w with
      | (w, Err e) => (w, Return (failed_to ("initialize log file for DAG " +:+ DAG.Name dag) e))
      | (w, Ok logFile) =>
          finish quiet (run_failed dag newRequestID)
            (run_agent s newRequestID dag logFile false (Some (sf_Status original)) w)
      end
  end.

(** The options of the load of a run that is retried or restarted. *)
Definition again_options (s : setup) (st : MStatus.t) : list LoadOption := [base_option s; previous_params st].

Definition runRetry (c : command) (w : W) : W * outcome :=
  with_setup (fun s w =>
    match GetBool c "quiet" with
    | Err e => (w, Return (failed_to "get quiet flag" e))
    | Ok quiet =>
        match GetString c "req" with
        | Err e => (w, Return (failed_to "get request ID" e))
        | Ok requestID =>
            match arg0 c with
            | Err e => (w, Return (Some e))
            | Ok spec =>
                match Abs spec with
                | Err e => (w, Return (failed_to ("resolve absolute path for " +:+ spec) e))
                | Ok path =>
                    match hs_FindByRequestID path requestID w with
                    | Err e => (w, Return (failed_to ("retrieve historical execution for request ID " +:+ requestID) e))
                    | Ok status =>
                        match digraph_Load (again_options s (sf_Status status)) path w with
                        | (w, Err e) =>
                            (w, Return (failed_to ("load DAG specification from " +:+ spec +:+ " with params " +:+
                                                   MStatus.Params (sf_Status status)) e))
                        | (w, Ok dag) =>
                            match executeRetry dag s status quiet w with
                            | (w, Return (Some e)) => (w, Return (failed_to "execute retry" e))
                            | r => r
                            end
                        end
                    end
                end
            end
        end
    end) w.

(** *** restart (restart.go) *)

Abbreviation current := (GetCurrentStatus md5hex request StatusFromJSON fmt_rfc3339).

Definition stopPollInterval : Z := 100000000.

(** The loop; out of fuel it is still stopping. *)
Fixpoint stopRunningDAG (fuel : nat) (dag : DAG.t) (w : W) : option (W * option error) :=
  match fuel with
  | 0 => None
  | S fuel =>
      match current dag w with
      | (w, Err e) => Some (w, failed_to "get current status" e)
      | (w, Ok st) =>
          if bool_decide (MStatus.Status st <> StatusRunning) then Some (w, None)
          else match Stop md5hex request FileExists dag w with
               | (w, Some e) => Some (w, failed_to "stop DAG" e)
               | (w, None) => stopRunningDAG fuel dag (Sleep stopPollInterval w)
               end
      end
  end.

Definition stopDAGIfRunning (fuel : nat) (dag : DAG.t) (w : W) : option (W * option error) :=
  match current dag w with
  | (w, Err e) => Some (w, failed_to "get current status" e)
  | (w, Ok st) =>
      if bool_decide (MStatus.Status st = StatusRunning) then
        match stopRunningDAG fuel dag w with
        | Some (w, Some e) => Some (w, failed_to "stop running DAG" e)
        | r => r
        end
      else Some (w, None)
  end.

Definition waitForRestart (restartWait : Z) (w : W) : W := if (0 <? restartWait)%Z then Sleep restartWait w else w.

Definition getPreviousExecutionStatus (dag : DAG.t) (w : W) : W * result MStatus.t :=
  match GetLatestStatus md5hex request StatusFromJSON fmt_rfc3339 dag w with
  | (w, (_, Some e)) => (w, Err (EWrap "failed to get latest status: " e ""))
  | (w, (st, None)) => (w, Ok st)
  end.

(** [executeDAG]: the client is the one that stopped the workflow. *)
Definition executeDAG (cli : client_conf) (s : setup) (dag : DAG.t) (quiet : bool) (w : W) : W * outcome :=
  match generateRequestID w with
  | (w, Err e) => (w, Return (failed_to "generate request ID" e))
  | (w, Ok requestID) =>
      match openLogFile s "restart_" dag requestID w with
      | (w, Err e) => (w, Return (failed_to "initialize log file" e))
      | (w, Ok logFile) =>
          match dagStore s w with
          | (w, Err e) => (w, Return (failed_to "initialize DAG store" e))
          | (w, Ok store) =>
              after_run quiet "DAG execution failed"
                (agent_Run (mkAgentArgs requestID dag (Dir logFile) logFile cli store (historyStore s) false None) w)
          end
      end
  end.

Definition handleRestartProcess (fuel : nat) (s : setup) (dag : DAG.t) (quiet : bool) (spec : string) (w : W)
    : option (W * outcome) :=
  match setup_client s None None w with
  | (w, Err e) => Some (w, Return (failed_to "initialize client" e))
  | (w, Ok cli) =>
      match stopDAGIfRunning fuel dag w with
      | None => None
      | Some (w, Some e) => Some (w, Return (failed_to "stop DAG" e))
      | Some (w, None) =>
          match getPreviousExecutionStatus dag (waitForRestart (DAG.RestartWait dag) w) with
          | (w, Err e) => Some (w, Return (failed_to "get previous execution parameters" e))
          | (w, Ok st) =>
              match digraph_Load (again_options s st) spec w with
              | (w, Err e) => Some (w, Return (failed_to "reload DAG with params" e))
              | (w, Ok dag) => Some (executeDAG cli s dag quiet w)
              end
          end
      end
  end.

Definition runRestart (fuel : nat) (c : command) (w : W) : option (W * outcome) :=
  match createSetup w with
  | (w, Err e) => Some (w, Return (failed_to "create setup" e))
  | (w, Ok s) =>
      match GetBool c "quiet" with
      | Err e => Some (w, Return (failed_to "get quiet flag" e))
      | Ok quiet =>
          match arg0 c with
          | Err e => Some (w, Return (Some e))
          | Ok spec =>
              match digraph_Load [base_option s] spec w with
              | (w, Err e) => Some (w, Return (failed_to ("load DAG from " +:+ spec) e))
              | (w, Ok dag) =>
                  match handleRestartProcess fuel s dag quiet spec w with
                  | Some (w, Return (Some e)) =>
                      Some (w, Return (Some (EWrap ("restart process failed for DAG " +:+ DAG.Name dag +:+ ": ") e "")))
                  | r => r
                  end
              end
          end
      end
  end.

(** ** Asking the client *)

(** A workflow is loaded, and a client made. *)
Definition with_client (c : command) (f : DAG.t -> W -> W * outcome) : W -> W * outcome :=
  with_setup (fun s w =>
    match arg0 c with
    | Err e => (w, Return (Some e))
    | Ok spec =>
        match digraph_Load [base_option s] spec w with
        | (w, Err e) => (w, Return (failed_to ("load DAG from " +:+ spec) e))
        | (w, Ok dag) =>
            match setup_client s None None w with
            | (w, Err e) => (w, Return (failed_to "initialize client" e))
            | (w, Ok _) => f dag w
            end
        end
    end).

Definition runStop (c : command) : W -> W * outcome :=
  with_client c (fun dag w =>
    match Stop md5hex request FileExists dag w with
    | (w, Some e) => (w, Return (failed_to "stop DAG" e))
    | (w, None) => (w, Return None)
    end).

(** [report] is told the process and the status. *)
Definition runStatus (report : Z -> Status -> W -> W) (c : command) : W -> W * outcome :=
  with_client c (fun dag w =>
    match current dag w with
    | (w, Err e) => (w, Return (failed_to "retrieve current status" e))
    | (w, Ok st) => (report (MStatus.PID st) (MStatus.Status st) w, Return None)
    end).

(** ** The services *)

(** [Scheduler.Start] and [Server.Serve]. *)
Context (scheduler_Start : scheduler_conf -> W -> W * option error) (server_Serve : Server -> W -> W * option error).

(** The flag names the directory of the workflows. *)
Definition with_dags_flag (c : command) (s : setup) : setup :=
  match GetString c "dags" with
  | Ok d => if bool_decide (d <> "")
            then mkSetup (Config.set_Paths (su_cfg s) (PathsConfig.set_DAGsDir (Config.Paths (su_cfg s)) d)) else s
  | Err _ => s
  end.

Definition runScheduler (c : command) : W -> W * outcome :=
  with_setup (fun s w =>
    let s := with_dags_flag c s in
    match setup_scheduler s w with
    | (w, Err e) => (w, Return (failed_to "initialize scheduler" e))
    | (w, Ok d) =>
        match scheduler_Start d w with
        | (w, Some e) => (w, Return (failed_to ("start scheduler in directory " +:+ PathsConfig.DAGsDir (Config.Paths (su_cfg s))) e))
        | (w, None) => (w, Return None)
        end
    end).

Definition runServer (c : command) : W -> W * outcome :=
  with_setup (fun s w =>
    match setup_server s w with
    | (w, Err e) => (w, Return (failed_to "initialize server" e))
    | (w, Ok (_, svr)) =>
        match server_Serve svr w with
        | (w, Some e) => (w, Return (failed_to "start server" e))
        | (w, None) => (w, Return None)
        end
    end).

(** What arrives first of the results of the two services and the end of the
    context. *)
Inductive arrival := FromScheduler (e : option error) | FromServer (e : option error) | Cancelled.

Definition startAll_result (a : arrival) : outcome :=
  match a with
  | FromScheduler e => Return ((fun x => EWrap "scheduler initialization failed: " x "") <$> e)
  | FromServer e => Return ((fun x => EWrap "server initialization failed: " x "") <$> e)
  | Cancelled => Return None
  end.

(** The services run from here on; [wait] is what arrives. *)
Definition runStartAll (wait : scheduler_conf -> Server -> W -> W * arrival) (c : command) : W -> W * outcome :=
  with_setup (fun s w =>
    let s := with_dags_flag c s in
    match setup_scheduler s w with
    | (w, Err e) => (w, Return (failed_to "initialize scheduler" e))
    | (w, Ok d) =>
        match setup_server s w with
        | (w, Err e) => (w, Return (failed_to "initialize server" e))
        | (w, Ok (_, svr)) => let '(w, a) := wait d svr w in (w, startAll_result a)
        end
    end).

End commands.
