(* ===== verification/CommandsProps.v ===== *)
(** * Properties of the commands

    What a command runs when it succeeds, that a run that is retried or
    restarted gets the parameters it had, and that a restart waits for the run
    it stops. *)

From S2P Require Import Prelude GoStrings Utf8 Digraph NodeData CmdUtil Eval Paths Contexts Node Graph Sched Model History Regex Params ParamsProps StepBuild Builder Stores Client Reporter Agent Configuration WebServer Commands.
From Stdlib Require Import Ascii.

(** ** Parameters *)

(** The quotes the client puts around the parameters are taken off again. *)
Lemma removeQuotes_quoted p : removeQuotes (dq +:+ p +:+ dq) = p.
Proof.
  unfold removeQuotes. rewrite !s2l_app. change (s2l dq) with [Pipe.dquote].
  set (l := [Pipe.dquote] ++ s2l p ++ [Pipe.dquote]).
  assert (length l = S (S (length (s2l p)))) as Hl by (unfold l; simpl; rewrite length_app; simpl; lia).
  rewrite (proj2 (Nat.leb_le _ _)) by lia. rewrite bool_decide_true by done.
  rewrite bool_decide_true by (unfold l; by rewrite app_assoc, last_snoc). cbn [andb].
  rewrite Hl. change (drop 1 l) with (s2l p ++ [Pipe.dquote]).
  rewrite (take_app_length' (s2l p)) by lia. apply l2s_s2l.
Qed.

(** Text without line breaks needs no escape. *)
Lemma escapeArg_ascii p :
  Forall (fun c => is_ascii c = true) (s2l p) -> nl ∉ s2l p -> "013"%char ∉ s2l p -> escapeArg p = p.
Proof.
  intros Ha Hn Hr. unfold escapeArg, decode_runes. rewrite decode_ascii by done.
  rewrite <- !list_fmap_compose. rewrite <- (l2s_s2l p) at 2. f_equal.
  assert (forall l, Forall (fun c => is_ascii c = true) l -> nl ∉ l -> "013"%char ∉ l ->
    concat ((fun c => if (byte_z c =? 13)%Z then s2l "\r" else if (byte_z c =? 10)%Z then s2l "\n" else encode_rune (byte_z c)) <$> l) = l) as H.
  2: exact (H _ Ha Hn Hr).
  clear. induction 1 as [|c l Hc Hl IH]; intros Hn Hr; [done|]. cbn [fmap list_fmap concat].
  apply not_elem_of_cons in Hn as [Hn Hn'], Hr as [Hr Hr'].
  assert ((byte_z c =? 13)%Z = false) as ->.
  { apply Z.eqb_neq. intros E. apply Hr. rewrite <- (z_byte_z c), E. done. }
  assert ((byte_z c =? 10)%Z = false) as ->.
  { apply Z.eqb_neq. intros E. apply Hn. rewrite <- (z_byte_z c), E. done. }
  rewrite encode_rune_ascii by (unfold is_ascii in Hc; lia). cbn [app]. f_equal. by apply IH.
Qed.

(** What the client passes is what the command loads with. *)
Theorem start_params_reach c opts
    (Hdash : cmd_ArgsLenAtDash c = None) (Hflags : cmd_flags c = startFlags)
    (Hset : cmd_set c !! "params" = Some (dq +:+ escapeArg (so_Params opts) +:+ dq))
    (Hascii : Forall (fun c => is_ascii c = true) (s2l (so_Params opts)))
    (Hnl : nl ∉ s2l (so_Params opts)) (Hcr : "013"%char ∉ s2l (so_Params opts)) :
  param_option c = Ok (WithParams (VStr (so_Params opts))).
Proof.
  unfold param_option, GetString. rewrite Hdash, Hflags. simpl. rewrite Hset. simpl.
  by rewrite removeQuotes_quoted, escapeArg_ascii.
Qed.

(** The context a run that is repeated is built in. *)
Lemma again_context s st :
  load_context (again_options s st) =
  Ok (mkBuild "" (PathsConfig.BaseConfig (Config.Paths (su_cfg s))) false (MStatus.Params st)
        (if bool_decide (MStatus.Params st <> "") then [] else MStatus.ParamsList st) false).
Proof.
  unfold load_context, again_options, previous_params, base_option. case_bool_decide as E; [done|].
  by rewrite E.
Qed.

Section rerun.
Context (show_map : list (any * any) -> string) (is_print : Z -> bool).
Context (jq : string -> string -> option string) (sh runCommand : env -> string -> result string).

Abbreviation build := (buildParams show_map is_print jq sh runCommand false).

(** C25: a run that is retried or restarted has the parameters it had: the
    status its agent writes gives options under which the loader builds the same
    parameters, whatever the environment by then, as long as the defaults have
    the names they had, each once, and each parameter is one word: no spaces,
    quotes or substitutions in it, and no equal sign in one without a name. *)
Theorem rerun_keeps_params e e' params given givenList dag0 ds envs e0 ds' envs' e0' e1 ps envs1 dag1
    (s : setup) (requestID logFile : string) (fmt : Z -> string) (pid : Z) (x : state)
    (Hgiven : given = "" \/ givenList = []) (Hfresh : DAG.Params dag0 = [])
    (Hds : parseParams show_map jq sh runCommand false e params [] [] = (e0, Ok (ds, envs)))
    (Hds' : parseParams show_map jq sh runCommand false e' params [] [] = (e0', Ok (ds', envs')))
    (Hnames : pp_Name <$> ds' = pp_Name <$> ds) (Honce : NoDup (names ds))
    (Hpairs : run_pairs show_map jq sh runCommand e params given givenList = (e1, Ok (ps, envs1)))
    (Hwords : Forall word ps) (Hbuild : build e params given givenList dag0 = (e1, (dag1, None))) :
  let st := agent_Status dag1 requestID logFile fmt pid x in
  exists ctx e2 dag2, load_context (again_options s st) = Ok ctx /\
    build e' params (bc_Parameters ctx) (bc_ParametersList ctx) dag0 = (e2, (dag2, None)) /\
    DAG.Params dag2 = DAG.Params dag1.
Proof.
  cbv zeta. rewrite again_context.
  set (st := agent_Status dag1 requestID logFile fmt pid x).
  assert (MStatus.Params st = join (DAG.Params dag1) " " /\ MStatus.ParamsList st = DAG.Params dag1) as [-> ->] by done.
  pose proof (run_pairs_settled _ _ _ _ _ _ _ _ _ _ _ _ _ _ Hds Hgiven Hpairs) as Hset.
  destruct (build_run_pairs show_map is_print jq sh runCommand e params given givenList dag0 e1 ps envs1 Hpairs) as (dag1' & Hb1 & Hps).
  rewrite Hb1 in Hbuild. injection Hbuild as <-. rewrite Hfresh in Hps. cbn [app] in Hps. rewrite Hps.
  eexists. cbn [bc_Parameters bc_ParametersList].
  assert ((if bool_decide (join (pair_String <$> ps) " " <> "") then [] else pair_String <$> ps) = []) as Hl.
  { case_bool_decide as E; [done|]. destruct ps as [|p ps]; [done|].
    exfalso. by apply (join_words (p :: ps) Hwords). }
  rewrite Hl.
  destruct (build_words show_map is_print jq sh runCommand e' params dag0 ds' envs' e0' ps) as (e2 & dag2 & Hb & Hp); [done| | |done|done|].
  - unfold names. by rewrite Hnames.
  - by apply (settled_names ds).
  - exists e2, dag2. by split_and!.
Qed.

End rerun.

(** ** Flags *)

(** Every flag a command reads or binds is one of its own. *)
Lemma start_flags_defined c : cmd_flags c = startFlags ->
  is_ok (GetBool c "quiet") = true /\ is_ok (GetString c "req") = true /\ is_ok (param_option c) = true.
Proof. intros H. unfold GetBool, param_option, GetString. rewrite H. by destruct (cmd_ArgsLenAtDash c). Qed.

Lemma retry_flags_defined c : cmd_flags c = retryFlags -> is_ok (GetBool c "quiet") = true /\ is_ok (GetString c "req") = true.
Proof. intros H. unfold GetBool, GetString. by rewrite H. Qed.

Lemma bound_flags_defined :
  (forall f, f ∈ [startFlags; retryFlags; restartFlags; stopFlags; statusFlags; dryFlags] -> is_ok (bindCommonFlags f []) = true) /\
  is_ok (bindCommonFlags schedulerFlags ["dags"]) = true /\ is_ok (bindCommonFlags serverFlags ["port"; "host"; "dags"]) = true /\
  is_ok (bindCommonFlags startAllFlags ["dags"; "host"; "port"]) = true.
Proof.
  split; [|done]. intros f Hf. rewrite !elem_of_cons, elem_of_nil in Hf.
  by destruct Hf as [->|[->|[->|[->|[->|[->|[]]]]]]].
Qed.

(** ** What a command runs *)

Section commands.
Context {W : Type} `{!HistoryStore W}.
Context (rune_lower : Z -> Z) (is_print : Z -> bool).
Context (md5hex : string -> string) (request : string -> string -> string -> W -> W * result string).
Context (StatusFromJSON : string -> result MStatus.t) (fmt_rfc3339 : Z -> string) (FileExists : string -> W -> bool).
Context (config_Load : string -> W -> W * result Config.t) (config_flag : string).
Context (digraph_Load : list LoadOption -> string -> W -> W * result DAG.t).
Context (EvalString : string -> W -> result string).
Context (IsNotExist : string -> W -> bool) (MkdirAll OpenFile : string -> W -> W * option error).
Context (timestamp : W -> string) (NewRandom : W -> W * result string) (Abs : string -> result string).
Context (agent_Run : agent_args -> W -> W * option error) (Sleep : Z -> W -> W).

Abbreviation run_agent_ := (run_agent IsNotExist MkdirAll agent_Run).

Lemma finish_ok quiet what s requestID dag logFile dry target w w' :
  finish quiet what (run_agent_ s requestID dag logFile dry target w) = (w', Return None) ->
  exists cli store w1, agent_Run (mkAgentArgs requestID dag (Dir logFile) logFile cli store (historyStore s) dry target) w1 = (w', None).
Proof.
  unfold run_agent, finish. destruct (dagStore _ _ s w) as [w1 [store|e]]; [|done].
  destruct (setup_client _ _ s None None w1) as [w2 [cli|e]]; [|done].
  destruct (agent_Run _ w2) as [w3 e] eqn:E. unfold after_run. destruct e as [e|]; [by destruct quiet|].
  intros [= <-]. by exists cli, store, w2.
Qed.

(** The log file of a run. *)
Abbreviation open_log := (openLogFile rune_lower is_print EvalString MkdirAll OpenFile timestamp).

(** A retry that succeeds has run the recorded run again: the agent was
    given the status found under the request as its target, the workflow loaded
    with the parameters of that status, a new request, and a log file opened for
    it, is not dry, and returned no error. *)
Theorem retry_runs_recorded c w w'
    (Hok : runRetry rune_lower is_print config_Load config_flag digraph_Load EvalString IsNotExist MkdirAll OpenFile timestamp
             NewRandom Abs agent_Run c w = (w', Return None)) :
  exists s requestID spec path status dag newID logFile cli store w1 w2 w3 w4 w5 w6,
    config_Load config_flag w = (w1, Ok (su_cfg s)) /\ GetString c "req" = Ok requestID /\ head (cmd_args c) = Some spec /\
    Abs spec = Ok path /\ hs_FindByRequestID path requestID w1 = Ok status /\
    digraph_Load (again_options s (sf_Status status)) path w1 = (w2, Ok dag) /\
    NewRandom w2 = (w3, Ok newID) /\ open_log s "retry_" dag newID w3 = (w4, Ok logFile) /\
    agent_Run (mkAgentArgs newID dag (Dir logFile) logFile cli store (historyStore s) false (Some (sf_Status status))) w5 = (w6, None) /\
    w6 = w'.
Proof.
  unfold runRetry, with_setup, createSetup in Hok. destruct (config_Load config_flag w) as [w1 [cfg|e]] eqn:E1; [|done].
  destruct (GetBool c "quiet") as [quiet|e]; [|done]. destruct (GetString c "req") as [requestID|e]; [|done].
  unfold arg0 in Hok. destruct (cmd_args c) as [|spec args]; [done|].
  destruct (Abs spec) as [path|e] eqn:Ea; [|done].
  destruct (hs_FindByRequestID path requestID w1) as [status|e] eqn:Ef; [|done].
  destruct (digraph_Load _ path w1) as [w2 [dag|e]] eqn:El; [|done].
  destruct (executeRetry _ _ _ _ _ _ _ _ _ dag (mkSetup cfg) status quiet w2) as [w6 o] eqn:Ex.
  assert (w6 = w' /\ o = Return None) as [-> ->] by (destruct o as [[e|]|]; by simplify_eq).
  unfold executeRetry, generateRequestID in Ex. destruct (NewRandom w2) as [w3 [newID|e]] eqn:En; [|done].
  destruct (open_log (mkSetup cfg) "retry_" dag newID w3) as [w4 [logFile|e]] eqn:Eg; [|done].
  apply finish_ok in Ex as (cli & store & w5 & Hrun).
  exists (mkSetup cfg), requestID, spec, path, status, dag, newID, logFile, cli, store, w1, w2, w3, w4, w5, w'.
  by split_and!.
Qed.

(** A start that succeeds has run the workflow with the parameters it was given. *)
Lemma start_runs_given c w w' :
  runStart rune_lower is_print config_Load config_flag digraph_Load EvalString IsNotExist MkdirAll OpenFile timestamp
    NewRandom agent_Run c w = (w', Return None) ->
  exists s opt spec dag requestID logFile cli store w1 w2 w3,
    param_option c = Ok opt /\ head (cmd_args c) = Some spec /\
    digraph_Load [base_option s; opt] spec w1 = (w2, Ok dag) /\
    (GetString c "req" = Ok requestID \/ GetString c "req" = Ok "") /\
    agent_Run (mkAgentArgs requestID dag (Dir logFile) logFile cli store (historyStore s) false None) w3 = (w', None).
Proof.
  unfold runStart, with_setup, createSetup. destruct (config_Load config_flag w) as [w1 [cfg|e]]; [|done].
  destruct (GetBool c "quiet") as [quiet|e]; [|done]. destruct (GetString c "req") as [requestID|e] eqn:Er; [|done].
  destruct (param_option c) as [opt|e]; [|done]. unfold arg0. destruct (cmd_args c) as [|spec args]; [done|].
  unfold executeDag. destruct (digraph_Load _ spec w1) as [w2 [dag|e]] eqn:El; [|done].
  destruct (if bool_decide (requestID = "") then _ else _) as [w3 [id|e]] eqn:Ei; [|done].
  destruct (open_log (mkSetup cfg) "start_" dag id w3) as [w4 [logFile|e]]; [|done].
  intros (cli & store & w5 & Hrun)%finish_ok.
  exists (mkSetup cfg), opt, spec, dag, id, logFile, cli, store, w1, w2, w5. split_and!; [done..| |done].
  case_bool_decide as E; [right; congruence|left; by simplify_eq].
Qed.

(** ** Stopping before a restart *)

Abbreviation current := (GetCurrentStatus md5hex request StatusFromJSON fmt_rfc3339).
Abbreviation stop := (Stop md5hex request FileExists).
Abbreviation stop_loop := (stopRunningDAG md5hex request StatusFromJSON fmt_rfc3339 FileExists Sleep).

(** One turn of the loop: the question, the order to stop, the pause. *)
Definition stop_turn (dag : DAG.t) (w : W) : W := Sleep stopPollInterval (fst (stop dag (fst (current dag w)))).

Definition still_running (dag : DAG.t) (w : W) : Prop :=
  exists st, snd (current dag w) = Ok st /\ MStatus.Status st = StatusRunning /\ snd (stop dag (fst (current dag w))) = None.

Definition not_running (dag : DAG.t) (w : W) : Prop :=
  exists st, snd (current dag w) = Ok st /\ MStatus.Status st <> StatusRunning.

(** The loop ends as soon as the workflow no longer answers that it runs, and a
    turn more than it ran is enough fuel. *)
Lemma stop_loop_ends dag n : forall fuel w, n < fuel ->
  (forall k, k < n -> still_running dag (Nat.iter k (stop_turn dag) w)) ->
  not_running dag (Nat.iter n (stop_turn dag) w) ->
  stop_loop fuel dag w = Some (fst (current dag (Nat.iter n (stop_turn dag) w)), None).
Proof.
  induction n as [|n IH]; intros [|fuel] w Hf Hrun Hend; try lia; cbn [stopRunningDAG].
  - destruct Hend as (st & Hst & Hne). simpl in *. destruct (current dag w) as [w1 r]. simpl in *. subst.
    by rewrite bool_decide_true.
  - destruct (Hrun 0) as (st & Hst & Hr & Hs); [lia|]. simpl in Hst, Hs.
    assert (stop_turn dag w = Sleep stopPollInterval (fst (stop dag (fst (current dag w))))) as Ht by done.
    assert (forall k, Nat.iter (S k) (stop_turn dag) w = Nat.iter k (stop_turn dag) (stop_turn dag w)) as Hi by (intros k; apply Nat.iter_succ_r).
    rewrite (Hi n) in Hend |- *.
    destruct (current dag w) as [w1 r]. simpl in Hst, Hs, Ht. subst r.
    rewrite bool_decide_false by (intros []; done). destruct (stop dag w1) as [w2 e]. simpl in Hs, Ht. subst e.
    rewrite <- Ht. apply IH; [lia| |done]. intros k Hk. rewrite <- Hi. apply Hrun. lia.
Qed.

(** It ends without an error only then. *)
Lemma stop_loop_stopped dag fuel : forall w w',
  stop_loop fuel dag w = Some (w', None) ->
  exists n, n < fuel /\ (forall k, k < n -> still_running dag (Nat.iter k (stop_turn dag) w)) /\
    not_running dag (Nat.iter n (stop_turn dag) w) /\ w' = fst (current dag (Nat.iter n (stop_turn dag) w)).
Proof.
  induction fuel as [|fuel IH]; intros w w'; [done|]. cbn [stopRunningDAG].
  destruct (current dag w) as [w1 [st|e]] eqn:E; [|done]. case_bool_decide as Hne.
  - intros [= <-]. exists 0. split_and!; [lia|lia| |]; [exists st|]; simpl; by rewrite E.
  - destruct (stop dag w1) as [w2 [e|]] eqn:Es; [done|]. intros (n & Hn & Hrun & Hend & ->)%IH.
    assert (stop_turn dag w = Sleep stopPollInterval w2) as Ht by (unfold stop_turn; rewrite E; simpl; by rewrite Es).
    exists (S n). rewrite <- Ht, <- Nat.iter_succ_r in Hend |- *. split_and!; [lia| |done|done].
    intros [|k] Hk; [|rewrite Nat.iter_succ_r, Ht; apply Hrun; lia].
    exists st. simpl. rewrite E. simpl. rewrite Es. split_and!; [done| |done]. destruct (decide (MStatus.Status st = StatusRunning)); [done|naive_solver].
Qed.

(** The workflow has stopped: at the first question, or, after orders to stop each
    of which was taken, at the first question that is not answered by running. *)
Definition stopped (fuel : nat) (dag : DAG.t) (w ws : W) : Prop :=
  not_running dag w /\ ws = fst (current dag w) \/
  (exists st, snd (current dag w) = Ok st /\ MStatus.Status st = StatusRunning) /\
  exists n, let polled k := Nat.iter k (stop_turn dag) (fst (current dag w)) in
    n < fuel /\ (forall k, k < n -> still_running dag (polled k)) /\ not_running dag (polled n) /\ ws = fst (current dag (polled n)).

Abbreviation stop_if_running := (stopDAGIfRunning md5hex request StatusFromJSON fmt_rfc3339 FileExists Sleep).

Lemma stop_if_running_stopped fuel dag w ws :
  stop_if_running fuel dag w = Some (ws, None) <-> stopped fuel dag w ws.
Proof.
  unfold stopDAGIfRunning, stopped, not_running. destruct (current dag w) as [w1 [st|e]] eqn:E; simpl.
  - case_bool_decide as Hr; split.
    + intros H. destruct (stop_loop fuel dag w1) as [[w2 [e|]]|] eqn:El; [done| |done]. injection H as ->.
      right. split; [by exists st|]. by apply stop_loop_stopped.
    + intros [[(st' & [= <-] & ?) _]|(_ & n & Hn & Hrun & Hend & ->)]; [done|].
      by rewrite (stop_loop_ends dag n) by done.
    + intros [= <-]. left. split; [by exists st|done].
    + intros [[_ ->]|[(st' & [= <-] & ?) _]]; done.
  - split; [done|]. intros [[(st' & ? & _) _]|[(st' & ? & _) _]]; done.
Qed.

(** What has to have happened for the agent of a restart to be run, with these
    arguments and in this state. *)
Definition restart_ready fuel s dag spec (w : W) (args : agent_args) (w6 : W) : Prop :=
  exists wc cli ws w2 last w3 dag' w4 requestID w5 logFile store,
    setup_client IsNotExist MkdirAll s None None w = (wc, Ok cli) /\ stopped fuel dag wc ws /\
    GetLatestStatus md5hex request StatusFromJSON fmt_rfc3339 dag (waitForRestart Sleep (DAG.RestartWait dag) ws) = (w2, (last, None)) /\
    digraph_Load (again_options s last) spec w2 = (w3, Ok dag') /\
    NewRandom w3 = (w4, Ok requestID) /\ open_log s "restart_" dag' requestID w4 = (w5, Ok logFile) /\
    dagStore IsNotExist MkdirAll s w5 = (w6, Ok store) /\
    args = mkAgentArgs requestID dag' (Dir logFile) logFile cli store (historyStore s) false None.

Abbreviation restart run := (handleRestartProcess rune_lower is_print md5hex request StatusFromJSON fmt_rfc3339 FileExists
  digraph_Load EvalString IsNotExist MkdirAll OpenFile timestamp NewRandom run Sleep).

Definition stopped_or_failed (r : option (W * outcome)) : Prop :=
  match r with None => True | Some (_, Return (Some _)) => True | _ => False end.

Ltac no_restart := right; eexists; split; cycle 1; [intros run; reflexivity|exact I].

Lemma restart_cases fuel s dag quiet spec w :
  (exists args w6, restart_ready fuel s dag spec w args w6) \/
  exists r, stopped_or_failed r /\ forall run, restart run fuel s dag quiet spec w = r.
Proof.
  unfold handleRestartProcess. destruct (setup_client _ _ s None None w) as [wc [cli|e]] eqn:E1; [|no_restart].
  destruct (stop_if_running fuel dag wc) as [[ws [e|]]|] eqn:E2; [no_restart| |no_restart].
  unfold getPreviousExecutionStatus.
  destruct (GetLatestStatus _ _ _ _ dag _) as [w2 [last [e|]]] eqn:E3; [no_restart|].
  destruct (digraph_Load (again_options s last) spec w2) as [w3 [dag'|e]] eqn:E4; [|no_restart].
  unfold executeDAG, generateRequestID. destruct (NewRandom w3) as [w4 [requestID|e]] eqn:E5; [|no_restart].
  destruct (open_log s "restart_" dag' requestID w4) as [w5 [logFile|e]] eqn:E6; [|no_restart].
  destruct (dagStore _ _ s w5) as [w6 [store|e]] eqn:E7; [|no_restart].
  apply stop_if_running_stopped in E2. left.
  by exists (mkAgentArgs requestID dag' (Dir logFile) logFile cli store (historyStore s) false None), w6,
    wc, cli, ws, w2, last, w3, dag', w4, requestID, w5, logFile, store.
Qed.

(** C21: a restart waits.  The agent of the restart is run when, and only when,
    the workflow has stopped, at the first question or at the one after the last order
    to stop, then the status of its last run could be read, the workflow loaded
    with the parameters of that status, and the new run prepared; it is run in the
    state all this leads to, once, and the restart ends as that run ends, with or
    without an error.  In every other case, the workflow that goes on
    answering that it runs included, what the restart does is the same whatever
    running the agent would do, and it has not ended or has failed. *)
Theorem restart_waits fuel s dag quiet spec w :
  (forall args w6, restart_ready fuel s dag spec w args w6 ->
     forall run, restart run fuel s dag quiet spec w = Some (after_run quiet "DAG execution failed" (run args w6))) /\
  (~ (exists args w6, restart_ready fuel s dag spec w args w6) ->
     exists r, stopped_or_failed r /\ forall run, restart run fuel s dag quiet spec w = r).
Proof.
  split.
  - intros args w6 (wc & cli & ws & w2 & last & w3 & dag' & w4 & requestID & w5 & logFile & store & E1 & E2 & E3 & E4 & E5 & E6 & E7 & ->) run.
    apply stop_if_running_stopped in E2. unfold handleRestartProcess, getPreviousExecutionStatus, executeDAG, generateRequestID.
    by rewrite E1, E2, E3, E4, E5, E6, E7.
  - intros H. by destruct (restart_cases fuel s dag quiet spec w).
Qed.

End commands.

(** ** Two reruns *)

Definition parse_sample := parseParams (fun _ => "") (fun _ _ => None) (fun _ _ => Ok "") (fun _ _ => Ok "") false.
Definition run_sample := run_pairs (fun _ => "") (fun _ _ => None) (fun _ _ => Ok "") (fun _ _ => Ok "").
Definition build_sample :=
  buildParams (fun _ => "") (fun _ => true) (fun _ _ => None) (fun _ _ => Ok "") (fun _ _ => Ok "") false.

Definition sample_setup : setup := mkSetup Config.zero.
Definition sample_dag : DAG.t := fst (snd (build_sample ∅ (VStr "x=1 y=2") "y=5 z=7" [] DAG.empty)).
Definition status_of (dag : DAG.t) : MStatus.t := agent_Status dag "id" "log" (fun _ => "") 1 (unstarted empty_graph).

(** The parameters of the run of a status, when it is repeated. *)
Definition again (st : MStatus.t) (params : any) : list string :=
  match load_context (again_options sample_setup st) with
  | Ok ctx => DAG.Params (fst (snd (build_sample ∅ params (bc_Parameters ctx) (bc_ParametersList ctx) DAG.empty)))
  | Err _ => []
  end.

Lemma rerun_keeps_params_witness :
  DAG.Params sample_dag = ["x=1"; "y=5"; "z=7"] /\
  exists ctx e2 dag2, load_context (again_options sample_setup (status_of sample_dag)) = Ok ctx /\
    build_sample {[ "HOME" := "/root" ]} (VStr "x=1 y=2") (bc_Parameters ctx) (bc_ParametersList ctx) DAG.empty = (e2, (dag2, None)) /\
    DAG.Params dag2 = DAG.Params sample_dag.
Proof.
  split; [vm_compute; reflexivity|].
  pose proof (rerun_keeps_params (fun _ => "") (fun _ => true) (fun _ _ => None) (fun _ _ => Ok "") (fun _ _ => Ok "")
    ∅ {[ "HOME" := "/root" ]} (VStr "x=1 y=2") "y=5 z=7" [] DAG.empty
    [mkPair "x" "1"; mkPair "y" "2"] ["x=1"; "y=2"] (fst (parse_sample ∅ (VStr "x=1 y=2") [] []))
    [mkPair "x" "1"; mkPair "y" "2"] ["x=1"; "y=2"] (fst (parse_sample {[ "HOME" := "/root" ]} (VStr "x=1 y=2") [] []))
    (fst (run_sample ∅ (VStr "x=1 y=2") "y=5 z=7" []))
    [mkPair "x" "1"; mkPair "y" "5"; mkPair "z" "7"] ["x=1"; "y=2"; "y=5"; "z=7"] sample_dag
    sample_setup "id" "log" (fun _ => "") 1 (unstarted empty_graph)) as H.
  apply H.
  - right. reflexivity.
  - reflexivity.
  - vm_compute. reflexivity.
  - vm_compute. reflexivity.
  - reflexivity.
  - apply (bool_decide_unpack _). vm_compute. exact I.
  - vm_compute. reflexivity.
  - unfold word, name_char, word_char.
    repeat apply Forall_cons_2; try apply Forall_nil_2; split_and!; apply (bool_decide_unpack _); vm_compute; exact I.
  - vm_compute. reflexivity.
Defined.

(** A value of several words is taken apart. *)
Example rerun_splits_values :
  let dag := fst (snd (build_sample ∅ VNil (pair_String (mkPair "x" (dq +:+ "a b" +:+ dq))) [] DAG.empty)) in
  DAG.Params dag = ["x=a b"] /\ again (status_of dag) VNil = ["x=a"; "b"].
Proof. vm_compute. split; reflexivity. Qed.

(** ** A restart *)

(** A workflow that answers three times that it runs, and then has stopped; the
    state is what was asked and done. *)
Definition asked (w : list string) : nat := length (filter (fun x => x = "GET /status") w).

Definition running_status : MStatus.t :=
  MStatus.mk "id" "w" StatusRunning "running" 7 [] None None None None "" "" "" "x=1" ["x=1"].

#[export] Instance quiet_history : HistoryStore (list string) := {|
  hs_Open _ _ _ w := (w, None); hs_Write _ w := (w, None); hs_Close w := (w, None); hs_Update _ _ _ w := (w, None);
  hs_ReadStatusRecent _ _ w := (w, []);
  hs_ReadStatusToday _ w := (w, Ok (mkRef running_status (fun _ w => w)));
  hs_FindByRequestID _ _ _ := Err (ENew "not found");
  hs_RemoveAll _ w := (w, None); hs_RemoveOld _ _ w := (w, None); hs_Rename _ _ w := (w, None)
|}.

Definition answer (addr method path : string) (w : list string) : list string * result string :=
  let x := method +:+ " " +:+ path in
  (w ++ [x], if bool_decide (path = "/stop") || (asked w <? 4)%nat then Ok "running" else Err (ENew "connection refused")).

Definition restart_sample (run : agent_args -> list string -> list string * option error) : option (list string * outcome) :=
  handleRestartProcess (fun z => z) (fun _ => true) (fun s => s) answer (fun _ => Ok running_status) (fun _ => "")
    (fun _ _ => true) (fun _ _ w => (w, Ok (DAG.set_Name DAG.empty "w"))) (fun _ _ => Ok "/logs") (fun _ _ => false)
    (fun _ w => (w, None)) (fun _ w => (w, None)) (fun _ => "now") (fun w => (w, Ok "new"))
    run (fun _ w => w ++ ["sleep"]) 5 sample_setup (DAG.set_Name DAG.empty "w") false "w.yaml" [].

(** The run that is started when the workflow has stopped, whatever it does. *)
Lemma restart_waits_witness :
  from_option fst [] (restart_sample (fun _ w => (w ++ ["run"], None))) =
    ["GET /status"; "GET /status"; "POST /stop"; "sleep"; "GET /status"; "POST /stop"; "sleep"; "GET /status"; "POST /stop"; "sleep";
     "GET /status"; "GET /status"; "run"] /\
  exists args w6, forall run, restart_sample run = Some (after_run false "DAG execution failed" (run args w6)).
Proof.
  split; [vm_compute; reflexivity|]. unfold restart_sample.
  match goal with |- context [handleRestartProcess ?a1 ?a2 ?a3 ?a4 ?a5 ?a6 ?a7 ?a8 ?a9 ?a10 ?a11 ?a12 ?a13 ?a14 _ ?a15 ?fuel ?s ?dag ?q ?spec ?w] =>
    destruct (restart_cases a1 a2 a3 a4 a5 a6 a7 a8 a9 a10 a11 a12 a13 a14 a15 fuel s dag q spec w) as [(args & w6 & H)|(r & Hr & H)];
    [exists args, w6; exact (proj1 (restart_waits a1 a2 a3 a4 a5 a6 a7 a8 a9 a10 a11 a12 a13 a14 a15 fuel s dag q spec w) args w6 H)
    |exfalso; rewrite <- (H (fun _ x => (x, None))) in Hr; vm_compute in Hr; exact Hr]
  end.
Defined.
