(* ===== verification/Mailer.v ===== *)
(** * Mails: internal/mailer/mailer.go

    The message, and the conversation with the mail server: each exchange is an
    event of the outside, which answers with an error or not.  Line breaks are
    removed from the addresses of the envelope, not from the header. *)

From S2P Require Import Prelude GoStrings Utf8 Paths Base64.
From Stdlib Require Import Ascii.

Record Config := mkConfig { cf_Host : string; cf_Port : string; cf_Username : string; cf_Password : string }.

Record Mailer := mkMailer { host : string; port : string; username : string; password : string }.

Definition New (cfg : Config) : Mailer := mkMailer (cf_Host cfg) (cf_Port cfg) (cf_Username cfg) (cf_Password cfg).

(** ** [strings.NewReplacer]: at each place the first pair that fits *)

Fixpoint replace_from (pairs : list (bytes * bytes)) (skip : nat) (l : bytes) : bytes :=
  match l with
  | [] => []
  | c :: l' =>
      match skip with
      | S k => replace_from pairs k l'
      | 0 =>
          match find (fun p => has_prefixl (fst p) l) pairs with
          | Some (old, new) => new ++ replace_from pairs (length old - 1) l'
          | None => c :: replace_from pairs 0 l'
          end
      end
  end.

Definition Replace (pairs : list (bytes * bytes)) (s : string) : string := l2s (replace_from pairs 0 (s2l s)).

Definition CR : ascii := "013"%char.
Definition LF : ascii := "010"%char.

Definition replacer : list (bytes * bytes) :=
  [([CR; LF], []); ([CR], []); ([LF], []); (s2l "%0a", []); (s2l "%0d", [])].

Definition boundary : string := "==simple-boundary-dagu-mailer".
Definition errFileEmpty : error := ENew "file is empty".

(** The texts that are replaced are a backslash and a letter, not line breaks. *)
Definition newlineToBrTag (body : string) : string :=
  Replace [(s2l "\r\n", s2l "<br />"); (s2l "\r", s2l "<br />"); (s2l "\n", s2l "<br />")] body.

(** ** The message *)

Definition crlf : string := l2s [CR; LF].
Definition lf : string := l2s [LF].
Definition quote : string := l2s ["034"%char].

Definition composeHeader (to : list string) (from subject : string) : string :=
  "To: " +:+ join to "," +:+ crlf +:+
  "From: " +:+ from +:+ crlf +:+
  "Subject: " +:+ subject +:+ crlf +:+
  "Content-Type: multipart/mixed;" +:+ crlf +:+
  "  boundary=" +:+ quote +:+ boundary +:+ quote +:+ crlf +:+ crlf +:+
  crlf +:+ crlf +:+
  "--" +:+ boundary +:+ crlf +:+
  "Content-Type: text/html; charset=" +:+ quote +:+ "UTF-8" +:+ quote +:+ crlf +:+
  "Content-Transfer-Encoding: base64" +:+ crlf.

Section attachments.
(** [os.ReadFile]. *)
Context (ReadFile : string -> result string).

Definition readFile (fileName : string) : result string :=
  match ReadFile fileName with
  | Err e => Err e
  | Ok data => if bool_decide (data = "") then Err errFileEmpty else Ok data
  end.

Definition attachment (fileName data : string) : string :=
  crlf +:+ lf +:+ "--" +:+ boundary +:+ crlf +:+
  "Content-Type: text/plain;" +:+ crlf +:+
  "Content-Transfer-Encoding: base64" +:+ crlf +:+
  "Content-Disposition: attachment; filename=" +:+ Base fileName +:+ crlf +:+
  "Content-Transfer-Encoding: base64" +:+ crlf +:+ lf +:+
  EncodeToString data.

(** A file that cannot be read, or is empty, is left out. *)
Definition addAttachments (attachments : list string) : string :=
  join (omap (fun f => match readFile f with Ok data => Some (attachment f data) | Err _ => None end) attachments) "".

Definition composeMail (to : list string) (from subject body : string) (attachments : list string) : string :=
  composeHeader to from subject +:+ crlf +:+ EncodeToString body +:+ addAttachments attachments +:+
  crlf +:+ crlf +:+ "--" +:+ boundary +:+ "--" +:+ crlf +:+ crlf +:+ crlf +:+ crlf.

(** ** The conversation *)

Inductive exchange :=
| Dial (addr : string)
| Mail (from : string)
| Rcpt (to : string)
| Data
| Write (message : string)
| CloseData
| QuitServer
| SendMail (addr user pass host from : string) (to : list string) (message : string).

Context {W : Type} (smtp : exchange -> W -> W * option error).

(** One exchange after the other, up to the first error. *)
Fixpoint converse (l : list exchange) (w : W) : W * option error :=
  match l with
  | [] => (w, None)
  | x :: l =>
      match smtp x w with
      | (w, Some e) => (w, Some e)
      | (w, None) => converse l w
      end
  end.

(** The addresses are cleaned in place, also for the header. *)
Definition sendWithNoAuth (m : Mailer) (from : string) (to : list string) (subject body : string) (attachments : list string)
    : W -> W * option error :=
  let to := Replace replacer <$> to in
  converse ([Dial (host m +:+ ":" +:+ port m); Mail (Replace replacer from)] ++ (Rcpt <$> to) ++
            [Data; Write (composeMail to from subject (newlineToBrTag body) attachments); CloseData; QuitServer]).

Definition sendWithAuth (m : Mailer) (from : string) (to : list string) (subject body : string) (attachments : list string)
    : W -> W * option error :=
  smtp (SendMail (host m +:+ ":" +:+ port m) (username m) (password m) (host m) from to
          (composeMail to from subject (newlineToBrTag body) attachments)).

Definition Send (m : Mailer) (from : string) (to : list string) (subject body : string) (attachments : list string)
    : W -> W * option error :=
  if bool_decide (username m = "" /\ password m = "") then sendWithNoAuth m from to subject body attachments
  else sendWithAuth m from to subject body attachments.

End attachments.

(** ** Lemmas *)

(** A cleaned address has no line break: it cannot end the command it is in. *)
Lemma replaced_no_break skip l c : c ∈ replace_from replacer skip l -> c <> CR /\ c <> LF.
Proof.
  assert (forall x d k, has_prefixl [x] (d :: k) = false -> d <> x) as Hfirst.
  { intros x d k H ->. unfold has_prefixl in H. simpl in H. rewrite take_0 in H. by rewrite bool_decide_true in H. }
  revert skip. induction l as [|d l IH]; intros skip; [by intros ?%elem_of_nil|].
  destruct skip as [|k]; [|apply IH]. cbn [replace_from].
  destruct (find _ replacer) as [[old new]|] eqn:E.
  - apply find_some in E as [Hin _].
    assert (Forall (fun p => snd p = []) replacer) as Hnil by (apply (bool_decide_unpack _); vm_compute; exact I).
    rewrite Forall_forall in Hnil. specialize (Hnil (old, new) (proj2 (list_elem_of_In _ _) Hin)). simpl in Hnil. subst new.
    apply IH.
  - intros [->|H]%elem_of_cons; [|by eapply IH].
    split; eapply Hfirst.
    + apply (find_none _ _ E ([CR], [])). right. by left.
    + apply (find_none _ _ E ([LF], [])). right. right. by left.
Qed.

(** Real line breaks are kept, the two characters of an escape are not. *)
Example breaks_kept : newlineToBrTag (l2s [LF]) = l2s [LF] /\ newlineToBrTag "C:\new" = "C:<br />ew".
Proof. split; vm_compute; reflexivity. Qed.

(** The subject is not cleaned: a line break in it starts a header of its own. *)
Example subject_injects :
  composeHeader ["a@x"] "b@x" ("hi" +:+ crlf +:+ "Bcc: c@x") =
  "To: a@x" +:+ crlf +:+ "From: b@x" +:+ crlf +:+ "Subject: hi" +:+ crlf +:+ "Bcc: c@x" +:+ crlf +:+
  "Content-Type: multipart/mixed;" +:+ crlf +:+ "  boundary=" +:+ quote +:+ boundary +:+ quote +:+ crlf +:+ crlf +:+
  crlf +:+ crlf +:+ "--" +:+ boundary +:+ crlf +:+
  "Content-Type: text/html; charset=" +:+ quote +:+ "UTF-8" +:+ quote +:+ crlf +:+
  "Content-Transfer-Encoding: base64" +:+ crlf.
Proof. vm_compute. reflexivity. Qed.
