(* ===== verification/StructEval.v ===== *)
(** * The evaluation of whole records: EvalStringFields

    cmdutil.EvalStringFields walks a struct by reflection and evaluates its
    strings (eval.go); the step context calls it with its output variables
    (context_step.go).  A value is the tree of fields that reflection sees. *)

From S2P Require Import Prelude GoStrings Vars Digraph CmdUtil Eval Contexts Client Mailer.

(** A string, a struct whose fields have a name and may be set or not, or
    something else, which is left alone. *)
Inductive value := VString (s : string) | VStruct (fields : list (string * bool * value)) | VOther.

Definition field_error (name : string) (e : error) : error := EWrap ("field " +:+ dq +:+ name +:+ dq +:+ ": ") e "".

Section eval.
Context (lookupEnv : string -> option string).
Context (runCommand : string -> result string).

(** References into the JSON of a variable are not expanded here. *)
Definition eval_text (o : EvalOptions) (s : string) : result string :=
  let v := foldl replaceVars s (opt_Variables o) in
  match (if opt_Substitute o then substituteCommands runCommand v else Ok v) with
  | Err e => Err e
  | Ok v => Ok (if opt_ExpandEnv o then ExpandEnv lookupEnv v else v)
  end.

Fixpoint process_value (o : EvalOptions) (name : string) (v : value) : result value :=
  match v with
  | VString s => match eval_text o s with Err e => Err (field_error name e) | Ok s => Ok (VString s) end
  | VStruct fields =>
      let go := fix go (fields : list (string * bool * value)) : result (list (string * bool * value)) :=
        match fields with
        | [] => Ok []
        | (n, settable, x) :: rest =>
            match (if (settable : bool) then process_value o n x else Ok x) with
            | Err e => Err e
            | Ok x => match go rest with Err e => Err e | Ok l => Ok ((n, settable, x) :: l) end
            end
        end in
      match go fields with Err e => Err e | Ok l => Ok (VStruct l) end
  | VOther => Ok VOther
  end.

Definition processStructFields := process_value.

Definition EvalStringFields (obj : value) (opts : list (EvalOptions -> EvalOptions)) : result value :=
  match obj with
  | VStruct _ =>
      match processStructFields (apply_opts opts) "" obj with
      | Err e => Err (EWrap "failed to process fields: " e "")
      | Ok v => Ok v
      end
  | _ => Err (ENew "input must be a struct")
  end.

(** A struct of strings alone: its names and values, then the new values. *)
Definition struct_of (l : list (string * string)) : value := VStruct ((fun p => (fst p, true, VString (snd p))) <$> l).

Definition strings_of (v : value) : list string :=
  match v with
  | VStruct fs => omap (fun f => match snd f with VString s => Some s | _ => None end) fs
  | _ => []
  end.

(** ** In a step *)

(** The order of a range over the output variables. *)
Context (order : SyncMap.t -> list (string * string)).

(** [digraph.EvalStringFields]: the variables of the step itself are not
    among those replaced. *)
Definition step_EvalStringFields (c : StepContext.t) (obj : value) : result value :=
  EvalStringFields obj
    [WithVariables (fst (SyncMap.Variables (order (StepContext.outputVariables c)) (StepContext.outputVariables c)))].

Definition eval_strings (c : StepContext.t) (l : list (string * string)) : result (list string) :=
  match step_EvalStringFields c (struct_of l) with
  | Err e => Err e
  | Ok v => Ok (strings_of v)
  end.

(** [MailerConfig]: without a workflow, or without a mail server in it, a nil
    pointer is dereferenced. *)
Definition MailerConfig (c : StepContext.t) : result Config :=
  match Context.dag (StepContext.base c) with
  | None => Err (panic "nil dag")
  | Some d =>
      match DAG.SMTP d with
      | None => Err (panic "nil smtp")
      | Some s =>
          match eval_strings c [("Host", SMTPConfig.Host s); ("Port", SMTPConfig.Port s);
                                ("Username", SMTPConfig.Username s); ("Password", SMTPConfig.Password s)] with
          | Err e => Err e
          | Ok vs => Ok (mkConfig (nth 0 vs "") (nth 1 vs "") (nth 2 vs "") (nth 3 vs ""))
          end
      end
  end.

(** ** Lemmas *)

(** A struct of strings is evaluated field by field, up to the first error. *)
Lemma EvalStringFields_strings opts l :
  EvalStringFields (struct_of l) opts =
  match mapE (fun p => match eval_text (apply_opts opts) (snd p) with Err e => Err (field_error (fst p) e) | Ok s => Ok (fst p, s) end) l with
  | Err e => Err (EWrap "failed to process fields: " e "")
  | Ok l => Ok (struct_of l)
  end.
Proof.
  set (f := fun p : string * string => match eval_text (apply_opts opts) (snd p) with Err e => Err (field_error (fst p) e) | Ok s => Ok (fst p, s) end).
  assert (process_value (apply_opts opts) "" (struct_of l) =
    match mapE f l with Err e => Err e | Ok l => Ok (struct_of l) end) as H.
  { unfold struct_of. induction l as [|[n s] l IH]; [done|]. rewrite fmap_cons.
    cbn [process_value fst snd mapE] in IH |- *. unfold f at 1. cbn [fst snd].
    destruct (eval_text _ s); [|done].
    match type of IH with (match ?g with _ => _ end) = _ => destruct g end; destruct (mapE f l); simplify_eq; done. }
  unfold EvalStringFields, processStructFields. change (struct_of l) with (VStruct ((fun p => (fst p, true, VString (snd p))) <$> l)) in *.
  cbv match. rewrite H. by destruct (mapE f l).
Qed.

Lemma strings_of_struct l : strings_of (struct_of l) = snd <$> l.
Proof. unfold strings_of, struct_of. induction l as [|[n s] l IH]; [done|]. simpl. f_equal. exact IH. Qed.

End eval.

(** A reference into an output is expanded in a string, not in a field. *)
Example references_only_in_strings :
  let jq := fun json path => if bool_decide (path = ".id") then Some "7" else None in
  let vars := WithVariables {[ "OUT" := "json" ]} in
  EvalString (fun _ => None) jq (fun _ => Ok "") "${OUT.id}" [vars] = Ok "7" /\
  eval_text (fun _ => None) (fun _ => Ok "") (apply_opts [vars]) "${OUT.id}" <> Ok "7".
Proof. split; vm_compute; congruence. Qed.
