(* ===== verification/Executors.v ===== *)
(** * Executors: internal/digraph/executor

    The registry, the executor of commands and the one of sub-workflows
    (executor.go, command.go, sub.go).  Processes, temporary files and the
    standard output are operations of the outside, given by an interface. *)

From stdpp Require Import pretty.
From S2P Require Import Prelude GoStrings Vars Digraph NodeData CmdUtil Eval Contexts Node GraphProps Sched Model History StepBuild Stores Client Agent StructEval.

(** ** The outside *)

(** A command as it is started, in a process group of its own. *)
Record command := mkCommand { cm_Name : string; cm_Args : list string; cm_Dir : string; cm_Env : list string }.

(** Why a process could not be started or ended badly. *)
Inductive proc_error := ExitError (code : Z) (text : string) | OtherError (e : error).

Definition proc_text (e : proc_error) : error := match e with ExitError _ t => ENew t | OtherError e => e end.

Class Sys (W : Type) := mkSys {
  sys_FileExists : string -> W -> bool;
  sys_CreateTemp : string -> string -> W -> W * result string;
  sys_WriteString : string -> string -> W -> W * option error;
  sys_Sync : string -> W -> W * option error;
  sys_Remove : string -> W -> W;
  sys_Start : command -> W -> W * (proc_error + Z);
  sys_Wait : Z -> W -> W * option proc_error;
  sys_Kill : Z -> Z -> W -> W * option error;
  sys_Stdout : string -> W -> W * option error;
  sys_Stderr : string -> W -> W * option error
}.

Definition exitCodeFromError (e : option proc_error) : Z :=
  match e with None => 0 | Some (ExitError code _) => code | Some (OtherError _) => 1 end.

(** ** Commands (command.go) *)

Record commandConfig := mkCmdConfig {
  cc_Dir : string;
  cc_Command : string;
  cc_Args : list string;
  cc_Script : string;
  cc_ShellCommand : string;
  cc_ShellCommandArgs : string
}.

(** [ce_process] is the process of the command once it was started. *)
Record commandExecutor := mkCommandExec {
  ce_config : commandConfig;
  ce_process : option Z;
  ce_scriptFile : string;
  ce_exitCode : Z
}.

Definition set_ce_exitCode (e : commandExecutor) (c : Z) : commandExecutor :=
  mkCommandExec (ce_config e) (ce_process e) (ce_scriptFile e) c.
Definition set_ce_scriptFile (e : commandExecutor) (f : string) : commandExecutor :=
  mkCommandExec (ce_config e) (ce_process e) f (ce_exitCode e).
Definition set_ce_process (e : commandExecutor) (p : Z) : commandExecutor :=
  mkCommandExec (ce_config e) (Some p) (ce_scriptFile e) (ce_exitCode e).

Definition no_directory (dir : string) : error := ENew ("directory does not exist: " +:+ dir).

Definition createDirectCommand (cmd : string) (args : list string) (scriptFile : string) : string * list string :=
  (cmd, args ++ (if bool_decide (scriptFile = "") then [] else [scriptFile])).

(** With a script the shell runs it, whatever the command of the step is. *)
Definition newCmd (envs : list string) (cfg : commandConfig) (scriptFile : string) : command :=
  let '(name, args) :=
    if negb (bool_decide (cc_ShellCommand cfg = "")) && negb (bool_decide (scriptFile = "")) then (cc_ShellCommand cfg, [scriptFile])
    else if negb (bool_decide (cc_ShellCommand cfg = "")) && negb (bool_decide (cc_ShellCommandArgs cfg = ""))
    then (cc_ShellCommand cfg, ["-c"; cc_ShellCommandArgs cfg])
    else createDirectCommand (cc_Command cfg) (cc_Args cfg) scriptFile in
  mkCommand name args (cc_Dir cfg) envs.

Definition createCommandConfig (shell : string -> string) (step : Step.t) : commandConfig :=
  mkCmdConfig (Step.Dir step) (Step.Command step) (Step.Args step) (Step.Script step) (shell (Step.Shell step)) (Step.ShellCmdArgs step).

Section command.
Context {W : Type} `{!Sys W}.

(** [GetShellCommand] and the environment of the step. *)
Context (shell : string -> string) (envs : list string).

Definition missing_dir (dir : string) (w : W) : bool := negb (bool_decide (dir = "")) && negb (sys_FileExists dir w).

Definition newCommand (step : Step.t) (w : W) : result commandExecutor :=
  if missing_dir (Step.Dir step) w then Err (no_directory (Step.Dir step))
  else Ok (mkCommandExec (createCommandConfig shell step) None "" 0).

(** A script that could not be written stays behind. *)
Definition setupScript (dir script : string) (w : W) : W * result string :=
  match sys_CreateTemp dir "dagu_script-" w with
  | (w, Err e) => (w, Err (EWrap "failed to create script file: " e ""))
  | (w, Ok file) =>
      match sys_WriteString file script w with
      | (w, Some e) => (w, Err (EWrap "failed to write script to file: " e ""))
      | (w, None) =>
          match sys_Sync file w with
          | (w, Some e) => (w, Err (EWrap "failed to sync script file: " e ""))
          | (w, None) => (w, Ok file)
          end
      end
  end.

Definition start_process (e : commandExecutor) (w : W) : W * commandExecutor * option error :=
  match sys_Start (newCmd envs (ce_config e) (ce_scriptFile e)) w with
  | (w, inl pe) => (w, set_ce_exitCode e (exitCodeFromError (Some pe)), Some (proc_text pe))
  | (w, inr pid) => (w, set_ce_process e pid, None)
  end.

(** The part of [Run] that holds the lock: up to the start of the process. *)
Definition start_locked (e : commandExecutor) (w : W) : W * commandExecutor * option error :=
  let cfg := ce_config e in
  if missing_dir (cc_Dir cfg) w then (w, e, Some (no_directory (cc_Dir cfg)))
  else if bool_decide (cc_Script cfg = "") then start_process e w
  else match setupScript (cc_Dir cfg) (cc_Script cfg) w with
       | (w, Err x) => (w, e, Some (EWrap "failed to setup script: " x ""))
       | (w, Ok file) => start_process (set_ce_scriptFile e file) w
       end.

(** The rest: waiting, outside the lock. *)
Definition wait_process (e : commandExecutor) (w : W) : W * commandExecutor * option error :=
  match ce_process e with
  | None => (w, e, None)
  | Some pid =>
      match sys_Wait pid w with
      | (w, Some pe) => (w, set_ce_exitCode e (exitCodeFromError (Some pe)), Some (proc_text pe))
      | (w, None) => (w, e, None)
      end
  end.

(** The script is removed when [Run] returns. *)
Definition remove_script (e : commandExecutor) (w : W) : W :=
  if bool_decide (ce_scriptFile e = "") then w else sys_Remove (ce_scriptFile e) w.

Definition finish_run (started : W * commandExecutor * option error) : W * commandExecutor * option error :=
  match started with
  | (w, e, Some x) => (remove_script e w, e, Some x)
  | (w, e, None) => let '(w, e, x) := wait_process e w in (remove_script e w, e, x)
  end.

Definition command_Run (e : commandExecutor) (w : W) : W * commandExecutor * option error := finish_run (start_locked e w).

Definition ExitCode (e : commandExecutor) : Z := ce_exitCode e.

(** The signal goes to the process group; before the start it is lost. *)
Definition command_Kill (e : commandExecutor) (sig : Z) (w : W) : W * option error :=
  match ce_process e with None => (w, None) | Some pid => sys_Kill (- pid) sig w end.

End command.

(** ** Sub-workflows (sub.go) *)

Record subWorkflow := mkSub { sw_subDAG : string; sw_cmd : command; sw_requestID : string; sw_process : option Z }.

Definition errWorkingDirNotExist : error := ENew "working directory does not exist".

Section sub.
Context {W : Type} `{!Sys W, !HistoryStore W, !DAGStore W}.
Context (lookupEnv : string -> option string) (runCommand : string -> result string).
Context (order : SyncMap.t -> list (string * string)).
(** The step's context, and its environment. *)
Context (sc : StepContext.t) (envs : list string).
(** [os.Executable], [uuid.NewRandom], [json.MarshalIndent] of a result. *)
Context (executable : result string) (uuid : result string) (MarshalIndent : run_status -> result string).

Definition generateRequestID : result string := uuid.

Definition sub_args (requestID location params : string) : list string :=
  ["start"; "--req=" +:+ requestID; "--quiet"; location] ++
  (if bool_decide (params = "") then [] else ["--params"; params]).

Definition newSubWorkflow (step : Step.t) (w : W) : W * result subWorkflow :=
  match executable with
  | Err e => (w, Err (EWrap "failed to get executable path: " e ""))
  | Ok exe =>
      match Step.SubWorkflow step with
      | None => (w, Err (panic "nil sub-workflow"))
      | Some s =>
          match eval_strings lookupEnv runCommand order sc [("Name", SubWorkflow.Name s); ("Params", SubWorkflow.Params s)] with
          | Err e => (w, Err (EWrap "failed to substitute string fields: " e ""))
          | Ok vs =>
              let name := nth 0 vs "" in
              let params := nth 1 vs "" in
              match dbClient_GetDAG name w with
              | (w, Err e) => (w, Err (EWrap ("failed to find subworkflow " +:+ dq +:+ name +:+ dq +:+ ": ") e ""))
              | (w, Ok subDAG) =>
                  match generateRequestID with
                  | Err e => (w, Err (EWrap "failed to generate request ID: " e ""))
                  | Ok requestID =>
                      if missing_dir (Step.Dir step) w then (w, Err errWorkingDirNotExist)
                      else (w, Ok (mkSub (DAG.Location subDAG)
                                     (mkCommand exe (sub_args requestID (DAG.Location subDAG) params) (Step.Dir step) envs)
                                     requestID None))
                  end
              end
          end
      end
  end.

(** The result of the other run is read from the history and written out. *)
Definition sub_result (e : subWorkflow) (w : W) : W * option error :=
  match dbClient_GetStatus order (sw_subDAG e) (sw_requestID e) w with
  | Err x => (w, Some (EWrap "failed to collect result: " x ""))
  | Ok result =>
      match MarshalIndent result with
      | Err x => (w, Some (EWrap "failed to marshal outputs: " x ""))
      | Ok json =>
          match sys_Stdout json w with
          | (w, Some x) => (w, Some (EWrap "failed to write outputs: " x ""))
          | (w, None) => (w, None)
          end
      end
  end.

Definition sub_Run (e : subWorkflow) (w : W) : W * subWorkflow * option error :=
  match sys_Start (sw_cmd e) w with
  | (w, inl pe) => (w, e, Some (proc_text pe))
  | (w, inr pid) =>
      let e := mkSub (sw_subDAG e) (sw_cmd e) (sw_requestID e) (Some pid) in
      match sys_Wait pid w with
      | (w, Some pe) => (w, e, Some (proc_text pe))
      | (w, None) => let '(w, x) := sub_result e w in (w, e, x)
      end
  end.

Definition sub_Kill (e : subWorkflow) (sig : Z) (w : W) : W * option error :=
  match sw_process e with None => (w, None) | Some pid => sys_Kill (- pid) sig w end.

End sub.

(** ** The registry (executor.go) *)

Definition errInvalidExecutor : error := ENew "invalid executor".

Section registry.
Context {E : Type}.

(** [Register]: the last registration of a name counts. *)
Definition Register (name : string) (creator : Step.t -> result E) (executors : gmap string (Step.t -> result E)) :=
  <[name := creator]> executors.

(** [config_text] is the configuration as [%s] prints it. *)
Definition NewExecutor (executors : gmap string (Step.t -> result E)) (config_text : ExecutorConfig.t -> string) (step : Step.t)
    : result E :=
  match executors !! ExecutorConfig.Type_ (Step.ExecutorConfig step) with
  | Some f => f step
  | None => Err (EWrap "" errInvalidExecutor (": " +:+ config_text (Step.ExecutorConfig step)))
  end.

(** The [init] functions of the package. *)
Definition executors (newCommand newDocker newHTTP newJQ newMail newSSHExec newSubWorkflow : Step.t -> result E)
    : gmap string (Step.t -> result E) :=
  Register ExecutorTypeSubWorkflow newSubWorkflow (Register "ssh" newSSHExec (Register "mail" newMail
    (Register "jq" newJQ (Register "http" newHTTP (Register "docker" newDocker
      (Register "command" newCommand (Register "" newCommand ∅))))))).

End registry.

(** What a node sees of a command that was run: its error and exit code, and
    what it wrote. *)
Definition as_executor (e : commandExecutor) (x : option error) (piped : result string) : Executor :=
  mkExecutor x (Some (ExitCode e)) piped.

(** ** Properties of the executors

    What the node of a step records of a command, that scripts are cleaned up,
    and what the output of a sub-workflow is. *)

(** What the operating system does with temporary files: a new name, and only the
    removal takes it away. *)
Class SysLaws (W : Type) `{!Sys W} := {
  temp : W -> gset string;
  temp_create d p w w' f : sys_CreateTemp d p w = (w', Ok f) -> temp w' = {[f]} ∪ temp w /\ f ∉ temp w /\ f <> "";
  temp_create_failed d p w w' e : sys_CreateTemp d p w = (w', Err e) -> temp w' = temp w;
  temp_write f s w : temp (fst (sys_WriteString f s w)) = temp w;
  temp_sync f w : temp (fst (sys_Sync f w)) = temp w;
  temp_remove f w : temp (sys_Remove f w) = temp w ∖ {[f]};
  temp_start c w : temp (fst (sys_Start c w)) = temp w;
  temp_wait p w : temp (fst (sys_Wait p w)) = temp w
}.

Section command.
Context {W : Type} `{!Sys W, !SysLaws W}.
Context (shell : string -> string) (envs : list string).

(** The process of a command, started in some world, ended with [r]. *)
Definition ended (c : command) (w : W) (r : option proc_error) : Prop :=
  match sys_Start c w with
  | (_, inl pe) => r = Some pe
  | (w, inr pid) => snd (sys_Wait pid w) = r
  end.

Lemma setupScript_temp dir script w :
  match setupScript dir script w with
  | (w', Ok f) => temp w' = {[f]} ∪ temp w /\ f ∉ temp w /\ f <> ""
  | (w', Err _) => temp w' = temp w \/ exists f, temp w' = {[f]} ∪ temp w
  end.
Proof.
  unfold setupScript. destruct (sys_CreateTemp dir _ w) as [w1 [f|e]] eqn:E1; [|left; by eapply temp_create_failed].
  apply temp_create in E1 as (H1 & H2 & H3).
  pose proof (temp_write f script w1) as Hw. destruct (sys_WriteString f script w1) as [w2 [e|]]; simpl in Hw;
    [right; exists f; by rewrite Hw|].
  pose proof (temp_sync f w2) as Hs. destruct (sys_Sync f w2) as [w3 [e|]]; simpl in Hs; [right; exists f|];
    by rewrite Hs, Hw.
Qed.

(** From the start of the process on: how it ended is recorded, and the script
    is gone. *)
Lemma run_started e c w w0 :
  c = newCmd envs (ce_config e) (ce_scriptFile e) -> ce_exitCode e = 0%Z -> ce_process e = None ->
  temp w = (if bool_decide (ce_scriptFile e = "") then temp w0 else {[ce_scriptFile e]} ∪ temp w0) ->
  (ce_scriptFile e <> "" -> ce_scriptFile e ∉ temp w0) ->
  let '(w', e', x) := finish_run (start_process envs e w) in
  exists r, ended c w r /\ x = proc_text <$> r /\ ce_exitCode e' = exitCodeFromError r /\ temp w' = temp w0.
Proof.
  intros -> Hcode Hproc Htemp Hnew.
  assert (forall e1 w1, ce_scriptFile e1 = ce_scriptFile e -> temp w1 = temp w -> temp (remove_script e1 w1) = temp w0) as Hrm.
  { intros e1 w1 H1 H2. unfold remove_script. rewrite H1, Htemp in *. case_bool_decide as Hs; [done|].
    rewrite temp_remove, H2. apply set_eq. intros f. specialize (Hnew Hs). set_solver. }
  unfold ended, start_process, finish_run. pose proof (temp_start (newCmd envs (ce_config e) (ce_scriptFile e)) w) as Hs.
  destruct (sys_Start _ w) as [w1 [pe|pid]]; simpl in Hs.
  - exists (Some pe). split_and!; [done..|by apply Hrm].
  - unfold wait_process. simpl. pose proof (temp_wait pid w1) as Hw.
    destruct (sys_Wait pid w1) as [w2 [pe|]]; simpl in Hw |- *;
      [exists (Some pe)|exists None]; split_and!; try done; apply Hrm; try done; congruence.
Qed.

(** What the node of a step records of an executor that was run. *)
Lemma finishExecute_records e' x piped n :
  (x = None -> ce_exitCode e' = 0%Z) ->
  let '(n', err) := finishExecute (as_executor e' x piped) n in
  NodeState.ExitCode (nd_State (n_data n')) = ce_exitCode e' /\
  SafeData.Error (n_data n') = match x with Some _ => x | None => SafeData.Error (n_data n) end /\
  (Step.Output (SafeData.GetStep (n_data n)) = "" -> err = SafeData.Error (n_data n')).
Proof.
  intros Hx. unfold finishExecute, as_executor. cbn [ex_Run ex_ExitCode ex_Pipe].
  destruct x as [x|]; simpl; case_bool_decide as Ho; try (destruct (OutputCoordinator.capturedOutput _ _)); simpl;
    split_and!; try done; try (symmetry; by apply Hx); by intros ->.
Qed.


End command.

(** ** A machine with one temporary name *)

Record machine := mkMachine { mc_temp : gset string; mc_end : option proc_error; mc_started : list command }.

#[local] Instance machine_sys : Sys machine := {
  sys_FileExists _ _ := true;
  sys_CreateTemp dir p w :=
    if bool_decide ((p +:+ "1") ∈ mc_temp w) then (w, Err ErrNotExist)
    else (mkMachine ({[p +:+ "1"]} ∪ mc_temp w) (mc_end w) (mc_started w), Ok (p +:+ "1"));
  sys_WriteString _ _ w := (w, None);
  sys_Sync _ w := (w, None);
  sys_Remove f w := mkMachine (mc_temp w ∖ {[f]}) (mc_end w) (mc_started w);
  sys_Start c w := (mkMachine (mc_temp w) (mc_end w) (mc_started w ++ [c]), inr 7%Z);
  sys_Wait _ w := (w, mc_end w);
  sys_Kill _ _ w := (w, None);
  sys_Stdout _ w := (w, None);
  sys_Stderr _ w := (w, None)
}.

#[local] Instance machine_laws : SysLaws machine.
Proof.
  refine {| temp := mc_temp |}; try done; simpl.
  - intros d p w w' f. case_bool_decide as H; [done|]. intros [= <- <-]. simpl. split; [done|]. split; [done|].
    by destruct p.
  - intros d p w w' e. case_bool_decide; [by intros [= <- _]|done].
Defined.

Definition python_step : Step.t := Step.set_Script (Step.set_Command (named_step "a" []) "python") "import os".

Definition python_node : Node := NewNode python_step NodeState.zero.

Definition exits_3 : machine := mkMachine ∅ (Some (ExitError 3 "exit status 3")) [].


(** The script of the step is given to the shell, not to its command. *)
Example script_ignores_command :
  mc_started (fst (fst (command_Run [] (mkCommandExec (createCommandConfig (fun _ => "/bin/sh") python_step) None "" 0) exits_3))) =
  [mkCommand "/bin/sh" ["dagu_script-1"] "" []].
Proof. vm_compute. reflexivity. Qed.
