(* ===== verification/RemoteExecutors.v ===== *)
(** * Executors of mails, queries, requests, other machines and containers

    internal/digraph/executor/mail.go, jq.go, http.go, ssh.go and docker.go.
    Decoding of a configuration, JSON, the query engine, the HTTP, SSH and Docker
    clients are arguments. *)

From stdpp Require Import pretty.
From S2P Require Import Prelude GoStrings Utf8 Vars Digraph NodeData CmdUtil Eval Contexts Node Client Mailer StructEval Executors.
From Stdlib Require Import Ascii.

Section common.
Context {W : Type} `{!Sys W}.
Context (lookupEnv : string -> option string) (runCommand : string -> result string) (jqlib : string -> string -> option string).
Context (order : SyncMap.t -> list (string * string)).
(** The step's context. *)
Context (sc : StepContext.t).

Abbreviation eval s := (step_EvalString lookupEnv jqlib runCommand order sc s []).
Abbreviation fields l := (eval_strings lookupEnv runCommand order sc l).
Abbreviation config step := (ExecutorConfig.Config (Step.ExecutorConfig step)).

(** Output whose error is not looked at. *)
Definition say (text : string) (w : W) : W := fst (sys_Stdout text w).

(** ** Mails (mail.go) *)

Record mailConfig := mkMailConfig { mc_From : string; mc_To : string; mc_Subject : string; mc_Message : string; mc_Attachments : list string }.

Record mailExecutor := mkMailExec { me_cfg : mailConfig; me_mailer : Mailer }.

Definition newMail (decodeMailConfig : gmap string any -> result mailConfig) (step : Step.t) : result mailExecutor :=
  match decodeMailConfig (config step) with
  | Err e => Err (EWrap "failed to decode mail config: " e "")
  | Ok cfg =>
      match fields [("From", mc_From cfg); ("To", mc_To cfg); ("Subject", mc_Subject cfg); ("Message", mc_Message cfg)] with
      | Err e => Err (EWrap "failed to substitute string fields: " e "")
      | Ok vs =>
          let cfg := mkMailConfig (nth 0 vs "") (nth 1 vs "") (nth 2 vs "") (nth 3 vs "") (mc_Attachments cfg) in
          match MailerConfig lookupEnv runCommand order sc with
          | Err e => Err (EWrap "failed to substitute string fields: " e "")
          | Ok m => Ok (mkMailExec cfg (New m))
          end
      end
  end.

Definition newline : string := lf.

Definition mailLog (cfg : mailConfig) : string :=
  "sending email" +:+ newline +:+ "-----" +:+ newline +:+ "from: " +:+ mc_From cfg +:+ newline +:+
  "to: " +:+ mc_To cfg +:+ newline +:+ "subject: " +:+ mc_Subject cfg +:+ newline +:+
  "message: " +:+ mc_Message cfg +:+ newline +:+ "-----" +:+ newline.

(** The configured attachments are not sent. *)
Definition mail_Run (ReadFile : string -> result string) (smtp : exchange -> W -> W * option error) (e : mailExecutor) (w : W)
    : W * option error :=
  let cfg := me_cfg e in
  let w := say (mailLog cfg) w in
  match Send ReadFile smtp (me_mailer e) (mc_From cfg) [mc_To cfg] (mc_Subject cfg) (mc_Message cfg) [] w with
  | (w, Some x) => (say "error occurred." w, Some x)
  | (w, None) => (say "sending email succeed." w, None)
  end.

(** ** Queries (jq.go) *)

Section jq.
Context {json : Type}.
(** [gojq.Parse] and the answers of the query, some of which are errors; the
    text of one. *)
Context (Parse : string -> result (json -> list (error + json))) (MarshalIndent : json -> result string).
(** [%#v] of an error. *)
Context (go_syntax : error -> string).

Record jqExecutor := mkJq { jq_query : string; jq_input : json; jq_raw : bool }.

Definition newJQ (decodeJqConfig : gmap string any -> result bool) (Unmarshal : string -> result json) (step : Step.t) : result jqExecutor :=
  match decodeJqConfig (config step) with
  | Err e => Err e
  | Ok raw =>
      match eval (Step.Script step) with
      | Err e => Err (EWrap "failed to evaluate jq input: " e "")
      | Ok script =>
          match Unmarshal script with
          | Err e => Err e
          | Ok input => Ok (mkJq (Step.CmdWithArgs step) input raw)
          end
      end
  end.

(** Errors go to the standard error and the loop goes on. *)
Definition jq_answer (raw : bool) (w : W) (v : error + json) : W :=
  match v with
  | inl e => fst (sys_Stderr (go_syntax e) w)
  | inr v =>
      match MarshalIndent v with
      | Err e => fst (sys_Stderr (go_syntax e) w)
      | Ok s => say (if raw then trim s dq else s) w
      end
  end.

Definition jq_Run (e : jqExecutor) (w : W) : W * option error :=
  match Parse (jq_query e) with
  | Err x => (w, Some x)
  | Ok query => (foldl (jq_answer (jq_raw e)) w (query (jq_input e)), None)
  end.

End jq.

(** ** Requests (http.go) *)

Record httpConfig := mkHttpConfig {
  hc_Timeout : Z;
  hc_Headers : gmap string string;
  hc_Query : gmap string string;
  hc_Body : string;
  hc_Silent : bool;
  hc_Debug : bool;
  hc_Json : bool
}.

Definition no_http : httpConfig := mkHttpConfig 0 ∅ ∅ "" false false false.

(** The request as it is sent; a timeout of 0 is none. *)
Record httpExecutor := mkHttp { ht_url : string; ht_method : string; ht_timeout : option Z; ht_cfg : httpConfig }.

(** [rh_Status] is the status line; [rh_Header] is the header as it is written. *)
Record rsp := mkRsp { rp_StatusCode : Z; rp_Status : string; rp_Header : string; rp_Body : string }.

(** [IsSuccess] of a response. *)
Definition IsSuccess (r : rsp) : bool := (199 <? rp_StatusCode r)%Z && (rp_StatusCode r <? 300)%Z.

(** The values of a map, in the order of the range, up to the first error. *)
Definition eval_map (what : string) (order : list (string * string)) (m : gmap string string) : result (gmap string string) :=
  foldE (fun m kv => match eval (snd kv) with
                     | Err e => Err (EWrap ("failed to evaluate " +:+ what +:+ " " +:+ dq +:+ fst kv +:+ dq +:+ ": ") e "")
                     | Ok v => Ok (<[fst kv := v]> m)
                     end) m order.

Section http.
Context (decodeHTTPConfig : gmap string any -> result httpConfig) (decode_text : string -> result httpConfig).
(** The order of the ranges over the headers and the query. *)
Context (range : gmap string string -> list (string * string)).

Definition http_config (step : Step.t) : result httpConfig :=
  if negb (bool_decide (Step.Script step = "")) then
    match eval (Step.Script step) with
    | Err e => Err (EWrap "failed to evaluate http config: " e "")
    | Ok s => decode_text s
    end
  else
    match decodeHTTPConfig (config step) with
    | Err e => Err e
    | Ok cfg =>
        match eval (hc_Body cfg) with
        | Err e => Err (EWrap "failed to evaluate body: " e "")
        | Ok body =>
            match eval_map "header" (range (hc_Headers cfg)) (hc_Headers cfg) with
            | Err e => Err e
            | Ok headers =>
                match eval_map "query" (range (hc_Query cfg)) (hc_Query cfg) with
                | Err e => Err e
                | Ok query => Ok (mkHttpConfig (hc_Timeout cfg) headers query body (hc_Silent cfg) (hc_Debug cfg) (hc_Json cfg))
                end
            end
        end
    end.

(** Without arguments the first one is out of range. *)
Definition newHTTP (step : Step.t) : result httpExecutor :=
  match http_config step with
  | Err e => Err e
  | Ok cfg =>
      match Step.Args step with
      | [] => Err (panic "index out of range")
      | a :: _ =>
          match eval a with
          | Err e => Err (EWrap "failed to evaluate url: " e "")
          | Ok url =>
              match eval (Step.Command step) with
              | Err e => Err (EWrap "failed to evaluate method: " e "")
              | Ok method => Ok (mkHttp url method (if (0 <? hc_Timeout cfg)%Z then Some (hc_Timeout cfg) else None) cfg)
              end
          end
      end
  end.

End http.

Definition errHTTPStatusCode : error := ENew "http status code not 2xx".

(** Writes one after the other, up to the first error. *)
Fixpoint write_all (l : list string) (w : W) : W * option error :=
  match l with
  | [] => (w, None)
  | s :: l => match sys_Stdout s w with (w, Some e) => (w, Some e) | (w, None) => write_all l w end
  end.

Definition writeTextResult (cfg : httpConfig) (r : rsp) (w : W) : W * option error :=
  write_all ((if negb (IsSuccess r) || negb (hc_Silent cfg) then [rp_Status r +:+ newline; rp_Header r] else []) ++ [rp_Body r]) w.

(** [json_result] puts the status and the header, when they are shown, and the
    body into one document, if the body is one. *)
Definition writeJSONResult (json_result : option (Z * string) -> string -> result string) (cfg : httpConfig) (r : rsp) (w : W)
    : W * option error :=
  match json_result (if negb (IsSuccess r) || negb (hc_Silent cfg) then Some (rp_StatusCode r, rp_Header r) else None) (rp_Body r) with
  | Err e => (w, Some e)
  | Ok s => sys_Stdout s w
  end.

(** [Execute] of the client; [upper] is [strings.ToUpper]. *)
Definition http_Run (upper : string -> string) (Execute : string -> httpExecutor -> W -> W * result rsp)
    (json_result : option (Z * string) -> string -> result string) (e : httpExecutor) (w : W) : W * option error :=
  match Execute (upper (ht_method e)) e w with
  | (w, Err x) => (w, Some x)
  | (w, Ok r) =>
      match (if hc_Json (ht_cfg e) then writeJSONResult json_result (ht_cfg e) r w else writeTextResult (ht_cfg e) r w) with
      | (w, Some x) => (w, Some x)
      | (w, None) =>
          (w, if IsSuccess r then None else Some (EWrap "" errHTTPStatusCode (": " +:+ pretty (rp_StatusCode r))))
      end
  end.

(** ** Other machines (ssh.go) *)

Record sshExecConfigDefinition := mkSshDef {
  sd_User : string; sd_IP : string; sd_Port : string; sd_Key : string; sd_Password : string; sd_StrictHostKeyChecking : bool
}.

Record sshExecConfig := mkSsh { sh_User : string; sh_IP : string; sh_Port : string; sh_Key : string; sh_Password : string }.

Inductive AuthMethod := PublicKeys (signer : string) | Password (password : string).

Record sshExec := mkSshExec { se_step : Step.t; se_config : sshExecConfig; se_auth : AuthMethod; se_session : bool }.

Definition errStrictHostKey : error := ENew "StrictHostKeyChecking is not supported yet".

Section ssh.
(** [os.ReadFile] and [ssh.ParsePrivateKey]. *)
Context (ReadFile : string -> result string) (ParsePrivateKey : string -> result string).

Definition getPublicKeySigner (path : string) : result string :=
  match ReadFile path with
  | Err e => Err e
  | Ok key => ParsePrivateKey key
  end.

Definition selectSSHAuthMethod (cfg : sshExecConfig) : result AuthMethod :=
  if bool_decide (sh_Key cfg = "") then Ok (Password (sh_Password cfg))
  else match getPublicKeySigner (sh_Key cfg) with Err e => Err e | Ok s => Ok (PublicKeys s) end.

Definition ssh_fields (c : sshExecConfig) : list (string * string) :=
  [("User", sh_User c); ("IP", sh_IP c); ("Port", sh_Port c); ("Key", sh_Key c); ("Password", sh_Password c)].

Definition eval_ssh (c : sshExecConfig) : result sshExecConfig :=
  match fields (ssh_fields c) with
  | Err e => Err (EWrap "failed to substitute string fields for ssh config: " e "")
  | Ok vs => Ok (mkSsh (nth 0 vs "") (nth 1 vs "") (nth 2 vs "") (nth 3 vs "") (nth 4 vs ""))
  end.

(** The fields are evaluated, and then the results once more. *)
Definition newSSHExec (decode : gmap string any -> result sshExecConfigDefinition) (step : Step.t) : result sshExec :=
  match decode (config step) with
  | Err e => Err (EWrap "failed to decode ssh config: " e "")
  | Ok def =>
      let port := if bool_decide (sd_Port def = "0") || bool_decide (sd_Port def = "") then "22" else sd_Port def in
      match eval_ssh (mkSsh (sd_User def) (sd_IP def) port (sd_Key def) (sd_Password def)) with
      | Err e => Err e
      | Ok cfg =>
          if sd_StrictHostKeyChecking def then Err errStrictHostKey
          else match eval_ssh cfg with
               | Err e => Err e
               | Ok cfg =>
                   match selectSSHAuthMethod cfg with
                   | Err e => Err e
                   | Ok auth => Ok (mkSshExec step cfg auth false)
                   end
               end
      end
  end.

(** [net.JoinHostPort]. *)
Definition JoinHostPort (h p : string) : string :=
  if contains h ":" then "[" +:+ h +:+ "]:" +:+ p else h +:+ ":" +:+ p.

(** Connecting, a session, and a command in it. *)
Context (ssh_Dial : string -> string -> AuthMethod -> W -> W * result Z) (NewSession : Z -> W -> W * option error).
Context (session_Run : Z -> string -> W -> W * option error) (session_Close : Z -> W -> W * option error).

(** The connection itself is not closed. *)
Definition ssh_Run (e : sshExec) (w : W) : W * sshExec * option error :=
  match ssh_Dial (JoinHostPort (sh_IP (se_config e)) (sh_Port (se_config e))) (sh_User (se_config e)) (se_auth e) w with
  | (w, Err x) => (w, e, Some x)
  | (w, Ok conn) =>
      match NewSession conn w with
      | (w, Some x) => (w, e, Some x)
      | (w, None) =>
          let e := mkSshExec (se_step e) (se_config e) (se_auth e) true in
          let '(w, x) := session_Run conn (join (Step.Command (se_step e) :: Step.Args (se_step e)) " ") w in
          (fst (session_Close conn w), e, x)
      end
  end.

Definition ssh_Kill (conn : Z) (e : sshExec) (w : W) : W * option error :=
  if se_session e then session_Close conn w else (w, None).

End ssh.

End common.

(** A status of 2xx, and nothing else, is a success. *)
Lemma http_Run_success {W : Type} `{!Sys W} upper Execute json_result (e : httpExecutor) (w : W) :
  snd (http_Run upper Execute json_result e w) = None ->
  exists w1 r, Execute (upper (ht_method e)) e w = (w1, Ok r) /\ (200 <= rp_StatusCode r < 300)%Z.
Proof.
  unfold http_Run. destruct (Execute _ e w) as [w1 [r|x]]; [|done].
  destruct (if hc_Json _ then _ else _) as [w2 [x|]]; simpl; [done|].
  destruct (IsSuccess r) eqn:E; [|done]. intros _. exists w1, r. split; [done|].
  unfold IsSuccess in E. apply andb_true_iff in E as [H1%Z.ltb_lt H2%Z.ltb_lt]. lia.
Qed.

(** ** Where the output of an executor goes *)

Section io.
Context {A : Type}.

(** The two streams of an executor, when they are set. *)
Record io := mkIo { io_stdout : option A; io_stderr : option A }.

Definition command_SetStdout (out : A) (e : io) : io := mkIo (Some out) (io_stderr e).
Definition command_SetStderr (out : A) (e : io) : io := mkIo (io_stdout e) (Some out).
Definition sub_SetStdout (out : A) (e : io) : io := mkIo (Some out) (io_stderr e).
Definition sub_SetStderr (out : A) (e : io) : io := mkIo (io_stdout e) (Some out).
Definition mail_SetStdout (out : A) (e : io) : io := mkIo (Some out) (io_stderr e).
Definition mail_SetStderr (out : A) (e : io) : io := mkIo (io_stdout e) (Some out).
Definition jq_SetStdout (out : A) (e : io) : io := mkIo (Some out) (io_stderr e).
Definition jq_SetStderr (out : A) (e : io) : io := mkIo (io_stdout e) (Some out).

(** These have one stream, which both set. *)
Definition http_SetStdout (out : A) (e : io) : io := mkIo (Some out) (io_stderr e).
Definition http_SetStderr (out : A) (e : io) : io := mkIo (Some out) (io_stderr e).
Definition ssh_SetStdout (out : A) (e : io) : io := mkIo (Some out) (io_stderr e).
Definition ssh_SetStderr (out : A) (e : io) : io := mkIo (Some out) (io_stderr e).
Definition docker_SetStdout (out : A) (e : io) : io := mkIo (Some out) (io_stderr e).
Definition docker_SetStderr (out : A) (e : io) : io := mkIo (Some out) (io_stderr e).

Definition own_streams : list ((A -> io -> io) * (A -> io -> io)) :=
  [(command_SetStdout, command_SetStderr); (sub_SetStdout, sub_SetStderr);
   (mail_SetStdout, mail_SetStderr); (jq_SetStdout, jq_SetStderr)].
Definition one_stream : list ((A -> io -> io) * (A -> io -> io)) :=
  [(http_SetStdout, http_SetStderr); (ssh_SetStdout, ssh_SetStderr); (docker_SetStdout, docker_SetStderr)].

(** What [setupExecutorIO] does with the writers it chose: the standard output, then
    the errors. *)
Definition connect (setters : (A -> io -> io) * (A -> io -> io)) (out : A * A) (e : io) : io :=
  snd setters (snd out) (fst setters (fst out) e).

Lemma connect_own setters out e : setters ∈ own_streams -> connect setters out e = mkIo (Some (fst out)) (Some (snd out)).
Proof. unfold own_streams. rewrite !elem_of_cons, elem_of_nil. intuition (subst; done). Qed.

Lemma connect_one setters out e : setters ∈ one_stream -> io_stdout (connect setters out e) = Some (snd out).
Proof. unfold one_stream. rewrite !elem_of_cons, elem_of_nil. intuition (subst; done). Qed.
End io.

(** With a file for the errors, the output of a request, of another machine or of a
    container goes there and nowhere else: neither to the log of the step nor to the
    variable that was to capture it. *)
Lemma output_goes_to_errors setters oc data oc' out (e : io) : setters ∈ one_stream ->
  OutputCoordinator.setupExecutorIO None oc data = (oc', Ok out) -> is_Some (OutputCoordinator.stderrFile oc) ->
  io_stdout (connect setters out e) = Some [OutputCoordinator.ToStderr].
Proof.
  intros Hs Hout [f Hf]. rewrite (connect_one _ _ _ Hs). unfold OutputCoordinator.setupExecutorIO in Hout. rewrite Hf in Hout.
  case_bool_decide; by simplify_eq.
Qed.
