(* ===== verification/Docker.v ===== *)
(** * Containers: internal/digraph/executor/docker.go

    The choice between a new container and a command in a running one, and the
    calls that are made of the Docker client, which is an argument, with the types
    of its configurations. *)

From stdpp Require Import pretty.
From S2P Require Import Prelude GoStrings Vars Digraph CmdUtil Eval Contexts StructEval Executors.

(** The Docker client: configurations, and its calls on the outside. *)
Class DockerClient (W CC HC NC EC : Type) := mkDocker {
  (** [container.Config]: command, image, environment. *)
  cc_empty : CC;
  cc_Env : CC -> list string;
  cc_set : list string -> option string -> list string -> CC -> CC;
  hc_empty : HC;
  hc_AutoRemove : HC -> bool;
  hc_clear_AutoRemove : HC -> HC;
  nc_empty : NC;
  ec_empty : EC;
  (** the options of a command in a container: its words, with the streams attached. *)
  ec_set_Cmd : list string -> EC -> EC;
  NewClient : W -> W * option error;
  ImagePull : string -> W -> W * result string;
  ContainerCreate : CC -> HC -> NC -> W -> W * result string;
  ContainerRemove : string -> W -> W * option error;
  ContainerStart : string -> W -> W * option error;
  ContainerLogs : string -> W -> W * option error;
  (** the error or the exit status, whichever channel answers *)
  ContainerWait : string -> W -> W * (option error + Z);
  ContainerInspect : string -> W -> W * result bool;
  ContainerExecCreate : string -> EC -> W -> W * result string;
  ContainerExecAttach : string -> W -> W * option error;
  ContainerExecInspect : string -> W -> W * result (bool * Z);
  (** whether the context of the run is done, and its error *)
  ctx_Done : W -> option error
}.

Section docker.
Context {W CC HC NC EC : Type} `{!Sys W, !DockerClient W CC HC NC EC}.
Context (lookupEnv : string -> option string) (runCommand : string -> result string) (jqlib : string -> string -> option string).
Context (order : SyncMap.t -> list (string * string)) (parseBool : string -> result bool).
Context (sc : StepContext.t).

Abbreviation eval s := (step_EvalString lookupEnv jqlib runCommand order sc s []).
Abbreviation eval_bool v := (EvalBool lookupEnv jqlib runCommand order parseBool sc v).

Record docker := mkDockerExec {
  dk_image : string;
  dk_containerName : string;
  dk_pull : bool;
  dk_autoRemove : bool;
  dk_step : Step.t;
  dk_containerConfig : CC;
  dk_hostConfig : HC;
  dk_networkConfig : NC;
  dk_execConfig : EC
}.

(** A part of the configuration: decoded, then its strings evaluated. *)
Definition part {A} (decode : any -> result A) (eval_fields : A -> result A) (empty : A) (v : option any) : result A :=
  match v with
  | None => Ok empty
  | Some v =>
      match decode v with
      | Err e => Err (EWrap "failed to decode config: " e "")
      | Ok c => match eval_fields c with Err e => Err (EWrap "failed to evaluate string fields: " e "") | Ok c => Ok c end
      end
  end.

Definition bool_option (name : string) (default : bool) (v : option any) : result bool :=
  match v with
  | None => Ok default
  | Some v => match eval_bool v with Err e => Err (EWrap ("failed to evaluate " +:+ name +:+ " value: ") e "") | Ok b => Ok b end
  end.

Definition any_string (v : option any) : option string := match v with Some (VStr s) => Some s | _ => None end.

Context (decode_container : any -> result CC) (fields_container : CC -> result CC).
Context (decode_host : any -> result HC) (fields_host : HC -> result HC).
Context (decode_network : any -> result NC) (fields_network : NC -> result NC).
Context (decode_exec : any -> result EC) (fields_exec : EC -> result EC).

(** The client does not remove the container: the executor does. *)
Definition newDocker (step : Step.t) : result docker :=
  let cfg := ExecutorConfig.Config (Step.ExecutorConfig step) in
  containerConfig ← part decode_container fields_container cc_empty (cfg !! "container");
  hostConfig ← part decode_host fields_host hc_empty (cfg !! "host");
  networkConfig ← part decode_network fields_network nc_empty (cfg !! "network");
  execConfig ← part decode_exec fields_exec ec_empty (cfg !! "exec");
  let auto := hc_AutoRemove hostConfig in
  let hostConfig := if auto then hc_clear_AutoRemove hostConfig else hostConfig in
  autoRemove ← bool_option "autoRemove" auto (cfg !! "autoRemove");
  pull ← bool_option "pull" true (cfg !! "pull");
  let exec image name := mkDockerExec image name pull autoRemove step containerConfig hostConfig networkConfig execConfig in
  match any_string (cfg !! "containerName"), any_string (cfg !! "image") with
  | Some name, _ => match eval name with Err e => Err (EWrap "failed to evaluate containerName: " e "") | Ok v => Ok (exec "" v) end
  | None, Some img => match eval img with Err e => Err (EWrap "failed to evaluate image: " e "") | Ok v => Ok (exec v "") end
  | None, None => Err (ENew "either containerName or image must be specified")
  end.

(** ** A command in a running container *)

(** The command is asked about, again and again, until it has ended or the run
    was cancelled. *)
Fixpoint wait_exec (fuel : nat) (id : string) (w : W) : option (W * option error) :=
  match fuel with
  | 0 => None
  | S fuel =>
      match ContainerExecInspect id w with
      | (w, Err e) => Some (w, Some (EWrap "failed to inspect exec: " e ""))
      | (w, Ok (running, code)) =>
          if running then
            match ctx_Done w with Some e => Some (w, Some e) | None => wait_exec fuel id w end
          else Some (w, if (code =? 0)%Z then None else Some (ENew ("exec failed with exit code: " +:+ pretty code)))
      end
  end.

Definition execInContainer (fuel : nat) (e : docker) (args : list string) (w : W) : option (W * option error) :=
  let name := dk_containerName e in
  match ContainerInspect name w with
  | (w, Err x) => Some (w, Some (EWrap ("failed to inspect container " +:+ name +:+ ": ") x ""))
  | (w, Ok false) => Some (w, Some (ENew ("container " +:+ name +:+ " is not running")))
  | (w, Ok true) =>
      match ContainerExecCreate name (ec_set_Cmd (Step.Command (dk_step e) :: args) (dk_execConfig e)) w with
      | (w, Err x) => Some (w, Some (EWrap "failed to create exec: " x ""))
      | (w, Ok id) =>
          match ContainerExecAttach id w with
          | (w, Some x) => Some (w, Some (EWrap "failed to start exec: " x ""))
          | (w, None) => wait_exec fuel id w
          end
      end
  end.

(** ** A container of its own *)

(** Once: by the end of the run, or by the signal. *)
Definition removeContainer (e : docker) (id : string) (w : W) : W :=
  if dk_autoRemove e then fst (ContainerRemove id w) else w.

Definition attachAndWait (id : string) (w : W) : W * option error :=
  match ContainerLogs id w with
  | (w, Some x) => (w, Some x)
  | (w, None) =>
      match ContainerWait id w with
      | (w, inl x) => (w, x)
      | (w, inr code) => (w, if (code =? 0)%Z then None else Some (ENew ("exit status " +:+ pretty code)))
      end
  end.

Definition run_container (e : docker) (args : list string) (w : W) : W * option error :=
  let pulled :=
    if dk_pull e then
      match ImagePull (dk_image e) w with
      | (w, Err x) => (w, Some x)
      | (w, Ok text) => sys_Stdout text w
      end
    else (w, None) in
  match pulled with
  | (w, Some x) => (w, Some x)
  | (w, None) =>
      match mapE (fun v => match eval v with Err x => Err (EWrap ("failed to evaluate env " +:+ v +:+ ": ") x "") | Ok s => Ok s end)
              (cc_Env (dk_containerConfig e)) with
      | Err x => (w, Some x)
      | Ok env =>
          let image := if bool_decide (dk_image e = "") then None else Some (dk_image e) in
          match ContainerCreate (cc_set (Step.Command (dk_step e) :: args) image env (dk_containerConfig e))
                  (dk_hostConfig e) (dk_networkConfig e) w with
          | (w, Err x) => (w, Some x)
          | (w, Ok id) =>
              let '(w, x) :=
                match ContainerStart id w with
                | (w, Some x) => (w, Some x)
                | (w, None) => attachAndWait id w
                end in
              (removeContainer e id w, x)
          end
      end
  end.

Definition docker_Run (fuel : nat) (e : docker) (w : W) : option (W * option error) :=
  match NewClient w with
  | (w, Some x) => Some (w, Some x)
  | (w, None) =>
      match mapE (fun a => match eval a with Err x => Err (EWrap ("failed to evaluate arg " +:+ a +:+ ": ") x "") | Ok s => Ok s end)
              (Step.Args (dk_step e)) with
      | Err x => Some (w, Some x)
      | Ok args =>
          if negb (bool_decide (dk_containerName e = "")) then execInContainer fuel e args w
          else Some (run_container e args w)
      end
  end.

(** The outside after some questions. *)
Fixpoint asked (n : nat) (id : string) (w : W) : W :=
  match n with 0 => w | S n => asked n id (fst (ContainerExecInspect id w)) end.

(** The waiting ends as soon as the command is seen to have ended, cannot be
    asked about, or the run was cancelled. *)
Lemma wait_exec_ends id n w :
  (let '(w', r) := ContainerExecInspect id (asked n id w) in
   match r with Ok (true, _) => is_Some (ctx_Done w') | _ => True end) ->
  is_Some (wait_exec (S n) id w).
Proof.
  revert w. induction n as [|n IH]; intros w H; cbn [wait_exec asked] in *.
  - destruct (ContainerExecInspect id w) as [w1 [[[] code]|e]]; [|by eexists..].
    destruct H as [e ->]. by eexists.
  - destruct (ContainerExecInspect id w) as [w1 [[[] code]|e]] eqn:E; [|by eexists..].
    destruct (ctx_Done w1) as [e|]; [by eexists|]. apply IH. exact H.
Qed.

End docker.
